(* ===== verification/_CoqProject ===== *)
-Q . S2P
Prelude.v
DecimalText.v
Doubles.v
Amounts.v
Asset.v
Entries.v
Names.v
Addresses.v
ChainInterface.v
ChainState.v
AssetEntry.v
EvalState.v
BalanceOperations.v
AccountOperations.v
AssetOperations.v
DataOperations.v
ContractOperations.v
Evaluate.v
Ledger.v
QuietOperations.v
Refinement.v
Transactions.v
AccountForms.v
Conservation.v
Safety.v
Blocks.v
ForkDatabase.v
ForkTree.v
ForkStore.v
ForkMarks.v
ForkSamples.v
PendingChainState.v
Undo.v
LevelMaps.v
ChainTables.v
Delegates.v
DelegateLists.v
DelegateProduction.v
ChainDatabase.v
Pending.v
LedgerTables.v
TransferCheck.v
BlockLaws.v
BlockEffects.v
PendingLaws.v
ChainExtension.v
ForkSwitch.v
Anchor.v
PushBlock.v
ChainLedger.v
ChainIndex.v
Genesis.v
Reached.v
Queries.v
FindBlock.v
QueryLaws.v
BlockSamples.v
PendingSamples.v
GenesisSamples.v
SyncClient.v
SyncNode.v
SyncRequests.v
SyncLaws.v
SyncSamples.v
WalletDb.v
WalletDbLaws.v
WalletDbStore.v
WalletKeys.v
WalletDbSamples.v
Total.v
Wallet.v
WalletFunds.v
WalletCommands.v
WalletDraws.v
TransferEvaluation.v
TransferSettles.v
TransferBuilds.v
TransactionBuilder.v
BuilderBooks.v
WalletSamples.v
