(* ===== verification/Prelude.v ===== *)
(** * A verified model of the Achain blockchain core

    Achain is a delegated proof of stake chain.  This development models the
    part of it that decides what the chain is: src/src/Chain/libraries/
    blockchain, with the maps of include/db it is stored in, the part of
    net and client by which nodes fetch blocks from each other, and the
    wallet: its database of accounts and keys, and how it makes transactions
    of what it may spend.  File names below are relative to
    src/src/Chain/libraries.

    ** The program

    A transaction (Transaction.hpp) is a list of operations with signatures.
    TransactionEvaluationState evaluates the operations one by one on a
    pending state, keeps books of what is withdrawn and deposited, and settles
    fees at the end.  A PendingChainState is an overlay of stored and removed
    entries over a state below; both it and ChainDatabase implement
    ChainInterface, and applying an overlay writes it to the state below.  A
    block (Block.hpp) is a signed header and transactions; ChainDatabase keeps
    every block it was sent in a tree, applies the blocks of the longest valid
    branch to its tables, each through a pending state whose undo state is
    kept, and switches branches by taking blocks back.  Transactions that are
    not in a block wait in a queue, from which a delegate fills its blocks.
    A node (net/Node.cpp) exchanges summaries of chains with its peers, asks
    them for the blocks it lacks, and hands what arrives to its client
    (client/Client.cpp), which pushes it to the database.  A wallet
    (wallet/WalletDb.cpp) keeps accounts, encrypted keys and transactions in
    a map on disk, with caches to look them up.  Its commands
    (wallet/Wallet.cpp) and its transaction builder
    (wallet/TransactionBuilder.cpp) draw what a payment needs from the
    balances it knows of, and sign for their owners.

    ** The files

    Data.  Prelude: integers with their wrap-around, exceptions, the state
    and error monad [M S A] with the tactics that run it.  DecimalText and
    Asset: amounts, prices and their text (blockchain/Asset.cpp).  Entries:
    the structs and tagged unions of include/blockchain/.  Names: names,
    symbols, fees and pay (ChainInterface.cpp).  Addresses: the text of
    addresses (Address.cpp, PtsAddress.cpp).

    States.  ChainInterface: the class of chain states, its laws, and the
    store and remove functions of every entry with their secondary indexes.
    ChainState and AssetEntry: the members written on the interface.
    PendingChainState: the overlay, an instance over any instance.
    ChainTables: the maps of ChainDatabaseImpl, another instance.  LevelMaps:
    the cached maps of include/db, which refine finite maps.

    Transactions.  EvalState: TransactionEvaluationState.  BalanceOperations,
    AccountOperations, AssetOperations, DataOperations, ContractOperations:
    one evaluate function per operation.  Evaluate: the dispatch and
    TransactionEvaluationState::evaluate.

    Blocks.  Blocks: headers and digests (Block.cpp).  ForkDatabase: the block
    tree.  Delegates: slots, production, pay and the election.
    ChainDatabase: checking, applying and undoing blocks, switching forks and
    push_block.  Pending: the queue of transactions and generate_block.
    Genesis: initialize_genesis.  Queries and FindBlock: the questions a
    ChainDatabase answers without changing.

    Synchronisation.  SyncClient: what the client answers its node.  SyncNode:
    the peers of a node, what was asked of whom, and a Definition per message
    handler or task; SyncRequests makes them the steps of a relation.

    Wallet.  Doubles and Amounts: amounts typed by a user
    (utilities/CommonApi.cpp, wallet/Wallet.cpp), through double arithmetic.
    WalletDb: the entries and the database of a wallet (wallet/WalletEntrys.cpp,
    wallet/WalletDb.cpp); an operation is a Definition over the record of its
    maps.  Wallet: keys, accounts, contacts, fees and limits.  WalletFunds: the
    members of Transaction by which a transaction is put together, the
    balances of a wallet, drawing from them, the slates it votes with.  WalletCommands: signing and the commands, in the monad of a
    wallet and a draft.  TransactionBuilder: the builder, in the monad of its
    record.

    Functions of C++ and of the model have the
    same names; a method of a class that reads a chain state takes it as an
    argument, one that changes it is an [M] over it.  An exception is the
    [Err] of a run, and the state at that point is kept, as in the code.

    ** The theorems

    - Ledger is an abstract ledger: effects on balances, accounts, assets and
      books.  QuietOperations, Refinement and Transactions show that every
      transaction that evaluates, with that exception, refines it.  Conservation and Safety draw the
      consequences: shares held less shares issued is conserved, entries stay
      well formed, nothing is taken from owners who have not signed, fees are
      what goes in less what comes out, assets keep their rules.  They hold of
      contract results too, the safety of funds excepted, up to multiples of
      2^64 where shares are counted, and unless a result nests another
      transaction behind its first operation (see below).
      AccountForms: what a transaction writes can be applied and undone.
    - Undo: applying an overlay writes what its lookups answered, and the undo
      state takes it back.  LedgerTables discharges the classes for both
      states and has samples, some of which show how the ledger is broken.
    - ForkTree, ForkStore, ForkMarks: the tree keeps its invariant, blocks
      arriving in any order are linked exactly when their ancestors are there,
      the marking loops end and mark exactly the descendants.
    - DelegateLists, DelegateProduction: the election, the slots, the blocks
      missed, and the pay, which is covered by fees and new supply.
    - BlockLaws, BlockEffects, ChainExtension: a block is accepted or rejected
      as a whole; accepting it conserves shares modulo 2^64 if its
      transactions settle, and taking it back restores
      the chain.  ForkSwitch, Anchor and PushBlock: switching ends and keeps the
      invariant of chain and tree whatever fails, and after a push of a
      block that may come ([pushable]) no stored block that is linked and not
      invalid is higher than the head.
    - ChainLedger, ChainIndex and Reached put these together: every database
      reached from a good genesis state (Genesis) by blocks each of which may
      come and settles ([acceptable]) has chain, tree, ledger and the index of
      blocks by number in agreement.
    - QueryLaws and FindBlock: the supply counted from the entries of such a
      database is the recorded one, and the search for a block by time ends
      at the last block that is not later.
    - SyncRequests and SyncLaws: a block is asked of one peer at a time,
      synopses sum up a chain, what a peer answers keeps the list of items to
      get a run of its chain, and every exchange lengthens it.
    - TransferCheck and PendingLaws: what a producer takes for a transfer, and
      what it puts into a block, whose size is not bounded: the result of a
      contract may be larger than the transaction that was admitted.
    - Asset, Names, Addresses, LevelMaps: round trips, rounding, the grammar
      of names, the finite maps behind the caches.
    - Amounts: a typed amount is read as the shares it says.  WalletDbLaws:
      keys stay under their addresses, and store_key and store_account, which
      call each other, do so twice at most.  WalletDbStore: caches and disk
      agree, and a wallet opens again as it was closed.  WalletKeys: private
      keys are not lost, new accounts and keys are new and usable, and a
      change of the password keeps every key.
    - Total is a logic of runs that succeed.  WalletDraws: a withdrawal succeeds
      exactly when there are funds, and draws exactly what is asked for.
      TransferEvaluation, TransferSettles and TransferBuilds put the wallet and
      the chain together: what the wallet makes of a transfer evaluates on the
      state it was made for, which collects exactly the fee.  BuilderBooks: a
      transaction of the builder takes in what it pays out and the fee.
    - ForkSamples, BlockSamples, PendingSamples, GenesisSamples, SyncSamples,
      WalletDbSamples, WalletSamples: concrete chains, peers and wallets on
      which the theorems are applied.

    ** Parameters, bounds and fuel

    Code outside src/ or of third parties is a parameter: [FcNumerics] (big
    integers of fc), [ChainParams] (addresses, sizes and identifiers
    of packed data, key recovery), [HashParams] (base58 and hashes),
    [PackParams] and [NetParams] (sizes of blocks),
    [BlockParams] with [BlockHashes] (block digests and signatures; that a
    block is not its own ancestor is a rank of identifiers), [Clock], and
    [GluaVM] (the virtual machine of contracts, which may change the
    evaluation it is given).  [NodeParams] and DelegateConfig are options.
    [WalletCrypto] is the cipher of a wallet and the derivation of its keys,
    with [CipherLaws] (what is encrypted decrypts) and [AddressLaws] (different
    keys have different addresses); its unset_owner_key is what store_account
    reads from an optional that was never set.  [Machine] is what a double
    that does not fit an integer is cast to.  [WalletParams] with
    [WalletParamsLaws] is what the wallet needs of fc and of the standard
    library: conversions of variants, the order of hashed containers, which has
    every element once, and shuffling; [SlateVariants] puts a slate into the
    data of an account.  [SigningLaws] says that a signature recovers the key
    that made it, and that what is signed does not depend on the signatures;
    [SteadyClock] that storing an entry does not change the time.

    Loops of the code that are not structural take fuel, and running out of it
    is the exception [does_not_return], which no catch of the model catches.
    The fuel is the length of the text in the scan of names; the number of
    entries of the tree for the marking loops, the history of a fork
    and pop_until, enough by the rank of identifiers (ForkTree, ForkMarks,
    ForkSwitch show that the exception does not occur); the number of slots
    between two blocks for the missed slots (DelegateProduction); the number
    of the head for the search by time (FindBlock); as many tries as there
    are keys and one more for a new child key, and two calls of store_key
    inside one another (WalletKeys and WalletDbLaws show that they are enough); the 32 bits of a block
    number and one for synopses (SyncLaws); the received blocks for the
    backlog.
    [division_trap] is an integer division by zero, which ends the process.

    The handlers of a node are atomic in the model: where the code may switch
    to another fiber inside one, while it waits for the client or the socket,
    the model does not, and assertions that a release build leaves out are not
    there.  Doubles of find_block_num are rationals rounded to 53 bits.

    The code keeps the undo states of ALP_BLOCKCHAIN_MAX_UNDO_HISTORY blocks,
    an hour of them.  The theorems on forks ask that numbers grow along the
    branches and that forks leave the chain at an anchor or above it, a block
    of the chain at most that far below any block that can be linked (Anchor);
    for the first hour the genesis block is one.  Later they ask that the forks
    tried above the anchor do not all fail (push_follows).  They ask that an
    orphan does not come while blocks of the future wait to be rechecked
    (push_linked): the code then forgets that those are invalid without trying
    them, and the head stays behind (BlockSamples.orphan_leaves_head_behind).

    The theorems on the ledger ask that transactions pay required fees
    ([settles], which leaves out incomplete results: a deposit in one is never
    paid for, LedgerTables.incomplete_result_makes_shares) and that account ids
    do not run out ([sound]).  They ask that the operations of a result behind
    the first are no transactions ([plain]): check_operations_legality does not
    refuse them, and such a nested transaction is settled in the books of the
    result, which are then settled again, so that fees are collected twice
    (LedgerTables.nested_result_settles_twice).  The theorem that transfers are
    accepted asks that the fee covers the signatures, for which the wallet
    charges nothing, and that the state agrees with what the wallet knows.

    ** Not modelled

    Block entries and statistics (store of BlockEntry, slot statistics of
    address_to_transactions, recent operations), observers and notifications,
    opening, reindexing and closing the database files, reading a genesis file
    and the built-in one, checkpoints files, simulated and NTP time.  The
    event vectors of pending states.  The threads of the signature jobs: the
    model runs each job where it is submitted.  The list and the graph of
    forks and the issuance map.  Of the network: handshakes, time-outs, the
    loops that advertise and fetch single items, the message cache, the
    database of peers, bandwidth and sockets.  Serialization (fc::raw),
    digests, elliptic curves and memo encryption, and so the commands that
    send a memo or an escrow.  TransactionCreationState.  Of the wallet:
    unlocking and locking with their tasks, backups, settings, contracts and
    scripts, creating and updating assets, withdrawing pay, removing accounts,
    repair and export, the scan of blocks, which is a thousand lines of
    bookkeeping over transactions the chain has accepted, and printing.
    RPC, command line and the rest of the client, and the GLUA virtual machine, a
    modified Lua interpreter. *)

From Stdlib Require Import ZArith Lia List Bool String Ascii.
From stdpp Require Import base gmap strings list fin_maps sets countable sorting.

#[global] Open Scope Z_scope.

(** ** Machine integers

    A C++ integer is a [Z]; the wrap-around of its width is written where the
    source can reach it.  Signed overflow, undefined in C++, is given the
    two's complement result the supported compilers produce. *)

Definition INT64_MAX : Z := 2 ^ 63 - 1.
Definition INT64_MIN : Z := - 2 ^ 63.
Definition UINT64_MAX : Z := 2 ^ 64 - 1.
Definition UINT32_MAX : Z := 2 ^ 32 - 1.

Definition wrap_u64 (z : Z) : Z := z mod 2 ^ 64.
Definition wrap_u32 (z : Z) : Z := z mod 2 ^ 32.
Definition wrap_u128 (z : Z) : Z := z mod 2 ^ 128.
Definition wrap_i64 (z : Z) : Z := (z + 2 ^ 63) mod 2 ^ 64 - 2 ^ 63.
Definition wrap_i32 (z : Z) : Z := (z + 2 ^ 31) mod 2 ^ 32 - 2 ^ 31.

Definition in_i64 (z : Z) : Prop := INT64_MIN <= z <= INT64_MAX.
Definition in_u64 (z : Z) : Prop := 0 <= z <= UINT64_MAX.

Lemma wrap_u64_small z : 0 <= z < 2 ^ 64 -> wrap_u64 z = z.
Proof. intros. unfold wrap_u64. now apply Z.mod_small. Qed.

Lemma wrap_u32_small z : 0 <= z < 2 ^ 32 -> wrap_u32 z = z.
Proof. intros. unfold wrap_u32. now apply Z.mod_small. Qed.

Lemma wrap_u128_small z : 0 <= z < 2 ^ 128 -> wrap_u128 z = z.
Proof. intros. unfold wrap_u128. now apply Z.mod_small. Qed.

Lemma wrap_i64_small z : in_i64 z -> wrap_i64 z = z.
Proof.
  unfold in_i64, INT64_MIN, INT64_MAX, wrap_i64. intros.
  rewrite Z.mod_small; lia.
Qed.

Lemma wrap_u64_range z : 0 <= wrap_u64 z < 2 ^ 64.
Proof. unfold wrap_u64. apply Z.mod_pos_bound. lia. Qed.

(** One turn above the range. *)
Lemma wrap_i64_sub z : 2 ^ 63 <= z < 2 ^ 63 + 2 ^ 64 -> wrap_i64 z = z - 2 ^ 64.
Proof.
  unfold wrap_i64. intros Hz.
  replace (z + 2 ^ 63) with (z - 2 ^ 63 + 1 * 2 ^ 64) by lia.
  rewrite Z_mod_plus_full, Z.mod_small; lia.
Qed.

Lemma wrap_i64_turns z : exists k, wrap_i64 z = z + k * 2 ^ 64.
Proof.
  exists (- ((z + 2 ^ 63) / 2 ^ 64)). unfold wrap_i64.
  pose proof (Z.div_mod (z + 2 ^ 63) (2 ^ 64)). lia.
Qed.

Lemma wrap_i64_range z : in_i64 (wrap_i64 z).
Proof.
  unfold in_i64, INT64_MIN, INT64_MAX, wrap_i64.
  pose proof (Z.mod_pos_bound (z + 2 ^ 63) (2 ^ 64)). lia.
Qed.

(** ** Exceptions

    The exception classes the modelled code throws, by the names of
    include/blockchain/Exceptions.hpp; [assert_exception] is what FC_ASSERT
    throws, the overflow classes are those of fc::safe.  [out_of_range] is
    std::out_of_range ([unordered_map::at]); [division_trap] stands for an
    integer division by zero, which terminates the process, and
    [does_not_return] for a loop that runs on. *)
Inductive exn : Type :=
  | assert_exception
  | overflow_exception
  | underflow_exception
  | out_of_range
  | out_of_range_exception
  | division_trap
  | does_not_return
  | key_not_found_exception
  | bad_cast_exception
  | addition_overflow
  | subtraction_overflow
  | asset_type_mismatch
  | asset_divide_by_self
  | asset_divide_by_zero
  | duplicate_transaction
  | illegal_transaction
  | block_numbers_not_sequential
  | invalid_previous_block_id
  | invalid_block_time
  | time_in_past
  | time_in_future
  | invalid_block_digest
  | invalid_delegate_signee
  | failed_checkpoint_verification
  | unknown_block
  | block_older_than_undo_history
  | out_of_max_trx_size
  | negative_deposit
  | not_a_delegate
  | unknown_balance_entry
  | insufficient_funds
  | missing_signature
  | invalid_withdraw_condition
  | negative_withdraw
  | expired_transaction
  | invalid_transaction_expiration
  | operator_and_owner_not_the_same
  | too_much_signature
  | deposit_to_one_address_twice
  | too_much_deposit
  | invalid_account_name
  | unknown_account_id
  | unknown_account_name
  | account_already_registered
  | account_key_in_use
  | account_retracted
  | unknown_delegate_slate
  | too_may_delegates_in_slate
  | pay_balance_remaining
  | invalid_precision
  | invalid_asset_symbol
  | unknown_asset_id
  | asset_symbol_in_use
  | invalid_asset_amount
  | negative_issue
  | over_issue
  | unknown_asset_symbol
  | asset_id_in_use
  | not_user_issued
  | invalid_asset_name
  | insufficient_fee
  | negative_fee
  | insufficient_relay_fee
  | price_multiplication_overflow
  | price_multiplication_underflow
  | price_multiplication_undefined
  | not_be_result_of_execute
  | in_result_of_execute
  | ignore_check_required_fee_state
  | message_too_long
  | unsupported_chain_operation
  | event_parameter_length_over_limit
  | contract_error
  | contract_address_in_use
  | contract_not_exist
  | contract_upgraded
  | contract_destroyed
  | contract_name_illegal
  | contract_desc_illegal
  | contract_name_in_use
  | permanent_contract
  | contract_run_out_of_money
  | method_not_exist
  | method_can_not_be_called_explicitly
  | contract_parameter_length_over_limit
  | invalid_margin_amount
  | transfer_amount_not_bigger_than_0
  | code_hash_error
  | contract_run_out_of_testing_money
  | contract_execute_error_in_testing
  | contract_execute_error
  | lua_executor_internal_error
  | parse_error_exception
  | invalid_address
  | invalid_pts_address
  | unlinkable_block
  | unspecified_exception
  | invalid_argument
  | wallet_closed
  | wallet_locked
  | unknown_receive_account
  | unknown_account
  | invalid_name
  | memo_too_long
  | key_already_registered
  | duplicate_account_name
  | invalid_delegate_pay_rate
  | account_not_registered
  | invalid_slate
  | invalid_fee
  | imessage_size_bigger_than_soft_max_lenth
  | aes_exception
  | duplicate_key
  | password_too_short
  | invalid_password
  | invalid_expiration_time
  | invalid_transaction_imessage_fee_coe
  | invalid_transaction_imessage_soft_length.

#[export] Instance exn_eq_dec : EqDecision exn.
Proof. solve_decision. Defined.

(** What a catch of fc::exception catches: neither the trap, which ends the
    process, nor a loop that runs on. *)
Definition fc_exception (e : exn) : bool :=
  negb (bool_decide (e = division_trap) || bool_decide (e = does_not_return)).

(** ** Results and the state monad

    A function that throws is a [result].  A member function that mutates an
    object and may throw is an [M]: the state reached before the throw is
    kept, as it is in C++, and the caller decides whether it is observed. *)
Inductive result (A : Type) : Type :=
  | Ok (a : A)
  | Err (e : exn).
Arguments Ok {A} a.
Arguments Err {A} e.

Definition M (S A : Type) : Type := S -> result A * S.

Definition ret {S A} (a : A) : M S A := fun s => (Ok a, s).
Definition throw {S A} (e : exn) : M S A := fun s => (Err e, s).
Definition bind {S A B} (m : M S A) (k : A -> M S B) : M S B :=
  fun s => match m s with
           | (Ok a, s') => k a s'
           | (Err e, s') => (Err e, s')
           end.
Definition get {S} : M S S := fun s => (Ok s, s).
Definition gets {S A} (f : S -> A) : M S A := fun s => (Ok (f s), s).
Definition modify {S} (f : S -> S) : M S unit := fun s => (Ok tt, f s).
Definition lift_result {S A} (r : result A) : M S A := fun s => (r, s).
(** FC_ASSERT( b ) and  if( c ) FC_CAPTURE_AND_THROW( e ) *)
Definition fc_assert {S} (b : bool) : M S unit :=
  if b then ret tt else throw assert_exception.
Definition throw_if {S} (b : bool) (e : exn) : M S unit :=
  if b then throw e else ret tt.
(** FC_ASSERT( o.valid() ) or  if( !o.valid() ) throw e , then [*o] *)
Definition valid_or {S A} (o : option A) (e : exn) : M S A :=
  match o with Some a => ret a | None => throw e end.

Definition result_bind {A B} (r : result A) (k : A -> result B) : result B :=
  match r with Ok a => k a | Err e => Err e end.
Definition result_assert (b : bool) : result unit :=
  if b then Ok tt else Err assert_exception.

Declare Scope chain_scope.
Delimit Scope chain_scope with chain.
#[global] Open Scope chain_scope.
Notation "x <- m ;; k" := (bind m (fun x => k))
  (at level 80, m at next level, right associativity) : chain_scope.
Notation "m ;;; k" := (bind m (fun _ => k))
  (at level 80, right associativity) : chain_scope.
Notation "'let!' x := r 'in' k" := (result_bind r (fun x => k))
  (at level 80, x name, r at next level, right associativity) : chain_scope.

(** A loop over a range whose body mutates the state. *)
Section ForEach.
Context {S A : Type} (body : A -> M S unit).
Fixpoint for_each (l : list A) : M S unit :=
  match l with
  | [] => ret tt
  | a :: l' => body a ;;; for_each l'
  end.
End ForEach.
Abbreviation forM l body := (for_each body l) (only parsing).

(** The elements of a std::map in iteration order. *)
Definition key_le {A} (a b : Z * A) : Prop := fst a <= fst b.
#[export] Instance key_le_dec {A} : RelDecision (@key_le A).
Proof. intros a b. unfold key_le. apply _. Defined.
Definition map_items {A} (m : gmap Z A) : list (Z * A) := merge_sort key_le (map_to_list m).

Lemma map_items_perm {A} (m : gmap Z A) : map_items m ≡ₚ map_to_list m.
Proof. apply merge_sort_Permutation. Qed.

Lemma elem_of_map_items {A} (m : gmap Z A) k a : (k, a) ∈ map_items m <-> m !! k = Some a.
Proof. rewrite map_items_perm. apply elem_of_map_to_list. Qed.

Definition is_some {A} (o : option A) : bool :=
  match o with Some _ => true | None => false end.

(** ** Inversion of successful runs *)

Lemma bind_Ok {S A B} (m : M S A) (k : A -> M S B) s b s' :
  bind m k s = (Ok b, s') <->
  exists a s1, m s = (Ok a, s1) /\ k a s1 = (Ok b, s').
Proof.
  unfold bind. destruct (m s) as [[a | e] s1].
  - split; [eauto |]. intros (a' & s1' & [= <- <-] & H). exact H.
  - split; [discriminate |]. intros (a' & s1' & [=] & _).
Qed.

Lemma bind_run_Ok {S A B} (m : M S A) (k : A -> M S B) s a s1 :
  m s = (Ok a, s1) -> bind m k s = k a s1.
Proof. unfold bind. now intros ->. Qed.

Lemma bind_run_Err {S A B} (m : M S A) (k : A -> M S B) s e s1 :
  m s = (Err e, s1) -> bind m k s = (Err e, s1).
Proof. unfold bind. now intros ->. Qed.

Lemma bind_assoc_run {S A B C} (m : M S A) (k : A -> M S B) (h : B -> M S C) s a s1 :
  m s = (Ok a, s1) -> bind (bind m k) h s = bind (k a) h s1.
Proof. unfold bind. now intros ->. Qed.

Lemma ret_Ok {S A} (a b : A) (s s' : S) : ret a s = (Ok b, s') <-> a = b /\ s = s'.
Proof. unfold ret. split; [intros [= -> ->]; auto | intros [-> ->]; auto]. Qed.

Lemma throw_Ok {S A} e (b : A) (s s' : S) : throw e s = (Ok b, s') <-> False.
Proof. unfold throw. split; [discriminate | tauto]. Qed.

Lemma gets_Ok {S A} (f : S -> A) b (s s' : S) :
  gets f s = (Ok b, s') <-> f s = b /\ s = s'.
Proof. unfold gets. split; [intros [= -> ->]; auto | intros [-> ->]; auto]. Qed.

Lemma get_Ok {S} b (s s' : S) : get s = (Ok b, s') <-> s = b /\ s = s'.
Proof. unfold get. split; [intros [= -> ->]; auto | intros [-> ->]; auto]. Qed.

Lemma modify_Ok {S} (f : S -> S) u (s s' : S) :
  modify f s = (Ok u, s') <-> f s = s'.
Proof. unfold modify. destruct u. split; [intros [= ->]; auto | intros ->; auto]. Qed.

Lemma fc_assert_Ok {S} b u (s s' : S) :
  fc_assert b s = (Ok u, s') <-> b = true /\ s = s'.
Proof.
  unfold fc_assert, ret, throw. destruct b, u; (split; [intros [=]; auto | intros [? ?]; congruence]).
Qed.

Lemma throw_if_Ok {S} b e u (s s' : S) :
  throw_if b e s = (Ok u, s') <-> b = false /\ s = s'.
Proof.
  unfold throw_if, ret, throw. destruct b, u; (split; [intros [=]; auto | intros [? ?]; congruence]).
Qed.

Lemma valid_or_Ok {S A} (o : option A) e a (s s' : S) :
  valid_or o e s = (Ok a, s') <-> o = Some a /\ s = s'.
Proof.
  unfold valid_or, ret, throw. destruct o; (split; [intros [=]; subst; auto | intros [? ?]; congruence]).
Qed.

Lemma lift_result_Ok {S A} (r : result A) a (s s' : S) :
  lift_result r s = (Ok a, s') <-> r = Ok a /\ s = s'.
Proof. unfold lift_result. split; [intros [=]; auto | intros [-> ->]; auto]. Qed.

Lemma result_bind_Ok {A B} (r : result A) (k : A -> result B) b :
  result_bind r k = Ok b <-> exists a, r = Ok a /\ k a = Ok b.
Proof.
  destruct r; cbn; split.
  - eauto.
  - now intros (? & [= ->] & ?).
  - discriminate.
  - now intros (? & ? & ?).
Qed.

(** [run_inv H] decomposes [H : prog s = (Ok a, s')] statement by statement. *)
Ltac run_inv1 H :=
  lazymatch type of H with
  | bind _ _ _ = (Ok _, _) =>
      apply bind_Ok in H;
      let a := fresh "a" in let s := fresh "s" in
      let H1 := fresh "R" in let H2 := fresh "R" in
      destruct H as (a & s & H1 & H2); run_inv1 H1; run_inv1 H2
  | ret _ _ = (Ok _, _) => apply ret_Ok in H; destruct H as [? ?]; subst
  | throw _ _ = (Ok _, _) => apply throw_Ok in H; destruct H
  | gets _ _ = (Ok _, _) => apply gets_Ok in H; destruct H as [? ?]; subst
  | get _ = (Ok _, _) => apply get_Ok in H; destruct H as [? ?]; subst
  | modify _ _ = (Ok _, _) => apply modify_Ok in H; subst
  | fc_assert _ _ = (Ok _, _) => apply fc_assert_Ok in H; destruct H as [H ?]; subst
  | throw_if _ _ _ = (Ok _, _) => apply throw_if_Ok in H; destruct H as [H ?]; subst
  | valid_or _ _ _ = (Ok _, _) => apply valid_or_Ok in H; destruct H as [H ?]; subst
  | lift_result _ _ = (Ok _, _) => apply lift_result_Ok in H; destruct H as [H ?]; subst
  | _ => idtac
  end.
Ltac run_inv H := cbv beta in H; run_inv1 H.

(** Turn boolean comparisons in the context into propositions. *)
Ltac to_prop :=
  repeat match goal with
  | H : negb _ = true |- _ => apply negb_true_iff in H
  | H : negb _ = false |- _ => apply negb_false_iff in H
  | H : _ && _ = true |- _ => apply andb_true_iff in H; destruct H
  | H : _ || _ = false |- _ => apply orb_false_iff in H; destruct H
  | H : (_ <? _) = true |- _ => apply Z.ltb_lt in H
  | H : (_ <? _) = false |- _ => apply Z.ltb_ge in H
  | H : (_ <=? _) = true |- _ => apply Z.leb_le in H
  | H : (_ <=? _) = false |- _ => apply Z.leb_gt in H
  | H : (_ =? _) = true |- _ => apply Z.eqb_eq in H
  | H : (_ =? _) = false |- _ => apply Z.eqb_neq in H
  | H : bool_decide _ = true |- _ => apply bool_decide_eq_true in H
  | H : bool_decide _ = false |- _ => apply bool_decide_eq_false in H
  end.

(** ** fc::safe (include/fc/safe.hpp) at int64_t *)

Definition safe_add (a b : Z) : result Z :=
  if (0 <? b) && (INT64_MAX - b <? a) then Err overflow_exception
  else if (b <? 0) && (a <? INT64_MIN - b) then Err underflow_exception
  else Ok (a + b).

Definition safe_sub (a b : Z) : result Z :=
  if (0 <? b) && (a <? INT64_MIN + b) then Err underflow_exception
  else if (b <? 0) && (INT64_MAX + b <? a) then Err overflow_exception
  else Ok (a - b).

Lemma safe_add_Ok a b c :
  in_i64 a -> in_i64 b -> (safe_add a b = Ok c <-> c = a + b /\ in_i64 c).
Proof.
  unfold safe_add, in_i64, INT64_MIN, INT64_MAX. intros Ha Hb.
  destruct ((0 <? b) && _) eqn:E1; [| destruct ((b <? 0) && _) eqn:E2].
  1,2: split; [discriminate | intros [-> ?]; to_prop; lia].
  split.
  - intros [= <-]. split; [lia |].
    apply andb_false_iff in E1, E2. destruct E1, E2; to_prop; lia.
  - intros [-> _]. reflexivity.
Qed.

Lemma safe_sub_Ok a b c :
  in_i64 a -> in_i64 b -> (safe_sub a b = Ok c <-> c = a - b /\ in_i64 c).
Proof.
  unfold safe_sub, in_i64, INT64_MIN, INT64_MAX. intros Ha Hb.
  destruct ((0 <? b) && _) eqn:E1; [| destruct ((b <? 0) && _) eqn:E2].
  1,2: split; [discriminate | intros [-> ?]; to_prop; lia].
  split.
  - intros [= <-]. split; [lia |].
    apply andb_false_iff in E1, E2. destruct E1, E2; to_prop; lia.
  - intros [-> _]. reflexivity.
Qed.

Lemma safe_add_val a b c : safe_add a b = Ok c -> c = a + b.
Proof. unfold safe_add. repeat case_match; congruence. Qed.

Lemma safe_add_range a b c : in_i64 a -> safe_add a b = Ok c -> in_i64 c.
Proof.
  unfold safe_add, in_i64, INT64_MIN, INT64_MAX. intros Ha.
  destruct ((0 <? b) && _) eqn:E1; [discriminate |].
  destruct ((b <? 0) && _) eqn:E2; [discriminate |]. intros [= <-].
  rewrite andb_false_iff, !Z.ltb_ge in *. lia.
Qed.

Lemma safe_sub_val a b c : safe_sub a b = Ok c -> c = a - b.
Proof. unfold safe_sub. repeat case_match; congruence. Qed.

Create HintDb chain.
#[export] Hint Resolve wrap_u64_range wrap_i64_range : chain.
