(* ===== verification/DecimalText.v ===== *)
(** * Decimal text: the digit loops and the printing the amount and price
    conversions of blockchain/Asset.cpp and blockchain/AssetEntry.cpp share *)

From S2P Require Import Prelude.
From Stdlib Require Import ZArith Lia List Bool String Ascii.
From stdpp Require Import base strings list.

Local Open Scope string_scope.
#[local] Arguments String.append !_ _ / : simpl nomatch.
Local Open Scope Z_scope.

(** [*c - '0'] and the test [digit >= 0 && digit <= 9]; a char is signed, so a
    byte above 127 gives a negative difference and is no digit either way. *)
Definition digit_of (c : ascii) : Z := Z.of_N (N_of_ascii c) - 48.
Definition is_digit (c : ascii) : bool := (0 <=? digit_of c) && (digit_of c <=? 9).
Definition digit_char (d : Z) : ascii := ascii_of_N (Z.to_N (d + 48)).

(** [while (digit >= 0 && digit <= 9) { acc = step(acc, digit); ++c; digit = *c - '0'; }] *)
Fixpoint digits_fold {A} (step : A -> Z -> A) (acc : A) (s : string) : A * string :=
  match s with
  | String c r =>
      if is_digit c then digits_fold step (step acc (digit_of c)) r else (acc, s)
  | EmptyString => (acc, s)
  end.

(** Decimal printing of a non negative number, most significant digit first. *)
Fixpoint dec_fuel (fuel : nat) (v : Z) : string :=
  match fuel with
  | O => ""
  | S n => if v <? 10 then String (digit_char v) ""
           else dec_fuel n (v / 10) +:+ String (digit_char (v mod 10)) ""
  end.
Definition dec (v : Z) : string := dec_fuel (S (Z.to_nat (Z.log2 v))) v.

(** [k] digits of [v], padded with zeros on the left. *)
Fixpoint fixed_dec (k : nat) (v : Z) : string :=
  match k with
  | O => ""
  | S n => fixed_dec n (v / 10) +:+ String (digit_char (v mod 10)) ""
  end.

(** [while (number.back() == '0') number.pop_back();] *)
Fixpoint strip_zeros (s : string) : string :=
  match s with
  | EmptyString => ""
  | String c r =>
      match strip_zeros r with
      | EmptyString => if Ascii.eqb c "0" then "" else String c ""
      | r' => String c r'
      end
  end.

Fixpoint all_digits (s : string) : bool :=
  match s with String c r => is_digit c && all_digits r | EmptyString => true end.

(** The number a digit string denotes, continuing from [acc]. *)
Fixpoint digits_val (acc : Z) (s : string) : Z :=
  match s with
  | String c r => digits_val (acc * 10 + digit_of c) r
  | EmptyString => acc
  end.

Definition no_digit_ahead (s : string) : bool :=
  match s with String c _ => negb (is_digit c) | EmptyString => true end.

(** ** Strings *)

Lemma app_assoc_str (a b c : string) : (a +:+ b) +:+ c = a +:+ (b +:+ c).
Proof. induction a; cbn; [done | now rewrite IHa]. Qed.

Lemma app_empty_r (a : string) : a +:+ "" = a.
Proof. induction a; cbn; [done | now rewrite IHa]. Qed.

Lemma length_app_str (a b : string) :
  String.length (a +:+ b) = (String.length a + String.length b)%nat.
Proof. induction a; cbn; [done | now rewrite IHa]. Qed.

Lemma all_digits_app a b : all_digits (a +:+ b) = all_digits a && all_digits b.
Proof. induction a; cbn; [done |]. rewrite IHa. apply andb_assoc. Qed.

Lemma digits_val_app a : forall acc b,
  digits_val acc (a +:+ b) = digits_val (digits_val acc a) b.
Proof. induction a; intros; cbn; [done | apply IHa]. Qed.

Lemma digit_char_spec d : 0 <= d <= 9 ->
  digit_of (digit_char d) = d /\ is_digit (digit_char d) = true.
Proof.
  intros. assert (digit_of (digit_char d) = d) as E.
  { unfold digit_of, digit_char. rewrite N_ascii_embedding by lia. lia. }
  split; [exact E |]. unfold is_digit. rewrite E.
  apply andb_true_intro. split; apply Z.leb_le; lia.
Qed.

Lemma mod10_digit v : 0 <= v -> 0 <= v mod 10 <= 9.
Proof. intros. pose proof (Z.mod_pos_bound v 10). lia. Qed.

(** ** Loops over digits *)

Lemma digits_fold_app {A} (step : A -> Z -> A) (f : Z -> A) s : forall v rest,
  all_digits s = true -> no_digit_ahead rest = true ->
  (forall p c q, s = p +:+ String c q ->
     step (f (digits_val v p)) (digit_of c) = f (digits_val v (p +:+ String c ""))) ->
  digits_fold step (f v) (s +:+ rest) = (f (digits_val v s), rest).
Proof.
  induction s as [| c s IH]; intros v rest Hd Hr Hstep; cbn.
  - destruct rest as [| r rest]; cbn in *; [done |]. apply negb_true_iff in Hr. now rewrite Hr.
  - cbn in Hd. apply andb_true_iff in Hd as [Hc Hs]. rewrite Hc.
    pose proof (Hstep "" c s eq_refl) as E. cbn in E. rewrite E.
    apply IH; [done | done |].
    intros p c' q ->. apply (Hstep (String c p) c' q). reflexivity.
Qed.

(** ** Printing *)

Lemma dec_fuel_digits n : forall v, 0 <= v -> all_digits (dec_fuel n v) = true.
Proof.
  induction n; intros v Hv; cbn; [done |]. destruct (Z.ltb_spec v 10); cbn.
  - destruct (digit_char_spec v) as [_ ->]; [lia | done].
  - rewrite all_digits_app, IHn by (apply Z.div_pos; lia). cbn.
    destruct (digit_char_spec (v mod 10)) as [_ ->]; [now apply mod10_digit | done].
Qed.

Lemma dec_digits v : 0 <= v -> all_digits (dec v) = true.
Proof. apply dec_fuel_digits. Qed.

Lemma dec_fuel_indep n : forall m v, 0 <= v -> v < 10 ^ Z.of_nat n ->
  v < 10 ^ Z.of_nat m -> (0 < n)%nat -> (0 < m)%nat -> dec_fuel n v = dec_fuel m v.
Proof.
  induction n as [| n IH]; intros m v H0 Hn Hm Pn Pm; [lia |].
  destruct m as [| m]; [lia |]. cbn [dec_fuel]. destruct (Z.ltb_spec v 10); [done |].
  f_equal. rewrite Nat2Z.inj_succ, Z.pow_succ_r in Hn, Hm by lia.
  apply IH.
  - apply Z.div_pos; lia.
  - apply Z.div_lt_upper_bound; lia.
  - apply Z.div_lt_upper_bound; lia.
  - destruct n; [cbn in Hn; lia | lia].
  - destruct m; [cbn in Hm; lia | lia].
Qed.

Lemma dec_fuel_enough v : 0 <= v -> v < 10 ^ Z.of_nat (S (Z.to_nat (Z.log2 v))).
Proof.
  intros. destruct (Z.eq_dec v 0) as [-> | Hv]; [reflexivity |].
  pose proof (Z.log2_spec v ltac:(lia)) as [_ H1].
  pose proof (Z.log2_nonneg v).
  replace (Z.of_nat (S (Z.to_nat (Z.log2 v)))) with (Z.succ (Z.log2 v)) by lia.
  eapply Z.lt_le_trans; [exact H1 |]. apply Z.pow_le_mono_l. lia.
Qed.

Lemma dec_step v : 10 <= v -> dec v = dec (v / 10) +:+ String (digit_char (v mod 10)) "".
Proof.
  intros Hv. unfold dec at 1.
  pose proof (dec_fuel_enough v ltac:(lia)) as He.
  cbn [dec_fuel]. destruct (Z.ltb_spec v 10); [lia |]. f_equal. unfold dec.
  assert (0 <= v / 10) by (apply Z.div_pos; lia).
  rewrite Nat2Z.inj_succ, Z.pow_succ_r in He by lia.
  apply dec_fuel_indep.
  - done.
  - apply Z.div_lt_upper_bound; lia.
  - apply dec_fuel_enough. done.
  - destruct (Z.to_nat (Z.log2 v)); [cbn in He; lia | lia].
  - lia.
Qed.

Lemma dec_small v : 0 <= v < 10 -> dec v = String (digit_char v) "".
Proof. intros. unfold dec. cbn [dec_fuel]. destruct (Z.ltb_spec v 10); [done | lia]. Qed.

Lemma digits_val_dec_aux n : forall v, 0 <= v < 10 ^ Z.of_nat n -> digits_val 0 (dec v) = v.
Proof.
  induction n as [| n IH]; intros v Hv.
  - change (10 ^ Z.of_nat 0) with 1 in Hv. replace v with 0 by lia. reflexivity.
  - rewrite Nat2Z.inj_succ, Z.pow_succ_r in Hv by lia.
    destruct (Z_lt_ge_dec v 10).
    + rewrite dec_small by lia. cbn. destruct (digit_char_spec v) as [-> _]; lia.
    + rewrite dec_step by lia. rewrite digits_val_app, IH.
      * cbn. destruct (digit_char_spec (v mod 10)) as [-> _]; [apply mod10_digit; lia |].
        pose proof (Z.div_mod v 10). lia.
      * split; [apply Z.div_pos; lia | apply Z.div_lt_upper_bound; lia].
Qed.

Lemma digits_val_dec v : 0 <= v -> digits_val 0 (dec v) = v.
Proof.
  intros. eapply digits_val_dec_aux. split; [done | now apply dec_fuel_enough].
Qed.

Lemma dec_fixed k : forall v, 0 <= v < 10 ^ Z.of_nat k ->
  dec (10 ^ Z.of_nat k + v) = String "1" (fixed_dec k v).
Proof.
  induction k as [| k IH]; intros v Hv.
  - change (10 ^ Z.of_nat 0) with 1 in *. replace v with 0 by lia. reflexivity.
  - rewrite Nat2Z.inj_succ, Z.pow_succ_r in * by lia.
    assert (0 < 10 ^ Z.of_nat k) by (apply Z.pow_pos_nonneg; lia).
    rewrite dec_step by lia.
    replace (10 * 10 ^ Z.of_nat k + v) with (v + 10 ^ Z.of_nat k * 10) by lia.
    rewrite Z.div_add, Z.mod_add by lia.
    rewrite Z.add_comm, IH; [reflexivity |].
    split; [apply Z.div_pos; lia | apply Z.div_lt_upper_bound; lia].
Qed.

(** ** Fractions *)

Lemma fixed_dec_spec k : forall v, 0 <= v < 10 ^ Z.of_nat k ->
  all_digits (fixed_dec k v) = true /\ String.length (fixed_dec k v) = k /\
  digits_val 0 (fixed_dec k v) = v.
Proof.
  induction k as [| k IH]; intros v Hv.
  - change (10 ^ Z.of_nat 0) with 1 in Hv. repeat split. cbn. lia.
  - rewrite Nat2Z.inj_succ, Z.pow_succ_r in Hv by lia. cbn [fixed_dec].
    destruct (IH (v / 10)) as (Hd & Hl & Hval).
    { split; [apply Z.div_pos; lia | apply Z.div_lt_upper_bound; lia]. }
    destruct (digit_char_spec (v mod 10)) as [Ev Ed]; [apply mod10_digit; lia |].
    rewrite all_digits_app, Hd, length_app_str, Hl, digits_val_app, Hval. cbn.
    rewrite Ed, Ev. repeat split; [lia |]. pose proof (Z.div_mod v 10). lia.
Qed.

Lemma strip_zeros_keep s c : c <> "0"%char ->
  strip_zeros (s +:+ String c "") = s +:+ String c "".
Proof.
  intros Hc. induction s as [| a s IH]; cbn.
  - destruct (Ascii.eqb_spec c "0"); [done | reflexivity].
  - rewrite IH. destruct s; reflexivity.
Qed.

Lemma strip_zeros_drop s : strip_zeros (s +:+ "0") = strip_zeros s.
Proof. induction s as [| a s IH]; cbn; [done | now rewrite IH]. Qed.

Lemma strip_zeros_prefix a c s : c <> "0"%char ->
  strip_zeros (a +:+ String c s) = a +:+ String c (strip_zeros s).
Proof.
  intros Hc. induction a as [| b a IH]; cbn.
  - destruct (strip_zeros s); [| done]. destruct (Ascii.eqb_spec c "0"); [done | reflexivity].
  - rewrite IH. destruct a; reflexivity.
Qed.

Lemma digit_char_zero d : 0 <= d <= 9 -> digit_char d = "0"%char -> d = 0.
Proof. intros Hd H. destruct (digit_char_spec d Hd) as [<- _]. rewrite H. reflexivity. Qed.

(** What is left of a padded fraction keeps its value at its own length. *)
Lemma strip_fixed k : forall v, 0 <= v < 10 ^ Z.of_nat k ->
  let s := strip_zeros (fixed_dec k v) in
  all_digits s = true /\ (String.length s <= k)%nat /\
  digits_val 0 s * 10 ^ (Z.of_nat k - Z.of_nat (String.length s)) = v.
Proof.
  induction k as [| k IH]; intros v Hv.
  - cbn. change (10 ^ Z.of_nat 0) with 1 in Hv. repeat split; lia.
  - pose proof Hv as Hv'. rewrite Nat2Z.inj_succ, Z.pow_succ_r in Hv by lia.
    pose proof (mod10_digit v ltac:(lia)) as Hm.
    destruct (Z.eq_dec (v mod 10) 0) as [E | E].
    + cbn [fixed_dec]. rewrite E. change (digit_char 0) with "0"%char.
      rewrite strip_zeros_drop. cbv zeta.
      destruct (IH (v / 10)) as (Hd & Hl & Hval).
      { split; [apply Z.div_pos; lia | apply Z.div_lt_upper_bound; lia]. }
      cbv zeta in *. set (s := strip_zeros _) in *. repeat split; [done | lia |].
      replace (Z.of_nat (S k) - Z.of_nat (String.length s))
        with (Z.succ (Z.of_nat k - Z.of_nat (String.length s))) by lia.
      rewrite Z.pow_succ_r by lia. pose proof (Z.div_mod v 10). nia.
    + cbv zeta. cbn [fixed_dec]. rewrite strip_zeros_keep.
      * destruct (fixed_dec_spec (S k) v Hv') as (Hd & Hl & Hval). cbn [fixed_dec] in *.
        rewrite Hl, Hd, Hval, Z.sub_diag. repeat split; lia.
      * intros Hc. apply digit_char_zero in Hc; lia.
Qed.

Lemma digits_val_bound s : forall acc, 0 <= acc -> all_digits s = true ->
  acc * 10 ^ Z.of_nat (String.length s) <= digits_val acc s <
  (acc + 1) * 10 ^ Z.of_nat (String.length s).
Proof.
  induction s as [| c s IH]; intros acc H0 Hd; cbn [String.length digits_val].
  - change (10 ^ Z.of_nat 0) with 1. lia.
  - cbn in Hd. apply andb_true_iff in Hd as [Hc Hs]. unfold is_digit in Hc. to_prop.
    specialize (IH (acc * 10 + digit_of c) ltac:(lia) Hs).
    rewrite Nat2Z.inj_succ, Z.pow_succ_r by lia.
    assert (0 < 10 ^ Z.of_nat (String.length s)) by (apply Z.pow_pos_nonneg; lia). nia.
Qed.

(** A prefix of a digit string denotes no more than the whole. *)
Lemma digits_val_prefix p q : all_digits (p +:+ q) = true ->
  0 <= digits_val 0 p <= digits_val 0 (p +:+ q).
Proof.
  rewrite all_digits_app, digits_val_app. intros H. apply andb_true_iff in H as [Hp Hq].
  pose proof (digits_val_bound p 0 ltac:(lia) Hp).
  pose proof (digits_val_bound q (digits_val 0 p) ltac:(lia) Hq).
  assert (0 < 10 ^ Z.of_nat (String.length q)) by (apply Z.pow_pos_nonneg; lia). nia.
Qed.
