(* ===== verification/Doubles.v ===== *)
(** * Doubles

    What the code computes in double arithmetic: rationals, of which every
    result is rounded to 53 bits. *)

From Stdlib Require Import ZArith Lia QArith Qround Lqa.

Local Open Scope Z_scope.

(** [p / q], to the nearest integer, of two the even one *)
Definition round_even (p q : Z) : Z :=
  let f := p / q in
  match 2 * (p mod q) ?= q with
  | Lt => f
  | Gt => f + 1
  | Eq => if Z.even f then f else f + 1
  end.

(** The exponent of the last of 53 bits of [p / q] *)
Definition last_bit (p q : Z) : Z :=
  let e := Z.log2 p - Z.log2 q - 52 in
  if p * 2 ^ Z.max 0 (- e) <? 2 ^ 52 * (q * 2 ^ Z.max 0 e) then e - 1 else e.

(** The double nearest to a rational, of those that are not negative, not
    subnormal and not infinite *)
Definition nearest (x : Q) : Q :=
  let p := Qnum x in let q := Zpos (Qden x) in
  if p <=? 0 then 0%Q
  else
    let e := last_bit p q in
    let m := round_even (p * 2 ^ Z.max 0 (- e)) (q * 2 ^ Z.max 0 e) in
    Qmake (m * 2 ^ Z.max 0 e) (Z.to_pos (2 ^ Z.max 0 (- e))).

Definition of_int (z : Z) : Q := inject_Z z.

(** ** Rounding *)

Lemma round_even_near p q : 0 < q -> 2 * Z.abs (round_even p q * q - p) <= q.
Proof.
  intros Hq. unfold round_even. pose proof (Z.div_mod p q) as E. pose proof (Z.mod_pos_bound p q Hq).
  destruct (Z.compare_spec (2 * (p mod q)) q); [destruct (Z.even _) | |]; nia.
Qed.

(** A double is an integer multiple of its last bit, and an integer below
    2^53 is a double. *)
Lemma last_bit_spec p q : 0 < p -> 0 < q -> p < 2 ^ 53 * q -> last_bit p q <= 0 /\
  2 ^ 52 * q <= p * 2 ^ (- last_bit p q).
Proof.
  intros Hp Hq Hlt. unfold last_bit.
  destruct (Z.log2_spec p Hp) as [Hp1 Hp2]. destruct (Z.log2_spec q Hq) as [Hq1 Hq2].
  pose proof (Z.log2_nonneg p). pose proof (Z.log2_nonneg q).
  set (lp := Z.log2 p) in *. set (lq := Z.log2 q) in *. set (e := lp - lq - 52).
  assert (e <= 1) as He.
  { apply Znot_gt_le. intros Hgt. pose proof (Z.pow_le_mono_r 2 (lq + 1 + 53) lp ltac:(lia) ltac:(unfold e in Hgt; lia)) as Hm.
    rewrite Z.pow_add_r in Hm by lia. change (Z.succ lq) with (lq + 1) in Hq2. nia. }
  assert (2 ^ 52 * q <= p * 2 ^ (1 - e)) as Hbig.
  { rewrite Z.pow_succ_r in Hq2 by lia.
    assert (2 ^ lp * 2 ^ (1 - e) = 2 ^ 53 * 2 ^ lq) as E.
    { rewrite <- !Z.pow_add_r by (unfold e; lia). f_equal. unfold e. lia. }
    pose proof (Z.mul_le_mono_nonneg_r (2 ^ lp) p (2 ^ (1 - e)) (Z.pow_nonneg 2 _ ltac:(lia)) Hp1).
    change (2 ^ 53) with 9007199254740992 in E. change (2 ^ 52) with 4503599627370496. lia. }
  destruct (Z.ltb_spec (p * 2 ^ Z.max 0 (- e)) (2 ^ 52 * (q * 2 ^ Z.max 0 e))) as [Ht | Ht].
  - split; [lia |]. now replace (- (e - 1)) with (1 - e) by lia.
  - destruct (Z.eq_dec e 1) as [E | E].
    + rewrite E in Ht. change (2 ^ Z.max 0 (- (1))) with 1 in Ht. change (2 ^ Z.max 0 1) with 2 in Ht.
      change (2 ^ 53) with 9007199254740992 in Hlt. change (2 ^ 52) with 4503599627370496 in Ht. lia.
    + split; [lia |]. rewrite (Z.max_r 0 (- e)), (Z.max_l 0 e), Z.pow_0_r, Z.mul_1_r in Ht by lia. lia.
Qed.

(** The double nearest to [x] is near, and on the same side of every integer. *)
Record near (x r : Q) : Prop := {
  near_above : (r <= x + x * (1 # 2 ^ 53))%Q;
  near_below : (x - x * (1 # 2 ^ 53) <= r)%Q;
  near_low z : (inject_Z z <= x -> inject_Z z <= r)%Q;
  near_high z : (x <= inject_Z z -> r <= inject_Z z)%Q
}.

Lemma nearest_near x : (0 <= x < inject_Z (2 ^ 53))%Q -> near x (nearest x).
Proof.
  destruct x as [p q]. unfold Qle, Qlt. cbn. intros [H0 Hlt].
  unfold nearest. cbn [Qnum Qden]. destruct (Z.leb_spec p 0) as [Hp | Hp].
  { assert (p = 0) as -> by lia. split.
    - unfold Qle; cbn; lia.
    - unfold Qle; cbn; lia.
    - intros z. unfold Qle; cbn; lia.
    - intros z. unfold Qle; cbn. lia. }
  destruct (last_bit_spec p (Zpos q) Hp) as [He Hm]; [lia | lia |].
  set (e := last_bit p (Zpos q)) in *. rewrite (Z.max_l 0 e), (Z.max_r 0 (- e)), Z.pow_0_r, !Z.mul_1_r by lia.
  pose proof (Z.pow_pos_nonneg 2 (- e)) as Hd. set (d := 2 ^ (- e)) in *.
  pose proof (round_even_near (p * d) (Zpos q) eq_refl) as Hr. set (m := round_even _ _) in *.
  clearbody m. assert (Zpos (Z.to_pos d) = d) as Ed by (apply Z2Pos.id, Hd; lia).
  specialize (Hd ltac:(lia) ltac:(lia)). clearbody d. clear Hlt H0.
  split.
  - unfold Qle, Qplus, Qmult. cbn [Qnum Qden]. rewrite !Pos2Z.inj_mul, Ed.
    change (Zpos (2 ^ 53)) with 9007199254740992. change (2 ^ 52) with 4503599627370496 in Hm. nia.
  - unfold Qle, Qminus, Qopp, Qplus, Qmult. cbn [Qnum Qden]. rewrite !Pos2Z.inj_mul, Ed.
    change (Zpos (2 ^ 53)) with 9007199254740992. change (2 ^ 52) with 4503599627370496 in Hm. nia.
  - intros z. unfold Qle. cbn [Qnum Qden inject_Z]. rewrite Ed. nia.
  - intros z. unfold Qle. cbn [Qnum Qden inject_Z]. rewrite Ed. nia.
Qed.
