(* ===== verification/Amounts.v ===== *)
(** * Amounts typed by a user

    utilities/CommonApi.cpp and the conversions at the head of the commands of
    wallet/Wallet.cpp: a decimal text is read as a double, scaled by the
    precision of its asset and rounded to shares. *)

From Stdlib Require Import ZArith Lia List Bool String Ascii QArith Qround Lqa.
From stdpp Require Import base strings list.
From S2P Require Import Prelude DecimalText Doubles.

Local Open Scope string_scope.
Local Open Scope Z_scope.

(** What the machine answers when a double does not fit the int64_t it is cast
    to; the language leaves it undefined. *)
Class Machine : Type := { unrepresentable_i64 : Z }.

(** utilities::isNumber *)
Fixpoint is_number_from (gotpoint : bool) (input : string) : bool :=
  match input with
  | EmptyString => true
  | String c input' =>
      if is_digit c then is_number_from gotpoint input'
      else if Ascii.eqb c "." && negb gotpoint then is_number_from true input'
      else false
  end.
Definition isNumber (input : string) : bool := is_number_from false input.

(** What is before the first point, and what is behind it *)
Fixpoint at_point (s : string) : string * option string :=
  match s with
  | EmptyString => ("", None)
  | String c s' =>
      if Ascii.eqb c "." then ("", Some s')
      else let (whole, rest) := at_point s' in (String c whole, rest)
  end.

(** std::stod, of a text isNumber accepts *)
Definition stod (text : string) : result Q :=
  let (whole, rest) := at_point text in
  let fraction := default "" rest in
  if (String.length (whole +:+ fraction) =? 0)%nat then Err invalid_argument
  else
    let x := (inject_Z (digits_val 0 (whole +:+ fraction)) / inject_Z (10 ^ Z.of_nat (String.length fraction)))%Q in
    let tiny := negb (Qle_bool x 0) && negb (Qle_bool (1 # 2 ^ 1022) x) in
    if tiny || Qle_bool (inject_Z (2 ^ 1024)) (nearest x) then Err out_of_range else Ok (nearest x).

Section Amounts.
Context `{Machine}.

(** static_cast<int64_t>, of a double that is an integer *)
Definition to_i64 (z : Z) : Z :=
  if (INT64_MIN <=? z) && (z <=? INT64_MAX) then z else unrepresentable_i64.

(** Doubles hold the powers of ten an int64_t can hold. *)
Definition precision_input (fraction : string) : Z := to_i64 (10 ^ Z.of_nat (String.length fraction)).

(** floor( d * precision + 0.5 ) *)
Definition round_shares (d : Q) (precision : Z) : Z :=
  to_i64 (Qfloor (nearest (nearest (d * nearest (of_int precision)) + (1 # 2)))).

(** The shares of [text], with as many digits as the precision has *)
Definition shares_of_text (precision : Z) (text : string) : result Z :=
  let! _ := result_assert (isNumber text) in
  let! _ := match snd (at_point text) with
            | Some fraction => result_assert (precision_input fraction <=? precision)
            | None => Ok tt
            end in
  let! d := stod text in
  Ok (round_shares d precision).
End Amounts.

(** ** Reading *)

Lemma is_number_digits s b : all_digits s = true -> is_number_from b s = true.
Proof.
  revert b. induction s as [| c s IH]; intros b; cbn; [easy |]. intros [-> Hs]%andb_prop. now apply IH.
Qed.
Lemma is_number_parts whole fraction : all_digits whole = true -> all_digits fraction = true ->
  isNumber (whole +:+ String "." fraction) = true.
Proof.
  unfold isNumber. intros Hw Hf. induction whole as [| c whole IH].
  - cbn. exact (is_number_digits fraction true Hf).
  - change (String c whole +:+ String "." fraction) with (String c (whole +:+ String "." fraction)).
    cbn [is_number_from all_digits] in *. apply andb_prop in Hw as [-> Hw]. exact (IH Hw).
Qed.
Lemma at_point_digits s : all_digits s = true -> at_point s = (s, None).
Proof.
  induction s as [| c s IH]; cbn; [easy |]. intros [Hc Hs]%andb_prop.
  destruct (Ascii.eqb_spec c "."); [subst; discriminate |]. now rewrite (IH Hs).
Qed.
Lemma at_point_parts whole fraction : all_digits whole = true ->
  at_point (whole +:+ String "." fraction) = (whole, Some fraction).
Proof.
  induction whole as [| c whole IH]; [easy |].
  change (String c whole +:+ String "." fraction) with (String c (whole +:+ String "." fraction)).
  cbn [at_point all_digits]. intros [Hc Hs]%andb_prop.
  destruct (Ascii.eqb_spec c "."); [subst; discriminate |]. now rewrite (IH Hs).
Qed.

(** ** Rounding *)

Lemma nearest_int z : 0 <= z < 2 ^ 53 -> (nearest (of_int z) == inject_Z z)%Q.
Proof.
  intros Hz. unfold of_int. destruct (nearest_near (inject_Z z)) as [_ _ L U].
  { split; [unfold Qle; cbn; lia | unfold Qlt; cbn; lia]. }
  apply Qle_antisym; [apply U | apply L]; apply Qle_refl.
Qed.

Lemma to_i64_fits `{Machine} z : - 2 ^ 63 <= z <= 2 ^ 63 - 1 -> to_i64 z = z.
Proof.
  intros Hz. unfold to_i64, INT64_MIN, INT64_MAX.
  destruct (Z.leb_spec (- 2 ^ 63) z), (Z.leb_spec z (2 ^ 63 - 1)); cbn; lia.
Qed.

(** The double of a number of shares over the precision scales back to them. *)
Lemma round_shares_exact `{Machine} x n precision : 0 <= n <= 2 ^ 50 -> 0 < precision < 2 ^ 53 ->
  (x * inject_Z precision == inject_Z n)%Q -> round_shares (nearest x) precision = n.
Proof.
  intros Hn Hp Ex. unfold round_shares.
  assert (1 <= inject_Z precision)%Q as HP by (unfold Qle; cbn; lia).
  assert (0 <= inject_Z n)%Q as HN0 by (unfold Qle; cbn; lia).
  assert (inject_Z n <= inject_Z (2 ^ 50))%Q as HN by (rewrite <- Zle_Qle; lia).
  assert (0 <= x)%Q as Hx0 by (apply Qnot_lt_le; intros Hx; nra).
  assert (x <= inject_Z n)%Q as HxN by nra.
  assert (inject_Z (2 ^ 50) < inject_Z (2 ^ 53))%Q as H53 by reflexivity.
  destruct (nearest_near x) as [A1 B1 L1 _]; [split; lra |]. specialize (L1 0 Hx0). change (inject_Z 0) with 0%Q in L1.
  pose proof (nearest_int precision ltac:(lia)) as EP.
  set (d := nearest x) in *. set (P := inject_Z precision) in *. set (N := inject_Z n) in *.
  set (eps := (1 # 2 ^ 53)%Q) in *. assert (0 < eps <= 1 # 100)%Q as [Heps Heps1] by (split; [reflexivity | unfold eps, Qle; cbn; lia]).
  assert (eps * inject_Z (2 ^ 50) == 1 # 8)%Q as Esmall by reflexivity.
  assert (N + (1 # 2) + (1 # 2) < inject_Z (2 ^ 53))%Q as Hend.
  { apply (Qle_lt_trans _ (inject_Z (2 ^ 50) + 1)); [lra | reflexivity]. }
  pose proof nearest_near as near53. set (top := inject_Z (2 ^ 50)) in *. set (end53 := inject_Z (2 ^ 53)) in *. clearbody top end53.
  assert (0 <= eps * (top - N))%Q as Hgap by (apply Qmult_le_0_compat; lra).
  assert (0 <= eps * N)%Q as HeN0 by (apply Qmult_le_0_compat; lra).
  assert (eps * N <= 1 # 8)%Q as HeN by lra.
  set (y0 := (d * nearest (of_int precision))%Q).
  assert (y0 == d * P)%Q as Ey by (unfold y0; rewrite EP; reflexivity).
  assert (0 <= P)%Q as HP0 by lra.
  pose proof (Qmult_le_compat_r _ _ P A1 HP0) as A1'. pose proof (Qmult_le_compat_r _ _ P B1 HP0) as B1'.
  assert ((x + x * eps) * P == N + eps * N)%Q as E1 by (rewrite <- Ex; ring).
  assert ((x - x * eps) * P == N - eps * N)%Q as E2 by (rewrite <- Ex; ring).
  rewrite E1 in A1'. rewrite E2 in B1'. rewrite <- Ey in A1', B1'. clear E1 E2.
  assert (0 <= y0)%Q as Hy0 by (rewrite Ey; apply Qmult_le_0_compat; lra).
  destruct (near53 y0) as [A2 B2 _ _]; [split; lra |]. fold eps in A2, B2. set (y := nearest y0) in *.
  assert (y0 * eps <= (1 # 8) + (1 # 64))%Q as Hey.
  { assert (0 <= (N + eps * N - y0) * eps)%Q as G1 by (apply Qmult_le_0_compat; lra).
    assert (0 <= ((1 # 8) - eps * N) * eps)%Q as G2 by (apply Qmult_le_0_compat; lra). lra. }
  assert (N - (1 # 3) <= y <= N + (1 # 3))%Q as [Hz1 Hz2] by (split; lra).
  set (z0 := (y + (1 # 2))%Q) in *.
  destruct (near53 z0) as [A3 _ L3 _]; [unfold z0; split; lra |]. fold eps in A3.
  assert (z0 * eps <= (1 # 8) + (1 # 100))%Q as Hez.
  { assert (0 <= (N + 1 - z0) * eps)%Q as G1 by (apply Qmult_le_0_compat; unfold z0; lra). lra. }
  specialize (L3 n ltac:(fold N; unfold z0; lra)). fold N in L3. set (z := nearest z0) in *.
  assert (Qfloor z = n) as ->.
  { apply Z.le_antisymm.
    - apply Zlt_succ_le. rewrite Zlt_Qlt, <- Z.add_1_r, inject_Z_plus. fold N.
      apply (Qle_lt_trans _ z); [apply Qfloor_le | unfold z0 in *; change (inject_Z 1) with 1%Q; lra].
    - rewrite <- (Qfloor_Z n). now apply Qfloor_resp_le. }
  apply to_i64_fits; lia.
Qed.

(** ** What is typed is what is meant *)

(** The text of an amount: digits, and more behind a point, if any *)
Definition amount_text (whole : string) (rest : option string) : string :=
  match rest with Some fraction => whole +:+ String "." fraction | None => whole end.

Lemma amount_text_read whole rest : all_digits (whole +:+ default "" rest) = true ->
  isNumber (amount_text whole rest) = true /\ at_point (amount_text whole rest) = (whole, rest).
Proof.
  rewrite all_digits_app. intros [Hw Hf]%andb_prop. destruct rest as [fraction |]; cbn [amount_text].
  - split; [now apply is_number_parts | now apply at_point_parts].
  - split; [now apply is_number_digits | now apply at_point_digits].
Qed.

Lemma pow10_between k : (k <= 15)%nat -> 1 <= 10 ^ Z.of_nat k < 2 ^ 50.
Proof.
  intros Hk. split; [pose proof (Z.pow_pos_nonneg 10 (Z.of_nat k)); lia |].
  apply (Z.le_lt_trans _ (10 ^ 15)); [apply Z.pow_le_mono_r; lia | reflexivity].
Qed.

Lemma quotient_at_most v p : 0 <= v <= 2 ^ 50 -> 1 <= p -> (inject_Z v / inject_Z p <= inject_Z (2 ^ 50))%Q.
Proof. intros Hv Hp. unfold Qdiv, Qle. cbn. destruct p as [| p | p]; cbn; nia. Qed.

Lemma quotient_near v p : 0 <= v <= 2 ^ 50 -> 1 <= p -> near (inject_Z v / inject_Z p) (nearest (inject_Z v / inject_Z p)).
Proof.
  intros Hv Hp. apply nearest_near. split.
  - unfold Qdiv, Qle. cbn. destruct p as [| p | p]; cbn; lia.
  - apply (Qle_lt_trans _ (inject_Z (2 ^ 50))); [now apply quotient_at_most | reflexivity].
Qed.

Lemma stod_amount whole rest : let fraction := default "" rest in
  let v := digits_val 0 (whole +:+ fraction) in
  whole +:+ fraction <> "" -> all_digits (whole +:+ fraction) = true ->
  (String.length fraction <= 15)%nat -> v <= 2 ^ 50 ->
  stod (amount_text whole rest) = Ok (nearest (inject_Z v / inject_Z (10 ^ Z.of_nat (String.length fraction)))).
Proof.
  intros fraction v Hne Hd Hk Hv. unfold stod. rewrite (proj2 (amount_text_read whole rest Hd)). fold fraction.
  destruct (Nat.eqb_spec (String.length (whole +:+ fraction)) 0) as [E | _].
  { exfalso. apply Hne. now destruct (whole +:+ fraction). }
  fold v. assert (0 <= v) as Hv0 by (destruct (digits_val_prefix whole fraction Hd); unfold v; lia).
  pose proof (pow10_between _ Hk) as Hp. set (p := 10 ^ Z.of_nat _) in *. clearbody v p.
  set (x := (inject_Z v / inject_Z p)%Q).
  destruct (Qle_bool (inject_Z (2 ^ 1024)) (nearest x)) eqn:Ebig.
  { apply Qle_bool_iff in Ebig. destruct (quotient_near v p) as [_ _ _ U]; [lia.. |]. exfalso.
    assert (nearest x <= inject_Z (2 ^ 50))%Q as Hn by (apply U, quotient_at_most; lia).
    pose proof (Qle_trans _ _ _ Ebig Hn) as Hc. rewrite <- Zle_Qle in Hc. now vm_compute in Hc. }
  destruct (Qle_bool x 0) eqn:E0; [reflexivity |]. assert (Qle_bool (1 # 2 ^ 1022) x = true) as ->; [| reflexivity].
  apply Qle_bool_iff. assert (0 < v) as Hv1.
  { apply Znot_ge_lt. intros Hge. assert (v = 0) as E by lia. unfold x in E0. now rewrite E in E0. }
  apply (Qle_trans _ (1 # 2 ^ 50)); [unfold Qle; vm_compute; discriminate |]. unfold x, Qdiv, Qle. cbn.
  destruct p as [| p | p]; cbn; lia.
Qed.

(** A text of digits, with no more of them behind the point than the precision
    has, is read as the shares it says, as long as these are no more than 2^50. *)
Lemma shares_of_amount `{Machine} whole rest k n : let fraction := default "" rest in
  whole +:+ fraction <> "" -> all_digits (whole +:+ fraction) = true ->
  (String.length fraction <= k <= 15)%nat ->
  digits_val 0 (whole +:+ fraction) * 10 ^ Z.of_nat (k - String.length fraction) = n -> n <= 2 ^ 50 ->
  shares_of_text (10 ^ Z.of_nat k) (amount_text whole rest) = Ok n.
Proof.
  intros fraction Hne Hd Hk En Hn. unfold shares_of_text.
  destruct (amount_text_read whole rest Hd) as [-> ->]. cbn [result_assert result_bind snd].
  set (v := digits_val 0 (whole +:+ fraction)) in *. set (f := String.length fraction) in *.
  assert (0 <= v) as Hv by (destruct (digits_val_prefix whole fraction Hd); unfold v; lia).
  destruct (pow10_between k ltac:(lia)) as [Hp1 Hp2]. destruct (pow10_between f ltac:(lia)) as [Hf1 Hf2].
  destruct (pow10_between (k - f) ltac:(lia)) as [Hg1 _].
  assert (10 ^ Z.of_nat k = 10 ^ Z.of_nat f * 10 ^ Z.of_nat (k - f)) as Ek by (rewrite <- Z.pow_add_r by lia; f_equal; lia).
  assert (v <= n) as Hvn by (rewrite <- En; pose proof (Z.mul_le_mono_nonneg_l 1 (10 ^ Z.of_nat (k - f)) v Hv Hg1); lia).
  assert (match rest with Some fraction => result_assert (precision_input fraction <=? 10 ^ Z.of_nat k) | None => Ok tt end = Ok tt) as ->.
  { destruct rest as [fraction' |]; [| reflexivity]. change fraction' with fraction. unfold precision_input. fold f.
    rewrite to_i64_fits by lia. rewrite (proj2 (Z.leb_le _ _)) by nia. reflexivity. }
  cbn [result_bind]. rewrite (stod_amount whole rest Hne Hd); [| fold fraction f; lia | fold fraction v; lia]. cbn [result_bind].
  fold fraction v f. f_equal. apply round_shares_exact; [lia.. |].
  rewrite <- En, Ek, !inject_Z_mult. field. intros E. unfold Qeq in E. cbn in E. lia.
Qed.

Section exactness.
Context `{Machine}.

(** C38: An amount typed with no more digits behind the point than its asset has is read as the shares it says, though it passes through double arithmetic, as long as these are no more than 2^50. *)
Theorem amount_exact whole rest k n : let fraction := default "" rest in
  whole +:+ fraction <> "" -> all_digits (whole +:+ fraction) = true ->
  (String.length fraction <= k <= 15)%nat ->
  digits_val 0 (whole +:+ fraction) * 10 ^ Z.of_nat (k - String.length fraction) = n -> n <= 2 ^ 50 ->
  shares_of_text (10 ^ Z.of_nat k) (amount_text whole rest) = Ok n.
Proof. exact (shares_of_amount whole rest k n). Qed.
End exactness.

Definition sample_machine : Machine := {| unrepresentable_i64 := INT64_MIN |}.

Lemma amount_exact_witness : shares_of_text (H := sample_machine) (10 ^ Z.of_nat 5) "1234.567" = Ok 123456700.
Proof. apply (amount_exact (H := sample_machine) "1234" (Some "567") 5); [discriminate | reflexivity | cbn; lia | reflexivity | lia]. Defined.

(** Above 2^53 shares the next ones are out of reach of a double. *)
Example amount_inexact : shares_of_text (H := sample_machine) (10 ^ Z.of_nat 5) "90071992547.40993" = Ok 9007199254740992.
Proof. vm_compute. reflexivity. Qed.
