(* ===== verification/Asset.v ===== *)
(** * Assets and prices (blockchain/Asset.cpp, include/blockchain/Asset.hpp)

    [Asset] is an amount of shares of one asset; [Price] is a decimal fraction
    with denominator FC_REAL128_PRECISION between two assets.  The members the
    code takes from fc::bigint and from fc::uint128's string conversion, which
    are compiled outside this tree, are the operations of [FcNumerics]. *)

From S2P Require Import Prelude DecimalText.
From Stdlib Require Import ZArith Lia Bool String Ascii.
From stdpp Require Import base strings.

Local Open Scope Z_scope.
#[local] Arguments String.append !_ _ / : simpl nomatch.

Class FcNumerics : Type := {
  bigint_log2 : Z -> Z;
  bigint_to_int64 : Z -> result Z;
  bigint_div_zero : Z -> Z;
  uint128_to_string : Z -> string
}.

(** What the code relies on: [log2] of a value below 2^127 is below 128,
    [to_int64] returns a value that fits, and a uint128 prints in decimal. *)
Class FcNumericsLaws `{FcNumerics} : Prop := {
  bigint_log2_bound : forall v, 0 <= v < 2 ^ 127 -> bigint_log2 v < 128;
  bigint_to_int64_small : forall v, 0 <= v < 2 ^ 63 -> bigint_to_int64 v = Ok v;
  uint128_to_string_dec : forall v, 0 <= v < 2 ^ 128 -> uint128_to_string v = dec v
}.

Definition FC_REAL128_PRECISION : Z := 1000000 * 1000000 * 1000000.

Record Asset := mkAsset { amount : Z; asset_id : Z }.
Record Price := mkPrice { ratio : Z; base_asset_id : Z; quote_asset_id : Z }.

#[export] Instance asset_eq_dec : EqDecision Asset.
Proof. solve_decision. Defined.

(** ** Asset arithmetic *)
Section AssetOps.

Definition asset_add_assign (self o : Asset) : result Asset :=
  if negb (asset_id self =? asset_id o) then Err assert_exception
  else if ((0 <? amount o) && (INT64_MAX - amount o <? amount self))
       || ((amount o <? 0) && (amount self <? INT64_MIN - amount o))
  then Err addition_overflow
  else Ok (mkAsset (amount self + amount o) (asset_id self)).

Definition asset_sub_assign (self o : Asset) : result Asset :=
  if negb (asset_id self =? asset_id o) then Err assert_exception
  else if ((0 <? amount o) && (amount self <? INT64_MIN + amount o))
       || ((amount o <? 0) && (INT64_MAX + amount o <? amount self))
  then Err subtraction_overflow
  else Ok (mkAsset (amount self - amount o) (asset_id self)).

Definition asset_add (l r : Asset) : result Asset :=
  let! _ := result_assert (asset_id l =? asset_id r) in asset_add_assign l r.
Definition asset_sub (l r : Asset) : result Asset :=
  let! _ := result_assert (asset_id l =? asset_id r) in asset_sub_assign l r.

(** [tmp.amount /= constant] with a uint64_t divisor: the amount is converted
    to uint64_t first. *)
Definition asset_div_constant (a : Asset) (constant : Z) : result Asset :=
  if constant =? 0 then Err division_trap
  else Ok (mkAsset (wrap_i64 (wrap_u64 (amount a) / constant)) (asset_id a)).

Definition asset_neg (a : Asset) : Asset := mkAsset (wrap_i64 (- amount a)) (asset_id a).

Definition asset_eq (l r : Asset) : result bool :=
  let! _ := result_assert (asset_id l =? asset_id r) in Ok (amount l =? amount r).
Definition asset_lt (l r : Asset) : result bool :=
  let! _ := result_assert (asset_id l =? asset_id r) in Ok (amount l <? amount r).
Definition asset_gt (l r : Asset) : result bool :=
  let! _ := result_assert (asset_id l =? asset_id r) in Ok (amount r <? amount l).
Definition asset_le (l r : Asset) : result bool :=
  let! _ := result_assert (asset_id l =? asset_id r) in
  Ok ((asset_id l =? asset_id r) && (amount l <=? amount r)).
Definition asset_ge (l r : Asset) : result bool :=
  let! _ := result_assert (asset_id l =? asset_id r) in
  Ok ((asset_id l =? asset_id r) && (amount r <=? amount l)).

End AssetOps.

(** ** Prices *)
Section PriceOps.
Context `{FcNumerics}.

Definition price_one : Z := 1 * 2 ^ 64 + 0.
Definition price_infinite : Z := 2 ^ 128 - 1.
Definition is_infinite (p : Price) : bool := ratio p =? price_infinite.

Definition price_eq (l r : Price) : bool := ratio l =? ratio r.
Definition price_ne (l r : Price) : bool :=
  negb (ratio l =? ratio r) || negb (base_asset_id l =? base_asset_id r)
  || negb (quote_asset_id l =? quote_asset_id r).
Definition price_lt (l r : Price) : bool :=
  if quote_asset_id l <? quote_asset_id r then true
  else if quote_asset_id r <? quote_asset_id l then false
  else if base_asset_id l <? base_asset_id r then true
  else if base_asset_id r <? base_asset_id l then false
  else ratio l <? ratio r.
Definition price_gt (l r : Price) : bool :=
  if quote_asset_id r <? quote_asset_id l then true
  else if quote_asset_id l <? quote_asset_id r then false
  else if base_asset_id r <? base_asset_id l then true
  else if base_asset_id l <? base_asset_id r then false
  else ratio r <? ratio l.

(** operator * (Price, Price) *)
Definition price_mul (l r : Price) : result Price :=
  let! _ := result_assert (quote_asset_id l =? quote_asset_id r) in
  let! _ := result_assert (base_asset_id l =? base_asset_id r) in
  if is_infinite l then
    if ratio r =? 0 then Err price_multiplication_undefined else Ok l
  else if is_infinite r then
    if ratio l =? 0 then Err price_multiplication_undefined else Ok r
  else if ratio l =? 0 then Ok l
  else if ratio r =? 0 then Ok r
  else
    let product := ratio l * ratio r / FC_REAL128_PRECISION in
    if product =? 0 then Err price_multiplication_underflow
    else if price_infinite <=? product then Err price_multiplication_overflow
    else Ok (mkPrice (wrap_u128 product) (base_asset_id l) (quote_asset_id l)).

(** operator / (Asset, Asset): bigint is built from uint64_t. *)
Definition asset_div (a b : Asset) : result Price :=
  if asset_id a =? asset_id b then Err asset_divide_by_self
  else
    let '(l, r) := if asset_id a <? asset_id b then (b, a) else (a, b) in
    if amount r =? 0 then Err asset_divide_by_zero
    else Ok (mkPrice
               (wrap_u128 (wrap_u64 (amount l) * FC_REAL128_PRECISION / wrap_u64 (amount r)))
               (asset_id r) (asset_id l)).

Definition bigint_div (a b : Z) : Z := if b =? 0 then bigint_div_zero a else a / b.

(** operator * (Asset, Price) *)
Definition asset_mul_price (a : Asset) (p : Price) : result Asset :=
  if asset_id a =? base_asset_id p then
    let amnt := wrap_u64 (amount a) * ratio p / FC_REAL128_PRECISION in
    if 128 <=? bigint_log2 amnt then Err addition_overflow
    else let! m := bigint_to_int64 amnt in Ok (mkAsset m (quote_asset_id p))
  else if asset_id a =? quote_asset_id p then
    let amt := wrap_u64 (amount a) * FC_REAL128_PRECISION in
    let res := bigint_div amt (ratio p) in
    if 128 <=? bigint_log2 res then Err addition_overflow
    else let! m := bigint_to_int64 res in Ok (mkAsset m (base_asset_id p))
  else Err asset_type_mismatch.

Definition asset_div_price (a : Asset) (p : Price) : result Asset := asset_mul_price a p.

(** The fraction of [set_ratio_from_string]: frac_part and frac_magnitude are int64_t. *)
Definition frac_step (fm : Z * Z) (digit : Z) : Z * Z :=
  (wrap_i64 (fst fm * 10 + digit), wrap_i64 (snd fm * 10)).

Definition parse_fraction (r : Z) (c : string) : result (Z * string) :=
  match c with
  | String d c' =>
      if is_digit d then
        let '((frac_part, frac_magnitude), rest) :=
          digits_fold frac_step (digit_of d, 10) c' in
        if wrap_u64 frac_magnitude =? 0 then Err division_trap
        else Ok (wrap_u128 (r + wrap_u128 (wrap_u128 frac_part
                   * (FC_REAL128_PRECISION / wrap_u64 frac_magnitude))), rest)
      else Ok (r, c)
  | EmptyString => Ok (r, c)
  end.

(** [Price::set_ratio_from_string]: the ratio it assigns and the unread text
    (the position it returns is what was consumed before it). *)
Definition set_ratio_from_string (s : string) : result (Z * string) :=
  let '(r, c) :=
    match s with
    | String d s' =>
        if is_digit d then
          let '(int_part, rest) :=
            digits_fold (fun acc digit => wrap_u64 (acc * 10 + digit)) (digit_of d) s' in
          (wrap_u128 (int_part * FC_REAL128_PRECISION), rest)
        else (0, s)
    | EmptyString => (0, s)
    end in
  match c with
  | String "." c' => parse_fraction r c'
  | _ => Ok (r, c)
  end.

Definition ratio_string (p : Price) : string :=
  strip_zeros
    (uint128_to_string (ratio p / FC_REAL128_PRECISION) +:+ "." +:+
     substring 1 (String.length (uint128_to_string
         (wrap_u128 (ratio p mod FC_REAL128_PRECISION + FC_REAL128_PRECISION))))
       (uint128_to_string (wrap_u128 (ratio p mod FC_REAL128_PRECISION + FC_REAL128_PRECISION)))).

End PriceOps.

(** ** Asset arithmetic is exact or refused *)

Lemma asset_add_Ok l r s : in_i64 (amount l) -> in_i64 (amount r) ->
  asset_add l r = Ok s <->
  asset_id l = asset_id r /\ in_i64 (amount l + amount r) /\
  s = mkAsset (amount l + amount r) (asset_id l).
Proof.
  unfold asset_add, asset_add_assign, result_assert, in_i64, INT64_MIN, INT64_MAX.
  intros Hl Hr. destruct (Z.eqb_spec (asset_id l) (asset_id r)); cbn.
  - destruct (_ || _) eqn:E.
    + apply orb_true_iff in E.
      split; [discriminate | intros (_ & ? & _); destruct E as [E | E]; to_prop; lia].
    + apply orb_false_iff in E as [E1 E2]. apply andb_false_iff in E1, E2.
      split; [intros [= <-] | intros (_ & _ & ->); reflexivity].
      destruct E1, E2; to_prop; repeat split; lia.
  - split; [discriminate | intros [? _]; contradiction].
Qed.

Lemma asset_sub_Ok l r s : in_i64 (amount l) -> in_i64 (amount r) ->
  asset_sub l r = Ok s <->
  asset_id l = asset_id r /\ in_i64 (amount l - amount r) /\
  s = mkAsset (amount l - amount r) (asset_id l).
Proof.
  unfold asset_sub, asset_sub_assign, result_assert, in_i64, INT64_MIN, INT64_MAX.
  intros Hl Hr. destruct (Z.eqb_spec (asset_id l) (asset_id r)); cbn.
  - destruct (_ || _) eqn:E.
    + apply orb_true_iff in E.
      split; [discriminate | intros (_ & ? & _); destruct E as [E | E]; to_prop; lia].
    + apply orb_false_iff in E as [E1 E2]. apply andb_false_iff in E1, E2.
      split; [intros [= <-] | intros (_ & _ & ->); reflexivity].
      destruct E1, E2; to_prop; repeat split; lia.
  - split; [discriminate | intros [? _]; contradiction].
Qed.

(** adding two assets succeeds exactly when they are of the same kind and
    the sum fits int64_t; the result is then the exact sum and subtracting
    the second operand gives the first one back. *)
Lemma asset_add_sub_exact l r :
  in_i64 (amount l) -> in_i64 (amount r) ->
  ((exists s, asset_add l r = Ok s) <->
     asset_id l = asset_id r /\ in_i64 (amount l + amount r)) /\
  (forall s, asset_add l r = Ok s ->
     amount s = amount l + amount r /\ asset_sub s r = Ok l).
Proof.
  intros Hl Hr. pose proof (asset_add_Ok l r) as Hadd. split.
  - split.
    + intros [s Hs]. apply Hadd in Hs; tauto.
    + intros [? ?]. eexists. apply Hadd; eauto.
  - intros s Hs. apply Hadd in Hs as (Hid & Hin & ->); [| done | done]. split; [done |].
    apply asset_sub_Ok; cbn; [done | done |].
    replace (amount l + amount r - amount r) with (amount l) by lia.
    repeat split; [done | apply Hl | apply Hl |]. now destruct l.
Qed.

Lemma asset_add_sub_exact_witness :
  (exists s, asset_add (mkAsset 7 0) (mkAsset (-9) 0) = Ok s) /\
  asset_sub (mkAsset (-2) 0) (mkAsset (-9) 0) = Ok (mkAsset 7 0).
Proof.
  destruct (asset_add_sub_exact (mkAsset 7 0) (mkAsset (-9) 0)) as [H1 H2].
  - unfold in_i64, INT64_MIN, INT64_MAX. cbn. lia.
  - unfold in_i64, INT64_MIN, INT64_MAX. cbn. lia.
  - split.
    + apply H1. unfold in_i64, INT64_MIN, INT64_MAX. cbn. lia.
    + apply (H2 (mkAsset (-2) 0)). reflexivity.
Defined.

(** ** Exchange at a price *)

(** A concrete library for the witnesses. *)
#[export] Instance fc_numerics_reference : FcNumerics := {|
  bigint_log2 := fun v => Z.log2 v + 1;
  bigint_to_int64 := fun v =>
    if (0 <=? v) && (v <? 2 ^ 63) then Ok v else Err assert_exception;
  bigint_div_zero := fun _ => 0;
  uint128_to_string := dec
|}.

#[export] Instance fc_numerics_reference_laws : @FcNumericsLaws fc_numerics_reference.
Proof.
  constructor; cbn.
  - intros v Hv. destruct (Z.eq_dec v 0) as [-> |]; [reflexivity |].
    assert (Z.log2 v < 127) by (apply Z.log2_lt_pow2; lia). lia.
  - intros v Hv. destruct (Z.leb_spec 0 v), (Z.ltb_spec v (2 ^ 63)); cbn; lia || done.
  - done.
Qed.

Section Exchange.
Context `{FcNumericsLaws}.

Lemma asset_mul_price_base a p :
  asset_id a = base_asset_id p -> 0 <= amount a <= INT64_MAX -> 0 <= ratio p ->
  amount a * ratio p / FC_REAL128_PRECISION <= INT64_MAX ->
  asset_mul_price a p =
  Ok (mkAsset (amount a * ratio p / FC_REAL128_PRECISION) (quote_asset_id p)).
Proof.
  unfold INT64_MAX. intros Hid Ha Hr Hb. unfold asset_mul_price.
  rewrite Hid, Z.eqb_refl, wrap_u64_small by lia. cbv zeta.
  assert (0 <= amount a * ratio p / FC_REAL128_PRECISION) as Hnn.
  { apply Z.div_pos; [nia | unfold FC_REAL128_PRECISION; lia]. }
  destruct (Z.leb_spec 128 (bigint_log2 (amount a * ratio p / FC_REAL128_PRECISION))).
  - pose proof (bigint_log2_bound (amount a * ratio p / FC_REAL128_PRECISION)). lia.
  - rewrite bigint_to_int64_small by lia. reflexivity.
Qed.

Lemma asset_div_Ok q b :
  asset_id b < asset_id q -> 0 <= amount q <= INT64_MAX -> 0 < amount b <= INT64_MAX ->
  asset_div q b = Ok (mkPrice (amount q * FC_REAL128_PRECISION / amount b)
                              (asset_id b) (asset_id q)).
Proof.
  unfold INT64_MAX. intros Hid Hq Hb. unfold asset_div.
  destruct (Z.eqb_spec (asset_id q) (asset_id b)); [lia |].
  destruct (Z.ltb_spec (asset_id q) (asset_id b)); [lia |]. cbn.
  destruct (Z.eqb_spec (amount b) 0); [lia |].
  rewrite !wrap_u64_small by lia. rewrite wrap_u128_small; [done |].
  unfold FC_REAL128_PRECISION. split; [apply Z.div_pos; lia |].
  apply Z.div_lt_upper_bound; [lia |]. nia.
Qed.

(** A price is made from [q] quote shares per [b] base shares; exchanging
    the [b] base shares at that price succeeds and gives back at most [q] quote
    shares, short by at most one share for every 10^18 of [b] plus one: rounding
    never creates shares. *)
Theorem exchange_rounds_down q b :
  asset_id b < asset_id q -> 0 <= amount q <= INT64_MAX -> 0 < amount b <= INT64_MAX ->
  exists p r, asset_div q b = Ok p /\ asset_mul_price b p = Ok r /\
    asset_id r = asset_id q /\
    amount q - (amount b / FC_REAL128_PRECISION + 1) <= amount r <= amount q.
Proof.
  unfold INT64_MAX. intros Hid Hq Hb. eexists _, _. split; [now apply asset_div_Ok |].
  set (P := FC_REAL128_PRECISION). assert (0 < P) by reflexivity.
  set (k := amount q * P / amount b).
  assert (amount b * k <= amount q * P < amount b * k + amount b) as Hk.
  { unfold k. pose proof (Z.mul_div_le (amount q * P) (amount b)).
    pose proof (Z.mul_succ_div_gt (amount q * P) (amount b)). nia. }
  assert (amount b * k / P <= amount q) as Hle.
  { apply Z.div_le_upper_bound; [done | lia]. }
  rewrite asset_mul_price_base; cbn; unfold INT64_MAX; fold P; fold k.
  - split; [reflexivity |]. cbn. split; [done |]. split; [| exact Hle].
    pose proof (Z.mul_succ_div_gt (amount b * k) P ltac:(done)).
    pose proof (Z.mul_succ_div_gt (amount b) P ltac:(done)).
    set (x := amount b * k / P) in *. set (y := amount b / P) in *.
    assert (0 < P * (x + y + 2 - amount q)) as Hpos by lia.
    apply Z.mul_pos_cancel_l in Hpos; [| done].
    change (amount q - (y + 1) <= x). lia.
  - done.
  - lia.
  - unfold k. apply Z.div_pos; nia.
  - lia.
Qed.

Lemma price_mul_finite l r :
  base_asset_id l = base_asset_id r -> quote_asset_id l = quote_asset_id r ->
  0 < ratio l < price_infinite -> 0 < ratio r < price_infinite ->
  price_mul l r =
    let product := ratio l * ratio r / FC_REAL128_PRECISION in
    if product =? 0 then Err price_multiplication_underflow
    else if price_infinite <=? product then Err price_multiplication_overflow
    else Ok (mkPrice product (base_asset_id l) (quote_asset_id l)).
Proof.
  intros Hb Hq Hl Hr. unfold price_mul, is_infinite.
  rewrite Hb, Hq, !Z.eqb_refl. cbn.
  repeat (match goal with |- context [?x =? price_infinite] =>
            destruct (Z.eqb_spec x price_infinite); [lia |] end).
  destruct (Z.eqb_spec (ratio l) 0); [lia |]. destruct (Z.eqb_spec (ratio r) 0); [lia |].
  destruct (_ =? 0) eqn:E; [done |]. destruct (price_infinite <=? _) eqn:E2; [done |].
  to_prop. rewrite wrap_u128_small; [done |]. unfold price_infinite in *.
  split; [| lia]. apply Z.div_pos; [nia | unfold FC_REAL128_PRECISION; lia].
Qed.

End Exchange.

Lemma exchange_rounds_down_witness :
  exists p r, asset_div (mkAsset 7 1) (mkAsset 3 0) = Ok p /\
    asset_mul_price (mkAsset 3 0) p = Ok r /\ asset_id r = 1 /\
    7 - (3 / FC_REAL128_PRECISION + 1) <= amount r <= 7.
Proof.
  apply (exchange_rounds_down (mkAsset 7 1) (mkAsset 3 0)); cbn; unfold INT64_MAX; lia.
Defined.

(** ** A printed ratio reads back *)

Section RatioText.
Context `{FcNumericsLaws}.

Lemma substring_all s : substring 0 (String.length s) s = s.
Proof. induction s; cbn; [done | now rewrite IHs]. Qed.

Lemma substring_long s : forall n, (String.length s <= n)%nat -> substring 0 n s = s.
Proof.
  induction s as [| c s IH]; intros [| n] Hn; cbn in *; [done | done | lia |].
  rewrite IH by lia. done.
Qed.

Lemma ratio_string_shape p : 0 <= ratio p < 2 ^ 128 ->
  ratio_string p = dec (ratio p / FC_REAL128_PRECISION) +:+
    String "." (strip_zeros (fixed_dec 18 (ratio p mod FC_REAL128_PRECISION))).
Proof.
  intros Hr. unfold ratio_string. set (P := FC_REAL128_PRECISION).
  assert (P = 10 ^ Z.of_nat 18) as HP by reflexivity.
  pose proof (Z.mod_pos_bound (ratio p) P ltac:(reflexivity)) as Hm.
  assert (0 <= ratio p / P < 2 ^ 128) as Hd.
  { split; [apply Z.div_pos; [lia | reflexivity] |].
    apply Z.div_lt_upper_bound; [reflexivity |]. assert (1 < P) by reflexivity. nia. }
  assert (0 <= ratio p mod P + P < 2 ^ 128) as Hs.
  { assert (P + P < 2 ^ 128) by reflexivity. lia. }
  rewrite (uint128_to_string_dec (ratio p / P)) by exact Hd.
  rewrite wrap_u128_small, uint128_to_string_dec by exact Hs.
  assert (dec (ratio p mod P + P) = String "1" (fixed_dec 18 (ratio p mod P))) as E.
  { rewrite Z.add_comm, HP. apply dec_fixed. rewrite <- HP. exact Hm. }
  rewrite E. cbn [substring String.length]. rewrite substring_long by lia.
  change ("." +:+ fixed_dec 18 (ratio p mod P))
    with (String "." (fixed_dec 18 (ratio p mod P))).
  apply strip_zeros_prefix. discriminate.
Qed.

Lemma int_part_fold v rest : 0 <= v < 2 ^ 64 -> no_digit_ahead rest = true ->
  exists c r, dec v = String c r /\ is_digit c = true /\
  digits_fold (fun acc digit => wrap_u64 (acc * 10 + digit)) (digit_of c) (r +:+ rest) = (v, rest).
Proof.
  intros Hv Hrest. pose proof (dec_digits v ltac:(lia)) as Hd.
  pose proof (digits_val_dec v ltac:(lia)) as Hval.
  destruct (dec v) as [| c r] eqn:E.
  { exfalso. unfold dec in E. cbn [dec_fuel] in E. destruct (v <? 10); [discriminate |].
    apply (f_equal String.length) in E. rewrite length_app_str in E. cbn in E. lia. }
  cbn in Hd. apply andb_true_iff in Hd as [Hc Hr]. exists c, r. split; [done |]. split; [done |].
  rewrite <- Hval. cbn [digits_val].
  replace (0 * 10 + digit_of c) with (digit_of c) by lia.
  apply (digits_fold_app (fun acc digit => wrap_u64 (acc * 10 + digit)) (fun x => x)).
  - exact Hr.
  - exact Hrest.
  - intros q d s' Hs'. rewrite digits_val_app. cbn. apply wrap_u64_small.
    pose proof (digits_val_prefix (String c (q +:+ String d "")) s') as Hp.
    assert (String c (q +:+ String d "") +:+ s' = String c r) as Es.
    { rewrite Hs'. cbn. now rewrite app_assoc_str. }
    rewrite Es in Hp. cbn in Hp, Hval. rewrite digits_val_app in Hp. cbn in Hp.
    replace (0 * 10 + digit_of c) with (digit_of c) in * by lia.
    specialize (Hp ltac:(now rewrite Hc, Hr)). rewrite Hval in Hp. lia.
Qed.

Lemma frac_fold s v0 : forall m, all_digits s = true -> 0 <= v0 -> (0 <= m)%nat ->
  (m + String.length s <= 18)%nat -> digits_val v0 s < 10 ^ 18 ->
  digits_fold frac_step (v0, 10 ^ Z.of_nat m) s =
    ((digits_val v0 s, 10 ^ Z.of_nat (m + String.length s)), "").
Proof.
  revert v0. induction s as [| c s IH]; intros v0 m Hd Hz Hm Hl Hv; cbn [digits_fold].
  - cbn. now rewrite Nat.add_0_r.
  - cbn in Hd. apply andb_true_iff in Hd as [Hc Hs]. rewrite Hc. cbn in Hl, Hv |- *.
    pose proof Hc as Hc'. unfold is_digit in Hc'. to_prop.
    pose proof (digits_val_bound s (v0 * 10 + digit_of c) ltac:(lia) Hs).
    assert (0 < 10 ^ Z.of_nat (String.length s)) by (apply Z.pow_pos_nonneg; lia).
    assert (10 ^ Z.of_nat (S m) <= 10 ^ 18) as Hpow by (apply Z.pow_le_mono_r; lia).
    assert (0 < 10 ^ Z.of_nat (S m)) by (apply Z.pow_pos_nonneg; lia).
    unfold frac_step at 2. cbn [fst snd]. rewrite !wrap_i64_small.
    + replace (10 ^ Z.of_nat m * 10) with (10 ^ Z.of_nat (S m)).
      * rewrite IH; [| done | lia | lia | lia | done]. do 3 f_equal. lia.
      * rewrite Nat2Z.inj_succ, Z.pow_succ_r by lia. lia.
    + unfold in_i64, INT64_MIN, INT64_MAX. rewrite Nat2Z.inj_succ, Z.pow_succ_r in * by lia. lia.
    + unfold in_i64, INT64_MIN, INT64_MAX. assert (v0 * 10 + digit_of c < 10 ^ 18) by nia. lia.
Qed.

Lemma parse_fraction_val r m fr :
  0 <= r -> 0 <= m < 10 ^ 18 -> r + m < 2 ^ 128 ->
  all_digits fr = true -> (String.length fr <= 18)%nat ->
  digits_val 0 fr * 10 ^ (18 - Z.of_nat (String.length fr)) = m ->
  parse_fraction r fr = Ok (r + m, "").
Proof.
  intros Hz Hm Hb Hd Hl Hv. destruct fr as [| c fr].
  - cbn in Hv |- *. do 2 f_equal. lia.
  - pose proof Hd as Hd'. cbn in Hd'. apply andb_true_iff in Hd' as [Hc Hs].
    unfold parse_fraction. rewrite Hc.
    pose proof Hc as Hc'. unfold is_digit in Hc'. to_prop.
    cbn [digits_val String.length] in *.
    replace (0 * 10 + digit_of c) with (digit_of c) in Hv by lia.
    set (n := String.length fr) in *. set (v := digits_val (digit_of c) fr) in *.
    assert (0 < 10 ^ (18 - Z.of_nat (S n))) by (apply Z.pow_pos_nonneg; lia).
    pose proof (digits_val_bound fr (digit_of c) ltac:(lia) Hs) as Hv0. fold v n in Hv0.
    assert (0 < 10 ^ Z.of_nat n) by (apply Z.pow_pos_nonneg; lia).
    assert (0 <= v < 10 ^ 18) as Hvb by nia.
    change 10 with (10 ^ Z.of_nat 1) at 1.
    rewrite frac_fold; [| done | lia | lia | cbn; lia | apply Hvb].
    fold v n. cbn [Nat.add].
    assert (10 ^ Z.of_nat (S n) <= 10 ^ 18) as Hpow by (apply Z.pow_le_mono_r; lia).
    assert (0 < 10 ^ Z.of_nat (S n)) by (apply Z.pow_pos_nonneg; lia).
    rewrite wrap_u64_small by lia.
    destruct (Z.eqb_spec (10 ^ Z.of_nat (S n)) 0); [lia |].
    replace (FC_REAL128_PRECISION / 10 ^ Z.of_nat (S n)) with (10 ^ (18 - Z.of_nat (S n))).
    + rewrite (wrap_u128_small v) by lia. rewrite Hv, (wrap_u128_small m) by lia.
      now rewrite wrap_u128_small by lia.
    + change FC_REAL128_PRECISION with (10 ^ 18).
      rewrite Z.pow_sub_r by lia. reflexivity.
Qed.

(** Printing the ratio of a price and reading the text back gives the
    ratio again and consumes the whole text, as long as its integer part fits
    the uint64_t the reader accumulates it in. *)
Theorem ratio_string_roundtrip p :
  0 <= ratio p < 2 ^ 128 -> ratio p / FC_REAL128_PRECISION < 2 ^ 64 ->
  set_ratio_from_string (ratio_string p) = Ok (ratio p, "").
Proof.
  intros Hr Hi. rewrite ratio_string_shape by done.
  set (P := FC_REAL128_PRECISION) in *.
  assert (P = 10 ^ Z.of_nat 18) as HP by reflexivity.
  pose proof (Z.mod_pos_bound (ratio p) P ltac:(reflexivity)) as Hm.
  assert (0 <= ratio p / P) by (apply Z.div_pos; [lia | reflexivity]).
  pose proof (Z.div_mod (ratio p) P ltac:(discriminate)) as Hdm.
  set (fr := strip_zeros (fixed_dec 18 (ratio p mod P))).
  destruct (int_part_fold (ratio p / P) (String "." fr)) as (c & r & -> & Hc & Hf);
    [lia | reflexivity |].
  unfold set_ratio_from_string.
  change (String c r +:+ String "." fr) with (String c (r +:+ String "." fr)).
  cbv iota beta. rewrite Hc, Hf. fold P. rewrite wrap_u128_small by nia. cbv iota beta.
  replace (ratio p / P * P) with (ratio p - ratio p mod P) by lia.
  destruct (strip_fixed 18 (ratio p mod P)) as (Hd & Hl & Hv); [now rewrite <- HP |].
  fold fr in Hd, Hl, Hv. rewrite (parse_fraction_val _ (ratio p mod P));
    [| lia | rewrite HP in Hm; exact Hm | lia | exact Hd | exact Hl | exact Hv].
  do 2 f_equal. lia.
Qed.

End RatioText.

Lemma ratio_string_roundtrip_witness :
  set_ratio_from_string (ratio_string (mkPrice (15 * 10 ^ 17) 0 1)) = Ok (15 * 10 ^ 17, "").
Proof.
  apply (ratio_string_roundtrip (mkPrice (15 * 10 ^ 17) 0 1)); cbn; [lia | reflexivity].
Defined.

(** ** Corners of the conversions *)

(** Twenty fraction digits: frac_magnitude passes the precision and the digits
    are dropped. *)
Example fraction_lost :
  set_ratio_from_string "0.5000000000000000000" = Ok (0, ""%string).
Proof. vm_compute. reflexivity. Qed.

(** Sixty-four fraction digits: frac_magnitude wraps to zero. *)
Example fraction_divides_by_zero :
  set_ratio_from_string
    "0.0000000000000000000000000000000000000000000000000000000000000000"
  = Err division_trap.
Proof. vm_compute. reflexivity. Qed.

(** [Price::one] is not the multiplicative unit of [operator *]. *)
Example price_one_not_unit :
  price_mul (mkPrice price_one 0 1) (mkPrice FC_REAL128_PRECISION 0 1)
  = Ok (mkPrice price_one 0 1) /\ price_one <> FC_REAL128_PRECISION.
Proof. split; [reflexivity | discriminate]. Qed.

(** [==] compares the ratios alone, [!=] the whole price. *)
Example price_eq_and_ne :
  price_eq (mkPrice 1 0 1) (mkPrice 1 0 2) = true /\
  price_ne (mkPrice 1 0 1) (mkPrice 1 0 2) = true.
Proof. split; reflexivity. Qed.

(** Dividing a negative amount goes through uint64_t. *)
Example asset_div_constant_negative :
  asset_div_constant (mkAsset (-10) 0) 2 = Ok (mkAsset (2 ^ 63 - 5) 0).
Proof. reflexivity. Qed.
