(* ===== verification/Entries.v ===== *)
(** * The data of the chain

    The structs of include/blockchain/*Entry.hpp, WithdrawTypes.hpp,
    Operations.hpp, Transaction.hpp, Block.hpp and
    TransactionEvaluationState.hpp.

    Identifiers, 160-bit hashes, digests, keys and addresses are integers; zero
    is the value of a default constructed one (PublicKeyType(), Address(),
    BlockIdType()).  Times are seconds (fc::time_point_sec).  A field that holds
    bytes packed by fc::raw is the value that was packed: [Operation] and
    [WithdrawData] are the tagged unions their [type] fields select. *)

From S2P Require Import Prelude Asset.
From Stdlib Require Import ZArith Lia Bool String.
From stdpp Require Import base gmap strings list.

Local Open Scope Z_scope.

Abbreviation AccountIdType := Z (only parsing).
Abbreviation AssetIdType := Z (only parsing).
Abbreviation SlateIdType := Z (only parsing).
Abbreviation BalanceIdType := Z (only parsing).
Abbreviation ContractIdType := Z (only parsing).
Abbreviation TransactionIdType := Z (only parsing).
Abbreviation BlockIdType := Z (only parsing).
Abbreviation DigestType := Z (only parsing).
Abbreviation SecretHashType := Z (only parsing).
Abbreviation PublicKeyType := Z (only parsing).
Abbreviation Address := Z (only parsing).
Abbreviation ShareType := Z (only parsing).
Abbreviation time_point_sec := Z (only parsing).
Abbreviation SignatureType := Z (only parsing).

(** fc::variant, as far as the modelled code looks into one. *)
Inductive variant :=
  | VNull
  | VInt64 (z : Z)
  | VBool (b : bool)
  | VString (s : string)
  | VIds (l : list Z)
  | VHash (h : Z)
  | VOther (h : Z).

#[export] Instance variant_eq_dec : EqDecision variant.
Proof. solve_decision. Defined.

Definition is_null (v : variant) : bool :=
  match v with VNull => true | _ => false end.

(** ** Accounts *)

Definition titan_account : Z := 0.
Definition public_account : Z := 1.
Definition multisig_account : Z := 2.

Record MultisigMetaInfo := mkMultisigMetaInfo {
  required : Z;
  owners : gset Address
}.

Record AccountMetaInfo := mkAccountMetaInfo {
  meta_type : Z;
  meta_bytes : list Z
}.

Record DelegateStats := mkDelegateStats {
  votes_for : ShareType;
  pay_rate : Z;
  signing_key_history : gmap Z PublicKeyType;
  last_block_num_produced : Z;
  next_secret_hash : option SecretHashType;
  pay_balance : ShareType;
  total_paid : ShareType;
  total_burned : ShareType;
  blocks_produced : Z;
  blocks_missed : Z
}.

Record VoteDel := mkVoteDel { vote_votes : ShareType; vote_delegate_id : AccountIdType }.

Record AccountEntry := mkAccountEntry {
  account_id : AccountIdType;
  account_name : string;
  account_public_data : variant;
  owner_key : PublicKeyType;
  active_key_history : gmap time_point_sec PublicKeyType;
  account_registration_date : time_point_sec;
  account_last_update : time_point_sec;
  delegate_info : option DelegateStats;
  meta_data : option AccountMetaInfo
}.

(** ** Assets *)

Definition retractable : Z := 1.
Definition restricted : Z := 2.
Definition market_halt : Z := 4.
Definition balance_halt : Z := 8.
Definition supply_unlimit : Z := 16.

Definition god_issuer_id : Z := 0.
Definition null_issuer_id : Z := -1.
Definition market_issuer_id : Z := -2.

Record AssetEntry := mkAssetEntry {
  ast_id : AssetIdType;
  ast_symbol : string;
  ast_name : string;
  ast_description : string;
  ast_public_data : variant;
  issuer_account_id : AccountIdType;
  precision : Z;
  ast_registration_date : time_point_sec;
  ast_last_update : time_point_sec;
  maximum_share_supply : ShareType;
  current_share_supply : ShareType;
  collected_fees : ShareType;
  flags : Z;
  issuer_permissions : Z;
  ast_transaction_fee : ShareType;
  market_fee : Z;
  authority : MultisigMetaInfo
}.

(** ** Balances and withdraw conditions *)

Definition withdraw_null_type : Z := 0.
Definition withdraw_signature_type : Z := 1.
Definition withdraw_multisig_type : Z := 3.
Definition withdraw_escrow_type : Z := 6.

Definition withdraw_common_type : Z := 0.
Definition withdraw_contract_type : Z := 1.
Definition withdraw_margin_type : Z := 2.

Record TransferMemo := mkTransferMemo {
  one_time_key : PublicKeyType;
  encrypted_memo_data : list Z
}.

(** [type] and [data] of a WithdrawCondition; [RawCondition t bytes] is a type
    byte with bytes that are not the packed struct of that type. *)
Inductive WithdrawData :=
  | WithdrawWithSignature (owner : Address) (memo : option TransferMemo)
  | WithdrawWithMultisig (m : Z) (owners : gset Address) (memo : option TransferMemo)
  | withdraw_with_escrow (sender receiver escrow : Address) (agreement_digest : DigestType)
      (memo : option TransferMemo)
  | RawCondition (type : Z) (bytes : list Z).

Definition withdraw_type (d : WithdrawData) : Z :=
  match d with
  | WithdrawWithSignature _ _ => withdraw_signature_type
  | WithdrawWithMultisig _ _ _ => withdraw_multisig_type
  | withdraw_with_escrow _ _ _ _ _ => withdraw_escrow_type
  | RawCondition t _ => t
  end.

Record WithdrawCondition := mkWithdrawCondition {
  cond_asset_id : AssetIdType;
  cond_slate_id : SlateIdType;
  cond_balance_type : Z;
  cond_data : WithdrawData
}.
Definition cond_type (c : WithdrawCondition) : Z := withdraw_type (cond_data c).

(** [as<WithdrawWithSignature>] and its siblings: the type is asserted, bytes
    that do not unpack throw. *)
Definition as_signature (c : WithdrawCondition) : result Address :=
  match cond_data c with
  | WithdrawWithSignature o _ => Ok o
  | RawCondition 1 _ => Err out_of_range_exception
  | _ => Err assert_exception
  end.
Definition as_multisig (c : WithdrawCondition) : result (Z * gset Address) :=
  match cond_data c with
  | WithdrawWithMultisig m os _ => Ok (m, os)
  | RawCondition 3 _ => Err out_of_range_exception
  | _ => Err assert_exception
  end.
Definition as_escrow (c : WithdrawCondition) : result (Address * Address * Address) :=
  match cond_data c with
  | withdraw_with_escrow s r e _ _ => Ok (s, r, e)
  | RawCondition 6 _ => Err out_of_range_exception
  | _ => Err assert_exception
  end.

(** WithdrawCondition::owners *)
Definition condition_owners (c : WithdrawCondition) : result (gset Address) :=
  if cond_type c =? withdraw_signature_type then
    let! o := as_signature c in Ok {[ o ]}
  else if cond_type c =? withdraw_multisig_type then
    let! mo := as_multisig c in Ok (snd mo)
  else if cond_type c =? withdraw_escrow_type then
    let! e := as_escrow c in Ok {[ fst (fst e); snd (fst e); snd e ]}
  else Ok ∅.

(** WithdrawCondition::owner *)
Definition condition_owner (c : WithdrawCondition) : result (option Address) :=
  if cond_type c =? withdraw_signature_type then
    let! o := as_signature c in Ok (Some o)
  else Ok None.

Record SnapshotEntry := mkSnapshotEntry {
  original_address : string;
  original_balance : ShareType
}.

Record BalanceEntry := mkBalanceEntry {
  condition : WithdrawCondition;
  balance : ShareType;
  restricted_owner : option Address;
  snapshot_info : option SnapshotEntry;
  deposit_date : time_point_sec;
  balance_last_update : time_point_sec;
  balance_meta_data : variant
}.

(** ** Slates, slots, properties *)

Record SlateEntry := mkSlateEntry {
  slate : gset AccountIdType;
  duplicate_slate : list AccountIdType
}.

Record SlotIndex := mkSlotIndex {
  slot_delegate_id : AccountIdType;
  slot_timestamp : time_point_sec
}.

Record SlotEntry := mkSlotEntry {
  slot_index : SlotIndex;
  slot_block_id : option BlockIdType
}.

#[export] Instance slot_index_eq_dec : EqDecision SlotIndex.
Proof. solve_decision. Defined.
#[export] Program Instance slot_index_countable : Countable SlotIndex :=
  inj_countable' (fun i => (slot_delegate_id i, slot_timestamp i))
    (fun p => mkSlotIndex (fst p) (snd p)) _.
Next Obligation. now intros []. Qed.

#[export] Instance vote_del_eq_dec : EqDecision VoteDel.
Proof. solve_decision. Defined.
#[export] Program Instance vote_del_countable : Countable VoteDel :=
  inj_countable' (fun v => (vote_votes v, vote_delegate_id v))
    (fun p => mkVoteDel (fst p) (snd p)) _.
Next Obligation. now intros []. Qed.

Inductive PropertyIdType :=
  | database_version | chain_id | last_asset_id | last_account_id
  | active_delegate_list_id | last_random_seed_id | statistics_enabled
  | confirmation_requirement | dirty_markets | node_vm_enabled.

#[export] Instance property_id_eq_dec : EqDecision PropertyIdType.
Proof. solve_decision. Defined.
Definition property_id_all : list PropertyIdType :=
  [database_version; chain_id; last_asset_id; last_account_id; active_delegate_list_id;
   last_random_seed_id; statistics_enabled; confirmation_requirement; dirty_markets;
   node_vm_enabled].
#[export] Program Instance property_id_finite : finite.Finite PropertyIdType :=
  {| finite.enum := property_id_all |}.
Next Obligation. apply (bool_decide_unpack _). vm_compute. exact I. Qed.
Next Obligation. intros []; apply (bool_decide_unpack _); vm_compute; exact I. Qed.

Record PropertyEntry := mkPropertyEntry {
  property_id : PropertyIdType;
  property_value : variant
}.

(** ** Contracts *)

(** [storage_data] holds a packed base value or a packed table: the map of a
    table or of an array, both keyed by strings, with packed values. *)
Inductive StorageData :=
  | StorageBytes (bytes : list Z)
  | StorageMap (raw_storage_map : gmap string (list Z)).

Record StorageDataType := mkStorageDataType {
  storage_type : Z;
  storage_data : StorageData
}.

Record Code := mkCode {
  abi : gset string;
  offline_abi : gset string;
  events : gset string;
  storage_properties : gmap string Z;
  byte_code : list Z;
  code_hash : string
}.

Definition contract_level_temp : Z := 1.
Definition contract_level_forever : Z := 2.
Definition contract_state_valid : Z := 1.
Definition contract_state_deleted : Z := 2.

Record ContractEntry := mkContractEntry {
  contract_name : string;
  contract_id : ContractIdType;
  contract_level : Z;
  contract_owner : PublicKeyType;
  contract_state : Z;
  contract_description : string;
  contract_code : Code;
  contract_reserved : option Z;
  contract_trx_id : TransactionIdType;
  contract_register_time : Z
}.

Record ContractStorageEntry := mkContractStorageEntry {
  storage_contract_id : ContractIdType;
  contract_storages : gmap string StorageDataType
}.

Record ResultTIdEntry := mkResultTIdEntry { res : TransactionIdType }.
Record RequestIdEntry := mkRequestIdEntry { req : TransactionIdType }.
Record ContractTrxEntry := mkContractTrxEntry { trx_entry_id : TransactionIdType }.
Record ContractinTrxEntry := mkContractinTrxEntry { in_trx_contract_id : ContractIdType }.

(** ** Operations *)

Record WithdrawOperation := mkWithdrawOperation {
  wd_balance_id : BalanceIdType;
  wd_amount : ShareType;
  claim_input_data : list Z
}.
Record DepositOperation := mkDepositOperation {
  dep_amount : ShareType;
  dep_condition : WithdrawCondition
}.
Record WithdrawContractOperation := mkWithdrawContractOperation {
  wdc_balance_id : BalanceIdType;
  wdc_amount : ShareType;
  wdc_contract : ContractIdType
}.
Record DepositContractOperation := mkDepositContractOperation {
  depc_amount : ShareType;
  depc_condition : WithdrawCondition
}.
Record BalancesWithdrawOperation := mkBalancesWithdrawOperation {
  bw_balances : gmap BalanceIdType ShareType
}.
Record UpdateBalanceVoteOperation := mkUpdateBalanceVoteOperation {
  ubv_balance_id : BalanceIdType;
  new_restricted_owner : option Address;
  new_slate : SlateIdType
}.
Record RegisterAccountOperation := mkRegisterAccountOperation {
  reg_name : string;
  reg_public_data : variant;
  reg_owner_key : PublicKeyType;
  reg_active_key : PublicKeyType;
  reg_delegate_pay_rate : Z;
  reg_meta_data : option AccountMetaInfo
}.
Record UpdateAccountOperation := mkUpdateAccountOperation {
  upd_account_id : AccountIdType;
  upd_public_data : option variant;
  upd_active_key : option PublicKeyType;
  upd_delegate_pay_rate : Z
}.
Record UpdateSigningKeyOperation := mkUpdateSigningKeyOperation {
  usk_account_id : AccountIdType;
  usk_signing_key : PublicKeyType
}.
Record WithdrawPayOperation := mkWithdrawPayOperation {
  wp_amount : ShareType;
  wp_account_id : AccountIdType
}.
Record CreateAssetOperation := mkCreateAssetOperation {
  ca_symbol : string;
  ca_name : string;
  ca_description : string;
  ca_public_data : variant;
  ca_issuer_account_id : AccountIdType;
  ca_maximum_share_supply : ShareType;
  ca_precision : Z
}.
Record UpdateAssetOperation := mkUpdateAssetOperation {
  ua_asset_id : AssetIdType;
  ua_name : option string;
  ua_description : option string;
  ua_public_data : option variant;
  ua_maximum_share_supply : option ShareType;
  ua_precision : option Z
}.
Record UpdateAssetExtOperation := mkUpdateAssetExtOperation {
  uae_base : UpdateAssetOperation;
  uae_flags : Z;
  uae_issuer_permissions : Z;
  uae_issuer_account_id : AccountIdType;
  uae_market_fee : Z;
  uae_transaction_fee : ShareType;
  uae_authority : MultisigMetaInfo
}.
Record IssueAssetOperation := mkIssueAssetOperation { issue_amount : Asset }.
Record DefineSlateOperation := mkDefineSlateOperation { ds_slate : list AccountIdType }.
Record ImessageMemoOperation := mkImessageMemoOperation { imessage : string }.

Record RegisterContractOperation := mkRegisterContractOperation {
  rc_contract_code : Code;
  rc_initcost : Asset;
  rc_transaction_fee : Asset;
  rc_balances : gmap BalanceIdType ShareType;
  rc_owner : PublicKeyType;
  rc_register_time : Z
}.
Record UpgradeContractOperation := mkUpgradeContractOperation {
  uc_id : ContractIdType;
  uc_name : string;
  uc_desc : string;
  uc_exec_limit : Asset;
  uc_transaction_fee : Asset;
  uc_balances : gmap BalanceIdType ShareType
}.
Record DestroyContractOperation := mkDestroyContractOperation {
  dc_id : ContractIdType;
  dc_exec_limit : Asset;
  dc_transaction_fee : Asset;
  dc_balances : gmap BalanceIdType ShareType
}.
Record CallContractOperation := mkCallContractOperation {
  cc_caller : PublicKeyType;
  cc_balances : gmap BalanceIdType ShareType;
  cc_contract : ContractIdType;
  cc_costlimit : Asset;
  cc_transaction_fee : Asset;
  cc_method : string;
  cc_args : string
}.
Record TransferContractOperation := mkTransferContractOperation {
  tc_from : PublicKeyType;
  tc_costlimit : Asset;
  tc_transaction_fee : Asset;
  tc_transfer_amount : Asset;
  tc_balances : gmap BalanceIdType ShareType;
  tc_contract_id : ContractIdType
}.
Record ContractInfoOperation := mkContractInfoOperation {
  ci_contract_id : ContractIdType;
  ci_owner : PublicKeyType;
  ci_code : Code;
  ci_register_time : Z
}.
Record OnDestroyOperation := mkOnDestroyOperation {
  od_id : ContractIdType;
  od_amount : Asset
}.
Record OnUpgradeOperation := mkOnUpgradeOperation {
  ou_id : ContractIdType;
  ou_name : string;
  ou_desc : string
}.
Record StorageDataChangeType := mkStorageDataChangeType {
  storage_before : StorageDataType;
  storage_after : StorageDataType
}.
Record StorageOperation := mkStorageOperation {
  so_contract_id : ContractIdType;
  contract_change_storages : gmap string StorageDataChangeType
}.
Record EventOperation := mkEventOperation {
  ev_id : ContractIdType;
  event_type : string;
  event_param : string;
  is_truncated : bool
}.

(** ** Transactions *)

Definition origin_transaction : Z := 0.
Definition complete_result_transaction : Z := 1.
Definition incomplete_result_transaction : Z := 2.

Record SignedTransactionOf (Op : Type) := mkSignedTransaction {
  expiration : time_point_sec;
  reserved : option Z;
  alp_account : string;
  alp_inport_asset : Asset;
  operations : list Op;
  result_trx_type : Z;
  result_trx_id : TransactionIdType;
  signatures : list SignatureType
}.
Arguments mkSignedTransaction {Op}.
Arguments expiration {Op}.
Arguments reserved {Op}.
Arguments alp_account {Op}.
Arguments alp_inport_asset {Op}.
Arguments operations {Op}.
Arguments result_trx_type {Op}.
Arguments result_trx_id {Op}.
Arguments signatures {Op}.

(** Operation: [type] and the unpacked [data]; [OpUnknown] is a type byte no
    operation of the factory has. *)
Inductive Operation :=
  | OpWithdraw (o : WithdrawOperation)
  | OpDeposit (o : DepositOperation)
  | OpRegisterAccount (o : RegisterAccountOperation)
  | OpUpdateAccount (o : UpdateAccountOperation)
  | OpWithdrawPay (o : WithdrawPayOperation)
  | OpCreateAsset (o : CreateAssetOperation)
  | OpUpdateAsset (o : UpdateAssetOperation)
  | OpIssueAsset (o : IssueAssetOperation)
  | OpDefineSlate (o : DefineSlateOperation)
  | OpUpdateSigningKey (o : UpdateSigningKeyOperation)
  | OpUpdateBalanceVote (o : UpdateBalanceVoteOperation)
  | OpUpdateAssetExt (o : UpdateAssetExtOperation)
  | OpImessageMemo (o : ImessageMemoOperation)
  | OpContractInfo (o : ContractInfoOperation)
  | OpRegisterContract (o : RegisterContractOperation)
  | OpUpgradeContract (o : UpgradeContractOperation)
  | OpDestroyContract (o : DestroyContractOperation)
  | OpCallContract (o : CallContractOperation)
  | OpTransferContract (o : TransferContractOperation)
  | OpWithdrawContract (o : WithdrawContractOperation)
  | OpDepositContract (o : DepositContractOperation)
  | OpBalancesWithdraw (o : BalancesWithdrawOperation)
  | OpTransaction (trx : SignedTransactionOf Operation)
  | OpStorage (o : StorageOperation)
  | OpEvent (o : EventOperation)
  | OpOnDestroy (o : OnDestroyOperation)
  | OpOnUpgrade (o : OnUpgradeOperation)
  | OpOnCallSuccess
  | OpUnknown (type : Z).

Abbreviation SignedTransaction := (SignedTransactionOf Operation).

(** The OperationTypeEnum value of an operation. *)
Definition op_type (op : Operation) : Z :=
  match op with
  | OpWithdraw _ => 1 | OpDeposit _ => 2
  | OpRegisterAccount _ => 3 | OpUpdateAccount _ => 4 | OpWithdrawPay _ => 5
  | OpCreateAsset _ => 6 | OpUpdateAsset _ => 7 | OpIssueAsset _ => 8
  | OpDefineSlate _ => 18
  | OpUpdateSigningKey _ => 24 | OpUpdateBalanceVote _ => 27
  | OpUpdateAssetExt _ => 30
  | OpImessageMemo _ => 66 | OpContractInfo _ => 68
  | OpRegisterContract _ => 70 | OpUpgradeContract _ => 71 | OpDestroyContract _ => 72
  | OpCallContract _ => 73 | OpTransferContract _ => 74
  | OpWithdrawContract _ => 80 | OpDepositContract _ => 82
  | OpBalancesWithdraw _ => 88 | OpTransaction _ => 90 | OpStorage _ => 91
  | OpEvent _ => 100 | OpOnDestroy _ => 108 | OpOnUpgrade _ => 109
  | OpOnCallSuccess => 110
  | OpUnknown t => t
  end.

Definition transaction_op_type : Z := 90.
Definition register_contract_op_type : Z := 70.
Definition upgrade_contract_op_type : Z := 71.
Definition destroy_contract_op_type : Z := 72.
Definition call_contract_op_type : Z := 73.
Definition transfer_contract_op_type : Z := 74.

(** SignedTransaction::check_operations_legality *)
Definition check_operations_legality (trx : SignedTransaction) : bool :=
  match operations trx with
  | [] => false
  | first_op :: rest =>
      let has_contract_op :=
        existsb (fun op => (register_contract_op_type <=? op_type op)
                           && (op_type op <=? transfer_contract_op_type)) (operations trx) in
      if has_contract_op && negb (Nat.eqb (List.length (operations trx)) 1) then false
      else match first_op with
           | OpTransaction trx =>
               match operations trx with
               | [op] =>
                   (op_type op =? register_contract_op_type)
                   || (op_type op =? call_contract_op_type)
                   || (op_type op =? transfer_contract_op_type)
                   || (op_type op =? destroy_contract_op_type)
                   || (op_type op =? upgrade_contract_op_type)
               | _ => false
               end
           | _ => negb (existsb (fun op => op_type op =? transaction_op_type) rest)
           end
  end.

Record TransactionLocation := mkTransactionLocation { loc_block_num : Z; loc_trx_num : Z }.

(** ** The state of one evaluation

    The members of TransactionEvaluationState that later code reads;
    [_current_state] is the pending state the evaluation monad carries. *)
Record TransactionEvaluationState := mkEvalState {
  es_trx : SignedTransaction;
  signed_keys : gset Address;
  validation_error : option exn;
  deposits : gmap AssetIdType ShareType;
  withdraws : gmap AssetIdType ShareType;
  es_yield : gmap AssetIdType ShareType;
  deposit_behavior : BalanceIdType * ShareType;
  deltas : gmap Z (gmap AssetIdType ShareType);
  required_fees : Asset;
  total_withdraw : Asset;
  alt_fees_paid : Asset;
  es_balance : gmap AssetIdType ShareType;
  delegate_vote_deltas : gmap AccountIdType ShareType;
  imessage_length : Z;
  skip_signature_check : bool;
  enforce_canonical_signatures : bool;
  skip_vote_adjustment : bool;
  max_fee : gmap AssetIdType ShareType;
  evaluate_contract_testing : bool;
  p_result_trx : SignedTransaction;
  current_op_index : Z;
  skipexec : bool;
  throw_exec_exception : bool;
  exec_cost : Asset;
  contract_operator : PublicKeyType;
  evaluate_contract_result : bool;
  event_vector : list EventOperation;
  contract_balance_remain : ShareType;
  withdrawed_contract_balance : list BalanceIdType;
  owner_balance_not_usedup : gset Address;
  deposit_address : gset Address;
  deposit_count : Z
}.

Record TransactionEntry := mkTransactionEntry {
  entry_eval_state : TransactionEvaluationState;
  chain_location : TransactionLocation
}.
Definition entry_trx (e : TransactionEntry) : SignedTransaction :=
  es_trx (entry_eval_state e).
