(* ===== verification/Names.v ===== *)
(** * Names, symbols and fees

    The validation and fee functions of blockchain/ChainInterface.cpp that read
    at most the head block number, with the constants of Config.hpp. *)

From S2P Require Import Prelude Asset Entries.
From Stdlib Require Import ZArith Lia Bool String Ascii.
From stdpp Require Import base strings list.

Local Open Scope string_scope.
Local Open Scope Z_scope.
#[local] Arguments String.append !_ _ / : simpl nomatch.

(** ** Config.hpp *)

Definition ALP_BLOCKCHAIN_PRECISION : Z := 100000.
Definition ALP_BLOCKCHAIN_MAX_UIA_MARKET_FEE : Z := 10000.
Definition ALP_BLOCKCHAIN_BLOCK_INTERVAL_SEC : Z := 10.
Definition ALP_BLOCKCHAIN_BLOCKS_PER_HOUR : Z := 60 * 60 / ALP_BLOCKCHAIN_BLOCK_INTERVAL_SEC.
Definition ALP_BLOCKCHAIN_BLOCKS_PER_DAY : Z := ALP_BLOCKCHAIN_BLOCKS_PER_HOUR * 24.
Definition ALP_BLOCKCHAIN_NUM_DELEGATES : Z := 99.
Definition ACT_DELEGATE_PAY_PER_BLOCK_TIMES : Z := 5.
Definition ALP_MAX_DELEGATE_PAY_PER_BLOCK : Z :=
  1 * ALP_BLOCKCHAIN_PRECISION * ACT_DELEGATE_PAY_PER_BLOCK_TIMES.
Definition ALP_BLOCKCHAIN_MAX_UNDO_HISTORY : Z := ALP_BLOCKCHAIN_BLOCKS_PER_HOUR.
Definition ALP_BLOCKCHAIN_MAX_SLATE_SIZE : Z :=
  ALP_BLOCKCHAIN_NUM_DELEGATES + ALP_BLOCKCHAIN_NUM_DELEGATES / 10.
Definition ALP_BLOCKCHAIN_MAX_MESSAGE_SIZE : Z := 2048.
Definition ALP_BLOCKCHAIN_MAX_FREE_MESSAGE_SIZE : Z := 1024.
Definition ALP_BLOCKCHAIN_MIN_MESSAGE_FEE_COE : Z := 100.
Definition ALP_BLOCKCHAIN_MAX_TRANSACTION_EXPIRATION_SEC : Z := 60 * 60 * 24 * 2.
Definition ALP_DEFAULT_TRANSACTION_FEE : Z := 1000.
Definition ALP_DEFAULT_CONTRACT_MARGIN : Z := 10 * ALP_BLOCKCHAIN_PRECISION.
Definition ALP_BLOCKCHAIN_MAX_SHARES : Z := 1000 * 1000 * 1000 * 1000 * 1000 * 1000.
Definition ALP_BLOCKCHAIN_MIN_NAME_SIZE : Z := 1.
Definition ALP_BLOCKCHAIN_MAX_NAME_SIZE : Z := 63.
Definition ALP_BLOCKCHAIN_MIN_SYMBOL_SIZE : Z := 3.
Definition ALP_BLOCKCHAIN_MAX_SUB_SYMBOL_SIZE : Z := 8.
Definition ALP_BLOCKCHAIN_MAX_SYMBOL_NAME_SIZE : Z := 20.
Definition ALP_BLOCKCHAIN_MAX_SYMBOL_DES_SIZE : Z := 256.
Definition CONTRACT_MAX_NAME_SIZE : Z := 32.
Definition CONTRACT_MAX_DESCRIPTION_SIZE : Z := 256.
Definition LIMIT_PRICE : Z := 1.
Definition ALP_BLOCKCHAIN_FREESIGNATURE_LIMIT : Z := 10.
Definition ALP_BLOCKCHAIN_MAX_SIGNAGTURE_NUM : Z := 1000.
Definition ALP_BLOCKCHAIN_EXTRA_SIGNATURE_FEE : Z := 1000.
Definition ALP_BLOCKCHAIN_TRANSACTION_MAX_DEPOSIT_NUM : Z := 100.
Definition ALP_DELEGATE_PAY_BLOCK_NUM : Z := 8524000.
Definition ALP_DELEGATE_PAY_INC_NUM : Z := 3150000.
Definition ALP_BLOCKCHAIN_MAX_TRX_SIZE : Z := 2 * 512 * 100.

(** ** Characters in the C locale *)

Definition code (c : ascii) : Z := Z.of_N (N_of_ascii c).
Definition isupper (c : ascii) : bool := (65 <=? code c) && (code c <=? 90).
Definition islower (c : ascii) : bool := (97 <=? code c) && (code c <=? 122).
Definition isdigit (c : ascii) : bool := (48 <=? code c) && (code c <=? 57).
Definition isalpha (c : ascii) : bool := isupper c || islower c.
Definition isalnum (c : ascii) : bool := isalpha c || isdigit c.

Definition strlen (s : string) : Z := Z.of_nat (String.length s).
Fixpoint str_forallb (p : ascii -> bool) (s : string) : bool :=
  match s with String c r => p c && str_forallb p r | EmptyString => true end.
(** [s[0]] and [s[s.size() - 1]]; the callers have tested that [s] is not empty. *)
Definition front (s : string) : ascii :=
  match s with String c _ => c | EmptyString => zero end.
Fixpoint back (s : string) : ascii :=
  match s with
  | EmptyString => zero
  | String c EmptyString => c
  | String _ r => back r
  end.
(** [substr( 0, dot )] and [substr( dot + 1 )] at the first dot. *)
Fixpoint split_dot (s : string) : string * string :=
  match s with
  | EmptyString => ("", "")
  | String c r =>
      if Ascii.eqb c "." then ("", r)
      else let '(a, b) := split_dot r in (String c a, b)
  end.

(** ** Account names *)

Definition name_char (c : ascii) : bool :=
  if isalnum c && negb (isupper c) then true else Ascii.eqb c "-".

Fixpoint is_valid_account_name_fuel (fuel : nat) (name : string) : bool :=
  match fuel with
  | O => false
  | S fuel =>
      if strlen name <? ALP_BLOCKCHAIN_MIN_NAME_SIZE then false
      else if ALP_BLOCKCHAIN_MAX_NAME_SIZE <? strlen name then false
      else if negb (isalpha (front name)) then false
      else if negb (isalnum (back name)) || isupper (back name) then false
      else
        let '(subname, supername) := split_dot name in
        if negb (isalnum (back subname)) || isupper (back subname) then false
        else if negb (str_forallb name_char subname) then false
        else match supername with
             | EmptyString => true
             | _ => is_valid_account_name_fuel fuel supername
             end
  end.
Definition is_valid_account_name (name : string) : bool :=
  is_valid_account_name_fuel (S (String.length name)) name.

(** ** Asset symbols *)

Definition is_valid_symbol_name (symbol : string) : result bool :=
  if String.eqb symbol "ACT" then Err assert_exception
  else if strlen symbol <? ALP_BLOCKCHAIN_MIN_SYMBOL_SIZE then Err assert_exception
  else if negb (str_forallb isupper symbol) then Err assert_exception
  else if ALP_BLOCKCHAIN_MAX_SUB_SYMBOL_SIZE <? strlen symbol then Err assert_exception
  else if String.prefix "ACT" symbol then Err assert_exception
  else Ok true.

(** ** Contracts *)

Definition contract_name_start (c : ascii) : bool :=
  ((65 <=? code c) && (code c <=? 90)) || ((97 <=? code c) && (code c <=? 122))
  || (code c =? 95).
Definition contract_name_char (c : ascii) : bool :=
  ((65 <=? code c) && (code c <=? 90)) || ((97 <=? code c) && (code c <=? 122))
  || ((48 <=? code c) && (code c <=? 57)) || (code c =? 95).

Definition is_valid_contract_name (name : string) : bool :=
  match name with
  | EmptyString => false
  | String c r =>
      if CONTRACT_MAX_NAME_SIZE <? strlen name then false
      else if negb (contract_name_start c) then false
      else str_forallb contract_name_char r
  end.

Definition is_valid_contract_description (description : string) : bool :=
  if (strlen description =? 0) || (CONTRACT_MAX_DESCRIPTION_SIZE <? strlen description)
  then false else true.

Definition is_destroyed_contract (state : Z) : bool := state =? contract_state_deleted.
Definition is_temporary_contract (level : Z) : bool := level =? contract_level_temp.

(** ** Fees *)

Definition delegate_pay_inc : list Z :=
  [1500000; 1650000; 1815000; 1996000; 2196000; 2415000; 2657000; 2923000; 3215000;
   3536000; 4000000].
Definition delegate_pay_inc_times : Z := 11.

Definition get_max_delegate_pay_issued_per_block (head_block_num : Z) : Z :=
  if ALP_DELEGATE_PAY_BLOCK_NUM <=? head_block_num then
    let inc_times := (head_block_num - ALP_DELEGATE_PAY_BLOCK_NUM) / ALP_DELEGATE_PAY_INC_NUM in
    let pos := if delegate_pay_inc_times <=? inc_times then delegate_pay_inc_times - 1
               else inc_times in
    nth (Z.to_nat pos) delegate_pay_inc 0
  else ALP_MAX_DELEGATE_PAY_PER_BLOCK.

Definition get_delegate_registration_fee (head_block_num pay_rate : Z) : result Z :=
  if pay_rate =? 0 then Ok 0
  else
    let blocks_per_two_weeks := 14 * ALP_BLOCKCHAIN_BLOCKS_PER_DAY in
    let max_total_pay_per_two_weeks :=
      blocks_per_two_weeks * get_max_delegate_pay_issued_per_block head_block_num in
    let max_pay_per_two_weeks := max_total_pay_per_two_weeks / ALP_BLOCKCHAIN_NUM_DELEGATES in
    let registration_fee := (max_pay_per_two_weeks * pay_rate) / 100 in
    if 0 <? registration_fee then Ok registration_fee else Err assert_exception.

Definition get_imessage_need_fee (imessage : string) : Z :=
  if strlen imessage <? ALP_BLOCKCHAIN_MAX_FREE_MESSAGE_SIZE then 0
  else ALP_BLOCKCHAIN_MIN_MESSAGE_FEE_COE
       * (strlen imessage - ALP_BLOCKCHAIN_MAX_FREE_MESSAGE_SIZE).

Definition get_asset_registration_fee (symbol_length : Z) : Z := 100000000.

Definition get_limit (id amount : Z) : Z :=
  if negb (id =? 0) then 0 else wrap_i32 (Z.quot amount LIMIT_PRICE).
Definition get_amount (limit asset_id : Z) : Asset := mkAsset (LIMIT_PRICE * limit) asset_id.
Definition get_transaction_fee : Asset := mkAsset ALP_DEFAULT_TRANSACTION_FEE 0.
Definition get_contract_register_fee (c : Code) : Asset :=
  mkAsset (Z.of_nat (length (byte_code c))) 0.
Definition get_default_margin : Asset := mkAsset ALP_DEFAULT_CONTRACT_MARGIN 0.

(** ** What the names are *)

(** A label: a lower case letter first, lower case letters, digits and dashes,
    no dash at the end. *)
Definition lower_or_digit (c : ascii) : bool := islower c || isdigit c.
Definition label (l : string) : Prop :=
  islower (front l) = true /\ lower_or_digit (back l) = true /\
  str_forallb (fun c => lower_or_digit c || Ascii.eqb c "-") l = true.

(** Labels joined by dots; every suffix is at most 63 characters long. *)
Inductive account_name_grammar : string -> Prop :=
  | name_label l : label l -> strlen l <= 63 -> account_name_grammar l
  | name_dot l r : label l -> account_name_grammar r ->
      strlen (l +:+ "." +:+ r) <= 63 -> account_name_grammar (l +:+ "." +:+ r).

Lemma code_range c : 0 <= code c <= 255.
Proof. unfold code. pose proof (N_ascii_bounded c). lia. Qed.

Lemma upper_lower_excl c : isupper c = true -> islower c = false.
Proof. unfold isupper, islower. intros. to_prop. apply andb_false_iff. left. apply Z.leb_gt. lia. Qed.

Lemma alnum_not_upper c : isalnum c && negb (isupper c) = lower_or_digit c.
Proof.
  unfold isalnum, isalpha, lower_or_digit. destruct (isupper c) eqn:E; cbn.
  - rewrite (upper_lower_excl _ E). unfold isdigit. unfold isupper in E. to_prop.
    symmetry. apply andb_false_iff. right. apply Z.leb_gt. lia.
  - now rewrite andb_true_r.
Qed.

Lemma name_char_eq c : name_char c = lower_or_digit c || Ascii.eqb c "-".
Proof. unfold name_char. rewrite alnum_not_upper. now destruct (lower_or_digit c). Qed.

Lemma str_forallb_ext p q s : (forall c, p c = q c) -> str_forallb p s = str_forallb q s.
Proof. intros H. induction s as [| c s IH]; cbn; [done | now rewrite H, IH]. Qed.

Lemma str_forallb_app p a b : str_forallb p (a +:+ b) = str_forallb p a && str_forallb p b.
Proof. induction a as [| c a IH]; cbn; [done | rewrite IH; apply andb_assoc]. Qed.

Lemma back_app a c b : back (a +:+ String c b) = back (String c b).
Proof.
  induction a as [| d a IH]; [done |]. cbn [String.append back].
  rewrite IH. destruct a; reflexivity.
Qed.

Definition no_dot (c : ascii) : bool := negb (Ascii.eqb c ".").

Lemma split_dot_app a b : str_forallb no_dot a = true ->
  split_dot (a +:+ "." +:+ b) = (a, b).
Proof.
  induction a as [| c a IH]; cbn; [done |]. unfold no_dot at 1. intros H.
  apply andb_true_iff in H as [H1 H2]. apply negb_true_iff in H1. rewrite H1.
  cbn in IH. now rewrite IH.
Qed.

Lemma split_dot_none a : str_forallb no_dot a = true -> split_dot a = (a, "").
Proof.
  induction a as [| c a IH]; cbn; [done |]. unfold no_dot at 1. intros H.
  apply andb_true_iff in H as [H1 H2]. apply negb_true_iff in H1. rewrite H1.
  now rewrite IH.
Qed.

Lemma split_dot_inv s a b : split_dot s = (a, b) ->
  str_forallb no_dot a = true /\ (s = a +:+ "." +:+ b \/ s = a /\ b = "").
Proof.
  revert a b. induction s as [| c s IH]; intros a b; cbn.
  - intros [= <- <-]. auto.
  - destruct (Ascii.eqb_spec c ".") as [-> | Hc].
    + intros [= <- <-]. auto.
    + destruct (split_dot s) as [a' b'] eqn:E. intros [= <- <-].
      destruct (IH _ _ eq_refl) as [H1 H2]. split.
      * cbn. unfold no_dot at 1. destruct (Ascii.eqb_spec c "."); [contradiction | exact H1].
      * destruct H2 as [-> | [-> ->]]; auto.
Qed.

Lemma name_char_no_dot c : lower_or_digit c || Ascii.eqb c "-" = true -> no_dot c = true.
Proof.
  unfold no_dot. destruct (Ascii.eqb_spec c ".") as [-> |]; [| done]. discriminate.
Qed.

Lemma label_no_dot l : label l -> str_forallb no_dot l = true.
Proof.
  intros (_ & _ & H). induction l as [| c l IH]; [done |]. cbn in *.
  apply andb_true_iff in H as [H1 H2]. now rewrite name_char_no_dot, IH.
Qed.

Lemma label_nonempty l : label l -> exists c r, l = String c r.
Proof. intros (H & _ & _). destruct l as [| c r]; [discriminate | eauto]. Qed.

Lemma grammar_nonempty s : account_name_grammar s -> exists c r, s = String c r.
Proof.
  intros H. destruct H as [l Hl _ | l r Hl _ _]; destruct (label_nonempty _ Hl) as (c & t & ->);
    cbn; eauto.
Qed.

Lemma grammar_back s : account_name_grammar s -> lower_or_digit (back s) = true.
Proof.
  induction 1 as [l Hl _ | l r Hl Hr IH _]; [apply Hl |].
  destruct (grammar_nonempty _ Hr) as (c & t & ->).
  cbn [String.append]. rewrite back_app. exact IH.
Qed.

Lemma grammar_front s : account_name_grammar s -> islower (front s) = true.
Proof.
  intros H. destruct H as [l Hl _ | l r Hl _ _]; destruct (label_nonempty _ Hl) as (c & t & ->);
    apply Hl.
Qed.

Lemma grammar_length s : account_name_grammar s -> strlen s <= 63.
Proof. now intros []. Qed.

Lemma last_char_ok c : negb (isalnum c) || isupper c = negb (lower_or_digit c).
Proof.
  rewrite <- alnum_not_upper. destruct (isalnum c), (isupper c); reflexivity.
Qed.

Lemma name_fuel_complete n : forall s, (String.length s < n)%nat ->
  account_name_grammar s -> is_valid_account_name_fuel n s = true.
Proof.
  induction n as [| n IH]; intros s Hn Hs; [lia |]. cbn [is_valid_account_name_fuel].
  pose proof (grammar_length _ Hs). pose proof (grammar_front _ Hs) as Hf.
  pose proof (grammar_back _ Hs) as Hb.
  destruct (grammar_nonempty _ Hs) as (c0 & r0 & E0).
  destruct (Z.ltb_spec (strlen s) ALP_BLOCKCHAIN_MIN_NAME_SIZE) as [Hlt |].
  { unfold strlen, ALP_BLOCKCHAIN_MIN_NAME_SIZE in Hlt. rewrite E0 in Hlt. cbn in Hlt. lia. }
  destruct (Z.ltb_spec ALP_BLOCKCHAIN_MAX_NAME_SIZE (strlen s)) as [Hlt |].
  { unfold ALP_BLOCKCHAIN_MAX_NAME_SIZE in Hlt. lia. }
  unfold isalpha at 1. rewrite Hf, orb_true_r, last_char_ok, Hb. cbn.
  destruct Hs as [l Hl _ | l r Hl Hr _].
  - rewrite split_dot_none by now apply label_no_dot.
    destruct Hl as (_ & Hlb & Hlc). rewrite last_char_ok, Hlb. cbn.
    rewrite (str_forallb_ext _ _ _ name_char_eq), Hlc. reflexivity.
  - rewrite split_dot_app by now apply label_no_dot.
    destruct Hl as (_ & Hlb & Hlc). rewrite last_char_ok, Hlb. cbn.
    rewrite (str_forallb_ext _ _ _ name_char_eq), Hlc. cbn.
    destruct (grammar_nonempty _ Hr) as (c & t & ->). apply IH; [| done].
    clear -Hn. rewrite DecimalText.length_app_str in Hn. cbn in *. lia.
Qed.

Lemma name_fuel_sound n : forall s,
  is_valid_account_name_fuel n s = true -> account_name_grammar s.
Proof.
  induction n as [| n IH]; intros s; cbn [is_valid_account_name_fuel]; [discriminate |].
  destruct (Z.ltb_spec (strlen s) ALP_BLOCKCHAIN_MIN_NAME_SIZE) as [| H1]; [discriminate |].
  destruct (Z.ltb_spec ALP_BLOCKCHAIN_MAX_NAME_SIZE (strlen s)) as [| H2]; [discriminate |].
  destruct (isalpha (front s)) eqn:Hf; [cbn | discriminate].
  rewrite last_char_ok. destruct (lower_or_digit (back s)) eqn:Hb; [cbn | discriminate].
  destruct (split_dot s) as [a b] eqn:E. rewrite last_char_ok.
  destruct (lower_or_digit (back a)) eqn:Hba; [cbn | discriminate].
  rewrite (str_forallb_ext _ _ _ name_char_eq).
  destruct (str_forallb _ a) eqn:Hc; [cbn | discriminate].
  destruct (split_dot_inv _ _ _ E) as [_ Hs].
  assert (label a) as Hl.
  { destruct a as [| c a]; [discriminate |]. repeat split; [| exact Hba | exact Hc].
    assert (front s = c) as Hfs by (destruct Hs as [-> | [-> _]]; reflexivity).
    rewrite Hfs in Hf. cbn in Hc |- *. apply andb_true_iff in Hc as [Hc _].
    unfold isalpha in Hf. apply orb_true_iff in Hf as [Hu | Hlow]; [| exact Hlow].
    exfalso. rewrite <- alnum_not_upper, Hu, andb_false_r in Hc. cbn in Hc.
    apply Ascii.eqb_eq in Hc. subst c. discriminate. }
  unfold ALP_BLOCKCHAIN_MAX_NAME_SIZE in H2.
  destruct b as [| c b]; intros H.
  - destruct Hs as [-> | [-> _]]; [| now constructor].
    exfalso. cbn in Hb. rewrite back_app in Hb. discriminate.
  - destruct Hs as [-> | [_ ?]]; [| discriminate].
    apply name_dot; [exact Hl | now apply IH | exact H2].
Qed.

(** C28: the recursive scan accepts exactly the dotted names of the grammar: labels of
    lower case letters, digits and dashes that start with a letter and do not
    end with a dash, at most 63 characters in all. *)
Theorem account_name_spec name :
  is_valid_account_name name = true <-> account_name_grammar name.
Proof.
  split; [apply name_fuel_sound |]. intros. apply name_fuel_complete; [lia | done].
Qed.

(** ** Delegate pay *)

Lemma pay_table_mono i j : (i <= j <= 10)%nat ->
  ALP_MAX_DELEGATE_PAY_PER_BLOCK <= nth i delegate_pay_inc 0 <= nth j delegate_pay_inc 0 /\
  nth j delegate_pay_inc 0 <= 4000000.
Proof.
  change ALP_MAX_DELEGATE_PAY_PER_BLOCK with 500000.
  intros H. do 11 (destruct j as [| j]; [do 11 (destruct i as [| i]; [cbn; lia |]); lia |]). lia.
Qed.

Lemma pay_position h : ALP_DELEGATE_PAY_BLOCK_NUM <= h ->
  exists i, get_max_delegate_pay_issued_per_block h = nth i delegate_pay_inc 0 /\
    Z.of_nat i = Z.min 10 ((h - ALP_DELEGATE_PAY_BLOCK_NUM) / ALP_DELEGATE_PAY_INC_NUM).
Proof.
  intros Hh. unfold get_max_delegate_pay_issued_per_block.
  destruct (Z.leb_spec ALP_DELEGATE_PAY_BLOCK_NUM h) as [_ |]; [| lia].
  assert (0 <= (h - ALP_DELEGATE_PAY_BLOCK_NUM) / ALP_DELEGATE_PAY_INC_NUM) as Hq.
  { apply Z.div_pos; [lia | reflexivity]. }
  cbv zeta. eexists. split; [reflexivity |]. unfold delegate_pay_inc_times.
  destruct (Z.leb_spec 11 ((h - ALP_DELEGATE_PAY_BLOCK_NUM) / ALP_DELEGATE_PAY_INC_NUM)); lia.
Qed.

(** the pay issued per block never decreases as the chain grows, stays
    between 5 ACT and 40 ACT, and a delegate's registration fee exists and is
    positive for every pay rate a uint8_t can hold. *)
Lemma delegate_pay_schedule h1 h2 rate :
  0 <= h1 <= h2 -> 1 <= rate <= 255 ->
  500000 <= get_max_delegate_pay_issued_per_block h1 <= get_max_delegate_pay_issued_per_block h2 /\
  get_max_delegate_pay_issued_per_block h2 <= 4000000 /\
  exists fee, get_delegate_registration_fee h1 rate = Ok fee /\ 0 < fee <= INT64_MAX.
Proof.
  intros Hh Hr.
  assert (500000 <= get_max_delegate_pay_issued_per_block h1
          <= get_max_delegate_pay_issued_per_block h2 /\
          get_max_delegate_pay_issued_per_block h2 <= 4000000) as H.
  { destruct (Z_lt_ge_dec h2 ALP_DELEGATE_PAY_BLOCK_NUM) as [H2 | H2].
    - unfold get_max_delegate_pay_issued_per_block.
      destruct (Z.leb_spec ALP_DELEGATE_PAY_BLOCK_NUM h1); [lia |].
      destruct (Z.leb_spec ALP_DELEGATE_PAY_BLOCK_NUM h2); [lia |].
      change ALP_MAX_DELEGATE_PAY_PER_BLOCK with 500000. lia.
    - destruct (pay_position h2) as (j & -> & Hj); [lia |].
      destruct (Z_lt_ge_dec h1 ALP_DELEGATE_PAY_BLOCK_NUM) as [H1 | H1].
      + assert (get_max_delegate_pay_issued_per_block h1 = ALP_MAX_DELEGATE_PAY_PER_BLOCK) as ->.
        { unfold get_max_delegate_pay_issued_per_block.
          destruct (Z.leb_spec ALP_DELEGATE_PAY_BLOCK_NUM h1); [lia | done]. }
        pose proof (pay_table_mono j j ltac:(lia)) as Hm.
        change ALP_MAX_DELEGATE_PAY_PER_BLOCK with 500000 in *. lia.
      + destruct (pay_position h1) as (i & -> & Hi); [lia |].
        assert ((h1 - ALP_DELEGATE_PAY_BLOCK_NUM) / ALP_DELEGATE_PAY_INC_NUM
                <= (h2 - ALP_DELEGATE_PAY_BLOCK_NUM) / ALP_DELEGATE_PAY_INC_NUM).
        { apply Z.div_le_mono; [reflexivity | lia]. }
        pose proof (pay_table_mono i j ltac:(lia)) as Hm.
        change ALP_MAX_DELEGATE_PAY_PER_BLOCK with 500000 in *. lia. }
  destruct H as [H1 H2]. split; [exact H1 | split; [exact H2 |]].
  unfold get_delegate_registration_fee. destruct (Z.eqb_spec rate 0); [lia |].
  change (14 * ALP_BLOCKCHAIN_BLOCKS_PER_DAY) with 120960.
  unfold ALP_BLOCKCHAIN_NUM_DELEGATES, INT64_MAX. cbv zeta.
  set (p := get_max_delegate_pay_issued_per_block h1) in *.
  assert (120960 * 500000 / 99 <= 120960 * p / 99 <= 120960 * 4000000 / 99) as Hq.
  { split; apply Z.div_le_mono; lia. }
  change (120960 * 500000 / 99) with 610909090 in Hq.
  change (120960 * 4000000 / 99) with 4887272727 in Hq.
  set (q := 120960 * p / 99) in *.
  assert (610909090 * 1 / 100 <= q * rate / 100 <= 4887272727 * 255 / 100) as Hf.
  { split; apply Z.div_le_mono; nia. }
  change (610909090 * 1 / 100) with 6109090 in Hf.
  change (4887272727 * 255 / 100) with 12462545453 in Hf.
  destruct (Z.ltb_spec 0 (q * rate / 100)); [| lia].
  eexists. split; [reflexivity | lia].
Qed.

Lemma delegate_pay_schedule_witness :
  500000 <= get_max_delegate_pay_issued_per_block 1
         <= get_max_delegate_pay_issued_per_block 9000000 /\
  get_max_delegate_pay_issued_per_block 9000000 <= 4000000 /\
  exists fee, get_delegate_registration_fee 1 100 = Ok fee /\ 0 < fee <= INT64_MAX.
Proof. apply (delegate_pay_schedule 1 9000000 100); lia. Defined.
