(* ===== verification/Addresses.v ===== *)
(** * The text of addresses (blockchain/Address.cpp, blockchain/PtsAddress.cpp)

    An address is 160 bits; its text is a prefix that names its type and the
    base58 form of its bytes and a checksum.  Base58 and the hashes belong to
    fc and are parameters. *)

From Stdlib Require Import ZArith Lia Bool String List.
From stdpp Require Import base list strings.
From S2P Require Import Prelude DecimalText Asset Entries Names.

Local Open Scope Z_scope.

Abbreviation Bytes := (list Z).

(** [from_base58] answers None where fc throws a parse_error_exception. *)
Class HashParams : Type := {
  from_base58 : string -> option Bytes;
  to_base58 : Bytes -> string;
  ripemd160 : Bytes -> Bytes;
  sha256 : Bytes -> Bytes
}.

(** What fc documents: encodings are read back, are not empty, and the hashes
    have 20 and 32 bytes. *)
Definition are_bytes : Bytes -> Prop := Forall (fun b => 0 <= b < 256).
Class HashLaws `{HashParams} : Type := {
  base58_roundtrip bs : are_bytes bs -> from_base58 (to_base58 bs) = Some bs;
  base58_nonempty bs : bs <> [] -> to_base58 bs <> EmptyString;
  ripemd160_length bs : List.length (ripemd160 bs) = 20%nat;
  ripemd160_bytes bs : are_bytes (ripemd160 bs);
  sha256_length bs : List.length (sha256 bs) = 32%nat;
  sha256_bytes bs : are_bytes (sha256 bs)
}.

(** The bytes of an address, the first one the most significant. *)
Fixpoint bytes_of (n : nat) (a : Z) : Bytes :=
  match n with
  | O => []
  | S m => (a / 256 ^ Z.of_nat m) mod 256 :: bytes_of m a
  end.
Definition number_of (bs : Bytes) : Z := fold_left (fun a b => a * 256 + b) bs 0.

Definition ALP_ADDRESS_PREFIX : string := "ACT".
Definition CONTRACT_ADDRESS_PREFIX : string := "CON".
Definition SCRIPT_ID_PREFIX : string := "SCR".
Inductive AddressType := alp_address | contract_address_type | script_id.
Definition prefix_of (address_type : AddressType) : string :=
  match address_type with
  | alp_address => ALP_ADDRESS_PREFIX
  | contract_address_type => CONTRACT_ADDRESS_PREFIX
  | script_id => SCRIPT_ID_PREFIX
  end.

Definition drop_string (n : nat) (s : string) : string := substring n (String.length s - n) s.

Section Addresses.
Context `{HashParams}.

Definition address_checksum (bs : Bytes) : Bytes := take 4 (ripemd160 bs).

(** Address::is_valid *)
Definition is_valid_address (base58str prefix : string) : bool :=
  let prefix_len := String.length prefix in
  if (String.length base58str <=? prefix_len)%nat then false
  else if negb (String.eqb (substring 0 prefix_len base58str) prefix) then false
  else match from_base58 (drop_string prefix_len base58str) with
       | None => false
       | Some v =>
           if negb (List.length v =? 24)%nat then false
           else bool_decide (drop 20 v = address_checksum (take 20 v))
       end.

(** Address::Address( base58str, address_type ) *)
Definition address_of_string (base58str : string) (address_type : AddressType) : result Address :=
  let prefix := prefix_of address_type in
  if negb (is_valid_address base58str prefix) then Err invalid_address
  else match from_base58 (drop_string (String.length prefix) base58str) with
       | Some v => Ok (number_of (take (Nat.min (List.length v - 4) 20) v))
       | None => Err parse_error_exception
       end.

(** Address::AddressToString *)
Definition address_to_string (a : Address) (address_type : AddressType) : string :=
  let bin_addr := bytes_of 20 a in
  prefix_of address_type ++ to_base58 (bin_addr ++ address_checksum bin_addr)%list.

(** PtsAddress: a version byte, the 20 bytes of a hash and a checksum. *)
Definition pts_check (addr : Bytes) : Bytes := take 4 (sha256 (sha256 (take 21 addr))).
Definition pts_is_valid (addr : Bytes) : bool := bool_decide (drop 21 addr = pts_check addr).
Definition pts_address (serialized : Bytes) (version : Z) : Bytes :=
  let rep := ripemd160 (sha256 serialized) in
  let addr := (version :: rep)%list in
  (addr ++ pts_check addr)%list.
(** PtsAddress::PtsAddress( base58str ): the array is not initialised, and
    shorter data overwrite its first bytes only. *)
Definition pts_of_string (uninitialised : Bytes) (base58str : string) : result Bytes :=
  match from_base58 base58str with
  | None => Err parse_error_exception
  | Some v =>
      let n := Nat.min (List.length v) 25 in
      let addr := (take n v ++ drop n uninitialised)%list in
      if negb (pts_is_valid addr) then Err invalid_pts_address else Ok addr
  end.
Definition pts_to_string (addr : Bytes) : string := to_base58 addr.

End Addresses.

(** ** Bytes *)

Lemma bytes_of_length n a : List.length (bytes_of n a) = n.
Proof. induction n; cbn; congruence. Qed.

Lemma bytes_of_bytes n a : are_bytes (bytes_of n a).
Proof. unfold are_bytes. induction n; cbn; constructor; auto. apply Z.mod_pos_bound. lia. Qed.

Lemma number_of_app bs b : number_of (bs ++ [b]) = number_of bs * 256 + b.
Proof. unfold number_of. now rewrite fold_left_app. Qed.

Lemma bytes_of_snoc n a : 0 <= a -> bytes_of (S n) a = (bytes_of n (a / 256) ++ [a mod 256])%list.
Proof.
  intros Ha. induction n as [| n IH].
  - cbn. now rewrite Z.div_1_r.
  - cbn [bytes_of app] in *. rewrite IH. f_equal. f_equal.
    rewrite Nat2Z.inj_succ, Z.pow_succ_r by lia. now rewrite Z.div_div by lia.
Qed.

Lemma number_of_bytes n a : 0 <= a < 256 ^ Z.of_nat n -> number_of (bytes_of n a) = a.
Proof.
  revert a. induction n as [| n IH]; intros a Ha; [cbn in *; lia |].
  rewrite bytes_of_snoc, number_of_app, IH by
    (rewrite ?Nat2Z.inj_succ, ?Z.pow_succ_r in Ha by lia;
     try split; try apply Z.div_pos; try apply Z.div_lt_upper_bound; lia).
  rewrite (Z.div_mod a 256) at 3; lia.
Qed.

(** ** Prefixes *)

#[local] Arguments String.append !s1 s2 / : simpl nomatch.

Lemma substring_prefix p s : substring 0 (String.length p) (p ++ s) = p.
Proof. induction p as [| c p IH]; cbn; [now destruct s | now rewrite IH]. Qed.
Lemma drop_string_prefix p s : drop_string (String.length p) (p ++ s) = s.
Proof.
  unfold drop_string. induction p as [| c p IH]; cbn; [| exact IH].
  rewrite Nat.sub_0_r. apply substring_all.
Qed.

Section Laws.
Context `{HashLaws}.

Lemma with_checksum_bytes a : are_bytes (bytes_of 20 a ++ address_checksum (bytes_of 20 a)).
Proof. apply Forall_app. split; [apply bytes_of_bytes | apply Forall_take, ripemd160_bytes]. Qed.

Lemma address_to_string_valid a ty : is_valid_address (address_to_string a ty) (prefix_of ty) = true.
Proof.
  unfold is_valid_address, address_to_string. set (bin := bytes_of 20 a).
  assert (List.length bin = 20%nat) as Hbin by apply bytes_of_length.
  assert (to_base58 (bin ++ address_checksum bin) <> EmptyString) as Hne.
  { apply base58_nonempty. intros E. apply (f_equal (@List.length Z)) in E. rewrite length_app, Hbin in E.
    discriminate. }
  rewrite length_app_str, substring_prefix, String.eqb_refl, drop_string_prefix, base58_roundtrip by apply with_checksum_bytes.
  destruct (to_base58 _) as [| c s]; [easy |]. cbn [String.length negb].
  destruct (Nat.leb_spec (String.length (prefix_of ty) + S (String.length s)) (String.length (prefix_of ty)));
    [lia |].
  rewrite length_app, Hbin. unfold address_checksum.
  rewrite length_take, ripemd160_length. cbn [Nat.min Nat.add Nat.eqb negb].
  rewrite drop_app_length', take_app_length' by easy. now apply bool_decide_eq_true.
Qed.

(** C20: The text of an address of any type is read back to the address, and
    a text of another type is refused. *)
Theorem address_string_roundtrip a ty ty' : 0 <= a < 2 ^ 160 ->
  address_of_string (address_to_string a ty) ty' =
  match ty, ty' with
  | alp_address, alp_address | contract_address_type, contract_address_type | script_id, script_id => Ok a
  | _, _ => Err invalid_address
  end.
Proof.
  intros Ha.
  assert (address_of_string (address_to_string a ty) ty = Ok a) as Hsame.
  { unfold address_of_string. rewrite address_to_string_valid. cbn [negb]. unfold address_to_string.
    rewrite drop_string_prefix, base58_roundtrip, length_app, bytes_of_length by apply with_checksum_bytes. unfold address_checksum.
    rewrite length_take, ripemd160_length. cbn [Nat.min Nat.add Nat.sub].
    rewrite take_app_length' by now rewrite bytes_of_length. now rewrite number_of_bytes. }
  destruct ty, ty'; try exact Hsame; unfold address_of_string, is_valid_address, address_to_string;
    destruct (_ <=? _)%nat; reflexivity.
Qed.

(** A PTS address is read back from its text. *)
Lemma pts_string_read garbage serialized version :
  List.length garbage = 25%nat -> 0 <= version < 256 ->
  pts_of_string garbage (pts_to_string (pts_address serialized version)) =
    Ok (pts_address serialized version).
Proof.
  intros Hg Hv. unfold pts_of_string, pts_to_string. rewrite base58_roundtrip.
  2: { apply Forall_app. split; [constructor; [exact Hv | apply ripemd160_bytes] | apply Forall_take, sha256_bytes]. }
  set (body := (version :: ripemd160 (sha256 serialized))%list).
  assert (List.length body = 21%nat) as Hl by (cbn; now rewrite ripemd160_length).
  change (pts_address serialized version) with (body ++ pts_check body)%list.
  assert (List.length (pts_check body) = 4%nat) as Hc
    by (unfold pts_check; now rewrite length_take, sha256_length).
  rewrite length_app, Hl, Hc. cbn [Nat.add Nat.min].
  rewrite (firstn_all2 (body ++ pts_check body)) by (rewrite length_app; lia).
  rewrite (skipn_all2 garbage), app_nil_r by lia.
  unfold pts_is_valid. rewrite drop_app_length' by easy.
  assert (pts_check (body ++ pts_check body) = pts_check body) as ->
    by (unfold pts_check at 1; rewrite take_app_length' by easy; unfold pts_check;
        now rewrite (firstn_all2 body) by lia).
  now rewrite bool_decide_eq_true_2.
Qed.
End Laws.

(** ** A sample *)

Section Sample.
Definition sample_encode (bs : Bytes) : string :=
  String.string_of_list_ascii (map (fun b => Ascii.ascii_of_N (Z.to_N b)) bs).
Definition sample_decode (s : string) : option Bytes :=
  Some (map (fun c => Z.of_N (Ascii.N_of_ascii c)) (String.list_ascii_of_string s)).
#[local] Instance sample_codec : HashParams := {|
  from_base58 := sample_decode;
  to_base58 := sample_encode;
  ripemd160 := fun bs => bytes_of 20 (7 * number_of bs + 1);
  sha256 := fun bs => bytes_of 32 (11 * number_of bs + 3)
|}.
#[local] Instance sample_codec_laws : HashLaws.
Proof.
  split; cbn -[bytes_of]; intros.
  - unfold sample_decode, sample_encode. rewrite String.list_ascii_of_string_of_list_ascii. f_equal.
    induction H as [| b bs Hb _ IH]; [reflexivity |]. cbn. rewrite IH.
    now rewrite Ascii.N_ascii_embedding, Z2N.id by lia.
  - now destruct bs.
  - apply (bytes_of_length 20).
  - apply (bytes_of_bytes 20).
  - apply (bytes_of_length 32).
  - apply (bytes_of_bytes 32).
Qed.

Lemma address_string_roundtrip_witness :
  0 <= 123456789 < 2 ^ 160 /\
  address_of_string (address_to_string 123456789 alp_address) alp_address = Ok 123456789 /\
  address_of_string (address_to_string 123456789 alp_address) script_id = Err invalid_address.
Proof.
  assert (0 <= 123456789 < 2 ^ 160) as Hr by (split; [lia | reflexivity]).
  split; [exact Hr |].
  split; [exact (address_string_roundtrip 123456789 alp_address alp_address Hr)
         | exact (address_string_roundtrip 123456789 alp_address script_id Hr)].
Defined.

(** Data longer than a PTS address is accepted for the address it begins with. *)
Example pts_longer_text :
  let a := pts_address [1; 2; 3] 56 in
  pts_of_string (bytes_of 25 0) (pts_to_string (a ++ [9; 9])) = Ok a.
Proof. vm_compute. reflexivity. Qed.
End Sample.
