(* ===== verification/ChainInterface.v ===== *)
(** * The chain database interface (include/blockchain/ChainInterface.hpp)

    What the entry types and the evaluators require of a chain state, and the
    store/remove functions of the entry types written against it.  The two
    implementations are PendingChainState and ChainDatabase.

    The primary maps (one per entry type) are indexed by [EntryKind]; the
    writes to the secondary indexes are the values of [IndexWrite]. *)

From S2P Require Import Prelude Asset Entries Names.
From Stdlib Require Import ZArith Lia Bool String.
From stdpp Require Import base gmap strings list finite.

Local Open Scope Z_scope.

(** Hashing and packing of values, key recovery from a signature, division of a
    fc::uint128 by zero (compiled outside this tree), and what the process
    fixes once: the chain id and the statistics flag are cached in
    function-local statics by ChainInterface::get_chain_id and
    get_statistics_enabled. *)
Class ChainParams : Type := {
  address_of_key : PublicKeyType -> Address;
  pts_address_of_key : PublicKeyType -> bool -> Z -> Address;
  recover_key : SignatureType -> DigestType -> bool -> result PublicKeyType;
  condition_address : WithdrawCondition -> BalanceIdType;
  slate_hash : gset AccountIdType -> SlateIdType;
  trx_digest : SignedTransaction -> DigestType -> DigestType;
  trx_id : SignedTransaction -> TransactionIdType;
  trx_data_size : SignedTransaction -> Z;
  operation_hash : Operation -> Z;
  register_contract_hash : RegisterContractOperation -> ContractIdType;
  code_sha1 : list Z -> string;
  uint128_div_zero : Z -> result Z;
  get_chain_id : DigestType;
  get_statistics_enabled : bool
}.

Inductive EntryKind :=
  | KProperty | KAccount | KAsset | KSlate | KBalance | KTransaction | KSlot
  | KContract | KStorage | KResult | KRequest | KContractinTrx | KContractTrx.

#[export] Instance entry_kind_eq_dec : EqDecision EntryKind.
Proof. solve_decision. Defined.

Definition key_type (k : EntryKind) : Type :=
  match k with
  | KProperty => PropertyIdType
  | KSlot => SlotIndex
  | KAccount | KAsset | KSlate | KBalance | KTransaction | KContract | KStorage
  | KResult | KRequest | KContractinTrx | KContractTrx => Z
  end.

Definition val_type (k : EntryKind) : Type :=
  match k with
  | KProperty => PropertyEntry
  | KAccount => AccountEntry
  | KAsset => AssetEntry
  | KSlate => SlateEntry
  | KBalance => BalanceEntry
  | KTransaction => TransactionEntry
  | KSlot => SlotEntry
  | KContract => ContractEntry
  | KStorage => ContractStorageEntry
  | KResult => ResultTIdEntry
  | KRequest => RequestIdEntry
  | KContractinTrx => ContractinTrxEntry
  | KContractTrx => ContractTrxEntry
  end.

#[export] Instance key_type_eq_dec k : EqDecision (key_type k).
Proof. destruct k; apply _. Defined.
#[export] Instance key_type_countable k : Countable (key_type k).
Proof. destruct k; apply _. Defined.

Inductive IndexWrite :=
  | InsertName (name : string) (id : AccountIdType)
  | EraseName (name : string)
  | InsertAddress (addr : Address) (id : AccountIdType)
  | EraseAddress (addr : Address)
  | InsertVote (v : VoteDel)
  | EraseVote (v : VoteDel)
  | InsertSymbol (symbol : string) (id : AssetIdType)
  | EraseSymbol (symbol : string)
  | InsertUnique (trx : SignedTransaction)
  | EraseUnique (trx : SignedTransaction)
  | InsertTimestamp (t : time_point_sec) (delegate_id : AccountIdType)
  | EraseTimestamp (t : time_point_sec)
  | InsertContractName (name : string) (id : ContractIdType)
  | EraseContractName (name : string).

(** The virtual members of ChainInterface and of the ...DbInterface classes.
    A lookup through [unordered_map::at] may throw. *)
Class ChainInterface (S : Type) : Type := {
  db_lookup : forall k, S -> key_type k -> option (val_type k);
  db_insert : forall k, key_type k -> val_type k -> S -> S;
  db_erase : forall k, key_type k -> S -> S;
  db_index : IndexWrite -> S -> S;
  account_lookup_by_name : S -> string -> result (option AccountEntry);
  account_lookup_by_address : S -> Address -> result (option AccountEntry);
  asset_lookup_by_symbol : S -> string -> result (option AssetEntry);
  slot_lookup_by_timestamp : S -> time_point_sec -> result (option SlotEntry);
  contract_lookup_by_name : S -> string -> result (option ContractEntry);
  is_known_transaction : S -> SignedTransaction -> bool;
  get_head_block_num : S -> Z;
  get_head_block_timestamp : S -> time_point_sec;
  now : S -> time_point_sec
}.

(** What the primary maps of an implementation promise, for the kinds it keeps
    independent of one another: a lookup sees the last write to its key, and
    no write to another key, kind or index.  PendingChainState does not keep
    KStorage so: erasing a contract hides its storage. *)
Class ChainInterfaceLaws (S : Type) `{ChainInterface S} : Type := {
  lawful_kind : EntryKind -> bool;
  db_insert_eq k key v s : lawful_kind k = true ->
    db_lookup k (db_insert k key v s) key = Some v;
  db_insert_ne k key key' v s : lawful_kind k = true -> key <> key' ->
    db_lookup k (db_insert k key v s) key' = db_lookup k s key';
  db_insert_kind k k' key key' v s : lawful_kind k' = true -> k <> k' ->
    db_lookup k' (db_insert k key v s) key' = db_lookup k' s key';
  db_erase_eq k key s : lawful_kind k = true ->
    db_lookup k (db_erase k key s) key = None;
  db_erase_ne k key key' s : lawful_kind k = true -> key <> key' ->
    db_lookup k (db_erase k key s) key' = db_lookup k s key';
  db_erase_kind k k' key key' s : lawful_kind k' = true -> k <> k' ->
    db_lookup k' (db_erase k key s) key' = db_lookup k' s key';
  db_index_frame k key w s : lawful_kind k = true ->
    db_lookup k (db_index w s) key = db_lookup k s key
}.

(** ** The entry types *)

Definition when {S} (b : bool) (m : M S unit) : M S unit := if b then m else ret tt.

(** The value at the greatest key: [rbegin()->second]. *)
Definition map_last {A} (m : gmap Z A) : option (Z * A) :=
  map_fold (fun k v acc =>
    match acc with
    | Some (k', v') => if k' <? k then Some (k, v) else acc
    | None => Some (k, v)
    end) None m.
Definition map_values {A} (m : gmap Z A) : list A := map snd (map_to_list m).

Section AccountEntryMethods.

Definition is_delegate (a : AccountEntry) : bool := is_some (delegate_info a).

Definition delegate_pay_balance (a : AccountEntry) : result Z :=
  match delegate_info a with Some d => Ok (pay_balance d) | None => Err assert_exception end.

Definition net_votes (a : AccountEntry) : result Z :=
  match delegate_info a with Some d => Ok (votes_for d) | None => Err assert_exception end.

Definition set_delegate_info (d : option DelegateStats) (a : AccountEntry) : AccountEntry :=
  mkAccountEntry (account_id a) (account_name a) (account_public_data a) (owner_key a)
    (active_key_history a) (account_registration_date a) (account_last_update a) d (meta_data a).

Definition set_votes_for (v : Z) (d : DelegateStats) : DelegateStats :=
  mkDelegateStats v (pay_rate d) (signing_key_history d) (last_block_num_produced d)
    (next_secret_hash d) (pay_balance d) (total_paid d) (total_burned d) (blocks_produced d)
    (blocks_missed d).

Definition adjust_votes_for (delta : Z) (a : AccountEntry) : result AccountEntry :=
  match delegate_info a with
  | Some d => Ok (set_delegate_info (Some (set_votes_for (wrap_i64 (votes_for d + delta)) d)) a)
  | None => Err assert_exception
  end.

Definition active_key (a : AccountEntry) : result PublicKeyType :=
  match map_last (active_key_history a) with
  | Some (_, k) => Ok k
  | None => Err assert_exception
  end.

Definition is_retracted (a : AccountEntry) : result bool :=
  let! k := active_key a in Ok (k =? 0).

Definition set_active_key (now : time_point_sec) (new_key : PublicKeyType)
    (a : AccountEntry) : result AccountEntry :=
  if now =? 0 then Err assert_exception
  else Ok (mkAccountEntry (account_id a) (account_name a) (account_public_data a) (owner_key a)
             (<[now := new_key]> (active_key_history a)) (account_registration_date a)
             (account_last_update a) (delegate_info a) (meta_data a)).

Definition delegate_pay_rate (a : AccountEntry) : Z :=
  match delegate_info a with Some d => pay_rate d | None => 255 end.

Definition set_signing_key (block_num : Z) (k : PublicKeyType) (a : AccountEntry)
    : result AccountEntry :=
  match delegate_info a with
  | Some d =>
      Ok (set_delegate_info
            (Some (mkDelegateStats (votes_for d) (pay_rate d)
               (<[block_num := k]> (signing_key_history d)) (last_block_num_produced d)
               (next_secret_hash d) (pay_balance d) (total_paid d) (total_burned d)
               (blocks_produced d) (blocks_missed d))) a)
  | None => Err assert_exception
  end.

Definition signing_key (a : AccountEntry) : result PublicKeyType :=
  match delegate_info a with
  | Some d => match map_last (signing_key_history d) with
              | Some (_, k) => Ok k
              | None => Err assert_exception
              end
  | None => Err assert_exception
  end.

Context `{ChainParams}.

Definition owner_address (a : AccountEntry) : Address := address_of_key (owner_key a).
Definition active_address (a : AccountEntry) : result Address :=
  let! k := active_key a in Ok (address_of_key k).
Definition signing_address (a : AccountEntry) : result Address :=
  let! k := signing_key a in Ok (address_of_key k).
Definition balance_id (b : BalanceEntry) : BalanceIdType := condition_address (condition b).
Definition slate_id (s : SlateEntry) : SlateIdType :=
  if bool_decide (slate s = ∅) then 0 else slate_hash (slate s).

End AccountEntryMethods.

Section Entries.
Context `{ChainParams} {S : Type} `{ChainInterface S}.

Definition index (w : IndexWrite) : M S unit := modify (db_index w).
Definition insert_id (k : EntryKind) (key : key_type k) (v : val_type k) : M S unit :=
  modify (db_insert k key v).
Definition erase_id (k : EntryKind) (key : key_type k) : M S unit :=
  modify (db_erase k key).

(** PropertyEntry, SlateEntry, BalanceEntry, ContractStorageEntry *)
Definition plain_store (k : EntryKind) (key : key_type k) (v : val_type k) : M S unit :=
  insert_id k key v.
Definition plain_remove (k : EntryKind) (key : key_type k) : M S unit :=
  prev_entry <- gets (fun db => db_lookup k db key) ;;
  when (is_some prev_entry) (erase_id k key).

(** The four transaction/contract id maps erase without looking. *)
Definition blind_remove (k : EntryKind) (key : key_type k) : M S unit := erase_id k key.

Definition account_entry_store (id : AccountIdType) (entry : AccountEntry) : M S unit :=
  prev_entry <- gets (fun db => db_lookup KAccount db id) ;;
  match prev_entry with
  | None => ret tt
  | Some prev =>
      when (negb (String.eqb (account_name prev) (account_name entry)))
        (index (EraseName (account_name prev))) ;;;
      when (negb (owner_address prev =? owner_address entry))
        (index (EraseAddress (owner_address prev))) ;;;
      prev_key <- lift_result (active_key prev) ;;
      new_key <- lift_result (active_key entry) ;;
      when (negb (prev_key =? new_key))
        (forM (map_values (active_key_history prev))
           (fun k => index (EraseAddress (address_of_key k)))) ;;;
      match delegate_info prev with
      | None => ret tt
      | Some pd =>
          erase_signing <-
            (if negb (is_delegate entry) then ret true
             else ps <- lift_result (signing_key prev) ;;
                  es <- lift_result (signing_key entry) ;;
                  ret (negb (ps =? es))) ;;
          when erase_signing
            (forM (map_values (signing_key_history pd))
               (fun k => index (EraseAddress (address_of_key k)))) ;;;
          prev_retracted <- lift_result (is_retracted prev) ;;
          when (negb prev_retracted)
            (entry_retracted <- lift_result (is_retracted entry) ;;
             erase_vote <-
               (if entry_retracted || negb (is_delegate entry) then ret true
                else ev <- lift_result (net_votes entry) ;; ret (negb (votes_for pd =? ev))) ;;
             when erase_vote (index (EraseVote (mkVoteDel (votes_for pd) (account_id prev)))))
      end
  end ;;;
  insert_id KAccount id entry ;;;
  index (InsertName (account_name entry) id) ;;;
  index (InsertAddress (owner_address entry) id) ;;;
  forM (map_values (active_key_history entry))
    (fun k => when (negb (k =? 0)) (index (InsertAddress (address_of_key k) id))) ;;;
  match delegate_info entry with
  | None => ret tt
  | Some d =>
      forM (map_values (signing_key_history d))
        (fun k => when (negb (k =? 0)) (index (InsertAddress (address_of_key k) id))) ;;;
      retracted <- lift_result (is_retracted entry) ;;
      when (negb retracted) (index (InsertVote (mkVoteDel (votes_for d) id)))
  end.

Definition account_entry_remove (id : AccountIdType) : M S unit :=
  prev_entry <- gets (fun db => db_lookup KAccount db id) ;;
  match prev_entry with
  | None => ret tt
  | Some prev =>
      erase_id KAccount id ;;;
      index (EraseName (account_name prev)) ;;;
      index (EraseAddress (owner_address prev)) ;;;
      forM (map_values (active_key_history prev))
        (fun k => index (EraseAddress (address_of_key k))) ;;;
      match delegate_info prev with
      | None => ret tt
      | Some pd =>
          forM (map_values (signing_key_history pd))
            (fun k => index (EraseAddress (address_of_key k))) ;;;
          retracted <- lift_result (is_retracted prev) ;;
          when (negb retracted)
            (index (EraseVote (mkVoteDel (votes_for pd) (account_id prev))))
      end
  end.

Definition asset_entry_store (id : AssetIdType) (entry : AssetEntry) : M S unit :=
  prev_entry <- gets (fun db => db_lookup KAsset db id) ;;
  match prev_entry with
  | Some prev => when (negb (String.eqb (ast_symbol prev) (ast_symbol entry)))
                   (index (EraseSymbol (ast_symbol prev)))
  | None => ret tt
  end ;;;
  insert_id KAsset id entry ;;;
  index (InsertSymbol (ast_symbol entry) id).

Definition asset_entry_remove (id : AssetIdType) : M S unit :=
  prev_entry <- gets (fun db => db_lookup KAsset db id) ;;
  match prev_entry with
  | Some prev => erase_id KAsset id ;;; index (EraseSymbol (ast_symbol prev))
  | None => ret tt
  end.

Definition transaction_entry_store (id : TransactionIdType) (entry : TransactionEntry)
    : M S unit :=
  insert_id KTransaction id entry ;;;
  index (InsertUnique (entry_trx entry)).

Definition transaction_entry_remove (id : TransactionIdType) : M S unit :=
  prev_entry <- gets (fun db => db_lookup KTransaction db id) ;;
  match prev_entry with
  | Some prev => erase_id KTransaction id ;;; index (EraseUnique (entry_trx prev))
  | None => ret tt
  end.

Definition slot_entry_lookup_timestamp (db : S) (t : time_point_sec)
    : result (option SlotEntry) :=
  if negb get_statistics_enabled then Ok None else slot_lookup_by_timestamp db t.

Definition slot_entry_store (i : SlotIndex) (entry : SlotEntry) : M S unit :=
  if negb get_statistics_enabled then ret tt
  else
    prev_entry <- gets (fun db => db_lookup KSlot db i) ;;
    match prev_entry with
    | Some prev =>
        when (negb (slot_timestamp (slot_index prev) =? slot_timestamp i))
          (index (EraseTimestamp (slot_timestamp (slot_index prev))))
    | None => ret tt
    end ;;;
    insert_id KSlot i entry ;;;
    index (InsertTimestamp (slot_timestamp i) (slot_delegate_id i)).

Definition slot_entry_remove (i : SlotIndex) : M S unit :=
  if negb get_statistics_enabled then ret tt
  else
    prev_entry <- gets (fun db => db_lookup KSlot db i) ;;
    match prev_entry with
    | Some prev => erase_id KSlot i ;;;
                   index (EraseTimestamp (slot_timestamp (slot_index prev)))
    | None => ret tt
    end.

Definition contract_entry_store (id : ContractIdType) (contract : ContractEntry) : M S unit :=
  insert_id KContract id contract ;;;
  when (is_valid_contract_name (contract_name contract))
    (index (InsertContractName (contract_name contract) id)).

(** The name stays in the name map: its erasure is commented out. *)
Definition contract_entry_remove (id : ContractIdType) : M S unit :=
  info <- gets (fun db => db_lookup KContract db id) ;;
  when (is_some info) (erase_id KContract id).

(** ChainInterface::lookup, store and remove: T::lookup, T::store, T::remove. *)
Definition entry_lookup (k : EntryKind) (db : S) (key : key_type k) : option (val_type k) :=
  db_lookup k db key.

Definition entry_store (k : EntryKind) : key_type k -> val_type k -> M S unit :=
  match k with
  | KAccount => account_entry_store
  | KAsset => asset_entry_store
  | KTransaction => transaction_entry_store
  | KSlot => slot_entry_store
  | KContract => contract_entry_store
  | KProperty => plain_store KProperty
  | KSlate => plain_store KSlate
  | KBalance => plain_store KBalance
  | KStorage => plain_store KStorage
  | KResult => plain_store KResult
  | KRequest => plain_store KRequest
  | KContractinTrx => plain_store KContractinTrx
  | KContractTrx => plain_store KContractTrx
  end.

Definition entry_remove (k : EntryKind) : key_type k -> M S unit :=
  match k with
  | KAccount => account_entry_remove
  | KAsset => asset_entry_remove
  | KTransaction => transaction_entry_remove
  | KSlot => slot_entry_remove
  | KContract => contract_entry_remove
  | KProperty => plain_remove KProperty
  | KSlate => plain_remove KSlate
  | KBalance => plain_remove KBalance
  | KStorage => plain_remove KStorage
  | KResult => blind_remove KResult
  | KRequest => blind_remove KRequest
  | KContractinTrx => blind_remove KContractinTrx
  | KContractTrx => blind_remove KContractTrx
  end.

End Entries.

(** ** What a store and a remove do to the primary maps *)

(** A program that leads, thrown or not, from a state to an [R]-related one. *)
Definition along {S} (R : S -> S -> Prop) {A} (m : M S A) : Prop :=
  forall s r s', m s = (r, s') -> R s s'.

Section Along.
Context {S : Type} (R : S -> S -> Prop) (HR : PreOrder R).

Lemma along_ret {A} (a : A) : along R (ret a).
Proof. intros s r s' [= _ <-]. reflexivity. Qed.
Lemma along_throw {A} e : along R (throw (A := A) e).
Proof. intros s r s' [= _ <-]. reflexivity. Qed.
Lemma along_gets {A} (f : S -> A) : along R (gets f).
Proof. intros s r s' [= _ <-]. reflexivity. Qed.
Lemma along_lift {A} (r : result A) : along R (lift_result r).
Proof. intros s r' s' [= _ <-]. reflexivity. Qed.
Lemma along_modify (f : S -> S) : (forall s, R s (f s)) -> along R (modify f).
Proof. intros Hf s r s' [= _ <-]. apply Hf. Qed.
Lemma along_bind {A B} (m : M S A) (k : A -> M S B) :
  along R m -> (forall a, along R (k a)) -> along R (bind m k).
Proof.
  intros Hm Hk s r s'. unfold bind. destruct (m s) as [[a | e] s1] eqn:E.
  - intros Hr. etransitivity; [eapply Hm, E | eapply Hk, Hr].
  - intros [= _ <-]. eapply Hm, E.
Qed.
Lemma along_when b m : along R m -> along R (when b m).
Proof. destruct b; [easy | intros; apply along_ret]. Qed.
Lemma along_forM {A} (l : list A) body : (forall a, along R (body a)) -> along R (forM l body).
Proof. intros Hb. induction l; cbn [for_each]; [apply along_ret | now apply along_bind]. Qed.
Lemma along_if {A} (b : bool) (m1 m2 : M S A) :
  along R m1 -> along R m2 -> along R (if b then m1 else m2).
Proof. now destruct b. Qed.
End Along.

Create HintDb keeping.
#[export] Hint Resolve along_ret along_throw along_gets along_lift
  along_bind along_when along_forM along_if : keeping.
#[export] Hint Extern 4 (along _ (match ?x with _ => _ end)) => destruct x : keeping.

Section EntryLemmas.
Context `{ChainParams} {S : Type} `{ChainInterfaceLaws S}.

(** No primary entry changes. *)
Definition keeps (s s' : S) : Prop :=
  forall k key, lawful_kind k = true -> db_lookup k s' key = db_lookup k s key.

(** One primary entry becomes [o], nothing else changes. *)
Record wrote (k : EntryKind) (key : key_type k) (o : option (val_type k)) (s s' : S) : Prop := {
  wrote_same : lawful_kind k = true -> db_lookup k s' key = o;
  wrote_key : forall key', lawful_kind k = true -> key' <> key ->
    db_lookup k s' key' = db_lookup k s key';
  wrote_kind : forall k' key', lawful_kind k' = true -> k' <> k ->
    db_lookup k' s' key' = db_lookup k' s key'
}.

#[export] Instance keeps_preorder : PreOrder keeps.
Proof.
  split; [easy |]. intros a b c Hab Hbc k key Hk. now rewrite (Hbc k), (Hab k).
Qed.

Lemma keeps_index w s : keeps s (db_index w s).
Proof. intros k key Hk. now apply db_index_frame. Qed.

Lemma wrote_insert k key v s : wrote k key (Some v) s (db_insert k key v s).
Proof.
  split; intros.
  - now apply db_insert_eq.
  - apply db_insert_ne; congruence.
  - apply db_insert_kind; congruence.
Qed.

Lemma wrote_erase k key s : wrote k key None s (db_erase k key s).
Proof.
  split; intros.
  - now apply db_erase_eq.
  - apply db_erase_ne; congruence.
  - apply db_erase_kind; congruence.
Qed.

Lemma wrote_keeps k key o s s' s'' : wrote k key o s s' -> keeps s' s'' -> wrote k key o s s''.
Proof.
  intros [Ha Hb Hc] Hk. split; intros; rewrite (Hk _ _ ltac:(eassumption)); auto.
Qed.

Lemma keeps_wrote k key o s s' s'' : keeps s s' -> wrote k key o s' s'' -> wrote k key o s s''.
Proof.
  intros Hk [Ha Hb Hc]. split; intros; [auto | |].
  - rewrite Hb by assumption. now apply Hk.
  - rewrite Hc by assumption. now apply Hk.
Qed.

Lemma wrote_absent k key s : db_lookup k s key = None -> wrote k key None s s.
Proof. split; auto. Qed.

(** Programs that only touch indexes, whether they throw or not. *)
Definition keeping {A} (m : M S A) : Prop := along keeps m.
Definition writing {A} k key o (m : M S A) : Prop :=
  forall s a s', m s = (Ok a, s') -> wrote k key o s s'.

Lemma keeping_index w : keeping (index w).
Proof. intros s r s' [= _ <-]. apply keeps_index. Qed.

Lemma writing_insert k key v : writing k key (Some v) (insert_id k key v).
Proof. intros s a s' [= _ <-]. apply wrote_insert. Qed.
Lemma writing_erase k key : writing k key None (erase_id k key).
Proof. intros s a s' [= _ <-]. apply wrote_erase. Qed.
Lemma writing_then {A B} k key o (m : M S A) (f : A -> M S B) :
  writing k key o m -> (forall a, keeping (f a)) -> writing k key o (bind m f).
Proof.
  intros Hm Hf s b s' R. apply bind_Ok in R as (a & s1 & R1 & R2).
  eapply wrote_keeps; [eapply Hm, R1 | eapply Hf, R2].
Qed.
Lemma writing_after {A B} k key o (m : M S A) (f : A -> M S B) :
  keeping m -> (forall a, writing k key o (f a)) -> writing k key o (bind m f).
Proof.
  intros Hm Hf s b s' R. apply bind_Ok in R as (a & s1 & R1 & R2).
  eapply keeps_wrote; [eapply Hm, R1 | eapply Hf, R2].
Qed.
End EntryLemmas.

#[export] Hint Resolve keeping_index keeps_preorder : keeping.
#[export] Hint Extern 4 (keeping (match ?x with _ => _ end)) => destruct x : keeping.
#[export] Hint Extern 5 (keeping _) => unfold keeping : keeping.
#[export] Hint Extern 3 (along keeps (index _)) => apply keeping_index : keeping.

(** Stores and removes follow any preorder the primitive writes follow. *)
Section EntryAlong.
Context `{ChainParams} {S : Type} `{ChainInterface S} (R : S -> S -> Prop) (HR : PreOrder R).
Context (along_insert : forall k key v s, R s (db_insert k key v s))
        (along_erase : forall k key s, R s (db_erase k key s))
        (along_index : forall w s, R s (db_index w s)).

Lemma insert_id_along k key v : along R (insert_id k key v).
Proof. now apply along_modify. Qed.
Lemma erase_id_along k key : along R (erase_id k key).
Proof. now apply along_modify. Qed.
Lemma index_along w : along R (index w).
Proof. now apply along_modify. Qed.
#[local] Hint Resolve insert_id_along erase_id_along index_along : keeping.

Lemma entry_store_along k key v : along R (entry_store k key v).
Proof.
  destruct k; cbn [entry_store];
    unfold account_entry_store, asset_entry_store, transaction_entry_store, slot_entry_store,
      contract_entry_store, plain_store; auto 40 with keeping.
Qed.

Lemma entry_remove_along k key : along R (entry_remove k key).
Proof.
  destruct k; cbn [entry_remove];
    unfold account_entry_remove, asset_entry_remove, transaction_entry_remove,
      slot_entry_remove, contract_entry_remove, plain_remove, blind_remove;
    auto 40 with keeping.
Qed.
End EntryAlong.

Section EntrySpecs.
Context `{ChainParams} {S : Type} `{ChainInterfaceLaws S}.

(** Slots are kept only with statistics enabled. *)
Definition stored_kind (k : EntryKind) : bool :=
  match k with KSlot => get_statistics_enabled | _ => true end.

Lemma entry_store_writing k key v :
  stored_kind k = true -> writing (S := S) k key (Some v) (entry_store k key v).
Proof.
  intros Hk. destruct k; cbn [entry_store];
    try apply writing_insert.
  - unfold account_entry_store.
    apply writing_after; [auto with keeping | intros prev].
    apply writing_after; [destruct prev; auto 20 with keeping | intros _].
    apply writing_then; [apply writing_insert | auto 20 with keeping].
  - unfold asset_entry_store.
    apply writing_after; [auto with keeping | intros prev].
    apply writing_after; [destruct prev; auto 20 with keeping | intros _].
    apply writing_then; [apply writing_insert | auto 20 with keeping].
  - apply writing_then; [apply writing_insert | auto 20 with keeping].
  - unfold slot_entry_store. cbn in Hk. rewrite Hk.
    apply writing_after; [auto with keeping | intros prev].
    apply writing_after; [destruct prev; auto 20 with keeping | intros _].
    apply writing_then; [apply writing_insert | auto 20 with keeping].
  - apply writing_then; [apply writing_insert | auto 20 with keeping].
Qed.

(** [lookup; if valid then erase; ...] *)
Lemma looked_up_writing k key (f : option (val_type k) -> M S unit) :
  (forall v, writing k key None (f (Some v))) -> f None = ret tt ->
  writing k key None (bind (gets (fun db => db_lookup k db key)) f).
Proof.
  intros Hs Hn s a s' R. apply bind_Ok in R as (o & s1 & R1 & R2).
  apply gets_Ok in R1 as [<- <-]. destruct (db_lookup k s key) eqn:E.
  - eapply Hs, R2.
  - rewrite Hn in R2. apply ret_Ok in R2 as [_ <-]. now apply wrote_absent.
Qed.

Lemma entry_remove_writing k key :
  stored_kind k = true -> writing (S := S) k key None (entry_remove k key).
Proof.
  intros Hk. destruct k; cbn [entry_remove]; try apply writing_erase;
    try (apply looked_up_writing; [intros v; apply writing_erase | reflexivity]).
  - apply looked_up_writing; [intros v | reflexivity].
    apply writing_then; [apply writing_erase | auto 20 with keeping].
  - apply looked_up_writing; [intros v | reflexivity].
    apply writing_then; [apply writing_erase | auto 20 with keeping].
  - apply looked_up_writing; [intros v | reflexivity].
    apply writing_then; [apply writing_erase | auto 20 with keeping].
  - unfold slot_entry_remove. cbn in Hk. rewrite Hk.
    apply looked_up_writing; [intros v | reflexivity].
    apply writing_then; [apply writing_erase | auto 20 with keeping].
Qed.
End EntrySpecs.

(** ** When a store succeeds *)

Definition account_wf (a : AccountEntry) : Prop :=
  active_key_history a <> ∅ /\
  forall d, delegate_info a = Some d -> signing_key_history d <> ∅.

Definition entry_wf (k : EntryKind) : val_type k -> Prop :=
  match k with KAccount => account_wf | _ => fun _ => True end.

Definition total {S A} (m : M S A) : Prop := forall s, exists a s', m s = (Ok a, s').

Lemma total_bind {S A B} (m : M S A) (k : A -> M S B) :
  total m -> (forall a, total (k a)) -> total (bind m k).
Proof.
  intros Hm Hk s. destruct (Hm s) as (a & s1 & E). destruct (Hk a s1) as (b & s2 & E2).
  exists b, s2. now rewrite (bind_run_Ok _ _ _ _ _ E).
Qed.
Lemma total_ret {S A} (a : A) : total (ret (S := S) a).
Proof. intros s. eexists _, _. reflexivity. Qed.
Lemma total_lift {S A} (a : A) r : r = Ok a -> total (lift_result (S := S) r).
Proof. intros -> s. eexists _, _. reflexivity. Qed.
Lemma total_modify {S} (f : S -> S) : total (modify f).
Proof. intros s. eexists _, _. reflexivity. Qed.
Lemma total_when {S} b (m : M S unit) : total m -> total (when b m).
Proof. destruct b; [easy | intros; apply total_ret]. Qed.
Lemma total_forM {S A} (l : list A) (body : A -> M S unit) :
  (forall a, total (body a)) -> total (forM l body).
Proof. intros. induction l; cbn [for_each]; [apply total_ret | now apply total_bind]. Qed.
Lemma total_if {S A} (b : bool) (m1 m2 : M S A) :
  total m1 -> total m2 -> total (if b then m1 else m2).
Proof. now destruct b. Qed.
Lemma total_or_true {S A} b (m1 m2 : M S A) : total m1 -> total (if b || true then m1 else m2).
Proof. now rewrite orb_true_r. Qed.

Create HintDb total.
#[export] Hint Resolve total_bind total_ret total_modify total_when total_forM total_if total_or_true : total.
#[export] Hint Extern 2 (total (lift_result ?r)) => eapply total_lift; eassumption : total.
#[export] Hint Extern 2 (total (index ?w)) => apply total_modify : total.
#[export] Hint Extern 2 (total (insert_id _ _ _)) => apply total_modify : total.
#[export] Hint Extern 2 (total (erase_id _ _)) => apply total_modify : total.

Lemma map_last_nonempty {A} (m : gmap Z A) : m <> ∅ -> exists kv, map_last m = Some kv.
Proof.
  unfold map_last. apply (map_fold_weak_ind
    (fun r (m : gmap Z A) => m <> ∅ -> exists kv, r = Some kv)); [easy |].
  intros i x m0 r _ IH _. destruct r as [[k' v'] |]; [| eauto].
  destruct (k' <? i); eauto.
Qed.

Lemma active_key_ok a : account_wf a -> exists k, active_key a = Ok k.
Proof.
  intros [Ha _]. destruct (map_last_nonempty _ Ha) as [[t k] E].
  exists k. unfold active_key. now rewrite E.
Qed.

Lemma is_retracted_ok a : account_wf a -> exists b, is_retracted a = Ok b.
Proof. intros [k E]%active_key_ok. unfold is_retracted. rewrite E. cbn. eauto. Qed.

Lemma signing_key_ok a : account_wf a -> is_delegate a = true ->
  exists k, signing_key a = Ok k.
Proof.
  unfold is_delegate, signing_key. intros [_ Hs]. destruct (delegate_info a) as [d |]; [| easy].
  intros _. destruct (map_last_nonempty _ (Hs d eq_refl)) as [[t k] ->]. eauto.
Qed.

Lemma net_votes_ok a : is_delegate a = true -> exists v, net_votes a = Ok v.
Proof. unfold is_delegate, net_votes. destruct (delegate_info a); [eauto | easy]. Qed.

Section Totality.
Context `{ChainParams} {S : Type} `{ChainInterface S}.

Lemma account_prev_total prev entry : account_wf prev -> account_wf entry ->
  total (S := S)
   (match delegate_info prev with
    | None => ret tt
    | Some pd =>
        erase_signing <-
          (if negb (is_delegate entry) then ret true
           else ps <- lift_result (signing_key prev) ;;
                es <- lift_result (signing_key entry) ;;
                ret (negb (ps =? es))) ;;
        when erase_signing
          (forM (map_values (signing_key_history pd))
             (fun k => index (EraseAddress (address_of_key k)))) ;;;
        prev_retracted <- lift_result (is_retracted prev) ;;
        when (negb prev_retracted)
          (entry_retracted <- lift_result (is_retracted entry) ;;
           erase_vote <-
             (if entry_retracted || negb (is_delegate entry) then ret true
              else ev <- lift_result (net_votes entry) ;; ret (negb (votes_for pd =? ev))) ;;
           when erase_vote (index (EraseVote (mkVoteDel (votes_for pd) (account_id prev)))))
    end).
Proof.
  intros Hp He. destruct (delegate_info prev) as [pd |] eqn:Ed; [| auto with total].
  assert (is_delegate prev = true) as Hd by (unfold is_delegate; now rewrite Ed).
  destruct (signing_key_ok _ Hp Hd) as [ps Eps].
  destruct (is_retracted_ok _ Hp) as [pr Epr]. destruct (is_retracted_ok _ He) as [er Eer].
  destruct (is_delegate entry) eqn:Ede; cbn [negb].
  - destruct (signing_key_ok _ He Ede) as [es Ees]. destruct (net_votes_ok _ Ede) as [ev Eev].
    auto 40 with total.
  - auto 40 with total.
Qed.

Lemma account_entry_store_total id entry (s : S) : account_wf entry ->
  (forall prev, db_lookup KAccount s id = Some prev -> account_wf prev) ->
  exists s', account_entry_store id entry s = (Ok tt, s').
Proof.
  intros He Hp. unfold account_entry_store, bind at 1, gets.
  destruct (active_key_ok _ He) as [ek Eek]. destruct (is_retracted_ok _ He) as [er Eer].
  assert (forall m, total m -> exists s', m s = (Ok tt, s')) as Hrun.
  { intros m Hm. destruct (Hm s) as ([] & s' & E). eauto. }
  apply Hrun. apply total_bind.
  - destruct (db_lookup KAccount s id) as [prev |] eqn:E; [| auto with total].
    specialize (Hp prev eq_refl). destruct (active_key_ok _ Hp) as [pk Epk].
    pose proof (account_prev_total prev entry Hp He). auto 40 with total.
  - intros _. do 4 (apply total_bind; [auto 40 with total | intros _]).
    destruct (delegate_info entry); auto 40 with total.
Qed.

Lemma entry_store_total k key v (s : S) : entry_wf k v ->
  (forall prev, db_lookup k s key = Some prev -> entry_wf k prev) ->
  exists s', entry_store k key v s = (Ok tt, s').
Proof.
  intros Hv Hp.
  assert (forall m, total m -> exists s', m s = (Ok tt, s')) as Hrun.
  { intros m Hm. destruct (Hm s) as ([] & s' & E). eauto. }
  destruct k; cbn [entry_store]; [| now apply account_entry_store_total | ..]; apply Hrun;
    try apply total_modify.
  - apply total_bind; [intros s'; eexists _, _; reflexivity | intros []]; auto 40 with total.
  - unfold slot_entry_store. destruct get_statistics_enabled; cbn [negb]; [| auto with total].
    apply total_bind; [intros s'; eexists _, _; reflexivity | intros []]; auto 40 with total.
  - apply total_bind; auto with total.
Qed.

Lemma entry_remove_total k key (s : S) :
  (forall prev, db_lookup k s key = Some prev -> entry_wf k prev) ->
  exists s', entry_remove k key s = (Ok tt, s').
Proof.
  intros Hp.
  assert (forall m, total m -> exists s', m s = (Ok tt, s')) as Hrun.
  { intros m Hm. destruct (Hm s) as ([] & s' & E). eauto. }
  assert (forall (A : Type) (f : S -> A), total (gets f)) as Hg.
  { intros A f s'. eexists _, _. reflexivity. }
  destruct k; cbn [entry_remove].
  2: { unfold account_entry_remove, bind at 1, gets.
       destruct (db_lookup KAccount s key) as [prev |]; [| now apply Hrun; auto with total].
       specialize (Hp prev eq_refl). destruct (is_retracted_ok _ Hp) as [pr Epr].
       apply Hrun. repeat (apply total_bind; [auto 40 with total | intros _]).
       destruct (delegate_info prev); auto 40 with total. }
  all: apply Hrun; try apply total_modify.
  all: try (apply total_bind; [apply Hg | intros []]; auto 40 with total).
  unfold slot_entry_remove. destruct get_statistics_enabled; cbn [negb]; [| auto with total].
  apply total_bind; [apply Hg | intros []]; auto 40 with total.
Qed.
End Totality.
