(* ===== verification/ChainState.v ===== *)
(** * The non-virtual members of ChainInterface (blockchain/ChainInterface.cpp)

    Typed access to the entries and to the chain properties, over any
    implementation of the interface; contract withdrawals; sanity checks. *)

From S2P Require Import Prelude Asset Entries Names ChainInterface.
From Stdlib Require Import ZArith Lia Bool String.
From stdpp Require Import base gmap strings list sorting.

Local Open Scope Z_scope.

Section ChainState.
Context `{ChainParams} {S : Type} `{ChainInterface S}.

(** ** Entries *)

Definition get_property_entry (db : S) (id : PropertyIdType) : option PropertyEntry :=
  entry_lookup KProperty db id.
Definition store_property_entry (id : PropertyIdType) (value : variant) : M S unit :=
  entry_store KProperty id (mkPropertyEntry id value).
Definition get_account_entry (db : S) (id : AccountIdType) : option AccountEntry :=
  entry_lookup KAccount db id.
Definition get_account_entry_by_name (db : S) (name : string) : result (option AccountEntry) :=
  account_lookup_by_name db name.
Definition get_account_entry_by_address (db : S) (addr : Address)
    : result (option AccountEntry) := account_lookup_by_address db addr.
Definition store_account_entry (entry : AccountEntry) : M S unit :=
  entry_store KAccount (account_id entry) entry.
Definition get_asset_entry (db : S) (id : AssetIdType) : option AssetEntry :=
  entry_lookup KAsset db id.
Definition get_asset_entry_by_symbol (db : S) (symbol : string) : result (option AssetEntry) :=
  asset_lookup_by_symbol db symbol.
Definition store_asset_entry (entry : AssetEntry) : M S unit :=
  entry_store KAsset (ast_id entry) entry.
Definition get_slate_entry (db : S) (id : SlateIdType) : option SlateEntry :=
  entry_lookup KSlate db id.
Definition store_slate_entry (entry : SlateEntry) : M S unit :=
  entry_store KSlate (slate_id entry) entry.
Definition get_balance_entry (db : S) (id : BalanceIdType) : option BalanceEntry :=
  entry_lookup KBalance db id.
Definition store_balance_entry (entry : BalanceEntry) : M S unit :=
  entry_store KBalance (balance_id entry) entry.
Definition get_slot_entry (db : S) (index : SlotIndex) : option SlotEntry :=
  entry_lookup KSlot db index.
Definition get_slot_entry_by_timestamp (db : S) (t : time_point_sec)
    : result (option SlotEntry) := slot_entry_lookup_timestamp db t.
Definition store_slot_entry (entry : SlotEntry) : M S unit :=
  entry_store KSlot (slot_index entry) entry.
Definition get_contract_entry (db : S) (id : ContractIdType) : option ContractEntry :=
  entry_lookup KContract db id.
Definition get_contract_entry_by_name (db : S) (name : string) : result (option ContractEntry) :=
  contract_lookup_by_name db name.
Definition remove_contract_entry (id : ContractIdType) : M S unit := entry_remove KContract id.
Definition store_contract_entry (entry : ContractEntry) : M S unit :=
  entry_store KContract (contract_id entry) entry.
Definition get_contractstorage_entry (db : S) (id : ContractIdType)
    : option ContractStorageEntry := entry_lookup KStorage db id.
Definition remove_contractstorage_entry (id : ContractIdType) : M S unit :=
  entry_remove KStorage id.
Definition store_contractstorage_entry (entry : ContractStorageEntry) : M S unit :=
  entry_store KStorage (storage_contract_id entry) entry.
Definition store_transaction (id : TransactionIdType) (rec : TransactionEntry) : M S unit :=
  entry_store KTransaction id rec.
Definition is_valid_symbol (db : S) (symbol : string) : result bool :=
  let! o := get_asset_entry_by_symbol db symbol in Ok (is_some o).

(** ** Chain properties

    A variant of another type than the one asked for does not convert. *)

Definition as_int64 (v : variant) : result Z :=
  match v with VInt64 z => Ok z | _ => Err bad_cast_exception end.
Definition as_ids (v : variant) : result (list Z) :=
  match v with VIds l => Ok l | _ => Err bad_cast_exception end.
Definition as_hash (v : variant) : result Z :=
  match v with VHash h => Ok h | _ => Err bad_cast_exception end.
Definition as_bool (v : variant) : result bool :=
  match v with VBool b => Ok b | _ => Err bad_cast_exception end.

Definition property_or {A} (db : S) (id : PropertyIdType) (as_type : variant -> result A)
    (missing : result A) : result A :=
  match get_property_entry db id with
  | Some entry => as_type (property_value entry)
  | None => missing
  end.

Definition last_asset_id_of (db : S) : result AssetIdType :=
  property_or db last_asset_id as_int64 (Err assert_exception).
Definition new_asset_id : M S AssetIdType :=
  db <- Prelude.get ;;
  last <- lift_result (last_asset_id_of db) ;;
  let next_id := wrap_i32 (last + 1) in
  store_property_entry last_asset_id (VInt64 next_id) ;;; ret next_id.
Definition last_account_id_of (db : S) : result AccountIdType :=
  property_or db last_account_id as_int64 (Err assert_exception).
Definition new_account_id : M S AccountIdType :=
  db <- Prelude.get ;;
  last <- lift_result (last_account_id_of db) ;;
  let next_id := wrap_i32 (last + 1) in
  store_property_entry last_account_id (VInt64 next_id) ;;; ret next_id.
Definition get_active_delegates (db : S) : result (list AccountIdType) :=
  property_or db active_delegate_list_id as_ids (Err assert_exception).
Definition set_active_delegates (active_delegates : list AccountIdType) : M S unit :=
  store_property_entry active_delegate_list_id (VIds active_delegates).
Definition is_active_delegate (db : S) (id : AccountIdType) : result bool :=
  let! l := get_active_delegates db in Ok (bool_decide (id ∈ l)).
Definition set_chain_id (id : DigestType) : M S unit := store_property_entry chain_id (VHash id).
Definition get_current_random_seed (db : S) : result Z :=
  property_or db last_random_seed_id as_hash (Ok 0).
Definition set_statistics_enabled (enabled : bool) : M S unit :=
  store_property_entry statistics_enabled (VBool enabled).
Definition set_node_vm_enabled (enabled : bool) : M S unit :=
  store_property_entry node_vm_enabled (VBool enabled).
Definition get_node_vm_enabled (db : S) : result bool :=
  property_or db node_vm_enabled as_bool (Err assert_exception).
Definition set_required_confirmations (count : Z) : M S unit :=
  store_property_entry confirmation_requirement (VInt64 count).
Definition get_required_confirmations (db : S) : result Z :=
  property_or db confirmation_requirement as_int64 (Ok (ALP_BLOCKCHAIN_NUM_DELEGATES * 3)).
Definition get_genesis_timestamp (db : S) : result time_point_sec :=
  match get_asset_entry db 0 with
  | Some a => Ok (ast_registration_date a)
  | None => Err assert_exception
  end.

(** ** Balances *)

(** BalanceEntry::get_spendable_balance *)
Definition get_spendable_balance (b : BalanceEntry) : Asset :=
  let t := cond_type (condition b) in
  if (t =? withdraw_signature_type) || (t =? withdraw_escrow_type)
     || (t =? withdraw_multisig_type)
  then mkAsset (balance b) (cond_asset_id (condition b))
  else mkAsset 0 0.

Definition is_owner (b : BalanceEntry) (addr : Address) : result bool :=
  let! os := condition_owners (condition b) in Ok (bool_decide (addr ∈ os)).

Definition get_multisig_balance_id (asset_id m : Z) (addrs : list Address) : BalanceIdType :=
  condition_address (mkWithdrawCondition asset_id 0 withdraw_common_type
    (WithdrawWithMultisig m (list_to_set addrs) None)).

(** BalanceEntry::BalanceEntry( condition ) *)
Definition new_balance_entry (c : WithdrawCondition) : BalanceEntry :=
  mkBalanceEntry c 0 None None 0 0 VNull.

Definition get_balanceid (contract_address : Address) (balance_type : Z) : BalanceIdType :=
  condition_address (mkWithdrawCondition 0 0 balance_type
    (WithdrawWithSignature contract_address None)).

(** Transaction::withdraw, withdraw_from_contract, deposit and define_slate *)
Definition set_operations (ops : list Operation) (trx : SignedTransaction) : SignedTransaction :=
  mkSignedTransaction (expiration trx) (reserved trx) (alp_account trx) (alp_inport_asset trx)
    ops (result_trx_type trx) (result_trx_id trx) (signatures trx).
Definition push_operation (op : Operation) (trx : SignedTransaction) : SignedTransaction :=
  set_operations (operations trx ++ [op]) trx.
Definition trx_withdraw (account : BalanceIdType) (amount : ShareType)
    : M SignedTransaction unit :=
  fc_assert (0 <? amount) ;;;
  modify (push_operation (OpWithdraw (mkWithdrawOperation account amount []))).
Definition trx_withdraw_from_contract (account : BalanceIdType) (amount : ShareType)
    (contract : ContractIdType) : M SignedTransaction unit :=
  fc_assert (0 <? amount) ;;;
  modify (push_operation (OpWithdrawContract (mkWithdrawContractOperation account amount contract))).
Definition trx_deposit (addr : Address) (a : Asset) : M SignedTransaction unit :=
  fc_assert (0 <? amount a) ;;;
  modify (push_operation (OpDeposit (mkDepositOperation (amount a)
            (mkWithdrawCondition (asset_id a) 0 withdraw_common_type
               (WithdrawWithSignature addr None))))).
Definition trx_define_slate (slate : gset AccountIdType) : M SignedTransaction unit :=
  modify (fun trx => set_operations (OpDefineSlate (mkDefineSlateOperation
                                          (merge_sort Z.le (elements slate)))
                                       :: operations trx) trx).

(** The first withdrawal of [bid] among the operations: its index and amount. *)
Fixpoint find_withdrawal (bid : BalanceIdType) (ops : list Operation)
    : option (nat * WithdrawContractOperation) :=
  match ops with
  | [] => None
  | OpWithdrawContract o :: ops' =>
      if wdc_balance_id o =? bid then Some (0%nat, o)
      else option_map (fun io => (Datatypes.S (fst io), snd io)) (find_withdrawal bid ops')
  | _ :: ops' => option_map (fun io => (Datatypes.S (fst io), snd io)) (find_withdrawal bid ops')
  end.

(** ChainInterface::withdraw_from_contract: one operation per contract
    balance, its amount grown by each further withdrawal. *)
Definition withdraw_from_contract (db : S) (amount_to_withdraw : Asset)
    (from_contract_address : Address) : M SignedTransaction unit :=
  let bid := get_balanceid from_contract_address withdraw_contract_type in
  balance_entry <- valid_or (get_balance_entry db bid) unknown_balance_entry ;;
  found <- gets (fun trx => find_withdrawal bid (operations trx)) ;;
  let used := match found with Some (_, o) => wdc_amount o | None => 0 end in
  if wrap_i64 (amount amount_to_withdraw + used) <=? amount (get_spendable_balance balance_entry)
  then match found with
       | None => trx_withdraw_from_contract bid (amount amount_to_withdraw) from_contract_address
       | Some (i, o) =>
           let new_op := mkWithdrawContractOperation (wdc_balance_id o)
                           (wrap_i64 (amount amount_to_withdraw + used)) (wdc_contract o) in
           modify (fun trx =>
             set_operations (<[i := OpWithdrawContract new_op]> (operations trx)) trx)
       end
  else throw insufficient_funds.

Definition transfer_asset_from_contract (db : S) (real_amount_to_transfer : ShareType)
    (amount_to_transfer_symbol : string) (from_contract_address to_account_address : Address)
    : M SignedTransaction unit :=
  asset_rec <- lift_result (get_asset_entry_by_symbol db amount_to_transfer_symbol) ;;
  match asset_rec with
  | Some a =>
      throw_if (negb (ast_id a =? 0)) invalid_asset_symbol ;;;
      let asset_to_transfer := mkAsset real_amount_to_transfer (ast_id a) in
      withdraw_from_contract db asset_to_transfer from_contract_address ;;;
      trx_deposit to_account_address asset_to_transfer
  | None => throw invalid_asset_symbol
  end.

Definition transfer_asset_from_contract_to_name (db : S) (real_amount_to_transfer : ShareType)
    (amount_to_transfer_symbol : string) (from_contract_address : Address)
    (to_account_name : string) : M SignedTransaction unit :=
  account_entry <- lift_result (get_account_entry_by_name db to_account_name) ;;
  match account_entry with
  | Some a => transfer_asset_from_contract db real_amount_to_transfer amount_to_transfer_symbol
                from_contract_address (owner_address a)
  | None => throw unknown_account_name
  end.

(** ** Sanity checks *)

Definition is_power_of_ten (n : Z) : bool := n =? 100000.

Definition account_sanity_check (a : AccountEntry) : bool :=
  (0 <? account_id a) && negb (String.eqb (account_name a) "")
  && negb (bool_decide (active_key_history a = ∅))
  && match delegate_info a with
     | None => true
     | Some d => (0 <=? votes_for d) && (pay_rate d <=? 100)
                 && negb (bool_decide (signing_key_history d = ∅)) && (0 <=? pay_balance d)
     end.

Definition asset_sanity_check (db : S) (a : AssetEntry) : bool :=
  (0 <=? ast_id a) && negb (String.eqb (ast_symbol a) "") && negb (String.eqb (ast_name a) "")
  && ((ast_id a =? 0) || (issuer_account_id a =? market_issuer_id)
      || is_some (get_account_entry db (issuer_account_id a)))
  && is_power_of_ten (precision a)
  && ((0 <=? maximum_share_supply a) && (maximum_share_supply a <=? ALP_BLOCKCHAIN_MAX_SHARES))
  && ((0 <=? current_share_supply a) && (current_share_supply a <=? maximum_share_supply a))
  && ((0 <=? collected_fees a) && (collected_fees a <=? current_share_supply a))
  && ((0 <=? ast_transaction_fee a) && (ast_transaction_fee a <=? maximum_share_supply a))
  && (market_fee a <=? ALP_BLOCKCHAIN_MAX_UIA_MARKET_FEE).

Definition balance_sanity_check (db : S) (b : BalanceEntry) : bool :=
  (0 <=? balance b)
  && ((cond_asset_id (condition b) =? 0)
      || is_some (get_asset_entry db (cond_asset_id (condition b))))
  && ((cond_slate_id (condition b) =? 0)
      || is_some (get_slate_entry db (cond_slate_id (condition b))))
  && ((cond_type (condition b) =? withdraw_signature_type)
      || (cond_type (condition b) =? withdraw_multisig_type)
      || (cond_type (condition b) =? withdraw_escrow_type)).

Definition slate_sanity_check (s : SlateEntry) : bool := negb (bool_decide (slate s = ∅)).
Definition slot_sanity_check (db : S) (s : SlotEntry) : bool :=
  is_some (get_account_entry db (slot_delegate_id (slot_index s))).
Definition transaction_sanity_check (e : TransactionEntry) : bool :=
  negb (is_some (reserved (entry_trx e))) && negb (Nat.eqb (List.length (operations (entry_trx e))) 0)
  && negb (Nat.eqb (List.length (signatures (entry_trx e))) 0).
Definition property_sanity_check (p : PropertyEntry) : bool := negb (is_null (property_value p)).

End ChainState.
