(* ===== verification/AssetEntry.v ===== *)
(** * Asset entries (blockchain/AssetEntry.cpp) and member assignments

    Issue limits and flags of an asset, the parser of amounts, and the
    assignments to members of asset, account and delegate entries that the
    evaluators make. *)

From Stdlib Require Import ZArith Lia Bool String Ascii.
From stdpp Require Import base gmap strings list.
From S2P Require Import Prelude DecimalText Asset Entries.

Local Open Scope Z_scope.
#[local] Arguments String.append !_ _ / : simpl nomatch.

(** ** Member assignments *)

Definition set_ast_name (x : string) (a : AssetEntry) : AssetEntry :=
  mkAssetEntry (ast_id a) (ast_symbol a) x (ast_description a) (ast_public_data a)
    (issuer_account_id a) (precision a) (ast_registration_date a) (ast_last_update a)
    (maximum_share_supply a) (current_share_supply a) (collected_fees a) (flags a)
    (issuer_permissions a) (ast_transaction_fee a) (market_fee a) (authority a).
Definition set_ast_description (x : string) (a : AssetEntry) : AssetEntry :=
  mkAssetEntry (ast_id a) (ast_symbol a) (ast_name a) x (ast_public_data a) (issuer_account_id
    a) (precision a) (ast_registration_date a) (ast_last_update a) (maximum_share_supply a)
    (current_share_supply a) (collected_fees a) (flags a) (issuer_permissions a)
    (ast_transaction_fee a) (market_fee a) (authority a).
Definition set_ast_public_data (x : variant) (a : AssetEntry) : AssetEntry :=
  mkAssetEntry (ast_id a) (ast_symbol a) (ast_name a) (ast_description a) x (issuer_account_id
    a) (precision a) (ast_registration_date a) (ast_last_update a) (maximum_share_supply a)
    (current_share_supply a) (collected_fees a) (flags a) (issuer_permissions a)
    (ast_transaction_fee a) (market_fee a) (authority a).
Definition set_issuer_account_id (x : AccountIdType) (a : AssetEntry) : AssetEntry :=
  mkAssetEntry (ast_id a) (ast_symbol a) (ast_name a) (ast_description a) (ast_public_data a) x
    (precision a) (ast_registration_date a) (ast_last_update a) (maximum_share_supply a)
    (current_share_supply a) (collected_fees a) (flags a) (issuer_permissions a)
    (ast_transaction_fee a) (market_fee a) (authority a).
Definition set_precision (x : Z) (a : AssetEntry) : AssetEntry :=
  mkAssetEntry (ast_id a) (ast_symbol a) (ast_name a) (ast_description a) (ast_public_data a)
    (issuer_account_id a) x (ast_registration_date a) (ast_last_update a) (maximum_share_supply
    a) (current_share_supply a) (collected_fees a) (flags a) (issuer_permissions a)
    (ast_transaction_fee a) (market_fee a) (authority a).
Definition set_ast_last_update (x : time_point_sec) (a : AssetEntry) : AssetEntry :=
  mkAssetEntry (ast_id a) (ast_symbol a) (ast_name a) (ast_description a) (ast_public_data a)
    (issuer_account_id a) (precision a) (ast_registration_date a) x (maximum_share_supply a)
    (current_share_supply a) (collected_fees a) (flags a) (issuer_permissions a)
    (ast_transaction_fee a) (market_fee a) (authority a).
Definition set_maximum_share_supply (x : ShareType) (a : AssetEntry) : AssetEntry :=
  mkAssetEntry (ast_id a) (ast_symbol a) (ast_name a) (ast_description a) (ast_public_data a)
    (issuer_account_id a) (precision a) (ast_registration_date a) (ast_last_update a) x
    (current_share_supply a) (collected_fees a) (flags a) (issuer_permissions a)
    (ast_transaction_fee a) (market_fee a) (authority a).
Definition set_current_share_supply (x : ShareType) (a : AssetEntry) : AssetEntry :=
  mkAssetEntry (ast_id a) (ast_symbol a) (ast_name a) (ast_description a) (ast_public_data a)
    (issuer_account_id a) (precision a) (ast_registration_date a) (ast_last_update a)
    (maximum_share_supply a) x (collected_fees a) (flags a) (issuer_permissions a)
    (ast_transaction_fee a) (market_fee a) (authority a).
Definition set_collected_fees (x : ShareType) (a : AssetEntry) : AssetEntry :=
  mkAssetEntry (ast_id a) (ast_symbol a) (ast_name a) (ast_description a) (ast_public_data a)
    (issuer_account_id a) (precision a) (ast_registration_date a) (ast_last_update a)
    (maximum_share_supply a) (current_share_supply a) x (flags a) (issuer_permissions a)
    (ast_transaction_fee a) (market_fee a) (authority a).
Definition set_flags (x : Z) (a : AssetEntry) : AssetEntry :=
  mkAssetEntry (ast_id a) (ast_symbol a) (ast_name a) (ast_description a) (ast_public_data a)
    (issuer_account_id a) (precision a) (ast_registration_date a) (ast_last_update a)
    (maximum_share_supply a) (current_share_supply a) (collected_fees a) x (issuer_permissions
    a) (ast_transaction_fee a) (market_fee a) (authority a).
Definition set_issuer_permissions (x : Z) (a : AssetEntry) : AssetEntry :=
  mkAssetEntry (ast_id a) (ast_symbol a) (ast_name a) (ast_description a) (ast_public_data a)
    (issuer_account_id a) (precision a) (ast_registration_date a) (ast_last_update a)
    (maximum_share_supply a) (current_share_supply a) (collected_fees a) (flags a) x
    (ast_transaction_fee a) (market_fee a) (authority a).
Definition set_ast_transaction_fee (x : ShareType) (a : AssetEntry) : AssetEntry :=
  mkAssetEntry (ast_id a) (ast_symbol a) (ast_name a) (ast_description a) (ast_public_data a)
    (issuer_account_id a) (precision a) (ast_registration_date a) (ast_last_update a)
    (maximum_share_supply a) (current_share_supply a) (collected_fees a) (flags a)
    (issuer_permissions a) x (market_fee a) (authority a).
Definition set_authority (x : MultisigMetaInfo) (a : AssetEntry) : AssetEntry :=
  mkAssetEntry (ast_id a) (ast_symbol a) (ast_name a) (ast_description a) (ast_public_data a)
    (issuer_account_id a) (precision a) (ast_registration_date a) (ast_last_update a)
    (maximum_share_supply a) (current_share_supply a) (collected_fees a) (flags a)
    (issuer_permissions a) (ast_transaction_fee a) (market_fee a) x.
Definition set_account_public_data (x : variant) (a : AccountEntry) : AccountEntry :=
  mkAccountEntry (account_id a) (account_name a) x (owner_key a) (active_key_history a)
    (account_registration_date a) (account_last_update a) (delegate_info a) (meta_data a).
Definition set_account_last_update (x : time_point_sec) (a : AccountEntry) : AccountEntry :=
  mkAccountEntry (account_id a) (account_name a) (account_public_data a) (owner_key a)
    (active_key_history a) (account_registration_date a) x (delegate_info a) (meta_data a).
Definition set_pay_rate (x : Z) (d : DelegateStats) : DelegateStats :=
  mkDelegateStats (votes_for d) x (signing_key_history d) (last_block_num_produced d)
    (next_secret_hash d) (pay_balance d) (total_paid d) (total_burned d) (blocks_produced d)
    (blocks_missed d).
Definition set_last_block_num_produced (x : Z) (d : DelegateStats) : DelegateStats :=
  mkDelegateStats (votes_for d) (pay_rate d) (signing_key_history d) x (next_secret_hash d)
    (pay_balance d) (total_paid d) (total_burned d) (blocks_produced d) (blocks_missed d).
Definition set_next_secret_hash (x : option SecretHashType) (d : DelegateStats) : DelegateStats :=
  mkDelegateStats (votes_for d) (pay_rate d) (signing_key_history d) (last_block_num_produced d)
    x (pay_balance d) (total_paid d) (total_burned d) (blocks_produced d) (blocks_missed d).
Definition set_pay_balance (x : ShareType) (d : DelegateStats) : DelegateStats :=
  mkDelegateStats (votes_for d) (pay_rate d) (signing_key_history d) (last_block_num_produced d)
    (next_secret_hash d) x (total_paid d) (total_burned d) (blocks_produced d) (blocks_missed d).
Definition set_total_paid (x : ShareType) (d : DelegateStats) : DelegateStats :=
  mkDelegateStats (votes_for d) (pay_rate d) (signing_key_history d) (last_block_num_produced d)
    (next_secret_hash d) (pay_balance d) x (total_burned d) (blocks_produced d) (blocks_missed
    d).
Definition set_total_burned (x : ShareType) (d : DelegateStats) : DelegateStats :=
  mkDelegateStats (votes_for d) (pay_rate d) (signing_key_history d) (last_block_num_produced d)
    (next_secret_hash d) (pay_balance d) (total_paid d) x (blocks_produced d) (blocks_missed d).
Definition set_blocks_produced (x : Z) (d : DelegateStats) : DelegateStats :=
  mkDelegateStats (votes_for d) (pay_rate d) (signing_key_history d) (last_block_num_produced d)
    (next_secret_hash d) (pay_balance d) (total_paid d) (total_burned d) x (blocks_missed d).
Definition set_blocks_missed (x : Z) (d : DelegateStats) : DelegateStats :=
  mkDelegateStats (votes_for d) (pay_rate d) (signing_key_history d) (last_block_num_produced d)
    (next_secret_hash d) (pay_balance d) (total_paid d) (total_burned d) (blocks_produced d) x.

(** ** Flags and supply *)

Definition has_flag (bits mask : Z) : bool := negb (Z.land bits mask =? 0).

Definition is_user_issued (a : AssetEntry) : bool := god_issuer_id <? issuer_account_id a.
Definition is_retractable (a : AssetEntry) : bool :=
  is_user_issued a && has_flag (flags a) retractable.
Definition is_restricted (a : AssetEntry) : bool :=
  is_user_issued a && has_flag (flags a) restricted.
Definition is_balance_frozen (a : AssetEntry) : bool :=
  is_user_issued a && has_flag (flags a) balance_halt.
Definition is_supply_unlimited (a : AssetEntry) : bool :=
  is_user_issued a && has_flag (flags a) supply_unlimit.

Definition available_shares (a : AssetEntry) : ShareType :=
  wrap_i64 (maximum_share_supply a - current_share_supply a).

Definition can_issue_shares (a : AssetEntry) (amount : ShareType) : bool :=
  if amount <=? 0 then false
  else let new_share_supply := wrap_i64 (current_share_supply a + amount) in
       (current_share_supply a <? new_share_supply)
       && (new_share_supply <=? maximum_share_supply a).
Definition can_issue (a : AssetEntry) (amt : Asset) : bool :=
  if negb (ast_id a =? asset_id amt) then false else can_issue_shares a (amount amt).

(** The overflow test of can_issue: what it admits is an exact sum within the
    maximum supply, even for amounts beyond int64_t. *)
Lemma can_issue_exact a amt : in_i64 (current_share_supply a) -> amount amt < 2 ^ 64 ->
  can_issue a amt = true ->
  asset_id amt = ast_id a /\ 0 < amount amt /\
  wrap_i64 (current_share_supply a + amount amt) = current_share_supply a + amount amt /\
  current_share_supply a + amount amt <= maximum_share_supply a.
Proof.
  unfold can_issue, can_issue_shares. intros Hc Ha.
  destruct (Z.eqb_spec (ast_id a) (asset_id amt)); cbn [negb]; [| discriminate].
  destruct (Z.leb_spec (amount amt) 0); [discriminate |]. intros Hw. to_prop.
  assert (wrap_i64 (current_share_supply a + amount amt) = current_share_supply a + amount amt)
    as E; [| rewrite E in *; auto with zarith].
  unfold in_i64, INT64_MIN, INT64_MAX in *.
  destruct (Z.le_gt_cases (current_share_supply a + amount amt) (2 ^ 63 - 1)).
  - apply wrap_i64_small. unfold in_i64, INT64_MIN, INT64_MAX. lia.
  - exfalso. pose proof (wrap_i64_sub (current_share_supply a + amount amt)) as Hs.
    rewrite Hs in *; lia.
Qed.

(** ** Amounts from text *)

Fixpoint skip_spaces (s : string) : string :=
  match s with
  | String c r =>
      if (Ascii.eqb c " ") || ((9 <=? Z.of_N (N_of_ascii c)) && (Z.of_N (N_of_ascii c) <=? 13))
      then skip_spaces r else s
  | EmptyString => ""
  end.

(** atoll, with the saturation of the C library out of range. *)
Definition atoll (str : string) : Z :=
  let digits r := fst (digits_fold (fun acc d => acc * 10 + d) 0 r) in
  match skip_spaces str with
  | String "-" r => Z.max INT64_MIN (- digits r)
  | String "+" r => Z.min INT64_MAX (digits r)
  | r => Z.min INT64_MAX (digits r)
  end.

(** [amount.substr( 0, decimal )] and, past the first point, the fraction. *)
Fixpoint split_decimal (s : string) : string * option string :=
  match s with
  | EmptyString => ("", None)
  | String "." r => ("", Some r)
  | String c r => let (i, f) := split_decimal r in (String c i, f)
  end.

(** The three loops over the fraction; the first two compare its low 32 bits. *)
Fixpoint scale_up (fuel : nat) (precision fraction : Z) : option Z :=
  if wrap_u32 fraction <? precision then
    match fuel with
    | O => None
    | S n => scale_up n precision (wrap_i64 (fraction * 10))
    end
  else Some fraction.
Fixpoint scale_down (fuel : nat) (precision fraction : Z) : option Z :=
  if precision <=? wrap_u32 fraction then
    match fuel with
    | O => None
    | S n => scale_down n precision (Z.quot fraction 10)
    end
  else Some fraction.
Fixpoint drop_zeros (fraction_string : string) (fraction : Z) : Z :=
  match fraction_string with
  | String "0" r => drop_zeros r (Z.quot fraction 10)
  | _ => fraction
  end.

(** [None]: a scaling loop is still running after [fuel] turns. *)
Definition asset_from_string (fuel : nat) (a : AssetEntry) (str : string) : option Asset :=
  let (int_part, decimal) := split_decimal str in
  let whole := wrap_i64 (atoll int_part * precision a) in
  match decimal with
  | None => Some (mkAsset whole (ast_id a))
  | Some fraction_string =>
      let fraction := atoll fraction_string in
      if negb (String.eqb fraction_string "") && (0 <? fraction) then
        match scale_up fuel (precision a) fraction with
        | None => None
        | Some f =>
            match scale_down fuel (precision a) f with
            | None => None
            | Some f =>
                let f := drop_zeros fraction_string f in
                Some (mkAsset (wrap_i64 (if 0 <=? whole then whole + f else whole - f)) (ast_id a))
            end
        end
      else Some (mkAsset whole (ast_id a))
  end.
