(* ===== verification/EvalState.v ===== *)
(** * The state of one evaluation (blockchain/TransactionEvaluationState.cpp)

    An evaluation runs on an [EvalContext]: the evaluation's own record and
    the pending chain state its [_current_state] points to.  [chain] runs an
    operation of the chain state, [on_ev] updates the record. *)

From Stdlib Require Import ZArith Lia Bool String.
From stdpp Require Import base gmap strings list sorting.
From S2P Require Import Prelude Asset Entries Names ChainInterface ChainState AssetEntry.

Local Open Scope Z_scope.

(** ** Member assignments *)

Definition set_trx (x : SignedTransaction) (e : TransactionEvaluationState) :=
  mkEvalState x (signed_keys e) (validation_error e) (deposits e) (withdraws e) (es_yield e)
    (deposit_behavior e) (deltas e) (required_fees e) (total_withdraw e) (alt_fees_paid e)
    (es_balance e) (delegate_vote_deltas e) (imessage_length e) (skip_signature_check e)
    (enforce_canonical_signatures e) (skip_vote_adjustment e) (max_fee e)
    (evaluate_contract_testing e) (p_result_trx e) (current_op_index e) (skipexec e)
    (throw_exec_exception e) (exec_cost e) (contract_operator e) (evaluate_contract_result e)
    (event_vector e) (contract_balance_remain e) (withdrawed_contract_balance e)
    (owner_balance_not_usedup e) (deposit_address e) (deposit_count e).
Definition set_signed_keys (x : gset Address) (e : TransactionEvaluationState) :=
  mkEvalState (es_trx e) x (validation_error e) (deposits e) (withdraws e) (es_yield e)
    (deposit_behavior e) (deltas e) (required_fees e) (total_withdraw e) (alt_fees_paid e)
    (es_balance e) (delegate_vote_deltas e) (imessage_length e) (skip_signature_check e)
    (enforce_canonical_signatures e) (skip_vote_adjustment e) (max_fee e)
    (evaluate_contract_testing e) (p_result_trx e) (current_op_index e) (skipexec e)
    (throw_exec_exception e) (exec_cost e) (contract_operator e) (evaluate_contract_result e)
    (event_vector e) (contract_balance_remain e) (withdrawed_contract_balance e)
    (owner_balance_not_usedup e) (deposit_address e) (deposit_count e).
Definition set_validation_error (x : option exn) (e : TransactionEvaluationState) :=
  mkEvalState (es_trx e) (signed_keys e) x (deposits e) (withdraws e) (es_yield e)
    (deposit_behavior e) (deltas e) (required_fees e) (total_withdraw e) (alt_fees_paid e)
    (es_balance e) (delegate_vote_deltas e) (imessage_length e) (skip_signature_check e)
    (enforce_canonical_signatures e) (skip_vote_adjustment e) (max_fee e)
    (evaluate_contract_testing e) (p_result_trx e) (current_op_index e) (skipexec e)
    (throw_exec_exception e) (exec_cost e) (contract_operator e) (evaluate_contract_result e)
    (event_vector e) (contract_balance_remain e) (withdrawed_contract_balance e)
    (owner_balance_not_usedup e) (deposit_address e) (deposit_count e).
Definition set_deposits (x : gmap AssetIdType ShareType) (e : TransactionEvaluationState) :=
  mkEvalState (es_trx e) (signed_keys e) (validation_error e) x (withdraws e) (es_yield e)
    (deposit_behavior e) (deltas e) (required_fees e) (total_withdraw e) (alt_fees_paid e)
    (es_balance e) (delegate_vote_deltas e) (imessage_length e) (skip_signature_check e)
    (enforce_canonical_signatures e) (skip_vote_adjustment e) (max_fee e)
    (evaluate_contract_testing e) (p_result_trx e) (current_op_index e) (skipexec e)
    (throw_exec_exception e) (exec_cost e) (contract_operator e) (evaluate_contract_result e)
    (event_vector e) (contract_balance_remain e) (withdrawed_contract_balance e)
    (owner_balance_not_usedup e) (deposit_address e) (deposit_count e).
Definition set_withdraws (x : gmap AssetIdType ShareType) (e : TransactionEvaluationState) :=
  mkEvalState (es_trx e) (signed_keys e) (validation_error e) (deposits e) x (es_yield e)
    (deposit_behavior e) (deltas e) (required_fees e) (total_withdraw e) (alt_fees_paid e)
    (es_balance e) (delegate_vote_deltas e) (imessage_length e) (skip_signature_check e)
    (enforce_canonical_signatures e) (skip_vote_adjustment e) (max_fee e)
    (evaluate_contract_testing e) (p_result_trx e) (current_op_index e) (skipexec e)
    (throw_exec_exception e) (exec_cost e) (contract_operator e) (evaluate_contract_result e)
    (event_vector e) (contract_balance_remain e) (withdrawed_contract_balance e)
    (owner_balance_not_usedup e) (deposit_address e) (deposit_count e).
Definition set_deltas (x : gmap Z (gmap AssetIdType ShareType)) (e : TransactionEvaluationState) :=
  mkEvalState (es_trx e) (signed_keys e) (validation_error e) (deposits e) (withdraws e)
    (es_yield e) (deposit_behavior e) x (required_fees e) (total_withdraw e) (alt_fees_paid e)
    (es_balance e) (delegate_vote_deltas e) (imessage_length e) (skip_signature_check e)
    (enforce_canonical_signatures e) (skip_vote_adjustment e) (max_fee e)
    (evaluate_contract_testing e) (p_result_trx e) (current_op_index e) (skipexec e)
    (throw_exec_exception e) (exec_cost e) (contract_operator e) (evaluate_contract_result e)
    (event_vector e) (contract_balance_remain e) (withdrawed_contract_balance e)
    (owner_balance_not_usedup e) (deposit_address e) (deposit_count e).
Definition set_required_fees (x : Asset) (e : TransactionEvaluationState) :=
  mkEvalState (es_trx e) (signed_keys e) (validation_error e) (deposits e) (withdraws e)
    (es_yield e) (deposit_behavior e) (deltas e) x (total_withdraw e) (alt_fees_paid e)
    (es_balance e) (delegate_vote_deltas e) (imessage_length e) (skip_signature_check e)
    (enforce_canonical_signatures e) (skip_vote_adjustment e) (max_fee e)
    (evaluate_contract_testing e) (p_result_trx e) (current_op_index e) (skipexec e)
    (throw_exec_exception e) (exec_cost e) (contract_operator e) (evaluate_contract_result e)
    (event_vector e) (contract_balance_remain e) (withdrawed_contract_balance e)
    (owner_balance_not_usedup e) (deposit_address e) (deposit_count e).
Definition set_es_balance (x : gmap AssetIdType ShareType) (e : TransactionEvaluationState) :=
  mkEvalState (es_trx e) (signed_keys e) (validation_error e) (deposits e) (withdraws e)
    (es_yield e) (deposit_behavior e) (deltas e) (required_fees e) (total_withdraw e)
    (alt_fees_paid e) x (delegate_vote_deltas e) (imessage_length e) (skip_signature_check e)
    (enforce_canonical_signatures e) (skip_vote_adjustment e) (max_fee e)
    (evaluate_contract_testing e) (p_result_trx e) (current_op_index e) (skipexec e)
    (throw_exec_exception e) (exec_cost e) (contract_operator e) (evaluate_contract_result e)
    (event_vector e) (contract_balance_remain e) (withdrawed_contract_balance e)
    (owner_balance_not_usedup e) (deposit_address e) (deposit_count e).
Definition set_delegate_vote_deltas (x : gmap AccountIdType ShareType) (e : TransactionEvaluationState) :=
  mkEvalState (es_trx e) (signed_keys e) (validation_error e) (deposits e) (withdraws e)
    (es_yield e) (deposit_behavior e) (deltas e) (required_fees e) (total_withdraw e)
    (alt_fees_paid e) (es_balance e) x (imessage_length e) (skip_signature_check e)
    (enforce_canonical_signatures e) (skip_vote_adjustment e) (max_fee e)
    (evaluate_contract_testing e) (p_result_trx e) (current_op_index e) (skipexec e)
    (throw_exec_exception e) (exec_cost e) (contract_operator e) (evaluate_contract_result e)
    (event_vector e) (contract_balance_remain e) (withdrawed_contract_balance e)
    (owner_balance_not_usedup e) (deposit_address e) (deposit_count e).
Definition set_imessage_length (x : Z) (e : TransactionEvaluationState) :=
  mkEvalState (es_trx e) (signed_keys e) (validation_error e) (deposits e) (withdraws e)
    (es_yield e) (deposit_behavior e) (deltas e) (required_fees e) (total_withdraw e)
    (alt_fees_paid e) (es_balance e) (delegate_vote_deltas e) x (skip_signature_check e)
    (enforce_canonical_signatures e) (skip_vote_adjustment e) (max_fee e)
    (evaluate_contract_testing e) (p_result_trx e) (current_op_index e) (skipexec e)
    (throw_exec_exception e) (exec_cost e) (contract_operator e) (evaluate_contract_result e)
    (event_vector e) (contract_balance_remain e) (withdrawed_contract_balance e)
    (owner_balance_not_usedup e) (deposit_address e) (deposit_count e).
Definition set_p_result_trx (x : SignedTransaction) (e : TransactionEvaluationState) :=
  mkEvalState (es_trx e) (signed_keys e) (validation_error e) (deposits e) (withdraws e)
    (es_yield e) (deposit_behavior e) (deltas e) (required_fees e) (total_withdraw e)
    (alt_fees_paid e) (es_balance e) (delegate_vote_deltas e) (imessage_length e)
    (skip_signature_check e) (enforce_canonical_signatures e) (skip_vote_adjustment e) (max_fee
    e) (evaluate_contract_testing e) x (current_op_index e) (skipexec e) (throw_exec_exception
    e) (exec_cost e) (contract_operator e) (evaluate_contract_result e) (event_vector e)
    (contract_balance_remain e) (withdrawed_contract_balance e) (owner_balance_not_usedup e)
    (deposit_address e) (deposit_count e).
Definition set_current_op_index (x : Z) (e : TransactionEvaluationState) :=
  mkEvalState (es_trx e) (signed_keys e) (validation_error e) (deposits e) (withdraws e)
    (es_yield e) (deposit_behavior e) (deltas e) (required_fees e) (total_withdraw e)
    (alt_fees_paid e) (es_balance e) (delegate_vote_deltas e) (imessage_length e)
    (skip_signature_check e) (enforce_canonical_signatures e) (skip_vote_adjustment e) (max_fee
    e) (evaluate_contract_testing e) (p_result_trx e) x (skipexec e) (throw_exec_exception e)
    (exec_cost e) (contract_operator e) (evaluate_contract_result e) (event_vector e)
    (contract_balance_remain e) (withdrawed_contract_balance e) (owner_balance_not_usedup e)
    (deposit_address e) (deposit_count e).
Definition set_exec_cost (x : Asset) (e : TransactionEvaluationState) :=
  mkEvalState (es_trx e) (signed_keys e) (validation_error e) (deposits e) (withdraws e)
    (es_yield e) (deposit_behavior e) (deltas e) (required_fees e) (total_withdraw e)
    (alt_fees_paid e) (es_balance e) (delegate_vote_deltas e) (imessage_length e)
    (skip_signature_check e) (enforce_canonical_signatures e) (skip_vote_adjustment e) (max_fee
    e) (evaluate_contract_testing e) (p_result_trx e) (current_op_index e) (skipexec e)
    (throw_exec_exception e) x (contract_operator e) (evaluate_contract_result e) (event_vector
    e) (contract_balance_remain e) (withdrawed_contract_balance e) (owner_balance_not_usedup e)
    (deposit_address e) (deposit_count e).
Definition set_contract_operator (x : PublicKeyType) (e : TransactionEvaluationState) :=
  mkEvalState (es_trx e) (signed_keys e) (validation_error e) (deposits e) (withdraws e)
    (es_yield e) (deposit_behavior e) (deltas e) (required_fees e) (total_withdraw e)
    (alt_fees_paid e) (es_balance e) (delegate_vote_deltas e) (imessage_length e)
    (skip_signature_check e) (enforce_canonical_signatures e) (skip_vote_adjustment e) (max_fee
    e) (evaluate_contract_testing e) (p_result_trx e) (current_op_index e) (skipexec e)
    (throw_exec_exception e) (exec_cost e) x (evaluate_contract_result e) (event_vector e)
    (contract_balance_remain e) (withdrawed_contract_balance e) (owner_balance_not_usedup e)
    (deposit_address e) (deposit_count e).
Definition set_evaluate_contract_result (x : bool) (e : TransactionEvaluationState) :=
  mkEvalState (es_trx e) (signed_keys e) (validation_error e) (deposits e) (withdraws e)
    (es_yield e) (deposit_behavior e) (deltas e) (required_fees e) (total_withdraw e)
    (alt_fees_paid e) (es_balance e) (delegate_vote_deltas e) (imessage_length e)
    (skip_signature_check e) (enforce_canonical_signatures e) (skip_vote_adjustment e) (max_fee
    e) (evaluate_contract_testing e) (p_result_trx e) (current_op_index e) (skipexec e)
    (throw_exec_exception e) (exec_cost e) (contract_operator e) x (event_vector e)
    (contract_balance_remain e) (withdrawed_contract_balance e) (owner_balance_not_usedup e)
    (deposit_address e) (deposit_count e).
Definition set_event_vector (x : list EventOperation) (e : TransactionEvaluationState) :=
  mkEvalState (es_trx e) (signed_keys e) (validation_error e) (deposits e) (withdraws e)
    (es_yield e) (deposit_behavior e) (deltas e) (required_fees e) (total_withdraw e)
    (alt_fees_paid e) (es_balance e) (delegate_vote_deltas e) (imessage_length e)
    (skip_signature_check e) (enforce_canonical_signatures e) (skip_vote_adjustment e) (max_fee
    e) (evaluate_contract_testing e) (p_result_trx e) (current_op_index e) (skipexec e)
    (throw_exec_exception e) (exec_cost e) (contract_operator e) (evaluate_contract_result e) x
    (contract_balance_remain e) (withdrawed_contract_balance e) (owner_balance_not_usedup e)
    (deposit_address e) (deposit_count e).
Definition set_contract_balance_remain (x : ShareType) (e : TransactionEvaluationState) :=
  mkEvalState (es_trx e) (signed_keys e) (validation_error e) (deposits e) (withdraws e)
    (es_yield e) (deposit_behavior e) (deltas e) (required_fees e) (total_withdraw e)
    (alt_fees_paid e) (es_balance e) (delegate_vote_deltas e) (imessage_length e)
    (skip_signature_check e) (enforce_canonical_signatures e) (skip_vote_adjustment e) (max_fee
    e) (evaluate_contract_testing e) (p_result_trx e) (current_op_index e) (skipexec e)
    (throw_exec_exception e) (exec_cost e) (contract_operator e) (evaluate_contract_result e)
    (event_vector e) x (withdrawed_contract_balance e) (owner_balance_not_usedup e)
    (deposit_address e) (deposit_count e).
Definition set_withdrawed_contract_balance (x : list BalanceIdType) (e : TransactionEvaluationState) :=
  mkEvalState (es_trx e) (signed_keys e) (validation_error e) (deposits e) (withdraws e)
    (es_yield e) (deposit_behavior e) (deltas e) (required_fees e) (total_withdraw e)
    (alt_fees_paid e) (es_balance e) (delegate_vote_deltas e) (imessage_length e)
    (skip_signature_check e) (enforce_canonical_signatures e) (skip_vote_adjustment e) (max_fee
    e) (evaluate_contract_testing e) (p_result_trx e) (current_op_index e) (skipexec e)
    (throw_exec_exception e) (exec_cost e) (contract_operator e) (evaluate_contract_result e)
    (event_vector e) (contract_balance_remain e) x (owner_balance_not_usedup e) (deposit_address
    e) (deposit_count e).
Definition set_owner_balance_not_usedup (x : gset Address) (e : TransactionEvaluationState) :=
  mkEvalState (es_trx e) (signed_keys e) (validation_error e) (deposits e) (withdraws e)
    (es_yield e) (deposit_behavior e) (deltas e) (required_fees e) (total_withdraw e)
    (alt_fees_paid e) (es_balance e) (delegate_vote_deltas e) (imessage_length e)
    (skip_signature_check e) (enforce_canonical_signatures e) (skip_vote_adjustment e) (max_fee
    e) (evaluate_contract_testing e) (p_result_trx e) (current_op_index e) (skipexec e)
    (throw_exec_exception e) (exec_cost e) (contract_operator e) (evaluate_contract_result e)
    (event_vector e) (contract_balance_remain e) (withdrawed_contract_balance e) x
    (deposit_address e) (deposit_count e).
Definition set_deposit_address (x : gset Address) (e : TransactionEvaluationState) :=
  mkEvalState (es_trx e) (signed_keys e) (validation_error e) (deposits e) (withdraws e)
    (es_yield e) (deposit_behavior e) (deltas e) (required_fees e) (total_withdraw e)
    (alt_fees_paid e) (es_balance e) (delegate_vote_deltas e) (imessage_length e)
    (skip_signature_check e) (enforce_canonical_signatures e) (skip_vote_adjustment e) (max_fee
    e) (evaluate_contract_testing e) (p_result_trx e) (current_op_index e) (skipexec e)
    (throw_exec_exception e) (exec_cost e) (contract_operator e) (evaluate_contract_result e)
    (event_vector e) (contract_balance_remain e) (withdrawed_contract_balance e)
    (owner_balance_not_usedup e) x (deposit_count e).
Definition set_deposit_count (x : Z) (e : TransactionEvaluationState) :=
  mkEvalState (es_trx e) (signed_keys e) (validation_error e) (deposits e) (withdraws e)
    (es_yield e) (deposit_behavior e) (deltas e) (required_fees e) (total_withdraw e)
    (alt_fees_paid e) (es_balance e) (delegate_vote_deltas e) (imessage_length e)
    (skip_signature_check e) (enforce_canonical_signatures e) (skip_vote_adjustment e) (max_fee
    e) (evaluate_contract_testing e) (p_result_trx e) (current_op_index e) (skipexec e)
    (throw_exec_exception e) (exec_cost e) (contract_operator e) (evaluate_contract_result e)
    (event_vector e) (contract_balance_remain e) (withdrawed_contract_balance e)
    (owner_balance_not_usedup e) (deposit_address e) x.

(** TransactionEvaluationState( current_state ): the members without an
    initializer are taken to be false. *)
Definition empty_trx : SignedTransaction :=
  mkSignedTransaction 0 None "" (mkAsset 0 0) [] origin_transaction 0 [].
Definition new_evaluation_state : TransactionEvaluationState :=
  mkEvalState empty_trx ∅ None ∅ ∅ ∅ (0, 0) ∅ (mkAsset 0 0) (mkAsset 0 0) (mkAsset 0 0) ∅ ∅ 0
    false false false ∅ false empty_trx 0 false false (mkAsset 0 0) 0 false [] 0 [] ∅ ∅ 0.

(** Assignments to the members of a BalanceEntry *)
Definition set_balance (v : ShareType) (b : BalanceEntry) : BalanceEntry :=
  mkBalanceEntry (condition b) v (restricted_owner b) (snapshot_info b) (deposit_date b)
    (balance_last_update b) (balance_meta_data b).
Definition set_deposit_date (t : time_point_sec) (b : BalanceEntry) : BalanceEntry :=
  mkBalanceEntry (condition b) (balance b) (restricted_owner b) (snapshot_info b) t
    (balance_last_update b) (balance_meta_data b).
Definition set_balance_last_update (t : time_point_sec) (b : BalanceEntry) : BalanceEntry :=
  mkBalanceEntry (condition b) (balance b) (restricted_owner b) (snapshot_info b)
    (deposit_date b) t (balance_meta_data b).
Definition set_balance_meta_data (v : variant) (b : BalanceEntry) : BalanceEntry :=
  mkBalanceEntry (condition b) (balance b) (restricted_owner b) (snapshot_info b)
    (deposit_date b) (balance_last_update b) v.

(** [m[k]]: the key is inserted with a zero when it is missing. *)
Definition at0 (m : gmap Z Z) (k : Z) : Z := default 0 (m !! k).
Definition touch (k : Z) (m : gmap Z Z) : gmap Z Z := <[k := at0 m k]> m.

Record EvalContext (S : Type) := mkEvalContext {
  ev : TransactionEvaluationState;
  current_state : S
}.
Arguments mkEvalContext {S}.
Arguments ev {S}.
Arguments current_state {S}.

Definition chain {S A} (m : M S A) : M (EvalContext S) A :=
  fun c => let (r, s) := m (current_state c) in (r, mkEvalContext (ev c) s).
Definition view {S A} (f : S -> A) : M (EvalContext S) A := gets (fun c => f (current_state c)).
Definition member {S A} (f : TransactionEvaluationState -> A) : M (EvalContext S) A :=
  gets (fun c => f (ev c)).
Definition on_ev {S} (f : TransactionEvaluationState -> TransactionEvaluationState)
    : M (EvalContext S) unit :=
  modify (fun c => mkEvalContext (f (ev c)) (current_state c)).
(** A member function of [p_result_trx]. *)
Definition on_result_trx {S A} (m : M SignedTransaction A) : M (EvalContext S) A :=
  fun c => let (r, trx) := m (p_result_trx (ev c)) in
           (r, mkEvalContext (set_p_result_trx trx (ev c)) (current_state c)).

(** ** Signatures *)

Section Signatures.
Context `{ChainParams}.

Definition check_signature (e : TransactionEvaluationState) (a : Address) : bool :=
  skip_signature_check e || bool_decide (a ∈ signed_keys e).

(** The number of owners that signed. *)
Definition valid_signatures (e : TransactionEvaluationState) (owners : gset Address) : Z :=
  Z.of_nat (List.length (List.filter (check_signature e) (elements owners))).

Definition verify_authority (e : TransactionEvaluationState) (siginfo : MultisigMetaInfo) : bool :=
  required siginfo <=? valid_signatures e (owners siginfo).
Definition check_multisig (e : TransactionEvaluationState) (required : Z)
    (owners : gset Address) : bool :=
  required <=? valid_signatures e owners.

Definition account_has_signed (e : TransactionEvaluationState) (entry : AccountEntry)
    : result bool :=
  let! retracted := is_retracted entry in
  if retracted then Ok false
  else let! active := active_address entry in
       Ok (check_signature e active || check_signature e (owner_address entry)).

(** The addresses one recovered key signs for. *)
Definition addresses_of_key (key : PublicKeyType) : list Address :=
  [address_of_key key;
   pts_address_of_key key false 56; pts_address_of_key key true 56;
   pts_address_of_key key false 0; pts_address_of_key key true 0].

End Signatures.

Section Evaluation.
Context `{ChainParams} {S : Type} `{ChainInterface S}.
Abbreviation E := (M (EvalContext S)).

Definition recover_signed_keys (digest : DigestType) (sigs : list SignatureType) : E unit :=
  forM sigs (fun sig =>
    canonical <- member enforce_canonical_signatures ;;
    key <- lift_result (recover_key sig digest canonical) ;;
    on_ev (fun e => set_signed_keys (signed_keys e ∪ list_to_set (addresses_of_key key)) e)).

(** ** Balances of the evaluation *)

Definition get_fees (e : TransactionEvaluationState) (id : AssetIdType) : ShareType :=
  at0 (es_balance e) id.

Definition delta_at (e : TransactionEvaluationState) (op : Z) (id : AssetIdType) : ShareType :=
  at0 (default ∅ (deltas e !! op)) id.
Definition set_delta (op : Z) (id : AssetIdType) (v : ShareType)
    (e : TransactionEvaluationState) : TransactionEvaluationState :=
  set_deltas (<[op := <[id := v]> (default ∅ (deltas e !! op))]> (deltas e)) e.

(** The map lookups of both functions leave a zero at a missing key before
    the checked arithmetic can throw. *)
Definition sub_balance (a : Asset) : E unit :=
  let id := asset_id a in
  on_ev (fun e => set_es_balance (touch id (es_balance e)) e) ;;;
  on_ev (fun e => set_deposits (touch id (deposits e)) e) ;;;
  on_ev (fun e => set_delta (current_op_index e) id (delta_at e (current_op_index e) id) e) ;;;
  e <- member (fun e => e) ;;
  balance_t <- lift_result (safe_sub (at0 (es_balance e) id) (amount a)) ;;
  deposits_t <- lift_result (safe_add (at0 (deposits e) id) (amount a)) ;;
  deltas_t <- lift_result (safe_add (delta_at e (current_op_index e) id) (amount a)) ;;
  on_ev (fun e => set_es_balance (<[id := balance_t]> (es_balance e)) e) ;;;
  on_ev (fun e => set_deposits (<[id := deposits_t]> (deposits e)) e) ;;;
  on_ev (fun e => set_delta (current_op_index e) id deltas_t e).

Definition add_balance (a : Asset) : E unit :=
  let id := asset_id a in
  on_ev (fun e => set_es_balance (touch id (es_balance e)) e) ;;;
  on_ev (fun e => set_withdraws (touch id (withdraws e)) e) ;;;
  on_ev (fun e => set_delta (current_op_index e) id (delta_at e (current_op_index e) id) e) ;;;
  e <- member (fun e => e) ;;
  balance_t <- lift_result (safe_add (at0 (es_balance e) id) (amount a)) ;;
  withdraws_t <- lift_result (safe_add (at0 (withdraws e) id) (amount a)) ;;
  deltas_t <- lift_result (safe_sub (delta_at e (current_op_index e) id) (amount a)) ;;
  on_ev (fun e => set_es_balance (<[id := balance_t]> (es_balance e)) e) ;;;
  on_ev (fun e => set_withdraws (<[id := withdraws_t]> (withdraws e)) e) ;;;
  on_ev (fun e => set_delta (current_op_index e) id deltas_t e).

(** ** Votes *)

Definition vote_for (amount : ShareType) (id : AccountIdType) : E unit :=
  on_ev (fun e => set_delegate_vote_deltas (touch id (delegate_vote_deltas e)) e) ;;;
  votes <- member (fun e => at0 (delegate_vote_deltas e) id) ;;
  sum <- lift_result (safe_add votes amount) ;;
  on_ev (fun e => set_delegate_vote_deltas (<[id := sum]> (delegate_vote_deltas e)) e).

Definition adjust_vote (slate_id : SlateIdType) (amount : ShareType) : E unit :=
  skip <- member skip_vote_adjustment ;;
  if (slate_id =? 0) || skip then ret tt
  else
    slate_entry <- view (fun db => get_slate_entry db slate_id) ;;
    slate_entry <- valid_or slate_entry unknown_delegate_slate ;;
    match duplicate_slate slate_entry with
    | [] => forM (merge_sort Z.le (elements (slate slate_entry)))
              (fun id => when (0 <=? id) (vote_for amount id))
    | ids => forM ids (vote_for amount)
    end.

Definition update_delegate_votes : E unit :=
  vote_deltas <- member delegate_vote_deltas ;;
  forM (map_items vote_deltas) (fun item =>
    delegate_entry <- view (fun db => get_account_entry db (fst item)) ;;
    delegate_entry <- valid_or delegate_entry assert_exception ;;
    fc_assert (is_delegate delegate_entry) ;;;
    delegate_entry <- lift_result (adjust_votes_for (snd item) delegate_entry) ;;
    chain (store_account_entry delegate_entry)).

(** ** Fees *)

Definition validate_required_fee : E unit :=
  e <- member (fun e => e) ;;
  xts_fees <- lift_result
    (match es_balance e !! 0 with
     | Some fee => asset_add_assign (mkAsset 0 0) (mkAsset fee 0)
     | None => Ok (mkAsset 0 0)
     end) ;;
  match max_fee e !! 0 with
  | Some m => fc_assert (amount xts_fees <=? m)
  | None => ret tt
  end ;;;
  xts_fees <- lift_result (asset_add_assign xts_fees (alt_fees_paid e)) ;;
  insufficient <- lift_result (asset_gt (required_fees e) xts_fees) ;;
  throw_if insufficient insufficient_fee.

Definition require_fees (fee : Asset) : E unit :=
  fees <- member required_fees ;;
  sum <- lift_result (asset_add_assign fees fee) ;;
  on_ev (set_required_fees sum).

(** The second loop of post_evaluate: what is left of the inputs is collected. *)
Definition collect_fee (fee : Z * Z) : E unit :=
  throw_if (snd fee <? 0) negative_fee ;;;
  when (0 <? snd fee)
    (asset_entry <- view (fun db => get_asset_entry db (fst fee)) ;;
     asset_entry <- valid_or asset_entry unknown_asset_id ;;
     fees <- lift_result (safe_add (collected_fees asset_entry) (snd fee)) ;;
     chain (store_asset_entry (set_collected_fees fees asset_entry))).

Definition check_known_fee (fee : Z * Z) : E unit :=
  throw_if (snd fee <? 0) negative_fee ;;;
  when (negb ((fst fee =? 0) || (snd fee =? 0)))
    (asset_entry <- view (fun db => get_asset_entry db (fst fee)) ;;
     throw_if (negb (is_some asset_entry)) unknown_asset_id).

Definition check_contract_balance (item : BalanceIdType) : E unit :=
  entry <- view (fun db => get_balance_entry db item) ;;
  match entry with
  | Some b => throw_if (negb (0 <=? balance b)) insufficient_funds
  | None => throw insufficient_funds
  end.

Definition post_evaluate : E unit :=
  withdrawn <- member withdraws ;;
  forM (map_items withdrawn) (fun item =>
    asset_rec <- view (fun db => get_asset_entry db (fst item)) ;;
    throw_if (negb (is_some asset_rec)) unknown_asset_id) ;;;
  on_ev (fun e => set_es_balance (touch 0 (es_balance e)) e) ;;;
  fees <- member es_balance ;;
  forM (map_items fees) check_known_fee ;;;
  forM (map_items fees) collect_fee ;;;
  items <- member withdrawed_contract_balance ;;
  forM items check_contract_balance.

Definition validate_asset (a : Asset) : E unit :=
  asset_rec <- view (fun db => get_asset_entry db (asset_id a)) ;;
  throw_if (negb (is_some asset_rec)) unknown_asset_id.

(** ** Signature pre-check of a transaction *)

(** The balances a contract operation may spend. *)
Definition contract_op_balances (op : Operation) : option (gmap BalanceIdType ShareType) :=
  match op with
  | OpRegisterContract o => Some (rc_balances o)
  | OpCallContract o => Some (cc_balances o)
  | OpTransferContract o => Some (tc_balances o)
  | OpUpgradeContract o => Some (uc_balances o)
  | OpDestroyContract o => Some (dc_balances o)
  | _ => None
  end.

Fixpoint known_balances (db : S) (ids : list BalanceIdType) : bool * list BalanceEntry :=
  match ids with
  | [] => (true, [])
  | id :: ids' =>
      match get_balance_entry db id with
      | None => (false, [])
      | Some b => let (ok, bs) := known_balances db ids' in (ok, b :: bs)
      end
  end.

(** The entries the operations [ops] of [trx] spend from; false at the first
    one that is missing. *)
Fixpoint entry_analy (db : S) (ops : list Operation)
    : bool * (list BalanceEntry * list AccountEntry) :=
  match ops with
  | [] => (true, ([], []))
  | op :: ops' =>
      let '(ok, (bs, accounts)) :=
        match op with
        | OpWithdraw o => let (ok, bs) := known_balances db [wd_balance_id o] in (ok, (bs, []))
        | OpWithdrawPay o =>
            match get_account_entry db (Z.abs (wp_account_id o)) with
            | Some a => if is_delegate a then (true, ([], [a])) else (false, ([], []))
            | None => (false, ([], []))
            end
        | _ => match contract_op_balances op with
               | Some m => let (ok, bs) := known_balances db (map fst (map_items m)) in
                           (ok, (bs, []))
               | None => (true, ([], []))
               end
        end in
      if ok then
        let '(ok', (bs', accounts')) := entry_analy db ops' in
        (ok', (bs ++ bs', accounts ++ accounts'))
      else (false, (bs, accounts))
  end.
Definition transaction_entry_analy : E (bool * (list BalanceEntry * list AccountEntry)) :=
  trx <- member es_trx ;;
  view (fun db => entry_analy db (operations trx)).

Definition balance_signed (e : TransactionEvaluationState) (b : BalanceEntry) : result bool :=
  let t := cond_type (condition b) in
  if t =? withdraw_signature_type then
    let! owner := as_signature (condition b) in Ok (check_signature e owner)
  else if t =? withdraw_multisig_type then
    let! m := as_multisig (condition b) in Ok (check_multisig e (fst m) (snd m))
  else Ok false.

Fixpoint all_ok {A} (test : A -> result bool) (l : list A) : result bool :=
  match l with
  | [] => Ok true
  | a :: l' => let! ok := test a in if ok then all_ok test l' else Ok false
  end.

Definition transaction_signature_check (trx_arg : SignedTransaction)
    (all_balances : list BalanceEntry) (all_account : list AccountEntry) : E bool :=
  recover_signed_keys (trx_digest trx_arg get_chain_id) (signatures trx_arg) ;;;
  e <- member (fun e => e) ;;
  balances_ok <- lift_result (all_ok (balance_signed e) all_balances) ;;
  if negb balances_ok then ret false
  else lift_result (all_ok (account_has_signed e) all_account).

(** ** Scans *)

Definition scan_deltas (e : TransactionEvaluationState) (op_index : Z)
    (callback : Asset -> bool) : bool :=
  match deltas e !! op_index with
  | Some items => existsb (fun item => callback (mkAsset (snd item) (fst item))) (map_items items)
  | None => false
  end.

(** The addresses the callback is applied to. *)
Fixpoint scan_operations (db : S) (ops : list Operation) : result (list Address) :=
  match ops with
  | [] => Ok []
  | op :: ops' =>
      let! addrs :=
        match op with
        | OpWithdraw o =>
            match get_balance_entry db (wd_balance_id o) with
            | Some b => let! os := condition_owners (condition b) in Ok (elements os)
            | None => Ok []
            end
        | OpDeposit o => let! os := condition_owners (dep_condition o) in Ok (elements os)
        | _ => Ok []
        end in
      let! rest := scan_operations db ops' in
      Ok (addrs ++ rest)
  end.
Definition scan_addresses (e : TransactionEvaluationState) (db : S) : result (list Address) :=
  scan_operations db (operations (es_trx e)).

(** ** Comparison of result transactions *)

Definition set_expiration (t : time_point_sec) (trx : SignedTransaction) : SignedTransaction :=
  mkSignedTransaction t (reserved trx) (alp_account trx) (alp_inport_asset trx)
    (operations trx) (result_trx_type trx) (result_trx_id trx) (signatures trx).

Definition without_expiration (op : Operation) : Operation :=
  match op with
  | OpTransaction trx => OpTransaction (set_expiration 0 trx)
  | _ => op
  end.
Definition is_contract_op_same (l_op r_op : Operation) : bool :=
  (op_type l_op =? op_type r_op)
  && (operation_hash (without_expiration l_op) =? operation_hash (without_expiration r_op)).

Definition is_contract_trxs_same (l_trx r_trx : SignedTransaction) : bool :=
  Nat.eqb (List.length (operations l_trx)) (List.length (operations r_trx))
  && forallb (fun lr => is_contract_op_same (fst lr) (snd lr))
       (combine (operations l_trx) (operations r_trx)).

Definition es_transfer_asset_from_contract (real_amount_to_transfer : ShareType)
    (amount_to_transfer_symbol : string) (from_contract_address to_account_address : Address)
    : E unit :=
  db <- view (fun db => db) ;;
  on_result_trx (transfer_asset_from_contract db real_amount_to_transfer
    amount_to_transfer_symbol from_contract_address to_account_address).
Definition es_transfer_asset_from_contract_to_name (real_amount_to_transfer : ShareType)
    (amount_to_transfer_symbol : string) (from_contract_address : Address)
    (to_account_name : string) : E unit :=
  db <- view (fun db => db) ;;
  on_result_trx (transfer_asset_from_contract_to_name db real_amount_to_transfer
    amount_to_transfer_symbol from_contract_address to_account_name).

Definition is_contract_op (t : Z) : bool :=
  (register_contract_op_type <=? t) && (t <=? transfer_contract_op_type).

Fixpoint basic_verify (ops : list Operation) : option bool :=
  match ops with
  | [] => Some false
  | op :: ops' => if op_type op =? transaction_op_type then None
                  else if is_contract_op (op_type op) then Some true
                  else basic_verify ops'
  end.
Definition origin_trx_basic_verify (trx : SignedTransaction) : bool :=
  match basic_verify (operations trx) with
  | None => false
  | Some has_contract_op =>
      negb (has_contract_op && negb (Nat.eqb (List.length (operations trx)) 1))
  end.

End Evaluation.
