(* ===== verification/BalanceOperations.v ===== *)
(** * Deposits and withdrawals (blockchain/BalanceOperations.cpp)

    The evaluate member of each balance operation. *)

From Stdlib Require Import ZArith Lia Bool String.
From stdpp Require Import base gmap strings list.
From S2P Require Import Prelude Asset Entries Names ChainInterface ChainState AssetEntry.
From S2P Require Import EvalState.

Local Open Scope Z_scope.


Section BalanceOperations.
Context `{ChainParams} {S : Type} `{ChainInterface S}.
Abbreviation E := (M (EvalContext S)).

(** The conditions a deposit may create. *)
Definition depositable (c : WithdrawCondition) : bool :=
  (cond_type c =? withdraw_signature_type) || (cond_type c =? withdraw_multisig_type)
  || (cond_type c =? withdraw_escrow_type).

(** fc::uint128::to_integer asserts that the value has 32 bits. *)
Definition to_integer (avg : Z) : result Z :=
  if 2 ^ 32 <=? avg then Err assert_exception else Ok avg.

(** The deposit date of a balance grown by [amount]: the average of the dates
    weighted by the amounts; [total] is the divisor. *)
Definition average_date (b : BalanceEntry) (now amount total : Z) : result time_point_sec :=
  if balance b =? 0 then Ok now
  else
    let avg := wrap_u128 (wrap_u128 (deposit_date b * wrap_u128 (balance b))
                          + wrap_u128 (now * wrap_u128 amount)) in
    let! avg := if wrap_u128 total =? 0 then uint128_div_zero avg
                else Ok (avg / wrap_u128 total) in
    to_integer avg.

(** DepositOperation::DepositOperation( owner, amnt, slate_id ) *)
Definition new_deposit_operation (owner : Address) (amnt : Asset) (slate_id : SlateIdType)
    : result DepositOperation :=
  if 0 <? amount amnt then
    Ok (mkDepositOperation (amount amnt)
          (mkWithdrawCondition (asset_id amnt) slate_id withdraw_common_type
             (WithdrawWithSignature owner None)))
  else Err assert_exception.
Definition new_withdraw_contract_operation (id : BalanceIdType) (amount : ShareType)
    (c_id : ContractIdType) : result WithdrawContractOperation :=
  if 0 <? amount then Ok (mkWithdrawContractOperation id amount c_id) else Err assert_exception.
Definition new_deposit_contract_operation (id : ContractIdType) (amnt : Asset)
    (balance_type : Z) : DepositContractOperation :=
  mkDepositContractOperation (amount amnt)
    (mkWithdrawCondition (asset_id amnt) 0 balance_type (WithdrawWithSignature id None)).

(** Votes follow the shares of asset 0 that carry a slate. *)
Definition adjust_balance_vote (c : WithdrawCondition) (amount : ShareType) : E unit :=
  when ((cond_asset_id c =? 0) && negb (cond_slate_id c =? 0))
    (adjust_vote (cond_slate_id c) amount).

Definition deposit_evaluate (o : DepositOperation) : E unit :=
  count <- member deposit_count ;;
  throw_if (ALP_BLOCKCHAIN_TRANSACTION_MAX_DEPOSIT_NUM <? count) too_much_deposit ;;;
  on_ev (fun e => set_deposit_count (deposit_count e + 1) e) ;;;
  throw_if (dep_amount o <=? 0) negative_deposit ;;;
  throw_if (negb (depositable (dep_condition o))) invalid_withdraw_condition ;;;
  let deposit_balance_id := condition_address (dep_condition o) in
  cur_entry <- view (fun db => get_balance_entry db deposit_balance_id) ;;
  let cur_entry := default (new_balance_entry (dep_condition o)) cur_entry in
  owners <- lift_result (condition_owners (condition cur_entry)) ;;
  forM (elements owners) (fun addr =>
    addrs <- member deposit_address ;;
    throw_if (bool_decide (addr ∈ addrs)) deposit_to_one_address_twice ;;;
    on_ev (set_deposit_address ({[ addr ]} ∪ addrs))) ;;;
  now <- view now ;;
  date <- lift_result (average_date cur_entry now (dep_amount o)
                         (balance cur_entry + dep_amount o)) ;;
  temp <- lift_result (safe_add (balance cur_entry) (dep_amount o)) ;;
  let cur_entry := set_balance temp (set_deposit_date date cur_entry) in
  sub_balance (mkAsset (dep_amount o) (cond_asset_id (condition cur_entry))) ;;;
  adjust_balance_vote (condition cur_entry) (dep_amount o) ;;;
  let cur_entry := set_balance_last_update now cur_entry in
  asset_rec <- view (fun db => get_asset_entry db (cond_asset_id (condition cur_entry))) ;;
  fc_assert (is_some asset_rec) ;;;
  chain (store_balance_entry cur_entry).

(** The issuer of a retractable asset may sign in place of the owners. *)
Definition issuer_override (e : TransactionEvaluationState) (asset_rec : AssetEntry) : bool :=
  is_retractable asset_rec && verify_authority e (authority asset_rec).

Definition owners_authorized (e : TransactionEvaluationState) (c : WithdrawCondition)
    : result unit :=
  if cond_type c =? withdraw_signature_type then
    let! owner := as_signature c in
    if check_signature e owner then Ok tt else Err missing_signature
  else if cond_type c =? withdraw_multisig_type then
    let! multisig := as_multisig c in
    if valid_signatures e (snd multisig) <? fst multisig then Err missing_signature else Ok tt
  else Err invalid_withdraw_condition.

Definition withdraw_authorized (e : TransactionEvaluationState) (asset_rec : AssetEntry)
    (c : WithdrawCondition) : result unit :=
  if issuer_override e asset_rec then Ok tt
  else let! _ := result_assert (negb (is_balance_frozen asset_rec)) in owners_authorized e c.

Definition withdraw_evaluate (o : WithdrawOperation) : E unit :=
  throw_if (wd_amount o <=? 0) negative_withdraw ;;;
  current <- view (fun db => get_balance_entry db (wd_balance_id o)) ;;
  current <- valid_or current unknown_balance_entry ;;
  throw_if (amount (get_spendable_balance current) <? wd_amount o) insufficient_funds ;;;
  asset_rec <- view (fun db => get_asset_entry db (cond_asset_id (condition current))) ;;
  asset_rec <- valid_or asset_rec assert_exception ;;
  e <- member (fun e => e) ;;
  lift_result (withdraw_authorized e asset_rec (condition current)) ;;;
  adjust_balance_vote (condition current) (- wd_amount o) ;;;
  temp <- lift_result (safe_sub (balance current) (wd_amount o)) ;;
  let current := set_balance temp current in
  add_balance (mkAsset (wd_amount o) (cond_asset_id (condition current))) ;;;
  owner <- lift_result (condition_owner (condition current)) ;;
  match owner with
  | Some owner =>
      when (0 <? temp)
        (on_ev (fun e => set_owner_balance_not_usedup
                           ({[ owner ]} ∪ owner_balance_not_usedup e) e))
  | None => ret tt
  end ;;;
  now <- view now ;;
  chain (store_balance_entry (set_balance_last_update now current)).

(** Only in result transactions; the entry is created when the contract has
    none, and its balance may go below zero until post_evaluate. *)
Definition withdraw_contract_evaluate (o : WithdrawContractOperation) : E unit :=
  in_result <- member evaluate_contract_result ;;
  throw_if (negb in_result) in_result_of_execute ;;;
  let balance_entry := new_balance_entry
    (mkWithdrawCondition 0 0 withdraw_contract_type (WithdrawWithSignature (wdc_contract o) None)) in
  throw_if (wdc_amount o <=? 0) negative_withdraw ;;;
  current <- view (fun db => get_balance_entry db (wdc_balance_id o)) ;;
  now <- view now ;;
  current <-
    match current with
    | Some b => ret b
    | None =>
        throw_if (wdc_contract o =? 0) unknown_balance_entry ;;;
        fc_assert (wdc_balance_id o =? balance_id balance_entry) ;;;
        ret (set_balance_last_update now (set_deposit_date now (set_balance 0 balance_entry)))
    end ;;
  fc_assert (cond_asset_id (condition current) =? 0) ;;;
  asset_rec <- view (fun db => get_asset_entry db (cond_asset_id (condition current))) ;;
  fc_assert (is_some asset_rec) ;;;
  let current := set_balance (wrap_i64 (balance current - wdc_amount o)) current in
  add_balance (mkAsset (wdc_amount o) (cond_asset_id (condition current))) ;;;
  chain (store_balance_entry (set_balance_last_update now current)) ;;;
  on_ev (fun e => set_withdrawed_contract_balance
                    (withdrawed_contract_balance e ++ [wdc_balance_id o]) e).

(** The owner must have signed and be the operator of the contract. *)
Definition operator_authorized (e : TransactionEvaluationState) (asset_rec : AssetEntry)
    (c : WithdrawCondition) (operator : Address) : result unit :=
  if issuer_override e asset_rec then Ok tt
  else
    let! _ := result_assert (negb (is_balance_frozen asset_rec)) in
    if cond_type c =? withdraw_signature_type then
      let! owner := as_signature c in
      if negb (check_signature e owner) then Err missing_signature
      else if negb (owner =? operator) then Err operator_and_owner_not_the_same
      else Ok tt
    else Err invalid_withdraw_condition.

(** What BalancesWithdrawOperation and check_balances require of one balance
    before they use [amt] of it. *)
Definition spendable_by_operator (e : TransactionEvaluationState) (db : S)
    (operator : Address) (item : BalanceIdType * ShareType) : result BalanceEntry :=
  if snd item <=? 0 then Err negative_withdraw
  else match get_balance_entry db (fst item) with
       | None => Err unknown_balance_entry
       | Some current =>
           let! _ := result_assert (cond_asset_id (condition current) =? 0) in
           if amount (get_spendable_balance current) <? snd item then Err insufficient_funds
           else match get_asset_entry db (cond_asset_id (condition current)) with
                | None => Err assert_exception
                | Some asset_rec =>
                    let! _ := operator_authorized e asset_rec (condition current) operator in
                    Ok current
                end
       end.

Definition balance_withdraw (item : BalanceIdType * ShareType) : E unit :=
  e <- member (fun e => e) ;;
  db <- view (fun db => db) ;;
  current <- lift_result
    (spendable_by_operator e db (address_of_key (contract_operator e)) item) ;;
  adjust_balance_vote (condition current) (- snd item) ;;;
  let current := set_balance (wrap_i64 (balance current - snd item)) current in
  add_balance (mkAsset (snd item) (cond_asset_id (condition current))) ;;;
  now <- view now ;;
  chain (store_balance_entry (set_balance_last_update now current)).

Definition balances_withdraw_evaluate (o : BalancesWithdrawOperation) : E unit :=
  in_result <- member evaluate_contract_result ;;
  throw_if (negb in_result) not_be_result_of_execute ;;;
  e <- member (fun e => e) ;;
  throw_if (negb (check_signature e (address_of_key (contract_operator e)))) missing_signature ;;;
  forM (map_items (bw_balances o)) balance_withdraw.

Definition update_balance_vote_evaluate (o : UpdateBalanceVoteOperation) : E unit := ret tt.

Definition deposit_contract_evaluate (o : DepositContractOperation) : E unit :=
  in_result <- member evaluate_contract_result ;;
  throw_if (negb in_result) not_be_result_of_execute ;;;
  throw_if (depc_amount o <=? 0) negative_deposit ;;;
  throw_if (negb (depositable (depc_condition o))) invalid_withdraw_condition ;;;
  let deposit_balance_id := condition_address (depc_condition o) in
  cur_entry <- view (fun db => get_balance_entry db deposit_balance_id) ;;
  trx <- member es_trx ;;
  let cur_entry :=
    match cur_entry with
    | Some b => b
    | None => let b := new_balance_entry (depc_condition o) in
              if cond_type (depc_condition o) =? withdraw_escrow_type
              then set_balance_meta_data (VHash (trx_id trx)) b else b
    end in
  now <- view now ;;
  date <- lift_result (average_date cur_entry now (depc_amount o)
                         (wrap_i64 (balance cur_entry + depc_amount o))) ;;
  let cur_entry := set_balance (wrap_i64 (balance cur_entry + depc_amount o))
                     (set_deposit_date date cur_entry) in
  sub_balance (mkAsset (depc_amount o) (cond_asset_id (condition cur_entry))) ;;;
  adjust_balance_vote (condition cur_entry) (depc_amount o) ;;;
  asset_rec <- view (fun db => get_asset_entry db (cond_asset_id (condition cur_entry))) ;;
  fc_assert (is_some asset_rec) ;;;
  chain (store_balance_entry (set_balance_last_update now cur_entry)).

End BalanceOperations.
