(* ===== verification/AccountOperations.v ===== *)
(** * Account operations (blockchain/AccountOperations.cpp)

    Registration, update, delegate pay and signing keys. *)

From Stdlib Require Import ZArith Lia Bool String.
From stdpp Require Import base gmap strings list.
From S2P Require Import Prelude Asset Entries Names ChainInterface ChainState AssetEntry.
From S2P Require Import EvalState.

Local Open Scope Z_scope.

Section AccountOperations.
Context `{ChainParams} {S : Type} `{ChainInterface S}.
Abbreviation E := (M (EvalContext S)).

Definition reg_is_delegate (o : RegisterAccountOperation) : bool := reg_delegate_pay_rate o <=? 100.

(** DelegateStats() with the given pay rate *)
Definition new_delegate_stats (rate : Z) : DelegateStats :=
  mkDelegateStats 0 rate ∅ 0 None 0 0 0 0 0.

Definition account_with_key (key : PublicKeyType) : E (option AccountEntry) :=
  found <- view (fun db => get_account_entry_by_address db (address_of_key key)) ;;
  lift_result found.

(** The delegate_info of an account that becomes a delegate, and its fee. *)
Definition make_delegate (rate : Z) (signing : PublicKeyType) (entry : AccountEntry)
    : E AccountEntry :=
  head <- view get_head_block_num ;;
  entry <- lift_result
    (set_signing_key head signing (set_delegate_info (Some (new_delegate_stats rate)) entry)) ;;
  fee <- lift_result (get_delegate_registration_fee head rate) ;;
  require_fees (mkAsset fee 0) ;;;
  ret entry.

Definition register_account_evaluate (o : RegisterAccountOperation) : E unit :=
  throw_if (negb (is_valid_account_name (reg_name o))) invalid_account_name ;;;
  current <- view (fun db => get_account_entry_by_name db (reg_name o)) ;;
  current <- lift_result current ;;
  throw_if (is_some current) account_already_registered ;;;
  current <- account_with_key (reg_owner_key o) ;;
  throw_if (is_some current) account_key_in_use ;;;
  current <- account_with_key (reg_active_key o) ;;
  throw_if (is_some current) account_key_in_use ;;;
  now <- view now ;;
  id <- chain new_account_id ;;
  let meta := default (mkAccountMetaInfo titan_account []) (reg_meta_data o) in
  entry <- lift_result (set_active_key now (reg_active_key o)
    (mkAccountEntry id (reg_name o) (reg_public_data o) (reg_owner_key o) ∅ now now None
       (Some meta))) ;;
  entry <- (if reg_is_delegate o
            then make_delegate (reg_delegate_pay_rate o) (reg_active_key o) entry
            else ret entry) ;;
  chain (store_account_entry entry).

Definition upd_is_retracted (o : UpdateAccountOperation) : bool :=
  match upd_active_key o with Some k => k =? 0 | None => false end.
Definition upd_is_delegate (o : UpdateAccountOperation) : bool := upd_delegate_pay_rate o <=? 100.

(** The key half of UpdateAccountOperation::evaluate *)
Definition update_active_key (o : UpdateAccountOperation) (entry : AccountEntry)
    : E AccountEntry :=
  old_key <- lift_result (active_key entry) ;;
  match upd_active_key o with
  | Some new_key =>
      if negb (new_key =? old_key) then
        (if negb (upd_is_retracted o) then
           same_key <- account_with_key new_key ;;
           throw_if (is_some same_key) account_key_in_use
         else if is_delegate entry then
           pay <- lift_result (delegate_pay_balance entry) ;;
           throw_if (0 <? pay) pay_balance_remaining
         else ret tt) ;;;
        e <- member (fun e => e) ;;
        throw_if (negb (check_signature e (owner_address entry))) missing_signature ;;;
        now <- view now ;;
        lift_result (set_active_key now new_key entry)
      else
        e <- member (fun e => e) ;;
        signed <- lift_result (account_has_signed e entry) ;;
        throw_if (negb signed) missing_signature ;;; ret entry
  | None =>
      e <- member (fun e => e) ;;
      signed <- lift_result (account_has_signed e entry) ;;
      throw_if (negb signed) missing_signature ;;; ret entry
  end.

Definition update_account_evaluate (o : UpdateAccountOperation) : E unit :=
  current <- view (fun db => get_account_entry db (upd_account_id o)) ;;
  current <- valid_or current unknown_account_id ;;
  retracted <- lift_result (is_retracted current) ;;
  throw_if retracted account_retracted ;;;
  current <- update_active_key o current ;;
  let current := match upd_public_data o with
                 | Some d => set_account_public_data d current
                 | None => current
                 end in
  fc_assert (negb (is_delegate current) || upd_is_delegate o) ;;;
  current <-
    (if upd_is_delegate o then
       match delegate_info current with
       | Some d =>
           fc_assert (upd_delegate_pay_rate o <=? pay_rate d) ;;;
           ret (set_delegate_info (Some (set_pay_rate (upd_delegate_pay_rate o) d)) current)
       | None =>
           key <- lift_result (active_key current) ;;
           make_delegate (upd_delegate_pay_rate o) key current
       end
     else ret current) ;;
  now <- view now ;;
  chain (store_account_entry (set_account_last_update now current)).

Definition withdraw_pay_evaluate (o : WithdrawPayOperation) : E unit :=
  throw_if (wp_amount o <=? 0) negative_withdraw ;;;
  let account_id := Z.abs (wp_account_id o) in
  account <- view (fun db => get_account_entry db account_id) ;;
  account <- valid_or account unknown_account_id ;;
  info <- valid_or (delegate_info account) not_a_delegate ;;
  throw_if (pay_balance info <? wp_amount o) insufficient_funds ;;;
  e <- member (fun e => e) ;;
  signed <- lift_result (account_has_signed e account) ;;
  throw_if (negb signed) missing_signature ;;;
  pay <- lift_result (safe_sub (pay_balance info) (wp_amount o)) ;;
  on_ev (fun e => set_delegate_vote_deltas (touch account_id (delegate_vote_deltas e)) e) ;;;
  votes <- member (fun e => at0 (delegate_vote_deltas e) account_id) ;;
  votes <- lift_result (safe_sub votes (wp_amount o)) ;;
  on_ev (fun e => set_delegate_vote_deltas (<[account_id := votes]> (delegate_vote_deltas e)) e) ;;;
  add_balance (mkAsset (wp_amount o) 0) ;;;
  chain (store_account_entry (set_delegate_info (Some (set_pay_balance pay info)) account)).

(** FC_ASSERT( false, "Disable UpdateSigningKeyOperation!" ) *)
Definition update_signing_key_evaluate (o : UpdateSigningKeyOperation) : E unit :=
  fc_assert false.

End AccountOperations.
