(* ===== verification/AssetOperations.v ===== *)
(** * Asset operations (blockchain/AssetOperations.cpp)

    Creation, update and issue of user assets. *)

From Stdlib Require Import ZArith Lia Bool String.
From stdpp Require Import base gmap strings list.
From S2P Require Import Prelude Asset Entries Names ChainInterface ChainState AssetEntry.
From S2P Require Import EvalState.

Local Open Scope Z_scope.

Section AssetOperations.
Context `{ChainParams} {S : Type} `{ChainInterface S}.
Abbreviation E := (M (EvalContext S)).

(** What creation and update ask of a maximum supply. *)
Definition valid_max_supply (m : ShareType) : bool :=
  (0 <? m) && (m <=? ALP_BLOCKCHAIN_MAX_SHARES).

Definition create_asset_evaluate (o : CreateAssetOperation) : E unit :=
  valid_symbol <- lift_result (is_valid_symbol_name (ca_symbol o)) ;;
  throw_if (negb valid_symbol) invalid_asset_symbol ;;;
  current <- view (fun db => get_asset_entry_by_symbol db (ca_symbol o)) ;;
  current <- lift_result current ;;
  throw_if (is_some current) asset_symbol_in_use ;;;
  throw_if (String.eqb (ca_name o) "") invalid_asset_name ;;;
  last <- view last_asset_id_of ;;
  last <- lift_result last ;;
  current <- view (fun db => get_asset_entry db (wrap_i32 (last + 1))) ;;
  throw_if (is_some current) asset_id_in_use ;;;
  issuer <-
    (if negb (ca_issuer_account_id o =? market_issuer_id) then
       issuer <- view (fun db => get_account_entry db (ca_issuer_account_id o)) ;;
       throw_if (negb (is_some issuer)) unknown_account_id ;;; ret issuer
     else ret None) ;;
  throw_if (negb (valid_max_supply (ca_maximum_share_supply o))) invalid_asset_amount ;;;
  throw_if (negb (is_power_of_ten (ca_precision o))) invalid_precision ;;;
  require_fees (mkAsset (get_asset_registration_fee (Z.of_nat (String.length (ca_symbol o)))) 0) ;;;
  id <- chain new_asset_id ;;
  now <- view now ;;
  auth <- match issuer with
          | Some a => owner <- lift_result (active_address a) ;;
                      ret (mkMultisigMetaInfo 1 {[ owner ]})
          | None => ret (mkMultisigMetaInfo 0 ∅)
          end ;;
  chain (store_asset_entry
    (mkAssetEntry id (ca_symbol o) (ca_name o) (ca_description o) (ca_public_data o)
       (ca_issuer_account_id o) (ca_precision o) now now (ca_maximum_share_supply o) 0 0 0
       (Z.lor restricted (Z.lor retractable (Z.lor market_halt
          (Z.lor balance_halt supply_unlimit)))) 0 0 auth)).

(** The optional fields of an update, shared by both update operations. *)
Definition update_asset_fields (o : UpdateAssetOperation) (a : AssetEntry) : result AssetEntry :=
  let! a := match ua_name o with
            | Some n => if String.eqb n "" then Err invalid_asset_name else Ok (set_ast_name n a)
            | None => Ok a
            end in
  let a := match ua_description o with Some d => set_ast_description d a | None => a end in
  let a := match ua_public_data o with Some d => set_ast_public_data d a | None => a end in
  let! a := match ua_maximum_share_supply o with
            | Some m => if valid_max_supply m then Ok (set_maximum_share_supply m a)
                        else Err invalid_asset_amount
            | None => Ok a
            end in
  match ua_precision o with
  | Some p => if is_power_of_ten p then Ok (set_precision p a) else Err invalid_precision
  | None => Ok a
  end.

Definition update_asset_evaluate (o : UpdateAssetOperation) : E unit :=
  current <- view (fun db => get_asset_entry db (ua_asset_id o)) ;;
  current <- valid_or current unknown_asset_id ;;
  fc_assert (is_some (ua_name o) || is_some (ua_description o) || is_some (ua_public_data o)
             || is_some (ua_maximum_share_supply o) || is_some (ua_precision o)) ;;;
  when (0 <? current_share_supply current)
    (fc_assert (negb (is_some (ua_maximum_share_supply o))) ;;;
     fc_assert (negb (is_some (ua_precision o)))) ;;;
  e <- member (fun e => e) ;;
  throw_if (negb (verify_authority e (authority current))) missing_signature ;;;
  current <- lift_result (update_asset_fields o current) ;;
  now <- view now ;;
  chain (store_asset_entry (set_ast_last_update now current)).

Definition all_permissions : list Z :=
  [retractable; restricted; market_halt; balance_halt; supply_unlimit].

(** if( bits & p ) FC_ASSERT( allowed & p ) for each permission p *)
Definition permitted (bits allowed : Z) : bool :=
  forallb (fun p => negb (has_flag bits p) || has_flag allowed p) all_permissions.

Definition update_asset_ext_evaluate (o : UpdateAssetExtOperation) : E unit :=
  let base := uae_base o in
  current <- view (fun db => get_asset_entry db (ua_asset_id base)) ;;
  current <- valid_or current unknown_asset_id ;;
  when (0 <? current_share_supply current)
    (when (negb (has_flag (flags current) supply_unlimit))
       (fc_assert (negb (is_some (ua_maximum_share_supply base)))) ;;;
     fc_assert (negb (is_some (ua_precision base)))) ;;;
  e <- member (fun e => e) ;;
  throw_if (negb (verify_authority e (authority current))) missing_signature ;;;
  current <- lift_result (update_asset_fields base current) ;;
  when (0 <? current_share_supply current)
    (fc_assert (permitted (uae_issuer_permissions o) (issuer_permissions current))) ;;;
  let current := set_issuer_permissions (uae_issuer_permissions o) current in
  fc_assert (permitted (uae_flags o) (issuer_permissions current)) ;;;
  let current := set_authority (uae_authority o)
    (set_ast_transaction_fee (uae_transaction_fee o) (set_flags (uae_flags o) current)) in
  fc_assert (negb (uae_issuer_account_id o =? market_issuer_id)) ;;;
  when (negb (uae_issuer_account_id o =? issuer_account_id current))
    (issuer <- view (fun db => get_account_entry db (uae_issuer_account_id o)) ;;
     throw_if (negb (is_some issuer)) unknown_account_id) ;;;
  now <- view now ;;
  chain (store_asset_entry
    (set_ast_last_update now (set_issuer_account_id (uae_issuer_account_id o) current))).

Definition issue_asset_evaluate (o : IssueAssetOperation) : E unit :=
  current <- view (fun db => get_asset_entry db (asset_id (issue_amount o))) ;;
  current <- valid_or current unknown_asset_id ;;
  throw_if (negb (is_user_issued current)) not_user_issued ;;;
  e <- member (fun e => e) ;;
  throw_if (negb (verify_authority e (authority current))) missing_signature ;;;
  throw_if (amount (issue_amount o) <=? 0) negative_issue ;;;
  throw_if (negb (can_issue current (issue_amount o))) over_issue ;;;
  let current := set_current_share_supply
    (wrap_i64 (current_share_supply current + amount (issue_amount o))) current in
  add_balance (issue_amount o) ;;;
  now <- view now ;;
  chain (store_asset_entry (set_ast_last_update now current)).

End AssetOperations.
