(* ===== verification/DataOperations.v ===== *)
(** * Slates, messages, events and contract storage
    (blockchain/SlateOperations.cpp, ImessageOperations.cpp,
    EventOperations.cpp, StorageOperations.cpp)

    The operations that move no shares. *)

From Stdlib Require Import ZArith Lia Bool String.
From stdpp Require Import base gmap strings list sorting.
From S2P Require Import Prelude Asset Entries Names ChainInterface ChainState AssetEntry.
From S2P Require Import EvalState.

Local Open Scope Z_scope.

Definition EVENT_PARAM_MAX_LEN : Z := 1024.
Definition EVENT_TYPE_MAX_LEN : Z := 256.

(** EventOperation::EventOperation( id, event_type, event_param ) *)
Definition new_event_operation (id : ContractIdType) (event_type event_param : string)
    : EventOperation :=
  mkEventOperation id
    (if EVENT_TYPE_MAX_LEN <? strlen event_type
     then substring 0 (Z.to_nat EVENT_TYPE_MAX_LEN) event_type else event_type)
    (if EVENT_PARAM_MAX_LEN <? strlen event_param
     then substring 0 (Z.to_nat EVENT_PARAM_MAX_LEN) event_param else event_param)
    (EVENT_PARAM_MAX_LEN <? strlen event_param).

(** ** Contract storage *)

Section Storage.

Definition storage_value_null : Z := 0.
Definition storage_value_int : Z := 1.
Definition storage_value_stream : Z := 5.
Definition storage_value_int_table : Z := 51.
Definition storage_value_string_table : Z := 54.
Definition storage_value_int_array : Z := 101.
Definition storage_value_string_array : Z := 104.

Definition is_any_base_storage_value_type (t : Z) : bool :=
  (storage_value_int <=? t) && (t <=? storage_value_stream).
(** The table and array types update_contract_storages has a branch for. *)
Definition is_map_storage_value_type (t : Z) : bool :=
  ((storage_value_int_table <=? t) && (t <=? storage_value_string_table))
  || ((storage_value_int_array <=? t) && (t <=? storage_value_string_array)).

(** [as<StorageContainerType>().raw_storage_map] *)
Definition as_storage_map (t : Z) (d : StorageDataType) : result (gmap string (list Z)) :=
  if negb (storage_type d =? t) then Err assert_exception
  else match storage_data d with
       | StorageMap m => Ok m
       | StorageBytes _ => Err out_of_range_exception
       end.

(** The keys of the before map go, the entries of the after map come. *)
Definition update_contract_map_storage (t : Z) (change : StorageDataChangeType)
    (storage : StorageDataType) : result StorageDataType :=
  let! storage_table := as_storage_map t storage in
  let! storage_before_table := as_storage_map t (storage_before change) in
  let! storage_after_table := as_storage_map t (storage_after change) in
  Ok (mkStorageDataType t
        (StorageMap (storage_after_table ∪ (storage_table ∖ storage_before_table)))).

Definition update_contract_storages (name : string) (change : StorageDataChangeType)
    (storages : gmap string StorageDataType) : result (gmap string StorageDataType) :=
  let before_null := storage_type (storage_before change) =? storage_value_null in
  let after_null := storage_type (storage_after change) =? storage_value_null in
  if before_null && negb after_null then Ok (<[name := storage_after change]> storages)
  else if negb before_null && after_null then Ok (delete name storages)
  else if negb before_null && negb after_null then
    match storages !! name with
    | None => Err assert_exception
    | Some d =>
        let t := storage_type d in
        if is_any_base_storage_value_type t then
          Ok (<[name := mkStorageDataType t (storage_data (storage_after change))]> storages)
        else if is_map_storage_value_type t then
          let! d' := update_contract_map_storage t change d in Ok (<[name := d']> storages)
        else Ok storages
    end
  else Ok (delete name storages).

(** The type checks made for every change before any is applied. *)
Definition storage_change_legal (storages : gmap string StorageDataType)
    (item : string * StorageDataChangeType) : bool :=
  let before_type := storage_type (storage_before (snd item)) in
  let after_type := storage_type (storage_after (snd item)) in
  (if negb (before_type =? storage_value_null) && negb (after_type =? storage_value_null)
   then before_type =? after_type else true)
  && match storages !! fst item with
     | Some d => if negb (storage_type d =? storage_value_null)
                    && negb (before_type =? storage_value_null)
                 then storage_type d =? before_type else true
     | None => true
     end.

(** The changes touch distinct names: their order does not matter. *)
Definition apply_storage_changes (changes : gmap string StorageDataChangeType)
    (storages : gmap string StorageDataType) : result (gmap string StorageDataType) :=
  if forallb (storage_change_legal storages) (map_to_list changes) then
    foldl (fun acc item => let! m := acc in
                           update_contract_storages (fst item) (snd item) m)
      (Ok storages) (map_to_list changes)
  else Err assert_exception.

End Storage.

Section DataOperations.
Context `{ChainParams} {S : Type} `{ChainInterface S}.
Abbreviation E := (M (EvalContext S)).

Definition define_slate_evaluate (o : DefineSlateOperation) : E unit :=
  fc_assert (negb (Nat.eqb (List.length (ds_slate o)) 0)) ;;;
  throw_if (ALP_BLOCKCHAIN_MAX_SLATE_SIZE <? Z.of_nat (List.length (ds_slate o)))
    too_may_delegates_in_slate ;;;
  forM (ds_slate o) (fun id =>
    when (0 <=? id)
      (delegate_entry <- view (fun db => get_account_entry db id) ;;
       delegate_entry <- valid_or delegate_entry assert_exception ;;
       fc_assert (is_delegate delegate_entry))) ;;;
  let entry := mkSlateEntry (list_to_set (ds_slate o)) [] in
  current_slate <- view (fun db => get_slate_entry db (slate_id entry)) ;;
  match current_slate with
  | Some current => fc_assert (bool_decide (slate current = slate entry))
  | None => chain (store_slate_entry entry)
  end.

Definition imessage_memo_evaluate (o : ImessageMemoOperation) : E unit :=
  fc_assert (negb (String.eqb (imessage o) "")) ;;;
  throw_if (ALP_BLOCKCHAIN_MAX_MESSAGE_SIZE <? strlen (imessage o)) message_too_long ;;;
  on_ev (set_imessage_length (strlen (imessage o))) ;;;
  require_fees (mkAsset (get_imessage_need_fee (imessage o)) 0).

Definition event_evaluate (o : EventOperation) : E unit :=
  in_result <- member evaluate_contract_result ;;
  throw_if (negb in_result) not_be_result_of_execute ;;;
  entry <- view (fun db => get_contract_entry db (ev_id o)) ;;
  throw_if (negb (is_some entry)) contract_not_exist ;;;
  throw_if (EVENT_PARAM_MAX_LEN <? strlen (event_param o)) event_parameter_length_over_limit ;;;
  on_ev (fun e => set_event_vector (event_vector e ++ [o]) e).

Definition storage_evaluate (o : StorageOperation) : E unit :=
  in_result <- member evaluate_contract_result ;;
  throw_if (negb in_result) not_be_result_of_execute ;;;
  entry <- view (fun db => get_contractstorage_entry db (so_contract_id o)) ;;
  let storages := match entry with Some s => contract_storages s | None => ∅ end in
  storages <- lift_result (apply_storage_changes (contract_change_storages o) storages) ;;
  chain (store_contractstorage_entry (mkContractStorageEntry (so_contract_id o) storages)).

End DataOperations.
