(* ===== verification/ContractOperations.v ===== *)
(** * Contract operations (blockchain/ContractOperations.cpp)

    Registration, call, transfer, upgrade and destruction of contracts, and
    the operations of result transactions that record them.  The Lua virtual
    machine is a parameter: a run reports how it ended and may change the
    evaluation it was given a pointer to. *)

From Stdlib Require Import ZArith Lia Bool String.
From stdpp Require Import base gmap strings list sorting.
From S2P Require Import Prelude Asset Entries Names ChainInterface ChainState AssetEntry.
From S2P Require Import EvalState BalanceOperations.

Local Open Scope Z_scope.

Definition CON_INIT_INTERFACE : string := "init".
Definition CON_ON_DEPOSIT_INTERFACE : string := "on_deposit".
Definition CON_ON_DESTROY_INTERFACE : string := "on_destroy".
Definition CON_ON_UPGRADE_INTERFACE : string := "on_upgrade".
Definition CONTRACT_PARAM_MAX_LEN : Z := 1024.
Definition THINKYOUNG_API_LVM_LIMIT_OVER_ERROR : Z := 6.

(** ** The virtual machine *)

Record ContractCall := mkContractCall {
  call_contract : ContractIdType;
  call_api : string;
  call_arg : string;
  call_caller : PublicKeyType;
  call_limit : Z
}.
Record ContractOutcome := mkContractOutcome {
  internal_error : bool;
  exception_code : Z;
  instructions_executed : Z
}.
Class GluaVM (S : Type) : Type := {
  run_contract : ContractCall -> EvalContext S ->
    ContractOutcome * (SignedTransaction * ShareType);
  amount_to_arg : ShareType -> string
}.

(** How a run ended; the two failures are the exceptions
    contract_run_out_of_money and contract_error, which the callers catch. *)
Inductive Execution :=
  | Finished (executed : Z)
  | RunOutOfMoney
  | ContractFailed (executed : Z).

(** ** Amounts *)

Definition get_amount_sum (amount_l amount_r : ShareType) : result ShareType :=
  let amount_sum := wrap_i64 (amount_l + amount_r) in
  if (amount_sum <? amount_l) || (amount_sum <? amount_r) then Err addition_overflow
  else Ok amount_sum.

(** The first balances, in the order of their ids, that cover the amount; the
    last one only as far as needed. *)
Fixpoint enough_balances (balances_from : list (BalanceIdType * ShareType)) (required : ShareType)
    : result (gmap BalanceIdType ShareType) :=
  match balances_from with
  | [] => Err insufficient_funds
  | (id, v) :: rest =>
      if required <=? v then Ok {[ id := required ]}
      else let! to := enough_balances rest (wrap_i64 (required - v)) in Ok (<[id := v]> to)
  end.
Definition withdraw_enough_balances (balances_from : gmap BalanceIdType ShareType)
    (required : ShareType) : result (gmap BalanceIdType ShareType) :=
  enough_balances (map_items balances_from) required.

Section ContractOperations.
Context `{ChainParams} {S : Type} `{ChainInterface S} `{GluaVM S}.
Abbreviation E := (M (EvalContext S)).

Fixpoint sum_checked (e : TransactionEvaluationState) (db : S) (addr : Address)
    (items : list (BalanceIdType * ShareType)) (tmp_amount : ShareType) : result ShareType :=
  match items with
  | [] => Ok tmp_amount
  | item :: rest =>
      let! _ := spendable_by_operator e db addr item in
      let! all_amount := get_amount_sum tmp_amount (snd item) in
      sum_checked e db addr rest all_amount
  end.
Definition check_balances (balances : gmap BalanceIdType ShareType) (addr : Address)
    : E ShareType :=
  e <- member (fun e => e) ;;
  db <- view (fun db => db) ;;
  lift_result (sum_checked e db addr (map_items balances) 0).

Definition is_contract_has_method (name : string) (abi_set : gset string) : bool :=
  bool_decide (name ∈ abi_set).
Definition is_function_not_allow_call (method : string) : bool :=
  String.eqb method CON_INIT_INTERFACE || String.eqb method CON_ON_DEPOSIT_INTERFACE
  || String.eqb method CON_ON_UPGRADE_INTERFACE || String.eqb method CON_ON_DESTROY_INTERFACE.

(** ** The result transaction *)

Definition result_operations (f : list Operation -> list Operation) : E unit :=
  on_ev (fun e => set_p_result_trx
    (set_operations (f (operations (p_result_trx e))) (p_result_trx e)) e).
Definition push_result (op : Operation) : E unit := result_operations (fun ops => ops ++ [op]).
(** operations.resize( 1 ) *)
Definition resize_one (ops : list Operation) : list Operation :=
  match ops with [] => [OpUnknown 0] | op :: _ => [op] end.
(** p_result_trx.push_transaction( trx ) *)
Definition push_origin : E unit :=
  trx <- member es_trx ;; push_result (OpTransaction trx).
Definition restart_result : E unit := result_operations (fun _ => []) ;;; push_origin.
Definition copy_expiration : E unit :=
  on_ev (fun e => set_p_result_trx (set_expiration (expiration (es_trx e)) (p_result_trx e)) e).
Definition no_result_yet : E unit :=
  trx <- member p_result_trx ;;
  fc_assert (Nat.eqb (List.length (operations trx)) 0).

(** The operator pays [required] from [balances]. *)
Definition charge_operator (balances : gmap BalanceIdType ShareType) (required : ShareType)
    : E unit :=
  withdraw_map <- lift_result (withdraw_enough_balances balances required) ;;
  push_result (OpBalancesWithdraw (mkBalancesWithdrawOperation withdraw_map)).

Definition withdraw_margin (margin : BalanceEntry) : E unit :=
  op <- lift_result (new_withdraw_contract_operation (balance_id margin) (balance margin) 0) ;;
  push_result (OpWithdrawContract op).
Definition deposit_to_owner (owner : PublicKeyType) (amount : ShareType) : E unit :=
  op <- lift_result (new_deposit_operation (address_of_key owner) (mkAsset amount 0) 0) ;;
  push_result (OpDeposit op).

(** The try block up to the classification of the exception code. *)
Definition execute_contract (limit_amount : ShareType) (prepare : E unit)
    (call : Z -> ContractCall) (finish : E unit) (check_internal : bool) : E Execution :=
  let limit := get_limit 0 limit_amount in
  if limit <=? 0 then ret RunOutOfMoney
  else
    prepare ;;;
    ran <- gets (run_contract (call limit)) ;;
    on_ev (fun e => set_contract_balance_remain (snd (snd ran))
                      (set_p_result_trx (fst (snd ran)) e)) ;;;
    let outcome := fst ran in
    finish ;;;
    throw_if (check_internal && internal_error outcome) lua_executor_internal_error ;;;
    ret (if 0 <? exception_code outcome then
           if exception_code outcome =? THINKYOUNG_API_LVM_LIMIT_OVER_ERROR then RunOutOfMoney
           else ContractFailed (instructions_executed outcome)
         else Finished (instructions_executed outcome)).

(** exec_cost of a finished run, asserted to be within the limit. *)
Definition finished_cost (executed : Z) (limit_amount : ShareType) : E ShareType :=
  let cost := amount (get_amount executed 0) in
  on_ev (set_exec_cost (mkAsset cost 0)) ;;;
  fc_assert ((cost <=? limit_amount) && (0 <? cost)) ;;; ret cost.

(** The handlers of the two failures: testing evaluations and evaluations that
    must not fail silently rethrow, the others charge the operator. *)
Definition on_run_out (charge : E unit) : E unit :=
  testing <- member evaluate_contract_testing ;;
  if testing then throw contract_run_out_of_testing_money
  else rethrow <- member throw_exec_exception ;;
       throw_if rethrow contract_run_out_of_money ;;; charge.
Definition on_contract_error (charge : E unit) : E unit :=
  testing <- member evaluate_contract_testing ;;
  if testing then throw contract_execute_error_in_testing
  else rethrow <- member throw_exec_exception ;;
       throw_if rethrow contract_execute_error ;;; charge.

Definition charge_failed_run (balances : gmap BalanceIdType ShareType) (executed : Z)
    (fee : Asset) : E unit :=
  total <- lift_result (asset_add (get_amount executed 0) fee) ;;
  withdraw_map <- lift_result (withdraw_enough_balances balances (amount total)) ;;
  result_operations resize_one ;;;
  copy_expiration ;;;
  push_result (OpBalancesWithdraw (mkBalancesWithdrawOperation withdraw_map)).

Definition charge_run_out (balances : gmap BalanceIdType ShareType) (required : result ShareType)
    (fee : option Asset) : E unit :=
  required <- lift_result required ;;
  withdraw_map <- lift_result (withdraw_enough_balances balances required) ;;
  match fee with Some f => on_ev (set_required_fees f) | None => ret tt end ;;;
  restart_result ;;;
  copy_expiration ;;;
  push_result (OpBalancesWithdraw (mkBalancesWithdrawOperation withdraw_map)).

Definition unless_testing (m : E unit) : E unit :=
  testing <- member evaluate_contract_testing ;; if testing then ret tt else m.

(** check_balances, skipped by testing evaluations *)
Definition checked_amount (balances : gmap BalanceIdType ShareType) (addr : Address)
    : E ShareType :=
  testing <- member evaluate_contract_testing ;;
  if testing then ret 0 else check_balances balances addr.

(** The margin deposited at registration, still whole. *)
Definition margin_balance (id : ContractIdType) : E BalanceEntry :=
  margin <- view (fun db => get_balance_entry db (get_balanceid id withdraw_margin_type)) ;;
  margin <- valid_or margin assert_exception ;;
  fc_assert (cond_asset_id (condition margin) =? 0) ;;;
  throw_if (negb (balance margin =? ALP_DEFAULT_CONTRACT_MARGIN)) invalid_margin_amount ;;;
  ret margin.

Definition set_contract (level : Z) (state : Z) (name desc : string) (c : ContractEntry)
    : ContractEntry :=
  mkContractEntry name (contract_id c) level (contract_owner c) state desc (contract_code c)
    (contract_reserved c) (contract_trx_id c) (contract_register_time c).

(** ** Upgrade *)

(** FC_ASSERT( fee >= 0 ) and the entry checks of upgrade and destruction *)
Definition origin_operation (fee : Asset) : E unit :=
  fc_assert (0 <=? amount fee) ;;;
  in_result <- member evaluate_contract_result ;;
  throw_if in_result in_result_of_execute.

Definition owner_signed (entry : ContractEntry) : E unit :=
  e <- member (fun e => e) ;;
  throw_if (negb (check_signature e (address_of_key (contract_owner entry)))) missing_signature ;;;
  on_ev (set_contract_operator (contract_owner entry)).

Definition upgrade_contract_evaluate (o : UpgradeContractOperation) : E unit :=
  let fee := uc_transaction_fee o in
  let limit := amount (uc_exec_limit o) in
  origin_operation fee ;;;
  entry <- view (fun db => get_contract_entry db (uc_id o)) ;;
  entry <- valid_or entry contract_not_exist ;;
  throw_if (negb (contract_level entry =? contract_level_temp)) contract_upgraded ;;;
  throw_if (contract_state entry =? contract_state_deleted) contract_destroyed ;;;
  throw_if (negb (is_valid_contract_name (uc_name o))) contract_name_illegal ;;;
  throw_if (negb (is_valid_contract_description (uc_desc o))) contract_desc_illegal ;;;
  named <- view (fun db => get_contract_entry_by_name db (uc_name o)) ;;
  named <- lift_result named ;;
  throw_if (is_some named) contract_name_in_use ;;;
  owner_signed entry ;;;
  margin <- margin_balance (contract_id entry) ;;
  let has_on_upgrade := is_contract_has_method CON_ON_UPGRADE_INTERFACE (abi (contract_code entry)) in
  all_amount <- checked_amount (uc_balances o) (address_of_key (contract_owner entry)) ;;
  let on_upgrade := OpOnUpgrade (mkOnUpgradeOperation (uc_id o) (uc_name o) (uc_desc o)) in
  let require_margin :=
    fees <- lift_result (asset_add fee (mkAsset ALP_DEFAULT_CONTRACT_MARGIN 0)) ;;
    on_ev (set_required_fees fees) in
  (if negb has_on_upgrade then
     fc_assert (0 <=? limit) ;;;
     unless_testing
       (restart_result ;;;
        throw_if (all_amount <? amount fee) insufficient_funds ;;;
        charge_operator (uc_balances o) (amount fee) ;;;
        withdraw_margin margin ;;;
        push_result on_upgrade ;;;
        require_margin)
   else
     fc_assert (0 <? limit) ;;;
     skip <- member skipexec ;;
     if skip then ret tt
     else
       no_result_yet ;;;
       push_origin ;;;
       run <- execute_contract limit (ret tt)
                (mkContractCall (uc_id o) CON_ON_UPGRADE_INTERFACE "" (contract_owner entry))
                (ret tt) true ;;
       match run with
       | Finished executed =>
           cost <- finished_cost executed limit ;;
           required <- lift_result (get_amount_sum cost (amount fee)) ;;
           unless_testing
             (withdraw_map <- lift_result (withdraw_enough_balances (uc_balances o) required) ;;
              withdraw_margin margin ;;;
              push_result (OpBalancesWithdraw (mkBalancesWithdrawOperation withdraw_map)) ;;;
              push_result on_upgrade ;;;
              require_margin)
       | RunOutOfMoney =>
           on_run_out (charge_run_out (uc_balances o) (get_amount_sum limit (amount fee)) (Some fee))
       | ContractFailed executed => on_contract_error (charge_failed_run (uc_balances o) executed fee)
       end) ;;;
  copy_expiration.

Definition on_upgrade_evaluate (o : OnUpgradeOperation) : E unit :=
  in_result <- member evaluate_contract_result ;;
  throw_if (negb in_result) not_be_result_of_execute ;;;
  entry <- view (fun db => get_contract_entry db (ou_id o)) ;;
  entry <- valid_or entry contract_not_exist ;;
  chain (store_contract_entry
    (set_contract contract_level_forever (contract_state entry) (ou_name o) (ou_desc o) entry)).

(** ** Destruction *)

Definition destroy_contract_evaluate (o : DestroyContractOperation) : E unit :=
  let fee := dc_transaction_fee o in
  let limit := amount (dc_exec_limit o) in
  origin_operation fee ;;;
  entry <- view (fun db => get_contract_entry db (dc_id o)) ;;
  entry <- valid_or entry contract_not_exist ;;
  throw_if (contract_state entry =? contract_state_deleted) contract_destroyed ;;;
  throw_if (negb (contract_level entry =? contract_level_temp)) permanent_contract ;;;
  owner_signed entry ;;;
  margin <- margin_balance (contract_id entry) ;;
  contract_balance <- view (fun db =>
    get_balance_entry db (get_balanceid (contract_id entry) withdraw_contract_type)) ;;
  let has_on_destroy := is_contract_has_method CON_ON_DESTROY_INTERFACE (abi (contract_code entry)) in
  all_amount <- checked_amount (dc_balances o) (address_of_key (contract_owner entry)) ;;
  let on_destroy a := OpOnDestroy (mkOnDestroyOperation (dc_id o) (mkAsset a 0)) in
  (if negb has_on_destroy then
     fc_assert (0 <=? limit) ;;;
     unless_testing
       (restart_result ;;;
        throw_if (all_amount <? amount fee) insufficient_funds ;;;
        charge_operator (dc_balances o) (amount fee) ;;;
        withdraw_margin margin ;;;
        deposit_to_owner (contract_owner entry) (balance margin) ;;;
        push_result (on_destroy (match contract_balance with Some b => balance b | None => 0 end)) ;;;
        on_ev (set_required_fees fee))
   else
     fc_assert (0 <? limit) ;;;
     skip <- member skipexec ;;
     if skip then ret tt
     else
       no_result_yet ;;;
       push_origin ;;;
       match contract_balance with
       | Some b => fc_assert (cond_asset_id (condition b) =? 0) ;;;
                   on_ev (set_contract_balance_remain (amount (get_spendable_balance b)))
       | None => on_ev (set_contract_balance_remain 0)
       end ;;;
       run <- execute_contract limit (ret tt)
                (mkContractCall (dc_id o) CON_ON_DESTROY_INTERFACE "" (contract_owner entry))
                (ret tt) true ;;
       match run with
       | Finished executed =>
           cost <- finished_cost executed limit ;;
           required <- lift_result (get_amount_sum cost (amount fee)) ;;
           unless_testing
             (withdraw_map <- lift_result (withdraw_enough_balances (dc_balances o) required) ;;
              remain <- member contract_balance_remain ;;
              push_result (on_destroy remain) ;;;
              withdraw_margin margin ;;;
              deposit_to_owner (contract_owner entry) (balance margin) ;;;
              push_result (OpBalancesWithdraw (mkBalancesWithdrawOperation withdraw_map)) ;;;
              on_ev (set_required_fees fee))
       | RunOutOfMoney =>
           on_run_out (charge_run_out (dc_balances o) (get_amount_sum limit (amount fee)) (Some fee))
       | ContractFailed executed => on_contract_error (charge_failed_run (dc_balances o) executed fee)
       end) ;;;
  copy_expiration.

(** The contract's balance moves to its owner and the entry is marked. *)
Definition on_destroy_evaluate (o : OnDestroyOperation) : E unit :=
  in_result <- member evaluate_contract_result ;;
  throw_if (negb in_result) not_be_result_of_execute ;;;
  entry <- view (fun db => get_contract_entry db (od_id o)) ;;
  entry <- valid_or entry contract_not_exist ;;
  contract_balance <- view (fun db =>
    get_balance_entry db (get_balanceid (contract_id entry) withdraw_contract_type)) ;;
  match contract_balance with
  | None => ret tt
  | Some b =>
      fc_assert (cond_asset_id (condition b) =? 0) ;;;
      let deposit_amount := amount (get_spendable_balance b) in
      fc_assert (deposit_amount =? amount (od_amount o)) ;;;
      add_balance (mkAsset deposit_amount 0) ;;;
      chain (store_balance_entry (set_balance 0 b)) ;;;
      let cond := mkWithdrawCondition 0 0 withdraw_common_type
                    (WithdrawWithSignature (address_of_key (contract_owner entry)) None) in
      destroyer <- view (fun db => get_balance_entry db (condition_address cond)) ;;
      let destroyer := default (new_balance_entry cond) destroyer in
      now <- view now ;;
      let total := wrap_i64 (balance destroyer + deposit_amount) in
      date <- lift_result (average_date destroyer now deposit_amount total) ;;
      let destroyer := set_balance total (set_deposit_date date destroyer) in
      sub_balance (mkAsset deposit_amount (cond_asset_id (condition destroyer))) ;;;
      asset_rec <- view (fun db => get_asset_entry db (cond_asset_id (condition destroyer))) ;;
      fc_assert (is_some asset_rec) ;;;
      chain (store_balance_entry (set_balance_last_update now destroyer))
  end ;;;
  chain (store_contract_entry
    (set_contract (contract_level entry) contract_state_deleted (contract_name entry)
       (contract_description entry) entry)).

(** ** Registration *)

Definition get_contract_id (o : RegisterContractOperation) : ContractIdType :=
  register_contract_hash o.

(** What registration needs besides the cost of the run. *)
Definition register_required (o : RegisterContractOperation) (run_cost : ShareType)
    : result ShareType :=
  let! r := get_amount_sum (amount get_default_margin)
              (amount (get_contract_register_fee (rc_contract_code o))) in
  let! r := get_amount_sum r run_cost in
  get_amount_sum r (amount (rc_transaction_fee o)).

Definition new_contract_entry (id : ContractIdType) (owner : PublicKeyType) (code : Code)
    (trx_id : TransactionIdType) (register_time : Z) : ContractEntry :=
  mkContractEntry "" id contract_level_temp owner contract_state_valid "" code None trx_id
    register_time.

(** The entry exists while [init] runs; the ContractInfoOperation of the result
    transaction stores it for good. *)
Definition register_contract_evaluate (o : RegisterContractOperation) : E unit :=
  let fee := rc_transaction_fee o in
  let initcost := amount (rc_initcost o) in
  let id := get_contract_id o in
  let register_fee := amount (get_contract_register_fee (rc_contract_code o)) in
  fc_assert (0 <? initcost) ;;;
  origin_operation fee ;;;
  existing <- view (fun db => get_contract_entry db id) ;;
  throw_if (is_some existing) contract_address_in_use ;;;
  e <- member (fun e => e) ;;
  throw_if (negb (check_signature e (address_of_key (rc_owner o)))) missing_signature ;;;
  unless_testing
    (all_amount <- check_balances (rc_balances o) (address_of_key (rc_owner o)) ;;
     fc_assert (0 <? amount get_default_margin) ;;;
     fc_assert (0 <? register_fee) ;;;
     fc_assert (0 <? initcost) ;;;
     fc_assert (0 <? amount fee) ;;;
     required <- lift_result (register_required o initcost) ;;
     throw_if (all_amount <? required) insufficient_funds) ;;;
  trx <- member es_trx ;;
  throw_if (negb (String.eqb (code_hash (rc_contract_code o))
                    (code_sha1 (byte_code (rc_contract_code o))))) code_hash_error ;;;
  chain (store_contract_entry
    (new_contract_entry id (rc_owner o) (rc_contract_code o) (trx_id trx) 0)) ;;;
  on_ev (set_contract_operator (rc_owner o)) ;;;
  fees <- lift_result (asset_add fee (get_contract_register_fee (rc_contract_code o))) ;;
  on_ev (set_required_fees fees) ;;;
  skip <- member skipexec ;;
  when (negb skip)
    (no_result_yet ;;;
     run <- execute_contract initcost
              (restart_result ;;; copy_expiration ;;;
               push_result (OpContractInfo
                 (mkContractInfoOperation id (rc_owner o) (rc_contract_code o) (rc_register_time o))))
              (mkContractCall id CON_INIT_INTERFACE "" (rc_owner o)) (ret tt) false ;;
     match run with
     | Finished executed =>
         cost <- finished_cost executed initcost ;;
         unless_testing
           (required <- lift_result
              (let! r := get_amount_sum cost (amount get_default_margin) in
               let! r := get_amount_sum r register_fee in
               get_amount_sum r (amount fee)) ;;
            charge_operator (rc_balances o) required ;;;
            push_result (OpDepositContract
              (new_deposit_contract_operation id get_default_margin withdraw_margin_type)))
     | RunOutOfMoney =>
         on_run_out
           (restart_result ;;; copy_expiration ;;;
            required <- lift_result
              (let! r := get_amount_sum register_fee (amount fee) in get_amount_sum r initcost) ;;
            charge_operator (rc_balances o) required)
     | ContractFailed executed => on_contract_error (charge_failed_run (rc_balances o) executed fees)
     end) ;;;
  chain (remove_contract_entry id).

Definition contract_info_evaluate (o : ContractInfoOperation) : E unit :=
  in_result <- member evaluate_contract_result ;;
  throw_if (negb in_result) not_be_result_of_execute ;;;
  existing <- view (fun db => get_contract_entry db (ci_contract_id o)) ;;
  throw_if (is_some existing) contract_address_in_use ;;;
  throw_if (negb (String.eqb (code_hash (ci_code o)) (code_sha1 (byte_code (ci_code o)))))
    code_hash_error ;;;
  trx <- member es_trx ;;
  chain (store_contract_entry
    (new_contract_entry (ci_contract_id o) (ci_owner o) (ci_code o) (trx_id trx)
       (ci_register_time o))) ;;;
  chain (entry_store KContractinTrx (trx_id trx) (mkContractinTrxEntry (ci_contract_id o))) ;;;
  chain (entry_store KContractTrx (ci_contract_id o) (mkContractTrxEntry (trx_id trx))).

(** ** Calls *)

Definition call_contract_evaluate (o : CallContractOperation) : E unit :=
  let fee := cc_transaction_fee o in
  let costlimit := amount (cc_costlimit o) in
  fc_assert (0 <? costlimit) ;;;
  origin_operation fee ;;;
  entry <- view (fun db => get_contract_entry db (cc_contract o)) ;;
  entry <- valid_or entry contract_not_exist ;;
  throw_if (contract_state entry =? contract_state_deleted) contract_destroyed ;;;
  throw_if (is_function_not_allow_call (cc_method o)) method_can_not_be_called_explicitly ;;;
  throw_if (CONTRACT_PARAM_MAX_LEN <? strlen (cc_args o)) contract_parameter_length_over_limit ;;;
  throw_if (negb (is_contract_has_method (cc_method o) (abi (contract_code entry)))) method_not_exist ;;;
  e <- member (fun e => e) ;;
  throw_if (negb (check_signature e (address_of_key (cc_caller o)))) missing_signature ;;;
  on_ev (set_contract_operator (cc_caller o)) ;;;
  all_amount <- checked_amount (cc_balances o) (address_of_key (cc_caller o)) ;;
  testing <- member evaluate_contract_testing ;;
  required <-
    (if testing then ret 0
     else r <- lift_result (get_amount_sum costlimit (amount fee)) ;;
          throw_if (all_amount <? r) insufficient_funds ;;; ret r) ;;
  on_ev (set_required_fees fee) ;;;
  skip <- member skipexec ;;
  when (negb skip)
    (no_result_yet ;;;
     push_origin ;;;
     push_result OpOnCallSuccess ;;;
     copy_expiration ;;;
     fc_assert (testing || (amount fee <=? all_amount)) ;;;
     let limit := get_limit 0 costlimit in
     run <- execute_contract costlimit (ret tt)
              (mkContractCall (cc_contract o) (cc_method o) (cc_args o) (cc_caller o))
              (ret tt) true ;;
     required <-
       match run with
       | Finished executed =>
           on_ev (set_exec_cost (get_amount executed 0)) ;;;
           let left := wrap_i32 (limit - executed) in
           ret (if 0 <? left then wrap_i64 (required - amount (get_amount left 0)) else required)
       | RunOutOfMoney => on_run_out (restart_result ;;; copy_expiration) ;;; ret required
       | ContractFailed executed =>
           on_contract_error (result_operations resize_one ;;; copy_expiration) ;;;
           total <- lift_result (asset_add (get_amount executed 0) fee) ;;
           ret (amount total)
       end ;;
     unless_testing (charge_operator (cc_balances o) required)).

(** ** Transfers to a contract *)

(** The balance a transfer to [id] grows, as it stands. *)
Definition transfer_target (id : ContractIdType) (a : Asset) : E BalanceEntry :=
  let op := new_deposit_contract_operation id a withdraw_contract_type in
  found <- view (fun db => get_balance_entry db (condition_address (depc_condition op))) ;;
  now <- view now ;;
  ret (match found with
       | Some b => b
       | None => set_balance_last_update now (set_deposit_date now
                   (new_balance_entry (mkWithdrawCondition (asset_id a) 0 withdraw_contract_type
                                         (WithdrawWithSignature id None))))
       end).

Definition transfer_contract_evaluate (o : TransferContractOperation) : E unit :=
  let fee := tc_transaction_fee o in
  let costlimit := amount (tc_costlimit o) in
  let transfer := amount (tc_transfer_amount o) in
  let deposit := OpDepositContract (new_deposit_contract_operation (tc_contract_id o)
                                      (tc_transfer_amount o) withdraw_contract_type) in
  origin_operation fee ;;;
  entry <- view (fun db => get_contract_entry db (tc_contract_id o)) ;;
  entry <- valid_or entry contract_not_exist ;;
  throw_if (contract_state entry =? contract_state_deleted) contract_destroyed ;;;
  e <- member (fun e => e) ;;
  throw_if (negb (check_signature e (address_of_key (tc_from o)))) missing_signature ;;;
  throw_if (transfer <=? 0) transfer_amount_not_bigger_than_0 ;;;
  fc_assert (asset_id (tc_transfer_amount o) =? 0) ;;;
  fc_assert (asset_id (tc_costlimit o) =? 0) ;;;
  let has_on_deposit := is_contract_has_method CON_ON_DEPOSIT_INTERFACE (abi (contract_code entry)) in
  fc_assert (if has_on_deposit then 0 <? costlimit else 0 <=? costlimit) ;;;
  on_ev (set_contract_operator (tc_from o)) ;;;
  unless_testing
    (all_amount <- check_balances (tc_balances o) (address_of_key (tc_from o)) ;;
     required <- lift_result
       (let! r := get_amount_sum costlimit transfer in get_amount_sum r (amount fee)) ;;
     throw_if (all_amount <? required) insufficient_funds ;;;
     on_ev (set_required_fees fee)) ;;;
  (if negb has_on_deposit then
     unless_testing
       (required <- lift_result (get_amount_sum (amount fee) transfer) ;;
        withdraw_map <- lift_result (withdraw_enough_balances (tc_balances o) required) ;;
        restart_result ;;;
        push_result (OpBalancesWithdraw (mkBalancesWithdrawOperation withdraw_map)) ;;;
        push_result deposit)
   else
     skip <- member skipexec ;;
     if skip then ret tt
     else
       no_result_yet ;;;
       push_origin ;;;
       target <- transfer_target (tc_contract_id o) (tc_transfer_amount o) ;;
       run <- execute_contract costlimit
                (chain (store_balance_entry
                   (set_balance (wrap_i64 (balance target + transfer)) target)))
                (mkContractCall (tc_contract_id o) CON_ON_DEPOSIT_INTERFACE
                   (amount_to_arg transfer) (tc_from o))
                (chain (store_balance_entry target)) true ;;
       match run with
       | Finished executed =>
           cost <- finished_cost executed costlimit ;;
           required <- lift_result
             (let! r := get_amount_sum cost transfer in get_amount_sum r (amount fee)) ;;
           unless_testing (charge_operator (tc_balances o) required ;;; push_result deposit)
       | RunOutOfMoney =>
           on_run_out (charge_run_out (tc_balances o) (get_amount_sum costlimit (amount fee)) None)
       | ContractFailed executed => on_contract_error (charge_failed_run (tc_balances o) executed fee)
       end) ;;;
  copy_expiration.

End ContractOperations.
