(* ===== verification/Evaluate.v ===== *)
(** * Evaluation of transactions

    TransactionEvaluationState::evaluate and sandbox_evaluate, the dispatch of
    OperationFactory::evaluate (include/blockchain/OperationFactory.hpp) and
    TransactionOperation::evaluate (blockchain/TransactionOperations.cpp). *)

From Stdlib Require Import ZArith Lia Bool String.
From stdpp Require Import base gmap strings list sorting.
From S2P Require Import Prelude Asset Entries Names ChainInterface ChainState AssetEntry.
From S2P Require Import EvalState BalanceOperations AccountOperations AssetOperations.
From S2P Require Import DataOperations ContractOperations.

Local Open Scope Z_scope.


Section Evaluate.
Context `{ChainParams} {S : Type} `{ChainInterface S} `{GluaVM S}.
Abbreviation E := (M (EvalContext S)).

Definition set_result (type : Z) (id : TransactionIdType) (trx : SignedTransaction)
    : SignedTransaction :=
  mkSignedTransaction (expiration trx) (reserved trx) (alp_account trx) (alp_inport_asset trx)
    (operations trx) type id (signatures trx).

(** The loop over the operations: current_op_index counts them. *)
Definition next_op : E unit :=
  on_ev (fun e => set_current_op_index (wrap_u32 (current_op_index e + 1)) e).

(** Transactions whose fees are checked later: contract operations, and
    result transactions that are still incomplete. *)
Definition ignores_required_fee (trx : SignedTransaction) : bool :=
  existsb (fun op => is_contract_op (op_type op)
                     || ((op_type op =? transaction_op_type)
                         && (result_trx_type trx =? incomplete_result_transaction)))
    (operations trx).

(** _current_state->store_transaction( trx.id(), TransactionEntry( *this ) ) *)
Definition store_evaluated : E unit :=
  e <- member (fun e => e) ;;
  chain (store_transaction (trx_id (es_trx e))
           (mkTransactionEntry e (mkTransactionLocation 0 0))).

(** catch( const fc::exception& ): [trx] is restored, the error recorded and
    rethrown. *)
Definition catch_record {A} (result_trx : SignedTransaction) (m : E A) : E A :=
  fun c =>
    match m c with
    | (Ok a, c') => (Ok a, c')
    | (Err e, c') =>
        (Err e, if fc_exception e
                then mkEvalContext (set_validation_error (Some e) (set_trx result_trx (ev c')))
                       (current_state c')
                else c')
    end.

(** The checks evaluate makes before it looks at a signature. *)
Definition expiration_checks (slack : Z) (trx_arg : SignedTransaction) : E unit :=
  now <- view now ;;
  throw_if (expiration trx_arg <=? now) expired_transaction ;;;
  throw_if (wrap_u32 (now + slack) <? expiration trx_arg) invalid_transaction_expiration.
Definition legality_checks (trx_arg : SignedTransaction) : E unit :=
  known <- view (fun db => is_known_transaction db trx_arg) ;;
  throw_if known duplicate_transaction ;;;
  throw_if (negb (check_operations_legality trx_arg)) illegal_transaction.

Section WithOperations.
Variable evaluate_operation : Operation -> E unit.

Definition evaluate_operations (ops : list Operation) : E unit :=
  forM ops (fun op => evaluate_operation op ;;; next_op).

Definition complete_result (trx_arg : SignedTransaction) : E unit :=
  when (result_trx_type trx_arg =? incomplete_result_transaction)
    (on_ev (set_trx trx_arg) ;;; store_evaluated).

Definition result_of (trx_arg p_result : SignedTransaction) : SignedTransaction :=
  let completed := set_result complete_result_transaction (result_trx_id p_result) p_result in
  if result_trx_type trx_arg =? incomplete_result_transaction
  then set_result complete_result_transaction (trx_id completed) completed
  else trx_arg.

Definition signature_fee (trx_arg : SignedTransaction) : E unit :=
  let signum_to_charge :=
    Z.of_nat (List.length (signatures trx_arg)) - ALP_BLOCKCHAIN_FREESIGNATURE_LIMIT in
  when (0 <=? signum_to_charge)
    (on_ev (fun e => set_required_fees
       (mkAsset (wrap_i64 (amount (required_fees e)
                           + signum_to_charge * ALP_BLOCKCHAIN_EXTRA_SIGNATURE_FEE))
          (asset_id (required_fees e))) e)).

Definition settle : E unit := post_evaluate ;;; validate_required_fee ;;; update_delegate_votes.

(** evaluate up to its operations. *)
Definition evaluate_checks (trx_arg : SignedTransaction) : E unit :=
  expiration_checks (ALP_BLOCKCHAIN_BLOCK_INTERVAL_SEC
                     + ALP_BLOCKCHAIN_MAX_TRANSACTION_EXPIRATION_SEC) trx_arg ;;;
  throw_if (origin_trx_basic_verify trx_arg
            && (ALP_BLOCKCHAIN_MAX_TRX_SIZE <? trx_data_size trx_arg)) out_of_max_trx_size ;;;
  legality_checks trx_arg ;;;
  throw_if (ALP_BLOCKCHAIN_MAX_SIGNAGTURE_NUM <? Z.of_nat (List.length (signatures trx_arg)))
    too_much_signature ;;;
  skip <- member skip_signature_check ;;
  when (negb skip)
    (recover_signed_keys (trx_digest trx_arg get_chain_id)
       (elements (list_to_set (signatures trx_arg) : gset Z))).

(** The first operation of a result transaction is the transaction it is the
    result of; the others are evaluated with evaluate_contract_result set. *)
Definition evaluate_result (accepts : SignedTransaction -> bool) (finish : E unit)
    (origin : Operation) (rest : list Operation) : E unit :=
  evaluate_operation origin ;;;
  next_op ;;;
  e <- member (fun e => e) ;;
  fc_assert (skipexec e || accepts (p_result_trx e)) ;;;
  on_ev (set_evaluate_contract_result true) ;;;
  evaluate_operations rest ;;;
  finish ;;;
  on_ev (set_evaluate_contract_result false).
Definition clear_result : E unit :=
  on_ev (fun e => set_p_result_trx (set_operations [] (p_result_trx e)) e).

(** The operations of [trx_arg]; returns the transaction to store. *)
Definition evaluate_body (trx_arg : SignedTransaction) : E SignedTransaction :=
  on_ev (set_current_op_index 0) ;;;
  match operations trx_arg with
  | op :: rest =>
      if op_type op =? transaction_op_type then
        evaluate_result (fun p => result_trx_id trx_arg =? trx_id p) (complete_result trx_arg)
          op rest ;;;
        p_result <- member p_result_trx ;;
        clear_result ;;;
        ret (result_of trx_arg p_result)
      else evaluate_operations (op :: rest) ;;; ret trx_arg
  | [] => ret trx_arg
  end.

(** evaluate( trx_arg, ignore_state ) *)
Definition evaluate (trx_arg : SignedTransaction) (ignore_state : bool) : E unit :=
  let ignore_check_required_fee := ignores_required_fee trx_arg in
  on_ev (set_trx trx_arg) ;;;
  catch_record empty_trx (evaluate_checks trx_arg) ;;;
  result_trx <- catch_record trx_arg (evaluate_body trx_arg) ;;
  catch_record result_trx
    (signature_fee trx_arg ;;;
     when (negb ignore_check_required_fee) settle ;;;
     on_ev (set_trx result_trx) ;;;
     store_evaluated ;;;
     throw_if (negb ignore_state && ignore_check_required_fee) ignore_check_required_fee_state).

Definition sandbox_operations (trx_arg : SignedTransaction) : E unit :=
  match operations trx_arg with
  | op :: rest =>
      if op_type op =? transaction_op_type then
        evaluate_result (is_contract_trxs_same trx_arg) (ret tt) op rest ;;; clear_result
      else evaluate_operations (op :: rest)
  | [] => ret tt
  end.

(** sandbox_evaluate: the result transaction, and whether the fee check was
    skipped; nothing is stored. *)
Definition sandbox_evaluate (trx_arg : SignedTransaction) (ignore_check_required_fee : bool)
    : E (SignedTransaction * bool) :=
  on_ev (set_trx trx_arg) ;;;
  catch_record trx_arg
    (expiration_checks ALP_BLOCKCHAIN_MAX_TRANSACTION_EXPIRATION_SEC trx_arg ;;;
     legality_checks trx_arg ;;;
     let ignore := match operations trx_arg with
                   | [op] => ignore_check_required_fee || is_contract_op (op_type op)
                   | _ => ignore_check_required_fee
                   end in
     skip <- member skip_signature_check ;;
     when (negb skip)
       (recover_signed_keys (trx_digest trx_arg get_chain_id) (signatures trx_arg)) ;;;
     on_ev (set_current_op_index 0) ;;;
     sandbox_operations trx_arg ;;;
     when (negb ignore) settle ;;;
     on_ev (set_trx trx_arg) ;;;
     on_ev (fun e => set_p_result_trx (set_expiration (expiration trx_arg) (p_result_trx e)) e) ;;;
     result <- member p_result_trx ;;
     ret (result, ignore)).

End WithOperations.

(** TransactionOperation::evaluate, given the evaluation of [trx] *)
Definition transaction_evaluate (evaluate_trx : E unit) (trx : SignedTransaction) : E unit :=
  id <- member (fun e => result_trx_id (es_trx e)) ;;
  evaluate_trx ;;;
  chain (entry_store KResult (trx_id trx) (mkResultTIdEntry id)) ;;;
  chain (entry_store KRequest id (mkRequestIdEntry (trx_id trx))).

(** OperationFactory::evaluate *)
Fixpoint evaluate_operation (op : Operation) : E unit :=
  match op with
  | OpWithdraw o => withdraw_evaluate o
  | OpDeposit o => deposit_evaluate o
  | OpRegisterAccount o => register_account_evaluate o
  | OpUpdateAccount o => update_account_evaluate o
  | OpWithdrawPay o => withdraw_pay_evaluate o
  | OpCreateAsset o => create_asset_evaluate o
  | OpUpdateAsset o => update_asset_evaluate o
  | OpIssueAsset o => issue_asset_evaluate o
  | OpDefineSlate o => define_slate_evaluate o
  | OpUpdateSigningKey o => update_signing_key_evaluate o
  | OpUpdateBalanceVote o => update_balance_vote_evaluate o
  | OpUpdateAssetExt o => update_asset_ext_evaluate o
  | OpImessageMemo o => imessage_memo_evaluate o
  | OpContractInfo o => contract_info_evaluate o
  | OpRegisterContract o => register_contract_evaluate o
  | OpUpgradeContract o => upgrade_contract_evaluate o
  | OpDestroyContract o => destroy_contract_evaluate o
  | OpCallContract o => call_contract_evaluate o
  | OpTransferContract o => transfer_contract_evaluate o
  | OpWithdrawContract o => withdraw_contract_evaluate o
  | OpDepositContract o => deposit_contract_evaluate o
  | OpBalancesWithdraw o => balances_withdraw_evaluate o
  | OpTransaction trx => transaction_evaluate (evaluate evaluate_operation trx true) trx
  | OpStorage o => storage_evaluate o
  | OpEvent o => event_evaluate o
  | OpOnDestroy o => on_destroy_evaluate o
  | OpOnUpgrade o => on_upgrade_evaluate o
  | OpOnCallSuccess => ret tt
  | OpUnknown _ => throw unsupported_chain_operation
  end.

Definition evaluate_transaction : SignedTransaction -> bool -> E unit :=
  evaluate evaluate_operation.
Definition sandbox_evaluate_transaction : SignedTransaction -> bool -> E (SignedTransaction * bool) :=
  sandbox_evaluate evaluate_operation.

End Evaluate.
