(* ===== verification/Ledger.v ===== *)
(** * The ledger: what operations may do to shares

    An abstract account of a transaction: a sequence of [effect]s on balances,
    accounts and assets, each with the authority it needs and the entry it
    makes in the books of the evaluation.  Refinement.v shows that every
    evaluator is such a sequence. *)

From Stdlib Require Import ZArith Lia Bool String.
From stdpp Require Import base gmap strings list relations.
From S2P Require Import Prelude Asset Entries Names ChainInterface ChainState AssetEntry.
From S2P Require Import EvalState BalanceOperations AccountOperations AssetOperations.
From S2P Require Import ContractOperations.

Local Open Scope Z_scope.

(** ** Views of the chain state *)

Definition pay_of (a : AccountEntry) : ShareType :=
  match delegate_info a with Some d => pay_balance d | None => 0 end.

Section Views.
Context `{ChainParams} {S : Type} `{ChainInterface S}.

Definition last_account (s : S) : option PropertyEntry := get_property_entry s last_account_id.

(** Balances, accounts, assets and the account counter are as they were. *)
Record same_ledger (s s' : S) : Prop := {
  same_balances : forall id, get_balance_entry s' id = get_balance_entry s id;
  same_accounts : forall id, get_account_entry s' id = get_account_entry s id;
  same_assets : forall id, get_asset_entry s' id = get_asset_entry s id;
  same_last : last_account s' = last_account s
}.

(** One entry is stored under its own id, the rest is as it was. *)
Record put_balance (b : BalanceEntry) (s s' : S) : Prop := {
  put_balance_balances : forall id,
    get_balance_entry s' id = if id =? balance_id b then Some b else get_balance_entry s id;
  put_balance_accounts : forall id, get_account_entry s' id = get_account_entry s id;
  put_balance_assets : forall id, get_asset_entry s' id = get_asset_entry s id;
  put_balance_last : last_account s' = last_account s
}.
Record put_account (a : AccountEntry) (s s' : S) : Prop := {
  put_account_balances : forall id, get_balance_entry s' id = get_balance_entry s id;
  put_account_accounts : forall id,
    get_account_entry s' id = if id =? account_id a then Some a else get_account_entry s id;
  put_account_assets : forall id, get_asset_entry s' id = get_asset_entry s id;
  put_account_last : last_account s' = last_account s
}.
Record put_asset (a : AssetEntry) (s s' : S) : Prop := {
  put_asset_balances : forall id, get_balance_entry s' id = get_balance_entry s id;
  put_asset_accounts : forall id, get_account_entry s' id = get_account_entry s id;
  put_asset_assets : forall id,
    get_asset_entry s' id = if id =? ast_id a then Some a else get_asset_entry s id;
  put_asset_last : last_account s' = last_account s
}.

#[export] Instance same_ledger_preorder : PreOrder same_ledger.
Proof. split; [easy |]. intros a b c [] []. split; intros; congruence. Qed.

Lemma put_balance_same b s s' s'' :
  put_balance b s s' -> same_ledger s' s'' -> put_balance b s s''.
Proof. intros [P1 P2 P3 P4] [Q1 Q2 Q3 Q4]. split; intros; now rewrite ?Q1, ?Q2, ?Q3, ?Q4. Qed.
Lemma same_put_balance b s s' s'' :
  same_ledger s s' -> put_balance b s' s'' -> put_balance b s s''.
Proof.
  intros [Q1 Q2 Q3 Q4] [P1 P2 P3 P4].
  split; intros; rewrite ?P1, ?P2, ?P3, ?P4, ?Q1, ?Q2, ?Q3, ?Q4; reflexivity.
Qed.
Lemma put_account_same a s s' s'' :
  put_account a s s' -> same_ledger s' s'' -> put_account a s s''.
Proof. intros [P1 P2 P3 P4] [Q1 Q2 Q3 Q4]. split; intros; now rewrite ?Q1, ?Q2, ?Q3, ?Q4. Qed.
Lemma same_put_account a s s' s'' :
  same_ledger s s' -> put_account a s' s'' -> put_account a s s''.
Proof.
  intros [Q1 Q2 Q3 Q4] [P1 P2 P3 P4].
  split; intros; rewrite ?P1, ?P2, ?P3, ?P4, ?Q1, ?Q2, ?Q3, ?Q4; reflexivity.
Qed.
Lemma put_asset_same a s s' s'' :
  put_asset a s s' -> same_ledger s' s'' -> put_asset a s s''.
Proof. intros [P1 P2 P3 P4] [Q1 Q2 Q3 Q4]. split; intros; now rewrite ?Q1, ?Q2, ?Q3, ?Q4. Qed.
Lemma same_put_asset a s s' s'' :
  same_ledger s s' -> put_asset a s' s'' -> put_asset a s s''.
Proof.
  intros [Q1 Q2 Q3 Q4] [P1 P2 P3 P4].
  split; intros; rewrite ?P1, ?P2, ?P3, ?P4, ?Q1, ?Q2, ?Q3, ?Q4; reflexivity.
Qed.
(** A second store of the same balance hides the first. *)
Lemma put_balance_twice b b' s s' s'' : balance_id b' = balance_id b ->
  put_balance b s s' -> put_balance b' s' s'' -> put_balance b' s s''.
Proof.
  intros Hid [P1 P2 P3 P4] [Q1 Q2 Q3 Q4].
  split; intros; rewrite ?Q1, ?Q2, ?Q3, ?Q4, ?P1, ?P2, ?P3, ?P4; try reflexivity.
  rewrite Hid. now destruct (id =? balance_id b).
Qed.
End Views.

(** ** The books of an evaluation *)

Section Books.

(** [m'] is [m] with [amt] more at [id]. *)
Definition plus_at (id amt : Z) (m m' : gmap Z Z) : Prop :=
  forall i, at0 m' i = at0 m i + (if i =? id then amt else 0).

Record booked (id d_balance d_withdraws d_deposits : Z) (e e' : TransactionEvaluationState)
    : Prop := {
  booked_balance : plus_at id d_balance (es_balance e) (es_balance e');
  booked_withdraws : plus_at id d_withdraws (withdraws e) (withdraws e');
  booked_deposits : plus_at id d_deposits (deposits e) (deposits e');
  booked_range : forall i, in_i64 (at0 (withdraws e) i) -> in_i64 (at0 (withdraws e') i)
}.
Definition booked_in (id amt : Z) : TransactionEvaluationState -> TransactionEvaluationState -> Prop :=
  booked id amt amt 0.
Definition booked_out (id amt : Z) : TransactionEvaluationState -> TransactionEvaluationState -> Prop :=
  booked id (- amt) 0 amt.
Definition same_books : TransactionEvaluationState -> TransactionEvaluationState -> Prop :=
  booked 0 0 0 0.

(** Signatures are only added. *)
Definition keys_grow (e e' : TransactionEvaluationState) : Prop :=
  signed_keys e ⊆ signed_keys e' /\ skip_signature_check e' = skip_signature_check e.

Lemma plus_at_trans id x y m m' m'' :
  plus_at id x m m' -> plus_at id y m' m'' -> plus_at id (x + y) m m''.
Proof. intros H1 H2 i. rewrite H2, H1. destruct (i =? id); lia. Qed.

Lemma plus_at_zero id id' m m' : plus_at id 0 m m' -> plus_at id' 0 m m'.
Proof. intros Hm i. rewrite Hm. destruct (i =? id), (i =? id'); lia. Qed.

Lemma plus_at_refl id m : plus_at id 0 m m.
Proof. intros i. destruct (i =? id); lia. Qed.

Lemma booked_trans id b w d b' w' d' e e1 e' :
  booked id b w d e e1 -> booked id b' w' d' e1 e' -> booked id (b + b') (w + w') (d + d') e e'.
Proof. intros [] []. split; eauto using plus_at_trans. Qed.

Lemma booked_zero id id' e e' : booked id 0 0 0 e e' -> booked id' 0 0 0 e e'.
Proof. intros []. split; eauto using plus_at_zero. Qed.

Lemma booked_same id b w d e e1 e' :
  booked id b w d e e1 -> same_books e1 e' -> booked id b w d e e'.
Proof.
  intros H1 H2. pose proof (booked_trans _ _ _ _ _ _ _ _ _ _ H1 (booked_zero 0 id _ _ H2)) as H3.
  now rewrite !Z.add_0_r in H3.
Qed.
Lemma same_booked id b w d e e1 e' :
  same_books e e1 -> booked id b w d e1 e' -> booked id b w d e e'.
Proof.
  intros H1 H2. exact (booked_trans _ _ _ _ _ _ _ _ _ _ (booked_zero 0 id _ _ H1) H2).
Qed.

#[export] Instance same_books_preorder : PreOrder same_books.
Proof.
  split.
  - intros e. split; [apply plus_at_refl .. | auto].
  - intros a b c H1 H2. exact (booked_same _ _ _ _ _ _ _ H1 H2).
Qed.
#[export] Instance keys_grow_preorder : PreOrder keys_grow.
Proof.
  split; [easy |]. intros a b c [H1 H2] [H3 H4]. split; [set_solver | congruence].
Qed.

Lemma at0_insert m k v i : at0 (<[k := v]> m) i = if i =? k then v else at0 m i.
Proof.
  unfold at0. destruct (Z.eqb_spec i k) as [-> | Hne].
  - now rewrite lookup_insert_eq.
  - now rewrite lookup_insert_ne by congruence.
Qed.
Lemma at0_touch k m i : at0 (touch k m) i = at0 m i.
Proof. unfold touch. rewrite at0_insert. destruct (Z.eqb_spec i k); congruence. Qed.
End Books.

(** ** Effects *)

Section Effects.
Context `{ChainParams} {S : Type} `{ChainInterface S}.

(** What an update may change of an asset: once it has shares, permissions
    are only given up, the precision stays, and the maximum supply stays
    unless the supply is unlimited. *)
Record asset_evolves (a a' : AssetEntry) : Prop := {
  evolves_id : ast_id a' = ast_id a;
  evolves_supply : current_share_supply a' = current_share_supply a;
  evolves_fees : collected_fees a' = collected_fees a;
  evolves_precision : 0 < current_share_supply a -> precision a' = precision a;
  evolves_maximum : 0 < current_share_supply a -> has_flag (flags a) supply_unlimit = false ->
    maximum_share_supply a' = maximum_share_supply a;
  evolves_permissions : 0 < current_share_supply a ->
    permitted (issuer_permissions a') (issuer_permissions a) = true;
  evolves_flags : permitted (flags a') (issuer_permissions a') = true \/
    flags a' = flags a /\ issuer_permissions a' = issuer_permissions a
}.

(** The effects of operations; those that take [result = true] only happen in
    the result transaction of a contract operation. *)
Inductive effect (result : bool) (e : TransactionEvaluationState) (s : S)
    (e' : TransactionEvaluationState) (s' : S) : Prop :=
  | eff_quiet :
      same_ledger s s' -> same_books e e' -> effect result e s e' s'
  | eff_withdraw k b b' asset_rec amt :
      get_balance_entry s k = Some b ->
      get_asset_entry s (cond_asset_id (condition b)) = Some asset_rec ->
      withdraw_authorized e asset_rec (condition b) = Ok tt ->
      0 < amt <= amount (get_spendable_balance b) ->
      condition b' = condition b -> balance b' = balance b - amt ->
      put_balance b' s s' -> booked_in (cond_asset_id (condition b)) amt e e' ->
      effect result e s e' s'
  | eff_deposit c b b' amt :
      depositable c = true -> 0 < amt ->
      default (new_balance_entry c) (get_balance_entry s (condition_address c)) = b ->
      condition b' = condition b -> balance b' = balance b + amt ->
      put_balance b' s s' -> booked_out (cond_asset_id (condition b)) amt e e' ->
      effect result e s e' s'
  | eff_pay id a d amt :
      get_account_entry s id = Some a -> delegate_info a = Some d ->
      account_has_signed e a = Ok true -> 0 < amt <= pay_balance d ->
      put_account (set_delegate_info (Some (set_pay_balance (pay_balance d - amt) d)) a) s s' ->
      booked_in 0 amt e e' ->
      effect result e s e' s'
  | eff_account id a a' :
      get_account_entry s id = Some a -> account_id a' = account_id a -> pay_of a' = pay_of a ->
      put_account a' s s' -> same_books e e' ->
      effect result e s e' s'
  | eff_issue id a t amt :
      get_asset_entry s id = Some a -> is_user_issued a = true ->
      verify_authority e (authority a) = true ->
      can_issue a (mkAsset amt id) = true ->
      put_asset (set_ast_last_update t
        (set_current_share_supply (wrap_i64 (current_share_supply a + amt)) a)) s s' ->
      booked_in id amt e e' ->
      effect result e s e' s'
  | eff_asset id a a' :
      get_asset_entry s id = Some a -> verify_authority e (authority a) = true ->
      asset_evolves a a' -> put_asset a' s s' -> same_books e e' ->
      effect result e s e' s'
  | eff_create a' :
      get_asset_entry s (ast_id a') = None -> current_share_supply a' = 0 ->
      collected_fees a' = 0 -> 0 < maximum_share_supply a' <= ALP_BLOCKCHAIN_MAX_SHARES ->
      put_asset a' s s' -> same_books e e' ->
      effect result e s e' s'
  | eff_rewrite k b b' :
      get_balance_entry s k = Some b \/
        get_balance_entry s (balance_id b) = None /\ balance b = 0 /\
        depositable (condition b) = true ->
      condition b' = condition b -> balance b' = balance b ->
      put_balance b' s s' -> same_books e e' ->
      effect result e s e' s'
  | eff_contract_withdraw k b b' amt :
      result = true ->
      get_balance_entry s k = Some b \/
        get_balance_entry s (balance_id b) = None /\ balance b = 0 /\
        depositable (condition b) = true ->
      cond_asset_id (condition b) = 0 ->
      condition b' = condition b -> balance b' = wrap_i64 (balance b - amt) ->
      put_balance b' s s' -> booked_in 0 amt e e' ->
      effect result e s e' s'
  | eff_contract_close k b :
      result = true -> get_balance_entry s k = Some b -> cond_asset_id (condition b) = 0 ->
      put_balance (set_balance 0 b) s s' ->
      booked_in 0 (amount (get_spendable_balance b)) e e' ->
      effect result e s e' s'
  | eff_contract_deposit c b b' amt :
      result = true -> depositable c = true ->
      get_balance_entry s (condition_address c) = Some b \/
        get_balance_entry s (condition_address c) = None /\ balance b = 0 /\ condition b = c ->
      condition b' = condition b -> balance b' = wrap_i64 (balance b + amt) ->
      put_balance b' s s' -> booked_out (cond_asset_id (condition b)) amt e e' ->
      effect result e s e' s'.

Definition step (result : bool) (c c' : EvalContext S) : Prop :=
  keys_grow (ev c) (ev c') /\
  effect result (ev c) (current_state c) (ev c') (current_state c').

(** The registration of an account takes the next account id, whether or not
    it is in use. *)
Definition register_step (c c' : EvalContext S) : Prop :=
  exists a last s1,
    last_account_id_of (current_state c) = Ok last /\ account_id a = wrap_i32 (last + 1) /\
    pay_of a = 0 /\ last_account_id_of (current_state c') = Ok (account_id a) /\
    (forall id, get_balance_entry s1 id = get_balance_entry (current_state c) id) /\
    (forall id, get_account_entry s1 id = get_account_entry (current_state c) id) /\
    (forall id, get_asset_entry s1 id = get_asset_entry (current_state c) id) /\
    put_account a s1 (current_state c') /\
    same_books (ev c) (ev c') /\ keys_grow (ev c) (ev c').

(** A sequence of effects with [n] registrations among them. *)
Inductive steps (result : bool) : nat -> EvalContext S -> EvalContext S -> Prop :=
  | steps_refl c : steps result 0 c c
  | steps_effect n c c1 c' : step result c c1 -> steps result n c1 c' -> steps result n c c'
  | steps_register n c c1 c' :
      register_step c c1 -> steps result n c1 c' -> steps result (Datatypes.S n) c c'.

Lemma steps_trans result n m c c1 c' :
  steps result n c c1 -> steps result m c1 c' -> steps result (n + m) c c'.
Proof. induction 1; intros; cbn; [done | econstructor 2; eauto | econstructor 3; eauto]. Qed.

Lemma steps_once result c c' : step result c c' -> steps result 0 c c'.
Proof. intros. econstructor; [eassumption | constructor]. Qed.

Lemma effect_result e s e' s' : effect false e s e' s' -> effect true e s e' s'.
Proof.
  destruct 1; try discriminate; [econstructor 1 | econstructor 2 | econstructor 3
    | econstructor 4 | econstructor 5 | econstructor 6 | econstructor 7 | econstructor 8
    | econstructor 9]; eassumption.
Qed.

Lemma steps_result n c c' : steps false n c c' -> steps true n c c'.
Proof.
  induction 1 as [| n c c1 c' [Hk He] _ IH | n c c1 c' Hr _ IH].
  - constructor.
  - econstructor 2; [| exact IH]. split; [exact Hk | now apply effect_result].
  - econstructor 3; [exact Hr | exact IH].
Qed.

(** ** Quiet programs *)

Record calm (c c' : EvalContext S) : Prop := {
  calm_ledger : same_ledger (current_state c) (current_state c');
  calm_books : same_books (ev c) (ev c');
  calm_keys : keys_grow (ev c) (ev c')
}.
#[export] Instance calm_preorder : PreOrder calm.
Proof.
  split; [split; reflexivity |].
  intros a b c [] []. split; etransitivity; eassumption.
Qed.

Lemma calm_step result c c' : calm c c' -> step result c c'.
Proof. intros []. split; [assumption | now constructor]. Qed.
Lemma calm_steps result c c' : calm c c' -> steps result 0 c c'.
Proof. intros. apply steps_once. now apply calm_step. Qed.

End Effects.

(** What every successful run of a program does. *)
Definition leads {S A} (R : EvalContext S -> EvalContext S -> Prop) (m : M (EvalContext S) A)
    : Prop := forall c a c', m c = (Ok a, c') -> R c c'.

Section Leads.
Context {S : Type}.
Abbreviation E := (M (EvalContext S)).

Lemma view_Ok {A} (f : S -> A) c a c' :
  view f c = (Ok a, c') <-> f (current_state c) = a /\ c = c'.
Proof. exact (gets_Ok _ _ _ _). Qed.
Lemma member_Ok {A} (f : TransactionEvaluationState -> A) (c : EvalContext S) a c' :
  member f c = (Ok a, c') <-> f (ev c) = a /\ c = c'.
Proof. exact (gets_Ok _ _ _ _). Qed.
Lemma on_ev_Ok f (c : EvalContext S) u c' :
  on_ev f c = (Ok u, c') <-> mkEvalContext (f (ev c)) (current_state c) = c'.
Proof. exact (modify_Ok _ _ _ _). Qed.
Lemma chain_Ok {A} (m : M S A) c a c' :
  chain m c = (Ok a, c') <->
  exists s', m (current_state c) = (Ok a, s') /\ mkEvalContext (ev c) s' = c'.
Proof.
  unfold chain. destruct (m (current_state c)) as [r s1] eqn:E. split.
  - intros [= -> <-]. eauto.
  - intros (s' & [= -> ->] & <-). reflexivity.
Qed.

Context (R : EvalContext S -> EvalContext S -> Prop) (HR : PreOrder R).

Lemma leads_ret {A} (a : A) : leads R (ret a).
Proof. intros c b c' [_ <-]%ret_Ok. reflexivity. Qed.
Lemma leads_throw {A} e : leads R (throw (A := A) e).
Proof. intros c b c' []%throw_Ok. Qed.
Lemma leads_gets {A} (f : EvalContext S -> A) : leads R (gets f).
Proof. intros c b c' [_ <-]%gets_Ok. reflexivity. Qed.
Lemma leads_view {A} (f : S -> A) : leads R (view f).
Proof. apply leads_gets. Qed.
Lemma leads_member {A} (f : TransactionEvaluationState -> A) : leads R (member f).
Proof. apply leads_gets. Qed.
Lemma leads_lift {A} (r : result A) : leads R (lift_result r).
Proof. intros c b c' [_ <-]%lift_result_Ok. reflexivity. Qed.
Lemma leads_assert b : leads R (fc_assert b).
Proof. intros c u c' [_ <-]%fc_assert_Ok. reflexivity. Qed.
Lemma leads_throw_if b e : leads R (throw_if b e).
Proof. intros c u c' [_ <-]%throw_if_Ok. reflexivity. Qed.
Lemma leads_valid_or {A} (o : option A) e : leads R (valid_or o e).
Proof. intros c u c' [_ <-]%valid_or_Ok. reflexivity. Qed.
Lemma leads_bind {A B} (m : E A) (k : A -> E B) :
  leads R m -> (forall a, leads R (k a)) -> leads R (bind m k).
Proof.
  intros Hm Hk c b c' (a & c1 & R1 & R2)%bind_Ok.
  etransitivity; [eapply Hm, R1 | eapply Hk, R2].
Qed.
Lemma leads_when b (m : E unit) : leads R m -> leads R (when b m).
Proof. destruct b; [easy | intros; apply leads_ret]. Qed.
Lemma leads_if {A} (b : bool) (m1 m2 : E A) :
  leads R m1 -> leads R m2 -> leads R (if b then m1 else m2).
Proof. now destruct b. Qed.
Lemma leads_forM {A} (l : list A) (body : A -> E unit) :
  (forall a, leads R (body a)) -> leads R (forM l body).
Proof. intros Hb. induction l; cbn [for_each]; [apply leads_ret | now apply leads_bind]. Qed.
Lemma leads_on_ev f :
  (forall c, R c (mkEvalContext (f (ev c)) (current_state c))) -> leads R (on_ev f).
Proof. intros Hf c u c' <-%on_ev_Ok. apply Hf. Qed.
End Leads.

Create HintDb leads.
#[export] Hint Resolve calm_preorder : leads.
#[export] Hint Resolve leads_ret leads_throw leads_gets leads_view leads_member leads_lift
  leads_assert leads_throw_if leads_valid_or leads_bind leads_when leads_if leads_forM : leads.
#[export] Hint Extern 4 (leads _ (match ?x with _ => _ end)) => destruct x : leads.

Ltac head_of m := lazymatch m with ?f _ => head_of f | _ => m end.

(** [walk prim]: a program leads along a preorder when its primitives do. *)
Ltac walk prim :=
  cbv beta zeta;
  lazymatch goal with
  | |- PreOrder _ => apply _
  | |- forall _, _ => intros; walk prim
  | |- leads _ (bind _ _) => apply leads_bind; walk prim
  | |- leads _ (ret _) => apply leads_ret; apply _
  | |- leads _ (throw _) => apply leads_throw
  | |- leads _ (gets _) => apply leads_gets; apply _
  | |- leads _ (view _) => apply leads_view; apply _
  | |- leads _ (member _) => apply leads_member; apply _
  | |- leads _ (lift_result _) => apply leads_lift; apply _
  | |- leads _ (fc_assert _) => apply leads_assert; apply _
  | |- leads _ (throw_if _ _) => apply leads_throw_if; apply _
  | |- leads _ (valid_or _ _) => apply leads_valid_or; apply _
  | |- leads _ (when _ _) => apply leads_when; walk prim
  | |- leads _ (if _ then _ else _) => apply leads_if; walk prim
  | |- leads _ (for_each _ _) => apply leads_forM; walk prim
  | |- leads _ (match ?x with _ => _ end) => destruct x; walk prim
  | |- leads _ (on_ev _) => prim
  | |- leads _ (chain _) => prim
  | |- leads _ ?m => let h := head_of m in unfold h; walk prim
  end.

(** A program that only reads. *)
Lemma reads {S A} (m : M (EvalContext S) A) c a c' : leads eq m -> m c = (Ok a, c') -> c = c'.
Proof. intros Hm R. exact (Hm c a c' R). Qed.
Ltac read_run :=
  repeat match goal with
  | R : ?m ?c = (Ok ?a, ?c') |- _ =>
      apply (reads m c a c') in R; [subst | solve [walk fail]]
  end.

(** [ops_inv H] decomposes a successful run of an evaluator. *)
Ltac ops_inv1 H :=
  lazymatch type of H with
  | bind _ _ _ = (Ok _, _) =>
      apply bind_Ok in H;
      let a := fresh "a" in let s := fresh "c" in
      let H1 := fresh "R" in let H2 := fresh "R" in
      destruct H as (a & s & H1 & H2); ops_inv1 H1; ops_inv1 H2
  | view _ _ = (Ok _, _) => apply view_Ok in H; destruct H as [? ?]; subst
  | member _ _ = (Ok _, _) => apply member_Ok in H; destruct H as [? ?]; subst
  | on_ev _ _ = (Ok _, _) => apply on_ev_Ok in H; subst
  | _ => run_inv1 H
  end.
Ltac ops_inv H := cbv beta zeta in H; ops_inv1 H.

(** The same, with assignments to members kept as runs. *)
Ltac steps_inv1 H :=
  lazymatch type of H with
  | bind _ _ _ = (Ok _, _) =>
      apply bind_Ok in H;
      let a := fresh "a" in let s := fresh "c" in
      let H1 := fresh "R" in let H2 := fresh "R" in
      destruct H as (a & s & H1 & H2); steps_inv1 H1; steps_inv1 H2
  | view _ _ = (Ok _, _) => apply view_Ok in H; destruct H as [? ?]; subst
  | member _ _ = (Ok _, _) => apply member_Ok in H; destruct H as [? ?]; subst
  | _ => run_inv1 H
  end.
Ltac steps_inv H := cbv beta zeta in H; steps_inv1 H.
