(* ===== verification/QuietOperations.v ===== *)
(** * Quiet operations

    The stores of each kind of entry as changes of the ledger, and the
    evaluators that leave balances, accounts, assets and the books alone: the
    data operations, and the contract operations of origin transactions, which
    only write a result transaction. *)

From Stdlib Require Import ZArith Lia Bool String.
From stdpp Require Import base gmap strings list sorting.
From S2P Require Import Prelude Asset Entries Names ChainInterface ChainState AssetEntry.
From S2P Require Import EvalState BalanceOperations AccountOperations AssetOperations.
From S2P Require Import DataOperations ContractOperations Evaluate Ledger.

Local Open Scope Z_scope.

Definition ledger_kind (k : EntryKind) : bool :=
  match k with KAccount | KAsset | KBalance | KProperty => true | _ => false end.

(** An implementation keeps the maps of the ledger lawfully. *)
Class LedgerLaws (S : Type) `{ChainInterfaceLaws S} : Prop :=
  ledger_lawful k : ledger_kind k = true -> lawful_kind k = true.

Section Stores.
Context `{ChainParams} {S : Type} `{HI : ChainInterface S} `{HL : !ChainInterfaceLaws S}
  `{LW : !LedgerLaws S}.

Lemma wrote_same_ledger k key o s s' : ledger_kind k = false -> wrote k key o s s' ->
  same_ledger s s'.
Proof.
  intros Hk [_ _ Hw].
  split; intros;
    [apply (Hw KBalance) | apply (Hw KAccount) | apply (Hw KAsset) | apply (Hw KProperty)];
    try (now apply ledger_lawful); intros <-; discriminate.
Qed.

Lemma store_same_ledger k key v s a s' : ledger_kind k = false -> stored_kind k = true ->
  entry_store k key v s = (Ok a, s') -> same_ledger s s'.
Proof.
  intros Hk Hs R. eapply wrote_same_ledger; [exact Hk |].
  eapply entry_store_writing; eassumption.
Qed.

Lemma remove_same_ledger k key s a s' : ledger_kind k = false -> stored_kind k = true ->
  entry_remove k key s = (Ok a, s') -> same_ledger s s'.
Proof.
  intros Hk Hs R. eapply wrote_same_ledger; [exact Hk |].
  eapply entry_remove_writing; eassumption.
Qed.

Lemma lookup_if {A} (o o' : Z -> option A) key v id :
  (key = id -> o' id = v) -> (id <> key -> o' id = o id) ->
  o' id = if id =? key then v else o id.
Proof. destruct (Z.eqb_spec id key); auto. Qed.

Lemma store_balance_Ok b s a s' : store_balance_entry b s = (Ok a, s') -> put_balance b s s'.
Proof.
  intros R. apply (entry_store_writing KBalance) in R as [Hs Hk Hw]; [| reflexivity].
  split; intros.
  - apply (lookup_if (get_balance_entry s) (get_balance_entry s')).
    + intros <-. apply Hs. now apply ledger_lawful.
    + intros Hne. apply Hk; [now apply ledger_lawful | exact Hne].
  - apply (Hw KAccount); [now apply ledger_lawful | discriminate].
  - apply (Hw KAsset); [now apply ledger_lawful | discriminate].
  - apply (Hw KProperty); [now apply ledger_lawful | discriminate].
Qed.
Lemma store_account_Ok b s a s' : store_account_entry b s = (Ok a, s') -> put_account b s s'.
Proof.
  intros R. apply (entry_store_writing KAccount) in R as [Hs Hk Hw]; [| reflexivity].
  split; intros.
  - apply (Hw KBalance); [now apply ledger_lawful | discriminate].
  - apply (lookup_if (get_account_entry s) (get_account_entry s')).
    + intros <-. apply Hs. now apply ledger_lawful.
    + intros Hne. apply Hk; [now apply ledger_lawful | exact Hne].
  - apply (Hw KAsset); [now apply ledger_lawful | discriminate].
  - apply (Hw KProperty); [now apply ledger_lawful | discriminate].
Qed.
Lemma store_asset_Ok b s a s' : store_asset_entry b s = (Ok a, s') -> put_asset b s s'.
Proof.
  intros R. apply (entry_store_writing KAsset) in R as [Hs Hk Hw]; [| reflexivity].
  split; intros.
  - apply (Hw KBalance); [now apply ledger_lawful | discriminate].
  - apply (Hw KAccount); [now apply ledger_lawful | discriminate].
  - apply (lookup_if (get_asset_entry s) (get_asset_entry s')).
    + intros <-. apply Hs. now apply ledger_lawful.
    + intros Hne. apply Hk; [now apply ledger_lawful | exact Hne].
  - apply (Hw KProperty); [now apply ledger_lawful | discriminate].
Qed.
Lemma store_property_Ok id v s a s' : store_property_entry id v s = (Ok a, s') ->
  id <> last_account_id -> same_ledger s s'.
Proof.
  intros R Hne. apply (entry_store_writing KProperty) in R as [Hs Hk Hw]; [| reflexivity].
  split; intros;
    [apply (Hw KBalance) | apply (Hw KAccount) | apply (Hw KAsset) |];
    try (now apply ledger_lawful); try discriminate.
  apply Hk; [now apply ledger_lawful | congruence].
Qed.
End Stores.

(** ** Quiet primitives *)

Section Quiet.
Context `{ChainParams} {S : Type} `{HI : ChainInterface S} `{HL : !ChainInterfaceLaws S}
  `{LW : !LedgerLaws S}.
Abbreviation E := (M (EvalContext S)).

Lemma calm_ev (e e' : TransactionEvaluationState) (s : S) :
  same_books e e' -> keys_grow e e' -> calm (mkEvalContext e s) (mkEvalContext e' s).
Proof. intros. split; [reflexivity | assumption | assumption]. Qed.

Lemma same_books_eq e e' : es_balance e' = es_balance e -> withdraws e' = withdraws e ->
  deposits e' = deposits e -> same_books e e'.
Proof. intros E1 E2 E3. split; rewrite ?E1, ?E2, ?E3; [apply plus_at_refl .. | auto]. Qed.

Lemma calm_on_ev (f : TransactionEvaluationState -> TransactionEvaluationState) :
  (forall e, es_balance (f e) = es_balance e) -> (forall e, withdraws (f e) = withdraws e) ->
  (forall e, deposits (f e) = deposits e) -> (forall e, signed_keys e ⊆ signed_keys (f e)) ->
  (forall e, skip_signature_check (f e) = skip_signature_check e) ->
  leads (S := S) calm (on_ev f).
Proof.
  intros. apply leads_on_ev. intros [e s]. apply calm_ev; [now apply same_books_eq | now split].
Qed.

Lemma calm_chain {A} (m : M S A) :
  (forall s a s', m s = (Ok a, s') -> same_ledger s s') -> leads calm (chain m).
Proof.
  intros Hm c a c' (s' & R & <-)%chain_Ok. split; [eapply Hm, R | reflexivity | reflexivity].
Qed.

Lemma calm_store k key v : ledger_kind k = false -> stored_kind k = true ->
  leads calm (chain (S := S) (entry_store k key v)).
Proof. intros. apply calm_chain. intros. eapply store_same_ledger; eassumption. Qed.
Lemma calm_remove k key : ledger_kind k = false -> stored_kind k = true ->
  leads calm (chain (S := S) (entry_remove k key)).
Proof. intros. apply calm_chain. intros. eapply remove_same_ledger; eassumption. Qed.
End Quiet.

#[export] Hint Extern 3 (leads calm (on_ev _)) =>
  apply calm_on_ev; intros; first [reflexivity | set_solver] : leads.
#[export] Hint Extern 3 (leads calm (chain (store_slate_entry _))) =>
  apply (calm_store KSlate); reflexivity : leads.
#[export] Hint Extern 3 (leads calm (chain (store_contract_entry _))) =>
  apply (calm_store KContract); reflexivity : leads.
#[export] Hint Extern 3 (leads calm (chain (remove_contract_entry _))) =>
  apply (calm_remove KContract); reflexivity : leads.
#[export] Hint Extern 3 (leads calm (chain (store_contractstorage_entry _))) =>
  apply (calm_store KStorage); reflexivity : leads.
#[export] Hint Extern 3 (leads calm (chain (store_transaction _ _))) =>
  apply (calm_store KTransaction); reflexivity : leads.
#[export] Hint Extern 3 (leads calm (chain (entry_store _ _ _))) =>
  apply calm_store; reflexivity : leads.

Section QuietOperations.
Context `{ChainParams} {S : Type} `{HI : ChainInterface S} `{HL : !ChainInterfaceLaws S}
  `{LW : !LedgerLaws S} `{VM : GluaVM S}.
Abbreviation E := (M (EvalContext S)).
Abbreviation quiet m := (leads (S := S) calm m).

Lemma vote_for_quiet amount id : quiet (vote_for amount id).
Proof. unfold vote_for. auto 20 with leads. Qed.
#[local] Hint Resolve vote_for_quiet : leads.

Lemma adjust_vote_quiet slate amount : quiet (adjust_vote slate amount).
Proof. unfold adjust_vote. auto 20 with leads. Qed.
Lemma adjust_balance_vote_quiet c amount : quiet (adjust_balance_vote c amount).
Proof. apply leads_when; [apply _ | apply adjust_vote_quiet]. Qed.
Lemma require_fees_quiet fee : quiet (require_fees fee).
Proof. unfold require_fees. auto 20 with leads. Qed.
Lemma recover_quiet digest sigs : quiet (recover_signed_keys digest sigs).
Proof. unfold recover_signed_keys. auto 20 with leads. Qed.
#[local] Hint Resolve adjust_vote_quiet require_fees_quiet recover_quiet : leads.

Lemma define_slate_quiet o : quiet (define_slate_evaluate o).
Proof. unfold define_slate_evaluate. auto 20 with leads. Qed.
Lemma imessage_memo_quiet o : quiet (imessage_memo_evaluate o).
Proof. unfold imessage_memo_evaluate. auto 20 with leads. Qed.
Lemma event_quiet o : quiet (event_evaluate o).
Proof. unfold event_evaluate. auto 20 with leads. Qed.
Lemma storage_quiet o : quiet (storage_evaluate o).
Proof. unfold storage_evaluate. auto 20 with leads. Qed.
Lemma on_upgrade_quiet o : quiet (on_upgrade_evaluate o).
Proof. unfold on_upgrade_evaluate. auto 20 with leads. Qed.
Lemma contract_info_quiet o : quiet (contract_info_evaluate o).
Proof. unfold contract_info_evaluate. auto 20 with leads. Qed.

(** *** Contract operations of origin transactions *)

Lemma push_result_quiet op : quiet (push_result op).
Proof. unfold push_result, result_operations. auto 20 with leads. Qed.
Lemma push_origin_quiet : quiet push_origin.
Proof. unfold push_origin. auto 20 using push_result_quiet with leads. Qed.
Lemma restart_result_quiet : quiet restart_result.
Proof.
  unfold restart_result, result_operations. auto 20 using push_origin_quiet with leads.
Qed.
Lemma copy_expiration_quiet : quiet copy_expiration.
Proof. unfold copy_expiration. auto 20 with leads. Qed.
Lemma no_result_yet_quiet : quiet no_result_yet.
Proof. unfold no_result_yet. auto 20 with leads. Qed.
#[local] Hint Resolve push_result_quiet push_origin_quiet restart_result_quiet
  copy_expiration_quiet no_result_yet_quiet : leads.

Lemma charge_operator_quiet balances required : quiet (charge_operator balances required).
Proof. unfold charge_operator. auto 20 with leads. Qed.
Lemma withdraw_margin_quiet m : quiet (withdraw_margin m).
Proof. unfold withdraw_margin. auto 20 with leads. Qed.
Lemma deposit_to_owner_quiet owner amount : quiet (deposit_to_owner owner amount).
Proof. unfold deposit_to_owner. auto 20 with leads. Qed.
Lemma finished_cost_quiet executed limit : quiet (finished_cost executed limit).
Proof. unfold finished_cost. auto 20 with leads. Qed.
Lemma on_run_out_quiet m : quiet m -> quiet (on_run_out m).
Proof. unfold on_run_out. auto 20 with leads. Qed.
Lemma on_contract_error_quiet m : quiet m -> quiet (on_contract_error m).
Proof. unfold on_contract_error. auto 20 with leads. Qed.
Lemma unless_testing_quiet m : quiet m -> quiet (unless_testing m).
Proof. unfold unless_testing. auto 20 with leads. Qed.
Lemma charge_failed_run_quiet balances executed fee :
  quiet (charge_failed_run balances executed fee).
Proof. unfold charge_failed_run, result_operations. auto 20 with leads. Qed.
Lemma charge_run_out_quiet balances required fee : quiet (charge_run_out balances required fee).
Proof. unfold charge_run_out. auto 20 with leads. Qed.
Lemma checked_amount_quiet balances addr : quiet (checked_amount balances addr).
Proof. unfold checked_amount, check_balances. auto 20 with leads. Qed.
Lemma margin_balance_quiet id : quiet (margin_balance id).
Proof. unfold margin_balance. auto 20 with leads. Qed.
Lemma origin_operation_quiet fee : quiet (origin_operation fee).
Proof. unfold origin_operation. auto 20 with leads. Qed.
Lemma owner_signed_quiet entry : quiet (owner_signed entry).
Proof. unfold owner_signed. auto 20 with leads. Qed.
Lemma execute_contract_quiet limit prepare call finish check :
  quiet prepare -> quiet finish -> quiet (execute_contract limit prepare call finish check).
Proof. unfold execute_contract. intros. cbv zeta. auto 20 with leads. Qed.
#[local] Hint Resolve charge_operator_quiet withdraw_margin_quiet deposit_to_owner_quiet
  finished_cost_quiet on_run_out_quiet on_contract_error_quiet unless_testing_quiet
  charge_failed_run_quiet charge_run_out_quiet checked_amount_quiet margin_balance_quiet
  origin_operation_quiet owner_signed_quiet execute_contract_quiet : leads.

Lemma upgrade_contract_quiet o : quiet (upgrade_contract_evaluate o).
Proof. unfold upgrade_contract_evaluate. cbv zeta. auto 60 with leads. Qed.
Lemma destroy_contract_quiet o : quiet (destroy_contract_evaluate o).
Proof. unfold destroy_contract_evaluate. cbv zeta. auto 60 with leads. Qed.
Lemma register_contract_quiet o : quiet (register_contract_evaluate o).
Proof. unfold register_contract_evaluate, check_balances. cbv zeta. auto 60 with leads. Qed.
Lemma call_contract_quiet o : quiet (call_contract_evaluate o).
Proof. unfold call_contract_evaluate, result_operations. cbv zeta. auto 60 with leads. Qed.

End QuietOperations.
