(* ===== verification/Refinement.v ===== *)
(** * The evaluators refine the ledger

    Each evaluate member that moves shares, when it succeeds, is a sequence of
    the effects of Ledger.v; then whole transactions. *)

From Stdlib Require Import ZArith Lia Bool String.
From stdpp Require Import base gmap strings list sorting.
From S2P Require Import Prelude Asset Entries Names ChainInterface ChainState AssetEntry.
From S2P Require Import EvalState BalanceOperations AccountOperations AssetOperations.
From S2P Require Import DataOperations ContractOperations Evaluate Ledger QuietOperations.

Local Open Scope Z_scope.

#[export] Hint Resolve vote_for_quiet adjust_vote_quiet adjust_balance_vote_quiet require_fees_quiet
  recover_quiet push_result_quiet push_origin_quiet restart_result_quiet copy_expiration_quiet
  no_result_yet_quiet charge_operator_quiet finished_cost_quiet on_run_out_quiet
  on_contract_error_quiet unless_testing_quiet charge_failed_run_quiet charge_run_out_quiet
  checked_amount_quiet origin_operation_quiet : leads.

(** [calm_of R]: the run [R] of a quiet program is [calm]. *)
Ltac calm_of R :=
  lazymatch type of R with
  | ?m ?c = (Ok ?a, ?c') =>
      let C := fresh "C" in
      assert (leads calm m) as C by auto 40 with leads;
      specialize (C c a c' R); clear R; destruct C
  end.
(** Composition along the contexts of a run. *)
Ltac along_run :=
  first [eassumption | reflexivity | etransitivity; [eassumption | along_run]].
Ltac books_run :=
  first [eassumption
        | eapply same_booked; [eassumption | books_run]
        | eapply booked_same; [eassumption | along_run]].
Ltac put_run :=
  first [eassumption
        | eapply same_put_balance; [eassumption | put_run]
        | eapply same_put_account; [eassumption | put_run]
        | eapply same_put_asset; [eassumption | put_run]
        | eapply put_balance_same; [eassumption | along_run]
        | eapply put_account_same; [eassumption | along_run]
        | eapply put_asset_same; [eassumption | along_run]].

(** ** Operations with an effect *)

Section Operations.
Context `{ChainParams} {S : Type} `{HI : ChainInterface S} `{HL : !ChainInterfaceLaws S}
  `{LW : !LedgerLaws S} `{VM : GluaVM S}.
Abbreviation E := (M (EvalContext S)).

Lemma at0_set_range m id v i : (in_i64 (at0 m id) -> in_i64 v) ->
  in_i64 (at0 m i) -> in_i64 (at0 (<[id := v]> (touch id m)) i).
Proof.
  intros Hv. rewrite at0_insert, at0_touch. destruct (Z.eqb_spec i id) as [-> |]; auto.
Qed.

Lemma at0_set_plus m id v amt : v = at0 m id + amt -> plus_at id amt m (<[id := v]> (touch id m)).
Proof.
  intros -> i. rewrite at0_insert, at0_touch. destruct (Z.eqb_spec i id); subst; lia.
Qed.

Lemma add_balance_Ok a (c : EvalContext S) u c' : add_balance a c = (Ok u, c') ->
  same_ledger (current_state c) (current_state c') /\
  booked_in (asset_id a) (amount a) (ev c) (ev c') /\ keys_grow (ev c) (ev c').
Proof.
  intros R. unfold add_balance in R. ops_inv R. cbn in *.
  split; [reflexivity | split; [| now split]]. split; cbn.
  - apply at0_set_plus. rewrite <- (at0_touch (asset_id a)). now apply safe_add_val.
  - apply at0_set_plus. rewrite <- (at0_touch (asset_id a)). now apply safe_add_val.
  - apply plus_at_refl.
  - intros i. apply at0_set_range. rewrite <- (at0_touch (asset_id a)).
    intros Hr. eapply safe_add_range; eassumption.
Qed.

Lemma sub_balance_Ok a (c : EvalContext S) u c' : sub_balance a c = (Ok u, c') ->
  same_ledger (current_state c) (current_state c') /\
  booked_out (asset_id a) (amount a) (ev c) (ev c') /\ keys_grow (ev c) (ev c').
Proof.
  intros R. unfold sub_balance in R. ops_inv R. cbn in *.
  split; [reflexivity | split; [| now split]]. split; cbn.
  - apply at0_set_plus. rewrite <- (at0_touch (asset_id a)).
    match goal with H : safe_sub _ _ = _ |- _ => apply safe_sub_val in H; lia end.
  - apply plus_at_refl.
  - apply at0_set_plus. rewrite <- (at0_touch (asset_id a)). now apply safe_add_val.
  - auto.
Qed.

Lemma chain_balance_Ok b (c : EvalContext S) u c' :
  chain (store_balance_entry b) c = (Ok u, c') ->
  put_balance b (current_state c) (current_state c') /\
  same_books (ev c) (ev c') /\ keys_grow (ev c) (ev c').
Proof.
  intros (s' & R & <-)%chain_Ok.
  split; [eapply store_balance_Ok, R | split; reflexivity].
Qed.
Lemma chain_account_Ok b (c : EvalContext S) u c' :
  chain (store_account_entry b) c = (Ok u, c') ->
  put_account b (current_state c) (current_state c') /\
  same_books (ev c) (ev c') /\ keys_grow (ev c) (ev c').
Proof.
  intros (s' & R & <-)%chain_Ok.
  split; [eapply store_account_Ok, R | split; reflexivity].
Qed.
Lemma chain_asset_Ok b (c : EvalContext S) u c' :
  chain (store_asset_entry b) c = (Ok u, c') ->
  put_asset b (current_state c) (current_state c') /\
  same_books (ev c) (ev c') /\ keys_grow (ev c) (ev c').
Proof.
  intros (s' & R & <-)%chain_Ok.
  split; [eapply store_asset_Ok, R | split; reflexivity].
Qed.

(** Composition of the pieces of one effect. *)
Lemma effect_after result n c c1 c' :
  calm c c1 -> steps result n c1 c' -> steps result n c c'.
Proof. intros Hc Hs. apply (steps_trans result 0 n c c1 c'); [now apply calm_steps | exact Hs]. Qed.

Lemma quiet_first {A B} result n (m : E A) (k : A -> E B) :
  leads calm m -> (forall a, leads (steps result n) (k a)) -> leads (steps result n) (bind m k).
Proof.
  intros Hm Hk c b c' (a & c1 & R1 & R2)%bind_Ok.
  eapply effect_after; [eapply Hm, R1 | eapply Hk, R2].
Qed.

End Operations.

(** The pieces of a decomposed run. *)
Ltac run_pieces :=
  repeat match goal with
  | H : safe_add _ _ = Ok _ |- _ => apply safe_add_val in H; subst
  | H : safe_sub _ _ = Ok _ |- _ => apply safe_sub_val in H; subst
  | H : add_balance _ _ = (Ok _, _) |- _ => apply add_balance_Ok in H as (? & ? & ?)
  | H : sub_balance _ _ = (Ok _, _) |- _ => apply sub_balance_Ok in H as (? & ? & ?)
  | H : chain (store_balance_entry _) _ = (Ok _, _) |- _ =>
      apply chain_balance_Ok in H as (? & ? & ?)
  | H : chain (store_account_entry _) _ = (Ok _, _) |- _ =>
      apply chain_account_Ok in H as (? & ? & ?)
  | H : chain (store_asset_entry _) _ = (Ok _, _) |- _ =>
      apply chain_asset_Ok in H as (? & ? & ?)
  | H : ?m ?c = (Ok ?a, ?c') |- _ => calm_of H
  end; to_prop.

Ltac split_run c1 :=
  lazymatch goal with |- steps ?r ?n ?c ?c' => apply (steps_trans r 0 n c c1 c') end.

(** The premises of an effect that the run gives. *)
Ltac effect_run :=
  try lazymatch goal with
      | |- put_balance _ _ _ => put_run
      | |- put_account _ _ _ => put_run
      | |- put_asset _ _ _ => put_run
      end;
  try eassumption;
  try lazymatch goal with
      | |- booked_in _ _ _ _ => books_run
      | |- booked_out _ _ _ _ => books_run
      | |- same_books _ _ => along_run
      | |- same_ledger _ _ => along_run
      end;
  try (cbn; reflexivity).

Section Steps.
Context `{ChainParams} {S : Type} `{HI : ChainInterface S} `{HL : !ChainInterfaceLaws S}
  `{LW : !LedgerLaws S} `{VM : GluaVM S}.
Abbreviation E := (M (EvalContext S)).

Lemma withdraw_steps o : leads (S := S) (steps false 0) (withdraw_evaluate o).
Proof.
  intros c u c' R. unfold withdraw_evaluate in R. steps_inv R.
  match goal with H : withdraw_authorized _ _ _ = Ok ?a |- _ => destruct a end.
  run_pieces. apply steps_once. split; [along_run |].
  eapply eff_withdraw with (amt := wd_amount o); effect_run. lia.
Qed.

Lemma deposit_steps o : leads (S := S) (steps false 0) (deposit_evaluate o).
Proof.
  intros c u c' R. unfold deposit_evaluate in R. steps_inv R. run_pieces.
  match goal with H : context [default ?d (get_balance_entry (current_state ?c1) ?k)] |- _ =>
    set (b := default d (get_balance_entry (current_state c1) k)) in *;
    split_run c1; [apply calm_steps; now split |]
  end.
  apply steps_once. split; [along_run |].
  eapply eff_deposit with (c := dep_condition o) (b := b) (amt := dep_amount o); effect_run.
Qed.

Lemma withdraw_contract_steps o : leads (S := S) (steps true 0) (withdraw_contract_evaluate o).
Proof.
  intros c u c' R. unfold withdraw_contract_evaluate in R. steps_inv R.
  match goal with H : match get_balance_entry ?s ?k with _ => _ end ?c1 = (Ok ?b, ?c2) |- _ =>
    assert (c2 = c1 /\ (get_balance_entry s k = Some b \/
      get_balance_entry s (balance_id b) = None /\ balance b = 0 /\
      depositable (condition b) = true)) as [-> Hb]
  end.
  { match goal with H : match get_balance_entry ?s ?k with _ => _ end _ = _ |- _ =>
      destruct (get_balance_entry s k) eqn:Eb; steps_inv H; [now auto |] end.
    to_prop. split; [reflexivity | right; split; [| now split]].
    rewrite <- Eb. f_equal. symmetry.
    match goal with Hid : wdc_balance_id o = _ |- _ => exact Hid end. }
  match goal with H : match _ with Some _ => _ | None => _ end _ = _ |- _ => clear H end.
  run_pieces. apply steps_once. split; [along_run |].
  match goal with Hb : booked_in _ _ _ _, Ha : cond_asset_id _ = 0 |- _ =>
    cbn in Hb; rewrite Ha in Hb end.
  eapply eff_contract_withdraw with (amt := wdc_amount o) (k := wdc_balance_id o); effect_run.
Qed.

Lemma spendable_Ok e db addr item b : spendable_by_operator (S := S) e db addr item = Ok b ->
  get_balance_entry db (fst item) = Some b /\ cond_asset_id (condition b) = 0 /\
  0 < snd item <= amount (get_spendable_balance b).
Proof.
  unfold spendable_by_operator. destruct (snd item <=? 0) eqn:E0; [discriminate |].
  destruct (get_balance_entry db (fst item)) as [cur |]; [| discriminate].
  intros ([] & Ha & Hr)%result_bind_Ok. unfold result_assert in Ha.
  destruct (_ =? 0) eqn:E1; [| discriminate].
  destruct (_ <? snd item) eqn:E2; [discriminate |].
  destruct (get_asset_entry _ _); [| discriminate].
  apply result_bind_Ok in Hr as (? & _ & [= <-]). to_prop. auto.
Qed.

Lemma balance_withdraw_steps item : leads (S := S) (steps true 0) (balance_withdraw item).
Proof.
  intros c u c' R. unfold balance_withdraw in R. steps_inv R.
  match goal with H : spendable_by_operator _ _ _ _ = _ |- _ =>
    apply spendable_Ok in H as (Hk & Ha & Hs) end.
  run_pieces. apply steps_once. split; [along_run |].
  match goal with Hb : booked_in _ _ _ _ |- _ => cbn in Hb; rewrite Ha in Hb end.
  eapply eff_contract_withdraw with (amt := snd item) (k := fst item); effect_run.
  left. eassumption.
Qed.

Lemma steps_preorder result : PreOrder (steps (S := S) result 0).
Proof. split; [constructor |]. intros a b c. apply (steps_trans result 0 0). Qed.
#[local] Hint Resolve steps_preorder : leads.

Lemma leads_calm {A} result (m : E A) : leads calm m -> leads (steps result 0) m.
Proof. intros Hm c a c' R. apply calm_steps. eapply Hm, R. Qed.

Lemma balances_withdraw_steps o :
  leads (S := S) (steps true 0) (balances_withdraw_evaluate o).
Proof.
  unfold balances_withdraw_evaluate.
  auto 20 using balance_withdraw_steps, leads_calm with leads.
Qed.

Lemma deposit_contract_steps o : leads (S := S) (steps true 0) (deposit_contract_evaluate o).
Proof.
  intros c u c' R. unfold deposit_contract_evaluate in R. steps_inv R.
  match goal with H : context [match get_balance_entry ?s ?k with Some b => b | None => ?d end] |- _ =>
    set (b := match get_balance_entry s k with Some b => b | None => d end) in *;
    assert (get_balance_entry s k = Some b \/
            get_balance_entry s k = None /\ balance b = 0 /\
            condition b = depc_condition o) as Hb
      by (subst b; destruct (get_balance_entry s k); [now left | right];
          destruct (cond_type _ =? _); now split)
  end.
  run_pieces. apply steps_once. split; [along_run |].
  eapply eff_contract_deposit with (c := depc_condition o) (b := b) (amt := depc_amount o);
    effect_run.
Qed.

Lemma on_destroy_steps o : leads (S := S) (steps true 0) (on_destroy_evaluate o).
Proof.
  intros c u c' R. unfold on_destroy_evaluate in R. steps_inv R.
  match goal with H : chain (store_contract_entry _) ?c1 = _ |- _ =>
    calm_of H; split_run c1; [| apply calm_steps; now split] end.
  match goal with H : match ?x with _ => _ end _ = _ |- _ =>
    destruct x as [b |] eqn:Eb; steps_inv H; [| apply steps_refl] end.
  match goal with H : chain (store_balance_entry (set_balance 0 b)) _ = (_, ?c1) |- _ =>
    split_run c1 end;
    run_pieces; apply steps_once; (split; [along_run |]).
  - eapply eff_contract_close; effect_run.
  - match goal with H : context [default ?d (get_balance_entry ?s ?k)] |- _ =>
      set (b' := default d (get_balance_entry s k)) in *;
      assert (get_balance_entry s k = Some b' \/ get_balance_entry s k = None /\
              balance b' = 0 /\ condition b' = condition d) as Hb
        by (subst b'; destruct (get_balance_entry s k); [now left | now right])
    end.
    eapply eff_contract_deposit with (b := b'); effect_run.
Qed.

Lemma withdraw_pay_steps o : leads (S := S) (steps false 0) (withdraw_pay_evaluate o).
Proof.
  intros c u c' R. unfold withdraw_pay_evaluate in R. steps_inv R. run_pieces.
  apply steps_once. split; [along_run |].
  match goal with H : account_has_signed _ _ = Ok ?a |- _ => assert (a = true) as -> by assumption end.
  eapply eff_pay with (amt := wp_amount o); effect_run. lia.
Qed.

Lemma issue_asset_steps o : leads (S := S) (steps false 0) (issue_asset_evaluate o).
Proof.
  intros c u c' R. unfold issue_asset_evaluate in R. steps_inv R. run_pieces.
  apply steps_once. split; [along_run |].
  eapply eff_issue with (amt := amount (issue_amount o)) (id := asset_id (issue_amount o));
    effect_run.
Qed.

Ltac split_refl := do 3 (split; [reflexivity |]).

Lemma require_fees_Ok fee (c : EvalContext S) u c' : require_fees fee c = (Ok u, c') ->
  current_state c' = current_state c /\ same_books (ev c) (ev c') /\ keys_grow (ev c) (ev c').
Proof.
  intros R. unfold require_fees in R. ops_inv R. cbn.
  split; [reflexivity | split; [now apply same_books_eq | now split]].
Qed.

Lemma new_asset_id_Ok s id s' : new_asset_id (S := S) s = (Ok id, s') ->
  same_ledger s s' /\ exists last, last_asset_id_of s = Ok last /\ id = wrap_i32 (last + 1).
Proof.
  intros R. unfold new_asset_id in R. run_inv R.
  split; [eapply store_property_Ok; [eassumption | discriminate] | eauto].
Qed.

Lemma new_account_id_Ok s id s' : new_account_id (S := S) s = (Ok id, s') ->
  exists last, last_account_id_of s = Ok last /\ id = wrap_i32 (last + 1) /\
    last_account_id_of s' = Ok id /\
    (forall k, get_balance_entry s' k = get_balance_entry s k) /\
    (forall k, get_account_entry s' k = get_account_entry s k) /\
    (forall k, get_asset_entry s' k = get_asset_entry s k).
Proof.
  intros R. unfold new_account_id in R. run_inv R.
  match goal with H : store_property_entry _ _ _ = _ |- _ =>
    apply (entry_store_writing KProperty) in H as [Hs _ Hw]; [| reflexivity] end.
  eexists. split; [eassumption | split; [reflexivity | split]].
  - unfold last_account_id_of, property_or, get_property_entry, entry_lookup.
    rewrite Hs by now apply ledger_lawful. reflexivity.
  - split; [| split]; intros; [apply (Hw KBalance) | apply (Hw KAccount) | apply (Hw KAsset)];
      try (now apply ledger_lawful); discriminate.
Qed.

Lemma create_asset_steps o : leads (S := S) (steps false 0) (create_asset_evaluate o).
Proof.
  intros c u c' R. unfold create_asset_evaluate in R. steps_inv R.
  match goal with H : (if ?b then _ else _) ?c1 = (_, ?c2) |- _ =>
    assert (c2 = c1) as -> by (destruct b; steps_inv H; reflexivity); clear H end.
  match goal with H : require_fees _ _ = _ |- _ => apply require_fees_Ok in H as (Es & Hb & Hk) end.
  match goal with H : chain new_asset_id _ = _ |- _ =>
    apply chain_Ok in H as (s1 & H & <-); apply new_asset_id_Ok in H as (Hsame & last & Hl & ->) end.
  rewrite Es in *.
  match goal with H : last_asset_id_of _ = Ok ?l |- _ => assert (last = l) as -> by congruence end.
  run_pieces. cbn [ev current_state] in *. apply steps_once. split; [along_run |].
  eapply eff_create; effect_run; cbn.
  - match goal with H : is_some ?x = false |- ?x = None => now destruct x end.
  - unfold valid_max_supply in *. to_prop. lia.
Qed.

Lemma permitted_refl p : permitted p p = true.
Proof.
  apply forallb_forall. intros x _. destruct (has_flag p x); reflexivity.
Qed.

Lemma update_asset_fields_Ok o a a' : update_asset_fields o a = Ok a' ->
  ast_id a' = ast_id a /\ current_share_supply a' = current_share_supply a /\
  collected_fees a' = collected_fees a /\ flags a' = flags a /\
  issuer_permissions a' = issuer_permissions a /\
  (ua_precision o = None -> precision a' = precision a) /\
  (ua_maximum_share_supply o = None -> maximum_share_supply a' = maximum_share_supply a).
Proof.
  unfold update_asset_fields. intros (a1 & R1 & R2)%result_bind_Ok.
  apply result_bind_Ok in R2 as (a2 & R2 & R3).
  destruct (ua_name o); [destruct (String.eqb _ _); [discriminate |] |]; injection R1 as <-;
    destruct (ua_description o), (ua_public_data o);
    (destruct (ua_maximum_share_supply o); [destruct (valid_max_supply _); [| discriminate] |]);
    injection R2 as <-;
    (destruct (ua_precision o); [destruct (is_power_of_ten _); [| discriminate] |]);
    injection R3 as <-; cbn; repeat split; congruence.
Qed.

Lemma update_asset_steps o : leads (S := S) (steps false 0) (update_asset_evaluate o).
Proof.
  intros c u c' R. unfold update_asset_evaluate in R. steps_inv R.
  match goal with H : update_asset_fields _ _ = _ |- _ =>
    apply update_asset_fields_Ok in H as (? & ? & ? & Hf & Hp & Hpr & Hm) end.
  match goal with H : when (0 <? ?x) _ ?c1 = (_, ?c2) |- _ =>
    assert (c2 = c1 /\ (0 < x -> ua_maximum_share_supply o = None /\ ua_precision o = None))
      as [-> Hs] end.
  { match goal with H : when ?b _ _ = _ |- _ => destruct b eqn:Eb; cbn [when] in H; steps_inv H end;
      [| split; [reflexivity | to_prop; lia]].
    split; [reflexivity |]. intros _.
    now destruct (ua_maximum_share_supply o), (ua_precision o). }
  match goal with H : when _ _ _ = _ |- _ => clear H end.
  run_pieces. apply steps_once. split; [along_run |].
  eapply eff_asset; effect_run.
  split; cbn; auto; try congruence; intros; destruct (Hs ltac:(assumption)); auto.
  rewrite Hp. apply permitted_refl.
Qed.

Lemma when_assert_Ok b1 b2 (c : EvalContext S) u c' :
  when b1 (fc_assert b2) c = (Ok u, c') -> c' = c /\ (b1 = true -> b2 = true).
Proof. destruct b1; cbn [when]; intros R; steps_inv R; auto. split; [reflexivity | discriminate]. Qed.

Lemma update_asset_ext_steps o : leads (S := S) (steps false 0) (update_asset_ext_evaluate o).
Proof.
  intros c u c' R. unfold update_asset_ext_evaluate in R. steps_inv R.
  match goal with H : update_asset_fields _ _ = _ |- _ =>
    apply update_asset_fields_Ok in H as (Hi & Hsup & ? & Hf & Hp & Hpr & Hm) end.
  match goal with H : when (0 <? ?x) (bind _ _) ?c1 = (_, ?c2) |- _ =>
    assert (c2 = c1 /\ (0 < x -> ua_precision (uae_base o) = None /\
      (has_flag (flags a) supply_unlimit = false ->
       ua_maximum_share_supply (uae_base o) = None))) as [-> Hs];
    [destruct (0 <? x) eqn:Eb; cbn [when] in H; steps_inv H;
       [| split; [reflexivity | to_prop; lia]] | clear H] end.
  { match goal with H : when (negb (has_flag _ _)) _ _ = _ |- _ =>
      apply when_assert_Ok in H as [-> Hu] end.
    split; [reflexivity |]. intros _. split; [now destruct (ua_precision _) |].
    intros Hfl. rewrite Hfl in Hu. specialize (Hu eq_refl).
    now destruct (ua_maximum_share_supply _). }
  match goal with H : when (0 <? _) (fc_assert _) _ = _ |- _ =>
    apply when_assert_Ok in H as [-> Hperm] end.
  run_pieces. apply steps_once. split; [along_run |].
  eapply eff_asset; effect_run.
  split; cbn; auto; try congruence.
  - intros Hpos. apply Hpr. now destruct (Hs Hpos).
  - intros Hpos Hfl. apply Hm. destruct (Hs Hpos) as [_ Hmax]. auto.
  - intros Hpos. rewrite <- Hp. apply Hperm. apply Z.ltb_lt. lia.
Qed.

Lemma make_delegate_Ok rate key a (c : EvalContext S) a' c' :
  make_delegate rate key a c = (Ok a', c') ->
  current_state c' = current_state c /\ same_books (ev c) (ev c') /\ keys_grow (ev c) (ev c') /\
  account_id a' = account_id a /\ pay_of a' = 0.
Proof.
  intros R. unfold make_delegate in R. steps_inv R.
  match goal with H : require_fees _ _ = _ |- _ => apply require_fees_Ok in H as (? & ? & ?) end.
  match goal with H : set_signing_key _ _ _ = _ |- _ => unfold set_signing_key in H; cbn in H;
    injection H as <- end.
  auto.
Qed.

Lemma register_account_step o (c : EvalContext S) u c' :
  register_account_evaluate o c = (Ok u, c') -> steps false 1 c c'.
Proof.
  intros R. unfold register_account_evaluate in R. steps_inv R.
  match goal with H : chain new_account_id ?c1 = _ |- steps _ _ ?c ?c' =>
    apply chain_Ok in H as (s1 & H & <-);
    apply new_account_id_Ok in H as (last & Hl & -> & Hl' & Hb & Ha & Has);
    apply (effect_after false 1 c c1 c') end.
  - repeat match goal with H : account_with_key _ _ = _ |- _ =>
      unfold account_with_key in H; steps_inv H end. reflexivity.
  - match goal with H : set_active_key ?n _ _ = Ok ?a |- _ =>
      assert (account_id a = wrap_i32 (last + 1) /\ pay_of a = 0) as [Hid Hpay]
        by (unfold set_active_key in H; destruct (n =? 0); [discriminate |];
            injection H as <-; now split); clear H end.
    match goal with H : (if ?b then _ else _) _ = (Ok ?a, ?c2) |- steps _ _ ?c0 _ =>
      assert (current_state c2 = s1 /\ same_books (ev c0) (ev c2) /\ keys_grow (ev c0) (ev c2) /\
              account_id a = wrap_i32 (last + 1) /\ pay_of a = 0) as (Es & ? & ? & Hid' & Hpay')
        by (destruct b;
            [apply make_delegate_Ok in H as (-> & ? & ? & -> & ->); cbn in *; auto
            | steps_inv H; cbn; split_refl; auto]); clear H end.
    run_pieces. rewrite Es in *.
    match goal with H : put_account ?a _ _ |- _ =>
      econstructor 3; [exists a, last, s1 | apply steps_refl] end.
    assert (last_account_id_of (current_state c') = Ok (account_id a8)) as Hlast.
    { rewrite Hid', <- Hl'. unfold last_account_id_of, property_or.
      match goal with H : put_account _ _ _ |- _ =>
        pose proof (put_account_last _ _ _ H) as El end.
      unfold last_account in El. now rewrite El. }
    repeat (split; [assumption |]). split; along_run.
Qed.

Lemma update_active_key_Ok o a (c : EvalContext S) a' c' :
  update_active_key o a c = (Ok a', c') ->
  calm c c' /\ account_id a' = account_id a /\ delegate_info a' = delegate_info a.
Proof.
  intros R. split.
  - assert (leads calm (update_active_key (S := S) o a)) as Hq
      by (unfold update_active_key, account_with_key; auto 40 with leads).
    eapply Hq, R.
  - unfold update_active_key in R. steps_inv R.
    assert (forall t k (e : AccountEntry) e', set_active_key t k e = Ok e' ->
              account_id e' = account_id e /\ delegate_info e' = delegate_info e) as Hset.
    { intros t k e e'. unfold set_active_key. destruct (t =? 0); [discriminate |].
      now intros [= <-]. }
    match goal with H : match ?x with _ => _ end _ = _ |- _ => destruct x as [k |]; steps_inv H end;
      [| now split].
    match goal with H : (if ?b then _ else _) _ = _ |- _ => destruct b; steps_inv H end;
      [eapply Hset; eassumption | now split].
Qed.

Lemma update_account_steps o : leads (S := S) (steps false 0) (update_account_evaluate o).
Proof.
  intros c u c' R. unfold update_account_evaluate in R. steps_inv R.
  match goal with H : update_active_key _ _ _ = _ |- _ =>
    apply update_active_key_Ok in H as ([? ? ?] & Hid & Hd) end.
  match goal with H : context [match upd_public_data o with Some d => _ | None => ?a end] |- _ =>
    set (b := match upd_public_data o with Some d => set_account_public_data d a | None => a end) in *;
    assert (account_id b = account_id a /\ delegate_info b = delegate_info a) as [Hid1 Hd1]
      by (subst b; destruct (upd_public_data o); now split) end.
  match goal with H : (if ?x then _ else _) ?c1 = (Ok ?a, ?c2) |- _ =>
    assert (current_state c2 = current_state c1 /\ same_books (ev c1) (ev c2) /\
            keys_grow (ev c1) (ev c2) /\ account_id a = account_id b /\
            pay_of a = pay_of b) as (Es & ? & ? & Hid' & Hpay)
      by (destruct x;
            [destruct (delegate_info b) as [d |] eqn:Ed; steps_inv H;
               [split_refl; unfold pay_of; rewrite Ed; split; reflexivity
               | match goal with Hm : make_delegate _ _ _ _ = _ |- _ =>
                   apply make_delegate_Ok in Hm as (-> & ? & ? & -> & ->) end;
                 unfold pay_of; rewrite Ed; auto 10]
            | steps_inv H; split_refl; split; reflexivity]); clear H end.
  run_pieces. rewrite Es in *. apply steps_once. split; [along_run |].
  match goal with H : put_account ?x _ _ |- _ => eapply eff_account with (a' := x) end;
    effect_run; cbn; [congruence |].
  unfold pay_of in *. cbn. rewrite Hpay, Hd1, Hd. reflexivity.
Qed.

(** The run of on_deposit rewrites the balance of the contract and puts it back. *)
Lemma execute_rewrites limit target amt call check (c : EvalContext S) run c' :
  (exists k, get_balance_entry (current_state c) k = Some target) \/
    get_balance_entry (current_state c) (balance_id target) = None /\ balance target = 0 /\
    depositable (condition target) = true ->
  execute_contract limit (chain (store_balance_entry (set_balance amt target))) call
    (chain (store_balance_entry target)) check c = (Ok run, c') ->
  steps false 0 c c'.
Proof.
  intros Ht R. unfold execute_contract in R. cbv zeta in R.
  match type of R with (if ?b then _ else _) _ = _ => destruct b end;
    steps_inv R; [constructor |].
  match goal with H1 : chain (store_balance_entry (set_balance _ _)) _ = _,
                  H2 : on_ev ?f _ = _,
                  H3 : chain (store_balance_entry target) _ = _ |- _ =>
    apply chain_balance_Ok in H1 as (P1 & ? & ?);
    assert (leads (S := S) calm (on_ev f)) as Hq by (auto with leads);
    apply Hq in H2 as [? ? ?];
    apply chain_balance_Ok in H3 as (P3 & ? & ?) end.
  apply steps_once. split; [along_run |].
  assert (put_balance target (current_state c) (current_state c')) as P.
  { eapply put_balance_twice; [| exact P1 | eapply same_put_balance; eassumption]. reflexivity. }
  destruct Ht as [[k Hk] | Hf].
  - apply eff_rewrite with (k := k) (b := target) (b' := target); auto. along_run.
  - apply eff_rewrite with (k := 0) (b := target) (b' := target); auto. along_run.
Qed.

Lemma transfer_target_Ok id a (c : EvalContext S) target c' :
  transfer_target id a c = (Ok target, c') ->
  c' = c /\ ((exists k, get_balance_entry (current_state c) k = Some target) \/
    get_balance_entry (current_state c) (balance_id target) = None /\ balance target = 0 /\
    depositable (condition target) = true).
Proof.
  intros R. unfold transfer_target in R. steps_inv R.
  match goal with |- context [match ?x with Some b => b | None => _ end] =>
    destruct x eqn:E end; split; try reflexivity; [left; eauto | right].
  split; [exact E | split; reflexivity].
Qed.

Lemma steps_first {A B} result n (m : E A) (k : A -> E B) :
  leads (steps result 0) m -> (forall a, leads (steps result n) (k a)) ->
  leads (steps result n) (bind m k).
Proof.
  intros Hm Hk c b c' (a & c1 & R1 & R2)%bind_Ok.
  apply (steps_trans result 0 n c c1 c'); [eapply Hm, R1 | eapply Hk, R2].
Qed.

Lemma on_deposit_steps id a cost limit call check (k : Execution -> E unit) :
  (forall run, leads calm (k run)) ->
  leads (S := S) (steps false 0)
    (target <- transfer_target id a ;;
     run <- execute_contract limit (chain (store_balance_entry (set_balance (cost target) target)))
              call (chain (store_balance_entry target)) check ;;
     k run).
Proof.
  intros Hk c u c' (target & c1 & [-> Ht]%transfer_target_Ok & R)%bind_Ok.
  apply bind_Ok in R as (run & c2 & R1 & R2).
  apply (steps_trans false 0 0 c c2 c').
  - eapply execute_rewrites; eassumption.
  - apply calm_steps. eapply Hk, R2.
Qed.

Lemma transfer_contract_steps o : leads (S := S) (steps false 0) (transfer_contract_evaluate o).
Proof.
  unfold transfer_contract_evaluate, check_balances. cbv zeta.
  do 12 (apply quiet_first; [auto 40 with leads | intros ?]).
  apply steps_first; [| intros ?; apply leads_calm; auto with leads].
  apply leads_if; [apply leads_calm; auto 40 with leads |].
  apply quiet_first; [auto with leads | intros skip].
  destruct skip; [apply leads_calm; auto with leads |].
  do 2 (apply quiet_first; [auto with leads | intros ?]).
  apply (on_deposit_steps _ _ (fun target => wrap_i64 (balance target + amount (tc_transfer_amount o)))).
  intros run. auto 40 with leads.
Qed.
End Steps.
