(* ===== verification/Transactions.v ===== *)
(** * Transactions refine the ledger

    Operation by operation, then TransactionEvaluationState::evaluate: a
    transaction that succeeds is a sequence of effects, one registration per
    register operation, followed by the settlement of its books unless the
    fee check is put off. *)

From Stdlib Require Import ZArith Lia Bool String.
From stdpp Require Import base gmap strings list sorting.
From S2P Require Import Prelude Asset Entries Names ChainInterface ChainState AssetEntry.
From S2P Require Import EvalState BalanceOperations AccountOperations AssetOperations.
From S2P Require Import DataOperations ContractOperations Evaluate Ledger QuietOperations.
From S2P Require Import Refinement.
Local Open Scope Z_scope.
Section Mode.
Context `{ChainParams} {S : Type} `{HI : ChainInterface S} `{VM : GluaVM S}.
Abbreviation E := (M (EvalContext S)).

(** Only [evaluate] switches the mode. *)
Definition same_mode (c c' : EvalContext S) : Prop :=
  evaluate_contract_result (ev c') = evaluate_contract_result (ev c).
#[export] Instance same_mode_preorder : PreOrder same_mode.
Proof. split; unfold same_mode; [easy | congruence]. Qed.

Lemma chain_mode {A} (m : M S A) : leads same_mode (chain m).
Proof. intros c a c' (s' & _ & <-)%chain_Ok. reflexivity. Qed.
Abbreviation keeps_mode m := (leads (S := S) same_mode m).

#[local] Ltac mode_prim := first [apply chain_mode | apply leads_on_ev; intros; reflexivity].
Lemma plain_mode op : (forall t, op <> OpTransaction t) -> keeps_mode (evaluate_operation op).
Proof.
  intros Hop. destruct op; cbn [evaluate_operation]; 
    try (now destruct (Hop trx)); walk mode_prim.
Qed.
End Mode.

Ltac mode_prim := first [apply chain_mode | apply leads_on_ev; intros; reflexivity].

Definition plain (op : Operation) : Prop := op_type op <> transaction_op_type.
Lemma plain_not_transaction op t : plain op -> op <> OpTransaction t.
Proof. intros Hp ->. now apply Hp. Qed.

Definition registers (op : Operation) : nat :=
  match op with OpRegisterAccount _ => 1 | _ => 0 end.
Definition registrations (ops : list Operation) : nat := sum_list (map registers ops).

(** ** Operations *)

Section Operations.
Context `{ChainParams} {S : Type} `{HI : ChainInterface S} `{HL : !ChainInterfaceLaws S}
  `{LW : !LedgerLaws S} `{VM : GluaVM S}.
Abbreviation E := (M (EvalContext S)).

(** An operation of a result transaction does nothing outside one. *)
Lemma result_only (m : E unit) c u c' e :
  (in_result <- member evaluate_contract_result ;; throw_if (negb in_result) e ;;; m) c = (Ok u, c') ->
  evaluate_contract_result (ev c) = true.
Proof.
  intros R. steps_inv R. now destruct (evaluate_contract_result (ev c)).
Qed.

Lemma plain_steps op (c : EvalContext S) u c' : plain op ->
  evaluate_operation op c = (Ok u, c') ->
  steps (evaluate_contract_result (ev c)) (registers op) c c'.
Proof.
  intros Hp R.
  assert (forall n, steps false n c c' -> steps (evaluate_contract_result (ev c)) n c c') as Hany.
  { intros n. destruct (evaluate_contract_result (ev c)); [apply steps_result | easy]. }
  assert (leads calm (evaluate_operation op) -> steps (evaluate_contract_result (ev c)) 0 c c')
    as Hquiet by (intros Hq; apply calm_steps; eapply Hq, R).
  assert (evaluate_contract_result (ev c) = true -> leads (steps true 0) (evaluate_operation op) ->
          steps (evaluate_contract_result (ev c)) 0 c c') as Hres
    by (intros ->; intros Hq; eapply Hq, R).
  destruct op; cbn [evaluate_operation registers] in *;
    try (apply Hquiet;
         first [apply define_slate_quiet | apply imessage_memo_quiet | apply event_quiet
               | apply storage_quiet | apply on_upgrade_quiet | apply contract_info_quiet
               | apply upgrade_contract_quiet | apply destroy_contract_quiet
               | apply register_contract_quiet | apply call_contract_quiet
               | apply leads_ret; apply _ | apply leads_throw]).
  - eapply Hany, withdraw_steps, R.
  - eapply Hany, deposit_steps, R.
  - eapply Hany, register_account_step, R.
  - eapply Hany, update_account_steps, R.
  - eapply Hany, withdraw_pay_steps, R.
  - eapply Hany, create_asset_steps, R.
  - eapply Hany, update_asset_steps, R.
  - eapply Hany, issue_asset_steps, R.
  - eapply Hany, update_asset_ext_steps, R.
  - eapply Hany, transfer_contract_steps, R.
  - apply Hres; [| apply withdraw_contract_steps]. unfold withdraw_contract_evaluate in R.
    eapply result_only, R.
  - apply Hres; [| apply deposit_contract_steps]. eapply result_only, R.
  - apply Hres; [| apply balances_withdraw_steps]. eapply result_only, R.
  - now destruct (plain_not_transaction _ trx Hp).
  - apply Hres; [| apply on_destroy_steps]. eapply result_only, R.

Qed.
End Operations.

(** ** Settlement *)

Section Settlement.
Context `{ChainParams} {S : Type} `{ChainInterface S}.

(** What is left of each asset is added to its collected fees. *)
Inductive collects : list (Z * Z) -> S -> S -> Prop :=
  | collects_nil s s' : same_ledger s s' -> collects [] s s'
  | collects_none id l s s' : collects l s s' -> collects ((id, 0) :: l) s s'
  | collects_fee id amt l a s s1 s' :
      0 < amt -> get_asset_entry s id = Some a ->
      put_asset (set_collected_fees (collected_fees a + amt) a) s s1 ->
      collects l s1 s' -> collects ((id, amt) :: l) s s'.

(** Accounts are stored anew with their pay as it was. *)
Inductive votes : S -> S -> Prop :=
  | votes_done s s' : same_ledger s s' -> votes s s'
  | votes_account id a a' s s1 s' :
      get_account_entry s id = Some a -> account_id a' = account_id a -> pay_of a' = pay_of a ->
      put_account a' s s1 -> votes s1 s' -> votes s s'.

(** The settlement of the books: the fees are collected, then the accounts of
    delegates get the votes. *)
Definition settled (c c' : EvalContext S) : Prop :=
  exists fees s1,
    plus_at 0 0 (es_balance (ev c)) fees /\
    collects (map_items fees) (current_state c) s1 /\ votes s1 (current_state c') /\
    same_books (ev c) (ev c') /\ keys_grow (ev c) (ev c').
End Settlement.

Section Settle.
Context `{ChainParams} {S : Type} `{HI : ChainInterface S} `{HL : !ChainInterfaceLaws S}
  `{LW : !LedgerLaws S}.

Lemma collect_fees_Ok l (c : EvalContext S) u c' : forM l collect_fee c = (Ok u, c') ->
  collects l (current_state c) (current_state c') /\ ev c' = ev c.
Proof.
  revert c. induction l as [| [id amt] l IH]; intros c R; cbn [for_each] in R.
  - apply ret_Ok in R as [_ <-]. split; [constructor; reflexivity | reflexivity].
  - apply bind_Ok in R as ([] & c1 & R1 & R2). apply IH in R2 as [Hl He].
    unfold collect_fee in R1. apply bind_Ok in R1 as ([] & c2 & [Hneg <-]%throw_if_Ok & R1).
    cbn [fst snd] in *. destruct (0 <? amt) eqn:Epos; cbn [when] in R1.
    + steps_inv R1. to_prop.
      match goal with H : safe_add _ _ = Ok _ |- _ => apply safe_add_val in H; subst end.
      match goal with H : chain _ _ = _ |- _ => apply chain_Ok in H as (s1 & R1 & <-) end.
      apply store_asset_Ok in R1. split; [| exact He]. eapply collects_fee; eassumption.

    + apply ret_Ok in R1 as [_ <-]. to_prop. assert (amt = 0) as -> by lia.
      split; [now constructor | exact He].
Qed.

Lemma votes_run (l : list (Z * Z)) body (c : EvalContext S) u c' :
  (forall item x v y, body item x = (Ok v, y) ->
     ev y = ev x /\ exists id a a', get_account_entry (current_state x) id = Some a /\
       account_id a' = account_id a /\ pay_of a' = pay_of a /\
       put_account a' (current_state x) (current_state y)) ->
  forM l body c = (Ok u, c') -> votes (current_state c) (current_state c') /\ ev c' = ev c.
Proof.
  intros Hbody. revert c. induction l as [| item l IH]; intros c R; cbn [for_each] in R.
  - apply ret_Ok in R as [_ <-]. split; [constructor; reflexivity | reflexivity].
  - apply bind_Ok in R as ([] & c1 & R1 & R2).
    apply Hbody in R1 as (He & id & a & a' & Ha & Hid & Hpay & Hp).
    apply IH in R2 as [Hv He']. split; [econstructor; eassumption | congruence].
Qed.

Lemma update_delegate_votes_Ok (c : EvalContext S) u c' : update_delegate_votes c = (Ok u, c') ->
  votes (current_state c) (current_state c') /\ ev c' = ev c.
Proof.
  intros R. unfold update_delegate_votes in R.
  apply bind_Ok in R as (d & c1 & [<- <-]%member_Ok & R).
  revert R. apply votes_run. intros item x v y R. steps_inv R.
  match goal with H : adjust_votes_for _ _ = Ok ?a' |- _ =>
    assert (account_id a' = account_id a /\ pay_of a' = pay_of a) as [Hid Hpay]
      by (unfold adjust_votes_for, pay_of in *; destruct (delegate_info a); [| discriminate];
          injection H as <-; now split); clear H end.
  match goal with H : chain _ _ = _ |- _ => apply chain_Ok in H as (s1 & Rs & <-) end.
  apply store_account_Ok in Rs. split; [reflexivity |]. eauto 10.
Qed.

Lemma post_evaluate_Ok (c : EvalContext S) u c' : post_evaluate c = (Ok u, c') ->
  exists fees, plus_at 0 0 (es_balance (ev c)) fees /\
    collects (map_items fees) (current_state c) (current_state c') /\
    same_books (ev c) (ev c') /\ keys_grow (ev c) (ev c').
Proof.
  intros R. unfold post_evaluate in R.
  repeat match goal with
  | H : bind _ _ _ = (Ok _, _) |- _ => apply bind_Ok in H as (? & ? & ? & ?)
  | H : on_ev _ _ = _ |- _ => apply on_ev_Ok in H; subst
  | H : member es_balance _ = _ |- _ => apply member_Ok in H as [? ?]; subst
  | H : forM _ collect_fee _ = _ |- _ => apply collect_fees_Ok in H as [Hcol He]
  end.
  read_run. cbn in Hcol, He. eexists. split; [| split; [exact Hcol |]].
  - intros i. rewrite at0_touch. destruct (i =? 0); lia.
  - rewrite He. split; [| now split]. split; cbn; [| apply plus_at_refl .. | auto].
    intros i. rewrite at0_touch. destruct (i =? 0); lia.
Qed.

Lemma settle_Ok (c : EvalContext S) u c' : settle c = (Ok u, c') -> settled c c'.
Proof.
  intros R. unfold settle in R. apply bind_Ok in R as ([] & c1 & R1 & R).
  apply bind_Ok in R as ([] & c2 & R2 & R3). read_run.
  apply post_evaluate_Ok in R1 as (fees & ? & ? & ? & ?).
  apply update_delegate_votes_Ok in R3 as [Hv He].
  exists fees, (current_state c2). rewrite He. auto.
Qed.
End Settle.

(** ** Whole transactions *)

Section Transactions.
Context `{ChainParams} {S : Type} `{HI : ChainInterface S} `{HL : !ChainInterfaceLaws S}
  `{LW : !LedgerLaws S} `{VM : GluaVM S}.
Abbreviation E := (M (EvalContext S)).

Lemma catch_record_Ok {A} trx (m : E A) c a c' :
  catch_record trx m c = (Ok a, c') -> m c = (Ok a, c').
Proof. unfold catch_record. destruct (m c) as [[] ?]; [easy | discriminate]. Qed.

#[local] Ltac calm_prim :=
  first [apply calm_on_ev; intros; first [reflexivity | set_solver]
        | solve [auto with leads]].

(** The parts of evaluate that are quiet and keep the mode. *)
Lemma next_op_calm : leads (S := S) calm next_op.
Proof. walk calm_prim. Qed.
Lemma evaluate_checks_calm trx : leads (S := S) calm (evaluate_checks trx).
Proof. walk calm_prim. Qed.
Lemma evaluate_checks_mode trx : leads (S := S) same_mode (evaluate_checks trx).
Proof. walk mode_prim. Qed.
Lemma store_evaluated_calm : leads (S := S) calm store_evaluated.
Proof. walk calm_prim. Qed.
Lemma signature_fee_calm trx : leads (S := S) calm (signature_fee trx).
Proof. walk calm_prim. Qed.

Lemma evaluate_operations_Ok ops (c : EvalContext S) u c' : Forall plain ops ->
  evaluate_operations evaluate_operation ops c = (Ok u, c') ->
  steps (evaluate_contract_result (ev c)) (registrations ops) c c' /\ same_mode c c'.
Proof.
  intros Hp. revert c. induction Hp as [| op ops Hop Hp IH]; intros c R;
    unfold evaluate_operations in R; cbn [for_each] in R.
  - apply ret_Ok in R as [_ <-]. split; [constructor | reflexivity].
  - apply bind_Ok in R as ([] & c1 & R1 & R2). apply bind_Ok in R1 as ([] & c2 & R0 & R1).
    pose proof (plain_mode op (fun t => plain_not_transaction op t Hop) _ _ _ R0) as Hm.
    assert (same_mode c2 c1) as Hm' by (apply on_ev_Ok in R1 as <-; reflexivity).
    apply plain_steps in R0; [| exact Hop]. apply next_op_calm in R1.
    apply IH in R2 as [Hs Hm2]. rewrite Hm', Hm in Hs.
    split; [| congruence].
    eapply steps_trans; [exact R0 |]. eapply effect_after; eassumption.
Qed.

Lemma same_collects l s s1 s' : same_ledger s s1 -> collects l s1 s' -> collects (S := S) l s s'.
Proof.
  intros Hs Hc. revert s Hs. induction Hc; intros s0 Hs.
  - constructor. etransitivity; eassumption.
  - constructor. auto.
  - econstructor; [assumption | | | eassumption].
    + rewrite <- (same_assets _ _ Hs). eassumption.
    + eapply same_put_asset; eassumption.
Qed.

Lemma votes_same s s1 s' : votes s s1 -> same_ledger s1 s' -> votes (S := S) s s'.
Proof.
  induction 1 as [s s1 Hs1 | id a a' s s2 s1 Ha Hid Hpay Hp _ IH]; intros Hs.
  - constructor. etransitivity; eassumption.
  - exact (votes_account id a a' s s2 s' Ha Hid Hpay Hp (IH Hs)).
Qed.

Lemma calm_settled (c c1 c' : EvalContext S) : calm c c1 -> settled c1 c' -> settled c c'.
Proof.
  intros [Hs Hb Hk] (fees & s1 & Hf & Hc & Hv & Hb2 & Hk2).
  exists fees, s1. split; [| split; [eapply same_collects; eassumption |]].
  - exact (plus_at_trans 0 0 0 _ _ _ (booked_balance _ _ _ _ _ _ Hb) Hf).
  - split; [exact Hv | split]; etransitivity; eassumption.
Qed.
Lemma settled_calm (c c1 c' : EvalContext S) : settled c c1 -> calm c1 c' -> settled c c'.
Proof.
  intros (fees & s1 & Hf & Hc & Hv & Hb2 & Hk2) [Hs Hb Hk].
  exists fees, s1. repeat (split; [assumption |]).
  split; [eapply votes_same; eassumption | split; etransitivity; eassumption].
Qed.

(** How a transaction ends. *)
Definition closes (trx : SignedTransaction) (c c' : EvalContext S) : Prop :=
  if ignores_required_fee trx then calm c c' else settled c c'.
Lemma calm_closes trx (c c1 c' : EvalContext S) : calm c c1 -> closes trx c1 c' -> closes trx c c'.
Proof.
  unfold closes. destruct (ignores_required_fee trx); [| apply calm_settled].
  intros. etransitivity; eassumption.
Qed.
Lemma closes_calm trx (c c1 c' : EvalContext S) : closes trx c c1 -> calm c1 c' -> closes trx c c'.
Proof.
  unfold closes. destruct (ignores_required_fee trx); [| apply settled_calm].
  intros. etransitivity; eassumption.
Qed.

Lemma evaluate_Ok trx ign (c : EvalContext S) u c' :
  evaluate_transaction trx ign c = (Ok u, c') ->
  check_operations_legality trx = true /\
  exists c1 c2 r, calm c c1 /\ same_mode c c1 /\
    evaluate_body evaluate_operation trx c1 = (Ok r, c2) /\
    closes trx c2 c' /\ same_mode c2 c'.
Proof.
  intros R. unfold evaluate_transaction, evaluate in R.
  apply bind_Ok in R as ([] & c0 & R0 & R). apply bind_Ok in R as ([] & c1 & R1 & R).
  apply bind_Ok in R as (r & c2 & R2 & R). apply catch_record_Ok in R1, R2, R.
  split.
  { unfold evaluate_checks, legality_checks in R1. steps_inv R1.
    now destruct (check_operations_legality trx). }
  exists c1, c2, r.
  assert (leads (S := S) calm (on_ev (set_trx trx))) as Hset by walk calm_prim.
  assert (leads (S := S) same_mode (on_ev (set_trx trx))) as Hset' by walk mode_prim.
  split; [etransitivity; [eapply Hset, R0 | eapply evaluate_checks_calm, R1] |].
  split; [etransitivity; [eapply Hset', R0 | eapply evaluate_checks_mode, R1] |].
  split; [exact R2 | split].
  - apply bind_Ok in R as ([] & c3 & R3 & R). apply signature_fee_calm in R3.
    apply (calm_closes trx c2 c3 c' R3). apply bind_Ok in R as ([] & c4 & R4 & R).
    apply (closes_calm trx c3 c4 c').
    + unfold closes. destruct (ignores_required_fee trx); cbn [negb when] in R4.
      * apply ret_Ok in R4 as [_ <-]. reflexivity.
      * eapply settle_Ok, R4.
    + revert R. match goal with |- ?m c4 = _ -> _ => assert (leads calm m) as Hm by walk calm_prim end.
      apply Hm.
  - revert R. match goal with |- ?m c2 = _ -> _ => assert (leads same_mode m) as Hm by walk mode_prim end.
    apply Hm.
Qed.


(** The operation of the origin transaction of a result. *)
Lemma evaluate_contract_trx t ign (c : EvalContext S) u c' op :
  evaluate_contract_result (ev c) = false ->
  operations t = [op] -> is_contract_op (op_type op) = true ->
  evaluate_transaction t ign c = (Ok u, c') ->
  steps false 0 c c' /\ same_mode c c'.
Proof.
  intros Hmode Hops Hop R.
  apply evaluate_Ok in R as (_ & c1 & c2 & r & H1 & M1 & R & H2 & M2).
  assert (plain op) as Hplain by (unfold plain; intros E0; now rewrite E0 in Hop).
  assert (registers op = 0%nat) as Hreg by (destruct op; try reflexivity; discriminate).
  unfold closes, ignores_required_fee in H2. rewrite Hops in H2. cbn in H2.
  rewrite Hop in H2. cbn in H2.
  unfold evaluate_body in R. rewrite Hops in R.
  apply bind_Ok in R as ([] & c3 & R3 & R).
  assert (calm c1 c3 /\ same_mode c1 c3) as [H3 M3].
  { split; [revert R3; assert (leads (S := S) calm (on_ev (set_current_op_index 0))) as Hm
              by walk calm_prim; apply Hm
           | apply on_ev_Ok in R3 as <-; reflexivity]. }
  destruct (Z.eqb_spec (op_type op) transaction_op_type) as [E0 | _]; [contradiction |].
  apply bind_Ok in R as ([] & c4 & R4 & [_ <-]%ret_Ok).
  apply evaluate_operations_Ok in R4 as [Hs M4]; [| now repeat constructor].
  rewrite M3, M1, Hmode in Hs. cbn in Hs. rewrite Hreg in Hs.
  split.
  - eapply effect_after; [exact H1 |]. eapply effect_after; [exact H3 |].
    apply (steps_trans false 0 0 c3 c4 c'); [exact Hs | now apply calm_steps].
  - unfold same_mode in *. congruence.
Qed.

Lemma legal_nested t rest trx : operations trx = OpTransaction t :: rest ->
  check_operations_legality trx = true ->
  exists op, operations t = [op] /\ is_contract_op (op_type op) = true.
Proof.
  intros Hops. unfold check_operations_legality. rewrite Hops.
  destruct (_ && _); [discriminate |]. destruct (operations t) as [| op []]; try discriminate.
  intros Ht. exists op. split; [reflexivity |]. unfold is_contract_op. 
  cbv [register_contract_op_type call_contract_op_type transfer_contract_op_type
       destroy_contract_op_type upgrade_contract_op_type] in *.
  rewrite !orb_true_iff, !Z.eqb_eq in Ht. rewrite andb_true_iff, !Z.leb_le. lia.
Qed.

Lemma legal_plain op rest trx : operations trx = op :: rest -> plain op ->
  check_operations_legality trx = true -> Forall plain rest.
Proof.
  intros Hops Hop. unfold check_operations_legality. rewrite Hops.
  destruct (_ && _); [discriminate |].
  assert (negb (existsb (fun o => op_type o =? transaction_op_type) rest) = true ->
          Forall plain rest) as Hr.
  { intros Hn. apply Forall_forall. intros x Hx E. apply negb_true_iff in Hn.
    rewrite <- not_true_iff_false in Hn. apply Hn, existsb_exists. exists x.
    split; [now apply list_elem_of_In | now apply Z.eqb_eq]. }
  destruct op; try exact Hr. now destruct Hop.
Qed.

(** The transaction is the result of the contract operation it starts with. *)
Definition is_result (trx : SignedTransaction) : bool :=
  match operations trx with op :: _ => op_type op =? transaction_op_type | [] => false end.

Lemma evaluate_plain trx (c : EvalContext S) r c' :
  is_result trx = false -> Forall plain (operations trx) ->
  evaluate_contract_result (ev c) = false ->
  evaluate_body evaluate_operation trx c = (Ok r, c') ->
  steps false (registrations (operations trx)) c c'.
Proof.
  intros Hres Hp Hmode R. unfold evaluate_body in R. apply bind_Ok in R as ([] & c1 & R1 & R).
  assert (calm c c1) as H1
    by (revert R1; assert (leads (S := S) calm (on_ev (set_current_op_index 0))) as Hm
          by walk calm_prim; apply Hm).
  apply on_ev_Ok in R1. eapply effect_after; [exact H1 |].
  assert (same_mode c c1) as M1 by (subst; reflexivity).
  unfold is_result in Hres. destruct (operations trx) as [| op rest].
  - apply ret_Ok in R as [_ <-]. constructor.
  - rewrite Hres in R. apply bind_Ok in R as ([] & c2 & R & [_ <-]%ret_Ok).
    apply evaluate_operations_Ok in R as [Hs _]; [| exact Hp]. now rewrite M1, Hmode in Hs.
Qed.

Lemma evaluate_nested t (c : EvalContext S) u c' op :
  evaluate_contract_result (ev c) = false ->
  operations t = [op] -> is_contract_op (op_type op) = true ->
  evaluate_operation (OpTransaction t) c = (Ok u, c') ->
  steps false 0 c c' /\ same_mode c c'.
Proof.
  intros Hmode Hops Hop R. cbn [evaluate_operation] in R. unfold transaction_evaluate in R.
  apply bind_Ok in R as (id & c1 & [<- <-]%member_Ok & R).
  apply bind_Ok in R as ([] & c1 & R1 & R).
  apply (evaluate_contract_trx t true c tt c1 op Hmode Hops Hop) in R1 as [Hs Hm].
  assert (calm c1 c' /\ same_mode c1 c') as [Hc Hm'].
  { revert R. match goal with |- ?m c1 = _ -> _ =>
      assert (leads calm m) as Hq by walk calm_prim;
      assert (leads same_mode m) as Hq' by walk mode_prim end.
    intros R. split; [eapply Hq, R | eapply Hq', R]. }
  split; [| unfold same_mode in *; congruence].
  apply (steps_trans false 0 0 c c1 c'); [exact Hs | now apply calm_steps].
Qed.

Lemma complete_result_calm trx : leads (S := S) calm (complete_result trx).
Proof. walk calm_prim. Qed.

Lemma evaluate_result_steps accepts finish t rest op (c : EvalContext S) u c' :
  leads calm finish -> operations t = [op] -> is_contract_op (op_type op) = true ->
  Forall plain rest -> evaluate_contract_result (ev c) = false ->
  evaluate_result evaluate_operation accepts finish (OpTransaction t) rest c = (Ok u, c') ->
  steps true (registrations rest) c c'.
Proof.
  intros Hfin Ht Hop Hp Hmode R. unfold evaluate_result in R.
  apply bind_Ok in R as ([] & c1 & R1 & R). apply bind_Ok in R as ([] & c2 & R2 & R).
  apply bind_Ok in R as (e & c3 & [<- <-]%member_Ok & R).
  apply bind_Ok in R as ([] & c3 & [_ <-]%fc_assert_Ok & R).
  apply bind_Ok in R as ([] & c3 & R3 & R). apply bind_Ok in R as ([] & c4 & R4 & R).
  apply (evaluate_nested t c tt c1 op Hmode Ht Hop) in R1 as [Hs _].
  apply next_op_calm in R2.
  assert (calm c2 c3) as H3.
  { revert R3. match goal with |- ?m c2 = _ -> _ => assert (leads calm m) as Hq by walk calm_prim end.
    apply Hq. }
  apply evaluate_operations_Ok in R4 as [Hs4 _]; [| exact Hp].
  assert (evaluate_contract_result (ev c3) = true) as Hm3 by (apply on_ev_Ok in R3 as <-; reflexivity).
  rewrite Hm3 in Hs4.
  assert (calm c4 c') as H4.
  { apply bind_Ok in R as ([] & c5 & R5 & R6). apply Hfin in R5.
    transitivity c5; [exact R5 |]. revert R6.
    match goal with |- ?m c5 = _ -> _ => assert (leads calm m) as Hq by walk calm_prim end.
    apply Hq. }
  apply (steps_trans true 0 (registrations rest) c c1 c'); [now apply steps_result |].
  eapply effect_after; [exact R2 |]. eapply effect_after; [exact H3 |].
  rewrite <- (Nat.add_0_r (registrations rest)).
  eapply steps_trans; [exact Hs4 | now apply calm_steps].
Qed.

Lemma evaluate_result_body t rest trx (c : EvalContext S) r c' :
  operations trx = OpTransaction t :: rest -> Forall plain rest ->
  check_operations_legality trx = true -> evaluate_contract_result (ev c) = false ->
  evaluate_body evaluate_operation trx c = (Ok r, c') ->
  steps true (registrations rest) c c'.
Proof.
  intros Hops Hp Hlegal Hmode R. destruct (legal_nested _ _ _ Hops Hlegal) as (op & Ht & Hop).
  unfold evaluate_body in R. rewrite Hops in R. cbn [op_type Z.eqb transaction_op_type] in R.
  apply bind_Ok in R as ([] & c1 & R1 & R). cbn [Pos.eqb] in R.
  apply bind_Ok in R as ([] & c2 & R2 & R).
  assert (calm c c1) as H1.
  { revert R1. match goal with |- ?m c = _ -> _ => assert (leads calm m) as Hq by walk calm_prim end.
    apply Hq. }
  assert (evaluate_contract_result (ev c1) = false) as Hm1
    by (apply on_ev_Ok in R1 as <-; exact Hmode).
  apply (evaluate_result_steps _ _ t rest op) in R2; try assumption; [| apply complete_result_calm].
  eapply effect_after; [exact H1 |]. rewrite <- (Nat.add_0_r (registrations rest)).
  eapply steps_trans; [exact R2 |]. apply calm_steps. revert R.
  match goal with |- ?m c2 = _ -> _ => assert (leads calm m) as Hq by walk calm_prim end.
  apply Hq.
Qed.

Lemma evaluate_steps trx ignore_state (c : EvalContext S) u c' :
  evaluate_contract_result (ev c) = false ->
  (is_result trx = true -> Forall plain (tail (operations trx))) ->
  evaluate_transaction trx ignore_state c = (Ok u, c') ->
  exists c1, steps (is_result trx) (registrations (operations trx)) c c1 /\ closes trx c1 c'.
Proof.
  intros Hmode Hp R.
  apply evaluate_Ok in R as (Hlegal & c1 & c2 & r & H1 & M1 & R & H2 & _).
  exists c2. split; [| exact H2]. eapply effect_after; [exact H1 |].
  assert (evaluate_contract_result (ev c1) = false) as Hm1 by (unfold same_mode in M1; congruence).
  destruct (is_result trx) eqn:Er.
  - specialize (Hp eq_refl). unfold is_result in Er.
    destruct (operations trx) as [| op rest] eqn:Hops; [discriminate |].
    destruct op; try discriminate.
    + eapply (evaluate_result_body _ rest trx c1 r c2); try eassumption.
    + unfold evaluate_body in R. rewrite Hops, Er in R.
      apply bind_Ok in R as ([] & c3 & _ & R). apply bind_Ok in R as ([] & c4 & R & _).
      apply bind_Ok in R as ([] & c5 & R & _). discriminate.
  - apply evaluate_plain with (r := r); try assumption. unfold is_result in Er.
    destruct (operations trx) as [| op rest] eqn:Hops; [constructor |].
    assert (plain op) as Hop by (now apply Z.eqb_neq).
    constructor; [exact Hop | eapply legal_plain; eassumption].
Qed.

(** The abstract transaction: ledger effects within the rights of its
    signatures, then the settlement. *)
Definition transacts (trx : SignedTransaction) (c c' : EvalContext S) : Prop :=
  exists c1, steps (is_result trx) (registrations (operations trx)) c c1 /\ closes trx c1 c'.

(** C2: A transaction that evaluates successfully, and not as part of a
    result, refines the ledger: it is a sequence of effects, each with the
    signatures it needs and booked in the evaluation, one registration for
    each of its register operations, followed by the settlement of the books
    unless the fee check is put off.  Not so a contract result with another
    OpTransaction behind its first operation, which the hypothesis [Forall
    plain] excludes: the code settles the nested transaction by itself, in the
    same books ([nested_result_settles_twice] in LedgerTables). *)
Theorem evaluate_refines trx ignore_state (c : EvalContext S) u c' :
  evaluate_contract_result (ev c) = false ->
  (is_result trx = true -> Forall plain (tail (operations trx))) ->
  evaluate_transaction trx ignore_state c = (Ok u, c') ->
  transacts trx c c'.
Proof. apply evaluate_steps. Qed.
End Transactions.
