(* ===== verification/AccountForms.v ===== *)
(** * Accounts stay well formed, and states keep what lies below

    Every evaluation stores entries through the chain interface only, and the
    accounts it stores have the keys their later stores and removes ask for:
    what it writes can be applied to the state below and taken back. *)

From Stdlib Require Import ZArith Lia Bool String.
From stdpp Require Import base gmap strings list sorting.
From S2P Require Import Prelude Asset Entries Names ChainInterface ChainState AssetEntry.
From S2P Require Import EvalState BalanceOperations AccountOperations AssetOperations DataOperations.
From S2P Require Import ContractOperations Evaluate Ledger QuietOperations Refinement Transactions.

Local Open Scope Z_scope.

(** Operations nest only through the transactions of result transactions. *)
Lemma operation_rect_nested (P : Operation -> Prop) :
  (forall op, (forall t, op <> OpTransaction t) -> P op) ->
  (forall t, Forall P (operations t) -> P (OpTransaction t)) -> forall op, P op.
Proof.
  intros Hplain Ht. fix F 1. intros op. destruct op; try (apply Hplain; discriminate).
  apply Ht. destruct trx as [e r al im ops ty id sg]. cbn. clear -F. revert ops. fix G 1.
  intros [| op ops]; constructor; [apply F | apply G].
Qed.

Section Forms.
Context `{ChainParams} {S : Type} `{HI : ChainInterface S} `{HL : !ChainInterfaceLaws S}
  `{LW : !LedgerLaws S} `{VM : GluaVM S}.
Abbreviation E := (M (EvalContext S)).

Definition accounts_wf (s : S) : Prop :=
  forall id a, get_account_entry s id = Some a -> account_wf a.
Definition forms (c c' : EvalContext S) : Prop :=
  accounts_wf (current_state c) -> accounts_wf (current_state c').
#[export] Instance forms_preorder : PreOrder forms.
Proof. split; unfold forms; [easy | auto]. Qed.

Lemma same_accounts_wf (s s' : S) : (forall id, get_account_entry s' id = get_account_entry s id) ->
  accounts_wf s -> accounts_wf s'.
Proof. intros E Hs id a. rewrite E. apply Hs. Qed.
Lemma put_account_wf a (s s' : S) : put_account a s s' -> account_wf a -> accounts_wf s ->
  accounts_wf s'.
Proof.
  intros [_ E _ _] Ha Hs id b. rewrite E. destruct (id =? account_id a); [intros [= <-]; exact Ha | apply Hs].
Qed.
Lemma calm_forms {A} (m : E A) : leads calm m -> leads forms m.
Proof. intros Hm c a c' R. apply Hm in R as [[_ Ha _ _] _ _]. exact (same_accounts_wf _ _ Ha). Qed.

Lemma forms_ev (f : TransactionEvaluationState -> TransactionEvaluationState) :
  leads (S := S) forms (on_ev f).
Proof. apply leads_on_ev. intros c. now unfold forms. Qed.
Lemma forms_store k key v : entry_wf k v -> leads forms (chain (S := S) (entry_store k key v)).
Proof.
  intros Hv c u c' (s' & R & <-)%chain_Ok. unfold forms. cbn [current_state].
  destruct (stored_kind k) eqn:Hk.
  - apply (entry_store_writing _ _ _ Hk) in R as [Hsame Hkey Hkind]. intros Hs id a Ha.
    destruct (decide (k = KAccount)) as [-> | Hne].
    + destruct (decide (id = key)) as [-> | Hid].
      * unfold get_account_entry, entry_lookup in Ha. rewrite Hsame in Ha by now apply ledger_lawful.
        injection Ha as <-. exact Hv.
      * unfold get_account_entry, entry_lookup in Ha.
        rewrite Hkey in Ha by (try apply ledger_lawful; auto). eapply Hs, Ha.
    + unfold get_account_entry, entry_lookup in Ha.
      rewrite Hkind in Ha by (try apply ledger_lawful; auto). eapply Hs, Ha.
  - destruct k; try discriminate. cbn in R, Hk. unfold slot_entry_store in R. rewrite Hk in R.
    now apply ret_Ok in R as [_ <-].
Qed.
Lemma forms_remove k key : leads forms (chain (S := S) (entry_remove k key)).
Proof.
  intros c u c' (s' & R & <-)%chain_Ok. unfold forms. cbn [current_state].
  destruct (stored_kind k) eqn:Hk.
  - apply (entry_remove_writing _ _ Hk) in R as [Hsame Hkey Hkind]. intros Hs id a Ha.
    unfold get_account_entry, entry_lookup in Ha. destruct (decide (k = KAccount)) as [-> | Hne].
    + destruct (decide (id = key)) as [-> | Hid].
      * rewrite Hsame in Ha by now apply ledger_lawful. discriminate.
      * rewrite Hkey in Ha by (try apply ledger_lawful; auto). eapply Hs, Ha.
    + rewrite Hkind in Ha by (try apply ledger_lawful; auto). eapply Hs, Ha.
  - destruct k; try discriminate. cbn in R, Hk. unfold slot_entry_remove in R. rewrite Hk in R.
    now apply ret_Ok in R as [_ <-].
Qed.
Lemma forms_new_asset_id : leads forms (chain (S := S) new_asset_id).
Proof.
  intros c id c' (s' & R & <-)%chain_Ok. apply new_asset_id_Ok in R as [[_ Ha _ _] _].
  exact (same_accounts_wf _ _ Ha).
Qed.
Lemma forms_new_account_id : leads forms (chain (S := S) new_account_id).
Proof.
  intros c id c' (s' & R & <-)%chain_Ok. apply new_account_id_Ok in R as (? & _ & _ & _ & _ & Ha & _).
  exact (same_accounts_wf _ _ Ha).
Qed.
Lemma forms_catch {A} trx (m : E A) : leads forms m -> leads forms (catch_record trx m).
Proof. intros Hm c a c' R%catch_record_Ok. eapply Hm, R. Qed.

(** A store of an account that is well formed. *)
Lemma forms_store_account a : account_wf a -> leads forms (chain (S := S) (store_account_entry a)).
Proof. apply (forms_store KAccount). Qed.

#[local] Ltac forms_prim :=
  first [ apply forms_ev
        | apply forms_new_asset_id | apply forms_new_account_id
        | apply (forms_store KBalance); exact I | apply (forms_store KAsset); exact I
        | apply (forms_store KSlate); exact I | apply (forms_store KContract); exact I
        | apply (forms_store KStorage); exact I | apply (forms_store KTransaction); exact I
        | apply forms_store; exact I | apply (forms_remove KContract) | apply forms_remove ].

(** *** Accounts as the operations change them *)

Definition keyed (a : AccountEntry) : Prop := active_key_history a <> ∅.

Lemma account_wf_info a d : account_wf a -> (signing_key_history d = ∅ -> False) ->
  account_wf (set_delegate_info (Some d) a).
Proof. intros [Ha _] Hd. split; [exact Ha | intros d' [= <-]; exact Hd]. Qed.

Lemma adjust_votes_wf delta a a' : adjust_votes_for delta a = Ok a' -> account_wf a -> account_wf a'.
Proof.
  unfold adjust_votes_for. destruct (delegate_info a) as [d |] eqn:E; [| discriminate].
  intros [= <-] Hw. apply account_wf_info; [exact Hw | exact (proj2 Hw d E)].
Qed.

Lemma set_active_key_wf now k a a' : set_active_key now k a = Ok a' ->
  (forall d, delegate_info a = Some d -> signing_key_history d <> ∅) -> account_wf a'.
Proof.
  unfold set_active_key. destruct (now =? 0); [discriminate |]. intros [= <-] Hd. split; cbn; [| exact Hd].
  intros E. apply insert_non_empty in E. exact E.
Qed.

Lemma make_delegate_forms rate key a (c : EvalContext S) a' c' : keyed a ->
  make_delegate rate key a c = (Ok a', c') -> current_state c' = current_state c /\ account_wf a'.
Proof.
  intros Hk R. unfold make_delegate in R. steps_inv R.
  match goal with H : require_fees _ _ = _ |- _ => apply require_fees_Ok in H as (-> & _) end.
  split; [reflexivity |].
  match goal with H : set_signing_key _ _ _ = Ok _ |- _ => injection H as <- end.
  split; [exact Hk |]. intros d [= <-]. cbn. intros E. apply insert_non_empty in E. exact E.
Qed.

Lemma register_account_forms o : leads forms (register_account_evaluate (S := S) o).
Proof.
  intros c u c' R. unfold register_account_evaluate in R. steps_inv R. read_run.
  match goal with H : chain new_account_id ?c1 = (_, ?c2) |- _ =>
    assert (forms c1 c2) as Hf by (eapply forms_new_account_id, H); clear H end.
  match goal with H : set_active_key _ _ _ = Ok _ |- _ =>
    apply set_active_key_wf in H as Hwf; [| discriminate] end.
  match goal with H : (if ?b then make_delegate _ _ ?a else _) ?c1 = (Ok ?a', ?c2) |- _ =>
    assert (current_state c2 = current_state c1 /\ account_wf a') as [Es Hwf'] end.
  { match goal with H : (if ?b then _ else _) _ = _ |- _ => destruct b end.
    - eapply make_delegate_forms; [apply Hwf | eassumption].
    - match goal with H : ret _ _ = _ |- _ => apply ret_Ok in H as [<- <-] end. auto. }
  intros Hs. match goal with H : chain (store_account_entry _) _ = _ |- _ =>
    eapply (forms_store_account _ Hwf') in H; apply H end.
  rewrite Es. auto.
Qed.

(** The account that is updated, with another key or as it was. *)
Lemma update_active_key_forms o a (c : EvalContext S) a' c' :
  account_wf a -> update_active_key o a c = (Ok a', c') -> c' = c /\ account_wf a'.
Proof.
  intros Hw R. unfold update_active_key in R. apply bind_Ok in R as (k & c1 & [_ <-]%lift_result_Ok & R).
  destruct (upd_active_key o) as [new |]; [destruct (negb (new =? k)) |]; steps_inv R; read_run; auto.
  split; [reflexivity |]. match goal with H : set_active_key _ _ _ = Ok _ |- _ =>
    apply set_active_key_wf in H; [exact H | exact (proj2 Hw)] end.
Qed.

(** The delegate half of UpdateAccountOperation::evaluate *)
Lemma delegate_half_forms o x (c : EvalContext S) a c' : account_wf x ->
  (if upd_is_delegate o then
     match delegate_info x with
     | Some d =>
         fc_assert (upd_delegate_pay_rate o <=? pay_rate d) ;;;
         ret (set_delegate_info (Some (set_pay_rate (upd_delegate_pay_rate o) d)) x)
     | None =>
         key <- lift_result (active_key x) ;;
         make_delegate (upd_delegate_pay_rate o) key x
     end
   else ret x) c = (Ok a, c') -> current_state c' = current_state c /\ account_wf a.
Proof.
  intros Hw R. destruct (upd_is_delegate o); [| apply ret_Ok in R as [<- <-]; auto].
  destruct (delegate_info x) as [d |] eqn:E; steps_inv R.
  - split; [reflexivity |]. apply account_wf_info; [exact Hw | exact (proj2 Hw d E)].
  - eapply make_delegate_forms; [apply Hw | eassumption].
Qed.

Lemma update_account_forms o : leads forms (update_account_evaluate (S := S) o).
Proof.
  intros c u c' R Hs. unfold update_account_evaluate in R. steps_inv R.
  match goal with H : update_active_key _ _ _ = (Ok ?a', _), Ha : get_account_entry _ _ = Some _ |- _ =>
    apply update_active_key_forms in H as [-> Hw]; [| exact (Hs _ _ Ha)];
    set (x := match upd_public_data o with Some d => set_account_public_data d a' | None => a' end) in *;
    assert (account_wf x) as Hx by (unfold x; destruct (upd_public_data o); exact Hw) end.
  match goal with H : (if _ then _ else _) _ = _ |- _ =>
    apply delegate_half_forms in H as [Es Hw']; [| exact Hx] end.
  match goal with H : chain (store_account_entry ?y) _ = _ |- _ =>
    apply (forms_store_account y) in H; [apply H; now rewrite Es | exact Hw'] end.
Qed.

Lemma withdraw_pay_forms o : leads forms (withdraw_pay_evaluate (S := S) o).
Proof.
  intros c u c' R Hs. unfold withdraw_pay_evaluate in R. steps_inv R. read_run.
  assert (account_wf (set_delegate_info (Some (set_pay_balance a5 a1)) a0)) as Hw.
  { match goal with Ha : get_account_entry _ _ = Some _, Hd : delegate_info _ = Some _ |- _ =>
      apply account_wf_info; [exact (Hs _ _ Ha) | exact (proj2 (Hs _ _ Ha) _ Hd)] end. }
  apply on_ev_Ok in R6 as <-. apply on_ev_Ok in R9 as <-.
  match goal with H : add_balance ?x ?c1 = (_, ?c2) |- _ =>
    assert (leads forms (add_balance x)) as Hf by walk forms_prim; apply Hf in H end.
  match goal with H : chain (store_account_entry ?y) _ = _ |- _ =>
    apply (forms_store_account y Hw) in H; apply H end. auto.
Qed.

Lemma update_votes_forms : leads forms (update_delegate_votes (S := S)).
Proof.
  intros c u c' R. unfold update_delegate_votes in R. apply bind_Ok in R as (d & c1 & [_ <-]%member_Ok & R).
  revert R. apply leads_forM; [apply _ |]. clear -HL LW. intros item c u c' R Hs. steps_inv R.
  match goal with Ha : get_account_entry _ _ = Some _, H : adjust_votes_for _ _ = Ok _ |- _ =>
    apply adjust_votes_wf in H; [| exact (Hs _ _ Ha)] end.
  match goal with H : chain (store_account_entry ?y) _ = _ |- _ =>
    apply (forms_store_account y) in H; auto end.
Qed.

(** *** Whole transactions *)

Lemma plain_forms op : (forall t, op <> OpTransaction t) -> leads forms (evaluate_operation (S := S) op).
Proof.
  intros Hop. destruct op; cbn [evaluate_operation];
    try (now destruct (Hop trx));
    first [apply register_account_forms | apply update_account_forms | apply withdraw_pay_forms
          | walk forms_prim].
Qed.

Lemma operations_forms ops : Forall (fun op => leads forms (evaluate_operation (S := S) op)) ops ->
  leads forms (evaluate_operations evaluate_operation ops).
Proof.
  induction 1 as [| op ops Hop _ IH]; unfold evaluate_operations in *; cbn [for_each];
    [apply leads_ret, _ |].
  apply leads_bind; [apply _ | | intros _; exact IH].
  apply leads_bind; [apply _ | exact Hop | intros _; apply forms_ev].
Qed.

Lemma settle_forms : leads forms (settle (S := S)).
Proof.
  unfold settle. apply leads_bind; [apply _ | walk forms_prim | intros _].
  apply leads_bind; [apply _ | walk forms_prim | intros _]. apply update_votes_forms.
Qed.

Lemma body_forms trx : Forall (fun op => leads forms (evaluate_operation (S := S) op)) (operations trx) ->
  leads forms (evaluate_body evaluate_operation trx).
Proof.
  intros Hops. unfold evaluate_body. apply leads_bind; [apply _ | apply forms_ev | intros _].
  destruct (operations trx) as [| op rest] eqn:E; [apply leads_ret, _ |].
  destruct (op_type op =? transaction_op_type).
  - inversion Hops; subst. apply leads_bind; [apply _ | | intros _; walk forms_prim].
    unfold evaluate_result. apply leads_bind; [apply _ | assumption | intros _].
    apply leads_bind; [apply _ | apply forms_ev | intros _].
    apply leads_bind; [apply _ | walk forms_prim | intros e].
    apply leads_bind; [apply _ | walk forms_prim | intros _].
    apply leads_bind; [apply _ | apply forms_ev | intros _].
    apply leads_bind; [apply _ | now apply operations_forms | intros _].
    walk forms_prim.
  - apply leads_bind; [apply _ | now apply operations_forms | intros _; walk forms_prim].
Qed.

Lemma evaluate_forms_if trx ign :
  Forall (fun op => leads forms (evaluate_operation (S := S) op)) (operations trx) ->
  leads forms (evaluate evaluate_operation trx ign).
Proof.
  intros Hops. unfold evaluate. apply leads_bind; [apply _ | apply forms_ev | intros _].
  apply leads_bind; [apply _ | apply forms_catch; walk forms_prim | intros _].
  apply leads_bind; [apply _ | apply forms_catch, body_forms, Hops | intros r].
  apply forms_catch. apply leads_bind; [apply _ | walk forms_prim | intros _].
  apply leads_bind; [apply _ | | intros _; walk forms_prim].
  apply leads_when; [apply _ | apply settle_forms].
Qed.

Lemma operation_forms op : leads forms (evaluate_operation (S := S) op).
Proof.
  induction op as [op Hop | t Hops] using operation_rect_nested; [now apply plain_forms |].
  cbn [evaluate_operation]. unfold transaction_evaluate.
  apply leads_bind; [apply _ | walk forms_prim | intros id].
  apply leads_bind; [apply _ | now apply evaluate_forms_if | intros _]. walk forms_prim.
Qed.

(** An evaluation that succeeds leaves every account with the keys it needs. *)
Lemma evaluate_forms trx ign : leads forms (evaluate_transaction (S := S) trx ign).
Proof. apply evaluate_forms_if, Forall_forall. intros op _. apply operation_forms. Qed.
End Forms.

(** ** What lies below *)

Section Below.
Context `{ChainParams} {S : Type} `{HI : ChainInterface S} `{VM : GluaVM S}.
(** A preorder the primitive writes follow. *)
Context (K : S -> S -> Prop) (HK : PreOrder K)
  (K_insert : forall k key v s, K s (db_insert k key v s))
  (K_erase : forall k key s, K s (db_erase k key s)) (K_index : forall w s, K s (db_index w s)).

Definition below (c c' : EvalContext S) : Prop := K (current_state c) (current_state c').
#[export] Instance below_preorder : PreOrder below.
Proof. split; unfold below; [easy | intros a b c; apply HK]. Qed.

Lemma below_ev f : leads below (on_ev f).
Proof. apply leads_on_ev. intros c. unfold below. cbn. reflexivity. Qed.
Lemma below_chain {A} (m : M S A) : along K m -> leads below (chain m).
Proof. intros Hm c a c' (s' & R & <-)%chain_Ok. exact (Hm _ _ _ R). Qed.
Lemma store_along k key v : along K (entry_store k key v).
Proof. now apply entry_store_along. Qed.
Lemma remove_along k key : along K (entry_remove k key).
Proof. now apply entry_remove_along. Qed.
Lemma below_catch {A} trx (m : M (EvalContext S) A) : leads below m -> leads below (catch_record trx m).
Proof. intros Hm c a c' R%catch_record_Ok. eapply Hm, R. Qed.
Lemma new_id_along : along K new_asset_id /\ along K new_account_id.
Proof.
  split; apply along_bind; try apply _; try apply along_gets; try apply _; intros db;
    (apply along_bind; [apply _ | apply along_lift; apply _ | intros last]);
    (apply along_bind; [apply _ | apply store_along | intros _; apply along_ret; apply _]).
Qed.

#[local] Ltac below_prim :=
  first [ apply below_ev
        | apply below_chain;
          first [ apply new_id_along | apply store_along | apply remove_along
                | apply (store_along KBalance) | apply (store_along KAccount)
                | apply (store_along KAsset) | apply (store_along KSlate)
                | apply (store_along KContract) | apply (store_along KStorage)
                | apply (store_along KTransaction) | apply (remove_along KContract) ] ].

Lemma evaluate_below_if trx ign :
  Forall (fun op => leads below (evaluate_operation (S := S) op)) (operations trx) ->
  leads below (evaluate evaluate_operation trx ign).
Proof.
  intros Hops.
  assert (forall ops, Forall (fun op => leads below (evaluate_operation (S := S) op)) ops ->
    leads below (evaluate_operations evaluate_operation ops)) as Hlist.
  { intros ops. induction 1 as [| op ops Hop _ IH]; unfold evaluate_operations in *; cbn [for_each];
      [apply leads_ret, _ |].
    apply leads_bind; [apply _ | | intros _; exact IH].
    apply leads_bind; [apply _ | exact Hop | intros _; apply below_ev]. }
  unfold evaluate. apply leads_bind; [apply _ | apply below_ev | intros _].
  apply leads_bind; [apply _ | apply below_catch; walk below_prim | intros _].
  apply leads_bind; [apply _ | apply below_catch | intros r; apply below_catch; walk below_prim].
  unfold evaluate_body. apply leads_bind; [apply _ | apply below_ev | intros _].
  destruct (operations trx) as [| op rest] eqn:E; [apply leads_ret, _ |].
  destruct (op_type op =? transaction_op_type).
  - inversion Hops; subst. apply leads_bind; [apply _ | | intros _; walk below_prim].
    unfold evaluate_result. apply leads_bind; [apply _ | assumption | intros _].
    apply leads_bind; [apply _ | apply below_ev | intros _].
    apply leads_bind; [apply _ | walk below_prim | intros e].
    apply leads_bind; [apply _ | walk below_prim | intros _].
    apply leads_bind; [apply _ | apply below_ev | intros _].
    apply leads_bind; [apply _ | now apply Hlist | intros _]. walk below_prim.
  - apply leads_bind; [apply _ | now apply Hlist | intros _; walk below_prim].
Qed.

Lemma operation_below op : leads below (evaluate_operation (S := S) op).
Proof.
  induction op as [op Hop | t Hops] using operation_rect_nested.
  - destruct op; cbn [evaluate_operation]; try (now destruct (Hop trx)); walk below_prim.
  - cbn [evaluate_operation]. unfold transaction_evaluate.
    apply leads_bind; [apply _ | walk below_prim | intros id].
    apply leads_bind; [apply _ | now apply evaluate_below_if | intros _]. walk below_prim.
Qed.

(** An evaluation writes through the interface only. *)
Lemma evaluate_below trx ign : leads below (evaluate_transaction (S := S) trx ign).
Proof. apply evaluate_below_if, Forall_forall. intros op _. apply operation_below. Qed.
End Below.
