(* ===== verification/Conservation.v ===== *)
(** * Conservation of shares

    What a transaction does to the shares of an asset: the shares held, in
    balances, delegate pay and collected fees, less the shares issued. *)

From Stdlib Require Import ZArith Lia Bool String.
From stdpp Require Import base gmap strings list sorting fin_sets.
From S2P Require Import Prelude Asset Entries Names ChainInterface ChainState AssetEntry.
From S2P Require Import EvalState BalanceOperations ContractOperations Evaluate Ledger.
From S2P Require Import QuietOperations Refinement Transactions.

Local Open Scope Z_scope.

(** ** Sums over finite sets *)

Section Sums.

Definition zsum (l : list Z) : Z := foldr Z.add 0 l.
Definition sum_over (f : Z -> Z) (X : gset Z) : Z := zsum (map f (elements X)).

Lemma zsum_perm l l' : l ≡ₚ l' -> zsum l = zsum l'.
Proof. unfold zsum. induction 1; cbn [foldr] in *; lia. Qed.

Lemma sum_over_empty f : sum_over f ∅ = 0.
Proof. unfold sum_over. now rewrite elements_empty. Qed.

Lemma sum_over_insert f k X : k ∉ X -> sum_over f ({[k]} ∪ X) = f k + sum_over f X.
Proof.
  intros Hk. unfold sum_over.
  rewrite (zsum_perm _ (map f (k :: elements X))); [reflexivity |].
  apply Permutation_map, elements_union_singleton, Hk.
Qed.

Lemma sum_over_ext f g X : (forall k, k ∈ X -> f k = g k) -> sum_over f X = sum_over g X.
Proof.
  induction X as [| k X Hk IH] using set_ind_L; intros Hfg; [now rewrite !sum_over_empty |].
  rewrite !sum_over_insert, IH, Hfg by (intros; try apply Hfg; set_solver). reflexivity.
Qed.

Lemma sum_over_split f k X : k ∈ X -> sum_over f X = f k + sum_over f (X ∖ {[k]}).
Proof.
  intros Hk. rewrite <- sum_over_insert by set_solver.
  f_equal. apply set_eq. intros i. destruct (decide (i = k)); set_solver.
Qed.

(** Elements where the function vanishes do not count. *)
Lemma sum_over_support f X Y : (forall k, f k <> 0 -> (k ∈ X <-> k ∈ Y)) ->
  sum_over f X = sum_over f Y.
Proof.
  assert (forall Z, sum_over f Z = sum_over f (filter (fun k => f k <> 0) Z)) as Hf.
  { intros Z. induction Z as [| k Z Hk IH] using set_ind_L.
    { symmetry. apply (f_equal (sum_over f)), set_eq. intros i. rewrite elem_of_filter. set_solver. }
    rewrite sum_over_insert, IH by exact Hk. destruct (decide (f k = 0)) as [E | E].
    - rewrite E, Z.add_0_l. apply (f_equal (sum_over f)), set_eq. intros i.
      rewrite !elem_of_filter, elem_of_union, elem_of_singleton. naive_solver.
    - rewrite <- sum_over_insert by (rewrite elem_of_filter; tauto).
      apply (f_equal (sum_over f)), set_eq. intros i.
      rewrite !elem_of_filter, !elem_of_union, elem_of_filter, elem_of_singleton. naive_solver. }
  intros HXY. rewrite (Hf X), (Hf Y). f_equal. apply set_eq. intros i. rewrite !elem_of_filter.
  naive_solver.
Qed.

(** Two functions that differ at one point. *)
Lemma sum_over_update f g k X Y :
  (forall i, i <> k -> g i = f i) -> (forall i, f i <> 0 -> i ∈ X) -> (forall i, g i <> 0 -> i ∈ Y) ->
  sum_over g Y = sum_over f X + (g k - f k).
Proof.
  intros Heq HX HY.
  rewrite (sum_over_support g Y ({[k]} ∪ X ∪ Y)) by (intros i Hi; specialize (HY i Hi); set_solver).
  rewrite (sum_over_support f X ({[k]} ∪ X ∪ Y)) by (intros i Hi; specialize (HX i Hi); set_solver).
  rewrite (sum_over_split g k), (sum_over_split f k) by set_solver.
  rewrite (sum_over_ext g f (_ ∖ _)); [lia |]. intros i Hi. apply Heq. set_solver.
Qed.
End Sums.

(** ** Shares of a state *)

(** Balances and accounts of a state are finitely many. *)
Class LedgerSupport (S : Type) `{ChainInterface S} := {
  balance_ids : S -> gset BalanceIdType;
  account_ids : S -> gset AccountIdType;
  balance_ids_spec s id : get_balance_entry s id <> None -> id ∈ balance_ids s;
  account_ids_spec s id : get_account_entry s id <> None -> id ∈ account_ids s
}.

Section Surplus.
Context `{ChainParams} {S : Type} `{HI : ChainInterface S} `{SP : !LedgerSupport S}.

Definition shares_of (a : AssetIdType) (o : option BalanceEntry) : ShareType :=
  match o with
  | Some b => if cond_asset_id (condition b) =? a then balance b else 0
  | None => 0
  end.
Definition pay_in (a : AssetIdType) (o : option AccountEntry) : ShareType :=
  match o with Some x => if a =? 0 then pay_of x else 0 | None => 0 end.
Definition fees_less_supply (o : option AssetEntry) : ShareType :=
  match o with Some x => collected_fees x - current_share_supply x | None => 0 end.

(** Shares held less shares issued. *)
Definition surplus (s : S) (a : AssetIdType) : Z :=
  sum_over (fun id => shares_of a (get_balance_entry s id)) (balance_ids s) +
  sum_over (fun id => pay_in a (get_account_entry s id)) (account_ids s) +
  fees_less_supply (get_asset_entry s a).

Lemma balances_put a s s' k o :
  (forall id, get_balance_entry s' id = if id =? k then o else get_balance_entry s id) ->
  sum_over (fun id => shares_of a (get_balance_entry s' id)) (balance_ids s') =
  sum_over (fun id => shares_of a (get_balance_entry s id)) (balance_ids s) +
    (shares_of a o - shares_of a (get_balance_entry s k)).
Proof.
  intros Hput. rewrite (sum_over_update (fun id => shares_of a (get_balance_entry s id)) _ k
                          (balance_ids s) (balance_ids s')).
  - now rewrite Hput, Z.eqb_refl.
  - intros i Hi. apply Z.eqb_neq in Hi. now rewrite Hput, Hi.
  - intros i Hi. apply balance_ids_spec. intros E. now rewrite E in Hi.
  - intros i Hi. apply balance_ids_spec. intros E. now rewrite E in Hi.
Qed.

Lemma pays_put a s s' k o :
  (forall id, get_account_entry s' id = if id =? k then o else get_account_entry s id) ->
  sum_over (fun id => pay_in a (get_account_entry s' id)) (account_ids s') =
  sum_over (fun id => pay_in a (get_account_entry s id)) (account_ids s) +
    (pay_in a o - pay_in a (get_account_entry s k)).
Proof.
  intros Hput. rewrite (sum_over_update (fun id => pay_in a (get_account_entry s id)) _ k
                          (account_ids s) (account_ids s')).
  - now rewrite Hput, Z.eqb_refl.
  - intros i Hi. apply Z.eqb_neq in Hi. now rewrite Hput, Hi.
  - intros i Hi. apply account_ids_spec. intros E. now rewrite E in Hi.
  - intros i Hi. apply account_ids_spec. intros E. now rewrite E in Hi.
Qed.

Lemma balances_same a s s' : (forall id, get_balance_entry s' id = get_balance_entry s id) ->
  sum_over (fun id => shares_of a (get_balance_entry s' id)) (balance_ids s') =
  sum_over (fun id => shares_of a (get_balance_entry s id)) (balance_ids s).
Proof.
  intros Hs. rewrite (balances_put a s s' 0 (get_balance_entry s 0)); [lia |].
  intros id. rewrite Hs. now destruct (Z.eqb_spec id 0) as [-> |].
Qed.
Lemma pays_same a s s' : (forall id, get_account_entry s' id = get_account_entry s id) ->
  sum_over (fun id => pay_in a (get_account_entry s' id)) (account_ids s') =
  sum_over (fun id => pay_in a (get_account_entry s id)) (account_ids s).
Proof.
  intros Hs. rewrite (pays_put a s s' 0 (get_account_entry s 0)); [lia |].
  intros id. rewrite Hs. now destruct (Z.eqb_spec id 0) as [-> |].
Qed.

Lemma surplus_same s s' a : same_ledger s s' -> surplus s' a = surplus s a.
Proof.
  intros [Hb Ha Has _]. unfold surplus. now rewrite (balances_same _ _ _ Hb), (pays_same _ _ _ Ha), Has.
Qed.
Lemma surplus_put_balance b s s' a : put_balance b s s' ->
  surplus s' a = surplus s a + (shares_of a (Some b) - shares_of a (get_balance_entry s (balance_id b))).
Proof.
  intros [Hb Ha Has _]. unfold surplus. rewrite (balances_put _ _ _ _ _ Hb), (pays_same _ _ _ Ha), Has. lia.
Qed.
Lemma surplus_put_account x s s' a : put_account x s s' ->
  surplus s' a = surplus s a + (pay_in a (Some x) - pay_in a (get_account_entry s (account_id x))).
Proof.
  intros [Hb Ha Has _]. unfold surplus. rewrite (balances_same _ _ _ Hb), (pays_put _ _ _ _ _ Ha), Has. lia.
Qed.
Lemma surplus_put_asset x s s' a : put_asset x s s' ->
  surplus s' a = surplus s a +
    (if a =? ast_id x then fees_less_supply (Some x) - fees_less_supply (get_asset_entry s a) else 0).
Proof.
  intros [Hb Ha Has _]. unfold surplus. rewrite (balances_same _ _ _ Hb), (pays_same _ _ _ Ha), Has.
  destruct (a =? ast_id x); lia.
Qed.
End Surplus.

(** ** Sound states *)

Section Sound.
Context `{ChainParams} {S : Type} `{HI : ChainInterface S}.

(** Every entry is stored under its own id, and balances have a withdraw
    condition the operations know. *)
Record own_ids (s : S) : Prop := {
  own_balance id b : get_balance_entry s id = Some b -> balance_id b = id;
  own_account id x : get_account_entry s id = Some x -> account_id x = id;
  own_asset id x : get_asset_entry s id = Some x -> ast_id x = id;
  own_condition id b : get_balance_entry s id = Some b -> depositable (condition b) = true
}.

(** No account beyond the counter, and room for [n] more. *)
Definition accounts_fresh (n : nat) (s : S) : Prop :=
  exists last, last_account_id_of s = Ok last /\ - 2 ^ 31 <= last /\ last + Z.of_nat n < 2 ^ 31 /\
    forall id, get_account_entry s id <> None -> id <= last.

Record sound (n : nat) (c : EvalContext S) : Prop := {
  sound_ids : own_ids (current_state c);
  sound_supply id x : get_asset_entry (current_state c) id = Some x ->
    in_i64 (current_share_supply x);
  sound_withdraws i : in_i64 (at0 (withdraws (ev c)) i);
  sound_accounts : accounts_fresh n (current_state c)
}.

Lemma last_account_eq s s' : last_account s' = last_account s ->
  last_account_id_of s' = last_account_id_of (S := S) s.
Proof. unfold last_account, last_account_id_of, property_or. now intros ->. Qed.

Lemma own_ids_same s s' : same_ledger s s' -> own_ids s -> own_ids s'.
Proof.
  intros [Hb Ha Has _] [O1 O2 O3 O4].
  split; intros id x; rewrite ?Hb, ?Ha, ?Has; eauto.
Qed.
Lemma own_ids_balance b s s' : put_balance b s s' -> depositable (condition b) = true ->
  own_ids s -> own_ids s'.
Proof.
  intros [Hb Ha Has _] Hd [O1 O2 O3 O4].
  split; intros id x; rewrite ?Hb, ?Ha, ?Has; eauto;
    (destruct (Z.eqb_spec id (balance_id b)); [intros [= <-]; congruence | eauto]).
Qed.
Lemma own_ids_account b s s' : put_account b s s' -> own_ids s -> own_ids s'.
Proof.
  intros [Hb Ha Has _] [O1 O2 O3 O4].
  split; intros id x; rewrite ?Hb, ?Ha, ?Has; eauto.
  destruct (Z.eqb_spec id (account_id b)); [intros [= <-]; congruence | eauto].
Qed.
Lemma own_ids_asset b s s' : put_asset b s s' -> own_ids s -> own_ids s'.
Proof.
  intros [Hb Ha Has _] [O1 O2 O3 O4].
  split; intros id x; rewrite ?Hb, ?Ha, ?Has; eauto.
  destruct (Z.eqb_spec id (ast_id b)); [intros [= <-]; congruence | eauto].
Qed.

Lemma fresh_same n s s' : (forall id, get_account_entry s' id = get_account_entry s id) ->
  last_account s' = last_account s -> accounts_fresh n s -> accounts_fresh n s'.
Proof.
  intros Ha Hl (last & E & H1 & H2 & H3). exists last.
  rewrite (last_account_eq _ _ Hl). repeat split; auto. intros id. rewrite Ha. apply H3.
Qed.
Lemma fresh_account n b s s' : put_account b s s' ->
  get_account_entry s (account_id b) <> None -> accounts_fresh n s -> accounts_fresh n s'.
Proof.
  intros [_ Ha _ Hl] Hb (last & E & H1 & H2 & H3). exists last.
  rewrite (last_account_eq _ _ Hl). repeat split; auto. intros id. rewrite Ha.
  destruct (Z.eqb_spec id (account_id b)) as [-> |]; auto.
Qed.

(** A stored asset whose supply is in range keeps the supplies in range. *)
Lemma supply_put x s s' : put_asset x s s' -> in_i64 (current_share_supply x) ->
  (forall id y, get_asset_entry s id = Some y -> in_i64 (current_share_supply y)) ->
  forall id y, get_asset_entry s' id = Some y -> in_i64 (current_share_supply y).
Proof.
  intros Hp Hx Hs id y. rewrite (put_asset_assets _ _ _ Hp).
  destruct (id =? ast_id x); [now intros [= <-] | apply Hs].
Qed.
Lemma supply_same s s' : (forall id, get_asset_entry s' id = get_asset_entry s id) ->
  (forall id y, get_asset_entry s id = Some y -> in_i64 (current_share_supply y)) ->
  forall id y, get_asset_entry s' id = Some y -> in_i64 (current_share_supply y).
Proof. intros Has Hs id y. rewrite Has. apply Hs. Qed.

Lemma sound_room n m (c : EvalContext S) : sound n c -> (m <= n)%nat -> sound m c.
Proof.
  intros [H1 H2 H3 (last & E & H4 & H5 & H6)] Hm. split; auto.
  exists last. repeat split; auto. lia.
Qed.

Lemma zero_in_i64 : in_i64 0.
Proof. unfold in_i64, INT64_MIN, INT64_MAX. lia. Qed.
End Sound.

Section SoundSteps.
Context `{ChainParams} {S : Type} `{HI : ChainInterface S}.

Lemma sound_same n (c c' : EvalContext S) : same_ledger (current_state c) (current_state c') ->
  (forall i, in_i64 (at0 (withdraws (ev c')) i)) -> sound n c -> sound n c'.
Proof.
  intros Hs Hw [H1 H2 _ H4]. split; auto.
  - eapply own_ids_same; eassumption.
  - eapply supply_same; [apply Hs | apply H2].
  - eapply fresh_same; [apply Hs .. | exact H4].
Qed.
Lemma sound_balance n b (c c' : EvalContext S) : put_balance b (current_state c) (current_state c') ->
  depositable (condition b) = true ->
  (forall i, in_i64 (at0 (withdraws (ev c')) i)) -> sound n c -> sound n c'.
Proof.
  intros Hp Hd Hw [H1 H2 _ H4]. split; auto.
  - eapply own_ids_balance; eassumption.
  - eapply supply_same; [apply Hp | apply H2].
  - eapply fresh_same; [apply Hp .. | exact H4].
Qed.
Lemma sound_account n id b0 b (c c' : EvalContext S) :
  put_account b (current_state c) (current_state c') ->
  get_account_entry (current_state c) id = Some b0 -> account_id b = account_id b0 ->
  (forall i, in_i64 (at0 (withdraws (ev c')) i)) -> sound n c -> sound n c'.
Proof.
  intros Hp Hb Hid Hw [H1 H2 _ H4]. split; auto.
  - eapply own_ids_account; eassumption.
  - eapply supply_same; [apply Hp | apply H2].
  - eapply fresh_account; [exact Hp | | exact H4].
    rewrite Hid, (own_account _ H1 _ _ Hb), Hb. discriminate.
Qed.
Lemma sound_asset n b (c c' : EvalContext S) : put_asset b (current_state c) (current_state c') ->
  in_i64 (current_share_supply b) ->
  (forall i, in_i64 (at0 (withdraws (ev c')) i)) -> sound n c -> sound n c'.
Proof.
  intros Hp Hsup Hw [H1 H2 _ H4]. split; auto.
  - eapply own_ids_asset; eassumption.
  - eapply supply_put; eassumption.
  - eapply fresh_same; [apply Hp .. | exact H4].
Qed.

(** The condition of a balance that is put back, or made for a deposit. *)
Lemma stored_or_new (s : S) k cond b b' :
  own_ids s -> depositable cond = true ->
  default (new_balance_entry cond) (get_balance_entry s k) = b -> condition b' = condition b ->
  depositable (condition b') = true.
Proof.
  intros Ho Hc Hb ->. subst b. destruct (get_balance_entry s k) eqn:E; [| exact Hc].
  eapply own_condition; eassumption.
Qed.
Lemma stored_or_fresh (s : S) k b b' :
  own_ids s -> get_balance_entry s k = Some b \/
    get_balance_entry s (balance_id b) = None /\ balance b = 0 /\ depositable (condition b) = true ->
  condition b' = condition b -> depositable (condition b') = true.
Proof. intros Ho [Hb | (_ & _ & Hb)] ->; [eapply own_condition; eassumption | exact Hb]. Qed.

Lemma step_sound result n (c c' : EvalContext S) : sound n c -> step result c c' -> sound n c'.
Proof.
  intros Hs [_ Hstep].
  assert (forall id b w d, booked id b w d (ev c) (ev c') ->
            forall i, in_i64 (at0 (withdraws (ev c')) i)) as Hw
    by (intros id b w d Hb i; apply (booked_range _ _ _ _ _ _ Hb), (sound_withdraws _ _ Hs)).
  pose proof (sound_ids _ _ Hs) as Ho.
  destruct Hstep;
    match goal with
    | Hb : booked_in _ _ _ _ |- _ => pose proof (Hw _ _ _ _ Hb)
    | Hb : booked_out _ _ _ _ |- _ => pose proof (Hw _ _ _ _ Hb)
    | Hb : same_books _ _ |- _ => pose proof (Hw _ _ _ _ Hb)
    end;
    lazymatch goal with
    | Hp : put_balance _ _ _ |- _ => eapply sound_balance; [exact Hp | | eassumption ..]
    | Hp : put_account _ _ _ |- _ => eapply sound_account; [exact Hp | eassumption | | eassumption ..]
    | Hp : put_asset _ _ _ |- _ => eapply sound_asset; [exact Hp | | eassumption ..]
    | _ => eapply sound_same; eassumption
    end.
  - eapply stored_or_fresh; [exact Ho | left; eassumption | eassumption].
  - eapply stored_or_new; eassumption.
  - reflexivity.
  - assumption.
  - apply wrap_i64_range.
  - match goal with He : asset_evolves _ _ |- _ => rewrite (evolves_supply _ _ He) end.
    eapply sound_supply; eassumption.
  - match goal with He : current_share_supply _ = 0 |- _ => rewrite He end. apply zero_in_i64.
  - eapply stored_or_fresh; eassumption.
  - eapply stored_or_fresh; eassumption.
  - eapply stored_or_fresh; [exact Ho | left; eassumption | reflexivity].
  - match goal with Hc : condition ?x = condition ?y |- _ => rewrite Hc end.
    match goal with Hb : _ \/ _ |- _ => destruct Hb as [Hb | (_ & _ & ->)] end;
      [eapply own_condition; eassumption | assumption].
Qed.

Lemma register_sound n (c c' : EvalContext S) :
  sound (Datatypes.S n) c -> register_step c c' -> sound n c'.
Proof.
  intros [H1 H2 H3 (l & E & L1 & L2 & L3)] (x & last & s1 & El & Hid & _ & El' & Hb & Ha & Has & Hp & Hbk & _).
  assert (l = last) as -> by congruence.
  assert (wrap_i32 (last + 1) = last + 1) as Ew by (unfold wrap_i32; rewrite Z.mod_small; lia).
  split.
  - destruct H1 as [O1 O2 O3 O4], Hp as [P1 P2 P3 _].
    split; intros id y; rewrite ?P1, ?P2, ?P3, ?Hb, ?Ha, ?Has; eauto.
    destruct (Z.eqb_spec id (account_id x)); [intros [= <-]; congruence | eauto].
  - intros id y. rewrite (put_account_assets _ _ _ Hp), Has. apply H2.
  - intros i. apply (booked_range _ _ _ _ _ _ Hbk), H3.
  - exists (last + 1). rewrite El', Hid, Ew. repeat split; try lia.
    intros id. rewrite (put_account_accounts _ _ _ Hp), Ha, Hid, Ew.
    destruct (Z.eqb_spec id (last + 1)); [lia |]. intros Hn. specialize (L3 _ Hn). lia.
Qed.

Lemma steps_sound result n m (c c' : EvalContext S) :
  steps result n c c' -> sound (n + m) c -> sound m c'.
Proof.
  induction 1 as [| n c c1 c' Hs _ IH | n c c1 c' Hr _ IH]; intros Hsound; [exact Hsound | |].
  - apply IH. eapply step_sound; eassumption.
  - apply IH. eapply register_sound; eassumption.
Qed.
End SoundSteps.

(** ** Conservation *)

Section Conservation.
Context `{ChainParams} {S : Type} `{HI : ChainInterface S} `{SP : !LedgerSupport S}.

(** Balances of contracts wrap around int64_t in result transactions. *)
Definition turn (result : bool) : Z := if result then 2 ^ 64 else 0.

(** Shares held and shares still in the books. *)
Definition in_hand (c : EvalContext S) (a : AssetIdType) : Z :=
  surplus (current_state c) a + at0 (es_balance (ev c)) a.

(** Moving [amt] from a balance into the books. *)
Lemma balance_moves result k b b' amt (c c' : EvalContext S) a :
  own_ids (current_state c) ->
  (get_balance_entry (current_state c) k = Some b \/
   get_balance_entry (current_state c) (balance_id b) = None /\ balance b = 0) ->
  condition b' = condition b -> (exists n, balance b' = balance b - amt + n * turn result) ->
  put_balance b' (current_state c) (current_state c') ->
  at0 (es_balance (ev c')) a =
    at0 (es_balance (ev c)) a + (if a =? cond_asset_id (condition b) then amt else 0) ->
  exists n, in_hand c' a = in_hand c a + n * turn result.
Proof.
  intros Ho Hb Hc [n Hn] Hp He. unfold in_hand.
  rewrite He, (surplus_put_balance _ _ _ _ Hp).
  assert (shares_of a (get_balance_entry (current_state c) (balance_id b')) = shares_of a (Some b)) as ->.
  { unfold balance_id. rewrite Hc. fold (balance_id b). destruct Hb as [Hb | [Hb Hz]].
    - now rewrite (own_balance _ Ho _ _ Hb), Hb.
    - rewrite Hb. cbn. rewrite Hz. now destruct (_ =? a). }
  cbn [shares_of]. rewrite Hc, (Z.eqb_sym a).
  destruct (cond_asset_id (condition b) =? a); [exists n | exists 0]; lia.
Qed.

Lemma issue_exact x amt (c c' : EvalContext S) n id : sound n c ->
  get_asset_entry (current_state c) id = Some x -> can_issue x (mkAsset amt id) = true ->
  booked_in id amt (ev c) (ev c') ->
  wrap_i64 (current_share_supply x + amt) = current_share_supply x + amt /\
  current_share_supply x + amt <= maximum_share_supply x /\ ast_id x = id.
Proof.
  intros Hs Hx Hcan Hb.
  pose proof (booked_range _ _ _ _ _ _ Hb id (sound_withdraws _ _ Hs id)) as H1.
  pose proof (booked_withdraws _ _ _ _ _ _ Hb id) as H2. rewrite Z.eqb_refl in H2.
  pose proof (sound_withdraws _ _ Hs id) as H3.
  destruct (can_issue_exact x (mkAsset amt id) (sound_supply _ _ Hs _ _ Hx)) with (2 := Hcan) as (Hi & _ & Hw & Hm).
  - cbn. unfold in_i64, INT64_MIN, INT64_MAX in *. lia.
  - cbn in Hi, Hw, Hm. auto.
Qed.

(** Of a balance with a known condition all is spendable. *)
Lemma spendable_all b : depositable (condition b) = true ->
  amount (get_spendable_balance b) = balance b.
Proof.
  unfold depositable, get_spendable_balance. intros Hd.
  replace (_ || _ || _) with true; [reflexivity |].
  rewrite <- Hd. now destruct (_ =? withdraw_signature_type), (_ =? withdraw_multisig_type), (_ =? _).
Qed.

Lemma pay_moves (c c' : EvalContext S) id x x' d a : own_ids (current_state c) ->
  get_account_entry (current_state c) id = Some x -> account_id x' = account_id x ->
  pay_of x' = pay_of x - d -> put_account x' (current_state c) (current_state c') ->
  at0 (es_balance (ev c')) a = at0 (es_balance (ev c)) a + (if a =? 0 then d else 0) ->
  in_hand c' a = in_hand c a.
Proof.
  intros Ho Hx Hid Hpay Hp He. unfold in_hand. rewrite He, (surplus_put_account _ _ _ _ Hp).
  rewrite Hid, (own_account _ Ho _ _ Hx), Hx. cbn [pay_in]. rewrite Hpay. destruct (a =? 0); lia.
Qed.

Lemma asset_moves (c c' : EvalContext S) o x' d a :
  get_asset_entry (current_state c) (ast_id x') = o ->
  fees_less_supply (Some x') = fees_less_supply o - d ->
  put_asset x' (current_state c) (current_state c') ->
  at0 (es_balance (ev c')) a = at0 (es_balance (ev c)) a + (if a =? ast_id x' then d else 0) ->
  in_hand c' a = in_hand c a.
Proof.
  intros Ho Hd Hp He. unfold in_hand. rewrite He, (surplus_put_asset _ _ _ _ Hp).
  destruct (Z.eqb_spec a (ast_id x')) as [-> |]; [rewrite Ho, Hd |]; lia.
Qed.

Lemma step_conserves result n (c c' : EvalContext S) a : sound n c -> step result c c' ->
  exists k, in_hand c' a = in_hand c a + k * turn result.
Proof.
  intros Hs [_ Hstep]. pose proof (sound_ids _ _ Hs) as Ho.
  assert (forall id b w d, booked id b w d (ev c) (ev c') -> at0 (es_balance (ev c')) a =
            at0 (es_balance (ev c)) a + (if a =? id then b else 0)) as Hbk
    by (intros id b w d Hb; apply (booked_balance _ _ _ _ _ _ Hb)).
  assert (forall x y, x = y -> exists k, x = y + k * turn result) as Hex
    by (intros; exists 0; lia).
  assert (forall w, exists k, wrap_i64 w = w + k * turn true) as Hwrap by apply wrap_i64_turns.
  destruct Hstep;
    try match goal with
    | Hb : booked_in _ _ _ _ |- _ => pose proof (Hbk _ _ _ _ Hb)
    | Hb : booked_out _ _ _ _ |- _ => pose proof (Hbk _ _ _ _ Hb)
    | Hb : same_books _ _ |- _ => pose proof (Hbk _ _ _ _ Hb)
    end.
  - apply Hex. unfold in_hand.
    match goal with Hl : same_ledger _ _, He : at0 _ a = _ |- _ =>
      rewrite (surplus_same _ _ _ Hl), He end. destruct (a =? 0); lia.
  - eapply balance_moves with (amt := amt); try eassumption; [left; eassumption | apply Hex; lia].
  - eapply balance_moves with (amt := - amt); try eassumption; [| apply Hex; lia].
    subst b. destruct (get_balance_entry _ _) eqn:E; [left; exact E | right; now split].
  - apply Hex. eapply pay_moves with (d := amt); try eassumption; [reflexivity |].
    unfold pay_of. cbn. match goal with Hd : delegate_info _ = _ |- _ => now rewrite Hd end.
  - apply Hex. eapply pay_moves with (d := 0); try eassumption. lia.
  - destruct (issue_exact a0 amt c c' n id) as (Hw & _ & Hi); try assumption.
    apply Hex. eapply asset_moves with (d := amt); [reflexivity | | eassumption |]; cbn; rewrite Hi.
    + match goal with Ha : get_asset_entry _ _ = _ |- _ => rewrite Ha end. cbn. rewrite Hw. lia.
    + assumption.
  - match goal with He : asset_evolves _ _ |- _ => destruct He as [Hid Hsup Hfee _ _ _ _] end.
    apply Hex. eapply asset_moves with (d := 0); [reflexivity | | eassumption |].
    + match goal with Ha : get_asset_entry _ _ = _ |- _ =>
        rewrite Hid, (own_asset _ Ho _ _ Ha), Ha end. cbn. lia.
    + match goal with He : at0 _ a = _ |- _ => rewrite He end. destruct (a =? 0), (a =? _); lia.
  - apply Hex. eapply asset_moves with (d := 0); [eassumption | cbn; lia | eassumption |].
    match goal with He : at0 _ a = _ |- _ => rewrite He end. destruct (a =? 0), (a =? _); lia.
  - eapply balance_moves with (amt := 0); try eassumption; [| apply Hex; lia |].
    + match goal with Hb : _ \/ _ |- _ => destruct Hb as [Hf | (Hf & Hz & _)] end;
        [left; exact Hf | right; now split].
    + match goal with He : at0 _ a = _ |- _ => rewrite He end. destruct (a =? 0), (a =? _); lia.
  - subst result. destruct (Hwrap (balance b - amt)) as [j Hj].
    eapply balance_moves with (amt := amt); try eassumption.
    + match goal with Hb : _ \/ _ |- _ => destruct Hb as [Hf | (Hf & Hz & _)] end;
        [left; exact Hf | right; now split].
    + exists j. congruence.
    + match goal with Hc : cond_asset_id _ = 0 |- _ => now rewrite Hc end.
  - eapply balance_moves with (amt := amount (get_spendable_balance b)) (b := b); try eassumption.
    + left. eassumption.
    + reflexivity.
    + apply Hex. match goal with Hb : get_balance_entry _ _ = Some b |- _ =>
        rewrite (spendable_all b (own_condition _ Ho _ _ Hb)) end. cbn. lia.
    + match goal with Hc : cond_asset_id _ = 0 |- _ => now rewrite Hc end.
  - subst result. destruct (Hwrap (balance b + amt)) as [j Hj].
    eapply balance_moves with (amt := - amt); try eassumption.
    + match goal with Hb : _ \/ _ |- _ => destruct Hb as [Hf | (Hf & Hz & Hc)] end;
        [left; exact Hf | right].
      split; [| exact Hz]. unfold balance_id. now rewrite Hc.
    + exists j. lia.
Qed.

Lemma register_conserves n (c c' : EvalContext S) a : sound (Datatypes.S n) c ->
  register_step c c' -> in_hand c' a = in_hand c a.
Proof.
  intros [Ho _ _ (l & E & L1 & L2 & L3)]
    (x & last & s1 & El & Hid & Hpay & _ & Hb & Ha & Has & Hp & Hbk & _).
  assert (l = last) as -> by congruence.
  assert (wrap_i32 (last + 1) = last + 1) as Ew by (unfold wrap_i32; rewrite Z.mod_small; lia).
  unfold in_hand. rewrite (booked_balance _ _ _ _ _ _ Hbk a), (surplus_put_account _ _ _ _ Hp).
  assert (surplus s1 a = surplus (current_state c) a) as ->.
  { unfold surplus. now rewrite (balances_same _ _ _ Hb), (pays_same _ _ _ Ha), Has. }
  assert (get_account_entry s1 (account_id x) = None) as ->.
  { rewrite Ha, Hid, Ew. destruct (get_account_entry _ _) eqn:Ex; [| reflexivity].
    assert (last + 1 <= last); [apply L3; now rewrite Ex | lia]. }
  cbn [pay_in]. rewrite Hpay. destruct (a =? 0); lia.
Qed.

Lemma steps_conserve result n m (c c' : EvalContext S) a : steps result n c c' -> sound (n + m) c ->
  exists k, in_hand c' a = in_hand c a + k * turn result.
Proof.
  induction 1 as [c | n c c1 c' Hs _ IH | n c c1 c' Hr _ IH]; intros Hsound.
  - exists 0. lia.
  - destruct (step_conserves _ _ _ _ a Hsound Hs) as [k1 E1].
    destruct (IH (step_sound _ _ _ _ Hsound Hs)) as [k2 E2]. exists (k1 + k2). lia.
  - destruct (IH (register_sound _ _ _ Hsound Hr)) as [k2 E2]. exists k2.
    pose proof (register_conserves _ _ _ a Hsound Hr). lia.
Qed.

(** *** Settlement *)

Definition fee_of (a : AssetIdType) (fee : Z * Z) : Z := if fst fee =? a then snd fee else 0.

Lemma collects_sound l s s' : collects l s s' -> own_ids s ->
  own_ids s' /\
  (forall id x, get_asset_entry s' id = Some x ->
     exists x0, get_asset_entry s id = Some x0 /\ current_share_supply x = current_share_supply x0) /\
  (forall id, get_balance_entry s' id = get_balance_entry s id) /\
  (forall id, get_account_entry s' id = get_account_entry s id) /\
  last_account s' = last_account (S := S) s.
Proof.
  induction 1 as [s s' Hs | id l s s' _ IH | id amt l x s s1 s' _ Hx Hp _ IH]; intros Ho.
  - split; [eapply own_ids_same; eassumption |]. destruct Hs as [Hb Ha Has Hl].
    split; [| auto]. intros id x. rewrite Has. eauto.
  - auto.
  - destruct (IH (own_ids_asset _ _ _ Hp Ho)) as (Ho' & Has & Hb & Ha & Hl). destruct Hp as [P1 P2 P3 P4].
    split; [exact Ho' | split; [| split; [| split]]].
    + intros i y Hy. destruct (Has i y Hy) as (y0 & Hy0 & E). rewrite P3 in Hy0.
      destruct (Z.eqb_spec i (ast_id (set_collected_fees (collected_fees x + amt) x))) as [-> |]; eauto.
      injection Hy0 as <-. exists x. split; [| exact E].
      cbn. now rewrite (own_asset _ Ho _ _ Hx).
    + intros i. rewrite Hb. apply P1.
    + intros i. rewrite Ha. apply P2.
    + now rewrite Hl.
Qed.

Lemma collects_surplus l s s' a : collects l s s' -> own_ids s ->
  surplus s' a = surplus s a + zsum (map (fee_of a) l).
Proof.
  induction 1 as [s s' Hs | id l s s' _ IH | id amt l x s s1 s' _ Hx Hp _ IH]; intros Ho.
  - rewrite (surplus_same _ _ _ Hs). unfold zsum. cbn. lia.
  - rewrite IH by exact Ho. unfold zsum, fee_of. cbn. destruct (id =? a); lia.
  - rewrite (IH (own_ids_asset _ _ _ Hp Ho)), (surplus_put_asset _ _ _ _ Hp).
    cbn [ast_id set_collected_fees]. rewrite (own_asset _ Ho _ _ Hx).
    unfold zsum. cbn [map foldr]. unfold fee_of at 2. cbn [fst snd].
    rewrite (Z.eqb_sym a). destruct (Z.eqb_spec id a) as [<- |]; [| lia].
    rewrite Hx. cbn. lia.
Qed.

Lemma fees_total (m : gmap Z Z) a : zsum (map (fee_of a) (map_items m)) = at0 m a.
Proof.
  rewrite (zsum_perm _ (map (fee_of a) (map_to_list m))) by (apply Permutation_map, map_items_perm).
  induction m as [| i x m Hi IH] using map_ind.
  - rewrite map_to_list_empty. reflexivity.
  - rewrite (zsum_perm _ (map (fee_of a) ((i, x) :: map_to_list m)))
      by (apply Permutation_map; now rewrite map_to_list_insert).
    unfold zsum in *. cbn [map foldr]. rewrite IH. unfold fee_of. cbn [fst snd].
    rewrite at0_insert, (Z.eqb_sym i). destruct (Z.eqb_spec a i) as [-> |]; [| lia].
    unfold at0. rewrite Hi. cbn. lia.
Qed.

Lemma votes_surplus s s' a : votes s s' -> own_ids s -> surplus s' a = surplus (S := S) s a.
Proof.
  induction 1 as [s s' Hs | id x x' s s1 s' Hx Hid Hpay Hp _ IH]; intros Ho;
    [now apply surplus_same |].
  rewrite (IH (own_ids_account _ _ _ Hp Ho)), (surplus_put_account _ _ _ _ Hp).
  rewrite Hid, (own_account _ Ho _ _ Hx), Hx. cbn [pay_in]. rewrite Hpay. lia.
Qed.

Lemma settled_conserves n (c c' : EvalContext S) a : sound n c -> settled c c' ->
  surplus (current_state c') a = in_hand c a.
Proof.
  intros Hs (fees & s1 & Hf & Hc & Hv & _).
  destruct (collects_sound _ _ _ Hc (sound_ids _ _ Hs)) as (Ho & _).
  rewrite (votes_surplus _ _ a Hv Ho), (collects_surplus _ _ _ a Hc (sound_ids _ _ Hs)), fees_total.
  unfold in_hand. rewrite (Hf a). destruct (a =? 0); lia.
Qed.

Lemma votes_sound s s' : votes s s' -> own_ids s -> 
  own_ids s' /\ (forall id, get_asset_entry s' id = get_asset_entry s id) /\
  (forall n, accounts_fresh n s -> accounts_fresh (S := S) n s').
Proof.
  induction 1 as [s s' Hs | id x x' s s1 s' Hx Hid Hpay Hp _ IH]; intros Ho.
  - split; [eapply own_ids_same; eassumption | split; [apply Hs |]].
    intros n. apply fresh_same; apply Hs.
  - destruct (IH (own_ids_account _ _ _ Hp Ho)) as (Ho' & Has & Hf).
    split; [exact Ho' | split].
    + intros i. rewrite Has. apply Hp.
    + intros n Hn. apply Hf. eapply fresh_account; [exact Hp | | exact Hn].
      rewrite Hid, (own_account _ Ho _ _ Hx), Hx. discriminate.
Qed.

Lemma settled_sound n (c c' : EvalContext S) : settled c c' -> sound n c -> sound n c'.
Proof.
  intros (fees & s1 & _ & Hc & Hv & Hb & _) [H1 H2 H3 H4].
  destruct (collects_sound _ _ _ Hc H1) as (Ho1 & Has1 & _ & Ha1 & Hl1).
  destruct (votes_sound _ _ Hv Ho1) as (Ho & Has & Hf). split.
  - exact Ho.
  - intros id x. rewrite Has. intros (x0 & Hx0 & ->)%Has1. eapply H2, Hx0.
  - intros i. apply (booked_range _ _ _ _ _ _ Hb), H3.
  - apply Hf. eapply fresh_same; [exact Ha1 | exact Hl1 | exact H4].
Qed.

Lemma closes_sound trx n (c c' : EvalContext S) : closes trx c c' -> sound n c -> sound n c'.
Proof.
  unfold closes. destruct (ignores_required_fee trx); [| apply settled_sound].
  intros [Hl Hb _] Hs. eapply sound_same; [exact Hl | | exact Hs].
  intros i. apply (booked_range _ _ _ _ _ _ Hb), (sound_withdraws _ _ Hs).
Qed.
End Conservation.

(** ** Transactions *)

Section TransactionConservation.
Context `{ChainParams} {S : Type} `{HI : ChainInterface S} `{HL : !ChainInterfaceLaws S}
  `{LW : !LedgerLaws S} `{SP : !LedgerSupport S} `{VM : GluaVM S}.

(** The conditions evaluate_steps puts on a transaction: it is not itself
    part of a result, and its result holds no further transaction. *)
Definition flat (trx : SignedTransaction) (c : EvalContext S) : Prop :=
  evaluate_contract_result (ev c) = false /\
  (is_result trx = true -> Forall plain (tail (operations trx))).

Lemma settled_surplus trx ignore_state (c : EvalContext S) u c' a :
  flat trx c -> sound (registrations (operations trx)) c -> ignores_required_fee trx = false ->
  evaluate_transaction trx ignore_state c = (Ok u, c') ->
  exists k, surplus (current_state c') a = in_hand c a + k * turn (is_result trx).
Proof.
  intros [Hm Hp] Hs Hfee R. rewrite <- (Nat.add_0_r (registrations _)) in Hs.
  destruct (evaluate_steps trx ignore_state c u c' Hm Hp R) as (c1 & Hsteps & Hc).
  unfold closes in Hc. rewrite Hfee in Hc.
  rewrite (settled_conserves _ _ _ _ (steps_sound _ _ _ _ _ Hsteps Hs) Hc).
  eapply steps_conserve; eassumption.
Qed.

(** C4: An evaluated transaction that is not a contract result and whose fees
    are settled leaves, for every asset, the shares held in balances, delegate
    pay and collected fees less the share supply as they were: nothing but
    issuing makes shares.  The state is sound and the books are empty when it
    begins. *)
Theorem shares_conserved trx ignore_state (c : EvalContext S) u c' a :
  evaluate_contract_result (ev c) = false -> is_result trx = false ->
  sound (registrations (operations trx)) c -> ignores_required_fee trx = false ->
  at0 (es_balance (ev c)) a = 0 ->
  evaluate_transaction trx ignore_state c = (Ok u, c') ->
  surplus (current_state c') a = surplus (current_state c) a.
Proof.
  intros Hm Hr Hs Hfee Hb R.
  destruct (settled_surplus trx ignore_state c u c' a) as [k Hk]; try assumption.
  { split; [exact Hm | now rewrite Hr]. }
  rewrite Hr in Hk. unfold in_hand, turn in Hk. lia.
Qed.

(** C5: A complete result of a contract transaction conserves the shares of
    every asset up to multiples of 2^64, since balances of contracts wrap
    around, unless another transaction is nested behind its first operation:
    that one would settle the books once more and make shares
    ([nested_result_settles_twice] in LedgerTables).  The state is sound and
    the books are empty when it begins. *)
Theorem result_shares_conserved trx ignore_state (c : EvalContext S) u c' a :
  evaluate_contract_result (ev c) = false -> Forall plain (tail (operations trx)) ->
  sound (registrations (operations trx)) c -> ignores_required_fee trx = false ->
  at0 (es_balance (ev c)) a = 0 ->
  evaluate_transaction trx ignore_state c = (Ok u, c') ->
  surplus (current_state c') a mod 2 ^ 64 = surplus (current_state c) a mod 2 ^ 64.
Proof.
  intros Hm Hp Hs Hfee Hb R.
  destruct (settled_surplus trx ignore_state c u c' a) as [k Hk]; try assumption.
  { now split. }
  unfold in_hand in Hk. rewrite Hb, Z.add_0_r in Hk. rewrite Hk.
  unfold turn. destruct (is_result trx); [apply Z_mod_plus_full | f_equal; lia].
Qed.

(** C6: Evaluation, not as part of a result, keeps the state sound: entries
    under their own ids, known withdraw conditions, supplies and withdraws in
    int64_t, and no account beyond the counter, with room for [n] more.
    Results with a transaction nested behind the first operation are excluded:
    [registrations] does not count what the nested transaction registers. *)
Theorem evaluate_keeps_sound trx ignore_state (c : EvalContext S) u c' n :
  evaluate_contract_result (ev c) = false ->
  (is_result trx = true -> Forall plain (tail (operations trx))) ->
  sound (registrations (operations trx) + n) c ->
  evaluate_transaction trx ignore_state c = (Ok u, c') ->
  sound n c'.
Proof.
  intros Hm Hp Hs R.
  destruct (evaluate_steps trx ignore_state c u c' Hm Hp R) as (c1 & Hsteps & Hc).
  eapply closes_sound; [exact Hc |]. eapply steps_sound; eassumption.
Qed.
End TransactionConservation.
