(* ===== verification/Safety.v ===== *)
(** * What a transaction cannot do

    Safety of evaluated transactions, on the ledger that Transactions.v shows
    they refine: funds whose owners have not signed stay, fees are what goes
    in less what comes out, and the rules of an asset with shares are kept. *)

From Stdlib Require Import ZArith Lia Bool String.
From stdpp Require Import base gmap strings list sorting fin_sets.
From S2P Require Import Prelude Asset Entries Names ChainInterface ChainState AssetEntry.
From S2P Require Import EvalState BalanceOperations AssetOperations ContractOperations Evaluate Ledger.
From S2P Require Import QuietOperations Refinement Transactions Conservation.

Local Open Scope Z_scope.

(** ** Signatures only grow *)

Section Authority.
Context `{ChainParams}.





End Authority.

(** ** Invariants of steps *)

Section StepInvariants.
Context `{ChainParams} {S : Type} `{HI : ChainInterface S}.

Lemma step_keys result (c c' : EvalContext S) : step result c c' -> keys_grow (ev c) (ev c').
Proof. now intros [Hk _]. Qed.
Lemma register_keys (c c' : EvalContext S) : register_step c c' -> keys_grow (ev c) (ev c').
Proof. intros (a & l & s1 & Hr). apply Hr. Qed.
Lemma steps_keys result n (c c' : EvalContext S) : steps result n c c' -> keys_grow (ev c) (ev c').
Proof.
  induction 1 as [| n c c1 c' Hs _ IH | n c c1 c' Hr _ IH]; [reflexivity | |].
  - etransitivity; [eapply step_keys, Hs | exact IH].
  - etransitivity; [eapply register_keys, Hr | exact IH].
Qed.

(** An invariant of the steps, with the registrations to come; no more keys
    sign at a step than in the end. *)
Lemma steps_invariant (I : nat -> EvalContext S -> Prop) result n m (c c' : EvalContext S) :
  (forall i x y, step result x y -> keys_grow (ev x) (ev c') -> I i x -> I i y) ->
  (forall i x y, register_step x y -> I (Datatypes.S i) x -> I i y) ->
  steps result n c c' -> I (n + m)%nat c -> I m c'.
Proof.
  intros Hstep Hreg Hs. induction Hs as [c | n c c1 c' Hs Hn IH | n c c1 c' Hr Hn IH]; intros Hc.
  - exact Hc.
  - apply IH; [exact Hstep |]. eapply Hstep; [exact Hs | | exact Hc].
    etransitivity; [eapply step_keys, Hs | eapply steps_keys, Hn].
  - apply IH; [exact Hstep |]. eapply Hreg; [exact Hr | exact Hc].
Qed.
End StepInvariants.

(** ** Permissions *)

Lemma permitted_trans p q r : permitted p q = true -> permitted q r = true -> permitted p r = true.
Proof.
  unfold permitted. rewrite !forallb_forall. intros H1 H2 x Hx. specialize (H1 x Hx). specialize (H2 x Hx).
  destruct (has_flag p x), (has_flag q x), (has_flag r x); easy.
Qed.
Lemma permitted_flag p q f : In f all_permissions -> permitted p q = true ->
  has_flag q f = false -> has_flag p f = false.
Proof.
  unfold permitted. rewrite forallb_forall. intros Hf Hp Hq. specialize (Hp f Hf).
  rewrite Hq, orb_false_r in Hp. now destruct (has_flag p f).
Qed.

Lemma supply_unlimit_listed : In supply_unlimit all_permissions.
Proof. cbn. tauto. Qed.

(** ** Funds *)

Section Funds.
Context `{ChainParams} {S : Type} `{HI : ChainInterface S}.

Lemma can_issue_positive a amt id : can_issue a (mkAsset amt id) = true -> 0 < amt.
Proof.
  unfold can_issue, can_issue_shares. cbn. destruct (negb _); [discriminate |].
  destruct (Z.leb_spec amt 0); [discriminate | auto].
Qed.











End Funds.

(** ** Settlement leaves balances and authorities alone *)

Section SettlementFrame.
Context `{ChainParams} {S : Type} `{HI : ChainInterface S}.

Lemma votes_frame (s s' : S) : votes s s' ->
  (forall id, get_balance_entry s' id = get_balance_entry s id) /\
  (forall id, get_asset_entry s' id = get_asset_entry s id).
Proof.
  induction 1 as [s s' Hs | id x x' s s1 s' _ _ _ Hp _ [IHb IHa]].
  - split; apply Hs.
  - split; intros i; rewrite ?IHb, ?IHa; apply Hp.
Qed.
End SettlementFrame.

(** ** Collected fees *)

Section Fees.
Context `{ChainParams} {S : Type} `{HI : ChainInterface S}.

Definition fees_in (o : option AssetEntry) : ShareType :=
  match o with Some x => collected_fees x | None => 0 end.

(** Inputs less outputs are what is left in the books, and no fee is
    collected before the settlement. *)
Record books_of (a : AssetIdType) (fees left : ShareType) (c : EvalContext S) : Prop := {
  books_fees : fees_in (get_asset_entry (current_state c) a) = fees;
  books_left : at0 (es_balance (ev c)) a - (at0 (withdraws (ev c)) a - at0 (deposits (ev c)) a) = left
}.

Lemma booked_books id b w d e e' a : booked id b w d e e' -> b = w - d ->
  at0 (es_balance e') a - (at0 (withdraws e') a - at0 (deposits e') a) =
  at0 (es_balance e) a - (at0 (withdraws e) a - at0 (deposits e) a).
Proof. intros [H1 H2 H3 _] ->. rewrite H1, H2, H3. destruct (a =? id); lia. Qed.

Lemma step_books result a fees left n (c c' : EvalContext S) : sound n c -> step result c c' ->
  books_of a fees left c -> books_of a fees left c'.
Proof.
  intros Hs [_ Hstep] [Hf Hl]. pose proof (sound_ids _ _ Hs) as Ho. split; [rewrite <- Hf | rewrite <- Hl].
  - destruct Hstep;
      match goal with
      | Hp : put_asset _ _ _ |- _ => rewrite (put_asset_assets _ _ _ Hp)
      | Hp : put_balance _ _ _ |- _ => now rewrite (put_balance_assets _ _ _ Hp)
      | Hp : put_account _ _ _ |- _ => now rewrite (put_account_assets _ _ _ Hp)
      | Hp : same_ledger _ _ |- _ => now rewrite (same_assets _ _ Hp)
      end.
    + cbn [ast_id set_ast_last_update set_current_share_supply].
      destruct (Z.eqb_spec a (ast_id a0)) as [-> |]; [| reflexivity].
      rewrite (own_asset _ Ho _ _ ltac:(eassumption)).
      match goal with Ha : get_asset_entry _ _ = Some a0 |- _ => now rewrite Ha end.
    + match goal with He : asset_evolves _ _ |- _ => rewrite (evolves_id _ _ He) end.
      destruct (Z.eqb_spec a (ast_id a0)) as [-> |]; [| reflexivity].
      rewrite (own_asset _ Ho _ _ ltac:(eassumption)).
      match goal with Ha : get_asset_entry _ _ = Some a0 |- _ => rewrite Ha end.
      cbn. now apply evolves_fees.
    + destruct (Z.eqb_spec a (ast_id a')) as [-> |]; [| reflexivity].
      match goal with Ha : get_asset_entry _ _ = None |- _ => rewrite Ha end. assumption.
  - destruct Hstep;
      match goal with
      | Hb : booked_in _ _ _ _ |- _ => apply (booked_books _ _ _ _ _ _ a Hb); lia
      | Hb : booked_out _ _ _ _ |- _ => apply (booked_books _ _ _ _ _ _ a Hb); lia
      | Hb : same_books _ _ |- _ => apply (booked_books _ _ _ _ _ _ a Hb); lia
      end.
Qed.

Lemma register_books a fees left (c c' : EvalContext S) : register_step c c' ->
  books_of a fees left c -> books_of a fees left c'.
Proof.
  intros (x & last & s1 & _ & _ & _ & _ & _ & _ & Has & Hp & Hb & _) [Hf Hl].
  split; [rewrite <- Hf, (put_account_assets _ _ _ Hp), Has; reflexivity | rewrite <- Hl].
  apply (booked_books _ _ _ _ _ _ a Hb). lia.
Qed.

Lemma collects_fees l (s s' : S) a : collects l s s' -> own_ids s ->
  fees_in (get_asset_entry s' a) = fees_in (get_asset_entry s a) + zsum (map (fee_of a) l) /\
  0 <= zsum (map (fee_of a) l).
Proof.
  induction 1 as [s s' Hs | id l s s' _ IH | id amt l x s s1 s' Hpos Hx Hp _ IH]; intros Ho.
  - rewrite (same_assets _ _ Hs). unfold zsum. cbn. lia.
  - destruct (IH Ho) as [-> IHp]. unfold zsum, fee_of in *. cbn in *. destruct (id =? a); lia.
  - destruct (IH (own_ids_asset _ _ _ Hp Ho)) as [-> IHp]. rewrite (put_asset_assets _ _ _ Hp).
    cbn [ast_id set_collected_fees]. rewrite (own_asset _ Ho _ _ Hx).
    unfold zsum, fee_of in *. cbn [map foldr fst snd] in *. rewrite (Z.eqb_sym a).
    destruct (Z.eqb_spec id a) as [<- |]; [rewrite Hx; cbn |]; lia.
Qed.
End Fees.

(** ** The rules of an asset *)

(** What holders may rely on once [x] has shares. *)
Record rules_kept (x x' : AssetEntry) : Prop := {
  rules_id : ast_id x' = ast_id x;
  rules_supply : current_share_supply x <= current_share_supply x';
  rules_precision : precision x' = precision x;
  rules_permissions : permitted (issuer_permissions x') (issuer_permissions x) = true;
  rules_maximum : has_flag (flags x) supply_unlimit = false ->
    has_flag (issuer_permissions x) supply_unlimit = false ->
    has_flag (flags x') supply_unlimit = false /\ maximum_share_supply x' = maximum_share_supply x /\
    (current_share_supply x <= maximum_share_supply x ->
     current_share_supply x' <= maximum_share_supply x')
}.

Section AssetRules.
Context `{ChainParams} {S : Type} `{HI : ChainInterface S}.

#[export] Instance rules_kept_preorder : PreOrder rules_kept.
Proof.
  split.
  - intros x. split; auto using permitted_refl; lia.
  - intros x y z [H1 H2 H3 H4 H5] [K1 K2 K3 K4 K5].
    split; [congruence | lia | congruence | eapply permitted_trans; eassumption |].
    intros Hf Hp. destruct (H5 Hf Hp) as (H6 & H7 & H8).
    destruct (K5 H6 (permitted_flag _ _ _ supply_unlimit_listed H4 Hp)) as (K6 & K7 & K8).
    split; [exact K6 | split; [congruence | auto]].
Qed.

Lemma evolves_rules x x' : asset_evolves x x' -> 0 < current_share_supply x -> rules_kept x x'.
Proof.
  intros [E1 E2 E3 E4 E5 E6 E7] Hpos. split; [exact E1 | lia | auto | auto |].
  intros Hf Hp. split; [| rewrite E5 by assumption; split; [reflexivity | lia]].
  destruct E7 as [E7 | [-> _]]; [| exact Hf].
  apply (permitted_flag _ _ _ supply_unlimit_listed E7).
  apply (permitted_flag _ _ _ supply_unlimit_listed (E6 Hpos) Hp).
Qed.

Definition asset_keeps (x : AssetEntry) (s : S) : Prop :=
  exists x', get_asset_entry s (ast_id x) = Some x' /\ rules_kept x x'.

Lemma asset_keeps_put x (s s' : S) a' : asset_keeps x s -> put_asset a' s s' ->
  (forall y, get_asset_entry s (ast_id a') = Some y -> rules_kept x y -> rules_kept y a') ->
  asset_keeps x s'.
Proof.
  intros (y & Hy & Hr) Hp Ha. unfold asset_keeps. rewrite (put_asset_assets _ _ _ Hp).
  destruct (Z.eqb_spec (ast_id x) (ast_id a')) as [E |]; [| eauto].
  exists a'. split; [reflexivity |]. rewrite Hr. apply Ha; congruence.
Qed.
Lemma asset_keeps_same x (s s' : S) :
  (forall id, get_asset_entry s' id = get_asset_entry s id) -> asset_keeps x s -> asset_keeps x s'.
Proof. intros Has (y & Hy & Hr). exists y. now rewrite Has. Qed.

Lemma issue_rules n y t amt id (c c' : EvalContext S) : sound n c ->
  get_asset_entry (current_state c) id = Some y -> can_issue y (mkAsset amt id) = true ->
  booked_in id amt (ev c) (ev c') ->
  rules_kept y (set_ast_last_update t
    (set_current_share_supply (wrap_i64 (current_share_supply y + amt)) y)).
Proof.
  intros Hs Hy Hcan Hb. destruct (issue_exact _ _ _ _ _ _ Hs Hy Hcan Hb) as (Hw & Hm & _).
  pose proof (can_issue_positive _ _ _ Hcan).
  split; cbn; rewrite ?Hw; [reflexivity | lia | reflexivity | apply permitted_refl |].
  intros Hf _. split; [exact Hf | lia].
Qed.

Lemma step_asset_rules result n x (c c' : EvalContext S) : 0 < current_share_supply x ->
  sound n c -> step result c c' -> asset_keeps x (current_state c) -> asset_keeps x (current_state c').
Proof.
  intros Hpos Hs [_ Hstep] Hk. pose proof (sound_ids _ _ Hs) as Ho. destruct Hstep;
    match goal with
    | Hp : put_asset _ _ _ |- _ => apply (asset_keeps_put _ _ _ _ Hk Hp)
    | Hp : put_balance _ _ _ |- _ => exact (asset_keeps_same _ _ _ (put_balance_assets _ _ _ Hp) Hk)
    | Hp : put_account _ _ _ |- _ => exact (asset_keeps_same _ _ _ (put_account_assets _ _ _ Hp) Hk)
    | Hp : same_ledger _ _ |- _ => exact (asset_keeps_same _ _ _ (same_assets _ _ Hp) Hk)
    end.
  - intros y. cbn [ast_id set_ast_last_update set_current_share_supply].
    rewrite (own_asset _ Ho _ _ ltac:(eassumption)). intros Hy Hr.
    replace a with y in * by congruence. eapply issue_rules; eassumption.
  - intros y. match goal with He : asset_evolves _ _ |- _ => rewrite (evolves_id _ _ He) end.
    rewrite (own_asset _ Ho _ _ ltac:(eassumption)). intros Hy Hr.
    replace a with y in * by congruence. apply evolves_rules; [assumption |].
    pose proof (rules_supply _ _ Hr). lia.
  - congruence.
Qed.

Lemma collects_rules l x (s s' : S) : collects l s s' -> own_ids s ->
  asset_keeps x s -> asset_keeps x s'.
Proof.
  induction 1 as [s s' Hs | id l s s' _ IH | id amt l a s s1 s' Hpos Ha Hp _ IH]; intros Ho Hk; auto.
  - exact (asset_keeps_same _ _ _ (same_assets _ _ Hs) Hk).
  - apply IH; [eapply own_ids_asset; eassumption |]. apply (asset_keeps_put _ _ _ _ Hk Hp).
    intros y. cbn [ast_id set_collected_fees]. rewrite (own_asset _ Ho _ _ Ha). intros Hy _.
    replace a with y by congruence.
    split; cbn; [reflexivity | lia | reflexivity | apply permitted_refl | auto].
Qed.

Lemma closes_rules trx x n (c c' : EvalContext S) : sound n c -> closes trx c c' ->
  asset_keeps x (current_state c) -> asset_keeps x (current_state c').
Proof.
  unfold closes. intros Hs. destruct (ignores_required_fee trx).
  - intros [Hl _ _]. apply asset_keeps_same, Hl.
  - intros (fees & s1 & _ & Hc & Hv & _) Hk. apply (asset_keeps_same _ s1); [apply votes_frame, Hv |].
    eapply collects_rules; [exact Hc | apply sound_ids in Hs; exact Hs | exact Hk].
Qed.
End AssetRules.

(** ** Transactions *)

Section TransactionSafety.
Context `{ChainParams} {S : Type} `{HI : ChainInterface S} `{HL : !ChainInterfaceLaws S}
  `{LW : !LedgerLaws S} `{VM : GluaVM S}.


(** C10: The fees a settled transaction adds to an asset are exactly its
    withdrawals, pay and issued shares among them, less its deposits in that
    asset, and never negative.  The state is sound and the books agree when it
    begins.  A result with a transaction nested behind its first operation is
    excluded: its fees are collected twice ([nested_result_settles_twice] in
    LedgerTables). *)
Theorem fees_collected trx ignore_state (c : EvalContext S) u c' a :
  evaluate_contract_result (ev c) = false ->
  (is_result trx = true -> Forall plain (tail (operations trx))) ->
  sound (registrations (operations trx)) c -> ignores_required_fee trx = false ->
  at0 (es_balance (ev c)) a = at0 (withdraws (ev c)) a - at0 (deposits (ev c)) a ->
  evaluate_transaction trx ignore_state c = (Ok u, c') ->
  fees_in (get_asset_entry (current_state c') a) = fees_in (get_asset_entry (current_state c) a)
    + (at0 (withdraws (ev c')) a - at0 (deposits (ev c')) a) /\
  at0 (deposits (ev c')) a <= at0 (withdraws (ev c')) a.
Proof.
  intros Hm Hp Hs Hfee Hb R. rewrite <- (Nat.add_0_r (registrations _)) in Hs.
  destruct (evaluate_steps trx ignore_state c u c' Hm Hp R) as (c1 & Hsteps & Hc).
  unfold closes in Hc. rewrite Hfee in Hc. destruct Hc as (fees & s1 & Hf & Hc & Hv & Hbk & _).
  destruct (steps_invariant (fun i x => sound i x /\ books_of a (fees_in (get_asset_entry (current_state c) a)) 0 x)
              (is_result trx) (registrations (operations trx)) 0 c c1) as [Hs1 [Hf1 Hl1]]; [| | exact Hsteps | |].
  - intros i x y Hxy _ [Hi Hx]. split; [eapply step_sound | eapply step_books]; eassumption.
  - intros i x y Hxy [Hi Hx]. split; [eapply register_sound | eapply register_books]; eassumption.
  - split; [exact Hs |]. split; [reflexivity | lia].
  - destruct (collects_fees _ _ _ a Hc (sound_ids _ _ Hs1)) as [Hfe Hpos].
    rewrite fees_total, (Hf a) in Hfe, Hpos. rewrite (proj2 (votes_frame _ _ Hv)), Hfe, Hf1.
    rewrite (booked_withdraws _ _ _ _ _ _ Hbk), (booked_deposits _ _ _ _ _ _ Hbk).
    destruct (a =? 0); lia.
Qed.

(** C11: Once an asset has shares no transaction changes its precision or
    gives its issuer new permissions; its supply only grows, and up to the
    maximum, which stays, unless the supply is or may be made unlimited.  The
    state is sound, and the transaction is not a result with a transaction
    nested behind its first operation. *)
Theorem asset_rules_kept trx ignore_state (c : EvalContext S) u c' x :
  evaluate_contract_result (ev c) = false ->
  (is_result trx = true -> Forall plain (tail (operations trx))) ->
  sound (registrations (operations trx)) c ->
  get_asset_entry (current_state c) (ast_id x) = Some x -> 0 < current_share_supply x ->
  evaluate_transaction trx ignore_state c = (Ok u, c') ->
  exists x', get_asset_entry (current_state c') (ast_id x) = Some x' /\ rules_kept x x'.
Proof.
  intros Hm Hp Hs Hx Hpos R. rewrite <- (Nat.add_0_r (registrations _)) in Hs.
  destruct (evaluate_steps trx ignore_state c u c' Hm Hp R) as (c1 & Hsteps & Hc).
  destruct (steps_invariant (fun i y => sound i y /\ asset_keeps x (current_state y))
              (is_result trx) (registrations (operations trx)) 0 c c1) as [Hs1 Hk1]; [| | exact Hsteps | |].
  - intros i y z Hyz _ [Hi Hy]. split; [eapply step_sound | eapply step_asset_rules]; eassumption.
  - intros i y z Hyz [Hi Hy]. split; [eapply register_sound; eassumption |].
    destruct Hyz as (w & l & s1 & _ & _ & _ & _ & _ & _ & E2 & Hp' & _).
    apply (asset_keeps_same _ s1); [apply Hp' |]. eapply asset_keeps_same; eassumption.
  - split; [exact Hs |]. exists x. split; [exact Hx | reflexivity].
  - eapply closes_rules; eassumption.
Qed.
End TransactionSafety.
