(* ===== verification/Blocks.v ===== *)
(** * Blocks (blockchain/Block.cpp, include/blockchain/Block.hpp)

    Headers and full blocks.  Hashing and signature recovery of blocks are
    parameters; that the hash of a block is not found among its ancestors is
    stated as a rank of identifiers. *)

From Stdlib Require Import ZArith Lia Bool String.
From stdpp Require Import base gmap strings list.
From S2P Require Import Prelude Asset Entries Names ChainInterface.

Local Open Scope Z_scope.

(** BlockHeader and SignedBlockHeader *)
Record SignedBlockHeader := mkSignedBlockHeader {
  previous : BlockIdType;
  block_num : Z;
  timestamp : time_point_sec;
  transaction_digest : DigestType;
  hdr_next_secret_hash : SecretHashType;
  previous_secret : SecretHashType;
  delegate_signature : SignatureType
}.
Definition empty_header : SignedBlockHeader := mkSignedBlockHeader 0 0 0 0 0 0 0.

Record FullBlock := mkFullBlock {
  header : SignedBlockHeader;
  user_transactions : list SignedTransaction
}.

Record DigestBlock := mkDigestBlock {
  digest_header : SignedBlockHeader;
  user_transaction_ids : list TransactionIdType
}.

Class BlockParams : Type := {
  header_id : SignedBlockHeader -> BlockIdType;
  header_signee : SignedBlockHeader -> result PublicKeyType;
  ids_digest : list TransactionIdType -> DigestType;
  hash_secret : SecretHashType -> SecretHashType;
  mix_seed : SecretHashType -> Z -> Z;
  seed_hash : Z -> Z;
  rehash : Z -> Z;
  hash_word : Z -> Z -> Z
}.

(** A block is hashed after its ancestors, so the identifiers it refers to
    are not its own nor those of its descendants. *)
Class BlockHashes `{BlockParams} : Type := {
  id_rank : BlockIdType -> nat;
  header_rank h : (id_rank (previous h) < id_rank (header_id h))%nat;
  header_not_genesis h : header_id h <> 0
}.

Section Blocks.
Context `{ChainParams} `{BlockParams}.

Definition block_id (b : FullBlock) : BlockIdType := header_id (header b).

(** DigestBlock::DigestBlock( block_data ) *)
Definition digest_block (b : FullBlock) : DigestBlock :=
  mkDigestBlock (header b) (map trx_id (user_transactions b)).
Definition calculate_transaction_digest (b : DigestBlock) : DigestType :=
  ids_digest (user_transaction_ids b).
Definition validate_digest (b : DigestBlock) : bool :=
  calculate_transaction_digest b =? transaction_digest (digest_header b).

(** The set of the identifiers seen grows until one is found in it. *)
Fixpoint unique_from (seen : gset TransactionIdType) (ids : list TransactionIdType) : bool :=
  match ids with
  | [] => true
  | id :: ids' => if bool_decide (id ∈ seen) then false else unique_from ({[ id ]} ∪ seen) ids'
  end.
Definition validate_unique (b : DigestBlock) : bool := unique_from ∅ (user_transaction_ids b).

Lemma unique_from_spec seen ids :
  unique_from seen ids = true <-> NoDup ids /\ (forall id, id ∈ ids -> id ∉ seen).
Proof.
  revert seen. induction ids as [| id ids IH]; intros seen; cbn [unique_from].
  - split; [intros _; split; [constructor | set_solver] | done].
  - case_bool_decide as Hid; [split; [discriminate |] |].
    + intros [_ Hs]. destruct (Hs id); set_solver.
    + rewrite IH, NoDup_cons. split.
      * intros [Hn Hs]. split; [split; [intros Hi; apply (Hs id Hi); set_solver | exact Hn] |].
        intros i Hi. apply elem_of_cons in Hi as [-> | Hi]; [exact Hid |]. specialize (Hs i Hi). set_solver.
      * intros [[Hi Hn] Hs]. split; [exact Hn |]. intros i Hi'.
        specialize (Hs i ltac:(set_solver)). set_solver.
Qed.

Lemma validate_unique_spec b : validate_unique b = true <-> NoDup (user_transaction_ids b).
Proof. unfold validate_unique. rewrite unique_from_spec. set_solver. Qed.
End Blocks.
