(* ===== verification/ForkDatabase.v ===== *)
(** * The tree of blocks (blockchain/ChainDatabase.cpp)

    _fork_db, _block_id_to_full_block and _fork_number_db: every block pushed,
    whether it is linked to the genesis block, valid, and included in the
    current chain.  Invariants of the tree and the functions that keep it. *)

From Stdlib Require Import ZArith Lia Bool String.
From stdpp Require Import base gmap strings list fin_sets.
From S2P Require Import Prelude Asset Entries Names ChainInterface Blocks.

Local Open Scope Z_scope.

(** The class of an exception that is recorded, not its text. *)
Record BlockForkData := mkBlockForkData {
  next_blocks : gset BlockIdType;
  is_linked : bool;
  is_valid : option bool;
  invalid_reason : option exn;
  is_included : bool;
  is_known : bool
}.
Definition new_fork_data : BlockForkData := mkBlockForkData ∅ false None None false false.
Definition genesis_fork : BlockForkData := mkBlockForkData ∅ true (Some true) None true true.

Definition invalid (d : BlockForkData) : bool :=
  match is_valid d with Some v => negb v | None => false end.
Definition valid (d : BlockForkData) : bool :=
  match is_valid d with Some v => v | None => false end.
Definition can_link (d : BlockForkData) : bool := is_linked d && negb (invalid d).

(** Assignments to the members *)
Definition set_next (x : gset BlockIdType) (d : BlockForkData) : BlockForkData :=
  mkBlockForkData x (is_linked d) (is_valid d) (invalid_reason d) (is_included d) (is_known d).
Definition set_linked (x : bool) (d : BlockForkData) : BlockForkData :=
  mkBlockForkData (next_blocks d) x (is_valid d) (invalid_reason d) (is_included d) (is_known d).
Definition set_validity (v : option bool) (r : option exn) (d : BlockForkData) : BlockForkData :=
  mkBlockForkData (next_blocks d) (is_linked d) v r (is_included d) (is_known d).
Definition set_included (x : bool) (d : BlockForkData) : BlockForkData :=
  mkBlockForkData (next_blocks d) (is_linked d) (is_valid d) (invalid_reason d) x (is_known d).
Definition set_known (x : bool) (d : BlockForkData) : BlockForkData :=
  mkBlockForkData (next_blocks d) (is_linked d) (is_valid d) (invalid_reason d) (is_included d) x.

Record ForkDb := mkForkDb {
  fork_db : gmap BlockIdType BlockForkData;
  full_blocks : gmap BlockIdType FullBlock;
  fork_numbers : gmap Z (list BlockIdType)
}.
(** What initialize_genesis stores. *)
Definition genesis_forks : ForkDb := mkForkDb {[ 0 := genesis_fork ]} ∅ ∅.

Section ForkDatabase.
Context `{BlockParams}.
Abbreviation F := (M ForkDb).

Definition fork_fetch (id : BlockIdType) : F BlockForkData :=
  db <- get ;; valid_or (fork_db db !! id) key_not_found_exception.
Definition fork_store (id : BlockIdType) (d : BlockForkData) : F unit :=
  modify (fun db => mkForkDb (<[id := d]> (fork_db db)) (full_blocks db) (fork_numbers db)).
Definition get_block (id : BlockIdType) : F FullBlock :=
  db <- get ;; valid_or (full_blocks db !! id) key_not_found_exception.
Definition get_block_header (id : BlockIdType) : F SignedBlockHeader :=
  b <- get_block id ;; ret (header b).
Definition fetch_blocks_at_number (db : ForkDb) (num : Z) : list BlockIdType :=
  default [] (fork_numbers db !! num).

(** The loop of the three functions that mark a block's descendants: [mark]
    the blocks of one generation, in the order of the set, then those that
    come after them.  [visit] is what else the loop body does. *)
Section Marking.
Context {A : Type} (mark : BlockForkData -> BlockForkData)
  (visit : A -> BlockIdType -> BlockForkData -> F A).

Fixpoint mark_generation (ids : list BlockIdType) (pending : gset BlockIdType) (acc : A)
    : F (gset BlockIdType * A) :=
  match ids with
  | [] => ret (pending, acc)
  | id :: ids' =>
      entry <- fork_fetch id ;;
      fork_store id (mark entry) ;;;
      acc <- visit acc id (mark entry) ;;
      mark_generation ids' (next_blocks entry ∪ pending) acc
  end.

Fixpoint mark_generations (fuel : nat) (ids : gset BlockIdType) (acc : A) : F A :=
  if bool_decide (ids = ∅) then ret acc
  else match fuel with
       | O => throw does_not_return
       | S n => r <- mark_generation (elements ids) ∅ acc ;; mark_generations n (fst r) (snd r)
       end.
End Marking.

(** A generation for every entry and one more. *)
Definition generations (db : ForkDb) : nat := Datatypes.S (size (fork_db db)).

(** The highest block so far, the first of them when there are several. *)
Definition higher (acc : Z * (BlockIdType * BlockForkData)) (id : BlockIdType)
    (entry : BlockForkData) : F (Z * (BlockIdType * BlockForkData)) :=
  next_block <- get_block id ;;
  ret (if fst acc <? block_num (header next_block)
       then (block_num (header next_block), (id, entry)) else acc).
Definition recursive_mark_as_linked (ids : gset BlockIdType) : F (BlockIdType * BlockForkData) :=
  db <- get ;;
  r <- mark_generations (set_linked true) higher (generations db) ids (0, (0, new_fork_data)) ;;
  ret (snd r).

Definition no_visit (acc : unit) (id : BlockIdType) (entry : BlockForkData) : F unit := ret tt.
Definition recursive_mark_as_invalid (ids : gset BlockIdType) (reason : exn) : F unit :=
  db <- get ;;
  mark_generations (set_validity (Some false) (Some reason)) no_visit (generations db) ids tt.

Definition mark_invalid (id : BlockIdType) (reason : exn) : F unit :=
  fork_data <- fork_fetch id ;;
  fork_store id (set_validity (Some false) (Some reason) fork_data) ;;;
  recursive_mark_as_invalid (next_blocks fork_data) reason.

Definition mark_as_unchecked (id : BlockIdType) : F unit :=
  fork_data <- fork_fetch id ;;
  fork_store id (set_validity None None fork_data) ;;;
  db <- get ;;
  mark_generations (set_validity None None) no_visit (generations db) (next_blocks fork_data) tt.

Definition mark_included (id : BlockIdType) (included : bool) : F unit :=
  fork_data <- fork_fetch id ;;
  fork_store id
    (let d := set_included included fork_data in
     if included then set_validity (Some true) (invalid_reason d) d else d).

(** The entries of the block itself and of the one before it. *)
Definition attach (id : BlockIdType) (b : FullBlock) : F BlockForkData :=
  modify (fun db => mkForkDb (fork_db db) (<[id := b]> (full_blocks db))
    (<[block_num (header b) := fetch_blocks_at_number db (block_num (header b)) ++ [id]]>
       (fork_numbers db))) ;;;
  db <- get ;;
  let prev := default new_fork_data (fork_db db !! previous (header b)) in
  let prev := set_next ({[ id ]} ∪ next_blocks prev) prev in
  fork_store (previous (header b)) prev ;;;
  ret prev.

Definition inherit_invalid (prev d : BlockForkData) : BlockForkData :=
  if invalid prev then set_validity (Some false) (invalid_reason prev) d else d.

Definition store_and_index (id : BlockIdType) (b : FullBlock) : F (BlockIdType * BlockForkData) :=
  prev <- attach id b ;;
  db <- get ;;
  match fork_db db !! id with
  | Some current =>
      let current := set_known true current in
      if is_linked prev then
        let current := inherit_invalid prev (set_linked true current) in
        fork_store id current ;;;
        if invalid prev then
          reason <- valid_or (invalid_reason prev) assert_exception ;;
          recursive_mark_as_invalid (next_blocks current) reason ;;;
          ret (id, current)
        else recursive_mark_as_linked (next_blocks current)
      else fork_store id current ;;; ret (id, current)
  | None =>
      let current := inherit_invalid prev (set_linked (is_linked prev) (set_known true new_fork_data)) in
      fork_store id current ;;; ret (id, current)
  end.

(** The blocks back to the first one that is included. *)
Fixpoint fork_history (fuel : nat) (next_id : BlockIdType) : F (list BlockIdType) :=
  match fuel with
  | O => throw does_not_return
  | S n =>
      header <- get_block_header next_id ;;
      if previous header =? 0 then ret [previous header]
      else
        prev <- fork_fetch (previous header) ;;
        fc_assert (is_linked prev) ;;;
        if is_included prev then ret [previous header]
        else rest <- fork_history n (previous header) ;; ret (previous header :: rest)
  end.
Definition get_fork_history (id : BlockIdType) : F (list BlockIdType) :=
  db <- get ;;
  history <- fork_history (generations db) id ;;
  ret (id :: history).
End ForkDatabase.
