(* ===== verification/ForkTree.v ===== *)
(** * Invariants of the block tree

    Every block pushed hangs below the one before it; what is linked or
    invalid is so for all that comes after.  The marking loops end and mark
    exactly the descendants, and storing a block keeps the tree. *)

From Stdlib Require Import ZArith Lia Bool String.
From stdpp Require Import base gmap strings list fin_sets.
From S2P Require Import Prelude Asset Entries Names ChainInterface Blocks ForkDatabase.

Local Open Scope Z_scope.

(** ** Descendants *)

Definition children (db : ForkDb) (id : BlockIdType) : gset BlockIdType :=
  match fork_db db !! id with Some d => next_blocks d | None => ∅ end.

Inductive reaches (ch : BlockIdType -> gset BlockIdType) (from : gset BlockIdType)
    : BlockIdType -> Prop :=
  | reaches_here id : id ∈ from -> reaches ch from id
  | reaches_next id c : reaches ch from id -> c ∈ ch id -> reaches ch from c.

Lemma reaches_from ch from from' id :
  reaches ch from id -> (forall i, i ∈ from -> reaches ch from' i) -> reaches ch from' id.
Proof. induction 1; intros; eauto using reaches. Qed.

(** One generation, then what it reaches. *)
Lemma reaches_generation ch from next id :
  (forall c, c ∈ next <-> exists i, i ∈ from /\ c ∈ ch i) ->
  (reaches ch from id <-> id ∈ from \/ reaches ch next id).
Proof.
  intros Hnext. split.
  - induction 1 as [id Hid | id c _ [IH | IH] Hc]; [now left | right | right].
    + apply reaches_here, Hnext. eauto.
    + eapply reaches_next; eassumption.
  - intros [Hid | Hid]; [now apply reaches_here |].
    apply (reaches_from _ _ _ _ Hid). intros c (i & Hi & Hc)%Hnext.
    eapply reaches_next; [apply reaches_here |]; eassumption.
Qed.

Lemma reaches_ext ch ch' from id : (forall i, ch i = ch' i) -> reaches ch from id -> reaches ch' from id.
Proof. intros Hch. induction 1; [now apply reaches_here |]. rewrite Hch in *. eauto using reaches. Qed.

(** ** The marking loops *)

Section Marking.
Context `{BlockParams} {A : Type} (mark : BlockForkData -> BlockForkData)
  (visit : A -> BlockIdType -> BlockForkData -> M ForkDb A).
Context (mark_next : forall d, next_blocks (mark d) = next_blocks d)
  (mark_twice : forall d, mark (mark d) = mark d).

(** [seen] relates the blocks visited to the accumulator; [orig] are the
    entries as they were, perhaps marked. *)
Variables (blocks : gmap BlockIdType FullBlock) (orig : gmap BlockIdType BlockForkData)
  (seen : gset BlockIdType -> A -> Prop).
Hypothesis visit_seen : forall V acc id d db,
  full_blocks db = blocks -> is_Some (blocks !! id) -> mark <$> orig !! id = Some (mark d) ->
  seen V acc ->
  exists acc', visit acc id (mark d) db = (Ok acc', db) /\ seen ({[ id ]} ∪ V) acc'.
Definition agrees (db : ForkDb) : Prop :=
  full_blocks db = blocks /\ forall id, mark <$> fork_db db !! id = mark <$> orig !! id.

(** [db'] is [db] with the entries of [here] marked, all of [must] among them. *)
Record marked (here must : BlockIdType -> Prop) (db db' : ForkDb) : Prop := {
  marked_blocks : full_blocks db' = full_blocks db;
  marked_numbers : fork_numbers db' = fork_numbers db;
  marked_only id : fork_db db' !! id = fork_db db !! id \/
    here id /\ fork_db db' !! id = mark <$> fork_db db !! id;
  marked_all id : must id -> fork_db db' !! id = mark <$> fork_db db !! id
}.

Lemma marked_children here must db db' id : marked here must db db' ->
  children db' id = children db id.
Proof.
  intros Hm. unfold children. destruct (marked_only _ _ _ _ Hm id) as [-> | [_ ->]]; [reflexivity |].
  destruct (fork_db db !! id); [apply mark_next | reflexivity].
Qed.

Lemma mark_fmap_twice (o : option BlockForkData) : mark <$> (mark <$> o) = mark <$> o.
Proof. destruct o; cbn; [now rewrite mark_twice | reflexivity]. Qed.

Lemma marked_trans here1 must1 here2 must2 here must db db1 db2 :
  marked here1 must1 db db1 -> marked here2 must2 db1 db2 ->
  (forall id, here1 id \/ here2 id -> here id) -> (forall id, must id -> must1 id \/ must2 id) ->
  marked here must db db2.
Proof.
  intros [B1 N1 O1 A1] [B2 N2 O2 A2] Hhere Hmust. split; [congruence | congruence | |].
  - intros id. destruct (O1 id) as [E1 | [H1 E1]], (O2 id) as [E2 | [H2 E2]]; rewrite E2, E1;
      rewrite ?mark_fmap_twice; auto.
  - intros id [Hid | Hid]%Hmust.
    + destruct (O2 id) as [E2 | [_ E2]]; rewrite E2, (A1 _ Hid), ?mark_fmap_twice; reflexivity.
    + rewrite (A2 _ Hid). destruct (O1 id) as [-> | [_ ->]]; rewrite ?mark_fmap_twice; reflexivity.
Qed.

Lemma marked_agrees here must db db' : marked here must db db' -> agrees db -> agrees db'.
Proof.
  intros Hm [Hb Ha]. split; [rewrite (marked_blocks _ _ _ _ Hm); exact Hb |].
  intros id. rewrite <- Ha. destruct (marked_only _ _ _ _ Hm id) as [-> | [_ ->]]; [reflexivity |].
  apply mark_fmap_twice.
Qed.

Lemma marked_dom here must db db' : marked here must db db' ->
  dom (fork_db db') = dom (fork_db db).
Proof.
  intros Hm. apply set_eq. intros id. rewrite !elem_of_dom.
  destruct (marked_only _ _ _ _ Hm id) as [-> | [_ ->]]; [reflexivity |]. now rewrite fmap_is_Some.
Qed.

Lemma marked_once id d db : fork_db db !! id = Some d ->
  marked (fun i => i = id) (fun i => i = id) db
    (mkForkDb (<[id := mark d]> (fork_db db)) (full_blocks db) (fork_numbers db)).
Proof.
  intros E. split; cbn; [reflexivity | reflexivity | |].
  - intros i. destruct (decide (i = id)) as [-> |]; [right | left; now rewrite lookup_insert_ne].
    split; [reflexivity |]. now rewrite lookup_insert_eq, E.
  - intros i ->. now rewrite lookup_insert_eq, E.
Qed.

Lemma mark_generation_spec ids : forall V pending acc db,
  agrees db ->
  (forall id, id ∈ ids -> is_Some (fork_db db !! id) /\ is_Some (blocks !! id)) -> seen V acc ->
  exists pending' acc' db',
    mark_generation mark visit ids pending acc db = (Ok (pending', acc'), db') /\
    marked (fun id => id ∈ ids) (fun id => id ∈ ids) db db' /\
    seen (list_to_set ids ∪ V) acc' /\
    (forall c, c ∈ pending' <-> c ∈ pending \/ exists i, i ∈ ids /\ c ∈ children db i).
Proof.
  induction ids as [| id ids IH]; intros V pending acc db Hblocks Hids HV.
  - exists pending, acc, db. split; [reflexivity |]. split; [| split].
    + split; auto. intros i Hi. now apply elem_of_nil in Hi.
    + replace (list_to_set [] ∪ V) with V by set_solver. exact HV.
    + set_solver.
  - destruct (Hids id) as [[d Ed] Hb]; [set_solver |].
    pose proof (marked_once id d db Ed) as Hm. set (db1 := mkForkDb _ _ _) in Hm.
    pose proof (marked_agrees _ _ _ _ Hm Hblocks) as Hblocks1.
    assert (mark <$> orig !! id = Some (mark d)) as Eo
      by (destruct Hblocks as [_ <-]; rewrite Ed; reflexivity).
    destruct (visit_seen V acc id d db1 (proj1 Hblocks1) Hb Eo HV) as (acc1 & R1 & HV1).
    destruct (IH ({[ id ]} ∪ V) (next_blocks d ∪ pending) acc1 db1) as (pending' & acc' & db' & R & Hm' & HV' & Hp);
      [exact Hblocks1 | | exact HV1 |].
    { intros i Hi. destruct (Hids i) as [Hs Hbi]; [set_solver |]. split; [| exact Hbi].
      apply elem_of_dom. rewrite (marked_dom _ _ _ _ Hm). now apply elem_of_dom. }
    exists pending', acc', db'. split; [| split; [| split]].
    + cbn [mark_generation]. unfold fork_fetch, fork_store, bind, get, modify, valid_or, ret in *.
      rewrite Ed. fold db1. rewrite R1. exact R.
    + eapply marked_trans; [exact Hm | exact Hm' | |]; set_solver.
    + replace (list_to_set (id :: ids) ∪ V) with (list_to_set ids ∪ ({[ id ]} ∪ V)) by set_solver.
      exact HV'.
    + intros c. rewrite Hp. setoid_rewrite (marked_children _ _ _ _ _ Hm).
      setoid_rewrite elem_of_cons. unfold children at 2. 
      assert (children db id = next_blocks d) as Ec by (unfold children; now rewrite Ed).
      rewrite elem_of_union. split.
      * intros [[Hc | Hc] | (i & Hi & Hc)]; [right; exists id | left | right; exists i]; rewrite ?Ed; auto.
      * intros [Hc | (i & [-> | Hi] & Hc)]; [auto | left; left | right; eauto]. now rewrite Ed in Hc.
Qed.

(** *** All generations *)

(** [below id] are [n] entries of lower rank than [id]. *)
Definition depth (rank : BlockIdType -> nat) (entries : gset BlockIdType) (n : nat) (id : BlockIdType)
    : Prop :=
  exists l, NoDup l /\ n = List.length l /\
    forall i, i ∈ l -> i ∈ entries /\ (rank i < rank id)%nat.

Lemma depth_bound rank entries n id : id ∈ entries -> depth rank entries n id -> (n < size entries)%nat.
Proof.
  intros Hid (l & Hn & -> & Hl).
  assert (NoDup (id :: l)) as Hn' by (constructor; [intros [_ Hi]%Hl; lia | exact Hn]).
  pose proof (size_list_to_set (C := gset Z) (id :: l) Hn') as Hs. cbn [List.length] in Hs.
  assert (size (list_to_set (id :: l) : gset Z) <= size entries)%nat; [| lia].
  apply subseteq_size. intros i. rewrite elem_of_list_to_set, elem_of_cons.
  intros [-> | Hi]; [exact Hid | now apply Hl].
Qed.

Lemma depth_child rank entries n id c : id ∈ entries -> (rank id < rank c)%nat ->
  depth rank entries n id -> depth rank entries (Datatypes.S n) c.
Proof.
  intros Hid Hr (l & Hn & -> & Hl). exists (id :: l). split; [| split; [reflexivity |]].
  - constructor; [intros [_ Hi]%Hl; lia | exact Hn].
  - intros i [-> | Hi]%elem_of_cons; [easy |]. destruct (Hl i Hi). split; [assumption | lia].
Qed.

Lemma depth_zero rank entries id : depth rank entries 0 id.
Proof. exists []. split; [constructor | split; [reflexivity |]]. intros i []%elem_of_nil. Qed.

(** What the loops need of a tree: what comes after an entry is known and of
    higher rank. *)
Record ranked (rank : BlockIdType -> nat) (db : ForkDb) : Prop := {
  ranked_known id c : c ∈ children db id -> is_Some (fork_db db !! c) /\ is_Some (full_blocks db !! c);
  ranked_higher id c : c ∈ children db id -> (rank id < rank c)%nat
}.

Lemma ranked_marked rank here must db db' : marked here must db db' -> ranked rank db -> ranked rank db'.
Proof.
  intros Hm [R1 R2]. split; intros id c; rewrite (marked_children _ _ _ _ _ Hm); [| apply R2].
  intros [H1 H2]%R1. rewrite (marked_blocks _ _ _ _ Hm). split; [| exact H2].
  apply elem_of_dom. rewrite (marked_dom _ _ _ _ Hm). now apply elem_of_dom.
Qed.

Lemma mark_generations_spec rank fuel : forall depth0 V ids acc db,
  agrees db -> ranked rank db ->
  (forall id, id ∈ ids -> is_Some (fork_db db !! id) /\ is_Some (blocks !! id) /\
     depth rank (dom (fork_db db)) depth0 id) ->
  (size (dom (fork_db db)) <= depth0 + fuel)%nat -> seen V acc ->
  exists V' acc' db',
    mark_generations mark visit fuel ids acc db = (Ok acc', db') /\
    marked (reaches (children db) ids) (reaches (children db) ids) db db' /\
    seen V' acc' /\ (forall id, id ∈ V' <-> id ∈ V \/ reaches (children db) ids id).
Proof.
  induction fuel as [| fuel IH]; intros depth0 V ids acc db Hblocks Hr Hids Hfuel HV;
    cbn [mark_generations]; case_bool_decide as He.
  1, 3: exists V, acc, db; split; [reflexivity |]; subst ids;
    assert (forall id, ~ reaches (children db) ∅ id) as Hno by (intros id Hid; induction Hid; set_solver);
    split; [split; auto; intros id Hid; now destruct (Hno id) | split; [exact HV |]];
    intros id; split; [auto | intros [? | Hid]; [auto | now destruct (Hno id)]].
  - exfalso. apply set_choose_L in He as [id Hid]. destruct (Hids id Hid) as (Hd & _ & Hdepth).
    apply elem_of_dom in Hd. pose proof (depth_bound _ _ _ _ Hd Hdepth). lia.
  - destruct (mark_generation_spec (elements ids) V ∅ acc db Hblocks) as (next & acc1 & db1 & R1 & Hm & HV1 & Hnext);
      [intros id Hid%elem_of_elements; destruct (Hids id Hid) as (? & ? & _); auto | exact HV |].
    assert (forall c, c ∈ next <-> exists i, i ∈ ids /\ c ∈ children db i) as Hgen.
    { intros c. rewrite Hnext. setoid_rewrite elem_of_elements. set_solver. }
    destruct (IH (Datatypes.S depth0) (list_to_set (elements ids) ∪ V) next acc1 db1)
      as (V' & acc' & db' & R & Hm' & HV' & HVs); try assumption.
    + eapply marked_agrees; eassumption.
    + eapply ranked_marked; eassumption.
    + intros c (i & Hi & Hc)%Hgen. destruct (ranked_known _ _ Hr i c Hc) as [H1 H2].
      rewrite <- (proj1 Hblocks), (marked_dom _ _ _ _ Hm). split; [| split; [exact H2 |]].
      * apply elem_of_dom. rewrite (marked_dom _ _ _ _ Hm). now apply elem_of_dom.
      * destruct (Hids i Hi) as (Hd & _ & Hdepth).
        eapply depth_child; [apply elem_of_dom, Hd | eapply ranked_higher; eassumption | exact Hdepth].
    + rewrite (marked_dom _ _ _ _ Hm). lia.
    + assert (forall id, reaches (children db) ids id <-> id ∈ ids \/ reaches (children db1) next id) as Hre.
      { intros id. rewrite (reaches_generation _ ids next id Hgen).
        split; (intros [Hi | Hi]; [now left | right]);
          (eapply reaches_ext; [| exact Hi]); intros i; now rewrite (marked_children _ _ _ _ _ Hm). }
      exists V', acc', db'. split; [| split; [| split; [exact HV' |]]].
      * unfold bind. rewrite R1. exact R.
      * eapply marked_trans; [exact Hm | exact Hm' | |]; intros id; rewrite Hre, elem_of_elements; tauto.
      * intros id. rewrite HVs, Hre, elem_of_union, elem_of_list_to_set, elem_of_elements. tauto.
Qed.
End Marking.

(** ** The tree *)

Section Tree.
Context `{HB : BlockParams} `{HR : !BlockHashes}.

(** The entry of a block; one that is missing is as a new one. *)
Definition look (db : ForkDb) (id : BlockIdType) : BlockForkData :=
  default new_fork_data (fork_db db !! id).

Record tree (db : ForkDb) : Prop := {
  (** blocks are stored under their identifiers and known *)
  tree_block id b : full_blocks db !! id = Some b -> block_id b = id /\ is_known (look db id) = true;
  (** what comes after an entry are the blocks whose previous it is *)
  tree_children id c :
    c ∈ children db id <-> exists b, full_blocks db !! c = Some b /\ previous (header b) = id;
  (** links come from the genesis block, and pass what is not invalid *)
  tree_linked id c : c ∈ children db id -> is_linked (look db c) = true ->
    is_linked (look db id) = true;
  tree_viable id c : c ∈ children db id -> can_link (look db id) = true ->
    is_linked (look db c) = true;
  (** what comes after a linked invalid block is invalid *)
  tree_invalid id c : c ∈ children db id -> is_linked (look db id) = true ->
    invalid (look db id) = true -> invalid (look db c) = true;
  (** an invalid block is linked or comes after an invalid one *)
  tree_tainted c : invalid (look db c) = true -> is_linked (look db c) = true \/
    exists id, c ∈ children db id /\ invalid (look db id) = true;
  tree_reason id : invalid (look db id) = true -> is_Some (invalid_reason (look db id));
  (** an entry without a block stands for one that is missing *)
  tree_placeholder id : full_blocks db !! id = None -> id = 0 \/ is_linked (look db id) = false;
  tree_genesis : full_blocks db !! 0 = None /\ can_link (look db 0) = true;
  tree_numbers n id : id ∈ fetch_blocks_at_number db n <->
    exists b, full_blocks db !! id = Some b /\ block_num (header b) = n
}.

Lemma look_known db id : is_known (look db id) = true -> is_Some (fork_db db !! id).
Proof. unfold look. destruct (fork_db db !! id); [eauto | discriminate]. Qed.
Lemma look_children db id : children db id = next_blocks (look db id).
Proof. unfold children, look. now destruct (fork_db db !! id). Qed.

Lemma tree_parent_unique db id id' c : tree db -> c ∈ children db id -> c ∈ children db id' -> id' = id.
Proof.
  intros T (b & Hb & <-)%(tree_children _ T) (b' & Hb' & <-)%(tree_children _ T). congruence.
Qed.

Lemma tree_child_rank db id c : tree db -> c ∈ children db id -> (id_rank id < id_rank c)%nat.
Proof.
  intros T (b & Hb & <-)%(tree_children _ T). destruct (tree_block _ T _ _ Hb) as [<- _].
  apply header_rank.
Qed.

Lemma tree_stored db id : tree db -> is_Some (full_blocks db !! id) ->
  is_Some (fork_db db !! id) /\ is_Some (full_blocks db !! id).
Proof.
  intros T [b Hb]. split; [| eauto]. apply look_known, (tree_block _ T _ _ Hb).
Qed.

Lemma tree_ranked db : tree db -> ranked id_rank db.
Proof.
  intros T. split; [| intros id c; now apply tree_child_rank].
  intros id c (b & Hb & _)%(tree_children _ T). apply tree_stored; eauto.
Qed.

Lemma genesis_tree : tree genesis_forks.
Proof.
  assert (forall id, fork_db genesis_forks !! id = None \/ id = 0 /\ look genesis_forks id = genesis_fork) as Hg.
  { intros id. unfold look. cbn. destruct (decide (id = 0)) as [-> |]; [right | left].
    - now rewrite lookup_singleton_eq.
    - now apply lookup_singleton_ne. }
  assert (forall id, invalid (look genesis_forks id) = false) as Hi.
  { intros id. destruct (Hg id) as [E | [_ ->]]; [| reflexivity]. unfold look. now rewrite E. }
  assert (forall id b, full_blocks genesis_forks !! id <> Some b) as Hb
    by (cbn; intros id b; now rewrite lookup_empty).
  assert (forall id c, c ∉ children genesis_forks id) as Hc.
  { intros id c. rewrite look_children. destruct (Hg id) as [E | [_ ->]]; [| cbn; set_solver].
    unfold look. rewrite E. cbn. set_solver. }
  split.
  - intros id b E. now apply Hb in E.
  - intros id c. split; [intros E; now apply Hc in E |]. intros (b & E & _). now apply Hb in E.
  - intros id c E. now apply Hc in E.
  - intros id c E. now apply Hc in E.
  - intros id c E. now apply Hc in E.
  - intros c. now rewrite Hi.
  - intros id. now rewrite Hi.
  - intros id _. destruct (Hg id) as [E | [-> _]]; [right; unfold look; now rewrite E | now left].
  - split; reflexivity.
  - intros n id. unfold fetch_blocks_at_number. cbn. rewrite lookup_empty. cbn. split.
    + intros E. now apply elem_of_nil in E.
    + intros (b & E & _). now apply Hb in E.
Qed.

(** *** The marks of the code *)

Section Marks.
Context {A : Type} (mark : BlockForkData -> BlockForkData) (visit : A -> BlockIdType -> BlockForkData -> M ForkDb A).

(** All generations from [ids] on are marked; the fuel is enough. *)
Lemma mark_below_spec (seen : gset BlockIdType -> A -> Prop) db ids acc :
  (forall d, next_blocks (mark d) = next_blocks d) -> (forall d, mark (mark d) = mark d) ->
  (forall V acc id d db', full_blocks db' = full_blocks db -> is_Some (full_blocks db !! id) ->
     mark <$> fork_db db !! id = Some (mark d) -> seen V acc ->
     exists acc', visit acc id (mark d) db' = (Ok acc', db') /\ seen ({[ id ]} ∪ V) acc') ->
  ranked id_rank db ->
  (forall id, id ∈ ids -> is_Some (fork_db db !! id) /\ is_Some (full_blocks db !! id)) ->
  seen ∅ acc ->
  exists V acc' db',
    mark_generations mark visit (generations db) ids acc db = (Ok acc', db') /\
    marked mark (reaches (children db) ids) (reaches (children db) ids) db db' /\
    seen V acc' /\ (forall id, id ∈ V <-> reaches (children db) ids id).
Proof.
  intros Hn Ht Hv Hr Hids Hs.
  destruct (mark_generations_spec mark visit Hn Ht (full_blocks db) (fork_db db) seen Hv id_rank
              (generations db) 0 ∅ ids acc db (conj eq_refl (fun _ => eq_refl)) Hr)
    as (V & acc' & db' & R & Hm & HV & HVs).
  - intros id Hid. destruct (Hids id Hid). repeat split; auto. apply depth_zero.
  - unfold generations. rewrite size_dom. lia.
  - exact Hs.
  - exists V, acc', db'. split; [exact R | split; [exact Hm | split; [exact HV |]]].
    intros id. rewrite HVs. set_solver.
Qed.
End Marks.

Lemma recursive_mark_as_invalid_spec db ids reason : ranked id_rank db ->
  (forall id, id ∈ ids -> is_Some (fork_db db !! id) /\ is_Some (full_blocks db !! id)) ->
  exists db', recursive_mark_as_invalid ids reason db = (Ok tt, db') /\
    marked (set_validity (Some false) (Some reason)) (reaches (children db) ids)
      (reaches (children db) ids) db db'.
Proof.
  intros Hr Hids.
  destruct (mark_below_spec (set_validity (Some false) (Some reason)) no_visit (fun _ _ => True)
              db ids tt) as (V & [] & db' & R & Hm & _); auto.
  - intros V [] id d db' _ _ _. exists tt. split; [reflexivity | exact I].
  - exists db'. split; [exact R | exact Hm].
Qed.

(** The highest of the blocks seen, once there is one above zero. *)
Definition highest (db : ForkDb) (V : gset BlockIdType) (acc : Z * (BlockIdType * BlockForkData))
    : Prop :=
  0 <= fst acc /\
  (forall id b, id ∈ V -> full_blocks db !! id = Some b -> block_num (header b) <= fst acc) /\
  (0 < fst acc -> exists b, fst (snd acc) ∈ V /\ full_blocks db !! fst (snd acc) = Some b /\
     block_num (header b) = fst acc /\
     set_linked true <$> fork_db db !! fst (snd acc) = Some (snd (snd acc))).

Lemma higher_seen db V acc id d db' : full_blocks db' = full_blocks db ->
  is_Some (full_blocks db !! id) -> set_linked true <$> fork_db db !! id = Some (set_linked true d) ->
  highest db V acc ->
  exists acc', higher acc id (set_linked true d) db' = (Ok acc', db') /\
    highest db ({[ id ]} ∪ V) acc'.
Proof.
  intros Hb [b Eb] Ed (H1 & H2 & H3). unfold higher, get_block, bind, get, valid_or, ret.
  rewrite Hb, Eb. eexists. split; [reflexivity |].
  destruct (Z.ltb_spec (fst acc) (block_num (header b))); unfold highest; cbn [fst snd].
  - split; [lia | split].
    + intros i bi Hi Ei. destruct (decide (i = id)) as [-> |]; [replace bi with b by congruence; lia |].
      specialize (H2 i bi ltac:(set_solver) Ei). lia.
    + intros _. exists b. split; [set_solver | auto].
  - split; [exact H1 | split].
    + intros i bi Hi Ei. destruct (decide (i = id)) as [-> |]; [replace bi with b by congruence; lia |].
      exact (H2 i bi ltac:(set_solver) Ei).
    + intros Hpos. destruct (H3 Hpos) as (b' & Hb' & Hrest). exists b'. split; [set_solver | exact Hrest].
Qed.

Lemma recursive_mark_as_linked_spec db ids : ranked id_rank db ->
  (forall id, id ∈ ids -> is_Some (fork_db db !! id) /\ is_Some (full_blocks db !! id)) ->
  exists V h id d db', recursive_mark_as_linked ids db = (Ok (id, d), db') /\
    marked (set_linked true) (reaches (children db) ids) (reaches (children db) ids) db db' /\
    highest db V (h, (id, d)) /\ (forall i, i ∈ V <-> reaches (children db) ids i).
Proof.
  intros Hr Hids.
  destruct (mark_below_spec (set_linked true) higher (highest db) db ids (0, (0, new_fork_data)))
    as (V & [h [id d]] & db' & R & Hm & Hh & HV); auto.
  - intros V acc id d db'. apply higher_seen.
  - split; [cbn; lia | split; [set_solver | cbn; lia]].
  - exists V, h, id, d, db'. split; [| auto].
    unfold recursive_mark_as_linked, bind, get. rewrite R. reflexivity.
Qed.
End Tree.
