(* ===== verification/ForkStore.v ===== *)
(** * Storing blocks keeps the tree

    store_and_index, mark_invalid and mark_included on a block tree. *)

From Stdlib Require Import ZArith Lia Bool String.
From stdpp Require Import base gmap strings list fin_sets.
From S2P Require Import Prelude Asset Entries Names ChainInterface Blocks ForkDatabase ForkTree.

Local Open Scope Z_scope.

Section Grown.
Context `{HB : BlockParams} `{HR : !BlockHashes}.

(** ** A tree with one more block *)

Definition with_fork (id : BlockIdType) (d : BlockForkData) (db : ForkDb) : ForkDb :=
  mkForkDb (<[id := d]> (fork_db db)) (full_blocks db) (fork_numbers db).

Lemma look_with id d db x : look (with_fork id d db) x = if decide (x = id) then d else look db x.
Proof.
  unfold look, with_fork. cbn. destruct (decide (x = id)) as [-> |].
  - now rewrite lookup_insert_eq.
  - now rewrite lookup_insert_ne.
Qed.

(** The state after the entry of the block itself is stored. *)
Definition attached (b : FullBlock) (db : ForkDb) : ForkDb :=
  let p := previous (header b) in
  mkForkDb (<[p := set_next ({[ block_id b ]} ∪ next_blocks (look db p)) (look db p)]> (fork_db db))
    (<[block_id b := b]> (full_blocks db))
    (<[block_num (header b) := fetch_blocks_at_number db (block_num (header b)) ++ [block_id b]]>
       (fork_numbers db)).
Definition entered (b : FullBlock) (current : BlockForkData) (db : ForkDb) : ForkDb :=
  with_fork (block_id b) current (attached b db).

Lemma not_own_parent b : previous (header b) <> block_id b.
Proof. intros E. pose proof (header_rank (header b)) as Hr. fold (block_id b) in Hr. rewrite E in Hr. lia. Qed.

Lemma look_entered b current db x :
  look (entered b current db) x =
    if decide (x = block_id b) then current
    else if decide (x = previous (header b))
         then set_next ({[ block_id b ]} ∪ next_blocks (look db x)) (look db x) else look db x.
Proof.
  unfold entered. rewrite look_with. destruct (decide (x = block_id b)); [reflexivity |].
  unfold look, attached. cbn. destruct (decide (x = previous (header b))) as [-> |].
  - now rewrite lookup_insert_eq.
  - now rewrite lookup_insert_ne.
Qed.

Lemma entered_children b current db x c : next_blocks current = children db (block_id b) ->
  c ∈ children (entered b current db) x <->
    x = previous (header b) /\ c = block_id b \/ c ∈ children db x.
Proof.
  intros Hn. rewrite !look_children, look_entered.
  destruct (decide (x = block_id b)) as [-> |].
  - rewrite Hn, <- look_children. pose proof (not_own_parent b). naive_solver.
  - destruct (decide (x = previous (header b))) as [-> |]; [cbn; set_solver | naive_solver].
Qed.

(** The flags of an entry. *)
Definition same_flags (d d' : BlockForkData) : Prop :=
  is_linked d' = is_linked d /\ is_valid d' = is_valid d /\ invalid_reason d' = invalid_reason d.
Lemma entered_flags b current db x : x <> block_id b ->
  same_flags (look db x) (look (entered b current db) x) /\
  is_known (look (entered b current db) x) = is_known (look db x).
Proof.
  intros Hx. rewrite look_entered, decide_False by exact Hx. now destruct (decide _).
Qed.

Lemma same_invalid d d' : same_flags d d' -> invalid d' = invalid d.
Proof. intros (_ & Hv & _). unfold invalid. now rewrite Hv. Qed.

(** What is left to show of the flags when the block is entered. *)
Record grown (b : FullBlock) (db db' : ForkDb) : Prop := {
  grown_blocks : full_blocks db' = <[block_id b := b]> (full_blocks db);
  grown_numbers n : fetch_blocks_at_number db' n =
    fetch_blocks_at_number db n ++ if n =? block_num (header b) then [block_id b] else [];
  grown_children x c : c ∈ children db' x <->
    x = previous (header b) /\ c = block_id b \/ c ∈ children db x;
  grown_known x : is_known (look db x) = true -> is_known (look db' x) = true;
  grown_own : is_known (look db' (block_id b)) = true;
  grown_missing x : full_blocks db' !! x = None -> same_flags (look db x) (look db' x)
}.

Lemma grown_tree b db db' : tree db -> full_blocks db !! block_id b = None -> grown b db db' ->
  (forall x c, c ∈ children db' x -> is_linked (look db' c) = true -> is_linked (look db' x) = true) ->
  (forall x c, c ∈ children db' x -> can_link (look db' x) = true -> is_linked (look db' c) = true) ->
  (forall x c, c ∈ children db' x -> is_linked (look db' x) = true -> invalid (look db' x) = true ->
     invalid (look db' c) = true) ->
  (forall c, invalid (look db' c) = true -> is_linked (look db' c) = true \/
     exists x, c ∈ children db' x /\ invalid (look db' x) = true) ->
  (forall x, invalid (look db' x) = true -> is_Some (invalid_reason (look db' x))) ->
  tree db'.
Proof.
  intros T Hnew [G1 G2 G3 G4 G5 G6] F1 F2 F3 F4 F5.
  assert (full_blocks db' !! 0 = None) as H0.
  { rewrite G1, lookup_insert_ne; [apply T | apply header_not_genesis]. }
  split; try assumption.
  - intros id b'. rewrite G1. intros [[<- <-] | [Hne Hb]]%lookup_insert_Some; [auto |].
    destruct (tree_block _ T _ _ Hb). auto.
  - intros id c. rewrite G3, (tree_children _ T). setoid_rewrite G1. split.
    + intros [[-> ->] | (b' & Hb & Hp)]; [exists b; now rewrite lookup_insert_eq |].
      exists b'. split; [| exact Hp]. rewrite lookup_insert_ne; [exact Hb | congruence].
    + intros (b' & [[<- <-] | [Hne Hb]]%lookup_insert_Some & Hp); [left | right]; eauto.
  - intros id Hid. destruct (G6 id Hid) as (-> & _). apply (tree_placeholder _ T).
    rewrite G1 in Hid. now apply lookup_insert_None in Hid as [? _].
  - split; [exact H0 |]. pose proof (G6 0 H0) as Hs. unfold can_link.
    rewrite (same_invalid _ _ Hs), (proj1 Hs). apply T.
  - intros n id. rewrite G2, elem_of_app, (tree_numbers _ T). setoid_rewrite G1. split.
    + intros [(b' & Hb & Hn) | Hi].
      * exists b'. split; [| exact Hn]. rewrite lookup_insert_ne; [exact Hb | congruence].
      * destruct (Z.eqb_spec n (block_num (header b))); [| now apply elem_of_nil in Hi].
        apply list_elem_of_singleton in Hi as ->. exists b. now rewrite lookup_insert_eq.
    + intros (b' & [[<- <-] | [Hne Hb]]%lookup_insert_Some & Hn); [right | left; eauto].
      rewrite <- Hn, Z.eqb_refl. now apply list_elem_of_singleton.
Qed.

(** A block that is missing is not linked nor invalid, and neither is what
    comes after it. *)
Lemma missing_clean db id : tree db -> full_blocks db !! id = None -> id <> 0 ->
  is_linked (look db id) = false /\ invalid (look db id) = false.
Proof.
  intros T Hid H0. destruct (tree_placeholder _ T id Hid) as [| Hl]; [contradiction |].
  split; [exact Hl |]. destruct (invalid (look db id)) eqn:E; [exfalso | reflexivity].
  destruct (tree_tainted _ T id E) as [| (x & Hx & _)]; [congruence |].
  apply (tree_children _ T) in Hx as (b & Hb & _). congruence.
Qed.

Lemma below_missing_clean db id x : tree db -> full_blocks db !! id = None -> id <> 0 ->
  reaches (children db) (children db id) x ->
  is_linked (look db x) = false /\ invalid (look db x) = false.
Proof.
  intros T Hid H0.
  assert (forall y c, is_linked (look db y) = false /\ invalid (look db y) = false ->
            c ∈ children db y -> is_linked (look db c) = false /\ invalid (look db c) = false) as Hstep.
  { intros y c [Hl Hi] Hc.
    assert (is_linked (look db c) = false) as Hlc.
    { destruct (is_linked (look db c)) eqn:E; [| reflexivity].
      now rewrite (tree_linked _ T y c Hc E) in Hl. }
    split; [exact Hlc |]. destruct (invalid (look db c)) eqn:E; [exfalso | reflexivity].
    destruct (tree_tainted _ T c E) as [| (z & Hz & Hiz)]; [congruence |].
    pose proof (tree_parent_unique _ _ _ _ T Hc Hz) as ->. congruence. }
  induction 1 as [x Hx | y c _ IH Hc].
  - eapply Hstep; [apply (missing_clean db id T Hid H0) | exact Hx].
  - eapply Hstep; [exact IH | exact Hc].
Qed.

(** ** The states store_and_index passes through *)

Lemma entered_grown b current db : next_blocks current = children db (block_id b) ->
  is_known current = true -> grown b db (entered b current db).
Proof.
  intros Hn Hk. split.
  - reflexivity.
  - intros n. unfold fetch_blocks_at_number at 1. cbn.
    destruct (Z.eqb_spec n (block_num (header b))) as [-> |].
    + now rewrite lookup_insert_eq.
    + rewrite lookup_insert_ne by congruence. now rewrite app_nil_r.
  - intros x c. now apply entered_children.
  - intros x Hx. destruct (decide (x = block_id b)) as [-> | Hne].
    + now rewrite look_entered, decide_True by reflexivity.
    + destruct (entered_flags b current db x Hne) as [_ ->]. exact Hx.
  - now rewrite look_entered, decide_True by reflexivity.
  - intros x Hx. apply entered_flags. intros ->. cbn in Hx. now rewrite lookup_insert_eq in Hx.
Qed.

Lemma marked_look mark here must db db' x : marked mark here must db db' ->
  look db' x = look db x \/ here x /\ look db' x = mark (look db x).
Proof.
  intros Hm. unfold look. destruct (marked_only _ _ _ _ _ Hm x) as [-> | [Hx ->]]; [now left |].
  destruct (fork_db db !! x); [right | left]; auto.
Qed.
Lemma marked_look_all mark here must db db' x : marked mark here must db db' ->
  must x -> is_Some (fork_db db !! x) -> look db' x = mark (look db x).
Proof.
  intros Hm Hx [d Hd]. unfold look. now rewrite (marked_all _ _ _ _ _ Hm x Hx), Hd.
Qed.

Lemma marked_grown mark here must b db db1 db' :
  (forall d, next_blocks (mark d) = next_blocks d) -> (forall d, is_known (mark d) = is_known d) ->
  (forall x, here x -> is_Some (full_blocks db1 !! x)) ->
  marked mark here must db1 db' -> grown b db db1 -> grown b db db'.
Proof.
  intros Hn Hk Hhere Hm [G1 G2 G3 G4 G5 G6].
  assert (forall x, is_known (look db' x) = is_known (look db1 x)) as Hk'.
  { intros x. destruct (marked_look _ _ _ _ _ x Hm) as [-> | [_ ->]]; [reflexivity | apply Hk]. }
  split.
  - now rewrite (marked_blocks _ _ _ _ _ Hm).
  - intros n. rewrite <- G2. unfold fetch_blocks_at_number. now rewrite (marked_numbers _ _ _ _ _ Hm).
  - intros x c. now rewrite (marked_children mark Hn _ _ _ _ _ Hm).
  - intros x. rewrite Hk'. apply G4.
  - rewrite Hk'. exact G5.
  - intros x Hx. rewrite (marked_blocks _ _ _ _ _ Hm) in Hx.
    destruct (marked_look _ _ _ _ _ x Hm) as [-> | [Hh _]]; [now apply G6 |].
    apply Hhere in Hh as [? Hh]. congruence.
Qed.

Lemma grown_stored b db db' x : tree db -> grown b db db' ->
  is_Some (full_blocks db' !! x) -> is_Some (fork_db db' !! x) /\ is_Some (full_blocks db' !! x).
Proof.
  intros T G Hx. split; [| exact Hx]. apply look_known. destruct Hx as [b' Hx].
  rewrite (grown_blocks _ _ _ G) in Hx. apply lookup_insert_Some in Hx as [[<- _] | [_ Hx]].
  - apply (grown_own _ _ _ G).
  - apply (grown_known _ _ _ G), (tree_block _ T _ _ Hx).
Qed.

Lemma grown_child_stored b db db' x c : tree db -> grown b db db' -> c ∈ children db' x ->
  is_Some (full_blocks db' !! c).
Proof.
  intros T G [[_ ->] | Hc]%(grown_children _ _ _ G); rewrite (grown_blocks _ _ _ G).
  - rewrite lookup_insert_eq. eauto.
  - apply (tree_children _ T) in Hc as (b' & Hb & _). destruct (decide (c = block_id b)) as [-> |].
    + rewrite lookup_insert_eq. eauto.
    + rewrite lookup_insert_ne by congruence. eauto.
Qed.

Lemma grown_ranked b db db' : tree db -> grown b db db' -> ranked id_rank db'.
Proof.
  intros T G. split.
  - intros x c Hc. eapply grown_stored; [exact T | exact G | eapply grown_child_stored; eassumption].
  - intros x c [[-> ->] | Hc]%(grown_children _ _ _ G); [apply header_rank |].
    now apply (tree_child_rank db).
Qed.

(** Below the new block nothing is new. *)
Lemma grown_below b db db' x : tree db -> grown b db db' ->
  (reaches (children db') (children db (block_id b)) x <->
   reaches (children db) (children db (block_id b)) x).
Proof.
  intros T G. split.
  - assert (reaches (children db') (children db (block_id b)) x ->
            reaches (children db) (children db (block_id b)) x /\ (id_rank (block_id b) < id_rank x)%nat)
      as Hr; [| intros Hx; apply Hr, Hx].
    induction 1 as [x Hx | y c _ [IH Hy] Hc].
    + split; [now apply reaches_here | now apply (tree_child_rank db)].
    + apply (grown_children _ _ _ G) in Hc as [[-> ->] | Hc].
      * pose proof (header_rank (header b)) as Hp. fold (block_id b) in Hp. lia.
      * split; [eapply reaches_next; eassumption |].
        pose proof (tree_child_rank _ _ _ T Hc). lia.
  - induction 1 as [x Hx | y c _ IH Hc]; [now apply reaches_here |].
    eapply reaches_next; [exact IH | apply (grown_children _ _ _ G); now right].
Qed.
End Grown.

Section Store.
Context `{HB : BlockParams} `{HR : !BlockHashes}.

(** ** The four ways a block is stored *)

(** Nothing is marked: the block hangs below an unlinked one, or nothing was
    known to come after it. *)
Lemma entered_tree b current db : let p := look db (previous (header b)) in
  tree db -> full_blocks db !! block_id b = None ->
  next_blocks current = children db (block_id b) -> is_known current = true ->
  same_flags (look db (block_id b)) current /\ is_linked p = false \/
    children db (block_id b) = ∅ /\ is_linked current = is_linked p /\
    invalid current = invalid p /\ (invalid p = true -> invalid_reason current = invalid_reason p) ->
  tree (entered b current db).
Proof.
  intros p T Hnew Hn Hk Hcase. set (db' := entered b current db).
  pose proof (entered_grown b current db Hn Hk) as G. fold db' in G.
  assert (look db' (block_id b) = current) as Hown by (unfold db'; now rewrite look_entered, decide_True).
  assert (forall x, x <> block_id b -> same_flags (look db x) (look db' x)) as Hother
    by (intros x Hx; apply entered_flags, Hx).
  destruct (missing_clean db (block_id b) T Hnew (header_not_genesis _)) as [Hl0 Hi0].
  assert (is_linked current = false /\ is_linked p = false /\ invalid current = false \/
          children db (block_id b) = ∅ /\ is_linked current = is_linked p /\ invalid current = invalid p)
    as Hflags.
  { destruct Hcase as [[Hs Hp] | (? & ? & ? & ?)]; [left | right; auto].
    rewrite (same_invalid _ _ Hs), (proj1 Hs). auto. }
  assert (forall x c, c ∈ children db' x ->
            x = previous (header b) /\ c = block_id b /\ same_flags p (look db' x) \/
            x = block_id b /\ c <> block_id b /\ same_flags (look db c) (look db' c) /\ c ∈ children db x \/
            x <> block_id b /\ c <> block_id b /\ same_flags (look db x) (look db' x) /\
              same_flags (look db c) (look db' c) /\ c ∈ children db x) as Hedge.
  { intros x c [[-> ->] | Hc]%(grown_children _ _ _ G).
    - left. repeat split; apply (Hother _ (not_own_parent b)).
    - assert (c <> block_id b)
        by (intros ->; apply (tree_children _ T) in Hc as (b' & Hb & _); congruence).
      right. destruct (decide (x = block_id b)); [left | right]; auto 10. }
  apply (grown_tree b db db' T Hnew G).
  - intros x c [(-> & -> & Hs) | [(-> & _ & Hs & Hc) | (_ & _ & Hs & Hs' & Hc)]]%Hedge.
    + rewrite Hown, (proj1 Hs). destruct Hflags as [(-> & _) | (_ & -> & _)]; [discriminate | auto].
    + rewrite Hown, (proj1 Hs). intros Hl. pose proof (tree_linked _ T _ _ Hc Hl). congruence.
    + rewrite (proj1 Hs), (proj1 Hs'). apply (tree_linked _ T _ _ Hc).
  - intros x c [(-> & -> & Hs) | [(-> & _ & Hs & Hc) | (_ & _ & Hs & Hs' & Hc)]]%Hedge; unfold can_link.
    + rewrite Hown, (proj1 Hs), andb_true_iff. destruct Hflags as [(_ & -> & _) | (_ & -> & _)]; intros [? _]; congruence.
    + rewrite Hown. destruct Hflags as [(-> & _) | (E & _)]; [discriminate | now rewrite E in Hc].
    + rewrite (proj1 Hs), (proj1 Hs'), (same_invalid _ _ Hs). apply (tree_viable _ T _ _ Hc).
  - intros x c [(-> & -> & Hs) | [(-> & _ & Hs & Hc) | (_ & _ & Hs & Hs' & Hc)]]%Hedge.
    + rewrite Hown, (proj1 Hs), (same_invalid _ _ Hs).
      destruct Hflags as [(_ & -> & _) | (_ & _ & ->)]; [discriminate | auto].
    + rewrite Hown. destruct Hflags as [(-> & _) | (E & _)]; [discriminate | now rewrite E in Hc].
    + rewrite (proj1 Hs), (same_invalid _ _ Hs), (same_invalid _ _ Hs'). apply (tree_invalid _ T _ _ Hc).
  - intros c. destruct (decide (c = block_id b)) as [-> | Hc].
    + rewrite Hown. intros Hi. destruct Hflags as [(_ & _ & E) | (_ & _ & E)]; [congruence |]. right.
      exists (previous (header b)). split; [apply (grown_children _ _ _ G); now left |].
      rewrite (same_invalid _ _ (Hother _ (not_own_parent b))). fold p. congruence.
    + rewrite (same_invalid _ _ (Hother c Hc)), (proj1 (Hother c Hc)). intros Hi.
      destruct (tree_tainted _ T c Hi) as [| (x & Hx & Hix)]; [now left | right].
      exists x. split; [apply (grown_children _ _ _ G); now right |].
      rewrite (same_invalid (look db x)); [exact Hix | apply Hother]. intros ->. congruence.
  - intros x. destruct (decide (x = block_id b)) as [-> | Hx].
    + rewrite Hown. destruct Hcase as [[Hs _] | (_ & _ & -> & Hr)].
      * rewrite (same_invalid _ _ Hs), Hi0. discriminate.
      * intros Hi. rewrite (Hr Hi). exact (tree_reason _ T _ Hi).
    + destruct (Hother x Hx) as (_ & _ & E). rewrite (same_invalid _ _ (Hother x Hx)), E.
      apply (tree_reason _ T).
Qed.

(** What the marking cases share: old flags away from the block and what
    comes after it. *)
Lemma marked_edges mark b current db db' x c : tree db -> full_blocks db !! block_id b = None ->
  (forall d, next_blocks (mark d) = next_blocks d) ->
  grown b db (entered b current db) ->
  let R := reaches (children (entered b current db)) (children db (block_id b)) in
  marked mark R R (entered b current db) db' -> c ∈ children db' x ->
  x = previous (header b) /\ c = block_id b \/
  (x = block_id b \/ R x) /\ R c /\ c ∈ children db x \/
  c ∈ children db x /\ x <> block_id b /\ c <> block_id b.
Proof.
  intros T Hnew Hn G R Hm. rewrite (marked_children mark Hn _ _ _ _ _ Hm).
  intros [? | Hc]%(grown_children _ _ _ G); [now left | right].
  assert (c <> block_id b) by (intros ->; apply (tree_children _ T) in Hc as (b' & Hb & _); congruence).
  destruct (decide (x = block_id b)) as [-> | Hx]; [left | right; auto].
  split; [now left | split; [now apply reaches_here | exact Hc]].
Qed.

(** The flags after marking. *)
Record marked_flags (mark : BlockForkData -> BlockForkData) (b : FullBlock) (current : BlockForkData)
    (R : BlockIdType -> Prop) (db db' : ForkDb) : Prop := {
  mf_own : look db' (block_id b) = current;
  mf_below x : R x -> x <> block_id b /\ exists d,
    is_linked d = false /\ invalid d = false /\ look db' x = mark d;
  mf_other x : x <> block_id b -> same_flags (look db x) (look db' x) \/ R x;
  mf_parent : same_flags (look db (previous (header b))) (look db' (previous (header b)));
  mf_edge x c : c ∈ children db' x ->
    x = previous (header b) /\ c = block_id b \/
    (x = block_id b \/ R x) /\ R c \/
    c ∈ children db x /\ same_flags (look db x) (look db' x) /\ same_flags (look db c) (look db' c)
}.

Lemma marked_flags_spec mark b current db db' : tree db -> full_blocks db !! block_id b = None ->
  (forall d, next_blocks (mark d) = next_blocks d) -> next_blocks current = children db (block_id b) ->
  is_known current = true ->
  let R := reaches (children (entered b current db)) (children db (block_id b)) in
  marked mark R R (entered b current db) db' -> marked_flags mark b current R db db'.
Proof.
  intros T Hnew Hn Hnc Hk R Hm. pose proof (entered_grown b current db Hnc Hk) as G.
  assert (forall x, R x -> (id_rank (block_id b) < id_rank x)%nat) as Hrank.
  { intros x Hx. apply (grown_below b db _ x T G) in Hx. induction Hx as [x Hx | y c _ IH Hc].
    - now apply (tree_child_rank db).
    - pose proof (tree_child_rank _ _ _ T Hc). lia. }
  assert (forall x, x <> block_id b -> same_flags (look db x) (look db' x) \/ R x) as Hother.
  { intros x Hx. destruct (marked_look _ _ _ _ _ x Hm) as [-> | [Hr _]]; [left | now right].
    apply entered_flags, Hx. }
  assert (forall x, R x -> x <> block_id b) as Hne by (intros x Hx ->; apply Hrank in Hx; lia).
  split.
  - destruct (marked_look _ _ _ _ _ (block_id b) Hm) as [-> | [Hr _]].
    + now rewrite look_entered, decide_True.
    + now apply Hne in Hr.
  - intros x Hx. split; [now apply Hne |]. exists (look (entered b current db) x).
    destruct (entered_flags b current db x (Hne x Hx)) as [Hs _].
    destruct (below_missing_clean db (block_id b) x T Hnew (header_not_genesis _)) as [Hl Hi];
      [now apply (grown_below b db _ x T G) |].
    rewrite (proj1 Hs), (same_invalid _ _ Hs). split; [exact Hl | split; [exact Hi |]].
    apply (marked_look_all _ _ _ _ _ _ Hm Hx).
    apply (grown_stored b db _ x T G). clear - T G Hx.
    induction Hx as [x Hx | y c _ _ Hc].
    + eapply grown_child_stored; [exact T | exact G | apply (grown_children _ _ _ G); right; exact Hx].
    + eapply grown_child_stored; [exact T | exact G | exact Hc].
  - exact Hother.
  - destruct (Hother _ (not_own_parent b)) as [Hs | Hr]; [exact Hs |]. apply Hrank in Hr.
    pose proof (header_rank (header b)) as Hp. fold (block_id b) in Hp. lia.
  - intros x c. rewrite (marked_children mark Hn _ _ _ _ _ Hm).
    intros [? | Hc]%(grown_children _ _ _ G); [now left | right].
    assert (c <> block_id b) as Hcb
      by (intros ->; apply (tree_children _ T) in Hc as (b' & Hb & _); congruence).
    destruct (decide (x = block_id b)) as [-> | Hx]; [left; split; [now left | now apply reaches_here] |].
    destruct (Hother x Hx) as [Hs | Hr].
    2: { left. split; [now right |]. eapply reaches_next; [exact Hr | apply (grown_children _ _ _ G); now right]. }
    destruct (Hother c Hcb) as [Hs' | Hr]; [right; auto | left].
    split; [| exact Hr]. right. apply (grown_below b db _ c T G) in Hr. apply (grown_below b db _ x T G).
    inversion Hr as [c' Hc' | y c' Hy Hc']; subst.
    + now destruct Hx; apply (tree_parent_unique db _ _ c T).
    + pose proof (tree_parent_unique db _ _ c T Hc' Hc) as ->. exact Hy.
Qed.

(** The missing link: all that comes after the block becomes linked. *)
Lemma linked_tree b current db db' : tree db -> full_blocks db !! block_id b = None ->
  next_blocks current = children db (block_id b) -> is_known current = true ->
  is_linked current = true -> invalid current = false ->
  is_linked (look db (previous (header b))) = true -> invalid (look db (previous (header b))) = false ->
  grown b db db' -> 
  (let R := reaches (children (entered b current db)) (children db (block_id b)) in
   marked (set_linked true) R R (entered b current db) db') ->
  tree db'.
Proof.
  intros T Hnew Hnc Hk Hl Hi Hpl Hpi G Hm.
  destruct (marked_flags_spec (set_linked true) b current db db' T Hnew (fun _ => eq_refl) Hnc Hk Hm)
    as [F1 F2 F3 F4 F5].
  set (R := reaches _ _) in *.
  assert (forall x, R x -> is_linked (look db' x) = true /\ invalid (look db' x) = false) as HR'.
  { intros x Hx. destruct (F2 x Hx) as (_ & d & _ & Hd & ->). split; [reflexivity | exact Hd]. }
  apply (grown_tree b db db' T Hnew G).
  - intros x c [(-> & ->) | [[[-> | Hx] Hc] | (Hc & Hs & Hs')]]%F5.
    + rewrite (proj1 F4). auto.
    + now rewrite F1.
    + intros _. apply HR', Hx.
    + rewrite (proj1 Hs), (proj1 Hs'). apply (tree_linked _ T _ _ Hc).
  - intros x c [(-> & ->) | [[_ Hc] | (Hc & Hs & Hs')]]%F5.
    + now rewrite F1.
    + intros _. apply HR', Hc.
    + unfold can_link. rewrite (proj1 Hs), (proj1 Hs'), (same_invalid _ _ Hs). apply (tree_viable _ T _ _ Hc).
  - intros x c [(-> & ->) | [[[-> | Hx] Hc] | (Hc & Hs & Hs')]]%F5.
    + rewrite (same_invalid _ _ F4). congruence.
    + rewrite F1. congruence.
    + destruct (HR' x Hx). congruence.
    + rewrite (proj1 Hs), (same_invalid _ _ Hs), (same_invalid _ _ Hs'). apply (tree_invalid _ T _ _ Hc).
  - intros c Hc. destruct (decide (c = block_id b)) as [-> | Hcb]; [left; now rewrite F1 |].
    destruct (F3 c Hcb) as [Hs | Hr]; [| destruct (HR' c Hr); congruence].
    rewrite (same_invalid _ _ Hs) in Hc. rewrite (proj1 Hs).
    destruct (tree_tainted _ T c Hc) as [| (x & Hx & Hix)]; [now left |].
    assert (x <> block_id b) as Hxb.
    { intros ->. now rewrite (proj2 (missing_clean db _ T Hnew (header_not_genesis _))) in Hix. }
    destruct (F3 x Hxb) as [Hs' | Hr].
    + right. exists x. rewrite (same_invalid _ _ Hs'). split; [apply (grown_children _ _ _ G); auto | exact Hix].
    + apply (grown_below b db _ x T (entered_grown b current db Hnc Hk)) in Hr.
      destruct (below_missing_clean db _ x T Hnew (header_not_genesis _) Hr). congruence.
  - intros x Hx. destruct (decide (x = block_id b)) as [-> | Hxb]; [congruence |].
    destruct (F3 x Hxb) as [Hs | Hr]; [| destruct (HR' x Hr); congruence].
    rewrite (same_invalid _ _ Hs) in Hx. rewrite (proj2 (proj2 Hs)). apply (tree_reason _ T x Hx).
Qed.

(** Below an invalid block: the block and all that comes after it is invalid. *)
Lemma invalid_tree b current reason db db' : tree db -> full_blocks db !! block_id b = None ->
  next_blocks current = children db (block_id b) -> is_known current = true ->
  is_linked current = true -> invalid current = true -> is_Some (invalid_reason current) ->
  is_linked (look db (previous (header b))) = true -> invalid (look db (previous (header b))) = true ->
  grown b db db' ->
  (let R := reaches (children (entered b current db)) (children db (block_id b)) in
   marked (set_validity (Some false) (Some reason)) R R (entered b current db) db') ->
  tree db'.
Proof.
  intros T Hnew Hnc Hk Hl Hi Hr Hpl Hpi G Hm.
  destruct (marked_flags_spec (set_validity (Some false) (Some reason)) b current db db' T Hnew
              (fun _ => eq_refl) Hnc Hk Hm) as [F1 F2 F3 F4 F5].
  set (R := reaches _ _) in *.
  assert (forall x, R x -> is_linked (look db' x) = false /\ invalid (look db' x) = true /\
            invalid_reason (look db' x) = Some reason) as HR'.
  { intros x Hx. destruct (F2 x Hx) as (_ & d & Hd & _ & ->). auto. }
  apply (grown_tree b db db' T Hnew G).
  - intros x c [(-> & ->) | [[_ Hc] | (Hc & Hs & Hs')]]%F5.
    + rewrite (proj1 F4). auto.
    + destruct (HR' c Hc). congruence.
    + rewrite (proj1 Hs), (proj1 Hs'). apply (tree_linked _ T _ _ Hc).
  - intros x c [(-> & ->) | [[[-> | Hx] Hc] | (Hc & Hs & Hs')]]%F5.
    + now rewrite F1.
    + rewrite F1. unfold can_link. rewrite Hi, andb_false_r. discriminate.
    + destruct (HR' x Hx) as (E & _). unfold can_link. rewrite E. discriminate.
    + unfold can_link. rewrite (proj1 Hs), (proj1 Hs'), (same_invalid _ _ Hs). apply (tree_viable _ T _ _ Hc).
  - intros x c [(-> & ->) | [[_ Hc] | (Hc & Hs & Hs')]]%F5.
    + now rewrite F1.
    + intros _ _. apply HR', Hc.
    + rewrite (proj1 Hs), (same_invalid _ _ Hs), (same_invalid _ _ Hs'). apply (tree_invalid _ T _ _ Hc).
  - intros c Hc. destruct (decide (c = block_id b)) as [-> | Hcb]; [left; now rewrite F1 |].
    destruct (F3 c Hcb) as [Hs | Hrc].
    + rewrite (same_invalid _ _ Hs) in Hc. rewrite (proj1 Hs).
      destruct (tree_tainted _ T c Hc) as [| (x & Hx & Hix)]; [now left | right].
      exists x. split; [apply (grown_children _ _ _ G); auto |].
      destruct (decide (x = block_id b)) as [-> |]; [now rewrite F1 |].
      destruct (F3 x) as [Hs' | Hrx]; [assumption | now rewrite (same_invalid _ _ Hs') | apply HR', Hrx].
    + right. destruct Hrc as [c Hc' | y c Hy Hc'].
      * exists (block_id b). rewrite F1. split; [apply (grown_children _ _ _ G); now right | exact Hi].
      * exists y. rewrite (marked_children (set_validity (Some false) (Some reason)) (fun _ => eq_refl) _ _ _ _ _ Hm).
        split; [exact Hc' | apply HR', Hy].
  - intros x Hx. destruct (decide (x = block_id b)) as [-> | Hxb]; [now rewrite F1 |].
    destruct (F3 x Hxb) as [Hs | Hrx]; [| destruct (HR' x Hrx) as (_ & _ & ->); eauto].
    rewrite (same_invalid _ _ Hs) in Hx. rewrite (proj2 (proj2 Hs)). apply (tree_reason _ T x Hx).
Qed.

(** ** store_and_index *)

(** [id] is a highest of the blocks that [from] reaches. *)
Definition tip (db : ForkDb) (from : gset BlockIdType) (id : BlockIdType) : Prop :=
  reaches (children db) from id /\ exists b, full_blocks db !! id = Some b /\
  forall x bx, reaches (children db) from x -> full_blocks db !! x = Some bx ->
    block_num (header bx) <= block_num (header b).

Lemma attach_run b db :
  attach (block_id b) b db =
    (Ok (set_next ({[ block_id b ]} ∪ next_blocks (look db (previous (header b))))
           (look db (previous (header b)))), attached b db).
Proof. reflexivity. Qed.

Lemma attached_entry b db : fork_db (attached b db) !! block_id b = fork_db db !! block_id b.
Proof. cbn. apply lookup_insert_ne, not_own_parent. Qed.

Lemma inherit_flags prev d :
  next_blocks (inherit_invalid prev d) = next_blocks d /\
  is_linked (inherit_invalid prev d) = is_linked d /\ is_known (inherit_invalid prev d) = is_known d /\
  (invalid d = false -> invalid (inherit_invalid prev d) = invalid prev) /\
  (invalid prev = true -> invalid_reason (inherit_invalid prev d) = invalid_reason prev) /\
  (invalid prev = false -> inherit_invalid prev d = d).
Proof. unfold inherit_invalid. destruct (invalid prev); repeat split; auto; discriminate. Qed.

Lemma entered_ready b current db : tree db -> grown b db (entered b current db) ->
  ranked id_rank (entered b current db) /\
  forall c, c ∈ children db (block_id b) ->
    is_Some (fork_db (entered b current db) !! c) /\ is_Some (full_blocks (entered b current db) !! c).
Proof.
  intros T G. split; [now apply (grown_ranked b db) |]. intros c Hc.
  apply (grown_stored b db _ c T G), (grown_child_stored b db _ (block_id b) c T G), (grown_children _ _ _ G).
  now right.
Qed.

(** What storing a block promises. *)
Record stored (b : FullBlock) (r : BlockIdType * BlockForkData) (db db' : ForkDb) : Prop := {
  stored_tree : tree db';
  stored_blocks : full_blocks db' = <[block_id b := b]> (full_blocks db);
  stored_linked : is_linked (look db' (block_id b)) = is_linked (look db (previous (header b)));
  stored_alone : can_link (look db (previous (header b))) = false \/ fork_db db !! block_id b = None ->
    fst r = block_id b /\ can_link (snd r) = can_link (look db (previous (header b)));
  stored_tip x bx : can_link (look db (previous (header b))) = true ->
    reaches (children db) (children db (block_id b)) x -> full_blocks db' !! x = Some bx ->
    0 < block_num (header bx) -> tip db' (children db (block_id b)) (fst r) /\ can_link (snd r) = true;
  stored_included x : is_included (look db' x) = is_included (look db x);
  stored_valid x : invalid (look db (previous (header b))) = false ->
    is_valid (look db' x) = is_valid (look db x);
  stored_worse x : x <> block_id b -> invalid (look db x) = true -> invalid (look db' x) = true
}.

Lemma entered_invalid b current db x : x <> block_id b ->
  invalid (look (entered b current db) x) = invalid (look db x).
Proof. intros Hx. rewrite look_entered, decide_False by exact Hx. now case_decide. Qed.

(** A member that is set neither by storing nor by the marks. *)
Lemma entered_member {A} (g : BlockForkData -> A) b current db x :
  (forall n d, g (set_next n d) = g d) -> g current = g (look db (block_id b)) ->
  g (look (entered b current db) x) = g (look db x).
Proof.
  intros Hn Hc. rewrite look_entered. destruct (decide (x = block_id b)) as [-> |]; [exact Hc |].
  destruct (decide (x = previous (header b))) as [-> |]; [apply Hn | reflexivity].
Qed.

Lemma marked_member {A} (g : BlockForkData -> A) mark here must db db' x :
  (forall d, g (mark d) = g d) -> marked mark here must db db' -> g (look db' x) = g (look db x).
Proof.
  intros Hg Hm. unfold look. destruct (marked_only _ _ _ _ _ Hm x) as [-> | [_ ->]]; [reflexivity |].
  destruct (fork_db db !! x); [apply Hg | reflexivity].
Qed.

Lemma inherit_included prev d : is_included (inherit_invalid prev d) = is_included d.
Proof. unfold inherit_invalid. now destruct (invalid prev). Qed.

Lemma inherit_valid prev d : invalid prev = false -> is_valid (inherit_invalid prev d) = is_valid d.
Proof. unfold inherit_invalid. now intros ->. Qed.

Lemma reaches_placeholder b db x : tree db -> full_blocks db !! block_id b = None ->
  fork_db db !! block_id b = None -> ~ reaches (children db) (children db (block_id b)) x.
Proof.
  intros T _ E Hx.
  assert (children db (block_id b) = ∅) as Ec by (unfold children; now rewrite E).
  rewrite Ec in Hx. induction Hx; set_solver.
Qed.

Lemma store_unlinked b db : tree db -> full_blocks db !! block_id b = None ->
  is_linked (look db (previous (header b))) = false \/ fork_db db !! block_id b = None ->
  exists r db', store_and_index (block_id b) b db = (Ok r, db') /\ stored b r db db'.
Proof.
  intros T Hnew Hcase. set (p := look db (previous (header b))) in *.
  set (prev := set_next ({[ block_id b ]} ∪ next_blocks p) p).
  destruct (missing_clean db (block_id b) T Hnew (header_not_genesis _)) as [Hl0 Hi0].
  destruct (fork_db db !! block_id b) as [d |] eqn:E.
  - destruct Hcase as [Hp | Hc]; [| discriminate].
    assert (look db (block_id b) = d) as Ed by (unfold look; now rewrite E).
    exists (block_id b, set_known true d), (entered b (set_known true d) db). split.
    + unfold store_and_index, bind. rewrite attach_run. unfold get. rewrite attached_entry, E.
      fold p. cbn [is_linked set_next]. rewrite Hp. reflexivity.
    + assert (children db (block_id b) = next_blocks d) as Ec by (now rewrite look_children, Ed).
      split; [| reflexivity | | | | | |].
      * apply entered_tree; auto. left. rewrite Ed. split; [split; auto | exact Hp].
      * rewrite look_entered, decide_True by reflexivity. cbn. fold p. congruence.
      * intros _. split; [reflexivity |]. unfold can_link. fold p. cbn. rewrite <- Ed, Hl0, Hp. reflexivity.
      * unfold can_link. fold p. rewrite Hp. discriminate.
      * intros x. apply (entered_member is_included); [reflexivity | now rewrite Ed].
      * intros x _. apply (entered_member is_valid); [reflexivity | now rewrite Ed].
      * intros x Hx. now rewrite entered_invalid.
  - set (current := inherit_invalid prev (set_linked (is_linked prev) (set_known true new_fork_data))).
    assert (children db (block_id b) = ∅) as Ec by (unfold children; now rewrite E).
    exists (block_id b, current), (entered b current db). split.
    + unfold store_and_index, bind. rewrite attach_run. unfold get. rewrite attached_entry, E. reflexivity.
    + destruct (inherit_flags prev (set_linked (is_linked prev) (set_known true new_fork_data)))
        as (I1 & I2 & I3 & I4 & I5 & I6). fold current in I1, I2, I3, I4, I5, I6.
      assert (look db (block_id b) = new_fork_data) as Ed by (unfold look; now rewrite E).
      split; [| reflexivity | | | | | |].
      * apply entered_tree; auto; [rewrite I1, Ec; reflexivity |].
        right. split; [exact Ec | split; [exact I2 | split; [now apply I4 |]]].
        exact I5.
      * rewrite look_entered, decide_True by reflexivity. exact I2.
      * intros _. split; [reflexivity |]. cbn [snd]. unfold can_link. rewrite I2, I4 by reflexivity. reflexivity.
      * intros x bx _ Hx. now apply reaches_placeholder in Hx.
      * intros x. apply (entered_member is_included); [reflexivity |].
        unfold current. now rewrite inherit_included, Ed.
      * intros x Hv. apply (entered_member is_valid); [reflexivity |].
        unfold current. now rewrite inherit_valid, Ed by exact Hv.
      * intros x Hx. now rewrite entered_invalid.
Qed.

(** The placeholder, as it is stored under a linked block. *)
Lemma placeholder_current b db d : tree db -> full_blocks db !! block_id b = None ->
  fork_db db !! block_id b = Some d -> let p := look db (previous (header b)) in
  let prev := set_next ({[ block_id b ]} ∪ next_blocks p) p in
  let current := inherit_invalid prev (set_linked true (set_known true d)) in
  next_blocks current = children db (block_id b) /\ is_linked current = true /\
  is_known current = true /\ invalid current = invalid p /\
  (invalid p = true -> invalid_reason current = invalid_reason p).
Proof.
  intros T Hnew E p prev current.
  destruct (missing_clean db (block_id b) T Hnew (header_not_genesis _)) as [_ Hi0].
  assert (look db (block_id b) = d) as Ed by (unfold look; now rewrite E).
  destruct (inherit_flags prev (set_linked true (set_known true d))) as (I1 & I2 & I3 & I4 & I5 & _).
  fold current in I1, I2, I3, I4, I5. rewrite look_children, Ed. repeat split; auto.
  apply I4. rewrite Ed in Hi0. exact Hi0.
Qed.

Lemma store_below_invalid b db d : tree db -> full_blocks db !! block_id b = None ->
  fork_db db !! block_id b = Some d ->
  is_linked (look db (previous (header b))) = true -> invalid (look db (previous (header b))) = true ->
  exists r db', store_and_index (block_id b) b db = (Ok r, db') /\ stored b r db db'.
Proof.
  intros T Hnew E Hpl Hpi.
  destruct (placeholder_current b db d T Hnew E) as (C1 & C2 & C3 & C4 & C5).
  set (p := look db (previous (header b))) in *. set (prev := set_next _ p) in *.
  set (current := inherit_invalid prev _) in *.
  destruct (tree_reason _ T _ Hpi) as [reason Er]. fold p in Er.
  pose proof (entered_grown b current db C1 C3) as G.
  destruct (entered_ready b current db T G) as [Hrk Hids].
  rewrite <- C1 in Hids.
  destruct (recursive_mark_as_invalid_spec (entered b current db) (next_blocks current) reason Hrk Hids)
    as (db' & R & Hm).
  assert (grown b db db') as G'.
  { refine (marked_grown (set_validity (Some false) (Some reason)) _ _ b db _ db' (fun _ => eq_refl) (fun _ => eq_refl) _ Hm G).
    intros x Hx. destruct Hx as [x Hx | y x _ Hx]; [now apply Hids |].
    eapply grown_child_stored; eassumption. }
  rewrite C1 in Hm.
  exists (block_id b, current), db'. split.
  - unfold store_and_index, bind. rewrite attach_run. unfold get. rewrite attached_entry, E.
    fold p. fold prev. cbn [is_linked set_next prev]. rewrite Hpl. unfold fork_store, modify.
    change (invalid prev) with (invalid p). rewrite Hpi. change (invalid_reason prev) with (invalid_reason p).
    rewrite Er. cbn [valid_or ret]. fold (with_fork (block_id b)
      (inherit_invalid prev (set_linked true (set_known true d))) (attached b db)).
    fold current. fold (entered b current db). now rewrite R.
  - assert (is_linked (look db' (block_id b)) = true) as Hown.
    { destruct (marked_flags_spec (set_validity (Some false) (Some reason)) b current db db' T Hnew (fun _ => eq_refl) C1 C3 Hm) as [-> _ _ _ _]. exact C2. }
    split.
    + apply (invalid_tree b current reason db db' T Hnew C1 C3 C2); auto; [congruence |].
      rewrite (C5 Hpi), Er. eauto.
    + apply (grown_blocks _ _ _ G').
    + fold p. congruence.
    + intros _. split; [reflexivity |]. unfold can_link. fold p. cbn [snd].
      now rewrite C4, Hpi, !andb_false_r.
    + unfold can_link. fold p. rewrite Hpi, andb_false_r. discriminate.
    + intros x. rewrite (marked_member is_included (set_validity (Some false) (Some reason)) _ _ _ _ x
                 (fun _ => eq_refl) Hm).
      apply (entered_member is_included); [reflexivity |]. unfold current.
      rewrite inherit_included. unfold look. now rewrite E.
    + intros x. fold p. congruence.
    + intros x Hx Hix. destruct (marked_look _ _ _ _ _ x Hm) as [-> | [_ ->]]; [| reflexivity].
      now rewrite entered_invalid.
Qed.

Lemma store_missing_link b db d : tree db -> full_blocks db !! block_id b = None ->
  fork_db db !! block_id b = Some d ->
  is_linked (look db (previous (header b))) = true -> invalid (look db (previous (header b))) = false ->
  exists r db', store_and_index (block_id b) b db = (Ok r, db') /\ stored b r db db'.
Proof.
  intros T Hnew E Hpl Hpi.
  destruct (placeholder_current b db d T Hnew E) as (C1 & C2 & C3 & C4 & C5).
  set (p := look db (previous (header b))) in *. set (prev := set_next _ p) in *.
  set (current := inherit_invalid prev _) in *.
  pose proof (entered_grown b current db C1 C3) as G.
  destruct (entered_ready b current db T G) as [Hrk Hids].
  rewrite <- C1 in Hids.
  destruct (recursive_mark_as_linked_spec (entered b current db) (next_blocks current) Hrk Hids)
    as (V & h & rid & rd & db' & R & Hm & (H1 & H2 & H3) & HV).
  assert (grown b db db') as G'.
  { refine (marked_grown (set_linked true) _ _ b db _ db' (fun _ => eq_refl) (fun _ => eq_refl) _ Hm G).
    intros x Hx. destruct Hx as [x Hx | y x _ Hx]; [now apply Hids |].
    eapply grown_child_stored; eassumption. }
  rewrite C1 in Hm, HV.
  exists (rid, rd), db'. split.
  - unfold store_and_index, bind. rewrite attach_run. unfold get. rewrite attached_entry, E.
    fold p. fold prev. cbn [is_linked set_next prev]. rewrite Hpl. unfold fork_store, modify.
    change (invalid prev) with (invalid p). rewrite Hpi.
    fold (with_fork (block_id b)
      (inherit_invalid prev (set_linked true (set_known true d))) (attached b db)).
    fold current. fold (entered b current db). exact R.
  - destruct (marked_flags_spec (set_linked true) b current db db' T Hnew (fun _ => eq_refl) C1 C3 Hm) as [F1 F2 _ _ _].
    split.
    + apply (linked_tree b current db db' T Hnew C1 C3 C2); auto; congruence.
    + apply (grown_blocks _ _ _ G').
    + rewrite F1. fold p. congruence.
    + unfold can_link. fold p. rewrite Hpl, Hpi, E. intros []; discriminate.
    + intros x bx _ Hx Hb Hpos. cbn [fst snd] in *.
      apply (grown_below b db _ x T G) in Hx.
      assert (forall y, full_blocks db' !! y = full_blocks (entered b current db) !! y) as Hfb
        by (intros y; now rewrite (marked_blocks _ _ _ _ _ Hm)).
      assert (0 < h) as Hh.
      { apply HV in Hx. specialize (H2 x bx Hx). rewrite <- Hfb in H2. specialize (H2 Hb). lia. }
      destruct (H3 Hh) as (br & HrV & Hbr & Hnum & Hrd).
      apply HV in HrV. split.
      * split.
        { eapply reaches_ext; [| exact HrV]. intros i.
          now rewrite (marked_children (set_linked true) (fun _ => eq_refl) _ _ _ _ _ Hm). }
        exists br. rewrite Hfb. split; [exact Hbr |]. intros y by_ Hy Hby. rewrite Hnum.
        rewrite Hfb in Hby. apply (H2 y by_); [| exact Hby]. apply HV.
        eapply reaches_ext; [| exact Hy]. intros i.
        now rewrite (marked_children (set_linked true) (fun _ => eq_refl) _ _ _ _ _ Hm).
      * destruct (F2 rid HrV) as (Hne & d' & _ & Hd' & Hl').
        destruct (fork_db (entered b current db) !! rid) as [dr |] eqn:Edr; [| discriminate].
        injection Hrd as <-. 
        assert (look db' rid = set_linked true dr) as El.
        { rewrite (marked_look_all _ _ _ _ _ rid Hm HrV) by eauto. unfold look. now rewrite Edr. }
        rewrite <- El, Hl'. unfold can_link. cbn. change (invalid (set_linked true d')) with (invalid d').
        now rewrite Hd'.
    + intros x. rewrite (marked_member is_included (set_linked true) _ _ _ _ x (fun _ => eq_refl) Hm).
      apply (entered_member is_included); [reflexivity |]. unfold current.
      rewrite inherit_included. unfold look. now rewrite E.
    + intros x Hv. rewrite (marked_member is_valid (set_linked true) _ _ _ _ x (fun _ => eq_refl) Hm).
      apply (entered_member is_valid); [reflexivity |]. unfold current.
      rewrite inherit_valid by exact Hv. unfold look. now rewrite E.
    + intros x Hx Hix. rewrite (marked_member invalid (set_linked true) _ _ _ _ x (fun _ => eq_refl) Hm).
      now rewrite entered_invalid.
Qed.

(** A block that was not seen before is stored without an error: the loops
    over its descendants end. *)
Lemma store_and_index_stored b db : tree db -> full_blocks db !! block_id b = None ->
  exists r db', store_and_index (block_id b) b db = (Ok r, db') /\ stored b r db db'.
Proof.
  intros T Hnew. destruct (fork_db db !! block_id b) as [d |] eqn:E; [| apply store_unlinked; auto].
  destruct (is_linked (look db (previous (header b)))) eqn:Hl; [| apply store_unlinked; auto].
  destruct (invalid (look db (previous (header b)))) eqn:Hi;
    [eapply store_below_invalid | eapply store_missing_link]; eassumption.
Qed.

(** C30: A block that was not seen before is stored without an error: the tree
    keeps its invariant, the block is linked as the one before it and nothing
    becomes valid, invalid or included unless it hangs below an invalid block;
    when the block is the missing link, the highest of the blocks known to
    come after it is returned, and may be linked. *)
Theorem store_and_index_spec b db : tree db -> full_blocks db !! block_id b = None ->
  exists r db', store_and_index (block_id b) b db = (Ok r, db') /\ stored b r db db'.
Proof. apply store_and_index_stored. Qed.

(** ** Any number of blocks *)

Definition store_all (bs : list FullBlock) : M ForkDb unit :=
  forM bs (fun b => _ <- store_and_index (block_id b) b ;; ret tt).

(** The blocks of [bs] whose ancestors are all in [bs]. *)
Inductive connected (bs : list FullBlock) : BlockIdType -> Prop :=
  | connected_genesis : connected bs 0
  | connected_block b : b ∈ bs -> connected bs (previous (header b)) -> connected bs (block_id b).

Definition unchecked (db : ForkDb) : Prop := forall x, invalid (look db x) = false.

(** In a tree without invalid blocks the links are the ancestors. *)
Lemma linked_connected db bs : tree db -> unchecked db ->
  (forall id b, full_blocks db !! id = Some b -> b ∈ bs) ->
  (forall b, b ∈ bs -> full_blocks db !! block_id b = Some b) ->
  forall id, is_linked (look db id) = true <-> connected bs id.
Proof.
  intros T Hu Hin Hfull id. split.
  - induction id as [id IH] using (well_founded_ind (well_founded_ltof _ id_rank)). intros Hl.
    destruct (full_blocks db !! id) as [b |] eqn:E.
    + destruct (tree_block _ T _ _ E) as [<- _].
      apply connected_block; [exact (Hin _ _ E) |].
      apply IH; [exact (header_rank (header b)) |].
      apply (tree_linked _ T _ (block_id b)); [apply (tree_children _ T); eauto | exact Hl].
    + destruct (tree_placeholder _ T _ E) as [-> |]; [constructor | congruence].
  - induction 1 as [| b Hb _ IH].
    + destruct (tree_genesis _ T) as [_ H0]. now apply andb_prop in H0 as [-> _].
    + apply (tree_viable _ T (previous (header b))).
      * apply (tree_children _ T). eauto.
      * unfold can_link. now rewrite IH, Hu.
Qed.

Lemma store_all_run bs : forall db, tree db -> unchecked db -> NoDup (map block_id bs) ->
  (forall b, b ∈ bs -> full_blocks db !! block_id b = None) ->
  exists db', store_all bs db = (Ok tt, db') /\ tree db' /\ unchecked db' /\
    (forall b, b ∈ bs -> full_blocks db' !! block_id b = Some b) /\
    (forall id b, full_blocks db' !! id = Some b -> full_blocks db !! id = Some b \/ b ∈ bs) /\
    (forall id b, full_blocks db !! id = Some b -> full_blocks db' !! id = Some b).
Proof.
  induction bs as [| b bs IH]; intros db T Hu Hn Hnew.
  - exists db. split; [reflexivity |]. split; [exact T |]. split; [exact Hu |].
    split; [intros c Hc; now apply elem_of_nil in Hc | auto].
  - cbn [map] in Hn. apply NoDup_cons in Hn as [Hb Hn].
    destruct (store_and_index_stored b db T) as (r & db1 & R1 & [T1 B1 _ _ _ _ V1]);
      [apply Hnew; set_solver |].
    assert (forall b', b' ∈ bs -> block_id b' <> block_id b) as Hne.
    { intros b' Hb' E. apply Hb. rewrite <- E. now apply (list_elem_of_fmap_2 block_id). }
    destruct (IH db1) as (db' & R & T' & Hu' & I1 & I2 & I3); auto.
    + intros x. unfold invalid. rewrite V1 by apply Hu. apply Hu.
    + intros b' Hb'. rewrite B1, lookup_insert_ne by (specialize (Hne b' Hb'); congruence).
      apply Hnew. set_solver.
    + exists db'. split; [| split; [exact T' | split; [exact Hu' | split; [| split]]]].
      * unfold store_all in *. cbn [forM]. unfold bind, ret. rewrite R1. exact R.
      * intros b' [-> | Hb']%elem_of_cons; [| auto]. apply I3. now rewrite B1, lookup_insert_eq.
      * intros id b' Hid. destruct (I2 id b' Hid) as [Hid' |]; [| set_solver].
        rewrite B1 in Hid'. destruct (decide (id = block_id b)) as [-> | Hi].
        -- rewrite lookup_insert_eq in Hid'. injection Hid' as <-. set_solver.
        -- rewrite lookup_insert_ne in Hid' by congruence. auto.
      * intros id b' Hid. apply I3. rewrite B1. destruct (decide (id = block_id b)) as [-> | Hi].
        -- rewrite Hnew in Hid by set_solver. discriminate.
        -- now rewrite lookup_insert_ne by congruence.
Qed.

(** C31: Blocks arriving in any order, each once, are all stored, and then
    exactly those are linked whose ancestors have all arrived. *)
Theorem store_all_linked bs : NoDup (map block_id bs) ->
  exists db, store_all bs genesis_forks = (Ok tt, db) /\ tree db /\
    forall id, is_linked (look db id) = true <-> connected bs id.
Proof.
  intros Hn. destruct (store_all_run bs genesis_forks genesis_tree) as (db & R & T & Hu & I1 & I2 & _); auto.
  - intros x. unfold look, genesis_forks. cbn. destruct (decide (x = 0)) as [-> | Hx].
    + now rewrite lookup_singleton_eq.
    + now rewrite lookup_singleton_ne.
  - exists db. split; [exact R | split; [exact T |]]. apply linked_connected; auto.
    intros id b Hid. destruct (I2 id b Hid) as [Hg |]; [| assumption].
    cbn in Hg. now rewrite lookup_empty in Hg.
Qed.
End Store.
