(* ===== verification/ForkMarks.v ===== *)
(** * Marking blocks keeps the tree

    mark_invalid, mark_included and get_fork_history on a block tree. *)

From Stdlib Require Import ZArith Lia Bool String.
From stdpp Require Import base gmap strings list fin_sets.
From S2P Require Import Prelude Asset Entries Names ChainInterface Blocks ForkDatabase ForkTree.
From S2P Require Import ForkStore.

Local Open Scope Z_scope.

Section ForkMarks.
Context `{HB : BlockParams} `{HR : !BlockHashes}.

(** The shape of the tree is the same. *)
Record same_shape (db db' : ForkDb) : Prop := {
  shape_blocks : full_blocks db' = full_blocks db;
  shape_numbers : fork_numbers db' = fork_numbers db;
  shape_next x : next_blocks (look db' x) = next_blocks (look db x);
  shape_known x : is_known (look db' x) = is_known (look db x);
  shape_linked x : is_linked (look db' x) = is_linked (look db x)
}.

Lemma shape_children db db' x : same_shape db db' -> children db' x = children db x.
Proof. intros Hs. rewrite !look_children. apply Hs. Qed.

Lemma shape_tree db db' : same_shape db db' -> tree db ->
  (forall x c, c ∈ children db x -> invalid (look db x) = true -> invalid (look db' x) = true) ->
  (forall x c, c ∈ children db x -> is_linked (look db x) = true -> invalid (look db' x) = true ->
     invalid (look db' c) = true) ->
  (forall c, invalid (look db' c) = true -> is_linked (look db c) = true \/
     exists x, c ∈ children db x /\ invalid (look db' x) = true) ->
  (forall x, invalid (look db' x) = true -> is_Some (invalid_reason (look db' x))) ->
  can_link (look db' 0) = true ->
  tree db'.
Proof.
  intros Hs T F1 F2 F3 F4 F5. split; try assumption.
  - intros id b. rewrite (shape_blocks _ _ Hs), (shape_known _ _ Hs). apply (tree_block _ T).
  - intros id c. rewrite (shape_children _ _ _ Hs), (shape_blocks _ _ Hs). apply (tree_children _ T).
  - intros id c. rewrite (shape_children _ _ _ Hs), !(shape_linked _ _ Hs). apply (tree_linked _ T).
  - intros id c. rewrite (shape_children _ _ _ Hs). unfold can_link. rewrite !(shape_linked _ _ Hs).
    intros Hc Hl. apply (tree_viable _ T id c Hc). unfold can_link.
    destruct (invalid (look db id)) eqn:E; [| destruct (is_linked (look db id)); [reflexivity | discriminate]].
    rewrite (F1 id c Hc E), andb_false_r in Hl. discriminate.
  - intros id c. rewrite (shape_children _ _ _ Hs), !(shape_linked _ _ Hs). apply F2.
  - intros c. rewrite (shape_linked _ _ Hs). setoid_rewrite (shape_children _ _ _ Hs). apply F3.
  - intros id. rewrite (shape_blocks _ _ Hs), (shape_linked _ _ Hs). apply (tree_placeholder _ T).
  - split; [| exact F5]. rewrite (shape_blocks _ _ Hs). apply T.
  - intros n id. unfold fetch_blocks_at_number. rewrite (shape_numbers _ _ Hs), (shape_blocks _ _ Hs).
    apply (tree_numbers _ T).
Qed.

(** ** mark_included *)

Lemma mark_included_run id included db : is_Some (fork_db db !! id) ->
  exists db', mark_included id included db = (Ok tt, db') /\ same_shape db db' /\
    (forall x, x <> id -> look db' x = look db x) /\ is_included (look db' id) = included /\
    is_valid (look db' id) = (if included then Some true else is_valid (look db id)) /\
    invalid_reason (look db' id) = invalid_reason (look db id).
Proof.
  intros [d Ed]. assert (look db id = d) as El by (unfold look; now rewrite Ed).
  eexists. split.
  { unfold mark_included, fork_fetch, fork_store, bind, get, valid_or, modify, ret. rewrite Ed. reflexivity. }
  match goal with |- same_shape _ ?db' /\ _ => change db' with (with_fork id
    (let d := set_included included d in
     if included then set_validity (Some true) (invalid_reason d) d else d) db) end.
  split; [| split; [| split; [| split]]].
  - split; try reflexivity; intros x; rewrite look_with; destruct (decide (x = id)) as [-> |];
      rewrite ?El; now destruct included.
  - intros x Hx. now rewrite look_with, decide_False.
  - rewrite look_with, decide_True by reflexivity. now destruct included.
  - rewrite look_with, decide_True by reflexivity. rewrite El. now destruct included.
  - rewrite look_with, decide_True by reflexivity. rewrite El. now destruct included.
Qed.

Lemma mark_included_tree id included db : tree db -> is_Some (fork_db db !! id) ->
  (included = true -> invalid (look db id) = false) ->
  exists db', mark_included id included db = (Ok tt, db') /\ tree db' /\
    (forall x, x <> id -> look db' x = look db x) /\ is_included (look db' id) = included /\
    full_blocks db' = full_blocks db.
Proof.
  intros T Hid Hinc.
  destruct (mark_included_run id included db Hid) as (db' & R & Hs & Hx & Hi & Hv & Hreason).
  assert (forall x, invalid (look db' x) = invalid (look db x)) as Hinv.
  { intros x. destruct (decide (x = id)) as [-> | Hne]; [| now rewrite Hx].
    unfold invalid at 1. rewrite Hv. destruct included; [now rewrite Hinc | reflexivity]. }
  exists db'. split; [exact R | split; [| split; [exact Hx | split; [exact Hi | apply Hs]]]].
  apply (shape_tree db db' Hs T); intros *; rewrite ?Hinv; auto.
  - apply (tree_invalid _ T).
  - setoid_rewrite Hinv. apply (tree_tainted _ T).
  - intros Hi'. pose proof (tree_reason _ T x Hi') as Hr. destruct (decide (x = id)) as [-> | Hne].
    + now rewrite Hreason.
    + now rewrite Hx.
  - unfold can_link. rewrite Hinv, (shape_linked _ _ Hs). apply T.
Qed.

(** ** mark_invalid *)

Lemma mark_invalid_run id reason db : tree db -> is_Some (full_blocks db !! id) ->
  is_linked (look db id) = true ->
  exists db', mark_invalid id reason db = (Ok tt, db') /\ tree db' /\ same_shape db db' /\
    (forall x, is_included (look db' x) = is_included (look db x)) /\
    (forall x, reaches (children db) {[ id ]} x -> invalid (look db' x) = true) /\
    (forall x, look db' x = look db x \/ reaches (children db) {[ id ]} x).
Proof.
  intros T Hid Hl. set (mark := set_validity (Some false) (Some reason)).
  destruct (tree_stored db id T Hid) as [[d Ed] _].
  assert (look db id = d) as El by (unfold look; now rewrite Ed).
  pose proof (marked_once mark id d db Ed) as Hm1. fold (with_fork id (mark d) db) in Hm1.
  destruct (recursive_mark_as_invalid_spec (with_fork id (mark d) db) (next_blocks d) reason)
    as (db' & R & Hm2).
  { eapply (ranked_marked mark (fun _ => eq_refl)); [exact Hm1 | now apply tree_ranked]. }
  { intros c Hc. rewrite <- El, <- look_children in Hc.
    destruct (ranked_known _ _ (tree_ranked db T) id c Hc) as [[dc Hdc] Hb]. split; [| exact Hb].
    cbn. destruct (decide (c = id)) as [-> |]; [rewrite lookup_insert_eq | rewrite lookup_insert_ne]; eauto. }
  fold mark in Hm2.
  assert (forall x, reaches (children (with_fork id (mark d) db)) (next_blocks d) x <->
                    reaches (children db) (children db id) x) as Hre.
  { intros x. rewrite look_children, El. split; apply reaches_ext; intros i;
      now rewrite (marked_children mark (fun _ => eq_refl) _ _ _ _ i Hm1). }
  assert (forall x, reaches (children db) {[ id ]} x <-> x = id \/ reaches (children db) (children db id) x) as Hroot.
  { intros x. rewrite (reaches_generation _ {[ id ]} (children db id) x) by set_solver. set_solver. }
  pose proof (marked_trans mark (fun _ => eq_refl) _ _ _ _ (reaches (children db) {[ id ]})
                (reaches (children db) {[ id ]}) _ _ _ Hm1 Hm2) as Hm.
  specialize (Hm ltac:(intros x; rewrite Hroot, Hre; tauto) ltac:(intros x; rewrite Hroot, Hre; tauto)).
  assert (forall x, reaches (children db) {[ id ]} x -> look db' x = mark (look db x)) as Hall.
  { intros x Hx. apply (marked_look_all _ _ _ _ _ _ Hm Hx).
    apply Hroot in Hx as [-> | Hx]; [eauto |]. destruct Hx as [x Hx | y x _ Hx];
      apply (ranked_known _ _ (tree_ranked db T) _ _ Hx). }
  assert (forall x, look db' x = look db x \/ reaches (children db) {[ id ]} x) as Honly
    by (intros x; destruct (marked_look _ _ _ _ _ x Hm) as [| [? _]]; auto).
  assert (forall x, invalid (look db x) = true -> invalid (look db' x) = true) as Hmono
    by (intros x Hx; destruct (Honly x) as [-> | Hr]; [exact Hx | now rewrite Hall]).
  assert (forall x, look db' x = look db x \/ look db' x = mark (look db x)) as Hor
    by (intros x; destruct (Honly x); auto).
  assert (same_shape db db') as Hshape by
    (split; [apply (marked_blocks _ _ _ _ _ Hm) | apply (marked_numbers _ _ _ _ _ Hm) | | |];
     intros x; destruct (Hor x) as [-> | ->]; reflexivity).
  exists db'. split; [| split; [| split; [exact Hshape | split;
    [intros x; destruct (Hor x) as [-> | ->]; reflexivity | split;
     [intros x Hx; now rewrite Hall | exact Honly]]]]].
  { unfold mark_invalid, fork_fetch, fork_store, bind, get, valid_or, modify, ret. rewrite Ed. exact R. }
  apply (shape_tree db db').
  - exact Hshape.
  - exact T.
  - intros x c _. apply Hmono.
  - intros x c Hc Hlx Hix. destruct (Honly x) as [E | Hx].
    + rewrite E in Hix. apply Hmono, (tree_invalid _ T x c Hc Hlx Hix).
    + rewrite (Hall c); [reflexivity |]. eapply reaches_next; eassumption.
  - intros c Hc. destruct (Honly c) as [E | Hx].
    + rewrite E in Hc. destruct (tree_tainted _ T c Hc) as [| (x & Hx & Hi)]; eauto.
    + apply Hroot in Hx as [-> | Hx]; [now left | right].
      destruct Hx as [c Hx | y c Hy Hx].
      * exists id. split; [exact Hx |]. rewrite Hall; [reflexivity | apply Hroot; now left].
      * exists y. split; [exact Hx |]. rewrite Hall; [reflexivity | apply Hroot; now right].
  - intros x Hx. destruct (Honly x) as [E | Hr]; [rewrite E in *; now apply (tree_reason _ T) |].
    rewrite (Hall x Hr). cbn. eauto.
  - destruct (Honly 0) as [-> | Hr]; [apply T |]. exfalso.
    destruct (tree_genesis _ T) as [H0 _].
    apply Hroot in Hr as [<- | Hr]; [destruct Hid; congruence |].
    destruct Hr as [x Hx | y x _ Hx]; apply (tree_children _ T) in Hx as (b & Hb & _); congruence.
Qed.

(** Marking a linked block invalid ends, keeps the tree, and makes the
    block and all that comes after it invalid, and nothing else. *)
Theorem mark_invalid_spec id reason db : tree db -> is_Some (full_blocks db !! id) ->
  is_linked (look db id) = true ->
  exists db', mark_invalid id reason db = (Ok tt, db') /\ tree db' /\
    (forall x, reaches (children db) {[ id ]} x -> invalid (look db' x) = true) /\
    (forall x, look db' x = look db x \/ reaches (children db) {[ id ]} x).
Proof.
  intros T Hid Hl. destruct (mark_invalid_run id reason db T Hid Hl) as (db' & R & T' & _ & _ & H1 & H2).
  exists db'. auto.
Qed.

(** ** get_fork_history *)

(** The blocks before [id], back to the first that is included. *)
Inductive back_to (db : ForkDb) : BlockIdType -> list BlockIdType -> Prop :=
  | back_stop id b : full_blocks db !! id = Some b ->
      previous (header b) = 0 \/ is_included (look db (previous (header b))) = true ->
      back_to db id [previous (header b)]
  | back_more id b l : full_blocks db !! id = Some b -> previous (header b) <> 0 ->
      is_included (look db (previous (header b))) = false ->
      back_to db (previous (header b)) l -> back_to db id (previous (header b) :: l).

(** The block before a linked one is the genesis block or stored. *)
Lemma linked_parent db id b : tree db -> full_blocks db !! id = Some b ->
  is_linked (look db id) = true ->
  is_linked (look db (previous (header b))) = true /\
  is_Some (fork_db db !! previous (header b)) /\
  (previous (header b) <> 0 -> is_Some (full_blocks db !! previous (header b))) /\
  (id_rank (previous (header b)) < id_rank id)%nat.
Proof.
  intros T Hb Hl.
  assert (id ∈ children db (previous (header b))) as Hc by (apply (tree_children _ T); eauto).
  pose proof (tree_linked _ T _ _ Hc Hl) as Hp.
  split; [exact Hp | split; [| split]].
  - unfold children in Hc. destruct (fork_db db !! previous (header b)); [eauto | set_solver].
  - intros H0. destruct (full_blocks db !! previous (header b)) eqn:E; [eauto |].
    destruct (tree_placeholder _ T _ E); congruence.
  - apply (tree_child_rank db); assumption.
Qed.

Lemma fork_history_run db : tree db -> forall fuel above id,
  NoDup above -> (forall x, x ∈ above -> is_Some (fork_db db !! x) /\ (id_rank id < id_rank x)%nat) ->
  (size (fork_db db) <= List.length above + fuel)%nat ->
  is_Some (full_blocks db !! id) -> is_linked (look db id) = true ->
  exists l, fork_history fuel id db = (Ok l, db) /\ back_to db id l.
Proof.
  intros T. induction fuel as [| fuel IH]; intros above id Hn Ha Hf [b Hb] Hl.
  - exfalso. destruct (tree_stored db id T) as [[d Hd] _]; [eauto |].
    assert (NoDup (id :: above)) as Hn' by (constructor; [intros [_ Hi]%Ha; lia | exact Hn]).
    pose proof (size_list_to_set (C := gset Z) (id :: above) Hn') as Hs. cbn [List.length] in Hs.
    assert (size (list_to_set (id :: above) : gset Z) <= size (dom (fork_db db)))%nat as Hsub.
    { apply subseteq_size. intros x. rewrite elem_of_list_to_set, elem_of_cons, elem_of_dom.
      intros [-> | Hx]; [eauto | now apply Ha]. }
    rewrite size_dom in Hsub. lia.
  - destruct (linked_parent db id b T Hb Hl) as (Hpl & [p Hp] & Hps & Hrank).
    assert (look db (previous (header b)) = p) as Elp by (unfold look; now rewrite Hp).
    cbn [fork_history]. unfold bind, get_block_header, get_block, fork_fetch, bind, get, valid_or, ret.
    rewrite Hb. destruct (Z.eqb_spec (previous (header b)) 0) as [E0 | E0].
    { eexists. split; [reflexivity |]. eapply back_stop; [exact Hb | now left]. }
    rewrite Hp. rewrite Elp in Hpl. rewrite Hpl. cbn [fc_assert ret].
    destruct (is_included p) eqn:Ei.
    { eexists. split; [reflexivity |]. eapply back_stop; [exact Hb | right; now rewrite Elp]. }
    destruct (IH (id :: above) (previous (header b))) as (l & R & Hl'); auto.
    + constructor; [intros [_ Hi]%Ha; lia | exact Hn].
    + intros x [-> | Hx]%elem_of_cons.
      * split; [apply (tree_stored db id T); eauto | exact Hrank].
      * destruct (Ha x Hx). split; [assumption | lia].
    + cbn. lia.
    + now rewrite Elp.
    + rewrite R. eexists. split; [reflexivity |].
      eapply back_more; [exact Hb | exact E0 | now rewrite Elp | exact Hl'].
Qed.

Lemma get_fork_history_run id db : tree db -> is_Some (full_blocks db !! id) ->
  is_linked (look db id) = true ->
  exists l, get_fork_history id db = (Ok (id :: l), db) /\ back_to db id l.
Proof.
  intros T Hid Hl.
  destruct (fork_history_run db T (generations db) [] id) as (l & R & Hb); auto.
  - constructor.
  - intros x Hx. now apply elem_of_nil in Hx.
  - unfold generations. cbn. lia.
  - exists l. split; [| exact Hb]. unfold get_fork_history, bind, get. rewrite R. reflexivity.
Qed.

(** From a linked block the way back always ends, at the genesis block or
    the first block that is included in the chain, and never at a dead end. *)
Theorem get_fork_history_spec id db : tree db -> is_Some (full_blocks db !! id) ->
  is_linked (look db id) = true ->
  exists l, get_fork_history id db = (Ok (id :: l), db) /\ back_to db id l.
Proof. apply get_fork_history_run. Qed.
End ForkMarks.
