(* ===== verification/ForkSamples.v ===== *)
(** * A small block tree

    Witnesses of the theorems about the block tree, on blocks whose
    identifiers are computed from the identifiers before them. *)

From Stdlib Require Import ZArith Lia Bool String.
From stdpp Require Import base gmap strings list fin_sets.
From S2P Require Import Prelude Asset Entries Names ChainInterface Blocks ForkDatabase ForkTree.
From S2P Require Import ForkStore ForkMarks.

Local Open Scope Z_scope.

(** Identifiers that grow along the chain; the rest of the hashing is any
    function. *)
#[export] Instance sample_blocks : BlockParams := {|
  header_id h := Z.abs (previous h) * 1000 + timestamp h mod 1000 + 1;
  header_signee h := Ok (delegate_signature h);
  ids_digest ids := foldr Z.add 0 ids;
  hash_secret s := s;
  mix_seed s x := s + x;
  seed_hash x := x;
  rehash x := x + 1;
  hash_word x i := x + i
|}.
#[export] Instance sample_hashes : BlockHashes.
Proof.
  refine {| id_rank := Z.abs_nat |}.
  - intros h. cbn. pose proof (Z.mod_pos_bound (timestamp h) 1000). lia.
  - intros h. cbn. pose proof (Z.mod_pos_bound (timestamp h) 1000). lia.
Defined.

Definition sample_block (prev num time : Z) : FullBlock :=
  mkFullBlock (mkSignedBlockHeader prev num time 0 0 0 0) [].
(** One block on genesis, two on top of it. *)
Definition block1 : FullBlock := sample_block 0 1 10.
Definition block2 : FullBlock := sample_block (block_id block1) 2 20.
Definition block2' : FullBlock := sample_block (block_id block1) 2 30.
Definition block3 : FullBlock := sample_block (block_id block2) 3 40.

Definition run_store (bs : list FullBlock) : ForkDb := snd (store_all bs genesis_forks).

Lemma sample_tree bs : NoDup (map block_id bs) -> tree (run_store bs).
Proof.
  intros Hn. unfold run_store.
  destruct (store_all_run bs genesis_forks genesis_tree) as (db & -> & T & _); auto.
  intros x. unfold look, genesis_forks. cbn. destruct (decide (x = 0)) as [-> | Hx].
  - now rewrite lookup_singleton_eq.
  - now rewrite lookup_singleton_ne.
Qed.

Ltac distinct := refine (bool_decide_unpack _ _); vm_compute; exact I.

(** The blocks above are stored, then the missing link. *)
Lemma store_and_index_spec_witness :
  exists r db', store_and_index (block_id block1) block1 (run_store [block3; block2]) = (Ok r, db') /\
    stored block1 r (run_store [block3; block2]) db'.
Proof.
  refine (store_and_index_spec block1 (run_store [block3; block2]) _ _).
  - apply sample_tree. distinct.
  - vm_compute. reflexivity.
Defined.

Lemma store_all_linked_witness : exists db,
  store_all [block3; block1; block2'; block2] genesis_forks = (Ok tt, db) /\ tree db /\
  forall id, is_linked (look db id) = true <-> connected [block3; block1; block2'; block2] id.
Proof.
  refine (store_all_linked [block3; block1; block2'; block2] _).
  distinct.
Defined.

Example missing_link_returns_highest :
  match fst (store_and_index (block_id block1) block1 (run_store [block3; block2])) with
  | Ok r => fst r = block_id block3
  | Err _ => False
  end.
Proof. vm_compute. reflexivity. Qed.

Lemma mark_invalid_spec_witness :
  let db := run_store [block1; block2; block3; block2'] in
  exists db', mark_invalid (block_id block2) time_in_future db = (Ok tt, db') /\ tree db' /\
    (forall x, reaches (children db) {[ block_id block2 ]} x -> invalid (look db' x) = true) /\
    (forall x, look db' x = look db x \/ reaches (children db) {[ block_id block2 ]} x).
Proof.
  refine (mark_invalid_spec (block_id block2) time_in_future
            (run_store [block1; block2; block3; block2']) _ _ _).
  - apply sample_tree. distinct.
  - vm_compute. eauto.
  - vm_compute. reflexivity.
Defined.

Lemma get_fork_history_spec_witness :
  let db := run_store [block1; block2; block3] in
  exists l, get_fork_history (block_id block3) db = (Ok (block_id block3 :: l), db) /\
    back_to db (block_id block3) l.
Proof.
  refine (get_fork_history_spec (block_id block3) (run_store [block1; block2; block3]) _ _ _).
  - apply sample_tree. distinct.
  - vm_compute. eauto.
  - vm_compute. reflexivity.
Defined.

(** ** A branch that stays unlinked

    [block2] is invalid because its time has not come; [block3] waits for
    it.  Below an invalid block the descendants of a placeholder are marked
    invalid but not linked, and they are not linked either when the
    invalidation is taken back. *)
Definition block4 : FullBlock := sample_block (block_id block3) 4 50.
Definition future_forks : ForkDb :=
  let db := run_store [block1; block2; block4] in
  let db := snd (mark_invalid (block_id block2) time_in_future db) in
  let db := snd (store_and_index (block_id block3) block3 db) in
  snd (mark_as_unchecked (block_id block2) db).

(** A block whose ancestors are all stored, linked and not invalid can
    stay unlinked: it came before its parent, the parent came while the block
    before it was marked as one from the future, and taking the mark back does
    not link it. *)
Example unlinked_after_recheck :
  can_link (look future_forks (block_id block2)) = true /\
  can_link (look future_forks (block_id block3)) = true /\
  block_id block4 ∈ children future_forks (block_id block3) /\
  is_linked (look future_forks (block_id block4)) = false /\
  invalid (look future_forks (block_id block4)) = false.
Proof. vm_compute. repeat split; reflexivity. Qed.
