(* ===== verification/PendingChainState.v ===== *)
(** * Pending chain states (blockchain/PendingChainState.cpp)

    An overlay of stored and removed entries over a previous state of any type
    [P] with a ChainInterface.  [overlay k] is the pair of members
    (_..._to_entry, _..._remove) of the kind [k]; KStorage has a map only, its
    removals are those of KContract.  The weak pointer [_prev_state] is the
    state it points to at the time of the call. *)

From S2P Require Import Prelude Asset Entries Names ChainInterface.
From Stdlib Require Import ZArith Lia Bool String.
From stdpp Require Import base gmap strings list.

Local Open Scope Z_scope.

(** Time.cpp *)
Definition get_slot_number (timestamp : Z) : Z := timestamp / ALP_BLOCKCHAIN_BLOCK_INTERVAL_SEC.
Definition get_slot_start (slot_number : Z) : Z :=
  wrap_u32 (slot_number * ALP_BLOCKCHAIN_BLOCK_INTERVAL_SEC).
Definition get_slot_start_time (timestamp : Z) : Z := get_slot_start (get_slot_number timestamp).

(** What blockchain::now() answers, the NTP corrected clock. *)
Class Clock : Type := { blockchain_now : Z }.

Record Overlay (k : EntryKind) := mkOverlay {
  to_entry : gmap (key_type k) (val_type k);
  to_remove : gset (key_type k)
}.
Arguments mkOverlay {k}.
Arguments to_entry {k}.
Arguments to_remove {k}.

Definition empty_overlay (k : EntryKind) : Overlay k := mkOverlay ∅ ∅.

Definition set_ov (f : forall k, Overlay k) (k : EntryKind) (o : Overlay k)
    : forall k, Overlay k :=
  fun k' => match decide (k = k') with
            | left E => eq_rect k Overlay o k' E
            | right _ => f k'
            end.

Section Pending.
Context `{ChainParams} `{Clock} {P : Type} `{ChainInterface P}.

Record PendingChainState := mkPending {
  prev_state : option P;
  overlay : forall k, Overlay k;
  account_name_to_id : gmap string AccountIdType;
  account_address_to_id : gmap Address AccountIdType;
  asset_symbol_to_id : gmap string AssetIdType;
  transaction_digests : gset DigestType;
  slot_timestamp_to_delegate : gmap time_point_sec AccountIdType;
  contract_name_to_id : gmap string ContractIdType
}.

(** PendingChainState::PendingChainState *)
Definition new_pending (prev : option P) : PendingChainState :=
  mkPending prev empty_overlay ∅ ∅ ∅ ∅ ∅ ∅.
Definition set_overlay (k : EntryKind) (o : Overlay k) (p : PendingChainState)
    : PendingChainState :=
  mkPending (prev_state p) (set_ov (overlay p) k o) (account_name_to_id p)
    (account_address_to_id p) (asset_symbol_to_id p) (transaction_digests p)
    (slot_timestamp_to_delegate p) (contract_name_to_id p).

Definition pcs_get_head_block_num (p : PendingChainState) : Z :=
  match prev_state p with None => 1 | Some prev => get_head_block_num prev end.
Definition pcs_get_head_block_timestamp (p : PendingChainState) : Z :=
  match prev_state p with None => 0 | Some prev => get_head_block_timestamp prev end.
Definition pcs_now (p : PendingChainState) : Z :=
  match prev_state p with
  | None => get_slot_start_time blockchain_now
  | Some prev => now prev
  end.

Definition pcs_is_known_transaction (p : PendingChainState) (trx : SignedTransaction) : bool :=
  if bool_decide (trx_digest trx get_chain_id ∈ transaction_digests p) then true
  else match prev_state p with
       | Some prev => is_known_transaction prev trx
       | None => false
       end.

(** ** Primary maps *)

Definition overlay_lookup (k : EntryKind) (p : PendingChainState) (id : key_type k)
    : option (val_type k) :=
  match to_entry (overlay p k) !! id with
  | Some entry => Some entry
  | None =>
      if bool_decide (id ∈ to_remove (overlay p k)) then None
      else match prev_state p with
           | None => None
           | Some prev => entry_lookup k prev id
           end
  end.

Definition overlay_insert (k : EntryKind) (id : key_type k) (entry : val_type k)
    (p : PendingChainState) : PendingChainState :=
  set_overlay k (mkOverlay (<[id := entry]> (to_entry (overlay p k)))
                           (to_remove (overlay p k) ∖ {[ id ]})) p.

Definition overlay_erase (k : EntryKind) (id : key_type k) (p : PendingChainState)
    : PendingChainState :=
  set_overlay k (mkOverlay (delete id (to_entry (overlay p k)))
                           ({[ id ]} ∪ to_remove (overlay p k))) p.

Definition pcs_property_lookup_by_id (p : PendingChainState) (id : PropertyIdType)
    : option PropertyEntry := overlay_lookup KProperty p id.
Definition pcs_property_insert_into_id_map (id : PropertyIdType) (entry : PropertyEntry)
    (p : PendingChainState) : PendingChainState := overlay_insert KProperty id entry p.
Definition pcs_property_erase_from_id_map (id : PropertyIdType)
    (p : PendingChainState) : PendingChainState := overlay_erase KProperty id p.

Definition pcs_account_lookup_by_id (p : PendingChainState) (id : AccountIdType)
    : option AccountEntry := overlay_lookup KAccount p id.
Definition pcs_account_insert_into_id_map (id : AccountIdType) (entry : AccountEntry)
    (p : PendingChainState) : PendingChainState := overlay_insert KAccount id entry p.
Definition pcs_account_erase_from_id_map (id : AccountIdType)
    (p : PendingChainState) : PendingChainState := overlay_erase KAccount id p.

Definition pcs_asset_lookup_by_id (p : PendingChainState) (id : AssetIdType)
    : option AssetEntry := overlay_lookup KAsset p id.
Definition pcs_asset_insert_into_id_map (id : AssetIdType) (entry : AssetEntry)
    (p : PendingChainState) : PendingChainState := overlay_insert KAsset id entry p.
Definition pcs_asset_erase_from_id_map (id : AssetIdType)
    (p : PendingChainState) : PendingChainState := overlay_erase KAsset id p.

Definition pcs_slate_lookup_by_id (p : PendingChainState) (id : SlateIdType)
    : option SlateEntry := overlay_lookup KSlate p id.
Definition pcs_slate_insert_into_id_map (id : SlateIdType) (entry : SlateEntry)
    (p : PendingChainState) : PendingChainState := overlay_insert KSlate id entry p.
Definition pcs_slate_erase_from_id_map (id : SlateIdType)
    (p : PendingChainState) : PendingChainState := overlay_erase KSlate id p.

Definition pcs_balance_lookup_by_id (p : PendingChainState) (id : BalanceIdType)
    : option BalanceEntry := overlay_lookup KBalance p id.
Definition pcs_balance_insert_into_id_map (id : BalanceIdType) (entry : BalanceEntry)
    (p : PendingChainState) : PendingChainState := overlay_insert KBalance id entry p.
Definition pcs_balance_erase_from_id_map (id : BalanceIdType)
    (p : PendingChainState) : PendingChainState := overlay_erase KBalance id p.

Definition pcs_transaction_lookup_by_id (p : PendingChainState) (id : TransactionIdType)
    : option TransactionEntry := overlay_lookup KTransaction p id.
Definition pcs_transaction_insert_into_id_map (id : TransactionIdType) (entry : TransactionEntry)
    (p : PendingChainState) : PendingChainState := overlay_insert KTransaction id entry p.
Definition pcs_transaction_erase_from_id_map (id : TransactionIdType)
    (p : PendingChainState) : PendingChainState := overlay_erase KTransaction id p.

Definition pcs_slot_lookup_by_index (p : PendingChainState) (id : SlotIndex)
    : option SlotEntry := overlay_lookup KSlot p id.
Definition pcs_slot_insert_into_index_map (id : SlotIndex) (entry : SlotEntry)
    (p : PendingChainState) : PendingChainState := overlay_insert KSlot id entry p.
Definition pcs_slot_erase_from_index_map (id : SlotIndex)
    (p : PendingChainState) : PendingChainState := overlay_erase KSlot id p.

Definition pcs_contract_lookup_by_id (p : PendingChainState) (id : ContractIdType)
    : option ContractEntry := overlay_lookup KContract p id.
Definition pcs_contract_insert_into_id_map (id : ContractIdType) (entry : ContractEntry)
    (p : PendingChainState) : PendingChainState := overlay_insert KContract id entry p.
Definition pcs_contract_erase_from_id_map (id : ContractIdType)
    (p : PendingChainState) : PendingChainState := overlay_erase KContract id p.

Definition pcs_contract_lookup_resultid_by_reqestid (p : PendingChainState) (id : TransactionIdType)
    : option ResultTIdEntry := overlay_lookup KResult p id.
Definition pcs_contract_store_resultid_by_reqestid (id : TransactionIdType) (entry : ResultTIdEntry)
    (p : PendingChainState) : PendingChainState := overlay_insert KResult id entry p.
Definition pcs_contract_erase_resultid_by_reqestid (id : TransactionIdType)
    (p : PendingChainState) : PendingChainState := overlay_erase KResult id p.

Definition pcs_contract_lookup_requestid_by_resultid (p : PendingChainState) (id : TransactionIdType)
    : option RequestIdEntry := overlay_lookup KRequest p id.
Definition pcs_contract_store_requestid_by_resultid (id : TransactionIdType) (entry : RequestIdEntry)
    (p : PendingChainState) : PendingChainState := overlay_insert KRequest id entry p.
Definition pcs_contract_erase_requestid_by_resultid (id : TransactionIdType)
    (p : PendingChainState) : PendingChainState := overlay_erase KRequest id p.

Definition pcs_contract_lookup_contractid_by_trxid (p : PendingChainState) (id : TransactionIdType)
    : option ContractinTrxEntry := overlay_lookup KContractinTrx p id.
Definition pcs_contract_store_contractid_by_trxid (id : TransactionIdType) (entry : ContractinTrxEntry)
    (p : PendingChainState) : PendingChainState := overlay_insert KContractinTrx id entry p.
Definition pcs_contract_erase_contractid_by_trxid (id : TransactionIdType)
    (p : PendingChainState) : PendingChainState := overlay_erase KContractinTrx id p.

Definition pcs_contract_lookup_trxid_by_contract_id (p : PendingChainState) (id : ContractIdType)
    : option ContractTrxEntry := overlay_lookup KContractTrx p id.
Definition pcs_contract_store_trxid_by_contractid (id : ContractIdType) (entry : ContractTrxEntry)
    (p : PendingChainState) : PendingChainState := overlay_insert KContractTrx id entry p.
Definition pcs_contract_erase_trxid_by_contract_id (id : ContractIdType)
    (p : PendingChainState) : PendingChainState := overlay_erase KContractTrx id p.

Definition pcs_contractstorage_lookup_by_id (p : PendingChainState) (id : key_type KStorage)
    : option ContractStorageEntry :=
  match to_entry (overlay p KStorage) !! id with
  | Some entry => Some entry
  | None =>
      match prev_state p with
      | None => None
      | Some prev =>
          match entry_lookup KStorage prev id with
          | Some entry =>
              if bool_decide (id ∈ to_remove (overlay p KContract)) then None else Some entry
          | None => None
          end
      end
  end.
Definition pcs_contractstorage_insert_into_id_map (id : ContractIdType)
    (storage : ContractStorageEntry) (p : PendingChainState) : PendingChainState :=
  set_overlay KStorage (mkOverlay (<[id := storage]> (to_entry (overlay p KStorage)))
                                  (to_remove (overlay p KStorage))) p.
Definition pcs_contractstorage_erase_from_id_map (id : ContractIdType) (p : PendingChainState)
    : PendingChainState :=
  set_overlay KStorage (mkOverlay (delete id (to_entry (overlay p KStorage)))
                                  (to_remove (overlay p KStorage))) p.

(** ** Secondary indexes *)

(** [_..._id_to_entry.at( id )] *)
Definition entry_at (k : EntryKind) (p : PendingChainState) (id : key_type k)
    : result (option (val_type k)) :=
  match to_entry (overlay p k) !! id with
  | Some entry => Ok (Some entry)
  | None => Err out_of_range
  end.
(** [if( entry.valid() && _..._remove.count( entry->id ) == 0 ) return *entry] *)
Definition unless_removed (k : EntryKind) (p : PendingChainState) (id_of : val_type k -> key_type k)
    (r : result (option (val_type k))) : result (option (val_type k)) :=
  let! o := r in
  match o with
  | Some entry =>
      if bool_decide (id_of entry ∈ to_remove (overlay p k)) then Ok None else Ok (Some entry)
  | None => Ok None
  end.

Definition pcs_account_lookup_by_name (p : PendingChainState) (name : string)
    : result (option AccountEntry) :=
  match account_name_to_id p !! name with
  | Some id => entry_at KAccount p id
  | None => match prev_state p with
            | None => Ok None
            | Some prev =>
                unless_removed KAccount p account_id (account_lookup_by_name prev name)
            end
  end.

Definition pcs_account_lookup_by_address (p : PendingChainState) (addr : Address)
    : result (option AccountEntry) :=
  match account_address_to_id p !! addr with
  | Some id => entry_at KAccount p id
  | None => match prev_state p with
            | None => Ok None
            | Some prev =>
                unless_removed KAccount p account_id (account_lookup_by_address prev addr)
            end
  end.

Definition pcs_asset_lookup_by_symbol (p : PendingChainState) (symbol : string)
    : result (option AssetEntry) :=
  match asset_symbol_to_id p !! symbol with
  | Some id => entry_at KAsset p id
  | None => match prev_state p with
            | None => Ok None
            | Some prev => unless_removed KAsset p ast_id (asset_lookup_by_symbol prev symbol)
            end
  end.

Definition pcs_slot_lookup_by_timestamp (p : PendingChainState) (timestamp : time_point_sec)
    : result (option SlotEntry) :=
  match slot_timestamp_to_delegate p !! timestamp with
  | Some delegate_id => entry_at KSlot p (mkSlotIndex delegate_id timestamp)
  | None => match prev_state p with
            | None => Ok None
            | Some prev =>
                unless_removed KSlot p slot_index (slot_entry_lookup_timestamp prev timestamp)
            end
  end.

Definition pcs_contract_lookup_by_name (p : PendingChainState) (name : string)
    : result (option ContractEntry) :=
  match contract_name_to_id p !! name with
  | Some id => Ok (pcs_contract_lookup_by_id p id)
  | None => match prev_state p with
            | None => Ok None
            | Some prev =>
                unless_removed KContract p contract_id (contract_lookup_by_name prev name)
            end
  end.

Definition set_indexes (names : gmap string Z) (addrs : gmap Z Z) (symbols : gmap string Z)
    (digests : gset Z) (slots : gmap Z Z) (contracts : gmap string Z) (p : PendingChainState)
    : PendingChainState :=
  mkPending (prev_state p) (overlay p) names addrs symbols digests slots contracts.

Definition pcs_account_insert_into_name_map name id (p : PendingChainState) :=
  set_indexes (<[name := id]> (account_name_to_id p)) (account_address_to_id p)
    (asset_symbol_to_id p) (transaction_digests p) (slot_timestamp_to_delegate p)
    (contract_name_to_id p) p.
Definition pcs_account_erase_from_name_map name (p : PendingChainState) :=
  set_indexes (delete name (account_name_to_id p)) (account_address_to_id p)
    (asset_symbol_to_id p) (transaction_digests p) (slot_timestamp_to_delegate p)
    (contract_name_to_id p) p.
Definition pcs_account_insert_into_address_map addr id (p : PendingChainState) :=
  set_indexes (account_name_to_id p) (<[addr := id]> (account_address_to_id p))
    (asset_symbol_to_id p) (transaction_digests p) (slot_timestamp_to_delegate p)
    (contract_name_to_id p) p.
Definition pcs_account_erase_from_address_map addr (p : PendingChainState) :=
  set_indexes (account_name_to_id p) (delete addr (account_address_to_id p))
    (asset_symbol_to_id p) (transaction_digests p) (slot_timestamp_to_delegate p)
    (contract_name_to_id p) p.
Definition pcs_account_insert_into_vote_set (v : VoteDel) (p : PendingChainState) := p.
Definition pcs_account_erase_from_vote_set (v : VoteDel) (p : PendingChainState) := p.
Definition pcs_asset_insert_into_symbol_map symbol id (p : PendingChainState) :=
  set_indexes (account_name_to_id p) (account_address_to_id p)
    (<[symbol := id]> (asset_symbol_to_id p)) (transaction_digests p)
    (slot_timestamp_to_delegate p) (contract_name_to_id p) p.
Definition pcs_asset_erase_from_symbol_map symbol (p : PendingChainState) :=
  set_indexes (account_name_to_id p) (account_address_to_id p)
    (delete symbol (asset_symbol_to_id p)) (transaction_digests p)
    (slot_timestamp_to_delegate p) (contract_name_to_id p) p.
Definition pcs_transaction_insert_into_unique_set trx (p : PendingChainState) :=
  set_indexes (account_name_to_id p) (account_address_to_id p) (asset_symbol_to_id p)
    ({[ trx_digest trx get_chain_id ]} ∪ transaction_digests p)
    (slot_timestamp_to_delegate p) (contract_name_to_id p) p.
Definition pcs_transaction_erase_from_unique_set trx (p : PendingChainState) :=
  set_indexes (account_name_to_id p) (account_address_to_id p) (asset_symbol_to_id p)
    (transaction_digests p ∖ {[ trx_digest trx get_chain_id ]})
    (slot_timestamp_to_delegate p) (contract_name_to_id p) p.
Definition pcs_slot_insert_into_timestamp_map timestamp delegate_id (p : PendingChainState) :=
  set_indexes (account_name_to_id p) (account_address_to_id p) (asset_symbol_to_id p)
    (transaction_digests p) (<[timestamp := delegate_id]> (slot_timestamp_to_delegate p))
    (contract_name_to_id p) p.
Definition pcs_slot_erase_from_timestamp_map timestamp (p : PendingChainState) :=
  set_indexes (account_name_to_id p) (account_address_to_id p) (asset_symbol_to_id p)
    (transaction_digests p) (delete timestamp (slot_timestamp_to_delegate p))
    (contract_name_to_id p) p.
Definition pcs_contract_insert_into_name_map name id (p : PendingChainState) :=
  set_indexes (account_name_to_id p) (account_address_to_id p) (asset_symbol_to_id p)
    (transaction_digests p) (slot_timestamp_to_delegate p)
    (<[name := id]> (contract_name_to_id p)) p.
Definition pcs_contract_erase_from_name_map name (p : PendingChainState) :=
  set_indexes (account_name_to_id p) (account_address_to_id p) (asset_symbol_to_id p)
    (transaction_digests p) (slot_timestamp_to_delegate p)
    (delete name (contract_name_to_id p)) p.

(** ** The interface *)

Definition pcs_db_lookup (k : EntryKind) : PendingChainState -> key_type k -> option (val_type k) :=
  match k with
  | KProperty => pcs_property_lookup_by_id
  | KAccount => pcs_account_lookup_by_id
  | KAsset => pcs_asset_lookup_by_id
  | KSlate => pcs_slate_lookup_by_id
  | KBalance => pcs_balance_lookup_by_id
  | KTransaction => pcs_transaction_lookup_by_id
  | KSlot => pcs_slot_lookup_by_index
  | KContract => pcs_contract_lookup_by_id
  | KStorage => pcs_contractstorage_lookup_by_id
  | KResult => pcs_contract_lookup_resultid_by_reqestid
  | KRequest => pcs_contract_lookup_requestid_by_resultid
  | KContractinTrx => pcs_contract_lookup_contractid_by_trxid
  | KContractTrx => pcs_contract_lookup_trxid_by_contract_id
  end.

Definition pcs_db_insert (k : EntryKind)
    : key_type k -> val_type k -> PendingChainState -> PendingChainState :=
  match k with
  | KProperty => pcs_property_insert_into_id_map
  | KAccount => pcs_account_insert_into_id_map
  | KAsset => pcs_asset_insert_into_id_map
  | KSlate => pcs_slate_insert_into_id_map
  | KBalance => pcs_balance_insert_into_id_map
  | KTransaction => pcs_transaction_insert_into_id_map
  | KSlot => pcs_slot_insert_into_index_map
  | KContract => pcs_contract_insert_into_id_map
  | KStorage => pcs_contractstorage_insert_into_id_map
  | KResult => pcs_contract_store_resultid_by_reqestid
  | KRequest => pcs_contract_store_requestid_by_resultid
  | KContractinTrx => pcs_contract_store_contractid_by_trxid
  | KContractTrx => pcs_contract_store_trxid_by_contractid
  end.

Definition pcs_db_erase (k : EntryKind) : key_type k -> PendingChainState -> PendingChainState :=
  match k with
  | KProperty => pcs_property_erase_from_id_map
  | KAccount => pcs_account_erase_from_id_map
  | KAsset => pcs_asset_erase_from_id_map
  | KSlate => pcs_slate_erase_from_id_map
  | KBalance => pcs_balance_erase_from_id_map
  | KTransaction => pcs_transaction_erase_from_id_map
  | KSlot => pcs_slot_erase_from_index_map
  | KContract => pcs_contract_erase_from_id_map
  | KStorage => pcs_contractstorage_erase_from_id_map
  | KResult => pcs_contract_erase_resultid_by_reqestid
  | KRequest => pcs_contract_erase_requestid_by_resultid
  | KContractinTrx => pcs_contract_erase_contractid_by_trxid
  | KContractTrx => pcs_contract_erase_trxid_by_contract_id
  end.

Definition pcs_db_index (w : IndexWrite) : PendingChainState -> PendingChainState :=
  match w with
  | InsertName n id => pcs_account_insert_into_name_map n id
  | EraseName n => pcs_account_erase_from_name_map n
  | InsertAddress a id => pcs_account_insert_into_address_map a id
  | EraseAddress a => pcs_account_erase_from_address_map a
  | InsertVote v => pcs_account_insert_into_vote_set v
  | EraseVote v => pcs_account_erase_from_vote_set v
  | InsertSymbol s id => pcs_asset_insert_into_symbol_map s id
  | EraseSymbol s => pcs_asset_erase_from_symbol_map s
  | InsertUnique trx => pcs_transaction_insert_into_unique_set trx
  | EraseUnique trx => pcs_transaction_erase_from_unique_set trx
  | InsertTimestamp t d => pcs_slot_insert_into_timestamp_map t d
  | EraseTimestamp t => pcs_slot_erase_from_timestamp_map t
  | InsertContractName n id => pcs_contract_insert_into_name_map n id
  | EraseContractName n => pcs_contract_erase_from_name_map n
  end.

#[export] Instance pending_chain_interface : ChainInterface PendingChainState := {|
  db_lookup := pcs_db_lookup;
  db_insert := pcs_db_insert;
  db_erase := pcs_db_erase;
  db_index := pcs_db_index;
  account_lookup_by_name := pcs_account_lookup_by_name;
  account_lookup_by_address := pcs_account_lookup_by_address;
  asset_lookup_by_symbol := pcs_asset_lookup_by_symbol;
  slot_lookup_by_timestamp := pcs_slot_lookup_by_timestamp;
  contract_lookup_by_name := pcs_contract_lookup_by_name;
  is_known_transaction := pcs_is_known_transaction;
  get_head_block_num := pcs_get_head_block_num;
  get_head_block_timestamp := pcs_get_head_block_timestamp;
  now := pcs_now
|}.

End Pending.
Arguments PendingChainState P : clear implicits.

(** PendingChainState::set_prev_state; the new state may be of another type. *)
Definition set_prev_state {P Q} (prev : option Q) (p : PendingChainState P)
    : PendingChainState Q :=
  mkPending prev (overlay p) (account_name_to_id p) (account_address_to_id p)
    (asset_symbol_to_id p) (transaction_digests p) (slot_timestamp_to_delegate p)
    (contract_name_to_id p).

(** ** Applying and undoing *)
Section Apply.
Context `{ChainParams} `{Clock}.

(** The remove set each call of apply_changes passes with the map of a kind. *)
Definition remove_set {P} (p : PendingChainState P) (k : EntryKind) : gset (key_type k) :=
  match k with
  | KStorage => to_remove (overlay p KContract)
  | k => to_remove (overlay p k)
  end.

(** The order of the calls in apply_changes and get_undo_state. *)
Definition apply_order : list EntryKind :=
  [KProperty; KAccount; KAsset; KSlate; KBalance; KTransaction; KSlot; KContract; KStorage;
   KResult; KRequest; KContractinTrx; KContractTrx].

Definition apply_entrys {P S} `{ChainInterface S} (p : PendingChainState P) (k : EntryKind)
    : M S unit :=
  forM (elements (remove_set p k)) (fun key => entry_remove k key) ;;;
  forM (map_to_list (to_entry (overlay p k))) (fun item => entry_store k (fst item) (snd item)).

(** [prev_state] before and after. *)
Definition apply_changes {P} `{ChainInterface P} (p : PendingChainState P)
    : result unit * option P :=
  match prev_state p with
  | None => (Ok tt, None)
  | Some prev =>
      let '(r, prev') := forM apply_order (apply_entrys p) prev in (r, Some prev')
  end.

Definition populate_undo_state {P S} `{ChainInterface P} `{ChainInterface S}
    (p : PendingChainState P) (prev : P) (k : EntryKind) : M S unit :=
  forM (elements (remove_set p k))
    (fun key => match entry_lookup k prev key with
                | Some prev_entry => entry_store k key prev_entry
                | None => ret tt
                end) ;;;
  forM (map_to_list (to_entry (overlay p k)))
    (fun item => match entry_lookup k prev (fst item) with
                 | Some prev_entry => entry_store k (fst item) prev_entry
                 | None => entry_remove k (fst item)
                 end).

Definition get_undo_state {P S} `{ChainInterface P} `{ChainInterface S}
    (p : PendingChainState P) : M S unit :=
  match prev_state p with
  | None => throw assert_exception
  | Some prev => forM apply_order (populate_undo_state p prev)
  end.

End Apply.

(** ** The overlay keeps the promises of the interface *)
Section Laws.
Context `{ChainParams} `{Clock} {P : Type} `{ChainInterface P}.

Definition overlay_kind (k : EntryKind) : bool :=
  match k with KStorage => false | _ => true end.

Lemma set_ov_eq f k o : set_ov f k o k = o.
Proof.
  unfold set_ov. destruct (decide (k = k)) as [E |]; [| contradiction].
  now rewrite (proof_irrel E eq_refl).
Qed.

Lemma set_ov_ne f k k' o : k <> k' -> set_ov f k o k' = f k'.
Proof. intros. unfold set_ov. destruct (decide (k = k')); [contradiction | done]. Qed.

Lemma pcs_lookup_generic k (p : PendingChainState P) : overlay_kind k = true ->
  pcs_db_lookup k p = overlay_lookup k p.
Proof. now destruct k. Qed.
Lemma pcs_insert_generic k : overlay_kind k = true ->
  pcs_db_insert (P := P) k = overlay_insert k.
Proof. now destruct k. Qed.
Lemma pcs_erase_generic k : overlay_kind k = true ->
  pcs_db_erase (P := P) k = overlay_erase k.
Proof. now destruct k. Qed.

Lemma overlay_lookup_eq k p p' key :
  overlay p k = overlay p' k -> prev_state p = prev_state p' ->
  overlay_lookup (P := P) k p key = overlay_lookup k p' key.
Proof. unfold overlay_lookup. now intros -> ->. Qed.

Lemma overlay_index w (p : PendingChainState P) :
  overlay (pcs_db_index w p) = overlay p /\ prev_state (pcs_db_index w p) = prev_state p.
Proof. now destruct w. Qed.

Lemma overlay_insert_other k k' (key : key_type k) v (p : PendingChainState P) : k <> k' ->
  overlay (pcs_db_insert k key v p) k' = overlay p k'.
Proof. intros Hne. destruct k; now apply set_ov_ne. Qed.

Lemma overlay_erase_other k k' (key : key_type k) (p : PendingChainState P) : k <> k' ->
  overlay (pcs_db_erase k key p) k' = overlay p k'.
Proof. intros Hne. destruct k; now apply set_ov_ne. Qed.

Lemma prev_state_insert k (key : key_type k) v (p : PendingChainState P) :
  prev_state (pcs_db_insert k key v p) = prev_state p.
Proof. now destruct k. Qed.

Lemma prev_state_erase k (key : key_type k) (p : PendingChainState P) :
  prev_state (pcs_db_erase k key p) = prev_state p.
Proof. now destruct k. Qed.

#[export] Program Instance pending_laws : ChainInterfaceLaws (PendingChainState P) :=
  {| lawful_kind := overlay_kind |}.
Next Obligation.
  intros. cbn. rewrite pcs_lookup_generic, pcs_insert_generic by done.
  unfold overlay_lookup, overlay_insert. cbn. rewrite set_ov_eq. cbn. now rewrite lookup_insert_eq.
Qed.
Next Obligation.
  intros. cbn. rewrite !pcs_lookup_generic, pcs_insert_generic by done.
  unfold overlay_lookup, overlay_insert. cbn. rewrite set_ov_eq. cbn.
  rewrite lookup_insert_ne by done. destruct (to_entry (overlay s k) !! key'); [done |].
  erewrite bool_decide_ext; [reflexivity | set_solver].
Qed.
Next Obligation.
  intros. cbn. rewrite !pcs_lookup_generic by done.
  apply overlay_lookup_eq; [now apply overlay_insert_other | apply prev_state_insert].
Qed.
Next Obligation.
  intros. cbn. rewrite pcs_lookup_generic, pcs_erase_generic by done.
  unfold overlay_lookup, overlay_erase. cbn. rewrite set_ov_eq. cbn.
  rewrite lookup_delete_eq, bool_decide_true by set_solver. done.
Qed.
Next Obligation.
  intros. cbn. rewrite !pcs_lookup_generic, pcs_erase_generic by done.
  unfold overlay_lookup, overlay_erase. cbn. rewrite set_ov_eq. cbn.
  rewrite lookup_delete_ne by done. destruct (to_entry (overlay s k) !! key'); [done |].
  erewrite bool_decide_ext; [reflexivity | set_solver].
Qed.
Next Obligation.
  intros. cbn. rewrite !pcs_lookup_generic by done.
  apply overlay_lookup_eq; [now apply overlay_erase_other | apply prev_state_erase].
Qed.
Next Obligation.
  intros. cbn. rewrite !pcs_lookup_generic by done.
  apply overlay_lookup_eq; [now rewrite (proj1 (overlay_index _ _)) | apply overlay_index].
Qed.
End Laws.
