(* ===== verification/Undo.v ===== *)
(** * Applying a pending state and undoing it

    What apply_changes and get_undo_state of PendingChainState do to the
    primary maps of the state below. *)

From S2P Require Import Prelude Asset Entries Names ChainInterface PendingChainState.
From Stdlib Require Import ZArith Lia Bool String.
From stdpp Require Import base gmap strings list.

Local Open Scope Z_scope.

(** ** Loops of stores and removes *)
Section Loops.
Context `{ChainParams} {S : Type} `{ChainInterfaceLaws S}.

(** Nothing but the entries of the kind [k] changes. *)
Definition frame_kind (k : EntryKind) (s s' : S) : Prop :=
  forall k' key, lawful_kind k' = true -> k' <> k -> db_lookup k' s' key = db_lookup k' s key.

Lemma frame_kind_trans k s1 s2 s3 : frame_kind k s1 s2 -> frame_kind k s2 s3 -> frame_kind k s1 s3.
Proof. intros H12 H23 k' key Hk Hne. now rewrite H23, H12. Qed.

Lemma wrote_frame k key o s s' : wrote k key o s s' -> frame_kind k s s'.
Proof. intros [_ _ Hc] k' key'. apply Hc. Qed.

Lemma wrote_lookup k key o s s' key' : wrote k key o s s' -> lawful_kind k = true ->
  db_lookup k s' key' = if decide (key' = key) then o else db_lookup k s key'.
Proof.
  intros [Ha Hb _] Hk. destruct (decide (key' = key)) as [-> | Hne]; auto.
Qed.

Lemma forM_noop {A} (l : list A) (body : A -> M S unit) :
  (forall a s s', body a s = (Ok tt, s') -> s = s') ->
  forall s s', forM l body s = (Ok tt, s') -> s' = s.
Proof.
  intros Hb. induction l as [| a l IH]; intros s s' R; cbn [for_each] in R.
  - now apply ret_Ok in R as [_ <-].
  - apply bind_Ok in R as ([] & s1 & R1 & R2). apply IH in R2 as ->. symmetry. eapply Hb, R1.
Qed.

Lemma removes_spec k (l : list (key_type k)) : stored_kind k = true -> forall s s',
  forM l (fun key => entry_remove k key) s = (Ok tt, s') ->
  frame_kind k s s' /\
  forall key, lawful_kind k = true ->
    db_lookup k s' key = if decide (key ∈ l) then None else db_lookup k s key.
Proof.
  intros Hst. induction l as [| a l IH]; intros s s' R; cbn [for_each] in R.
  - apply ret_Ok in R as [_ <-]. split; [easy |]. intros key _.
    rewrite decide_False; [done | apply not_elem_of_nil].
  - apply bind_Ok in R as ([] & s1 & R1 & R2).
    pose proof (entry_remove_writing _ _ Hst _ _ _ R1) as Hw.
    destruct (IH _ _ R2) as [Hf Hl]. split.
    + eapply frame_kind_trans; [eapply wrote_frame, Hw | exact Hf].
    + intros key Hk. rewrite Hl, (wrote_lookup _ _ _ _ _ _ Hw) by done.
      destruct (decide (key ∈ l)) as [Hin | Hin], (decide (key = a)) as [-> | Hne];
        case_decide as Hc; try done; exfalso; set_solver.
Qed.

(** A loop whose steps write [o] at their key, or do nothing and are [skip]ped. *)
Lemma restores_spec {A} k (f : A -> key_type k) (o : key_type k -> option (val_type k))
    (skip : A -> Prop) (body : A -> M S unit) l :
  (forall a s s', body a s = (Ok tt, s') -> wrote k (f a) (o (f a)) s s' \/ (s' = s /\ skip a)) ->
  forall s s', forM l body s = (Ok tt, s') ->
  frame_kind k s s' /\
  forall key, lawful_kind k = true ->
    db_lookup k s' key = o key \/
    (db_lookup k s' key = db_lookup k s key /\ forall a, a ∈ l -> f a = key -> skip a).
Proof.
  intros Hb. induction l as [| a l IH]; intros s s' R; cbn [for_each] in R.
  - apply ret_Ok in R as [_ <-]. split; [easy |]. intros key _. right. split; [done |]. set_solver.
  - apply bind_Ok in R as ([] & s1 & R1 & R2). destruct (IH _ _ R2) as [Hf Hl].
    destruct (Hb _ _ _ R1) as [Hw | [-> Hskip]].
    + split; [eapply frame_kind_trans; [eapply wrote_frame, Hw | exact Hf] |].
      intros key Hk. destruct (Hl key Hk) as [E | [E Hs]]; [now left |].
      rewrite (wrote_lookup _ _ _ _ _ _ Hw) in E by done.
      destruct (decide (key = f a)) as [-> | Hne]; [left; exact E | right].
      split; [exact E |]. intros b [-> | Hb']%elem_of_cons Heq; [congruence | eauto].
    + split; [exact Hf |]. intros key Hk. destruct (Hl key Hk) as [E | [E Hs]]; [now left | right].
      split; [exact E |]. intros b [-> | Hb']%elem_of_cons Heq; eauto.
Qed.

Lemma stores_spec k (m : gmap (key_type k) (val_type k)) l : stored_kind k = true ->
  NoDup l.*1 -> forall s s',
  forM l (fun item => entry_store k (fst item) (snd item)) s = (Ok tt, s') ->
  frame_kind k s s' /\
  forall key, lawful_kind k = true ->
    db_lookup k s' key =
    match list_to_map (M := gmap (key_type k) (val_type k)) l !! key with
    | Some v => Some v
    | None => db_lookup k s key
    end.
Proof.
  intros Hst. induction l as [| [a v] l IH]; intros Hnd s s' R; cbn [for_each fst snd] in R.
  - apply ret_Ok in R as [_ <-]. split; [easy |]. intros key _. cbn. now rewrite lookup_empty.
  - apply bind_Ok in R as ([] & s1 & R1 & R2).
    cbn in Hnd. apply NoDup_cons in Hnd as [Hna Hnd].
    pose proof (entry_store_writing _ _ _ Hst _ _ _ R1) as Hw.
    destruct (IH Hnd _ _ R2) as [Hf Hl]. split.
    + eapply frame_kind_trans; [eapply wrote_frame, Hw | exact Hf].
    + intros key Hk. rewrite Hl, (wrote_lookup _ _ _ _ _ _ Hw) by done. cbn [list_to_map foldr].
      change (foldr _ ∅ l) with (list_to_map (M := gmap (key_type k) (val_type k)) l).
      cbn [fst snd]. destruct (decide (key = a)) as [-> | Hne].
      * rewrite not_elem_of_list_to_map_1 by done. now rewrite lookup_insert_eq.
      * now rewrite lookup_insert_ne by congruence.
Qed.
End Loops.

(** ** apply_changes *)
Section ApplySpec.
Context `{ChainParams} {P S : Type} `{ChainInterfaceLaws S}.

(** What the entries of [p] make of a lookup that the state below answers with [o]. *)
Definition overlaid (p : PendingChainState P) (k : EntryKind) (key : key_type k)
    (o : option (val_type k)) : option (val_type k) :=
  match to_entry (overlay p k) !! key with
  | Some v => Some v
  | None => if decide (key ∈ remove_set p k) then None else o
  end.

Lemma apply_entrys_spec p k s s' : stored_kind k = true ->
  apply_entrys (P := P) p k s = (Ok tt, s') ->
  frame_kind k s s' /\
  forall key, lawful_kind k = true -> db_lookup k s' key = overlaid p k key (db_lookup k s key).
Proof.
  intros Hst R. apply bind_Ok in R as ([] & s1 & R1 & R2).
  destruct (removes_spec _ _ Hst _ _ R1) as [Hf1 Hl1].
  destruct (stores_spec _ ∅ _ Hst (NoDup_fst_map_to_list _) _ _ R2) as [Hf2 Hl2].
  split; [eapply frame_kind_trans; eassumption |]. intros key Hk.
  rewrite Hl2, list_to_map_to_list, Hl1 by done. unfold overlaid.
  destruct (to_entry (overlay p k) !! key); [done |].
  destruct (decide (key ∈ elements _)) as [Hin | Hin]; rewrite elem_of_elements in Hin;
    case_decide; done.
Qed.

Lemma apply_kinds_spec p l : NoDup l -> forall s s',
  forM l (apply_entrys (P := P) p) s = (Ok tt, s') ->
  forall k key, lawful_kind k = true -> stored_kind k = true ->
    db_lookup k s' key =
    if decide (k ∈ l) then overlaid p k key (db_lookup k s key) else db_lookup k s key.
Proof.
  induction l as [| k0 l IH]; intros Hnd s s' R k key Hk Hst; cbn [for_each] in R.
  - apply ret_Ok in R as [_ <-]. rewrite decide_False; [done | apply not_elem_of_nil].
  - apply bind_Ok in R as ([] & s1 & R1 & R2). apply NoDup_cons in Hnd as [Hni Hnd].
    rewrite (IH Hnd _ _ R2) by done.
    destruct (decide (k = k0)) as [-> | Hne].
    + rewrite decide_False by done. rewrite decide_True by set_solver.
      destruct (apply_entrys_spec _ _ _ _ Hst R1) as [_ Hl]. now apply Hl.
    + assert (db_lookup k s1 key = db_lookup k s key) as ->.
      { destruct (stored_kind k0) eqn:E0.
        - destruct (apply_entrys_spec _ _ _ _ E0 R1) as [Hf _]. now apply Hf.
        - destruct k0; cbn in E0; try discriminate.
          apply bind_Ok in R1 as ([] & s2 & Ra & Rb).
          apply forM_noop in Ra as ->; [apply forM_noop in Rb as ->; [done |] |];
            intros a u u'; cbn [entry_remove entry_store];
            unfold slot_entry_remove, slot_entry_store; rewrite E0;
            now intros [_ ?]%ret_Ok. }
      destruct (decide (k ∈ l)) as [Hin | Hin].
      * now rewrite decide_True by set_solver.
      * now rewrite decide_False by set_solver.
Qed.
End ApplySpec.

(** ** Progress: stores of well formed entries succeed *)
Section Progress.
Context `{ChainParams} {S : Type} `{ChainInterfaceLaws S}.

Definition view_wf (s : S) : Prop :=
  forall k key v, lawful_kind k = true -> db_lookup k s key = Some v -> entry_wf k v.

Context (account_lawful : lawful_kind KAccount = true).

Lemma view_wf_prev s k key prev : view_wf s -> db_lookup k s key = Some prev -> entry_wf k prev.
Proof.
  intros Hs E. destruct (lawful_kind k) eqn:Hk; [eapply Hs; eassumption |].
  destruct k; try exact I. congruence.
Qed.

Lemma view_wf_keeps s s' : keeps s s' -> view_wf s -> view_wf s'.
Proof. intros Hk Hs k key v Hl. rewrite (Hk k key Hl). now apply Hs. Qed.

Lemma view_wf_wrote k key o s s' : wrote k key o s s' ->
  (forall v, o = Some v -> entry_wf k v) -> view_wf s -> view_wf s'.
Proof.
  intros Hw Ho Hs k' key' v Hk. destruct (decide (k' = k)) as [-> | Hne].
  - rewrite (wrote_lookup _ _ _ _ _ _ Hw) by done.
    case_decide; [apply Ho | now apply Hs].
  - rewrite (wrote_kind _ _ _ _ _ Hw) by done. now apply Hs.
Qed.

Lemma entry_store_progress k key v s : view_wf s -> entry_wf k v ->
  exists s', entry_store k key v s = (Ok tt, s') /\ view_wf s'.
Proof.
  intros Hs Hv. destruct (entry_store_total k key v s Hv) as [s' R].
  { intros prev. now apply view_wf_prev. }
  exists s'. split; [exact R |]. destruct (stored_kind k) eqn:Hst.
  - eapply view_wf_wrote; [eapply entry_store_writing; eassumption | | exact Hs].
    now intros ? [= <-].
  - destruct k; cbn in Hst; try discriminate. cbn [entry_store] in R.
    unfold slot_entry_store in R. rewrite Hst in R. now apply ret_Ok in R as [_ <-].
Qed.

Lemma entry_remove_progress k key s : view_wf s ->
  exists s', entry_remove k key s = (Ok tt, s') /\ view_wf s'.
Proof.
  intros Hs. destruct (entry_remove_total k key s) as [s' R].
  { intros prev. now apply view_wf_prev. }
  exists s'. split; [exact R |]. destruct (stored_kind k) eqn:Hst.
  - eapply view_wf_wrote; [eapply entry_remove_writing; eassumption | easy | exact Hs].
  - destruct k; cbn in Hst; try discriminate. cbn [entry_remove] in R.
    unfold slot_entry_remove in R. rewrite Hst in R. now apply ret_Ok in R as [_ <-].
Qed.

Lemma forM_progress {A} (l : list A) (body : A -> M S unit) :
  (forall a s, a ∈ l -> view_wf s -> exists s', body a s = (Ok tt, s') /\ view_wf s') ->
  forall s, view_wf s -> exists s', forM l body s = (Ok tt, s') /\ view_wf s'.
Proof.
  induction l as [| a l IH]; intros Hb s Hs; cbn [for_each]; [exists s; now split |].
  destruct (Hb a s) as (s1 & R1 & Hs1); [apply list_elem_of_here | exact Hs |].
  destruct (IH (fun a s Hin => Hb a s (list_elem_of_further _ _ _ Hin)) s1 Hs1)
    as (s2 & R2 & Hs2).
  exists s2. split; [| exact Hs2]. now rewrite (bind_run_Ok _ _ _ _ _ R1).
Qed.

Lemma bind_progress (m1 m2 : M S unit) s :
  (exists s', m1 s = (Ok tt, s') /\ view_wf s') ->
  (forall s, view_wf s -> exists s', m2 s = (Ok tt, s') /\ view_wf s') ->
  exists s', (m1 ;;; m2) s = (Ok tt, s') /\ view_wf s'.
Proof.
  intros (s1 & R1 & Hs1) H2. destruct (H2 s1 Hs1) as (s2 & R2 & Hs2).
  exists s2. split; [| exact Hs2]. now rewrite (bind_run_Ok _ _ _ _ _ R1).
Qed.

Definition overlay_wf {P} (p : PendingChainState P) : Prop :=
  forall k key v, to_entry (overlay p k) !! key = Some v -> entry_wf k v.

Lemma apply_progress {P} (p : PendingChainState P) s : overlay_wf p -> view_wf s ->
  exists s', forM apply_order (apply_entrys p) s = (Ok tt, s') /\ view_wf s'.
Proof.
  intros Hp. apply forM_progress. intros k s1 _ Hs1. apply bind_progress.
  - apply forM_progress; [| exact Hs1]. intros key s2 _. apply entry_remove_progress.
  - apply forM_progress. intros [key v] s2 Hin Hs2. apply entry_store_progress; [exact Hs2 |].
    eapply Hp. apply elem_of_map_to_list. exact Hin.
Qed.
End Progress.

(** ** Refinement and round trip *)
Section Main.
Context `{ChainParams} `{Clock} {P : Type} `{ChainInterfaceLaws P}.
Context (account_lawful : lawful_kind (S := P) KAccount = true).

(** A state as the chain sees it: every account has an active key, and a
    signing key where it is a delegate. *)
Lemma apply_order_nodup : NoDup apply_order.
Proof. apply (bool_decide_unpack _). vm_compute. exact I. Qed.

Lemma apply_order_all k : k ∈ apply_order.
Proof. destruct k; apply (bool_decide_unpack _); vm_compute; exact I. Qed.

Lemma overlaid_lookup (p : PendingChainState P) prev k key : prev_state p = Some prev ->
  overlaid p k key (db_lookup k prev key) = db_lookup k p key.
Proof.
  intros Hp. unfold overlaid.
  destruct (overlay_kind k) eqn:Hk.
  - change (db_lookup k p key) with (pcs_db_lookup k p key).
    rewrite pcs_lookup_generic by done. unfold overlay_lookup, entry_lookup. rewrite Hp.
    destruct (to_entry (overlay p k) !! key); [done |].
    assert (remove_set p k = to_remove (overlay p k)) as -> by now destruct k.
    case_decide as Hin; [now rewrite bool_decide_true | now rewrite bool_decide_false].
  - destruct k; try discriminate.
    change (db_lookup KStorage p key) with (pcs_contractstorage_lookup_by_id p key).
    unfold pcs_contractstorage_lookup_by_id, entry_lookup. rewrite Hp.
    destruct (to_entry (overlay p KStorage) !! key); [done |]. unfold remove_set.
    destruct (db_lookup KStorage prev key); case_decide as Hin; try done;
      case_bool_decide as Hin'; done.
Qed.

Lemma apply_changes_run (p : PendingChainState P) prev :
  prev_state p = Some prev -> overlay_wf p -> view_wf prev ->
  exists prev', apply_changes p = (Ok tt, Some prev') /\ view_wf prev' /\
    forall k key, lawful_kind (S := P) k = true -> stored_kind k = true ->
      db_lookup k prev' key = db_lookup k p key.
Proof.
  intros Hp Hw Hv. unfold apply_changes. rewrite Hp.
  destruct (apply_progress account_lawful p prev Hw Hv) as (prev' & R & Hv').
  rewrite R. exists prev'. split; [done | split; [exact Hv' |]].
  intros k key Hk Hst. rewrite (apply_kinds_spec _ _ apply_order_nodup _ _ R) by done.
  rewrite decide_True by apply apply_order_all.
  now apply overlaid_lookup.
Qed.

(** C21: applying a pending state to the state below succeeds and leaves there, for
    every primary map, exactly what a lookup through the pending state
    answered before: the overlay is a faithful view of the applied state. *)
Theorem apply_changes_refines (p : PendingChainState P) prev :
  prev_state p = Some prev -> overlay_wf p -> view_wf prev ->
  exists prev', apply_changes p = (Ok tt, Some prev') /\ view_wf prev' /\
    forall k key, lawful_kind (S := P) k = true -> stored_kind k = true ->
      db_lookup k prev' key = db_lookup k p key.
Proof. apply apply_changes_run. Qed.

Lemma populate_spec (p : PendingChainState P) prev k u u' :
  prev_state p = Some prev -> overlay_kind k = true -> stored_kind k = true ->
  (forall key, db_lookup k u key = db_lookup k p key) ->
  populate_undo_state p prev k u = (Ok tt, u') ->
  frame_kind (S := PendingChainState (PendingChainState P)) k u u' /\
  forall key, db_lookup k u' key = db_lookup k prev key.
Proof.
  intros Hp Hok Hst Hu R. apply bind_Ok in R as ([] & u1 & R1 & R2).
  apply (restores_spec k (fun key => key) (db_lookup k prev)
           (fun key => db_lookup k prev key = None)) in R1 as [Hf1 Hl1].
  2: { intros key s s'. unfold entry_lookup. destruct (db_lookup k prev key) eqn:E.
       - left. eapply entry_store_writing; eassumption.
       - intros [_ <-]%ret_Ok. now right. }
  apply (restores_spec k fst (db_lookup k prev) (fun _ => False)) in R2 as [Hf2 Hl2].
  2: { intros [key v] s s'. unfold entry_lookup. cbn [fst]. left.
       destruct (db_lookup k prev key) eqn:E.
       - eapply entry_store_writing; eassumption.
       - eapply entry_remove_writing; eassumption. }
  split; [eapply frame_kind_trans; eassumption |]. intros key.
  destruct (Hl2 key Hok) as [E | [E Hout]]; [exact E |].
  destruct (Hl1 key Hok) as [E1 | [E1 Hskip]]; [congruence |].
  rewrite E, E1, Hu, <- (overlaid_lookup _ _ _ _ Hp). unfold overlaid.
  destruct (to_entry (overlay p k) !! key) as [v |] eqn:Ev.
  - exfalso. apply (Hout (key, v)); [now apply elem_of_map_to_list | done].
  - case_decide as Hin; [| done]. symmetry. apply Hskip; [| done]. now apply elem_of_elements.
Qed.

Lemma populate_frame (p : PendingChainState P) prev k u u' :
  populate_undo_state p prev k u = (Ok tt, u') ->
  frame_kind (S := PendingChainState (PendingChainState P)) k u u'.
Proof.
  intros R. apply bind_Ok in R as ([] & u1 & R1 & R2).
  assert (forall key o s s',
    match o with Some e => entry_store k key e | None => entry_remove k key end s = (Ok tt, s') ->
    frame_kind (S := PendingChainState (PendingChainState P)) k s s') as Hstep.
  { intros key o s s' R. destruct (stored_kind k) eqn:Hst.
    - destruct o; eapply wrote_frame; [eapply entry_store_writing | eapply entry_remove_writing];
        eassumption.
    - destruct k; cbn in Hst; try discriminate. cbn [entry_store entry_remove] in R.
      unfold slot_entry_store, slot_entry_remove in R. rewrite Hst in R.
      destruct o; now apply ret_Ok in R as [_ <-]. }
  assert (forall {A} (l : list A) body, (forall a s s', body a s = (Ok tt, s') ->
    frame_kind (S := PendingChainState (PendingChainState P)) k s s') ->
    forall s s', forM l body s = (Ok tt, s') ->
    frame_kind (S := PendingChainState (PendingChainState P)) k s s') as Hloop.
  { intros A l body Hb. induction l as [| a l IH]; intros s s' R; cbn [for_each] in R.
    - now apply ret_Ok in R as [_ <-].
    - apply bind_Ok in R as ([] & s1 & Ra & Rb).
      eapply frame_kind_trans; [eapply Hb, Ra | eapply IH, Rb]. }
  eapply frame_kind_trans; [eapply Hloop, R1 | eapply Hloop, R2].
  - intros key s s'. cbv beta. destruct (entry_lookup k prev key) eqn:E.
    + apply (Hstep key (Some _)).
    + now intros [_ <-]%ret_Ok.
  - intros [key v] s s'. apply (Hstep key).
Qed.

Lemma populates_frame (p : PendingChainState P) prev l : forall u u' k key,
  forM l (populate_undo_state p prev) u = (Ok tt, u') -> overlay_kind k = true -> k ∉ l ->
  db_lookup (S := PendingChainState (PendingChainState P)) k u' key = db_lookup k u key.
Proof.
  induction l as [| k0 l IH]; intros u u' k key R Hok Hni; cbn [for_each] in R.
  - now apply ret_Ok in R as [_ <-].
  - apply bind_Ok in R as ([] & u1 & R1 & R2). apply not_elem_of_cons in Hni as [Hne Hni].
    rewrite (IH _ _ _ _ R2 Hok Hni). now apply (populate_frame _ _ _ _ _ R1).
Qed.

Lemma populates_spec (p : PendingChainState P) prev l : prev_state p = Some prev ->
  NoDup l -> forall u u', forM l (populate_undo_state p prev) u = (Ok tt, u') ->
  forall k, overlay_kind k = true -> stored_kind k = true -> k ∈ l ->
    (forall key, db_lookup k u key = db_lookup k p key) ->
    forall key, db_lookup (S := PendingChainState (PendingChainState P)) k u' key
                = db_lookup k prev key.
Proof.
  intros Hp. induction l as [| k0 l IH]; intros Hnd u u' R k Hok Hst Hin Hu key;
    [set_solver |]. cbn [for_each] in R.
  apply bind_Ok in R as ([] & u1 & R1 & R2). apply NoDup_cons in Hnd as [Hni Hnd].
  destruct (decide (k = k0)) as [-> | Hne].
  - rewrite (populates_frame _ _ _ _ _ _ _ R2 Hok Hni).
    now apply (populate_spec _ _ _ _ _ Hp Hok Hst Hu R1).
  - eapply IH; [exact Hnd | exact R2 | exact Hok | exact Hst | set_solver |].
    intros key'. rewrite (populate_frame _ _ _ _ _ R1) by done. apply Hu.
Qed.

Lemma populates_progress (p : PendingChainState P) prev : view_wf prev ->
  forall u, view_wf (S := PendingChainState (PendingChainState P)) u ->
  exists u', forM apply_order (populate_undo_state p prev) u = (Ok tt, u') /\ view_wf u'.
Proof.
  intros Hv. apply forM_progress. intros k u _ Hu. apply bind_progress.
  - apply forM_progress; [| exact Hu]. intros key s _ Hs. unfold entry_lookup.
    destruct (db_lookup k prev key) eqn:E; [| exists s; now split].
    apply entry_store_progress; [done | exact Hs |]. eapply view_wf_prev; eassumption.
  - apply forM_progress. intros [key v] s _ Hs. unfold entry_lookup. cbn [fst].
    destruct (db_lookup k prev key) eqn:E.
    + apply entry_store_progress; [done | exact Hs |]. eapply view_wf_prev; eassumption.
    + now apply entry_remove_progress.
Qed.

Lemma new_pending_lookup (p : PendingChainState P) k key : overlay_kind k = true ->
  db_lookup (S := PendingChainState (PendingChainState P)) k (new_pending (Some p)) key
  = db_lookup k p key.
Proof.
  intros Hk. cbn. rewrite pcs_lookup_generic by done. unfold overlay_lookup. cbn.
  now rewrite lookup_empty, bool_decide_false by set_solver.
Qed.

(** A pending state whose entries look up as well formed holds well formed entries. *)
Lemma view_overlay_wf {Q} `{ChainInterface Q} (u : PendingChainState Q) :
  view_wf u -> overlay_wf u.
Proof.
  intros Hu k key v E. destruct (overlay_kind k) eqn:Hk.
  - apply (Hu k key v Hk). cbn. rewrite pcs_lookup_generic by done.
    unfold overlay_lookup. now rewrite E.
  - now destruct k.
Qed.

Lemma rebased_lookup {Q} `{ChainInterface Q} (u : PendingChainState Q) q q' k key :
  prev_state u = Some q -> db_lookup k q' key = db_lookup k q key -> overlay_kind k = true ->
  db_lookup (S := PendingChainState P) k (set_prev_state (Some q') u) key = db_lookup k u key.
Proof.
  intros Hu Hq Hk. cbn. rewrite !pcs_lookup_generic by done.
  unfold overlay_lookup, entry_lookup. cbn. rewrite Hu, Hq. reflexivity.
Qed.

(** No write of the interface changes which state lies below. *)
Lemma populates_prev_state (p : PendingChainState P) prev l u u' r :
  forM l (populate_undo_state p prev) u = (r, u') ->
  prev_state (P := PendingChainState P) u' = prev_state u.
Proof.
  set (R := fun u u' : PendingChainState (PendingChainState P) => prev_state u' = prev_state u).
  assert (PreOrder R) by (unfold R; split; [easy | congruence]).
  assert (forall k key v, along R (entry_store k key v)) as Hst.
  { intros. apply entry_store_along;
      [done | intros; apply prev_state_insert | intros; apply overlay_index]. }
  assert (forall k key, along R (entry_remove k key)) as Hrm.
  { intros. apply entry_remove_along;
      [done | intros; apply prev_state_erase | intros; apply overlay_index]. }
  intros E. refine (along_forM R _ l _ _ u r u' E). intros k. unfold populate_undo_state.
  auto 10 with keeping.
Qed.

Lemma pending_view_wf (p : PendingChainState P) prev :
  prev_state p = Some prev -> overlay_wf p -> view_wf prev -> view_wf p.
Proof.
  intros Hp Hw Hv k key v Hk. rewrite <- (overlaid_lookup _ _ _ _ Hp). unfold overlaid.
  destruct (to_entry (overlay p k) !! key) eqn:Et; [intros [= ->]; eapply Hw, Et |].
  case_decide; [easy |]. eapply view_wf_prev; eassumption.
Qed.

(** [undo] is an undo state of [p], which lies over [prev]. *)
Record undo_of (p : PendingChainState P) (prev : P)
    (undo : PendingChainState (PendingChainState P)) : Prop := {
  undo_below : prev_state undo = Some p;
  undo_wf : view_wf undo;
  undo_lookup : forall k key, overlay_kind k = true -> stored_kind k = true ->
    db_lookup k undo key = db_lookup k prev key
}.

Lemma undo_state_run (p : PendingChainState P) prev :
  prev_state p = Some prev -> overlay_wf p -> view_wf prev ->
  exists undo, get_undo_state p (new_pending (Some p)) = (Ok tt, undo) /\ undo_of p prev undo.
Proof.
  intros Hp Hw Hv. pose proof (pending_view_wf _ _ Hp Hw Hv) as Hpv.
  destruct (populates_progress p prev Hv (new_pending (Some p))) as (undo & Hu & Huv).
  { intros k key v Hk. rewrite new_pending_lookup by done. now apply Hpv. }
  exists undo. split; [unfold get_undo_state; rewrite Hp; exact Hu |]. split.
  - exact (populates_prev_state _ _ _ _ _ _ Hu).
  - exact Huv.
  - intros k key Hok Hst. eapply populates_spec; try eassumption.
    + apply apply_order_nodup.
    + apply apply_order_all.
    + intros key'. now apply new_pending_lookup.
Qed.

(** Applied to any state that looks as [p] does, it brings [prev] back. *)
Lemma undo_applies (p : PendingChainState P) prev undo q :
  undo_of p prev undo -> view_wf q ->
  (forall k key, lawful_kind (S := P) k = true -> stored_kind k = true -> overlay_kind k = true ->
     db_lookup k q key = db_lookup k p key) ->
  exists q', apply_changes (set_prev_state (Some q) undo) = (Ok tt, Some q') /\ view_wf q' /\
    forall k key, lawful_kind (S := P) k = true -> stored_kind k = true -> overlay_kind k = true ->
      db_lookup k q' key = db_lookup k prev key.
Proof.
  intros [Hb Hw Hl] Hq E.
  destruct (apply_changes_run (set_prev_state (Some q) undo) q)
    as (q' & Ha & Hq' & Hl'); [reflexivity | apply (view_overlay_wf undo Hw) | exact Hq |].
  exists q'. split; [exact Ha | split; [exact Hq' |]]. intros k key Hk Hst Hok.
  rewrite Hl', (rebased_lookup undo p q) by auto. now apply Hl.
Qed.

(** C22: undo.  The undo state computed from a pending state before it is applied,
    re-based on the state it was applied to and applied in turn, succeeds and
    restores every primary map except the contract storages. *)
Theorem undo_roundtrip (p : PendingChainState P) prev :
  prev_state p = Some prev -> overlay_wf p -> view_wf prev ->
  exists undo prev' prev'',
    get_undo_state p (new_pending (Some p)) = (Ok tt, undo) /\
    apply_changes p = (Ok tt, Some prev') /\
    apply_changes (set_prev_state (Some prev') undo) = (Ok tt, Some prev'') /\
    forall k key, lawful_kind (S := P) k = true -> stored_kind k = true ->
      overlay_kind k = true -> db_lookup k prev'' key = db_lookup k prev key.
Proof.
  intros Hp Hw Hv.
  destruct (apply_changes_run p prev Hp Hw Hv) as (prev' & Ha & Hv' & Hl').
  destruct (undo_state_run p prev Hp Hw Hv) as (undo & Hu & Hun).
  destruct (undo_applies p prev undo prev' Hun Hv') as (prev'' & Hb & _ & Hl'').
  { intros k key Hk Hst _. now apply Hl'. }
  exists undo, prev', prev''. auto.
Qed.
End Main.
