(* ===== verification/LevelMaps.v ===== *)
(** * The cached database maps (include/db/*.hpp)

    LevelMap is a leveldb database: a finite map on disk that answers only
    while open.  cached_level_map and fast_level_map keep all of it in memory;
    the first may delay its writes, the second may drop the disk copy.
    leveldb itself is taken to keep what is put and batches to be atomic. *)

From S2P Require Import Prelude.
From Stdlib Require Import ZArith Lia Bool List.
From stdpp Require Import base gmap list.

Section LevelMaps.
Context {K V : Type} `{Countable K}.

(** ** LevelMap *)

Record LevelMap := mkLevelMap { lm_is_open : bool; lm_files : gmap K V }.

Definition level_open : M LevelMap unit :=
  m <- get ;; fc_assert (negb (lm_is_open m)) ;;; modify (fun m => mkLevelMap true (lm_files m)).
Definition level_close : M LevelMap unit := modify (fun m => mkLevelMap false (lm_files m)).

Definition level_fetch_optional (k : K) : M LevelMap (option V) :=
  m <- get ;; fc_assert (lm_is_open m) ;;; ret (lm_files m !! k).
Definition level_fetch (k : K) : M LevelMap V :=
  m <- get ;; fc_assert (lm_is_open m) ;;; valid_or (lm_files m !! k) key_not_found_exception.
Definition level_store (k : K) (v : V) : M LevelMap unit :=
  m <- get ;; fc_assert (lm_is_open m) ;;;
  modify (fun m => mkLevelMap (lm_is_open m) (<[k := v]> (lm_files m))).
Definition level_remove (k : K) : M LevelMap unit :=
  m <- get ;; fc_assert (lm_is_open m) ;;;
  modify (fun m => mkLevelMap (lm_is_open m) (delete k (lm_files m))).

(** write_batch: the puts ([Some]) and deletes ([None]) in order. *)
Definition batch_op : Type := K * option V.
Definition apply_batch_op (f : gmap K V) (b : batch_op) : gmap K V :=
  match snd b with Some v => <[fst b := v]> f | None => delete (fst b) f end.
Definition batch_commit (b : list batch_op) : M LevelMap unit :=
  m <- get ;; fc_assert (lm_is_open m) ;;;
  modify (fun m => mkLevelMap (lm_is_open m) (fold_left apply_batch_op b (lm_files m))).

(** ** cached_level_map *)

Record CachedLevelMap := mkCached {
  c_db : LevelMap;
  c_cache : gmap K V;
  dirty_store : gset K;
  dirty_remove : gset K;
  write_through : bool
}.

(** A call on [_db]. *)
Definition on_db {A} (m : M LevelMap A) : M CachedLevelMap A :=
  fun s => let '(r, db) := m (c_db s) in
           (r, mkCached db (c_cache s) (dirty_store s) (dirty_remove s) (write_through s)).

Definition cached_open (wt : bool) : M CachedLevelMap unit :=
  on_db level_open ;;;
  modify (fun s => mkCached (c_db s) (c_cache s ∪ lm_files (c_db s)) (dirty_store s)
                     (dirty_remove s) wt).

(** [batch.store( key, _cache.at( key ) )] for the dirty keys: a missing one
    throws, and the batch commits what it has when it goes out of scope. *)
Fixpoint dirty_batch (cache : gmap K V) (keys : list K) : list batch_op * bool :=
  match keys with
  | [] => ([], true)
  | k :: keys => match cache !! k with
                 | Some v => let '(b, ok) := dirty_batch cache keys in ((k, Some v) :: b, ok)
                 | None => ([], false)
                 end
  end.

Definition cached_flush : M CachedLevelMap unit :=
  s <- get ;;
  fc_assert (lm_is_open (c_db s)) ;;;
  let '(puts, complete) := dirty_batch (c_cache s) (elements (dirty_store s)) in
  if complete then
    on_db (batch_commit (puts ++ map (fun k => (k, None)) (elements (dirty_remove s)))) ;;;
    modify (fun s => mkCached (c_db s) (c_cache s) ∅ ∅ (write_through s))
  else on_db (batch_commit puts) ;;; throw out_of_range.

Definition cached_close : M CachedLevelMap unit :=
  s <- get ;;
  (if lm_is_open (c_db s) then cached_flush else ret tt) ;;;
  on_db level_close ;;;
  modify (fun s => mkCached (c_db s) ∅ ∅ ∅ (write_through s)).

Definition set_write_through (wt : bool) : M CachedLevelMap unit :=
  s <- get ;;
  if Bool.eqb wt (write_through s) then ret tt
  else
    (if wt then cached_flush else ret tt) ;;;
    modify (fun s => mkCached (c_db s) (c_cache s) (dirty_store s) (dirty_remove s) wt).

Definition cached_fetch_optional (s : CachedLevelMap) (k : K) : option V := c_cache s !! k.
Definition cached_fetch (s : CachedLevelMap) (k : K) : result V :=
  match c_cache s !! k with Some v => Ok v | None => Err key_not_found_exception end.

Definition cached_store (k : K) (v : V) : M CachedLevelMap unit :=
  modify (fun s => mkCached (c_db s) (<[k := v]> (c_cache s)) (dirty_store s) (dirty_remove s)
                     (write_through s)) ;;;
  s <- get ;;
  if write_through s then on_db (level_store k v)
  else modify (fun s => mkCached (c_db s) (c_cache s) ({[ k ]} ∪ dirty_store s)
                          (dirty_remove s ∖ {[ k ]}) (write_through s)).

Definition cached_remove (k : K) : M CachedLevelMap unit :=
  modify (fun s => mkCached (c_db s) (delete k (c_cache s)) (dirty_store s) (dirty_remove s)
                     (write_through s)) ;;;
  s <- get ;;
  if write_through s then on_db (level_remove k)
  else modify (fun s => mkCached (c_db s) (c_cache s) (dirty_store s ∖ {[ k ]})
                          ({[ k ]} ∪ dirty_remove s) (write_through s)).

(** ** fast_level_map *)

Record FastLevelMap := mkFast {
  f_ldb : LevelMap;
  f_ldb_path : bool;
  f_ldb_enabled : bool;
  f_cache : gmap K V
}.

Definition on_ldb {A} (m : M LevelMap A) : M FastLevelMap A :=
  fun s => let '(r, db) := m (f_ldb s) in
           (r, mkFast db (f_ldb_path s) (f_ldb_enabled s) (f_cache s)).

Definition fast_open : M FastLevelMap unit :=
  s <- get ;;
  fc_assert (negb (f_ldb_path s)) ;;;
  modify (fun s => mkFast (f_ldb s) true (f_ldb_enabled s) (f_cache s)) ;;;
  on_ldb level_open ;;;
  modify (fun s => mkFast (f_ldb s) (f_ldb_path s) (f_ldb_enabled s)
                     (f_cache s ∪ lm_files (f_ldb s))).

(** [fc::remove_all] deletes the files. *)
Definition toggle_leveldb (enabled : bool) : M FastLevelMap unit :=
  s <- get ;;
  fc_assert (f_ldb_path s) ;;;
  if Bool.eqb enabled (f_ldb_enabled s) then ret tt
  else
    (if enabled then
       on_ldb level_open ;;;
       on_ldb (batch_commit (map (fun kv => (fst kv, Some (snd kv))) (map_to_list (f_cache s))))
     else
       on_ldb level_close ;;;
       modify (fun s => mkFast (mkLevelMap (lm_is_open (f_ldb s)) ∅) (f_ldb_path s)
                          (f_ldb_enabled s) (f_cache s))) ;;;
    modify (fun s => mkFast (f_ldb s) (f_ldb_path s) enabled (f_cache s)).

Definition fast_close : M FastLevelMap unit :=
  s <- get ;;
  (if f_ldb_path s then
     (if negb (f_ldb_enabled s) then toggle_leveldb true else ret tt) ;;;
     on_ldb level_close ;;;
     modify (fun s => mkFast (f_ldb s) false (f_ldb_enabled s) (f_cache s))
   else ret tt) ;;;
  modify (fun s => mkFast (f_ldb s) (f_ldb_path s) (f_ldb_enabled s) ∅).

Definition fast_store (k : K) (v : V) : M FastLevelMap unit :=
  modify (fun s => mkFast (f_ldb s) (f_ldb_path s) (f_ldb_enabled s) (<[k := v]> (f_cache s))) ;;;
  s <- get ;;
  if f_ldb_enabled s then on_ldb (level_store k v) else ret tt.

Definition fast_remove (k : K) : M FastLevelMap unit :=
  modify (fun s => mkFast (f_ldb s) (f_ldb_path s) (f_ldb_enabled s) (delete k (f_cache s))) ;;;
  s <- get ;;
  if f_ldb_enabled s then on_ldb (level_remove k) else ret tt.

(** ** The contract: a finite map that survives closing *)

(** The calls between an [open] and the next [close]. *)
Inductive map_call := CallStore (k : K) (v : V) | CallRemove (k : K) | CallMode (b : bool).

Definition map_spec (m : gmap K V) (c : map_call) : gmap K V :=
  match c with
  | CallStore k v => <[k := v]> m
  | CallRemove k => delete k m
  | CallMode _ => m
  end.

Definition cached_call (c : map_call) : M CachedLevelMap unit :=
  match c with
  | CallStore k v => cached_store k v
  | CallRemove k => cached_remove k
  | CallMode b => set_write_through b
  end.

Definition fast_call (c : map_call) : M FastLevelMap unit :=
  match c with
  | CallStore k v => fast_store k v
  | CallRemove k => fast_remove k
  | CallMode b => toggle_leveldb b
  end.

Record cached_inv (s : CachedLevelMap) : Prop := {
  inv_open : lm_is_open (c_db s) = true;
  inv_clean : forall k, k ∉ dirty_store s -> k ∉ dirty_remove s ->
    lm_files (c_db s) !! k = c_cache s !! k;
  inv_store : forall k, k ∈ dirty_store s -> is_Some (c_cache s !! k);
  inv_remove : forall k, k ∈ dirty_remove s -> c_cache s !! k = None;
  inv_write_through : write_through s = true -> dirty_store s = ∅ /\ dirty_remove s = ∅
}.

Lemma dirty_batch_complete cache keys : (forall k, k ∈ keys -> is_Some (cache !! k)) ->
  exists b, dirty_batch cache keys = (b, true) /\
    forall f k, fold_left apply_batch_op b f !! k =
      if decide (k ∈ keys) then cache !! k else f !! k.
Proof.
  induction keys as [| a keys IH]; intros Hk; cbn.
  - exists []. split; [done |]. intros f k. rewrite decide_False; [done | apply not_elem_of_nil].
  - destruct (Hk a) as [v Ev]; [left |]. rewrite Ev.
    destruct IH as (b & -> & Hb); [intros; apply Hk; now right |].
    eexists. split; [done |]. intros f k. cbn. rewrite Hb. unfold apply_batch_op. cbn.
    destruct (decide (k = a)) as [-> | Hne].
    + rewrite lookup_insert_eq, Ev. rewrite (decide_True (P := a ∈ a :: keys)) by left.
      now case_decide.
    + rewrite lookup_insert_ne by congruence.
      destruct (decide (k ∈ keys)), (decide (k ∈ a :: keys)) as [Hin | Hin]; try done; set_solver.
Qed.

Lemma batch_deletes keys : forall f k,
  fold_left apply_batch_op (map (fun k => (k, None)) keys) f !! k =
  if decide (k ∈ keys) then None else f !! k.
Proof.
  induction keys as [| a keys IH]; intros f k; cbn.
  - rewrite decide_False; [done | apply not_elem_of_nil].
  - rewrite IH. unfold apply_batch_op. cbn. destruct (decide (k = a)) as [-> | Hne].
    + rewrite lookup_delete_eq, (decide_True (P := a ∈ a :: keys)) by left. now case_decide.
    + rewrite lookup_delete_ne by congruence.
      destruct (decide (k ∈ keys)), (decide (k ∈ a :: keys)); try done; set_solver.
Qed.

Lemma flush_spec s : cached_inv s -> exists s', cached_flush s = (Ok tt, s') /\
  lm_files (c_db s') = c_cache s /\ c_cache s' = c_cache s /\ lm_is_open (c_db s') = true /\
  dirty_store s' = ∅ /\ dirty_remove s' = ∅ /\ write_through s' = write_through s.
Proof.
  intros Hs. destruct (dirty_batch_complete (c_cache s) (elements (dirty_store s)))
    as (b & Eb & Hb); [intros k Hk; apply (inv_store _ Hs); now apply elem_of_elements |].
  unfold cached_flush, bind, get, on_db, batch_commit, fc_assert, ret, modify.
  rewrite (inv_open _ Hs). rewrite Eb. cbn. rewrite (inv_open _ Hs). cbn.
  eexists. split; [reflexivity |]. cbn. repeat split; try exact (inv_open _ Hs).
  apply map_eq. intros k. rewrite fold_left_app, batch_deletes, Hb.
  destruct (decide (k ∈ elements (dirty_remove s))) as [Hr | Hr]; rewrite elem_of_elements in Hr.
  - symmetry. now apply (inv_remove _ Hs).
  - case_decide as Hd; [done |]. rewrite elem_of_elements in Hd. now apply (inv_clean _ Hs).
Qed.

Lemma cached_call_spec c s : cached_inv s -> exists s', cached_call c s = (Ok tt, s') /\
  cached_inv s' /\ c_cache s' = map_spec (c_cache s) c.
Proof.
  intros Hs. pose proof Hs as [Ho Hc Hst Hr Hw]. destruct c as [k v | k | b]; cbn [cached_call].
  - unfold cached_store, bind, modify, get. destruct (write_through s) eqn:E; cbn.
    + unfold on_db, level_store, bind, get, fc_assert, modify, ret. cbn. rewrite Ho. cbn.
      destruct (Hw eq_refl) as [Hw1 Hw2]. rewrite Hw1, Hw2. eexists. split; [reflexivity |].
      split; [| reflexivity].
      split; cbn; [done | | now intros ? ?%elem_of_empty | now intros ? ?%elem_of_empty
                  | done]. intros j _ _.
      destruct (decide (j = k)) as [-> |]; [now rewrite !lookup_insert_eq |].
      rewrite !lookup_insert_ne by congruence. apply Hc; rewrite ?Hw1, ?Hw2; apply not_elem_of_empty.
    + eexists. split; [reflexivity |]. split; [| reflexivity].
      split; cbn; [done | | | | congruence]; intros j Hj; [intros Hj' | |].
      * rewrite lookup_insert_ne by set_solver. apply Hc; set_solver.
      * destruct (decide (j = k)) as [-> |]; [rewrite lookup_insert_eq; eauto |].
        rewrite lookup_insert_ne by congruence. apply Hst. set_solver.
      * rewrite lookup_insert_ne by set_solver. apply Hr. set_solver.
  - unfold cached_remove, bind, modify, get. destruct (write_through s) eqn:E; cbn.
    + unfold on_db, level_remove, bind, get, fc_assert, modify, ret. cbn. rewrite Ho. cbn.
      destruct (Hw eq_refl) as [Hw1 Hw2]. rewrite Hw1, Hw2. eexists. split; [reflexivity |].
      split; [| reflexivity].
      split; cbn; [done | | now intros ? ?%elem_of_empty | now intros ? ?%elem_of_empty
                  | done]. intros j _ _.
      destruct (decide (j = k)) as [-> |]; [now rewrite !lookup_delete_eq |].
      rewrite !lookup_delete_ne by congruence. apply Hc; rewrite ?Hw1, ?Hw2; apply not_elem_of_empty.
    + eexists. split; [reflexivity |]. split; [| reflexivity].
      split; cbn; [done | | | | congruence]; intros j Hj; [intros Hj' | |].
      * rewrite lookup_delete_ne by set_solver. apply Hc; set_solver.
      * rewrite lookup_delete_ne by set_solver. apply Hst. set_solver.
      * destruct (decide (j = k)) as [-> |]; [apply lookup_delete_eq |].
        rewrite lookup_delete_ne by congruence. apply Hr. set_solver.
  - unfold set_write_through, bind at 1, get. cbn [map_spec].
    destruct (Bool.eqb b (write_through s)) eqn:E.
    + exists s. done.
    + destruct b.
      * destruct (flush_spec s Hs) as (s' & Ef & Hf & Hcache & Hopen & Hd1 & Hd2 & _).
        rewrite (bind_run_Ok _ _ _ _ _ Ef). eexists. split; [reflexivity |]. cbn.
        split; [| exact Hcache]. split; cbn; rewrite ?Hd1, ?Hd2, ?Hcache, ?Hf; try done; set_solver.
      * eexists. split; [reflexivity |]. split; [| reflexivity]. now split.
Qed.

Lemma cached_calls_spec calls : forall s, cached_inv s ->
  exists s', forM calls cached_call s = (Ok tt, s') /\ cached_inv s' /\
    c_cache s' = fold_left map_spec calls (c_cache s).
Proof.
  induction calls as [| c calls IH]; intros s Hs; cbn [for_each fold_left]; [now exists s |].
  destruct (cached_call_spec c s Hs) as (s1 & R1 & Hs1 & E1).
  destruct (IH s1 Hs1) as (s2 & R2 & Hs2 & E2). exists s2.
  now rewrite (bind_run_Ok _ _ _ _ _ R1), <- E1.
Qed.

(** C29: cached_level_map refines a finite map that survives a restart.  Whatever the calls and
    whenever writing through is switched on or off, every call succeeds, a
    fetch answers as the finite map does, and closing the map leaves on disk
    the same contents, which the next open loads. *)
Theorem cached_level_map_durable files wt0 wt wt' calls :
  exists s1 s2 s3 s4,
    cached_open wt (mkCached (mkLevelMap false files) ∅ ∅ ∅ wt0) = (Ok tt, s1) /\
    forM calls cached_call s1 = (Ok tt, s2) /\
    (forall k, cached_fetch_optional s2 k = fold_left map_spec calls files !! k) /\
    cached_close s2 = (Ok tt, s3) /\
    lm_files (c_db s3) = fold_left map_spec calls files /\
    cached_open wt' s3 = (Ok tt, s4) /\
    c_cache s4 = fold_left map_spec calls files.
Proof.
  set (s1 := mkCached (mkLevelMap true files) (∅ ∪ files) ∅ ∅ wt).
  assert (cached_inv s1) as H1.
  { split; cbn; try set_solver. intros. now rewrite (left_id_L ∅ (∪)). }
  destruct (cached_calls_spec calls s1 H1) as (s2 & R2 & H2 & E2).
  cbn [c_cache s1] in E2. rewrite (left_id_L ∅ (∪)) in E2.
  destruct (flush_spec s2 H2) as (s3 & R3 & Hf & Hc & Ho & _).
  eexists s1, s2, _, _. split; [reflexivity |]. split; [exact R2 |].
  split; [intros k; unfold cached_fetch_optional; now rewrite E2 |]. split.
  { unfold cached_close. unfold bind at 1, get. rewrite (inv_open _ H2). cbv iota beta.
    rewrite (bind_run_Ok _ _ _ _ _ R3). reflexivity. }
  cbn. rewrite Hf, E2. split; [done |]. split; [reflexivity |]. apply (left_id_L ∅ (∪)).
Qed.

(** ** fast_level_map: the disk copy exists exactly while enabled *)

Record fast_inv (s : FastLevelMap) : Prop := {
  finv_path : f_ldb_path s = true;
  finv_open : lm_is_open (f_ldb s) = f_ldb_enabled s;
  finv_files : lm_files (f_ldb s) = if f_ldb_enabled s then f_cache s else ∅
}.

Lemma batch_puts (l : list (K * V)) : forall f,
  NoDup l.*1 -> forall k,
  fold_left apply_batch_op (map (fun kv => (fst kv, Some (snd kv))) l) f !! k =
  match list_to_map (M := gmap K V) l !! k with Some v => Some v | None => f !! k end.
Proof.
  induction l as [| [a v] l IH]; intros f Hnd k; cbn; [now rewrite lookup_empty |].
  apply NoDup_cons in Hnd as [Hna Hnd]. rewrite IH by done. unfold apply_batch_op. cbn.
  destruct (decide (k = a)) as [-> | Hne].
  - now rewrite not_elem_of_list_to_map_1, !lookup_insert_eq.
  - now rewrite !lookup_insert_ne by congruence.
Qed.

Lemma toggle_spec b s : fast_inv s -> exists s', toggle_leveldb b s = (Ok tt, s') /\
  fast_inv s' /\ f_cache s' = f_cache s /\ f_ldb_enabled s' = b.
Proof.
  intros [Hp Ho Hf]. unfold toggle_leveldb, bind at 1, get. rewrite Hp. cbn [fc_assert].
  rewrite (bind_run_Ok _ _ _ tt s) by reflexivity.
  destruct (Bool.eqb b (f_ldb_enabled s)) eqn:E.
  - apply eqb_prop in E. exists s. now rewrite E.
  - apply eqb_false_iff in E.
    assert (f_ldb_enabled s = negb b) as En by (destruct b, (f_ldb_enabled s) eqn:X; cbn; congruence).
    destruct b; cbn in En; rewrite En in Ho, Hf.
    + unfold bind, on_ldb, level_open, batch_commit, fc_assert, get, modify, ret, bind.
      rewrite Ho. cbn. eexists. split; [reflexivity |]. split; [| done].
      split; cbn; [exact Hp | done |]. apply map_eq. intros k.
      rewrite batch_puts by apply NoDup_fst_map_to_list. rewrite list_to_map_to_list, Hf.
      rewrite lookup_empty. now destruct (f_cache s !! k).
    + eexists. split; [reflexivity |]. split; [| done]. now split.
Qed.

Lemma fast_call_spec c s : fast_inv s -> exists s', fast_call c s = (Ok tt, s') /\
  fast_inv s' /\ f_cache s' = map_spec (f_cache s) c.
Proof.
  intros Hs. pose proof Hs as [Hp Ho Hf]. destruct c as [k v | k | b]; cbn [fast_call].
  - unfold fast_store, bind, modify, get. cbn. destruct (f_ldb_enabled s) eqn:E; rewrite ?E in *.
    + unfold on_ldb, level_store, bind, get, fc_assert, modify, ret. cbn. rewrite Ho. cbn.
      eexists. split; [reflexivity |]. split; [| done]. split; cbn; rewrite ?Ho, ?E, ?Hf; congruence.
    + eexists. split; [reflexivity |]. split; [| done]. split; cbn; rewrite ?Ho, ?E, ?Hf; congruence.
  - unfold fast_remove, bind, modify, get. cbn. destruct (f_ldb_enabled s) eqn:E; rewrite ?E in *.
    + unfold on_ldb, level_remove, bind, get, fc_assert, modify, ret. cbn. rewrite Ho. cbn.
      eexists. split; [reflexivity |]. split; [| done]. split; cbn; rewrite ?Ho, ?E, ?Hf; congruence.
    + eexists. split; [reflexivity |]. split; [| done]. split; cbn; rewrite ?Ho, ?E, ?Hf; congruence.
  - destruct (toggle_spec b s Hs) as (s' & R & Hs' & Hc & _). exists s'. done.
Qed.

Lemma fast_calls_spec calls : forall s, fast_inv s ->
  exists s', forM calls fast_call s = (Ok tt, s') /\ fast_inv s' /\
    f_cache s' = fold_left map_spec calls (f_cache s).
Proof.
  induction calls as [| c calls IH]; intros s Hs; cbn [for_each fold_left]; [now exists s |].
  destruct (fast_call_spec c s Hs) as (s1 & R1 & Hs1 & E1).
  destruct (IH s1 Hs1) as (s2 & R2 & Hs2 & E2). exists s2.
  now rewrite (bind_run_Ok _ _ _ _ _ R1), <- E1.
Qed.

(** fast_level_map refines a finite map that survives a restart, also when
    leveldb was switched off, its files deleted, and closing it must write
    them anew. *)
Lemma fast_level_map_durable files calls :
  exists s1 s2 s3 s4,
    fast_open (mkFast (mkLevelMap false files) false true ∅) = (Ok tt, s1) /\
    forM calls fast_call s1 = (Ok tt, s2) /\
    f_cache s2 = fold_left map_spec calls files /\
    fast_close s2 = (Ok tt, s3) /\
    lm_files (f_ldb s3) = fold_left map_spec calls files /\
    fast_open s3 = (Ok tt, s4) /\ f_cache s4 = fold_left map_spec calls files.
Proof.
  set (s1 := mkFast (mkLevelMap true files) true true (∅ ∪ files)).
  assert (fast_inv s1) as H1.
  { split; cbn; [done | done |]. now rewrite (left_id_L ∅ (∪)). }
  destruct (fast_calls_spec calls s1 H1) as (s2 & R2 & H2 & E2).
  cbn [f_cache s1] in E2. rewrite (left_id_L ∅ (∪)) in E2.
  destruct (toggle_spec true s2 H2) as (s3 & R3 & [Hp Ho Hf] & Hc & He).
  rewrite He in Ho, Hf. eexists s1, s2, _, _.
  split; [reflexivity |]. split; [exact R2 |]. split; [exact E2 |].
  assert (fast_close s2 = (Ok tt, mkFast (mkLevelMap false (lm_files (f_ldb s3))) false true ∅)).
  { unfold fast_close, bind at 1, get. rewrite (finv_path _ H2).
    destruct (f_ldb_enabled s2) eqn:E2e; cbn [negb].
    - unfold toggle_leveldb, bind at 1, get in R3.
      rewrite (finv_path _ H2), E2e in R3. cbn in R3. injection R3 as <-.
      unfold bind, ret, on_ldb, level_close, modify. cbn. now rewrite E2e.
    - rewrite bind_assoc_run with (1 := R3).
      unfold bind, ret, on_ldb, level_close, modify. cbn. now rewrite He. }
  split; [eassumption |]. cbn. rewrite Hf, Hc, E2. split; [done |]. split; [reflexivity |]. apply (left_id_L ∅ (∪)).
Qed.

End LevelMaps.
