(* ===== verification/ChainTables.v ===== *)
(** * The maps of the chain database (blockchain/ChainDatabase.cpp)

    The members of ChainDatabaseImpl that hold the entries, each a finite map
    (cached_level_map and fast_level_map refine one, see LevelMaps), and the
    ChainInterface members ChainDatabase implements over them.  The statistics
    indexes (_address_to_transaction_ids, recent operations) are written only
    and left out. *)

From S2P Require Import Prelude Asset Entries Names ChainInterface PendingChainState Undo.
From Stdlib Require Import ZArith Lia Bool String.
From stdpp Require Import base gmap strings list.

Local Open Scope Z_scope.

Record ChainTables := mkTables {
  tables : forall k, gmap (key_type k) (val_type k);
  t_account_name_to_id : gmap string AccountIdType;
  t_account_address_to_id : gmap Address AccountIdType;
  t_delegate_votes : gset VoteDel;
  t_asset_symbol_to_id : gmap string AssetIdType;
  t_unique_transactions : gset (Z * DigestType);
  t_slot_timestamp_to_delegate : gmap Z AccountIdType;
  t_contract_name_to_id : gmap string ContractIdType;
  t_head_block_num : Z;
  t_head_block_timestamp : Z
}.

Definition empty_tables : ChainTables := mkTables (fun _ => ∅) ∅ ∅ ∅ ∅ ∅ ∅ ∅ 0 0.

Definition set_table (f : forall k, gmap (key_type k) (val_type k)) (k : EntryKind)
    (m : gmap (key_type k) (val_type k)) : forall k, gmap (key_type k) (val_type k) :=
  fun k' => match decide (k = k') with
            | left E => eq_rect k (fun k => gmap (key_type k) (val_type k)) m k' E
            | right _ => f k'
            end.

Definition with_tables f (d : ChainTables) : ChainTables :=
  mkTables f (t_account_name_to_id d) (t_account_address_to_id d) (t_delegate_votes d)
    (t_asset_symbol_to_id d) (t_unique_transactions d) (t_slot_timestamp_to_delegate d)
    (t_contract_name_to_id d) (t_head_block_num d) (t_head_block_timestamp d).
Definition table_store k (id : key_type k) (v : val_type k) (d : ChainTables) : ChainTables :=
  with_tables (set_table (tables d) k (<[id := v]> (tables d k))) d.
Definition table_remove k (id : key_type k) (d : ChainTables) : ChainTables :=
  with_tables (set_table (tables d) k (delete id (tables d k))) d.

Section Tables.
Context `{ChainParams} `{Clock}.

Definition cdb_property_lookup_by_id (d : ChainTables) (id : PropertyIdType)
    : option PropertyEntry := tables d KProperty !! (id : key_type KProperty).
Definition cdb_property_insert_into_id_map (id : PropertyIdType) (entry : PropertyEntry)
    (d : ChainTables) : ChainTables := table_store KProperty id entry d.
Definition cdb_property_erase_from_id_map (id : PropertyIdType)
    (d : ChainTables) : ChainTables := table_remove KProperty id d.

Definition cdb_account_lookup_by_id (d : ChainTables) (id : AccountIdType)
    : option AccountEntry := tables d KAccount !! (id : key_type KAccount).
Definition cdb_account_insert_into_id_map (id : AccountIdType) (entry : AccountEntry)
    (d : ChainTables) : ChainTables := table_store KAccount id entry d.
Definition cdb_account_erase_from_id_map (id : AccountIdType)
    (d : ChainTables) : ChainTables := table_remove KAccount id d.

Definition cdb_asset_lookup_by_id (d : ChainTables) (id : AssetIdType)
    : option AssetEntry := tables d KAsset !! (id : key_type KAsset).
Definition cdb_asset_insert_into_id_map (id : AssetIdType) (entry : AssetEntry)
    (d : ChainTables) : ChainTables := table_store KAsset id entry d.
Definition cdb_asset_erase_from_id_map (id : AssetIdType)
    (d : ChainTables) : ChainTables := table_remove KAsset id d.

Definition cdb_slate_lookup_by_id (d : ChainTables) (id : SlateIdType)
    : option SlateEntry := tables d KSlate !! (id : key_type KSlate).
Definition cdb_slate_insert_into_id_map (id : SlateIdType) (entry : SlateEntry)
    (d : ChainTables) : ChainTables := table_store KSlate id entry d.
Definition cdb_slate_erase_from_id_map (id : SlateIdType)
    (d : ChainTables) : ChainTables := table_remove KSlate id d.

Definition cdb_balance_lookup_by_id (d : ChainTables) (id : BalanceIdType)
    : option BalanceEntry := tables d KBalance !! (id : key_type KBalance).
Definition cdb_balance_insert_into_id_map (id : BalanceIdType) (entry : BalanceEntry)
    (d : ChainTables) : ChainTables := table_store KBalance id entry d.
Definition cdb_balance_erase_from_id_map (id : BalanceIdType)
    (d : ChainTables) : ChainTables := table_remove KBalance id d.

Definition cdb_transaction_lookup_by_id (d : ChainTables) (id : TransactionIdType)
    : option TransactionEntry := tables d KTransaction !! (id : key_type KTransaction).
Definition cdb_transaction_insert_into_id_map (id : TransactionIdType) (entry : TransactionEntry)
    (d : ChainTables) : ChainTables := table_store KTransaction id entry d.
Definition cdb_transaction_erase_from_id_map (id : TransactionIdType)
    (d : ChainTables) : ChainTables := table_remove KTransaction id d.

Definition cdb_slot_lookup_by_index (d : ChainTables) (id : SlotIndex)
    : option SlotEntry := tables d KSlot !! (id : key_type KSlot).
Definition cdb_slot_insert_into_index_map (id : SlotIndex) (entry : SlotEntry)
    (d : ChainTables) : ChainTables := table_store KSlot id entry d.
Definition cdb_slot_erase_from_index_map (id : SlotIndex)
    (d : ChainTables) : ChainTables := table_remove KSlot id d.

Definition cdb_contract_lookup_by_id (d : ChainTables) (id : ContractIdType)
    : option ContractEntry := tables d KContract !! (id : key_type KContract).
Definition cdb_contract_insert_into_id_map (id : ContractIdType) (entry : ContractEntry)
    (d : ChainTables) : ChainTables := table_store KContract id entry d.
Definition cdb_contract_erase_from_id_map (id : ContractIdType)
    (d : ChainTables) : ChainTables := table_remove KContract id d.

Definition cdb_contract_lookup_resultid_by_reqestid (d : ChainTables) (id : TransactionIdType)
    : option ResultTIdEntry := tables d KResult !! (id : key_type KResult).
Definition cdb_contract_store_resultid_by_reqestid (id : TransactionIdType) (entry : ResultTIdEntry)
    (d : ChainTables) : ChainTables := table_store KResult id entry d.
Definition cdb_contract_erase_resultid_by_reqestid (id : TransactionIdType)
    (d : ChainTables) : ChainTables := table_remove KResult id d.

Definition cdb_contract_lookup_requestid_by_resultid (d : ChainTables) (id : TransactionIdType)
    : option RequestIdEntry := tables d KRequest !! (id : key_type KRequest).
Definition cdb_contract_store_requestid_by_resultid (id : TransactionIdType) (entry : RequestIdEntry)
    (d : ChainTables) : ChainTables := table_store KRequest id entry d.
Definition cdb_contract_erase_requestid_by_resultid (id : TransactionIdType)
    (d : ChainTables) : ChainTables := table_remove KRequest id d.

Definition cdb_contract_lookup_contractid_by_trxid (d : ChainTables) (id : TransactionIdType)
    : option ContractinTrxEntry := tables d KContractinTrx !! (id : key_type KContractinTrx).
Definition cdb_contract_store_contractid_by_trxid (id : TransactionIdType) (entry : ContractinTrxEntry)
    (d : ChainTables) : ChainTables := table_store KContractinTrx id entry d.
Definition cdb_contract_erase_contractid_by_trxid (id : TransactionIdType)
    (d : ChainTables) : ChainTables := table_remove KContractinTrx id d.

Definition cdb_contract_lookup_trxid_by_contract_id (d : ChainTables) (id : ContractIdType)
    : option ContractTrxEntry := tables d KContractTrx !! (id : key_type KContractTrx).
Definition cdb_contract_store_trxid_by_contractid (id : ContractIdType) (entry : ContractTrxEntry)
    (d : ChainTables) : ChainTables := table_store KContractTrx id entry d.
Definition cdb_contract_erase_trxid_by_contract_id (id : ContractIdType)
    (d : ChainTables) : ChainTables := table_remove KContractTrx id d.

Definition cdb_contractstorage_lookup_by_id (d : ChainTables) (id : ContractIdType)
    : option ContractStorageEntry := tables d KStorage !! (id : key_type KStorage).
Definition cdb_contractstorage_insert_into_id_map (id : ContractIdType) (entry : ContractStorageEntry)
    (d : ChainTables) : ChainTables := table_store KStorage id entry d.
Definition cdb_contractstorage_erase_from_id_map (id : ContractIdType)
    (d : ChainTables) : ChainTables := table_remove KStorage id d.

(** ** Secondary indexes *)

(** UniqueTransactionKey *)
Definition unique_key (trx : SignedTransaction) : Z * DigestType :=
  (expiration trx, trx_digest trx get_chain_id).

Definition cdb_account_lookup_by_name (d : ChainTables) (name : string)
    : result (option AccountEntry) :=
  Ok (match t_account_name_to_id d !! name with
      | Some id => cdb_account_lookup_by_id d id
      | None => None
      end).
Definition cdb_account_lookup_by_address (d : ChainTables) (addr : Address)
    : result (option AccountEntry) :=
  Ok (match t_account_address_to_id d !! addr with
      | Some id => cdb_account_lookup_by_id d id
      | None => None
      end).
Definition cdb_asset_lookup_by_symbol (d : ChainTables) (symbol : string)
    : result (option AssetEntry) :=
  Ok (match t_asset_symbol_to_id d !! symbol with
      | Some id => cdb_asset_lookup_by_id d id
      | None => None
      end).
Definition cdb_slot_lookup_by_timestamp (d : ChainTables) (timestamp : time_point_sec)
    : result (option SlotEntry) :=
  Ok (match t_slot_timestamp_to_delegate d !! timestamp with
      | Some delegate_id => cdb_slot_lookup_by_index d (mkSlotIndex delegate_id timestamp)
      | None => None
      end).
Definition cdb_contract_lookup_by_name (d : ChainTables) (name : string)
    : result (option ContractEntry) :=
  Ok (match t_contract_name_to_id d !! name with
      | Some id => cdb_contract_lookup_by_id d id
      | None => None
      end).

Definition cdb_account_insert_into_name_map (name : string) (id : AccountIdType) (d : ChainTables)
    : ChainTables :=
  mkTables (tables d) (<[name := id]> (t_account_name_to_id d)) (t_account_address_to_id d)
    (t_delegate_votes d) (t_asset_symbol_to_id d) (t_unique_transactions d)
    (t_slot_timestamp_to_delegate d) (t_contract_name_to_id d) (t_head_block_num d)
    (t_head_block_timestamp d).
Definition cdb_account_erase_from_name_map (name : string) (d : ChainTables)
    : ChainTables :=
  mkTables (tables d) (delete name (t_account_name_to_id d)) (t_account_address_to_id d)
    (t_delegate_votes d) (t_asset_symbol_to_id d) (t_unique_transactions d)
    (t_slot_timestamp_to_delegate d) (t_contract_name_to_id d) (t_head_block_num d)
    (t_head_block_timestamp d).
Definition cdb_account_insert_into_address_map (addr : Address) (id : AccountIdType) (d : ChainTables)
    : ChainTables :=
  mkTables (tables d) (t_account_name_to_id d) (<[addr := id]> (t_account_address_to_id d))
    (t_delegate_votes d) (t_asset_symbol_to_id d) (t_unique_transactions d)
    (t_slot_timestamp_to_delegate d) (t_contract_name_to_id d) (t_head_block_num d)
    (t_head_block_timestamp d).
Definition cdb_account_erase_from_address_map (addr : Address) (d : ChainTables)
    : ChainTables :=
  mkTables (tables d) (t_account_name_to_id d) (delete addr (t_account_address_to_id d))
    (t_delegate_votes d) (t_asset_symbol_to_id d) (t_unique_transactions d)
    (t_slot_timestamp_to_delegate d) (t_contract_name_to_id d) (t_head_block_num d)
    (t_head_block_timestamp d).
Definition cdb_account_insert_into_vote_set (vote : VoteDel) (d : ChainTables)
    : ChainTables :=
  mkTables (tables d) (t_account_name_to_id d) (t_account_address_to_id d)
    ({[ vote ]} ∪ t_delegate_votes d) (t_asset_symbol_to_id d) (t_unique_transactions d)
    (t_slot_timestamp_to_delegate d) (t_contract_name_to_id d) (t_head_block_num d)
    (t_head_block_timestamp d).
Definition cdb_account_erase_from_vote_set (vote : VoteDel) (d : ChainTables)
    : ChainTables :=
  mkTables (tables d) (t_account_name_to_id d) (t_account_address_to_id d)
    (t_delegate_votes d ∖ {[ vote ]}) (t_asset_symbol_to_id d) (t_unique_transactions d)
    (t_slot_timestamp_to_delegate d) (t_contract_name_to_id d) (t_head_block_num d)
    (t_head_block_timestamp d).
Definition cdb_asset_insert_into_symbol_map (symbol : string) (id : AssetIdType) (d : ChainTables)
    : ChainTables :=
  mkTables (tables d) (t_account_name_to_id d) (t_account_address_to_id d)
    (t_delegate_votes d) (<[symbol := id]> (t_asset_symbol_to_id d))
    (t_unique_transactions d) (t_slot_timestamp_to_delegate d) (t_contract_name_to_id d)
    (t_head_block_num d) (t_head_block_timestamp d).
Definition cdb_asset_erase_from_symbol_map (symbol : string) (d : ChainTables)
    : ChainTables :=
  mkTables (tables d) (t_account_name_to_id d) (t_account_address_to_id d)
    (t_delegate_votes d) (delete symbol (t_asset_symbol_to_id d)) (t_unique_transactions d)
    (t_slot_timestamp_to_delegate d) (t_contract_name_to_id d) (t_head_block_num d)
    (t_head_block_timestamp d).
Definition cdb_transaction_insert_into_unique_set (trx : SignedTransaction) (d : ChainTables)
    : ChainTables :=
  mkTables (tables d) (t_account_name_to_id d) (t_account_address_to_id d)
    (t_delegate_votes d) (t_asset_symbol_to_id d)
    ({[ unique_key trx ]} ∪ t_unique_transactions d) (t_slot_timestamp_to_delegate d)
    (t_contract_name_to_id d) (t_head_block_num d) (t_head_block_timestamp d).
Definition cdb_transaction_erase_from_unique_set (trx : SignedTransaction) (d : ChainTables)
    : ChainTables :=
  mkTables (tables d) (t_account_name_to_id d) (t_account_address_to_id d)
    (t_delegate_votes d) (t_asset_symbol_to_id d)
    (t_unique_transactions d ∖ {[ unique_key trx ]}) (t_slot_timestamp_to_delegate d)
    (t_contract_name_to_id d) (t_head_block_num d) (t_head_block_timestamp d).
Definition cdb_slot_insert_into_timestamp_map (timestamp : time_point_sec) (delegate_id : AccountIdType) (d : ChainTables)
    : ChainTables :=
  mkTables (tables d) (t_account_name_to_id d) (t_account_address_to_id d)
    (t_delegate_votes d) (t_asset_symbol_to_id d) (t_unique_transactions d)
    (<[timestamp := delegate_id]> (t_slot_timestamp_to_delegate d))
    (t_contract_name_to_id d) (t_head_block_num d) (t_head_block_timestamp d).
Definition cdb_slot_erase_from_timestamp_map (timestamp : time_point_sec) (d : ChainTables)
    : ChainTables :=
  mkTables (tables d) (t_account_name_to_id d) (t_account_address_to_id d)
    (t_delegate_votes d) (t_asset_symbol_to_id d) (t_unique_transactions d)
    (delete timestamp (t_slot_timestamp_to_delegate d)) (t_contract_name_to_id d)
    (t_head_block_num d) (t_head_block_timestamp d).
Definition cdb_contract_insert_into_name_map (name : string) (id : ContractIdType) (d : ChainTables)
    : ChainTables :=
  mkTables (tables d) (t_account_name_to_id d) (t_account_address_to_id d)
    (t_delegate_votes d) (t_asset_symbol_to_id d) (t_unique_transactions d)
    (t_slot_timestamp_to_delegate d) (<[name := id]> (t_contract_name_to_id d))
    (t_head_block_num d) (t_head_block_timestamp d).
Definition cdb_contract_erase_from_name_map (name : string) (d : ChainTables)
    : ChainTables :=
  mkTables (tables d) (t_account_name_to_id d) (t_account_address_to_id d)
    (t_delegate_votes d) (t_asset_symbol_to_id d) (t_unique_transactions d)
    (t_slot_timestamp_to_delegate d) (delete name (t_contract_name_to_id d))
    (t_head_block_num d) (t_head_block_timestamp d).

(** ChainDatabase::is_known_transaction and now *)
Definition cdb_is_known_transaction (d : ChainTables) (trx : SignedTransaction) : bool :=
  bool_decide (unique_key trx ∈ t_unique_transactions d).
Definition cdb_now (d : ChainTables) : Z :=
  if t_head_block_num d <=? 0
  then get_slot_start (wrap_u32 (get_slot_number blockchain_now - 1))
  else t_head_block_timestamp d.

(** ** The interface *)

Definition cdb_db_lookup (k : EntryKind) : ChainTables -> key_type k -> option (val_type k) :=
  match k with
  | KProperty => cdb_property_lookup_by_id
  | KAccount => cdb_account_lookup_by_id
  | KAsset => cdb_asset_lookup_by_id
  | KSlate => cdb_slate_lookup_by_id
  | KBalance => cdb_balance_lookup_by_id
  | KTransaction => cdb_transaction_lookup_by_id
  | KSlot => cdb_slot_lookup_by_index
  | KContract => cdb_contract_lookup_by_id
  | KStorage => cdb_contractstorage_lookup_by_id
  | KResult => cdb_contract_lookup_resultid_by_reqestid
  | KRequest => cdb_contract_lookup_requestid_by_resultid
  | KContractinTrx => cdb_contract_lookup_contractid_by_trxid
  | KContractTrx => cdb_contract_lookup_trxid_by_contract_id
  end.

Definition cdb_db_insert (k : EntryKind)
    : key_type k -> val_type k -> ChainTables -> ChainTables :=
  match k with
  | KProperty => cdb_property_insert_into_id_map
  | KAccount => cdb_account_insert_into_id_map
  | KAsset => cdb_asset_insert_into_id_map
  | KSlate => cdb_slate_insert_into_id_map
  | KBalance => cdb_balance_insert_into_id_map
  | KTransaction => cdb_transaction_insert_into_id_map
  | KSlot => cdb_slot_insert_into_index_map
  | KContract => cdb_contract_insert_into_id_map
  | KStorage => cdb_contractstorage_insert_into_id_map
  | KResult => cdb_contract_store_resultid_by_reqestid
  | KRequest => cdb_contract_store_requestid_by_resultid
  | KContractinTrx => cdb_contract_store_contractid_by_trxid
  | KContractTrx => cdb_contract_store_trxid_by_contractid
  end.

Definition cdb_db_erase (k : EntryKind) : key_type k -> ChainTables -> ChainTables :=
  match k with
  | KProperty => cdb_property_erase_from_id_map
  | KAccount => cdb_account_erase_from_id_map
  | KAsset => cdb_asset_erase_from_id_map
  | KSlate => cdb_slate_erase_from_id_map
  | KBalance => cdb_balance_erase_from_id_map
  | KTransaction => cdb_transaction_erase_from_id_map
  | KSlot => cdb_slot_erase_from_index_map
  | KContract => cdb_contract_erase_from_id_map
  | KStorage => cdb_contractstorage_erase_from_id_map
  | KResult => cdb_contract_erase_resultid_by_reqestid
  | KRequest => cdb_contract_erase_requestid_by_resultid
  | KContractinTrx => cdb_contract_erase_contractid_by_trxid
  | KContractTrx => cdb_contract_erase_trxid_by_contract_id
  end.

Definition cdb_db_index (w : IndexWrite) : ChainTables -> ChainTables :=
  match w with
  | InsertName n id => cdb_account_insert_into_name_map n id
  | EraseName n => cdb_account_erase_from_name_map n
  | InsertAddress a id => cdb_account_insert_into_address_map a id
  | EraseAddress a => cdb_account_erase_from_address_map a
  | InsertVote v => cdb_account_insert_into_vote_set v
  | EraseVote v => cdb_account_erase_from_vote_set v
  | InsertSymbol s id => cdb_asset_insert_into_symbol_map s id
  | EraseSymbol s => cdb_asset_erase_from_symbol_map s
  | InsertUnique trx => cdb_transaction_insert_into_unique_set trx
  | EraseUnique trx => cdb_transaction_erase_from_unique_set trx
  | InsertTimestamp t d => cdb_slot_insert_into_timestamp_map t d
  | EraseTimestamp t => cdb_slot_erase_from_timestamp_map t
  | InsertContractName n id => cdb_contract_insert_into_name_map n id
  | EraseContractName n => cdb_contract_erase_from_name_map n
  end.

#[export] Instance chain_tables_interface : ChainInterface ChainTables := {|
  db_lookup := cdb_db_lookup;
  db_insert := cdb_db_insert;
  db_erase := cdb_db_erase;
  db_index := cdb_db_index;
  account_lookup_by_name := cdb_account_lookup_by_name;
  account_lookup_by_address := cdb_account_lookup_by_address;
  asset_lookup_by_symbol := cdb_asset_lookup_by_symbol;
  slot_lookup_by_timestamp := cdb_slot_lookup_by_timestamp;
  contract_lookup_by_name := cdb_contract_lookup_by_name;
  is_known_transaction := cdb_is_known_transaction;
  get_head_block_num := t_head_block_num;
  get_head_block_timestamp := t_head_block_timestamp;
  now := cdb_now
|}.

(** ** The maps keep the promises of the interface, for every kind *)

Lemma set_table_eq f k m : set_table f k m k = m.
Proof.
  unfold set_table. destruct (decide (k = k)) as [E |]; [| contradiction].
  now rewrite (proof_irrel E eq_refl).
Qed.

Lemma set_table_ne f k k' m : k <> k' -> set_table f k m k' = f k'.
Proof. intros. unfold set_table. destruct (decide (k = k')); [contradiction | done]. Qed.

Lemma cdb_lookup_table k d key : cdb_db_lookup k d key = tables d k !! key.
Proof. now destruct k. Qed.
Lemma cdb_insert_table k key v d : cdb_db_insert k key v d = table_store k key v d.
Proof. now destruct k. Qed.
Lemma cdb_erase_table k key d : cdb_db_erase k key d = table_remove k key d.
Proof. now destruct k. Qed.
Lemma cdb_index_tables w d : tables (cdb_db_index w d) = tables d.
Proof. now destruct w. Qed.

#[export] Program Instance chain_tables_laws : ChainInterfaceLaws ChainTables :=
  {| lawful_kind := fun _ => true |}.
Next Obligation.
  intros. cbn. rewrite cdb_lookup_table, cdb_insert_table. cbn.
  now rewrite set_table_eq, lookup_insert_eq.
Qed.
Next Obligation.
  intros. cbn. rewrite !cdb_lookup_table, cdb_insert_table. cbn.
  now rewrite set_table_eq, lookup_insert_ne.
Qed.
Next Obligation.
  intros. cbn. rewrite !cdb_lookup_table, cdb_insert_table. cbn. now rewrite set_table_ne.
Qed.
Next Obligation.
  intros. cbn. rewrite cdb_lookup_table, cdb_erase_table. cbn.
  now rewrite set_table_eq, lookup_delete_eq.
Qed.
Next Obligation.
  intros. cbn. rewrite !cdb_lookup_table, cdb_erase_table. cbn.
  now rewrite set_table_eq, lookup_delete_ne.
Qed.
Next Obligation.
  intros. cbn. rewrite !cdb_lookup_table, cdb_erase_table. cbn. now rewrite set_table_ne.
Qed.
Next Obligation.
  intros. cbn. now rewrite !cdb_lookup_table, cdb_index_tables.
Qed.

End Tables.

(** ** A sample chain state *)

#[local] Instance reference_params : ChainParams := {|
  address_of_key := fun k => 1000 + k;
  pts_address_of_key := fun k compressed version => 1000 + k;
  recover_key := fun sig digest canonical => Ok sig;
  condition_address := fun c => cond_asset_id c + 1000 * cond_slate_id c
                                + match cond_data c with
                                  | WithdrawWithSignature o _ => 1000000 * o
                                  | _ => 0
                                  end;
  slate_hash := fun s => set_fold Z.add 17 s;
  trx_digest := fun trx c => expiration trx + c;
  trx_id := fun trx => expiration trx;
  trx_data_size := fun trx => 100 * Z.of_nat (List.length (operations trx));
  operation_hash := op_type;
  register_contract_hash := fun o => rc_register_time o;
  code_sha1 := fun bytes => "";
  uint128_div_zero := fun _ => Err overflow_exception;
  get_chain_id := 42;
  get_statistics_enabled := true
|}.
#[local] Instance reference_clock : Clock := {| blockchain_now := 1500000000 |}.

Definition sample_account (id : Z) (name : string) : AccountEntry :=
  mkAccountEntry id name VNull (id + 100) {[ 1 := id + 200 ]} 1 1
    (Some (mkDelegateStats 10 50 {[ 0 := id + 300 ]} 0 None 0 0 0 0 0)) None.
Definition sample_balance (owner amount : Z) : BalanceEntry :=
  mkBalanceEntry (mkWithdrawCondition 0 0 withdraw_common_type (WithdrawWithSignature owner None))
    amount None None 1 1 VNull.

Definition sample_tables : ChainTables :=
  table_store KAccount 5 (sample_account 5 "alice")
    (table_store KBalance 7 (sample_balance 1205 100) empty_tables).

(** A pending state over it: an updated account, a new balance, a spent one. *)
Definition sample_pending : PendingChainState ChainTables :=
  let p := new_pending (Some sample_tables) in
  let p := overlay_insert KAccount 5 (sample_account 5 "alice2") p in
  let p := overlay_insert KBalance 9 (sample_balance 1206 60) p in
  overlay_erase KBalance 7 p.

Lemma sample_account_wf id name : account_wf (sample_account id name).
Proof. split; [discriminate | intros d [= <-]; discriminate]. Qed.

Lemma sample_tables_wf : view_wf sample_tables.
Proof.
  intros k key v _. destruct k; try (intros; exact I).
  change (tables sample_tables KAccount !! key = Some v -> account_wf v).
  change (tables sample_tables KAccount) with
    (<[5 := sample_account 5 "alice"]> ∅ : gmap Z AccountEntry).
  intros [[_ <-] | [_ E]]%lookup_insert_Some; [apply sample_account_wf | discriminate E].
Qed.

Lemma sample_pending_wf : overlay_wf sample_pending.
Proof.
  intros k key v. destruct k; try (intros; exact I).
  change (to_entry (overlay sample_pending KAccount)) with
    (<[5 := sample_account 5 "alice2"]> ∅ : gmap Z AccountEntry).
  intros [[_ <-] | [_ E]]%lookup_insert_Some; [apply sample_account_wf | discriminate E].
Qed.

Lemma account_kind_lawful : lawful_kind (S := ChainTables) KAccount = true.
Proof. reflexivity. Qed.

Lemma apply_changes_refines_witness :
  exists prev', apply_changes sample_pending = (Ok tt, Some prev') /\
    cdb_account_lookup_by_id prev' 5 = Some (sample_account 5 "alice2") /\
    cdb_balance_lookup_by_id prev' 7 = None.
Proof.
  destruct (apply_changes_refines account_kind_lawful sample_pending sample_tables eq_refl sample_pending_wf sample_tables_wf) as (prev' & Ha & _ & Hl).
  exists prev'. split; [exact Ha |]. split.
  - exact (Hl KAccount 5 eq_refl eq_refl).
  - exact (Hl KBalance 7 eq_refl eq_refl).
Defined.

Lemma undo_roundtrip_witness :
  exists undo prev' prev'',
    get_undo_state sample_pending (new_pending (Some sample_pending)) = (Ok tt, undo) /\
    apply_changes (set_prev_state (Some prev') undo)
      = (Ok tt, Some prev'') /\
    cdb_account_lookup_by_id prev'' 5 = Some (sample_account 5 "alice") /\
    cdb_balance_lookup_by_id prev'' 9 = None.
Proof.
  destruct (undo_roundtrip account_kind_lawful sample_pending sample_tables eq_refl sample_pending_wf sample_tables_wf) as (undo & p1 & p2 & Hu & _ & Ha & Hl).
  exists undo, p1, p2. split; [exact Hu |]. split; [exact Ha |]. split.
  - exact (Hl KAccount 5 eq_refl eq_refl eq_refl).
  - exact (Hl KBalance 9 eq_refl eq_refl eq_refl).
Defined.

(** Contract storage is not undone: a storage first written for a contract
    that existed before stays in the database. *)
Definition undone (p : PendingChainState ChainTables) : option ChainTables :=
  match get_undo_state (S := PendingChainState (PendingChainState ChainTables)) p
          (new_pending (Some p)), apply_changes p with
  | (Ok _, undo), (Ok _, Some applied) => snd (apply_changes (set_prev_state (Some applied) undo))
  | _, _ => None
  end.

Definition sample_contract : ContractEntry :=
  mkContractEntry "token" 3 contract_level_forever 9 contract_state_valid ""
    (mkCode ∅ ∅ ∅ ∅ [] "") None 0 0.

Example undo_keeps_new_storage :
  let prev := table_store KContract 3 sample_contract empty_tables in
  let storage := mkContractStorageEntry 3 ∅ in
  let p := pcs_contractstorage_insert_into_id_map 3 storage (new_pending (Some prev)) in
  cdb_contractstorage_lookup_by_id prev 3 = None /\
  option_map (fun d => cdb_contractstorage_lookup_by_id d 3) (undone p) = Some (Some storage).
Proof. split; vm_compute; reflexivity. Qed.

(** Nor is a contract's name: removing the entry keeps the name map, so the
    name of an undone contract still resolves to its identifier. *)
Example undo_keeps_contract_name :
  let p := snd (entry_store (S := PendingChainState ChainTables) KContract 3 sample_contract
                  (new_pending (Some empty_tables))) in
  option_map (fun d => (t_contract_name_to_id d !! "token"%string, cdb_contract_lookup_by_id d 3))
    (undone p) = Some (Some 3, None).
Proof. vm_compute. reflexivity. Qed.
