(* ===== verification/Delegates.v ===== *)
(** * Delegates: slots, production and pay (blockchain/ChainDatabase.cpp)

    Which delegate signs which slot, how the list of active delegates is
    chosen and shuffled, and what a block does to the delegates' entries.
    [self] is the chain state below the pending state of the block. *)

From Stdlib Require Import ZArith Lia Bool String.
From stdpp Require Import base gmap strings list sorting.
From S2P Require Import Prelude Asset Entries Names ChainInterface ChainState AssetEntry.
From S2P Require Import Blocks PendingChainState ChainTables.

Local Open Scope Z_scope.

(** ** Votes *)

(** VoteDel's operator < : most votes first, the lowest id wins in ties. *)
Definition vote_before (a b : VoteDel) : Prop :=
  vote_votes b < vote_votes a \/ vote_votes a = vote_votes b /\ vote_delegate_id a <= vote_delegate_id b.
#[export] Instance vote_before_dec : RelDecision vote_before.
Proof. intros a b. unfold vote_before. apply _. Defined.
#[export] Instance vote_before_total : Total vote_before.
Proof. intros a b. unfold vote_before. lia. Qed.
#[export] Instance vote_before_trans : Transitive vote_before.
Proof. intros a b c. unfold vote_before. lia. Qed.

(** The elements of the std::set in its order. *)
Definition ordered_votes (votes : gset VoteDel) : list VoteDel :=
  merge_sort vote_before (elements votes).

Fixpoint pick_votes (first count : nat) (l : list VoteDel) : list AccountIdType :=
  match count, l with
  | O, _ | _, [] => []
  | Datatypes.S c, v :: l' =>
      match first with
      | O => vote_delegate_id v :: pick_votes 0 c l'
      | Datatypes.S f => pick_votes f count l'
      end
  end.
Definition get_delegates_by_vote (self : ChainTables) (first count : Z) : list AccountIdType :=
  let count := Z.min count (Z.of_nat (size (t_delegate_votes self))) in
  pick_votes (Z.to_nat first) (Z.to_nat count) (ordered_votes (t_delegate_votes self)).
Definition get_all_delegates_by_vote (self : ChainTables) : list AccountIdType :=
  map vote_delegate_id (ordered_votes (t_delegate_votes self)).
Definition next_round_active_delegates (self : ChainTables) : list AccountIdType :=
  get_delegates_by_vote self 0 ALP_BLOCKCHAIN_NUM_DELEGATES.

(** std::swap( l[i], l[j] ) *)
Definition swap (i j : nat) (l : list AccountIdType) : list AccountIdType :=
  match l !! i, l !! j with
  | Some a, Some b => <[j := a]> (<[i := b]> l)
  | _, _ => l
  end.

Section Delegates.
Context `{ChainParams} `{BlockParams} `{Clock}.

(** ** Shuffling *)

(** The x-th word of the hash picks from the elements that are left; after
    four words the hash is hashed again. *)
Fixpoint shuffle (rounds i : nat) (x : Z) (rand_seed : Z) (active_del : list AccountIdType)
    : list AccountIdType :=
  match rounds with
  | O => active_del
  | Datatypes.S n =>
      let choices := wrap_u32 (Z.of_nat (List.length active_del) - Z.of_nat i) in
      let j := (Z.to_nat (hash_word rand_seed x mod choices) + i)%nat in
      let x' := Z.land (x + 1) 3 in
      shuffle n (Datatypes.S i) x' (if x' =? 0 then rehash rand_seed else rand_seed)
        (swap i j active_del)
  end.

Context {S : Type} `{ChainInterface S}.

Definition update_active_delegate_list (self : ChainTables) (block_num : Z) : M S unit :=
  if negb (block_num mod ALP_BLOCKCHAIN_NUM_DELEGATES =? 0) then ret tt
  else
    let active_del := next_round_active_delegates self in
    db <- get ;;
    seed <- lift_result (get_current_random_seed db) ;;
    set_active_delegates
      (shuffle (List.length active_del) 0 0 (seed_hash seed) active_del).

Definition update_random_seed (new_secret : SecretHashType) : M S unit :=
  db <- get ;;
  current_seed <- lift_result (get_current_random_seed db) ;;
  store_property_entry last_random_seed_id (VHash (mix_seed new_secret current_seed)).

(** ** Slots *)

Definition get_delegate_entry_for_signee (self : ChainTables) (block_signee : PublicKeyType)
    : result AccountEntry :=
  let! entry := get_account_entry_by_address self (address_of_key block_signee) in
  match entry with
  | Some a => if is_delegate a then Ok a else Err assert_exception
  | None => Err assert_exception
  end.

Definition slot_position (timestamp : time_point_sec) : Z :=
  get_slot_number timestamp mod ALP_BLOCKCHAIN_NUM_DELEGATES.

Definition get_slot_signee (self : ChainTables) (timestamp : time_point_sec)
    (ordered_delegates : list AccountIdType) : result AccountEntry :=
  match ordered_delegates !! Z.to_nat (slot_position timestamp) with
  | None => Err assert_exception
  | Some delegate_id =>
      match get_account_entry self delegate_id with
      | Some a => if is_delegate a then Ok a else Err assert_exception
      | None => Err assert_exception
      end
  end.

(** The slots from [next] to [last]. *)
Fixpoint producible_slot (fuel : nat) (delegate_ids active : list AccountIdType) (next last : Z)
    : result (option Z) :=
  if last <=? next then Ok None
  else match fuel with
       | O => Err does_not_return
       | Datatypes.S n =>
           match active !! Z.to_nat (slot_position next) with
           | None => Err assert_exception
           | Some id =>
               if bool_decide (id ∈ delegate_ids) then Ok (Some next)
               else producible_slot n delegate_ids active
                      (wrap_u32 (next + ALP_BLOCKCHAIN_BLOCK_INTERVAL_SEC)) last
           end
       end.
Definition next_slot (self : ChainTables) : time_point_sec :=
  let start := get_slot_start_time blockchain_now in
  if start <=? cdb_now self then wrap_u32 (start + ALP_BLOCKCHAIN_BLOCK_INTERVAL_SEC) else start.
Definition get_next_producible_block_timestamp (self : ChainTables)
    (delegate_ids : list AccountIdType) : result (option time_point_sec) :=
  let next := next_slot self in
  let last := wrap_u32 (next + ALP_BLOCKCHAIN_NUM_DELEGATES * ALP_BLOCKCHAIN_BLOCK_INTERVAL_SEC) in
  let! active := get_active_delegates self in
  producible_slot (Z.to_nat ALP_BLOCKCHAIN_NUM_DELEGATES) delegate_ids active next last.

(** ** Production *)

Definition set_last_block_num_produced (x : Z) (d : DelegateStats) : DelegateStats :=
  mkDelegateStats (votes_for d) (pay_rate d) (signing_key_history d) x (next_secret_hash d)
    (pay_balance d) (total_paid d) (total_burned d) (blocks_produced d) (blocks_missed d).
Definition set_next_secret_hash (x : option SecretHashType) (d : DelegateStats) : DelegateStats :=
  mkDelegateStats (votes_for d) (pay_rate d) (signing_key_history d) (last_block_num_produced d) x
    (pay_balance d) (total_paid d) (total_burned d) (blocks_produced d) (blocks_missed d).

(** FC_ASSERT( entry.valid() && entry->is_delegate() ) *)
Definition delegate_of (o : option AccountEntry) : M S (AccountEntry * DelegateStats) :=
  match o with
  | Some a => match delegate_info a with Some d => ret (a, d) | None => throw assert_exception end
  | None => throw assert_exception
  end.

Definition produced (h : SignedBlockHeader) (d : DelegateStats) : DelegateStats :=
  set_last_block_num_produced (block_num h)
    (set_next_secret_hash (Some (hdr_next_secret_hash h))
       (set_blocks_produced (wrap_u32 (blocks_produced d + 1)) d)).

Fixpoint missed_slots (fuel : nat) (self : ChainTables) (active : list AccountIdType)
    (slot until : time_point_sec) (required_confirmations : Z) : M S Z :=
  if until <=? slot then ret required_confirmations
  else match fuel with
       | O => throw does_not_return
       | Datatypes.S n =>
           signee <- lift_result (get_slot_signee self slot active) ;;
           db <- get ;;
           ad <- delegate_of (get_account_entry db (account_id signee)) ;;
           let d := set_blocks_missed (wrap_u32 (blocks_missed (snd ad) + 1)) (snd ad) in
           store_account_entry (set_delegate_info (Some d) (fst ad)) ;;;
           when get_statistics_enabled
             (store_slot_entry (mkSlotEntry (mkSlotIndex (account_id signee) slot) None)) ;;;
           missed_slots n self active (wrap_u32 (slot + ALP_BLOCKCHAIN_BLOCK_INTERVAL_SEC)) until
             (wrap_u64 (required_confirmations + 2))
       end.

Definition clamp_confirmations (required_confirmations : Z) : Z :=
  let r := wrap_u64 (required_confirmations - 1) in
  let r := if r <? 1 then 1 else r in
  if 3 * ALP_BLOCKCHAIN_NUM_DELEGATES <? r then 3 * ALP_BLOCKCHAIN_NUM_DELEGATES else r.

Definition first_missed (self : ChainTables) (h : SignedBlockHeader) : time_point_sec :=
  if 0 <? t_head_block_num self
  then wrap_u32 (t_head_block_timestamp self + ALP_BLOCKCHAIN_BLOCK_INTERVAL_SEC)
  else timestamp h.
Definition slots_between (from until : time_point_sec) : nat :=
  Z.to_nat ((until - from) / ALP_BLOCKCHAIN_BLOCK_INTERVAL_SEC + 1).

Definition update_delegate_production_info (self : ChainTables) (h : SignedBlockHeader)
    (block_id : BlockIdType) (block_signee : PublicKeyType) : M S unit :=
  signee <- lift_result (get_delegate_entry_for_signee self block_signee) ;;
  db <- get ;;
  ad <- delegate_of (get_account_entry db (account_id signee)) ;;
  match next_secret_hash (snd ad) with
  | Some expected => fc_assert (hash_secret (previous_secret h) =? expected)
  | None => ret tt
  end ;;;
  store_account_entry (set_delegate_info (Some (produced h (snd ad))) (fst ad)) ;;;
  when get_statistics_enabled
    (store_slot_entry (mkSlotEntry (mkSlotIndex (account_id signee) (timestamp h)) (Some block_id))) ;;;
  required <- lift_result (get_required_confirmations self) ;;
  let from := first_missed self h in
  active <- lift_result (get_active_delegates self) ;;
  required <- missed_slots (slots_between from (timestamp h)) self active from (timestamp h) required ;;
  set_required_confirmations (clamp_confirmations required).

(** ** Pay *)

Definition blocks_per_two_weeks : Z := 14 * ALP_BLOCKCHAIN_BLOCKS_PER_DAY.

(** What a block adds to the supply, takes from the collected fees, and
    destroys of them. *)
Record Paycheck := mkPaycheck {
  accepted_new_shares : ShareType;
  max_collected_fees : ShareType;
  accepted_collected_fees : ShareType;
  destroyed_collected_fees : ShareType
}.
Definition accepted_paycheck (p : Paycheck) : ShareType :=
  wrap_i64 (accepted_new_shares p + accepted_collected_fees p).

Definition paycheck (head_block_num pay_rate_percent collected : Z) : Paycheck :=
  let max_new_shares := get_max_delegate_pay_issued_per_block head_block_num in
  let max_fees := Z.quot collected blocks_per_two_weeks in
  let accepted_fees := Z.quot (wrap_i64 (max_fees * pay_rate_percent)) 100 in
  mkPaycheck (Z.quot (wrap_i64 (max_new_shares * pay_rate_percent)) 100) max_fees accepted_fees
    (wrap_i64 (max_fees - accepted_fees)).

Definition pay_stats (p : Paycheck) (d : DelegateStats) : DelegateStats :=
  set_total_paid (wrap_i64 (total_paid d + accepted_paycheck p))
    (set_pay_balance (wrap_i64 (pay_balance d + accepted_paycheck p))
       (set_votes_for (wrap_i64 (votes_for d + accepted_paycheck p)) d)).
Definition pay_asset (p : Paycheck) (a : AssetEntry) : AssetEntry :=
  set_collected_fees (wrap_i64 (collected_fees a - max_collected_fees p))
    (set_current_share_supply
       (wrap_i64 (wrap_i64 (current_share_supply a + accepted_new_shares p)
                  - destroyed_collected_fees p)) a).

Definition pay_delegate (self : ChainTables) (block_signee : PublicKeyType) : M S unit :=
  db <- get ;;
  base_asset_entry <- valid_or (get_asset_entry db 0) assert_exception ;;
  delegate_entry <- lift_result (get_account_entry_by_address self (address_of_key block_signee)) ;;
  delegate_entry <- valid_or delegate_entry assert_exception ;;
  ad <- delegate_of (get_account_entry db (account_id delegate_entry)) ;;
  fc_assert ((0 <=? pay_rate (snd ad)) && (pay_rate (snd ad) <=? 100)) ;;;
  let p := paycheck (t_head_block_num self) (pay_rate (snd ad)) (collected_fees base_asset_entry) in
  fc_assert ((0 <=? max_collected_fees p) && (0 <=? accepted_collected_fees p)
             && (0 <=? destroyed_collected_fees p)) ;;;
  fc_assert (0 <=? accepted_paycheck p) ;;;
  store_account_entry (set_delegate_info (Some (pay_stats p (snd ad))) (fst ad)) ;;;
  store_asset_entry (pay_asset p base_asset_entry).
End Delegates.
