(* ===== verification/DelegateLists.v ===== *)
(** * The active delegates and their slots

    The list of active delegates is a shuffle of those with the most votes;
    every one of them signs one slot of a round; the next slot a node can
    produce is found. *)

From Stdlib Require Import ZArith Lia Bool String.
From stdpp Require Import base gmap strings list sorting.
From S2P Require Import Prelude Asset Entries Names ChainInterface ChainState AssetEntry.
From S2P Require Import Ledger QuietOperations Blocks PendingChainState ChainTables Delegates.

Local Open Scope Z_scope.

(** Slots in a round, seconds in a slot *)
Abbreviation round := ALP_BLOCKCHAIN_NUM_DELEGATES.
Abbreviation interval := ALP_BLOCKCHAIN_BLOCK_INTERVAL_SEC.

(** ** Votes *)

Lemma ordered_votes_perm votes : ordered_votes votes ≡ₚ elements votes.
Proof. apply merge_sort_Permutation. Qed.
Lemma ordered_votes_sorted votes : StronglySorted vote_before (ordered_votes votes).
Proof. apply StronglySorted_merge_sort; apply _. Qed.

Lemma pick_first n l : pick_votes 0 n l = map vote_delegate_id (take n l).
Proof.
  revert l. induction n as [| n IH]; intros [| v l]; try reflexivity. cbn. now rewrite IH.
Qed.

(** [top] are [n] votes no other vote comes before. *)
Definition top_votes (n : nat) (votes : gset VoteDel) (top : list VoteDel) : Prop :=
  List.length top = Nat.min n (size votes) /\
  exists rest, top ++ rest ≡ₚ elements votes /\ StronglySorted vote_before top /\
    forall v w, v ∈ top -> w ∈ rest -> vote_before v w.

Lemma next_round_top self :
  exists top, top_votes (Z.to_nat ALP_BLOCKCHAIN_NUM_DELEGATES) (t_delegate_votes self) top /\
    next_round_active_delegates self = map vote_delegate_id top.
Proof.
  set (votes := t_delegate_votes self). set (n := Z.to_nat ALP_BLOCKCHAIN_NUM_DELEGATES).
  assert (List.length (ordered_votes votes) = size votes) as Hlen
    by (rewrite (Permutation_length (ordered_votes_perm votes)); reflexivity).
  exists (take n (ordered_votes votes)). split; [split; [now rewrite length_take, Hlen |] |].
  - exists (drop n (ordered_votes votes)). rewrite take_drop.
    pose proof (ordered_votes_sorted votes) as Hs. rewrite <- (take_drop n) in Hs.
    split; [apply ordered_votes_perm | split; [now apply StronglySorted_app_1_l in Hs |]].
    intros v w. now apply StronglySorted_app_1_elem_of.
  - unfold next_round_active_delegates, get_delegates_by_vote. fold votes.
    rewrite pick_first. f_equal.
    replace (Z.to_nat (Z.min _ _)) with (Nat.min n (List.length (ordered_votes votes)))
      by (rewrite Hlen; unfold n; lia).
    destruct (Nat.min_spec n (List.length (ordered_votes votes))) as [[_ ->] | [Hle ->]];
      [reflexivity |]. now rewrite !take_ge by lia.
Qed.

(** ** Shuffling *)

Lemma swap_perm i j l : swap i j l ≡ₚ l.
Proof.
  unfold swap. destruct (l !! i) as [a |] eqn:Ei; [| reflexivity].
  destruct (l !! j) as [b |] eqn:Ej; [| reflexivity].
  destruct (decide (i = j)) as [-> | Hij].
  - assert (a = b) as -> by congruence. now rewrite !list_insert_id by (rewrite ?list_insert_id; assumption).
  - symmetry. apply Permutation_inj. rewrite !length_insert. split; [reflexivity |].
    assert (i < List.length l)%nat as Hi by (eapply lookup_lt_Some; eassumption).
    assert (j < List.length l)%nat as Hj by (eapply lookup_lt_Some; eassumption).
    exists (fun k => if decide (k = i) then j else if decide (k = j) then i else k). split.
    + intros x y. repeat case_decide; congruence.
    + intros k. repeat case_decide; subst.
      * now rewrite list_lookup_insert_eq by now rewrite length_insert.
      * rewrite list_lookup_insert_ne, list_lookup_insert_eq by congruence. assumption.
      * now rewrite !list_lookup_insert_ne by congruence.
Qed.

Section Lists.
Context `{ChainParams} `{BlockParams} `{Clock}.

Lemma shuffle_perm rounds : forall i x seed l, shuffle rounds i x seed l ≡ₚ l.
Proof.
  induction rounds as [| n IH]; intros i x seed l; cbn [shuffle]; [reflexivity |].
  now rewrite IH, swap_perm.
Qed.

Context {S : Type} `{HI : ChainInterface S} `{HL : !ChainInterfaceLaws S} `{LW : !LedgerLaws S}.

Lemma stored_property id v s a s' : store_property_entry id v s = (Ok a, s') ->
  get_property_entry s' id = Some (mkPropertyEntry id v) /\
  forall id', id' <> id -> get_property_entry s' id' = get_property_entry s id'.
Proof.
  intros R. apply (entry_store_writing KProperty) in R as [Hs Hk _]; [| reflexivity].
  split; [apply Hs | intros; apply Hk; [| assumption]]; now apply ledger_lawful.
Qed.

(** C32: At the end of a round the active delegates become a permutation of
    the delegates with the most votes, as many as a round has slots; within a
    round the list does not change. *)
Theorem active_delegates_elected self num (s : S) u s' :
  update_active_delegate_list self num s = (Ok u, s') ->
  (num mod ALP_BLOCKCHAIN_NUM_DELEGATES <> 0 -> s' = s) /\
  (num mod ALP_BLOCKCHAIN_NUM_DELEGATES = 0 -> exists top active,
     top_votes (Z.to_nat ALP_BLOCKCHAIN_NUM_DELEGATES) (t_delegate_votes self) top /\
     get_active_delegates s' = Ok active /\ active ≡ₚ map vote_delegate_id top).
Proof.
  unfold update_active_delegate_list. intros R.
  destruct (Z.eqb_spec (num mod ALP_BLOCKCHAIN_NUM_DELEGATES) 0) as [E | E]; cbn [negb] in R.
  - split; [intros []; exact E | intros _]. run_inv R.
    destruct (next_round_top self) as (top & Htop & Enext).
    match goal with Hs : set_active_delegates _ _ = _ |- _ => apply stored_property in Hs as [Hg _] end.
    eexists top, _. split; [exact Htop |].
    unfold get_active_delegates, property_or. rewrite Hg. split; [reflexivity |].
    rewrite <- Enext. apply shuffle_perm.
  - apply ret_Ok in R as [_ <-]. split; [reflexivity | intros E'; contradiction].
Qed.

(** ** Slots *)

Lemma slot_position_range t : 0 <= slot_position t < round.
Proof. apply Z.mod_pos_bound. reflexivity. Qed.

Lemma slot_position_next t k : slot_position (t + interval * k) = (t / interval + k) mod round.
Proof.
  unfold slot_position, get_slot_number. f_equal. rewrite Z.mul_comm. apply Z.div_add. easy.
Qed.

(** Every position of the list has its slot among [round] in a row. *)
Lemma slot_of_position t p : 0 <= p < round -> exists k, 0 <= k < round /\ slot_position (t + interval * k) = p.
Proof.
  intros Hp. exists ((p - t / interval) mod round). split; [apply Z.mod_pos_bound; reflexivity |].
  rewrite slot_position_next, Zplus_mod_idemp_r.
  replace (t / interval + (p - t / interval)) with p by lia. now apply Z.mod_small.
Qed.

Lemma slot_position_inj t k k' : 0 <= k < round -> 0 <= k' < round ->
  slot_position (t + interval * k) = slot_position (t + interval * k') -> k = k'.
Proof.
  rewrite !slot_position_next. set (q := t / interval). intros Hk Hk' E.
  pose proof (Z.div_mod (q + k) round ltac:(easy)) as E1.
  pose proof (Z.div_mod (q + k') round ltac:(easy)) as E2. rewrite E in E1.
  assert (round = 99) as EN by reflexivity. rewrite EN in *. lia.
Qed.

Lemma get_slot_signee_Ok self t active id a : active !! Z.to_nat (slot_position t) = Some id ->
  get_account_entry self id = Some a -> is_delegate a = true ->
  get_slot_signee self t active = Ok a.
Proof. unfold get_slot_signee. now intros -> -> ->. Qed.

(** Of [round] slots in a row each of the [round] active delegates signs exactly
    one. *)
Theorem one_slot_each self active t id : List.length active = Z.to_nat round -> NoDup active ->
  (forall i, i ∈ active -> exists a, get_account_entry self i = Some a /\ account_id a = i /\
     is_delegate a = true) ->
  id ∈ active ->
  exists! k, 0 <= k < round /\
    exists a, get_slot_signee self (t + interval * k) active = Ok a /\ account_id a = id.
Proof.
  intros Hlen Hn Hd Hid. apply list_elem_of_lookup in Hid as [i Hi].
  assert (0 <= Z.of_nat i < round) as Hp by (apply lookup_lt_Some in Hi; lia).
  destruct (slot_of_position t _ Hp) as (k & Hk & E). exists k. split.
  - split; [exact Hk |]. destruct (Hd id) as (a & Ha & Eid & Hda); [eapply list_elem_of_lookup_2, Hi |].
    exists a. split; [| exact Eid].
    apply (get_slot_signee_Ok _ _ _ id); [rewrite E, Nat2Z.id | | ]; assumption.
  - intros k' (Hk' & a & Ha & Eid). apply (slot_position_inj t); [exact Hk | exact Hk' |].
    rewrite E. unfold get_slot_signee in Ha.
    destruct (active !! Z.to_nat (slot_position (t + interval * k'))) as [i' |] eqn:Ei; [| discriminate].
    destruct (Hd i') as (a' & Ha' & Eid' & Hda); [eapply list_elem_of_lookup_2, Ei |].
    rewrite Ha', Hda in Ha. injection Ha as <-. rewrite <- Eid, Eid' in Hi.
    pose proof (NoDup_lookup _ _ _ _ Hn Hi Ei). pose proof (slot_position_range (t + interval * k')). lia.
Qed.

(** One of [ids] signs the slot at [t]. *)
Definition producible (ids active : list AccountIdType) (t : time_point_sec) : Prop :=
  exists id, active !! Z.to_nat (slot_position t) = Some id /\ id ∈ ids.

Lemma producible_slot_spec ids active n : List.length active = Z.to_nat round -> forall next,
  0 <= next -> next + interval * Z.of_nat n < 2 ^ 32 ->
  exists r, producible_slot n ids active next (next + interval * Z.of_nat n) = Ok r /\
  match r with
  | Some t => exists k, 0 <= k < Z.of_nat n /\ t = next + interval * k /\ producible ids active t /\
      forall j, 0 <= j < k -> ~ producible ids active (next + interval * j)
  | None => forall k, 0 <= k < Z.of_nat n -> ~ producible ids active (next + interval * k)
  end.
Proof.
  intros Hlen. assert (interval = 10) as Es by reflexivity.
  induction n as [| n IH]; intros next Hlo Hlast; cbn [producible_slot].
  - destruct (Z.leb_spec (next + interval * Z.of_nat 0) next); [| lia].
    exists None. split; [reflexivity | lia].
  - destruct (Z.leb_spec (next + interval * Z.of_nat (Datatypes.S n)) next); [lia |].
    destruct (lookup_lt_is_Some_2 active (Z.to_nat (slot_position next))) as [id Eid].
    { pose proof (slot_position_range next). lia. }
    rewrite Eid. case_bool_decide as Hid.
    + exists (Some next). split; [reflexivity |]. exists 0. split; [lia |]. split; [lia |].
      split; [exists id; auto | lia].
    + assert (~ producible ids active next) as Hno by (intros (i & Ei & Hi); congruence).
      destruct (IH (next + interval)) as (r & R & Hr); [lia | lia |].
      rewrite wrap_u32_small by lia. exists r. split.
      { rewrite <- R. f_equal. lia. }
      destruct r as [t |].
      * destruct Hr as (k & Hk & -> & Hp & Hf). exists (k + 1). split; [lia |]. split; [lia |].
        split; [exact Hp |]. intros j Hj. destruct (decide (j = 0)) as [-> | Hj0].
        -- now rewrite Z.mul_0_r, Z.add_0_r.
        -- replace (next + interval * j) with (next + interval + interval * (j - 1)) by lia. apply Hf. lia.
      * intros k Hk. destruct (decide (k = 0)) as [-> | Hk0].
        -- now rewrite Z.mul_0_r, Z.add_0_r.
        -- replace (next + interval * k) with (next + interval + interval * (k - 1)) by lia. apply Hr. lia.
Qed.

(** The first slot of the coming round that one of the delegates signs is
    found, and there is one exactly when one of the delegates is active. *)
Theorem next_producible self ids active : get_active_delegates self = Ok active ->
  List.length active = Z.to_nat round -> 0 <= next_slot self -> next_slot self + interval * round < 2 ^ 32 ->
  exists r, get_next_producible_block_timestamp self ids = Ok r /\
    (is_Some r <-> exists id, id ∈ ids /\ id ∈ active) /\
    forall t, r = Some t -> exists k, 0 <= k < round /\ t = next_slot self + interval * k /\
      producible ids active t /\
      forall j, 0 <= j < k -> ~ producible ids active (next_slot self + interval * j).
Proof.
  intros Ha Hlen Hlo Hlast.
  destruct (producible_slot_spec ids active (Z.to_nat round) Hlen _ Hlo) as (r & R & Hr);
    [exact Hlast |].
  exists r. split; [| split].
  - unfold get_next_producible_block_timestamp. rewrite Ha. cbn [result_bind].
    assert (Z.of_nat (Z.to_nat round) = round) as EN by reflexivity. rewrite EN, (Z.mul_comm interval) in R.
    assert (0 <= round * interval) as Hpos by (apply Z.leb_le; reflexivity).
    rewrite wrap_u32_small by (rewrite Z.mul_comm; lia). exact R.
  - change (Z.of_nat (Z.to_nat round)) with round in Hr. split.
    + intros [t ->]. destruct Hr as (k & _ & _ & (id & Hid & Hin) & _).
      exists id. split; [exact Hin | eapply list_elem_of_lookup_2, Hid].
    + intros (id & Hin & Hid). apply list_elem_of_lookup in Hid as [i Hi].
      destruct (slot_of_position (next_slot self) (Z.of_nat i)) as (k & Hk & E);
        [apply lookup_lt_Some in Hi; lia |].
      destruct r as [t |]; [eauto | exfalso]. apply (Hr k Hk). exists id. split; [| exact Hin].
      now rewrite E, Nat2Z.id.
  - intros t ->. exact Hr.
Qed.
End Lists.
