(* ===== verification/DelegateProduction.v ===== *)
(** * What a block does to its delegates

    The delegate that signed a block and those that missed the slots before
    it, the confirmations a block asks for, and the pay of the signee. *)

From Stdlib Require Import ZArith Lia Bool String.
From stdpp Require Import base gmap strings list sorting.
From S2P Require Import Prelude Asset Entries Names ChainInterface ChainState AssetEntry.
From S2P Require Import Ledger QuietOperations Transactions Conservation.
From S2P Require Import Blocks PendingChainState ChainTables Delegates DelegateLists.

Local Open Scope Z_scope.

(** One more block missed. *)
Definition miss (a : AccountEntry) : AccountEntry :=
  match delegate_info a with
  | Some d => set_delegate_info (Some (set_blocks_missed (wrap_u32 (blocks_missed d + 1)) d)) a
  | None => a
  end.
Definition produce (h : SignedBlockHeader) (a : AccountEntry) : AccountEntry :=
  match delegate_info a with
  | Some d => set_delegate_info (Some (produced h d)) a
  | None => a
  end.
Abbreviation count id l := (count_occ Z.eq_dec l id).

(** The slots of [n] intervals from [from]. *)
Fixpoint slots (n : nat) (from : time_point_sec) : list time_point_sec :=
  match n with
  | O => []
  | Datatypes.S n => from :: slots n (from + interval)
  end.
Definition slots_before (from until : time_point_sec) : nat :=
  Z.to_nat ((until - from + (interval - 1)) / interval).

Lemma slots_before_none from until : until <= from -> slots_before from until = 0%nat.
Proof.
  intros Hle. unfold slots_before. change interval with 10. pose proof (Z.div_mod (until - from + (10 - 1)) 10).
  pose proof (Z.mod_pos_bound (until - from + (10 - 1)) 10). lia.
Qed.
Lemma slots_before_some from until : from < until ->
  slots_before from until = Datatypes.S (slots_before (from + interval) until).
Proof.
  intros Hlt. unfold slots_before. change interval with 10.
  replace (until - from + (10 - 1)) with (until - (from + 10) + (10 - 1) + 1 * 10) by lia.
  rewrite Z.div_add by lia.
  assert (0 <= (until - (from + 10) + (10 - 1)) / 10) by (apply Z.div_pos; lia). lia.
Qed.
Lemma slots_between_enough from until : (slots_before from until <= slots_between from until)%nat.
Proof.
  unfold slots_before, slots_between. change interval with 10.
  pose proof (Z.div_mod (until - from) 10). pose proof (Z.mod_pos_bound (until - from) 10).
  pose proof (Z.div_mod (until - from + (10 - 1)) 10).
  pose proof (Z.mod_pos_bound (until - from + (10 - 1)) 10). lia.
Qed.

Section Production.
Context `{ChainParams} `{BlockParams} `{Clock}.
Context {S : Type} `{HI : ChainInterface S} `{HL : !ChainInterfaceLaws S} `{LW : !LedgerLaws S}.

(** Accounts change by [f], nothing else of the ledger does. *)
Record accounts_become (f : AccountIdType -> AccountEntry -> AccountEntry) (s s' : S) : Prop := {
  become_balances : forall id, get_balance_entry s' id = get_balance_entry s id;
  become_accounts : forall id, get_account_entry s' id = f id <$> get_account_entry s id;
  become_assets : forall id, get_asset_entry s' id = get_asset_entry s id;
  become_last : last_account s' = last_account s
}.

Lemma become_same s s' : same_ledger s s' -> accounts_become (fun _ a => a) s s'.
Proof. intros [E1 E2 E3 E4]. split; auto. intros id. rewrite E2. now destruct (get_account_entry s id). Qed.

Lemma become_trans f g h s s1 s' : accounts_become f s s1 -> accounts_become g s1 s' ->
  (forall id a, h id a = g id (f id a)) -> accounts_become h s s'.
Proof.
  intros [P1 P2 P3 P4] [Q1 Q2 Q3 Q4] Hh. split; intros; [now rewrite Q1 | | now rewrite Q3 | now rewrite Q4].
  rewrite Q2, P2. destruct (get_account_entry s id); cbn; [now rewrite Hh | reflexivity].
Qed.

(** One account is stored anew. *)
Lemma become_put id a f s s' : get_account_entry s id = Some a -> account_id a = id ->
  account_id (f a) = id -> put_account (f a) s s' ->
  accounts_become (fun i x => if i =? id then f x else x) s s'.
Proof.
  intros Ha Hid Hf [P1 P2 P3 P4]. split; auto. intros i. rewrite P2, Hf.
  destruct (Z.eqb_spec i id) as [-> |]; [now rewrite Ha | now destruct (get_account_entry s i)].
Qed.

Lemma become_ids f s s' : accounts_become f s s' -> (forall id a, account_id (f id a) = account_id a) ->
  own_ids s -> own_ids s'.
Proof.
  intros [P1 P2 P3 _] Hf [O1 O2 O3 O4]. split; intros id x; rewrite ?P1, ?P2, ?P3; eauto.
  destruct (get_account_entry s id) eqn:E; cbn; [intros [= <-]; rewrite Hf; eauto | discriminate].
Qed.

Lemma record_slot_same x (s : S) u s' :
  when get_statistics_enabled (store_slot_entry x) s = (Ok u, s') -> same_ledger s s'.
Proof.
  unfold when. destruct get_statistics_enabled eqn:E.
  - now apply store_same_ledger.
  - intros R. apply ret_Ok in R as [_ <-]. reflexivity.
Qed.

Lemma delegate_of_Ok o (s : S) ad s' : delegate_of o s = (Ok ad, s') ->
  o = Some (fst ad) /\ delegate_info (fst ad) = Some (snd ad) /\ s' = s.
Proof.
  unfold delegate_of. destruct o as [a |]; [| intros R; now run_inv R].
  destruct (delegate_info a) eqn:E; intros R; run_inv R; auto.
Qed.

(** The account of a delegate is stored with [f] applied. *)
Lemma store_delegate_Ok id a f (s : S) u s' :
  own_ids s -> get_account_entry s id = Some a -> (forall x, account_id (f x) = account_id x) ->
  store_account_entry (f a) s = (Ok u, s') ->
  accounts_become (fun i x => if i =? id then f x else x) s s'.
Proof.
  intros Ho Ha Hf R. apply store_account_Ok in R. pose proof (own_account _ Ho _ _ Ha) as Hid.
  eapply become_put; [exact Ha | exact Hid | | exact R]. now rewrite Hf.
Qed.

Lemma miss_id a : account_id (miss a) = account_id a.
Proof. unfold miss. now destruct (delegate_info a). Qed.
Lemma produce_id h a : account_id (produce h a) = account_id a.
Proof. unfold produce. now destruct (delegate_info a). Qed.
Lemma iter_miss_id n a : account_id (Nat.iter n miss a) = account_id a.
Proof. induction n as [| n IH]; cbn; [reflexivity |]. now rewrite miss_id. Qed.

Lemma become_missed id missed s s1 s' :
  accounts_become (fun i x => if i =? id then miss x else x) s s1 ->
  accounts_become (fun i => Nat.iter (count i missed) miss) s1 s' ->
  accounts_become (fun i => Nat.iter (count i (id :: missed)) miss) s s'.
Proof.
  intros Hs Hm. eapply become_trans; [exact Hs | exact Hm |]. intros i x. cbn [count_occ].
  destruct (Z.eq_dec id i) as [-> | Hne].
  - rewrite Z.eqb_refl. apply Nat.iter_succ_r.
  - destruct (Z.eqb_spec i id); [congruence | reflexivity].
Qed.

(** Required confirmations after [n] missed slots. *)
Definition confirmations_after (r : Z) (n : nat) : Z := Nat.iter n (fun r => wrap_u64 (r + 2)) r.

(** Each slot before the block was missed by its signee. *)
Lemma missed_slots_run self active until fuel : forall slot r (s : S) r' s',
  own_ids s -> 0 <= slot -> until + interval < 2 ^ 32 ->
  missed_slots fuel self active slot until r s = (Ok r', s') ->
  exists missed,
    Forall2 (fun t id => exists a, get_slot_signee self t active = Ok a /\ account_id a = id)
      (slots (slots_before slot until) slot) missed /\
    accounts_become (fun id => Nat.iter (count id missed) miss) s s' /\
    r' = confirmations_after r (List.length missed).
Proof.
  assert (forall slot r (s : S), until <= slot -> exists missed,
    Forall2 (fun t id => exists a, get_slot_signee self t active = Ok a /\ account_id a = id)
      (slots (slots_before slot until) slot) missed /\
    accounts_become (fun id => Nat.iter (count id missed) miss) s s /\
    r = confirmations_after r (List.length missed)) as Hdone.
  { intros slot r s Hle. exists []. rewrite slots_before_none by exact Hle.
    split; [constructor | split; [now apply become_same | reflexivity]]. }
  induction fuel as [| n IH]; intros slot r s r' s' Ho Hlo Hu R; cbn [missed_slots] in R;
    destruct (Z.leb_spec until slot) as [Hle | Hlt]; run_inv R; try now apply Hdone.
  rewrite slots_before_some by assumption.
  match goal with Hd : delegate_of _ _ = _ |- _ => apply delegate_of_Ok in Hd as (Ha & Hi & ->) end.
  match goal with Hst : store_account_entry _ _ = _ |- _ =>
    replace (set_delegate_info _ _) with (miss (fst a0)) in Hst by (unfold miss; now rewrite Hi) end.
  rename R1 into Rslot, R4 into Rrest, R2 into Rstore.
  apply (store_delegate_Ok (account_id a)) in Rstore; [| assumption .. | apply miss_id].
  apply record_slot_same in Rslot.
  assert (accounts_become (fun i x => if i =? account_id a then miss x else x) s s2) as Hb
    by (eapply become_trans; [exact Rstore | apply become_same, Rslot | reflexivity]).
  assert (interval = 10) as Ei by reflexivity. rewrite wrap_u32_small in Rrest by lia.
  apply IH in Rrest as (missed & Hf & Hm & ->); [| | lia | lia].
  - exists (account_id a :: missed). split; [constructor; eauto | split].
    + eapply become_missed; eassumption.
    + unfold confirmations_after. cbn [List.length]. now rewrite Nat.iter_succ_r.
  - eapply become_ids; [exact Hb | | exact Ho]. intros i x. cbv beta.
    destruct (i =? account_id a); [apply miss_id | reflexivity].
Qed.

(** One step of fuel for each slot is enough. *)
Lemma missed_slots_ends self active until k n : forall slot r (s : S),
  0 <= slot -> until + interval < 2 ^ 32 -> (slots_before slot until <= n)%nat ->
  missed_slots (n + k) self active slot until r s = missed_slots n self active slot until r s.
Proof.
  assert (interval = 10) as Ei by reflexivity.
  induction n as [| n IH]; intros slot r s Hlo Hu Hn.
  - destruct (Z.leb_spec until slot) as [Hle | Hlt].
    + apply Z.leb_le in Hle. destruct k; cbn; now rewrite Hle.
    + rewrite slots_before_some in Hn by exact Hlt. lia.
  - cbn [Nat.add missed_slots]. destruct (Z.leb_spec until slot) as [Hle | Hlt]; [reflexivity |].
    rewrite slots_before_some in Hn by exact Hlt. rewrite wrap_u32_small by lia.
    unfold bind. repeat (case_match; try reflexivity). apply IH; lia.
Qed.

(** What a block does to the account [id], [signee] being its delegate. *)
Definition production (h : SignedBlockHeader) (signee : AccountIdType) (missed : list AccountIdType)
    (id : AccountIdType) (a : AccountEntry) : AccountEntry :=
  Nat.iter (count id missed) miss (if id =? signee then produce h a else a).

Lemma clamp_range r : 1 <= clamp_confirmations r <= 3 * round.
Proof.
  unfold clamp_confirmations. pose proof (wrap_u64_range (r - 1)).
  change (3 * round) with 297. repeat case_match; to_prop; lia.
Qed.

Lemma secret_Ok (o : option SecretHashType) x (s : S) u s' :
  match o with Some expected => fc_assert (x =? expected) | None => ret tt end s = (Ok u, s') ->
  (forall e, o = Some e -> x = e) /\ s' = s.
Proof.
  destruct o as [e |]; intros R; run_inv R; to_prop; split; auto; congruence.
Qed.

Lemma production_run self h id key (s : S) u s' :
  own_ids s -> 0 <= first_missed self h -> timestamp h + interval < 2 ^ 32 ->
  update_delegate_production_info self h id key s = (Ok u, s') ->
  exists signee a active missed r,
    get_delegate_entry_for_signee self key = Ok signee /\
    get_account_entry s (account_id signee) = Some a /\
    (forall d expected, delegate_info a = Some d -> next_secret_hash d = Some expected ->
       hash_secret (previous_secret h) = expected) /\
    get_active_delegates self = Ok active /\ get_required_confirmations self = Ok r /\
    Forall2 (fun t i => exists x, get_slot_signee self t active = Ok x /\ account_id x = i)
      (slots (slots_before (first_missed self h) (timestamp h)) (first_missed self h)) missed /\
    accounts_become (production h (account_id signee) missed) s s' /\
    get_required_confirmations s' =
      Ok (clamp_confirmations (confirmations_after r (List.length missed))).
Proof.
  intros Ho Hlo Hu R. unfold update_delegate_production_info in R. run_inv R.
  match goal with Hd : delegate_of _ _ = _ |- _ => apply delegate_of_Ok in Hd as (Ha & Hi & ->) end.
  match goal with Hs : match _ with _ => _ end _ = _ |- _ => apply secret_Ok in Hs as [Hsecret ->] end.
  match goal with Hst : store_account_entry _ _ = _ |- _ =>
    replace (set_delegate_info _ _) with (produce h (fst a0)) in Hst
      by (unfold produce; now rewrite Hi);
    apply (store_delegate_Ok (account_id a)) in Hst; [| assumption .. | apply produce_id];
    rename Hst into Hp end.
  match goal with Hr : when _ _ _ = _ |- _ => apply record_slot_same in Hr as Hslot; clear Hr end.
  match goal with Hm : missed_slots _ _ _ _ _ _ ?s3 = _ |- _ =>
    apply missed_slots_run in Hm as (missed & Hf & Hm & ->); [| | lia | exact Hu];
    [| eapply own_ids_same; [exact Hslot |]; eapply become_ids; [exact Hp | | exact Ho];
       intros i x; cbv beta; destruct (i =? account_id a); [apply produce_id | reflexivity]] end.
  match goal with Hc : set_required_confirmations _ _ = _ |- _ =>
    pose proof (store_property_Ok _ _ _ _ _ Hc) as Hsame; apply stored_property in Hc as [Hc _] end.
  eexists a, (fst a0), _, missed, _. do 2 (split; [eassumption |]). split.
  { intros d e Hd. rewrite Hi in Hd. injection Hd as <-. apply Hsecret. }
  do 3 (split; [eassumption |]). split.
  - assert (accounts_become (fun i => Nat.iter (count i missed) miss) s2 s') as Hrest.
    { eapply become_trans; [apply become_same, Hslot | | reflexivity].
      eapply become_trans; [eassumption | apply become_same, Hsame; discriminate | reflexivity]. }
    eapply become_trans; [exact Hp | exact Hrest | reflexivity].
  - unfold get_required_confirmations, property_or.
    match goal with Hc : get_property_entry s' _ = _ |- _ => now rewrite Hc end.
Qed.

(** A block is counted for the delegate that signed it, whose secret it
    must reveal, and every slot since the block before is counted as missed
    for the active delegate of that slot; nothing else of balances, accounts
    and assets changes.  The confirmations asked for stay between one and
    three rounds. *)
Theorem production_recorded self h id key (s : S) u s' :
  own_ids s -> 0 <= first_missed self h -> timestamp h + interval < 2 ^ 32 ->
  update_delegate_production_info self h id key s = (Ok u, s') ->
  exists signee a active missed r,
    get_delegate_entry_for_signee self key = Ok signee /\
    get_account_entry s (account_id signee) = Some a /\
    (forall d expected, delegate_info a = Some d -> next_secret_hash d = Some expected ->
       hash_secret (previous_secret h) = expected) /\
    get_active_delegates self = Ok active /\
    Forall2 (fun t i => exists x, get_slot_signee self t active = Ok x /\ account_id x = i)
      (slots (slots_before (first_missed self h) (timestamp h)) (first_missed self h)) missed /\
    accounts_become (production h (account_id signee) missed) s s' /\
    get_required_confirmations s' = Ok r /\ 1 <= r <= 3 * round.
Proof.
  intros Ho Hlo Hu R.
  destruct (production_run _ _ _ _ _ _ _ Ho Hlo Hu R)
    as (signee & a & active & missed & r & P1 & P2 & P3 & P4 & _ & P5 & P6 & P7).
  exists signee, a, active, missed. eexists. do 7 (split; [eassumption |]). apply clamp_range.
Qed.

Lemma miss_pay a : pay_of (miss a) = pay_of a.
Proof. unfold miss, pay_of. now destruct (delegate_info a) eqn:E; rewrite ?E. Qed.
Lemma production_pay h signee missed id a : pay_of (production h signee missed id a) = pay_of a.
Proof.
  unfold production. transitivity (pay_of (if id =? signee then produce h a else a)).
  - induction (count id missed) as [| n IH]; cbn; [reflexivity |]. now rewrite miss_pay.
  - destruct (id =? signee); [| reflexivity]. unfold produce, pay_of.
    now destruct (delegate_info a) eqn:E; rewrite ?E.
Qed.
Lemma production_id h signee missed id a : account_id (production h signee missed id a) = account_id a.
Proof. unfold production. rewrite iter_miss_id. destruct (id =? signee); [apply produce_id | reflexivity]. Qed.

(** ** Pay *)

Lemma pay_run self key (s : S) u s' : pay_delegate self key s = (Ok u, s') ->
  exists base signee a d s1,
    get_asset_entry s 0 = Some base /\
    get_account_entry_by_address self (address_of_key key) = Ok (Some signee) /\
    get_account_entry s (account_id signee) = Some a /\ delegate_info a = Some d /\
    0 <= pay_rate d <= 100 /\
    let p := paycheck (t_head_block_num self) (pay_rate d) (collected_fees base) in
    0 <= max_collected_fees p /\ 0 <= accepted_collected_fees p /\
    0 <= destroyed_collected_fees p /\ 0 <= accepted_paycheck p /\
    put_account (set_delegate_info (Some (pay_stats p d)) a) s s1 /\
    put_asset (pay_asset p base) s1 s'.
Proof.
  intros R. unfold pay_delegate in R. run_inv R.
  match goal with Hd : delegate_of _ _ = _ |- _ => apply delegate_of_Ok in Hd as (Ha & Hi & ->) end.
  match goal with Hs : store_account_entry _ _ = _ |- _ => apply store_account_Ok in Hs end.
  match goal with Hs : store_asset_entry _ _ = _ |- _ => apply store_asset_Ok in Hs end.
  to_prop. do 5 eexists. repeat (split; [eassumption || lia |]). cbv zeta.
  repeat (split; [eassumption || lia |]). eassumption.
Qed.

(** The parts of a paycheck. *)
Lemma paycheck_split h rate fees : let p := paycheck h rate fees in
  exists k, accepted_paycheck p + destroyed_collected_fees p =
    accepted_new_shares p + max_collected_fees p + k * 2 ^ 64.
Proof.
  cbv zeta. unfold accepted_paycheck. cbn.
  destruct (wrap_i64_turns (Z.quot (wrap_i64 (get_max_delegate_pay_issued_per_block h * rate)) 100 +
    Z.quot (wrap_i64 (Z.quot fees blocks_per_two_weeks * rate)) 100)) as [k1 ->].
  destruct (wrap_i64_turns (Z.quot fees blocks_per_two_weeks -
    Z.quot (wrap_i64 (Z.quot fees blocks_per_two_weeks * rate)) 100)) as [k2 ->].
  exists (k1 + k2). lia.
Qed.

Lemma pay_issued_range h : 0 <= get_max_delegate_pay_issued_per_block h <= 4000000.
Proof.
  assert (forall i, 0 <= nth i delegate_pay_inc 0 <= 4000000) as Hn.
  { intros i. do 11 (destruct i as [| i]; [cbn; lia |]). cbn. destruct i; lia. }
  unfold get_max_delegate_pay_issued_per_block. case_match; [apply Hn |].
  change ALP_MAX_DELEGATE_PAY_PER_BLOCK with 500000. lia.
Qed.

Lemma percent_range x rate : 0 <= x -> 0 <= rate <= 100 -> 0 <= Z.quot (x * rate) 100 <= x.
Proof.
  intros Hx Hr. rewrite Z.quot_div_nonneg by nia.
  split; [apply Z.div_pos; nia | apply Z.div_le_upper_bound; nia].
Qed.

(** With collected fees in range nothing overflows. *)
Lemma paycheck_exact h rate fees : 0 <= rate <= 100 -> 0 <= fees <= INT64_MAX ->
  let p := paycheck h rate fees in
  0 <= accepted_new_shares p <= 4000000 /\ 0 <= max_collected_fees p <= fees / 120960 /\
  0 <= accepted_collected_fees p <= max_collected_fees p /\
  destroyed_collected_fees p = max_collected_fees p - accepted_collected_fees p /\
  accepted_paycheck p = accepted_new_shares p + accepted_collected_fees p.
Proof.
  intros Hr Hf. cbv zeta. unfold accepted_paycheck, paycheck. cbn [accepted_new_shares max_collected_fees
    accepted_collected_fees destroyed_collected_fees].
  pose proof (pay_issued_range h) as Hp. set (m := get_max_delegate_pay_issued_per_block h) in *.
  change blocks_per_two_weeks with 120960. rewrite (Z.quot_div_nonneg fees) by lia.
  unfold INT64_MAX in Hf.
  pose proof (Z.div_pos fees 120960 ltac:(lia) ltac:(lia)).
  assert (fees / 120960 <= 2 ^ 63 / 120960) as Hq by (apply Z.div_le_mono; lia).
  change (2 ^ 63 / 120960) with 76251422262357 in Hq. set (q := fees / 120960) in *.
  rewrite (wrap_i64_small (m * rate)), (wrap_i64_small (q * rate))
    by (unfold in_i64, INT64_MIN, INT64_MAX; nia).
  pose proof (percent_range m rate ltac:(lia) Hr). pose proof (percent_range q rate ltac:(lia) Hr).
  rewrite !wrap_i64_small by (unfold in_i64, INT64_MIN, INT64_MAX; lia). lia.
Qed.

(** Amounts far enough from the bounds of int64_t. *)
Definition in_shares (x : Z) : Prop := 0 <= x <= 2 ^ 62.

Context `{SP : !LedgerSupport S}.

Lemma pay_put_surplus p base a d (s s1 s' : S) x : own_ids s ->
  get_asset_entry s 0 = Some base -> get_account_entry s (account_id a) = Some a ->
  delegate_info a = Some d ->
  put_account (set_delegate_info (Some (pay_stats p d)) a) s s1 -> put_asset (pay_asset p base) s1 s' ->
  surplus s' x = surplus s x +
    if x =? 0 then (pay_balance (pay_stats p d) - pay_balance d) +
      (collected_fees (pay_asset p base) - collected_fees base) -
      (current_share_supply (pay_asset p base) - current_share_supply base)
    else 0.
Proof.
  intros Ho Hb Ha Hd Hp Hq. rewrite (surplus_put_asset _ _ _ _ Hq), (surplus_put_account _ _ _ _ Hp).
  change (account_id (set_delegate_info _ a)) with (account_id a). rewrite Ha.
  change (ast_id (pay_asset p base)) with (ast_id base). rewrite (own_asset _ Ho _ _ Hb).
  cbn [pay_in]. destruct (Z.eqb_spec x 0) as [-> |]; [| lia].
  rewrite (put_account_assets _ _ _ Hp), Hb. unfold pay_of at 2. rewrite Hd. cbn. lia.
Qed.

(** The pay of [d] and the supply and fees of [base] after the pay [p]. *)
Lemma paycheck_moves p base d :
  (exists k, accepted_paycheck p + destroyed_collected_fees p =
     accepted_new_shares p + max_collected_fees p + k * 2 ^ 64) ->
  exists k, (pay_balance (pay_stats p d) - pay_balance d) +
    (collected_fees (pay_asset p base) - collected_fees base) -
    (current_share_supply (pay_asset p base) - current_share_supply base) = k * 2 ^ 64.
Proof.
  intros [k E]. cbn.
  destruct (wrap_i64_turns (pay_balance d + accepted_paycheck p)) as [k1 ->].
  destruct (wrap_i64_turns (collected_fees base - max_collected_fees p)) as [k2 ->].
  destruct (wrap_i64_turns (current_share_supply base + accepted_new_shares p)) as [k3 ->].
  destruct (wrap_i64_turns (current_share_supply base + accepted_new_shares p + k3 * 2 ^ 64
              - destroyed_collected_fees p)) as [k4 ->].
  exists (k1 + k2 - k3 - k4 + k). lia.
Qed.

Lemma pay_exact h base d : 0 <= pay_rate d <= 100 -> in_shares (collected_fees base) ->
  in_shares (current_share_supply base) -> in_shares (pay_balance d) ->
  let p := paycheck h (pay_rate d) (collected_fees base) in
  pay_balance (pay_stats p d) = pay_balance d + accepted_paycheck p /\
  collected_fees (pay_asset p base) = collected_fees base - max_collected_fees p /\
  current_share_supply (pay_asset p base) =
    current_share_supply base + accepted_new_shares p - destroyed_collected_fees p /\
  accepted_paycheck p + destroyed_collected_fees p = accepted_new_shares p + max_collected_fees p /\
  0 <= accepted_paycheck p /\ 0 <= accepted_new_shares p <= 4000000 /\
  0 <= destroyed_collected_fees p /\ 0 <= max_collected_fees p <= collected_fees base.
Proof.
  intros Hr Hf Hs Hb p. unfold in_shares in *.
  assert (0 <= collected_fees base <= INT64_MAX) as Hf' by (unfold INT64_MAX; lia).
  destruct (paycheck_exact h _ _ Hr Hf') as (P1 & P2 & P3 & P4 & P5). fold p in P1, P2, P3, P4, P5.
  assert (collected_fees base / 120960 <= 2 ^ 62 / 120960) as Hq by (apply Z.div_le_mono; lia).
  change (2 ^ 62 / 120960) with 38125711131178 in Hq.
  assert (collected_fees base / 120960 <= collected_fees base)
    by (apply Z.div_le_upper_bound; lia).
  cbn [pay_stats pay_asset pay_balance set_total_paid set_pay_balance set_votes_for collected_fees
    set_collected_fees current_share_supply set_current_share_supply].
  rewrite (wrap_i64_small (current_share_supply base + accepted_new_shares p))
    by (unfold in_i64, INT64_MIN, INT64_MAX; lia).
  rewrite !wrap_i64_small by (unfold in_i64, INT64_MIN, INT64_MAX; lia). lia.
Qed.

(** The pay of a block takes its part of the collected fees and issues
    new shares, at most 40 ACT, and gives the delegate what it does not
    destroy: shares held less shares issued are as they were, up to multiples
    of 2^64, and exactly when the amounts are far from the bounds. *)
Lemma pay_conserves self key (s : S) u s' x : own_ids s ->
  pay_delegate self key s = (Ok u, s') ->
  exists base signee a d k,
    get_asset_entry s 0 = Some base /\
    get_account_entry_by_address self (address_of_key key) = Ok (Some signee) /\
    get_account_entry s (account_id signee) = Some a /\ delegate_info a = Some d /\
    surplus s' x = surplus s x + k * 2 ^ 64 /\
    (in_shares (collected_fees base) -> in_shares (current_share_supply base) ->
     in_shares (pay_balance d) ->
     k = 0 /\ exists base' a' d', get_asset_entry s' 0 = Some base' /\
       get_account_entry s' (account_id signee) = Some a' /\ delegate_info a' = Some d' /\
       current_share_supply base' <= current_share_supply base + 4000000 /\
       0 <= collected_fees base' <= collected_fees base /\ pay_balance d <= pay_balance d').
Proof.
  intros Ho R. destruct (pay_run _ _ _ _ _ R)
    as (base & signee & a & d & s1 & Hb & Hsig & Ha & Hd & Hr & Hpay). cbv zeta in Hpay.
  set (p := paycheck (t_head_block_num self) (pay_rate d) (collected_fees base)) in *.
  destruct Hpay as (_ & _ & _ & _ & Hp & Hq). pose proof (own_account _ Ho _ _ Ha) as Hid.
  assert (get_account_entry s (account_id a) = Some a) as Ha' by (now rewrite Hid).
  pose proof (pay_put_surplus p base a d s s1 s' x Ho Hb Ha' Hd Hp Hq) as E.
  destruct (paycheck_moves p base d (paycheck_split _ _ _)) as [k Ek].
  exists base, signee, a, d, (if x =? 0 then k else 0). do 4 (split; [assumption |]).
  split; [rewrite E; destruct (x =? 0); lia |]. intros Hf Hs Hbal.
  destruct (pay_exact (t_head_block_num self) base d Hr Hf Hs Hbal)
    as (P1 & P2 & P3 & P4 & P5 & P6 & P7 & P8). fold p in P1, P2, P3, P4, P5, P6, P7, P8.
  split; [destruct (x =? 0); lia |].
  exists (pay_asset p base), (set_delegate_info (Some (pay_stats p d)) a), (pay_stats p d).
  rewrite (put_asset_assets _ _ _ Hq), (put_asset_accounts _ _ _ Hq), (put_account_accounts _ _ _ Hp).
  change (ast_id (pay_asset p base)) with (ast_id base). rewrite (own_asset _ Ho _ _ Hb).
  change (account_id (set_delegate_info _ a)) with (account_id a). rewrite Hid, !Z.eqb_refl.
  do 3 (split; [reflexivity |]). lia.
Qed.
End Production.
