(* ===== verification/ChainDatabase.v ===== *)
(** * Applying and undoing blocks (blockchain/ChainDatabase.cpp)

    The chain database: the tables of the current chain, the tree of blocks,
    the head, the undo states and the pending transactions; a block is checked
    and applied through a pending state, taken back through its undo state,
    and the best fork is followed. *)

From Stdlib Require Import ZArith Lia Bool String.
From stdpp Require Import base gmap strings list fin_sets.
From S2P Require Import Prelude Asset Entries Names ChainInterface ChainState AssetEntry.
From S2P Require Import EvalState ContractOperations Evaluate.
From S2P Require Import Blocks ForkDatabase PendingChainState ChainTables Delegates.

Local Open Scope Z_scope.

(** The configuration of a node: checkpoints, whether it verifies signatures
    or generates a block, and the fee its open wallet or its delegate asks. *)
Class NodeParams : Type := {
  checkpoint_blocks : gmap Z BlockIdType;
  last_checkpoint_block_num : Z;
  verify_transaction_signatures : bool;
  generating_block : bool;
  client_fee : option ShareType
}.

Definition ALP_BLOCKCHAIN_DEFAULT_RELAY_FEE : Z := 1000.

Abbreviation Pend := (PendingChainState ChainTables).

Record ChainDatabase := mkChainDatabase {
  db_tables : ChainTables;
  db_forks : ForkDb;
  head_block_id : BlockIdType;
  head_block_header : SignedBlockHeader;
  block_num_to_id : gmap Z BlockIdType;
  block_id_to_undo_state : gmap BlockIdType Pend;
  min_undo_block : Z;
  future_blocks : gset BlockIdType;
  block_extend_status : option (BlockIdType * Z);
  pending_transaction_db : gmap TransactionIdType SignedTransaction;
  pending_fee_index : gmap (ShareType * TransactionIdType) TransactionEvaluationState;
  pending_trx_state : option Pend;
  revalidate_scheduled : bool;
  relay_fee : ShareType
}.

(** Assignments to the members *)
Definition set_tables (x : ChainTables) (d : ChainDatabase) : ChainDatabase :=
  mkChainDatabase x (db_forks d) (head_block_id d) (head_block_header d) (block_num_to_id d)
    (block_id_to_undo_state d) (min_undo_block d) (future_blocks d) (block_extend_status d)
    (pending_transaction_db d) (pending_fee_index d) (pending_trx_state d)
    (revalidate_scheduled d) (relay_fee d).
Definition set_forks (x : ForkDb) (d : ChainDatabase) : ChainDatabase :=
  mkChainDatabase (db_tables d) x (head_block_id d) (head_block_header d) (block_num_to_id d)
    (block_id_to_undo_state d) (min_undo_block d) (future_blocks d) (block_extend_status d)
    (pending_transaction_db d) (pending_fee_index d) (pending_trx_state d)
    (revalidate_scheduled d) (relay_fee d).
Definition set_block_num_to_id (x : gmap Z BlockIdType) (d : ChainDatabase) : ChainDatabase :=
  mkChainDatabase (db_tables d) (db_forks d) (head_block_id d) (head_block_header d) x
    (block_id_to_undo_state d) (min_undo_block d) (future_blocks d) (block_extend_status d)
    (pending_transaction_db d) (pending_fee_index d) (pending_trx_state d)
    (revalidate_scheduled d) (relay_fee d).
Definition set_undo_states (x : gmap BlockIdType Pend) (d : ChainDatabase) : ChainDatabase :=
  mkChainDatabase (db_tables d) (db_forks d) (head_block_id d) (head_block_header d)
    (block_num_to_id d) x (min_undo_block d) (future_blocks d) (block_extend_status d)
    (pending_transaction_db d) (pending_fee_index d) (pending_trx_state d)
    (revalidate_scheduled d) (relay_fee d).
Definition set_future_blocks (x : gset BlockIdType) (d : ChainDatabase) : ChainDatabase :=
  mkChainDatabase (db_tables d) (db_forks d) (head_block_id d) (head_block_header d)
    (block_num_to_id d) (block_id_to_undo_state d) (min_undo_block d) x (block_extend_status d)
    (pending_transaction_db d) (pending_fee_index d) (pending_trx_state d)
    (revalidate_scheduled d) (relay_fee d).
Definition set_extend_status (x : option (BlockIdType * Z)) (d : ChainDatabase) : ChainDatabase :=
  mkChainDatabase (db_tables d) (db_forks d) (head_block_id d) (head_block_header d)
    (block_num_to_id d) (block_id_to_undo_state d) (min_undo_block d) (future_blocks d) x
    (pending_transaction_db d) (pending_fee_index d) (pending_trx_state d)
    (revalidate_scheduled d) (relay_fee d).
Definition set_pending (trxs : gmap TransactionIdType SignedTransaction)
    (fees : gmap (ShareType * TransactionIdType) TransactionEvaluationState)
    (state : option Pend) (d : ChainDatabase) : ChainDatabase :=
  mkChainDatabase (db_tables d) (db_forks d) (head_block_id d) (head_block_header d)
    (block_num_to_id d) (block_id_to_undo_state d) (min_undo_block d) (future_blocks d)
    (block_extend_status d) trxs fees state (revalidate_scheduled d) (relay_fee d).
Definition set_revalidate (x : bool) (d : ChainDatabase) : ChainDatabase :=
  mkChainDatabase (db_tables d) (db_forks d) (head_block_id d) (head_block_header d)
    (block_num_to_id d) (block_id_to_undo_state d) (min_undo_block d) (future_blocks d)
    (block_extend_status d) (pending_transaction_db d) (pending_fee_index d)
    (pending_trx_state d) x (relay_fee d).
Definition set_relay_fee (x : ShareType) (d : ChainDatabase) : ChainDatabase :=
  mkChainDatabase (db_tables d) (db_forks d) (head_block_id d) (head_block_header d)
    (block_num_to_id d) (block_id_to_undo_state d) (min_undo_block d) (future_blocks d)
    (block_extend_status d) (pending_transaction_db d) (pending_fee_index d)
    (pending_trx_state d) (revalidate_scheduled d) x.

(** The number and time of the head are also members of the tables, where
    the chain interface reads them. *)
Definition at_head (num time : Z) (t : ChainTables) : ChainTables :=
  mkTables (tables t) (t_account_name_to_id t) (t_account_address_to_id t) (t_delegate_votes t)
    (t_asset_symbol_to_id t) (t_unique_transactions t) (t_slot_timestamp_to_delegate t)
    (t_contract_name_to_id t) num time.
Definition set_head (h : SignedBlockHeader) (id : BlockIdType) (d : ChainDatabase) : ChainDatabase :=
  mkChainDatabase (at_head (block_num h) (timestamp h) (db_tables d))
    (db_forks d) id h (block_num_to_id d) (block_id_to_undo_state d) (min_undo_block d)
    (future_blocks d) (block_extend_status d) (pending_transaction_db d) (pending_fee_index d)
    (pending_trx_state d) (revalidate_scheduled d) (relay_fee d).
Definition set_unique (x : gset (Z * DigestType)) (t : ChainTables) : ChainTables :=
  mkTables (tables t) (t_account_name_to_id t) (t_account_address_to_id t) (t_delegate_votes t)
    (t_asset_symbol_to_id t) x (t_slot_timestamp_to_delegate t) (t_contract_name_to_id t)
    (t_head_block_num t) (t_head_block_timestamp t).

(** ** Evaluations on a chain state *)

(** An evaluation state with its flags set. *)
Definition evaluation_with (skip_check canonical skip_exec throw_exec : bool)
    : TransactionEvaluationState :=
  let e := new_evaluation_state in
  mkEvalState (es_trx e) (signed_keys e) (validation_error e) (deposits e) (withdraws e)
    (es_yield e) (deposit_behavior e) (deltas e) (required_fees e) (total_withdraw e)
    (alt_fees_paid e) (es_balance e) (delegate_vote_deltas e) (imessage_length e) skip_check
    canonical (skip_vote_adjustment e) (max_fee e) (evaluate_contract_testing e) (p_result_trx e)
    (current_op_index e) skip_exec throw_exec (exec_cost e) (contract_operator e)
    (evaluate_contract_result e) (event_vector e) (contract_balance_remain e)
    (withdrawed_contract_balance e) (owner_balance_not_usedup e) (deposit_address e)
    (deposit_count e).

(** The evaluation's members, besides what it returns. *)
Definition run_evaluation {S A} (e : TransactionEvaluationState) (m : M (EvalContext S) A)
    : M S (A * TransactionEvaluationState) :=
  fun s => match m (mkEvalContext e s) with
           | (Ok a, c) => (Ok (a, ev c), current_state c)
           | (Err x, c) => (Err x, current_state c)
           end.

Section ApplyTransactions.
Context `{ChainParams} {S : Type} `{ChainInterface S} `{GluaVM S}.

(** The signature check of a transaction, on the thread pool: the entries are
    collected first.  The job shares its evaluation state with the evaluation
    that follows; the model runs it where it is submitted, on a state just
    made, and keeps its answer only: the evaluation, told to skip the check of
    signatures, looks at no signed key. *)
Definition signature_job (trx : SignedTransaction) (s : S) : result bool :=
  fst ((entries <- transaction_entry_analy ;;
        transaction_signature_check trx (fst (snd entries)) (snd (snd entries)))
         (mkEvalContext new_evaluation_state s)).

Definition set_location (block_num trx_num : Z) (id : TransactionIdType) : M S unit :=
  db <- get ;;
  entry <- valid_or (entry_lookup KTransaction db id) assert_exception ;;
  store_transaction id
    (mkTransactionEntry (entry_eval_state entry) (mkTransactionLocation block_num trx_num)).

(** trx.operations[0].as< TransactionOperation >().trx *)
Definition origin_of (trx : SignedTransaction) : M S SignedTransaction :=
  match operations trx with
  | OpTransaction t :: _ => ret t
  | _ :: _ => throw assert_exception
  | [] => throw out_of_range
  end.

Definition set_locations (block_num trx_num : Z) (trx : SignedTransaction) : M S unit :=
  if result_trx_type trx =? origin_transaction then set_location block_num trx_num (trx_id trx)
  else if result_trx_type trx =? incomplete_result_transaction then
    set_location block_num trx_num (trx_id trx) ;;;
    origin <- origin_of trx ;;
    set_location block_num trx_num (trx_id origin) ;;;
    set_location block_num trx_num (result_trx_id trx)
  else if result_trx_type trx =? complete_result_transaction then
    set_location block_num trx_num (trx_id trx) ;;;
    origin <- origin_of trx ;;
    set_location block_num trx_num (trx_id origin)
  else ret tt.

(** The loop body; the result is what the job of the transaction answers. *)
Definition apply_transaction (verify generating : bool) (vm_enabled : result bool)
    (block_num trx_num : Z) (trx : SignedTransaction) : M S bool :=
  s <- get ;;
  let job := if verify then signature_job trx s else Ok true in
  fc_assert (trx_data_size trx <=? ALP_BLOCKCHAIN_MAX_TRX_SIZE) ;;;
  vm <- (if generating then ret true else lift_result vm_enabled) ;;
  let skip_exec := if result_trx_type trx =? incomplete_result_transaction then false
                   else negb vm in
  run_evaluation (evaluation_with true false skip_exec false) (evaluate_transaction trx true) ;;;
  set_locations block_num trx_num trx ;;;
  ret (match job with Ok ok => ok | Err _ => true end).

Fixpoint apply_transaction_list (verify generating : bool) (vm_enabled : result bool)
    (block_num trx_num : Z) (trxs : list SignedTransaction) : M S bool :=
  match trxs with
  | [] => ret true
  | trx :: trxs' =>
      ok <- apply_transaction verify generating vm_enabled block_num trx_num trx ;;
      rest <- apply_transaction_list verify generating vm_enabled block_num
                (wrap_u32 (trx_num + 1)) trxs' ;;
      ret (ok && rest)
  end.

Definition apply_transactions (verify generating : bool) (vm_enabled : result bool) (b : FullBlock)
    : M S unit :=
  ok <- apply_transaction_list verify generating vm_enabled (block_num (header b)) 0
          (user_transactions b) ;;
  throw_if (negb ok) missing_signature.
End ApplyTransactions.

Section ChainDatabase.
Context `{ChainParams} `{BlockParams} `{Clock} `{NodeParams} `{GluaVM Pend}.
Abbreviation D := (M ChainDatabase).

Definition on_forks {A} (m : M ForkDb A) : D A :=
  fun d => let (r, f) := m (db_forks d) in (r, set_forks f d).
Definition read_tables {A} (f : ChainTables -> result A) : D A :=
  d <- get ;; lift_result (f (db_tables d)).
(** A new pending state over the tables is filled; they do not change. *)
Definition on_pending {A} (m : M Pend A) : D Pend :=
  fun d => match m (new_pending (Some (db_tables d))) with
           | (Ok _, p) => (Ok p, d)
           | (Err e, _) => (Err e, d)
           end.
(** pending_state->apply_changes() on the tables *)
Definition apply_pending (p : Pend) : D unit :=
  fun d => match apply_changes p with
           | (r, Some t) => (r, set_tables t d)
           | (r, None) => (r, d)
           end.

(** ** Headers *)

Definition time_now : time_point_sec := blockchain_now.

Definition verify_header (b : DigestBlock) (block_signee : PublicKeyType) : D unit :=
  d <- get ;;
  let h := digest_header b in
  let head := head_block_header d in
  throw_if ((1 <? block_num h) && negb (block_num h =? wrap_u32 (block_num head + 1)))
    block_numbers_not_sequential ;;;
  throw_if (negb (previous h =? head_block_id d)) invalid_previous_block_id ;;;
  throw_if (negb (timestamp h mod ALP_BLOCKCHAIN_BLOCK_INTERVAL_SEC =? 0)) invalid_block_time ;;;
  throw_if ((1 <? block_num h) && (timestamp h <=? timestamp head)) time_in_past ;;;
  throw_if (wrap_u32 (time_now + ALP_BLOCKCHAIN_BLOCK_INTERVAL_SEC * 2) <? timestamp h)
    time_in_future ;;;
  throw_if (negb (validate_digest b)) invalid_block_digest ;;;
  fc_assert (validate_unique b) ;;;
  active <- read_tables get_active_delegates ;;
  expected <- read_tables (fun t => get_slot_signee t (timestamp h) active) ;;
  expected_key <- lift_result (signing_key expected) ;;
  throw_if (negb (block_signee =? expected_key)) invalid_delegate_signee.

(** The key a block is checked against; up to the last checkpoint the
    signature is not looked at. *)
Definition block_signee_key (b : FullBlock) : D PublicKeyType :=
  let h := header b in
  if last_checkpoint_block_num <? block_num h then lift_result (header_signee h)
  else
    match checkpoint_blocks !! block_num h with
    | Some id => throw_if (negb (id =? block_id b)) failed_checkpoint_verification
    | None => ret tt
    end ;;;
    active <- read_tables get_active_delegates ;;
    signee <- read_tables (fun t => get_slot_signee t (timestamp h) active) ;;
    lift_result (signing_key signee).

(** ** Applying a block *)

Definition apply_block (t : ChainTables) (b : FullBlock) (block_signee : PublicKeyType)
    : M Pend unit :=
  update_delegate_production_info t (header b) (block_id b) block_signee ;;;
  apply_transactions verify_transaction_signatures generating_block (get_node_vm_enabled t) b ;;;
  pay_delegate t block_signee ;;;
  update_active_delegate_list t (block_num (header b)) ;;;
  update_random_seed (previous_secret (header b)).

Definition get_block_id (num : Z) : D BlockIdType :=
  d <- get ;; valid_or (block_num_to_id d !! num) key_not_found_exception.

Definition save_undo_state (block_num : Z) (id : BlockIdType) (pending_state : Pend) : D unit :=
  d <- get ;;
  if block_num <? min_undo_block d then ret tt
  else
    match get_undo_state pending_state (new_pending (Some pending_state)) with
    | (Err e, _) => throw e
    | (Ok _, undo_state) =>
        when (ALP_BLOCKCHAIN_MAX_UNDO_HISTORY <? block_num)
          (old_block_id <- get_block_id (block_num - ALP_BLOCKCHAIN_MAX_UNDO_HISTORY) ;;
           modify (fun d => set_undo_states (delete old_block_id (block_id_to_undo_state d)) d)) ;;;
        modify (fun d => set_undo_states
          (<[id := set_prev_state None undo_state]> (block_id_to_undo_state d)) d)
    end.

(** Transactions of the block, and those a result of the block answers. *)
Definition included_ids (trx : SignedTransaction) : list TransactionIdType :=
  match operations trx with
  | OpTransaction t :: _ => [trx_id t; trx_id trx]
  | _ => [trx_id trx]
  end.
Definition clear_pending (b : FullBlock) : D unit :=
  modify (fun d => set_pending
    (foldl (fun m id => delete id m) (pending_transaction_db d)
       (flat_map included_ids (user_transactions b)))
    ∅ (Some (new_pending (Some (db_tables d)))) d) ;;;
  modify (fun d => if last_checkpoint_block_num <=? block_num (head_block_header d)
                   then set_revalidate true d else d).

Definition update_relay_fee : D unit :=
  match client_fee with
  | Some fee => modify (set_relay_fee (if ALP_BLOCKCHAIN_DEFAULT_RELAY_FEE <? fee then fee
                                       else ALP_BLOCKCHAIN_DEFAULT_RELAY_FEE))
  | None => ret tt
  end.

(** The block is checked and applied to a pending state, then committed. *)
Definition prepare_block (b : FullBlock) : D Pend :=
  block_signee <- block_signee_key b ;;
  verify_header (digest_block b) block_signee ;;;
  d <- get ;;
  on_pending (apply_block (db_tables d) b block_signee).
Definition commit_block (b : FullBlock) (pending_state : Pend) : D unit :=
  let id := block_id b in
  save_undo_state (block_num (header b)) id pending_state ;;;
  modify (set_extend_status (Some (id, 1))) ;;;
  apply_pending pending_state ;;;
  on_forks (mark_included id true) ;;;
  modify (set_head (header b) id) ;;;
  clear_pending b ;;;
  modify (fun d => set_block_num_to_id (<[block_num (header b) := id]> (block_num_to_id d)) d) ;;;
  modify (set_extend_status (Some (id, 2))) ;;;
  update_relay_fee.
Definition extend_body (b : FullBlock) : D unit :=
  pending_state <- prepare_block b ;; commit_block b pending_state.

Definition catch_invalid (id : BlockIdType) (m : D unit) : D unit :=
  fun d => match m d with
           | (Ok u, d') => (Ok u, d')
           | (Err e, d') =>
               if fc_exception e then
                 (on_forks (mark_invalid id e) ;;; modify (set_extend_status (Some (id, 2))) ;;;
                  throw e) d'
               else (Err e, d')
           end.

(** Transactions that have expired leave the unique set. *)
Definition purge_unique : D unit :=
  modify (fun d => set_tables
    (set_unique (filter (fun k => cdb_now (db_tables d) < fst k)
                   (t_unique_transactions (db_tables d))) (db_tables d)) d).

Definition extend_chain (b : FullBlock) : D unit :=
  catch_invalid (block_id b) (extend_body b) ;;; purge_unique.

(** ** Taking a block back *)

(** The block with the header [h] leaves the chain; the head is the block
    before it. *)
Definition undo_block (id : BlockIdType) (h : SignedBlockHeader) : D unit :=
  on_forks (mark_included id false) ;;;
  modify (fun d => set_block_num_to_id (delete (block_num h) (block_num_to_id d)) d) ;;;
  d <- get ;;
  undo_state <- valid_or (block_id_to_undo_state d !! id) assert_exception ;;
  apply_pending (set_prev_state (Some (db_tables d)) undo_state) ;;;
  if previous h =? 0 then modify (set_head empty_header 0)
  else
    modify (fun d => set_head (head_block_header d) (previous h) d) ;;;
    before <- on_forks (get_block_header (previous h)) ;;
    modify (set_head before (previous h)).

Definition pop_block : D unit :=
  d <- get ;;
  if block_num (head_block_header d) =? 0 then ret tt
  else undo_block (head_block_id d) (head_block_header d).

Definition repair_block (id : BlockIdType) : D unit :=
  b <- on_forks (get_block id) ;; undo_block id (header b).
Definition get_last_extend_status (d : ChainDatabase) : BlockIdType * Z :=
  default (0, 0) (block_extend_status d).
(** A block that was being applied when the node stopped is taken back. *)
Definition repair_database : D unit :=
  d <- get ;;
  let last_status := get_last_extend_status d in
  when (snd last_status =? 1) (repair_block (fst last_status)).

(** ** Following a fork *)

Fixpoint pop_until (fuel : nat) (id : BlockIdType) : D unit :=
  d <- get ;;
  if head_block_id d =? id then ret tt
  else match fuel with
       | O => throw does_not_return
       | Datatypes.S n => pop_block ;;; pop_until n id
       end.

Definition switch_to_fork (id : BlockIdType) : D unit :=
  d <- get ;;
  if id =? head_block_id d then ret tt
  else
    history <- on_forks (get_fork_history id) ;;
    pop_until (generations (db_forks d)) (List.last history 0) ;;;
    forM (tail (rev history)) (fun i => b <- on_forks (get_block i) ;; extend_chain b).

Definition clear_invalidation_of_future_blocks : D unit :=
  d <- get ;;
  forM (elements (future_blocks d))
    (fun id => b <- on_forks (get_block id) ;;
               when (2 * 24 * 60 * 60 <? time_now - timestamp (header b))
                 (modify (fun d => set_future_blocks (future_blocks d ∖ {[ id ]}) d))) ;;;
  d <- get ;;
  forM (elements (future_blocks d)) (fun id => on_forks (mark_as_unchecked id)).

(** The blocks of one number, until one is switched to; [id] is the block
    that was pushed. *)
Fixpoint try_forks (id : BlockIdType) (ids : list BlockIdType) : D bool :=
  match ids with
  | [] => ret false
  | i :: ids' =>
      next_fork_to_try <- on_forks (fork_fetch i) ;;
      if can_link next_fork_to_try then
        fun d => match switch_to_fork i d with
                 | (Ok _, d') => (Ok true, d')
                 | (Err e, d') =>
                     if bool_decide (e = time_in_future) then
                       try_forks id ids' (set_future_blocks ({[ id ]} ∪ future_blocks d') d')
                     else if fc_exception e then try_forks id ids' d'
                     else (Err e, d')
                 end
      else try_forks id ids'
  end.
Fixpoint try_numbers (id : BlockIdType) (highest : nat) : D bool :=
  match highest with
  | O => ret false
  | Datatypes.S n =>
      d <- get ;;
      done <- try_forks id (fetch_blocks_at_number (db_forks d) (Z.of_nat highest)) ;;
      if done then ret true else try_numbers id n
  end.

Definition fork_data_of (id : BlockIdType) : D BlockForkData :=
  d <- get ;; valid_or (fork_db (db_forks d) !! id) assert_exception.

Definition push_block (b : FullBlock) : D BlockForkData :=
  d <- get ;;
  let head_block_num := block_num (head_block_header d) in
  throw_if ((ALP_BLOCKCHAIN_MAX_UNDO_HISTORY <? head_block_num) &&
            (block_num (header b) <=? head_block_num - ALP_BLOCKCHAIN_MAX_UNDO_HISTORY))
    block_older_than_undo_history ;;;
  let id := block_id b in
  if match fork_db (db_forks d) !! id with Some fork_data => is_known fork_data | None => false end
  then fork_data_of id
  else
    longest_fork <- on_forks (store_and_index id b) ;;
    (if can_link (snd longest_fork) then
       longest <- on_forks (get_block (fst longest_fork)) ;;
       when (head_block_num <? block_num (header longest))
         (try_numbers id (Z.to_nat (block_num (header longest))) ;;; ret tt)
     else clear_invalidation_of_future_blocks) ;;;
    fork_data_of id.
End ChainDatabase.
