(* ===== verification/Pending.v ===== *)
(** * Pending transactions and block production (blockchain/ChainDatabase.cpp)

    Transactions wait in a queue ordered by the fees they pay; each was
    evaluated in a pending state over the chain.  A delegate fills a block
    from the queue, within the limits of its configuration
    (include/blockchain/DelegateConfig.hpp). *)

From Stdlib Require Import ZArith Lia Bool String.
From stdpp Require Import base gmap strings list fin_sets sorting.
From S2P Require Import Prelude Asset Entries Names ChainInterface ChainState AssetEntry.
From S2P Require Import EvalState ContractOperations Evaluate.
From S2P Require Import Blocks ForkDatabase PendingChainState ChainTables Delegates ChainDatabase.

Local Open Scope Z_scope.

Definition ALP_BLOCKCHAIN_MAX_PENDING_QUEUE_SIZE : Z := 10000.
Definition ALP_BLOCKCHAIN_REVALIDATE_MAX_TRX_COUNT : Z := 1000 * ALP_BLOCKCHAIN_BLOCK_INTERVAL_SEC.
Definition ALP_BLOCKCHAIN_MAX_BLOCK_SIZE : Z := 2 * 512 * ALP_BLOCKCHAIN_MAX_PENDING_QUEUE_SIZE.

Record DelegateConfig := mkDelegateConfig {
  network_min_connection_count : Z;
  block_max_transaction_count : Z;
  block_max_size : Z;
  block_max_production_time : Z;
  transaction_max_size : Z;
  transaction_canonical_signatures_required : bool;
  transaction_min_fee : ShareType;
  transaction_imessage_max_soft_length : Z;
  transaction_imessage_min_fee_coe : Z;
  transaction_blacklist : gset TransactionIdType;
  operation_blacklist : gset Z
}.
Definition default_delegate_config : DelegateConfig :=
  mkDelegateConfig 4 UINT32_MAX ALP_BLOCKCHAIN_MAX_BLOCK_SIZE 3000000 ALP_BLOCKCHAIN_MAX_TRX_SIZE
    false (ALP_BLOCKCHAIN_PRECISION / 100) 40 100 ∅ ∅.
(** DelegateConfig::validate; times are in microseconds. *)
Definition validate_config (c : DelegateConfig) : bool :=
  (block_max_size c <=? ALP_BLOCKCHAIN_MAX_BLOCK_SIZE)
  && (0 <=? block_max_production_time c)
  && (block_max_production_time c / 1000000 <=? ALP_BLOCKCHAIN_BLOCK_INTERVAL_SEC)
  && (transaction_max_size c <=? ALP_BLOCKCHAIN_MAX_TRX_SIZE)
  && (ALP_BLOCKCHAIN_DEFAULT_RELAY_FEE <=? transaction_min_fee c)
  && (transaction_min_fee c <=? ALP_BLOCKCHAIN_MAX_SHARES)
  && (100 <=? transaction_imessage_min_fee_coe c)
  && (0 <=? transaction_imessage_max_soft_length c)
  && (transaction_imessage_max_soft_length c <=? ALP_BLOCKCHAIN_MAX_MESSAGE_SIZE).

(** Serialized sizes; the packing is fc's. *)
Class PackParams : Type := { block_data_size : FullBlock -> Z }.

Abbreviation FeeIndex := (ShareType * TransactionIdType)%type.
(** fee_index: the highest fee first, then the highest id. *)
Definition fee_before (a b : FeeIndex) : Prop :=
  fst b < fst a \/ fst a = fst b /\ snd b <= snd a.
#[export] Instance fee_before_dec : RelDecision fee_before.
Proof. intros a b. unfold fee_before. apply _. Defined.
Definition entry_before (a b : FeeIndex * TransactionEvaluationState) : Prop :=
  fee_before (fst a) (fst b).
#[export] Instance entry_before_dec : RelDecision entry_before.
Proof. intros a b. unfold entry_before. apply _. Defined.

(** ** Transfers *)

(** The variables of check_asset_transfer *)
Record TransferSums := mkTransferSums {
  withdraw_amount : ShareType;
  deposit_amount : ShareType;
  deposited_asset : AssetIdType;
  withdrawn_asset : AssetIdType;
  deposit_num : Z
}.

Section CheckTransfer.
Context `{ChainParams} {S : Type} `{ChainInterface S}.

(** The loop; [inl] is the answer of a return in it. *)
Fixpoint scan_transfer (db : S) (ops : list Operation) (v : TransferSums) : bool + TransferSums :=
  match ops with
  | [] => inr v
  | OpDeposit o :: ops' =>
      scan_transfer db ops' (mkTransferSums (withdraw_amount v)
        (wrap_i64 (deposit_amount v + dep_amount o)) (cond_asset_id (dep_condition o))
        (withdrawn_asset v) (wrap_u32 (deposit_num v + 1)))
  | OpWithdraw o :: ops' =>
      let withdrawn := wrap_i64 (withdraw_amount v + wd_amount o) in
      match get_balance_entry db (wd_balance_id o) with
      | None => inl false
      | Some b =>
          let id := cond_asset_id (condition b) in
          if negb (id =? 0) then
            if negb (withdrawn_asset v =? 0) && negb (withdrawn_asset v =? id) then inl false
            else scan_transfer db ops' (mkTransferSums withdrawn (deposit_amount v)
                   (deposited_asset v) id (deposit_num v))
          else scan_transfer db ops' (mkTransferSums withdrawn (deposit_amount v)
                 (deposited_asset v) (withdrawn_asset v) (deposit_num v))
      end
  | OpImessageMemo _ :: ops' | OpDefineSlate _ :: ops' => scan_transfer db ops' v
  | _ :: _ => inl true
  end.

Definition check_asset_transfer (db : S) (trx : SignedTransaction) : bool :=
  match scan_transfer db (operations trx) (mkTransferSums 0 0 0 0 0) with
  | inl answer => answer
  | inr v =>
      if 1 <? deposit_num v then false
      else if withdraw_amount v <? wrap_i64 (deposit_amount v + 1000) then false
      else if negb (String.eqb (alp_account trx) "")
              && (negb (deposited_asset v =? asset_id (alp_inport_asset trx))
                  || negb (deposit_amount v =? amount (alp_inport_asset trx))) then false
      else deposited_asset v =? withdrawn_asset v
  end.
End CheckTransfer.

Section Pending.
Context `{ChainParams} `{BlockParams} `{Clock} `{NodeParams} `{PackParams} `{GluaVM Pend}
  `{GluaVM (PendingChainState Pend)}.
Abbreviation D := (M ChainDatabase).
Abbreviation Nested := (PendingChainState Pend).

(** ** The queue *)

(** trx_eval_state->evaluate( trx, ignore_state ) over a new state: the
    exception, if any, the evaluation and the state after it. *)
Definition evaluate_over (e : TransactionEvaluationState) (trx : SignedTransaction)
    (ignore_state : bool) (prev : Pend) : result unit * TransactionEvaluationState * Nested :=
  let '(r, c) := evaluate_transaction trx ignore_state (mkEvalContext e (new_pending (Some prev))) in
  (r, ev c, current_state c).
(** The fees that are compared: get_fees( 0 ) + alt_fees_paid.amount *)
Definition fees_of (e : TransactionEvaluationState) : ShareType :=
  wrap_i64 (get_fees e 0 + amount (alt_fees_paid e)).
Definition has_result (e : TransactionEvaluationState) : bool :=
  (0 <? List.length (operations (p_result_trx e)))%nat.

(** _pending_trx_state, over the tables as they are now *)
Definition pending_base (d : ChainDatabase) : Pend :=
  match pending_trx_state d with
  | Some p => set_prev_state (Some (db_tables d)) p
  | None => new_pending (Some (db_tables d))
  end.
Definition store_base (p : Pend) : D unit :=
  modify (fun d => set_pending (pending_transaction_db d) (pending_fee_index d) (Some p) d).
(** pend_state->apply_changes() *)
Definition apply_nested (p : Nested) : D unit :=
  fun d => match apply_changes p with
           | (r, Some base) => (r, snd (store_base base d))
           | (r, None) => (r, d)
           end.

Definition skips_execution (contract_vm_exec : bool) : D bool :=
  d <- get ;;
  skipexec <- (if negb generating_block
               then vm <- lift_result (get_node_vm_enabled (db_tables d)) ;; ret (negb vm)
               else ret false) ;;
  ret (if skipexec && contract_vm_exec then negb contract_vm_exec else skipexec).

(** ChainDatabase::evaluate_transaction *)
Definition evaluate_pending (trx : SignedTransaction) (required_fees : ShareType)
    (contract_vm_exec skip_signature_check throw_exec_exception : bool)
    : D TransactionEvaluationState :=
  d <- get ;;
  let base := pending_base d in
  store_base base ;;;
  skipexec <- skips_execution contract_vm_exec ;;
  throw_if (negb (origin_trx_basic_verify trx)) illegal_transaction ;;;
  let '(r, e, pend_state) :=
    evaluate_over (evaluation_with skip_signature_check false skipexec throw_exec_exception)
      trx false base in
  no_check_required_fee <-
    match r with
    | Ok _ => ret false
    | Err x => if bool_decide (x = ignore_check_required_fee_state) then ret true else throw x
    end ;;
  pend_state <-
    (if has_result e then
       match entry_remove KTransaction (trx_id trx) pend_state with
       | (Ok _, p) => ret p
       | (Err x, _) => throw x
       end
     else ret pend_state) ;;
  throw_if (negb no_check_required_fee && (fees_of e <? required_fees)) insufficient_relay_fee ;;;
  if has_result e then
    let '(r_res, _, pend_state_res) :=
      evaluate_over (evaluation_with false false true false) (p_result_trx e) true base in
    lift_result r_res ;;;
    apply_nested pend_state_res ;;;
    ret (set_trx trx (set_p_result_trx (p_result_trx e) new_evaluation_state))
  else apply_nested pend_state ;;; ret e.

Definition drop_result (e : TransactionEvaluationState) : TransactionEvaluationState :=
  set_p_result_trx (set_operations [] (p_result_trx e)) e.
Definition index_fee (key : FeeIndex) (e : TransactionEvaluationState) : D unit :=
  modify (fun d => set_pending (pending_transaction_db d)
                     (<[key := e]> (pending_fee_index d)) (pending_trx_state d) d).
Definition store_pending (id : TransactionIdType) (trx : SignedTransaction) : D unit :=
  modify (fun d => set_pending (<[id := trx]> (pending_transaction_db d))
                     (pending_fee_index d) (pending_trx_state d) d).

(** The fee asked grows with the square of what the queue has too many. *)
Definition asked_fee (d : ChainDatabase) (override_limits : bool) : ShareType :=
  let queue := Z.of_nat (size (pending_fee_index d)) in
  if negb override_limits && (ALP_BLOCKCHAIN_MAX_PENDING_QUEUE_SIZE <? queue) then
    let overage := queue - ALP_BLOCKCHAIN_MAX_PENDING_QUEUE_SIZE in
    wrap_i64 (relay_fee d * overage * overage)
  else relay_fee d.

Definition store_pending_transaction (trx : SignedTransaction)
    (override_limits contract_vm_exec cache : bool) : D (option TransactionEvaluationState) :=
  let id := trx_id trx in
  d <- get ;;
  match pending_transaction_db d !! id with
  | Some _ => ret None
  | None =>
      e <- evaluate_pending trx (asked_fee d override_limits) contract_vm_exec false cache ;;
      let e' := if has_result e then drop_result e else e in
      index_fee (fees_of e, id) e' ;;;
      store_pending id trx ;;;
      ret (Some e')
  end.

Definition get_pending_transactions (d : ChainDatabase) : list TransactionEvaluationState :=
  map snd (merge_sort entry_before (map_to_list (pending_fee_index d))).

(** The loop over _pending_transaction_db; returns the transactions to
    discard.  The key of the index leaves the alternative fees out. *)
Fixpoint revalidate_from (count : Z) (items : list (TransactionIdType * SignedTransaction))
    : D (list TransactionIdType) :=
  match items with
  | [] => ret []
  | (id, trx) :: items' =>
      fun d =>
        match evaluate_pending trx (relay_fee d) false true false d with
        | (Ok e, d1) =>
            let e' := if has_result e then drop_result e else e in
            (index_fee (get_fees e 0, id) e' ;;;
             if ALP_BLOCKCHAIN_REVALIDATE_MAX_TRX_COUNT <? count + 1 then ret []
             else revalidate_from (count + 1) items') d1
        | (Err x, d1) =>
            if fc_exception x then
              (discard <- revalidate_from count items' ;; ret (id :: discard)) d1
            else (Err x, d1)
        end
  end.
Definition revalidate_pending : D unit :=
  modify (fun d => set_pending (pending_transaction_db d) ∅ (Some (new_pending (Some (db_tables d)))) d) ;;;
  d <- get ;;
  trx_to_discard <- revalidate_from 0 (map_items (pending_transaction_db d)) ;;
  modify (fun d => set_pending
    (foldl (fun m id => delete id m) (pending_transaction_db d) trx_to_discard)
    (pending_fee_index d) (pending_trx_state d) d).

(** get_transaction_error: why [trx] would be refused now.  The flag
    skipexec of the evaluation is not initialised. *)
Definition get_transaction_error (skipexec : bool) (d : ChainDatabase) (trx : SignedTransaction)
    (min_fee : ShareType) : result (option exn) :=
  let '(r, c) := evaluate_transaction trx true
    (mkEvalContext (evaluation_with false false skipexec false) (new_pending (Some (db_tables d)))) in
  let r := match r with
           | Ok _ => if fees_of (ev c) <? min_fee then Err insufficient_relay_fee else Ok tt
           | Err x => Err x
           end in
  match r with
  | Ok _ => Ok None
  | Err x => if fc_exception x then Ok (Some x) else Err x
  end.

(** ** Producing a block *)

Section Generate.
Variable config : DelegateConfig.
(** The time since the start when the transaction at a place of the queue is
    looked at. *)
Variable elapsed : nat -> Z.

(** The fee a transaction with a message of [len] characters has to pay. *)
Definition block_fee (len : Z) : ShareType :=
  wrap_i64 (transaction_min_fee config +
    (if ALP_BLOCKCHAIN_MAX_FREE_MESSAGE_SIZE <? len
     then wrap_i64 (transaction_imessage_min_fee_coe config
                    * (len - ALP_BLOCKCHAIN_MAX_FREE_MESSAGE_SIZE))
     else 0)).

(** The limits that are checked before a transaction is evaluated. *)
Definition admissible (db : ChainTables) (block_size : Z) (trx : SignedTransaction) : bool :=
  (trx_data_size trx <=? transaction_max_size config)
  && (block_size + trx_data_size trx <=? block_max_size config)
  && negb (bool_decide (trx_id trx ∈ transaction_blacklist config))
  && negb (existsb (fun op => bool_decide (op_type op ∈ operation_blacklist config)) (operations trx))
  && check_asset_transfer db trx.

(** The result transaction that is put into the block; one that is too long
    keeps the origin transaction only. *)
Definition block_result (result_trx : SignedTransaction) : SignedTransaction :=
  if transaction_max_size config <? trx_data_size result_trx
  then set_operations (firstn 1 (operations result_trx))
         (set_result incomplete_result_transaction (trx_id result_trx) result_trx)
  else set_result complete_result_transaction (trx_id result_trx) result_trx.

(** The transaction for the block and the state it leaves, or nothing when it
    is passed over. *)
Definition evaluate_for_block (pending_state : Pend) (trx : SignedTransaction)
    : result (option (SignedTransaction * Nested)) :=
  let canonical := transaction_canonical_signatures_required config in
  let '(r, e, origin_trx_state) :=
    evaluate_over (evaluation_with true canonical false false) trx true pending_state in
  let! _ := r in
  let pays e_paid := block_fee (imessage_length e) <=? fees_of e_paid in
  let short := imessage_length e <=? transaction_imessage_max_soft_length config in
  if has_result e then
    let '(r_res, e_res, res_trx_state) :=
      evaluate_over (evaluation_with true canonical true false) (p_result_trx e) true pending_state in
    let! _ := r_res in
    Ok (if short && pays e_res then Some (block_result (p_result_trx e), res_trx_state) else None)
  else Ok (if short && pays e then Some (trx, origin_trx_state) else None).

(** One round of the loop over the queue: what is put into the block. *)
Definition consider (db : ChainTables) (block_size : Z) (new_transaction : SignedTransaction)
    : M Pend (option SignedTransaction) :=
  if negb (admissible db block_size new_transaction) then ret None
  else
    pending_state <- get ;;
    taken <- lift_result (evaluate_for_block pending_state new_transaction) ;;
    match taken with
    | None => ret None
    | Some (trx, pending_trx_state) =>
        if block_max_size config <? block_size + trx_data_size new_transaction then ret None
        else (fun p => match apply_changes pending_trx_state with
                       | (Ok _, Some p') => (Ok tt, p')
                       | (Err x, Some p') => (Err x, p')
                       | (r, None) => (r, p)
                       end) ;;;
             ret (Some trx)
    end.

Fixpoint fill_block (db : ChainTables) (place : nat) (items : list TransactionEvaluationState)
    (block_size : Z) (user_transactions : list SignedTransaction)
    : M Pend (list SignedTransaction) :=
  match items with
  | [] => ret user_transactions
  | item :: items' =>
      if block_max_production_time config <=? elapsed place then ret user_transactions
      else fun p =>
        match consider db block_size (es_trx item) p with
        | (Ok None, p') => fill_block db (Datatypes.S place) items' block_size user_transactions p'
        | (Ok (Some trx), p') =>
            let user_transactions := user_transactions ++ [trx] in
            if block_max_transaction_count config <=? Z.of_nat (List.length user_transactions)
            then (Ok user_transactions, p')
            else fill_block db (Datatypes.S place) items' (block_size + trx_data_size trx)
                   user_transactions p'
        | (Err x, p') =>
            if fc_exception x
            then fill_block db (Datatypes.S place) items' block_size user_transactions p'
            else (Err x, p')
        end
  end.

Definition empty_block : FullBlock := mkFullBlock empty_header [].

Definition generate_block (block_timestamp : time_point_sec) : D FullBlock :=
  d <- get ;;
  let head_block := head_block_header d in
  let block_size := block_data_size empty_block in
  trxs <-
    (if (0 <? block_max_transaction_count config) && (block_size <? block_max_size config)
     then lift_result (fst (fill_block (db_tables d) 0 (get_pending_transactions d) block_size []
                              (new_pending (Some (db_tables d)))))
     else ret []) ;;
  let new_block trx_digest := mkFullBlock
    (mkSignedBlockHeader (if 0 <? block_num head_block then header_id head_block else 0)
       (wrap_u32 (block_num head_block + 1)) block_timestamp trx_digest 0 0 0) trxs in
  ret (new_block (calculate_transaction_digest (digest_block (new_block 0)))).
End Generate.
End Pending.
