(* ===== verification/LedgerTables.v ===== *)
(** * The ledger of the chain database

    ChainTables and the pending states over it keep what the conservation
    theorems ask of a chain state; sample states and transactions evaluated on
    them. *)

From Stdlib Require Import ZArith Lia Bool String.
From stdpp Require Import base gmap strings list sorting fin_sets.
From S2P Require Import Prelude Asset Entries Names ChainInterface ChainState AssetEntry.
From S2P Require Import EvalState BalanceOperations AccountOperations AssetOperations.
From S2P Require Import ContractOperations Evaluate Ledger QuietOperations Transactions.
From S2P Require Import Conservation Safety PendingChainState Undo ChainTables.

Local Open Scope Z_scope.

(** ** Instances *)

Section Instances.
Context `{ChainParams} `{Clock}.

#[export] Instance chain_tables_ledger : LedgerLaws ChainTables.
Proof. intros k Hk. reflexivity. Qed.

#[export] Program Instance chain_tables_support : LedgerSupport ChainTables := {|
  balance_ids d := dom (tables d KBalance);
  account_ids d := dom (tables d KAccount)
|}.
Next Obligation. intros d id Hid. now apply elem_of_dom, not_eq_None_Some. Qed.
Next Obligation. intros d id Hid. now apply elem_of_dom, not_eq_None_Some. Qed.

#[export] Instance pending_ledger {P} `{ChainInterface P} : LedgerLaws (PendingChainState P).
Proof. intros k Hk. now destruct k. Qed.

(** The ids of a pending state: its own and those of the state below. *)
Definition ids_with {P} `{ChainInterface P} (below : P -> gset Z) (own : gset Z)
    (p : PendingChainState P) : gset Z :=
  match prev_state p with Some q => below q ∪ own | None => own end.

Lemma overlay_support {P} `{ChainInterface P} k (p : PendingChainState P) id :
  overlay_lookup k p id <> None ->
  id ∈ dom (to_entry (overlay p k)) \/
  exists q, prev_state p = Some q /\ entry_lookup k q id <> None.
Proof.
  unfold overlay_lookup. intros Hid.
  destruct (to_entry (overlay p k) !! id) as [v |] eqn:E; [left; apply elem_of_dom; exists v; exact E |].
  destruct (bool_decide _); [congruence |]. destruct (prev_state p) as [q |]; [eauto | congruence].
Qed.

Lemma ids_with_spec {P} `{ChainInterface P} (has : P -> Prop) (below : P -> gset Z) own p id :
  id ∈ own \/ (exists q, prev_state p = Some q /\ has q) ->
  (forall q, has q -> id ∈ below q) -> id ∈ ids_with below own p.
Proof.
  unfold ids_with. intros [Hid | (q & -> & Hq)] Hb; [destruct (prev_state p); set_solver |].
  apply Hb in Hq. set_solver.
Qed.

#[export] Program Instance pending_support {P} `{LedgerSupport P}
  : LedgerSupport (PendingChainState P) := {|
  balance_ids p := ids_with balance_ids (dom (to_entry (overlay p KBalance))) p;
  account_ids p := ids_with account_ids (dom (to_entry (overlay p KAccount))) p
|}.
Next Obligation.
  intros P HI SP p id Hid. apply (ids_with_spec (fun q => get_balance_entry q id <> None)); [| intros q; apply balance_ids_spec].
  apply (overlay_support KBalance p id Hid).
Qed.
Next Obligation.
  intros P HI SP p id Hid. apply (ids_with_spec (fun q => get_account_entry q id <> None)); [| intros q; apply account_ids_spec].
  apply (overlay_support KAccount p id Hid).
Qed.
End Instances.

(** ** A sample ledger *)

Section Samples.
#[local] Existing Instance reference_params.
#[local] Existing Instance reference_clock.

(** A virtual machine that runs every call in ten instructions. *)
#[local] Instance reference_vm {S} : GluaVM S := {|
  run_contract call c := (mkContractOutcome false 0 10, (p_result_trx (ev c), 0));
  amount_to_arg v := ""
|}.

(** The base asset as genesis stores it: its authority asks for no signature. *)
Definition base_asset (supply : ShareType) : AssetEntry :=
  mkAssetEntry 0 "ACT" "Achain" "" VNull 0 ALP_BLOCKCHAIN_PRECISION 1 1
    ALP_BLOCKCHAIN_MAX_SHARES supply 0 0 0 0 0 (mkMultisigMetaInfo 0 ∅).

Definition temp_contract : ContractEntry :=
  mkContractEntry "" 9 contract_level_temp 205 contract_state_valid "" (mkCode ∅ ∅ ∅ ∅ [] "") None 0 0.
Definition contract_balance (id amount balance_type : Z) : BalanceEntry :=
  set_balance amount (new_balance_entry
    (mkWithdrawCondition 0 0 balance_type (WithdrawWithSignature id None))).

(** Balances of the addresses 1205 and 1206, a contract of 1205 with its margin
    and a delegate with unpaid pay: all shares that were issued. *)
Definition ledger_tables : ChainTables :=
  table_store KProperty last_account_id (mkPropertyEntry last_account_id (VInt64 5))
    (table_store KAsset 0 (base_asset (1050 + ALP_DEFAULT_CONTRACT_MARGIN))
      (table_store KAccount 5
        (set_delegate_info (Some (mkDelegateStats 10 50 {[ 0 := 305 ]} 0 None 50 0 0 0 0))
          (sample_account 5 "alice"))
        (table_store KContract 9 temp_contract
          (table_store KBalance 1205000000 (sample_balance 1205 600)
            (table_store KBalance 1206000000 (sample_balance 1206 400)
              (table_store KBalance 9000000
                (contract_balance 9 ALP_DEFAULT_CONTRACT_MARGIN withdraw_margin_type)
                empty_tables)))))).
Definition ledger_state : PendingChainState ChainTables := new_pending (Some ledger_tables).
Definition ledger_context : EvalContext (PendingChainState ChainTables) :=
  mkEvalContext new_evaluation_state ledger_state.

Definition sample_trx (ops : list Operation) (sigs : list SignatureType) : SignedTransaction :=
  mkSignedTransaction 1500000100 None "" (mkAsset 0 0) ops origin_transaction 0 sigs.
Definition common_condition (owner : Address) : WithdrawCondition :=
  mkWithdrawCondition 0 0 withdraw_common_type (WithdrawWithSignature owner None).

(** 1205 pays 200 to 1206 and to 1207 each and leaves a fee of 50; the delegate draws its pay. *)
Definition payment : SignedTransaction :=
  sample_trx [OpWithdraw (mkWithdrawOperation 1205000000 450 []);
              OpWithdrawPay (mkWithdrawPayOperation 50 5);
              OpDeposit (mkDepositOperation 250 (common_condition 1206));
              OpDeposit (mkDepositOperation 200 (common_condition 1207))] [205; 205; 105].

(** The owner upgrades the contract, for a fee of 100. *)
Definition upgrade : SignedTransaction :=
  sample_trx [OpUpgradeContract (mkUpgradeContractOperation 9 "token" "a token" (mkAsset 0 0)
    (mkAsset 100 0) {[ 1205000000 := 500 ]})] [205].
(** Its result: the fee and the margin are withdrawn, the contract is upgraded. *)
Definition upgrade_result : SignedTransaction :=
  mkSignedTransaction 1500000100 None "" (mkAsset 0 0)
    [OpTransaction upgrade;
     OpBalancesWithdraw (mkBalancesWithdrawOperation {[ 1205000000 := 100 ]});
     OpWithdrawContract (mkWithdrawContractOperation 9000000 ALP_DEFAULT_CONTRACT_MARGIN 0);
     OpOnUpgrade (mkOnUpgradeOperation 9 "token" "a token")]
    complete_result_transaction 1500000100 [].

(** *** The sample ledger is sound *)

Lemma run_fst {S A} (m : M S A) s a : fst (m s) = Ok a -> m s = (Ok a, snd (m s)).
Proof. now destruct (m s) as [r s']; intros [= ->]. Qed.

(** Over a new pending state lookups answer as below it. *)
Lemma pending_view k key : overlay_kind k = true ->
  db_lookup k ledger_state key = db_lookup k ledger_tables key.
Proof.
  intros Hk. cbn [db_lookup pending_chain_interface]. rewrite pcs_lookup_generic by exact Hk.
  unfold overlay_lookup. cbn. now rewrite lookup_empty, bool_decide_false by set_solver.
Qed.

Lemma stored_in {A} (P : Z -> A -> Prop) (l : list (Z * A)) :
  Forall (fun item => P (fst item) (snd item)) l ->
  forall id a, (list_to_map l : gmap Z A) !! id = Some a -> P id a.
Proof.
  intros Hl id a E. apply elem_of_list_to_map_2 in E.
  rewrite Forall_forall in Hl. exact (Hl (id, a) E).
Qed.

Definition sample_balances : list (Z * BalanceEntry) :=
  [(1205000000, sample_balance 1205 600); (1206000000, sample_balance 1206 400);
   (9000000, contract_balance 9 ALP_DEFAULT_CONTRACT_MARGIN withdraw_margin_type)].

Lemma ledger_sound : sound 2 ledger_context.
Proof.
  assert (forall id b, get_balance_entry ledger_state id = Some b ->
            balance_id b = id /\ depositable (condition b) = true) as Hb.
  { unfold get_balance_entry, entry_lookup. intros id b. rewrite pending_view by reflexivity.
    apply (stored_in (fun id b => balance_id b = id /\ depositable (condition b) = true) sample_balances).
    repeat constructor. }
  assert (forall id x, get_account_entry ledger_state id = Some x -> account_id x = id /\ id = 5) as Ha.
  { unfold get_account_entry, entry_lookup. intros id x. rewrite pending_view by reflexivity.
    apply (stored_in (fun id x => account_id x = id /\ id = 5) [(5, _)]). repeat constructor. }
  assert (forall id x, get_asset_entry ledger_state id = Some x ->
            ast_id x = id /\ current_share_supply x = 1050 + ALP_DEFAULT_CONTRACT_MARGIN) as Has.
  { unfold get_asset_entry, entry_lookup. intros id x. rewrite pending_view by reflexivity.
    apply (stored_in (fun id x => ast_id x = id /\ current_share_supply x = 1050 + ALP_DEFAULT_CONTRACT_MARGIN) [(0, _)]).
    repeat constructor. }
  split.
  - split; intros; [now apply Hb | now apply Ha | now apply Has | now apply (Hb id)].
  - intros id x Hx. destruct (Has _ _ Hx) as [_ ->]. vm_compute. split; discriminate.
  - intros i. apply zero_in_i64.
  - exists 5. split; [vm_compute; reflexivity |]. split; [lia |]. split; [cbn; lia |].
    intros id. cbn [current_state ledger_context].
    destruct (get_account_entry ledger_state id) eqn:E; [| congruence].
    intros _. destruct (Ha _ _ E). lia.
Qed.

Definition after_payment := snd (evaluate_transaction payment true ledger_context).
Definition after_upgrade := snd (evaluate_transaction upgrade_result true ledger_context).

Lemma payment_runs : evaluate_transaction payment true ledger_context = (Ok tt, after_payment).
Proof. refine (run_fst (evaluate_transaction payment true) ledger_context tt _). vm_compute. reflexivity. Qed.
Lemma upgrade_runs : evaluate_transaction upgrade_result true ledger_context = (Ok tt, after_upgrade).
Proof. refine (run_fst (evaluate_transaction upgrade_result true) ledger_context tt _). vm_compute. reflexivity. Qed.

Lemma evaluate_refines_witness : transacts payment ledger_context after_payment.
Proof.
  exact (evaluate_refines payment true ledger_context tt after_payment eq_refl
           (fun E => False_ind _ (diff_false_true E)) payment_runs).
Defined.

Lemma shares_conserved_witness :
  surplus (current_state after_payment) 0 = surplus (current_state ledger_context) 0 /\
  option_map balance (get_balance_entry (current_state after_payment) 1207000000) = Some 200.
Proof.
  split; [| vm_compute; reflexivity].
  exact (shares_conserved payment true ledger_context tt after_payment 0 eq_refl eq_refl
           (sound_room 2 0 _ ledger_sound (Nat.le_0_l 2)) eq_refl eq_refl payment_runs).
Defined.

Lemma result_shares_conserved_witness :
  is_result upgrade_result = true /\
  surplus (current_state after_upgrade) 0 mod 2 ^ 64 =
    surplus (current_state ledger_context) 0 mod 2 ^ 64.
Proof.
  split; [reflexivity |].
  assert (Forall plain (tail (operations upgrade_result))) as Hp by (repeat constructor; discriminate).
  exact (result_shares_conserved upgrade_result true ledger_context tt after_upgrade 0 eq_refl Hp
           (sound_room 2 0 _ ledger_sound (Nat.le_0_l 2)) eq_refl eq_refl upgrade_runs).
Defined.

Lemma evaluate_keeps_sound_witness : sound 2 after_payment.
Proof.
  exact (evaluate_keeps_sound payment true ledger_context tt after_payment 2 eq_refl
           (fun E => False_ind _ (diff_false_true E)) ledger_sound payment_runs).
Defined.


Lemma fees_collected_witness :
  fees_in (get_asset_entry (current_state after_payment) 0) = 50.
Proof.
  destruct (fees_collected payment true ledger_context tt after_payment 0 eq_refl
              (fun E => False_ind _ (diff_false_true E))
              (sound_room 2 0 _ ledger_sound (Nat.le_0_l 2)) eq_refl eq_refl payment_runs) as [Hf _].
  rewrite Hf. vm_compute. reflexivity.
Defined.

Lemma asset_rules_kept_witness :
  exists x', get_asset_entry (current_state after_payment) 0 = Some x' /\
    rules_kept (base_asset (1050 + ALP_DEFAULT_CONTRACT_MARGIN)) x'.
Proof.
  exact (asset_rules_kept payment true ledger_context tt after_payment
           (base_asset (1050 + ALP_DEFAULT_CONTRACT_MARGIN)) eq_refl
           (fun E => False_ind _ (diff_false_true E))
           (sound_room 2 0 _ ledger_sound (Nat.le_0_l 2)) eq_refl eq_refl payment_runs).
Defined.

(** *** What the rules let through *)

(** Somebody appoints the issuer of the base asset and issues a thousand
    shares to themself. *)
Definition takeover : SignedTransaction :=
  sample_trx
    [OpUpdateAssetExt (mkUpdateAssetExtOperation
       (mkUpdateAssetOperation 0 None None None None None) 0 0 5 0 0 (mkMultisigMetaInfo 0 ∅));
     OpIssueAsset (mkIssueAssetOperation (mkAsset 1000 0));
     OpDeposit (mkDepositOperation 1000 (common_condition 1666))] [].
Definition after_takeover := evaluate_transaction takeover true ledger_context.

(** Nobody needs to sign for the base asset, whose authority, as genesis
    leaves it, asks for no signature: a transaction without signatures issues
    shares of it. *)
Example anyone_issues_base_asset :
  fst after_takeover = Ok tt /\ signed_keys (ev (snd after_takeover)) = ∅ /\
  option_map balance (get_balance_entry (current_state (snd after_takeover)) 1666000000) = Some 1000.
Proof. split; [| split]; vm_compute; reflexivity. Qed.

(** The result of the upgrade, with other operations: one takes what 1206 owns. *)
Definition forged_result : SignedTransaction :=
  mkSignedTransaction 1500000100 None "" (mkAsset 0 0)
    [OpTransaction upgrade;
     OpBalancesWithdraw (mkBalancesWithdrawOperation {[ 1205000000 := 100 ]});
     OpWithdrawContract (mkWithdrawContractOperation 9000000 ALP_DEFAULT_CONTRACT_MARGIN 0);
     OpWithdrawContract (mkWithdrawContractOperation 1206000000 400 0);
     OpDeposit (mkDepositOperation 400 (common_condition 1666))]
    complete_result_transaction 1500000100 [].
Definition after_forgery := evaluate_transaction forged_result true ledger_context.

(** A result transaction is compared with the result of its contract
    operation by the identifier it claims only: operations other than those of
    the result are accepted, and a balance is spent that nobody signed for. *)
Example forged_result_accepted :
  fst after_forgery = Ok tt /\ operations forged_result <> operations upgrade_result /\
  option_map balance (get_balance_entry (current_state (snd after_forgery)) 1206000000) = Some 0 /\
  option_map balance (get_balance_entry (current_state (snd after_forgery)) 1666000000) = Some 400.
Proof.
  split; [vm_compute; reflexivity | split; [discriminate |]].
  split; vm_compute; reflexivity.
Qed.

(** An incomplete result with a deposit added. *)
Definition padded_result : SignedTransaction :=
  mkSignedTransaction 1500000100 None "" (mkAsset 0 0)
    [OpTransaction upgrade; OpDeposit (mkDepositOperation 500000 (common_condition 1666))]
    incomplete_result_transaction 1500000100 [].
Definition after_padding := evaluate_transaction padded_result true ledger_context.

(** The operations after the first of an incomplete result are evaluated
    but never settled, so a deposit among them makes shares. *)
Example incomplete_result_makes_shares :
  fst after_padding = Ok tt /\
  surplus (current_state (snd after_padding)) 0 = surplus (current_state ledger_context) 0 + 500000.
Proof. split; vm_compute; reflexivity. Qed.

(** The result of the upgrade with one more operation, a transaction of its own
    by which 1206 pays a fee of 50. *)
Definition nested_payment : SignedTransaction :=
  mkSignedTransaction 1500000101 None "" (mkAsset 0 0)
    [OpWithdraw (mkWithdrawOperation 1206000000 50 [])] origin_transaction 0 [206].
Definition nested_result : SignedTransaction :=
  mkSignedTransaction 1500000100 None "" (mkAsset 0 0)
    (operations upgrade_result ++ [OpTransaction nested_payment])%list
    complete_result_transaction 1500000100 [].
Definition after_nesting := evaluate_transaction nested_result true ledger_context.

(** A transaction nested behind the first operation is not refused.  It is
    evaluated in the books of the result and settles them, and then the result
    settles the same books again: the fees are collected twice, and shares are
    made.  The theorems on results exclude such tails ([plain]). *)
Example nested_result_settles_twice :
  check_operations_legality nested_result = true /\ fst after_nesting = Ok tt /\
  fees_in (get_asset_entry (current_state (snd after_nesting)) 0) = 2 * (ALP_DEFAULT_CONTRACT_MARGIN + 150) /\
  surplus (current_state (snd after_nesting)) 0 =
    surplus (current_state ledger_context) 0 + ALP_DEFAULT_CONTRACT_MARGIN + 150.
Proof. repeat split; vm_compute; reflexivity. Qed.
End Samples.
