(* ===== verification/TransferCheck.v ===== *)
(** * What a block producer takes for a transfer

    check_asset_transfer, by a loop over the operations, against a declarative
    description of the transactions it lets pass. *)

From Stdlib Require Import ZArith Lia Bool String.
From stdpp Require Import base gmap strings list option.
From S2P Require Import Prelude Asset Entries Names ChainInterface ChainState Conservation.
From S2P Require Import ChainTables Pending.

Local Open Scope Z_scope.

(** A transaction of payments, messages and slates only. *)
Definition transfer_op (op : Operation) : bool :=
  match op with
  | OpDeposit _ | OpWithdraw _ | OpImessageMemo _ | OpDefineSlate _ => true
  | _ => false
  end.
Definition deposit_of (op : Operation) : option DepositOperation :=
  match op with OpDeposit o => Some o | _ => None end.
Definition withdrawal_of (op : Operation) : option WithdrawOperation :=
  match op with OpWithdraw o => Some o | _ => None end.
Definition paid_in (ops : list Operation) : Z := zsum (map dep_amount (omap deposit_of ops)).
Definition drawn (ops : list Operation) : Z := zsum (map wd_amount (omap withdrawal_of ops)).

Section TransferCheck.
Context `{ChainParams} {S : Type} `{ChainInterface S}.

(** The assets of the balances the transaction draws from, if all are known *)
Definition asset_drawn (db : S) (o : WithdrawOperation) : option AssetIdType :=
  option_map (fun b => cond_asset_id (condition b)) (get_balance_entry db (wd_balance_id o)).
Definition assets_drawn (db : S) (ops : list Operation) : option (list AssetIdType) :=
  mapM (asset_drawn db) (omap withdrawal_of ops).

(** The asset other than the base asset that is drawn, starting with [a]. *)
Fixpoint other_asset (a : AssetIdType) (assets : list AssetIdType) : option AssetIdType :=
  match assets with
  | [] => Some a
  | x :: assets' =>
      if x =? 0 then other_asset a assets'
      else if (a =? 0) || (a =? x) then other_asset x assets' else None
  end.

Lemma other_asset_spec assets : forall a r, other_asset a assets = Some r <->
  (forall x, x ∈ assets -> x = 0 \/ x = r) /\ (a = 0 \/ a = r) /\ (r = a \/ r ∈ assets).
Proof.
  induction assets as [| x assets IH]; intros a r; cbn [other_asset].
  - split; [intros [= ->]; set_solver | intros (_ & _ & [-> | Hr]); [reflexivity | set_solver]].
  - destruct (Z.eqb_spec x 0) as [-> | Hx].
    + rewrite IH. split.
      * intros (H1 & H2 & H3). set_solver.
      * intros (H1 & H2 & [-> | [-> | Hr]%elem_of_cons]); [set_solver | | set_solver].
        split; [set_solver | split; [auto | left; lia]].
    + destruct (Z.eqb_spec a 0) as [-> | Ha]; cbn [orb]; [| destruct (Z.eqb_spec a x) as [-> | Hax]]; rewrite ?IH.
      * split.
        -- intros (H1 & [E | E] & H3); [congruence | subst x]. set_solver.
        -- intros (H1 & _ & H3). destruct (H1 x) as [E | ->]; [set_solver | congruence |]. set_solver.
      * split.
        -- intros (H1 & [E | E] & H3); [congruence | subst x]. set_solver.
        -- intros (H1 & [E | ->] & H3); [congruence |]. set_solver.
      * split; [discriminate |]. intros (H1 & [E | ->] & _); [congruence |].
        destruct (H1 x) as [E | E]; [set_solver | congruence | congruence].
Qed.

(** What the loop adds up, when nothing overflows. *)
Definition summed (ops : list Operation) (a : AssetIdType) (v : TransferSums) : TransferSums :=
  mkTransferSums (withdraw_amount v + drawn ops) (deposit_amount v + paid_in ops)
    (List.last (map (fun o => cond_asset_id (dep_condition o)) (omap deposit_of ops)) (deposited_asset v))
    a (deposit_num v + Z.of_nat (List.length (omap deposit_of ops))).
Definition positive_op (op : Operation) : Prop :=
  match op with
  | OpDeposit o => 0 <= dep_amount o
  | OpWithdraw o => 0 <= wd_amount o
  | _ => True
  end.

Lemma zsum_cons x l : zsum (x :: l) = x + zsum l.
Proof. reflexivity. Qed.
Lemma amounts_nonneg ops : Forall positive_op ops -> 0 <= drawn ops /\ 0 <= paid_in ops.
Proof.
  unfold drawn, paid_in. induction 1 as [| op ops Hop _ IH]; [split; reflexivity |].
  destruct op; cbn [omap list_omap deposit_of withdrawal_of map] in *; rewrite ?zsum_cons;
    cbn [positive_op] in Hop; lia.
Qed.

Lemma last_default {A} (l : list A) d d' : l <> [] -> List.last l d = List.last l d'.
Proof. induction l as [| x [| y l] IH]; [easy | reflexivity |]. intros _. now apply IH. Qed.
Lemma last_cons_default {A} (x : A) l d : List.last (x :: l) d = List.last l x.
Proof.
  destruct l as [| y l]; [reflexivity |]. change (List.last (x :: y :: l) d) with (List.last (y :: l) d).
  now apply last_default.
Qed.

Lemma assets_drawn_withdraw db o ops : assets_drawn db (OpWithdraw o :: ops) =
  match asset_drawn db o, assets_drawn db ops with
  | Some c, Some assets => Some (c :: assets)
  | _, _ => None
  end.
Proof.
  unfold assets_drawn. cbn. destruct (asset_drawn db o); [| reflexivity]. cbn.
  now destruct (mapM _ _).
Qed.

Lemma scan_transfer_spec db ops : forall v, forallb transfer_op ops = true -> Forall positive_op ops ->
  0 <= withdraw_amount v -> withdraw_amount v + drawn ops <= INT64_MAX ->
  0 <= deposit_amount v -> deposit_amount v + paid_in ops <= INT64_MAX ->
  0 <= deposit_num v -> deposit_num v + Z.of_nat (List.length (omap deposit_of ops)) < 2 ^ 32 ->
  scan_transfer db ops v =
  match assets_drawn db ops with
  | None => inl false
  | Some assets => match other_asset (withdrawn_asset v) assets with
                   | None => inl false
                   | Some a => inr (summed ops a v)
                   end
  end.
Proof.
  induction ops as [| op ops IH]; intros v Hop Hpos Hw0 Hw Hd0 Hd Hn0 Hn.
  { unfold assets_drawn, summed. cbn. rewrite !Z.add_0_r. now destruct v. }
  apply andb_true_iff in Hop as [Hop Hops]. apply Forall_cons_1 in Hpos as [Hpos Hposs].
  pose proof (amounts_nonneg _ Hposs) as [Hdn Hpn].
  assert (forall z, 0 <= z <= INT64_MAX -> wrap_i64 z = z) as Hwrap
    by (intros z Hz; apply wrap_i64_small; unfold in_i64, INT64_MIN, INT64_MAX in *; lia).
  destruct op; try discriminate Hop; cbn [positive_op] in Hpos;
    unfold drawn, paid_in in *; cbn [scan_transfer omap list_omap deposit_of withdrawal_of map List.length] in *;
    rewrite ?zsum_cons in *.
  - (* withdraw *)
    rewrite assets_drawn_withdraw. unfold asset_drawn.
    destruct (get_balance_entry db (wd_balance_id o)) as [b |]; cbn [option_map]; [| reflexivity].
    rewrite Hwrap by lia. set (c := cond_asset_id (condition b)).
    set (w := withdraw_amount v + wd_amount o).
    assert (forall a, scan_transfer db ops (mkTransferSums w (deposit_amount v) (deposited_asset v) a (deposit_num v)) =
      match assets_drawn db ops with
      | None => inl false
      | Some assets => match other_asset a assets with
                       | None => inl false
                       | Some a' => inr (summed (OpWithdraw o :: ops) a' v)
                       end
      end) as Hrest.
    { intros a. rewrite IH by (cbn; auto; lia). cbn [withdrawn_asset].
      destruct (assets_drawn db ops) as [assets |]; [| reflexivity].
      destruct (other_asset a assets) as [a' |]; [| reflexivity]. unfold summed, w, drawn, paid_in.
      cbn [omap list_omap deposit_of withdrawal_of map withdraw_amount deposit_amount deposited_asset deposit_num].
      rewrite zsum_cons. do 2 f_equal. lia. }
    rewrite !Hrest. destruct (assets_drawn db ops) as [assets |]; cbn [other_asset].
    + rewrite <- negb_orb. destruct (c =? 0); cbn [negb]; [reflexivity |].
      now destruct ((withdrawn_asset v =? 0) || (withdrawn_asset v =? c)).
    + destruct (negb (c =? 0)); [| reflexivity]. now destruct (_ && _).
  - (* deposit *)
    rewrite !Hwrap, wrap_u32_small by lia. rewrite IH by (cbn; auto; lia). cbn [withdrawn_asset].
    change (assets_drawn db (OpDeposit o :: ops)) with (assets_drawn db ops).
    destruct (assets_drawn db ops) as [assets |]; [| reflexivity].
    destruct (other_asset _ _) as [a |]; [| reflexivity].
    unfold summed, drawn, paid_in.
    cbn [omap list_omap deposit_of withdrawal_of map withdraw_amount deposit_amount deposited_asset deposit_num List.length].
    rewrite zsum_cons, last_cons_default. do 2 f_equal; lia.
  - rewrite IH by (cbn; auto; lia). reflexivity.
  - rewrite IH by (cbn; auto; lia). reflexivity.
Qed.

(** The asset of the last deposit *)
Definition deposited (ops : list Operation) : AssetIdType :=
  List.last (map (fun o => cond_asset_id (dep_condition o)) (omap deposit_of ops)) 0.

(** A transfer a producer takes: all balances it draws from are known, it
    pays into at most one balance and leaves 1000 shares at least, and what it
    draws are base shares and shares of the asset it deposits; a payment to a
    sub-address says what it deposits. *)
Definition proper_transfer (db : S) (trx : SignedTransaction) : Prop :=
  let ops := operations trx in
  exists assets, assets_drawn db ops = Some assets /\
    (List.length (omap deposit_of ops) <= 1)%nat /\
    paid_in ops + 1000 <= drawn ops /\
    (forall x, x ∈ assets -> x = 0 \/ x = deposited ops) /\
    (deposited ops = 0 \/ deposited ops ∈ assets) /\
    (alp_account trx <> EmptyString ->
       alp_inport_asset trx = mkAsset (paid_in ops) (deposited ops)).

(** C19: For a transaction of payments, messages and slates whose amounts are
    not negative and do not overflow, the check of a block producer accepts
    exactly the proper transfers: balances of the base asset may be drawn
    beside those of the one asset that is deposited.  A transaction that
    begins with any other operation passes. *)
Theorem check_asset_transfer_spec db trx op rest : operations trx = op :: rest ->
  (transfer_op op = false -> check_asset_transfer db trx = true) /\
  (forallb transfer_op (op :: rest) = true -> Forall positive_op (op :: rest) ->
   drawn (op :: rest) <= INT64_MAX -> paid_in (op :: rest) + 1000 <= INT64_MAX ->
   Z.of_nat (List.length (op :: rest)) < 2 ^ 32 ->
   check_asset_transfer db trx = true <-> proper_transfer db trx).
Proof.
  intros Eops. unfold check_asset_transfer, proper_transfer. rewrite Eops.
  split; [intros Hop; destruct op; try discriminate Hop; reflexivity |].
  set (ops := op :: rest). intros Hall Hpos Hw Hd Hlen. clearbody ops.
  pose proof (amounts_nonneg _ Hpos) as [Hw0 Hd0].
  assert (Z.of_nat (List.length (omap deposit_of ops)) < 2 ^ 32) as Hnum.
  { enough (List.length (omap deposit_of ops) <= List.length ops)%nat by lia.
    clear. induction ops as [| op ops IH]; cbn; [lia |]. destruct (deposit_of op); cbn; lia. }
  rewrite scan_transfer_spec by (cbn; auto; lia). cbn [withdrawn_asset].
  destruct (assets_drawn db ops) as [assets |].
  2: { split; [discriminate |]. intros (? & E & _). discriminate. }
  assert (forall r, other_asset 0 assets = Some r <->
    (forall x, x ∈ assets -> x = 0 \/ x = r) /\ (r = 0 \/ r ∈ assets)) as Hother
    by (intros r; rewrite other_asset_spec; intuition).
  fold (deposited ops). unfold summed. cbn [deposit_num withdraw_amount deposit_amount deposited_asset].
  fold (deposited ops). rewrite !Z.add_0_l.
  destruct (other_asset 0 assets) as [r |] eqn:Er.
  - cbn [withdrawn_asset deposit_num withdraw_amount deposit_amount deposited_asset].
    assert (deposited ops = r <-> (forall x, x ∈ assets -> x = 0 \/ x = deposited ops) /\
              (deposited ops = 0 \/ deposited ops ∈ assets)) as Hdep.
    { rewrite <- Hother. split; congruence. }
    rewrite wrap_i64_small by (unfold in_i64, INT64_MIN; lia).
    split.
    + destruct (Z.ltb_spec 1 (Z.of_nat (List.length (omap deposit_of ops)))); [discriminate |].
      destruct (Z.ltb_spec (drawn ops) (paid_in ops + 1000)); [discriminate |].
      destruct (negb (String.eqb (alp_account trx) "") && _) eqn:Ealp; [discriminate |].
      intros Edep%Z.eqb_eq. apply Hdep in Edep as [Hx Hin].
      exists assets. do 2 (split; [first [reflexivity | lia] |]). split; [lia |].
      split; [exact Hx | split; [exact Hin |]]. intros Hne%String.eqb_neq. rewrite Hne in Ealp.
      cbn in Ealp. to_prop. destruct (alp_inport_asset trx). cbn in *. congruence.
    + intros (l & E & Hone & Hsum & Hx & Hin & Hsub). assert (l = assets) as -> by congruence.
      destruct (Z.ltb_spec 1 (Z.of_nat (List.length (omap deposit_of ops)))); [lia |].
      destruct (Z.ltb_spec (drawn ops) (paid_in ops + 1000)); [lia |].
      destruct (String.eqb_spec (alp_account trx) "") as [_ | Hne]; cbn [negb andb];
        [| rewrite (Hsub Hne); cbn; rewrite !Z.eqb_refl; cbn [negb orb]];
        apply Z.eqb_eq, Hdep; now split.
  - split; [discriminate |]. intros (l & E & _ & _ & Hx & Hin & _).
    assert (l = assets) as -> by congruence.
    assert (None = Some (deposited ops)) by (apply Hother; split; assumption). congruence.
Qed.
End TransferCheck.
