(* ===== verification/BlockEffects.v ===== *)
(** * What the transactions and delegates of a block do to the ledger

    Applying a block to a pending state keeps the ledger sound, conserves
    shares up to multiples of 2^64, keeps accounts well formed, and writes
    through the chain interface only. *)

From Stdlib Require Import ZArith Lia Bool String.
From stdpp Require Import base gmap strings list fin_sets.
From S2P Require Import Prelude Asset Entries Names ChainInterface ChainState AssetEntry.
From S2P Require Import EvalState ContractOperations Evaluate Ledger QuietOperations.
From S2P Require Import Transactions AccountForms Conservation Blocks PendingChainState Undo.
From S2P Require Import ChainTables Delegates DelegateLists DelegateProduction.
From S2P Require Import ChainDatabase LedgerTables BlockLaws.

Local Open Scope Z_scope.

(** A transaction whose books are settled: fees are due, and operations after
    the transaction of a result are plain. *)
Definition settles (trx : SignedTransaction) : Prop :=
  (is_result trx = true -> Forall plain (tail (operations trx))) /\
  ignores_required_fee trx = false.

(** The accounts the transactions register. *)
Definition registered (trxs : list SignedTransaction) : nat :=
  list_sum (map (fun trx => registrations (operations trx)) trxs).

(** States that look the same have the same surplus, whatever their types. *)
Lemma surplus_views `{ChainParams} {S1 S2} `{H1 : ChainInterface S1} `{H2 : ChainInterface S2}
    `{P1 : !LedgerSupport S1} `{P2 : !LedgerSupport S2} (s1 : S1) (s2 : S2) a :
  (forall id, get_balance_entry s1 id = get_balance_entry s2 id) ->
  (forall id, pay_in a (get_account_entry s1 id) = pay_in a (get_account_entry s2 id)) ->
  get_asset_entry s1 a = get_asset_entry s2 a -> surplus s1 a = surplus s2 a.
Proof.
  intros Eb Ea Es. unfold surplus. rewrite Es. f_equal. f_equal.
  - rewrite (sum_over_update (fun id => shares_of a (get_balance_entry s2 id)) _ 0
               (balance_ids s2) (balance_ids s1)); intros; rewrite ?Eb; try lia.
    + apply balance_ids_spec. intros E. now rewrite E in *.
    + apply balance_ids_spec. intros E. now rewrite Eb, E in *.
  - rewrite (sum_over_update (fun id => pay_in a (get_account_entry s2 id)) _ 0
               (account_ids s2) (account_ids s1)); intros; rewrite ?Ea; try lia.
    + apply account_ids_spec. intros E. now rewrite E in *.
    + apply account_ids_spec. intros E. now rewrite E in *.
Qed.

Section Effects.
Context `{ChainParams} `{BlockParams} `{Clock}.
Context {S : Type} `{HI : ChainInterface S} `{HL : !ChainInterfaceLaws S} `{LW : !LedgerLaws S}
  `{SP : !LedgerSupport S} `{VM : GluaVM S}.

(** The state a new evaluation starts from. *)
Definition evaluation_of (s : S) : EvalContext S := mkEvalContext new_evaluation_state s.
(** Sound, with room for [n] more accounts. *)
Definition sound_state (n : nat) (s : S) : Prop := sound n (evaluation_of s).

Lemma sound_state_of n e (s : S) : withdraws e = ∅ ->
  sound n (mkEvalContext e s) <-> sound_state n s.
Proof.
  intros He. split; intros [Q1 Q2 Q3 Q4]; split; auto; intros i; cbn in *; rewrite ?He;
    apply zero_in_i64.
Qed.

Lemma run_evaluation_Ok {A} e (m : M (EvalContext S) A) (s : S) r s' :
  run_evaluation e m s = (Ok r, s') ->
  exists a c, m (mkEvalContext e s) = (Ok a, c) /\ s' = current_state c /\ r = (a, ev c).
Proof.
  unfold run_evaluation. destruct (m (mkEvalContext e s)) as [[a | x] c]; [| discriminate].
  intros [= <- <-]. eauto.
Qed.

Lemma set_location_same num n id (s : S) u s' :
  set_location num n id s = (Ok u, s') -> same_ledger s s'.
Proof.
  unfold set_location. intros R. run_inv R.
  eapply (store_same_ledger KTransaction); [reflexivity .. | eassumption].
Qed.

Lemma origin_of_Ok trx (s : S) o s' : origin_of trx s = (Ok o, s') -> s' = s.
Proof.
  unfold origin_of. destruct (operations trx) as [| [] ?]; intros R; now run_inv R.
Qed.

Lemma set_locations_same num n trx (s : S) u s' :
  set_locations num n trx s = (Ok u, s') -> same_ledger s s'.
Proof.
  unfold set_locations. repeat case_match; intros R; run_inv R;
    repeat match goal with
    | Ho : origin_of _ _ = _ |- _ => apply origin_of_Ok in Ho as ->
    | Hs : set_location _ _ _ _ = _ |- _ => apply set_location_same in Hs
    end; first [reflexivity | assumption | etransitivity; [eassumption |]];
    try assumption; etransitivity; eassumption.
Qed.

Lemma execute_transaction_Ok generating vm num n trx (s : S) u s' :
  execute_transaction generating vm num n trx s = (Ok u, s') ->
  exists skip u' c, evaluate_transaction trx true (mkEvalContext (evaluation_with true false skip false) s)
                   = (Ok u', c) /\ same_ledger (current_state c) s'.
Proof.
  unfold execute_transaction. intros R. apply bind_Ok in R as (u1 & s1 & [_ <-]%fc_assert_Ok & R).
  apply bind_Ok in R as (b & s2 & Rb & R).
  assert (s2 = s) as -> by (destruct generating; run_inv Rb; reflexivity).
  cbv zeta in R. apply bind_Ok in R as (r & s3 & R1 & R).
  apply run_evaluation_Ok in R1 as (a & c & R1 & -> & _). apply set_locations_same in R. eauto.
Qed.

Lemma execute_transaction_effect generating vm num n trx room (s : S) u s' a : settles trx ->
  sound_state (registrations (operations trx) + room) s ->
  execute_transaction generating vm num n trx s = (Ok u, s') ->
  sound_state room s' /\ exists k, surplus s' a = surplus s a + k * 2 ^ 64.
Proof.
  intros [Hp Hf] Hs R. apply execute_transaction_Ok in R as (skip & u' & c & R & Hsame).
  set (c0 := mkEvalContext (evaluation_with true false skip false) s) in *.
  assert (sound (registrations (operations trx) + room) c0) as Hs0 by now apply sound_state_of.
  destruct (evaluate_steps trx true c0 u' c eq_refl Hp R) as (c1 & Hsteps & Hc).
  pose proof (closes_sound _ _ _ _ Hc (steps_sound _ _ _ _ _ Hsteps Hs0)) as Hs1.
  destruct (settled_surplus trx true c0 u' c a) as [k Hk]; try assumption;
    [split; [reflexivity | exact Hp] | eapply sound_room; [exact Hs0 | lia] |].
  split.
  - eapply (sound_same room c); [exact Hsame | intros i; apply zero_in_i64 | exact Hs1].
  - exists (k * if is_result trx then 1 else 0). rewrite (surplus_same _ _ _ Hsame), Hk.
    unfold in_hand, turn. change (at0 (es_balance (ev c0)) a) with 0. cbn [current_state c0].
    destruct (is_result trx); lia.
Qed.

Lemma execute_transactions_effect generating vm num trxs a : Forall settles trxs ->
  forall room n (s : S) u s', sound_state (registered trxs + room) s ->
  execute_transactions generating vm num n trxs s = (Ok u, s') ->
  sound_state room s' /\ exists k, surplus s' a = surplus s a + k * 2 ^ 64.
Proof.
  induction 1 as [| trx trxs Ht _ IH]; intros room n s u s' Hs R; cbn [execute_transactions] in R.
  - apply ret_Ok in R as [_ <-]. split; [exact Hs | exists 0; lia].
  - apply bind_Ok in R as ([] & s1 & R1 & R). unfold registered in Hs. cbn [map list_sum foldr] in Hs.
    rewrite <- Nat.add_assoc in Hs.
    destruct (execute_transaction_effect _ _ _ _ _ _ _ _ _ a Ht Hs R1) as (Hs1 & k1 & E1).
    destruct (IH _ _ _ _ _ Hs1 R) as (Hs2 & k2 & E2). split; [exact Hs2 |].
    exists (k1 + k2). rewrite E2, E1. ring.
Qed.

(** ** The delegates *)

Lemma become_existence f (s s' : S) id : accounts_become f s s' ->
  get_account_entry s' id <> None <-> get_account_entry s id <> None.
Proof. intros [_ E _ _]. rewrite E. now destruct (get_account_entry s id). Qed.

Lemma become_sound f n (s s' : S) : accounts_become f s s' ->
  (forall id a, account_id (f id a) = account_id a) -> sound_state n s -> sound_state n s'.
Proof.
  intros Hb Hf [Q1 Q2 Q3 Q4]. split; cbn [current_state evaluation_of] in *.
  - eapply become_ids; eassumption.
  - eapply supply_same; [apply Hb | exact Q2].
  - exact Q3.
  - destruct Q4 as (last & E & L1 & L2 & L3). exists last.
    rewrite (last_account_eq _ _ (become_last _ _ _ Hb)). repeat split; auto.
    intros id Hid. apply L3, (become_existence _ _ _ _ Hb), Hid.
Qed.

Lemma become_surplus f (s s' : S) a : accounts_become f s s' ->
  (forall id x, pay_of (f id x) = pay_of x) -> surplus s' a = surplus s a.
Proof.
  intros [Q1 Q2 Q3 _] Hf. apply surplus_views; [exact Q1 | | apply Q3].
  intros id. rewrite Q2. unfold pay_in. now destruct (get_account_entry s id); cbn; rewrite ?Hf.
Qed.

Lemma production_effect self h id key n (s : S) u s' a : sound_state n s ->
  0 <= first_missed self h -> timestamp h + interval < 2 ^ 32 ->
  update_delegate_production_info self h id key s = (Ok u, s') ->
  sound_state n s' /\ surplus s' a = surplus s a.
Proof.
  intros Hs Hlo Hu R.
  destruct (production_run _ _ _ _ _ _ _ (sound_ids _ _ Hs) Hlo Hu R)
    as (signee & x & active & missed & r & _ & _ & _ & _ & _ & _ & Hb & _).
  split; [apply (become_sound _ n _ _ Hb); [intros; apply production_id | exact Hs] |].
  apply (become_surplus _ _ _ _ Hb). intros; apply production_pay.
Qed.

Lemma pay_effect self key n (s : S) u s' a : sound_state n s ->
  pay_delegate self key s = (Ok u, s') ->
  sound_state n s' /\ exists k, surplus s' a = surplus s a + k * 2 ^ 64.
Proof.
  intros Hs R. pose proof (sound_ids _ _ Hs : own_ids s) as Ho.
  destruct (pay_run _ _ _ _ _ R)
    as (base & signee & x & d & s1 & Hb & Hsig & Ha & Hd & Hr & Hpay). cbv zeta in Hpay.
  set (p := paycheck (t_head_block_num self) (pay_rate d) (collected_fees base)) in *.
  destruct Hpay as (_ & _ & _ & _ & Hp & Hq). pose proof (own_account _ Ho _ _ Ha) as Hid.
  assert (get_account_entry s (account_id x) = Some x) as Ha' by (now rewrite Hid).
  assert (forall (s : S) i, in_i64 (at0 (withdraws (ev (evaluation_of s))) i)) as Hw
    by (intros; apply zero_in_i64).
  split.
  - eapply (sound_asset n (pay_asset p base) (evaluation_of s1)); [exact Hq | apply wrap_i64_range | apply Hw |].
    eapply (sound_account n (account_id x) x _ (evaluation_of s));
      [exact Hp | exact Ha' | reflexivity | apply Hw | exact Hs].
  - destruct (paycheck_moves p base d (paycheck_split _ _ _)) as [k Ek].
    exists (if a =? 0 then k else 0).
    rewrite (pay_put_surplus p base x d s s1 s' a Ho Hb Ha' Hd Hp Hq), Ek. destruct (a =? 0); lia.
Qed.

Lemma same_effect n (s s' : S) a : same_ledger s s' -> sound_state n s ->
  sound_state n s' /\ surplus s' a = surplus s a.
Proof.
  intros Hsame Hs. split; [| now apply surplus_same].
  eapply (sound_same n (evaluation_of s)); [exact Hsame | intros i; apply zero_in_i64 | exact Hs].
Qed.

Lemma active_list_same self num (s : S) u s' :
  update_active_delegate_list self num s = (Ok u, s') -> same_ledger s s'.
Proof.
  unfold update_active_delegate_list. destruct (negb _); intros R; run_inv R; [reflexivity |].
  eapply store_property_Ok; [eassumption | discriminate].
Qed.
Lemma random_seed_same secret (s : S) u s' :
  update_random_seed secret s = (Ok u, s') -> same_ledger s s'.
Proof. unfold update_random_seed. intros R. run_inv R. eapply store_property_Ok; [eassumption | discriminate]. Qed.

(** ** Well formed accounts *)

Lemma same_wf (s s' : S) : same_ledger s s' -> accounts_wf s -> accounts_wf s'.
Proof. intros [_ Ea _ _]. now apply same_accounts_wf. Qed.

(** A delegate read from the state is stored with other statistics. *)
Lemma store_delegate_forms (s s1 s' : S) id x d d' u : get_account_entry s id = Some x ->
  delegate_info x = Some d -> signing_key_history d' = signing_key_history d ->
  store_account_entry (set_delegate_info (Some d') x) s1 = (Ok u, s') ->
  accounts_wf s -> accounts_wf s1 -> accounts_wf s'.
Proof.
  intros Hx Hd Hk R Hs Hs1. apply store_account_Ok in R. apply (put_account_wf _ _ _ R); [| exact Hs1].
  pose proof (Hs _ _ Hx) as Hw. apply account_wf_info; [exact Hw |]. rewrite Hk. exact (proj2 Hw d Hd).
Qed.

Lemma missed_slots_forms self active until n : forall slot r (s : S) x s',
  missed_slots n self active slot until r s = (Ok x, s') -> accounts_wf s -> accounts_wf s'.
Proof.
  induction n as [| n IH]; intros slot r s x s' R Hs; cbn [missed_slots] in R;
    destruct (until <=? slot); run_inv R; try exact Hs.
  match goal with Hd : delegate_of _ _ = _ |- _ => apply delegate_of_Ok in Hd as (Ha & Hi & ->) end.
  match goal with Hr : when _ _ _ = _ |- _ => apply record_slot_same in Hr as Hslot; clear Hr end.
  match goal with Hm : missed_slots _ _ _ _ _ _ _ = _ |- _ => apply (IH _ _ _ _ _ Hm) end.
  apply (same_wf _ _ Hslot). eapply store_delegate_forms; [exact Ha | exact Hi | | eassumption | | ];
    [reflexivity | exact Hs | exact Hs].
Qed.

Lemma production_forms self h id key (s : S) u s' :
  update_delegate_production_info self h id key s = (Ok u, s') -> accounts_wf s -> accounts_wf s'.
Proof.
  intros R Hs. unfold update_delegate_production_info in R. run_inv R.
  match goal with Hd : delegate_of _ _ = _ |- _ => apply delegate_of_Ok in Hd as (Ha & Hi & ->) end.
  match goal with Hx : match _ with _ => _ end _ = _ |- _ => apply secret_Ok in Hx as [_ ->] end.
  match goal with Hr : when _ _ _ = _ |- _ => apply record_slot_same in Hr as Hslot; clear Hr end.
  match goal with Hc : set_required_confirmations _ _ = _ |- _ =>
    apply store_property_Ok in Hc; [apply (same_wf _ _ Hc) | discriminate] end.
  match goal with Hm : missed_slots _ _ _ _ _ _ _ = _ |- _ =>
    apply (missed_slots_forms _ _ _ _ _ _ _ _ _ Hm) end.
  apply (same_wf _ _ Hslot). eapply store_delegate_forms; [exact Ha | exact Hi | | eassumption | | ];
    [reflexivity | exact Hs | exact Hs].
Qed.

Lemma execute_forms generating vm num trxs : forall n (s : S) u s',
  execute_transactions generating vm num n trxs s = (Ok u, s') -> accounts_wf s -> accounts_wf s'.
Proof.
  induction trxs as [| trx trxs IH]; intros n s u s' R Hs; cbn [execute_transactions] in R.
  - now apply ret_Ok in R as [_ <-].
  - apply bind_Ok in R as ([] & s1 & R1 & R). eapply IH; [exact R |].
    apply execute_transaction_Ok in R1 as (skip & u' & c & R1 & Hsame).
    apply (same_wf _ _ Hsame). exact (evaluate_forms trx true _ _ _ R1 Hs).
Qed.

Lemma pay_forms self key (s : S) u s' :
  pay_delegate self key s = (Ok u, s') -> accounts_wf s -> accounts_wf s'.
Proof.
  intros R Hs. destruct (pay_run _ _ _ _ _ R)
    as (base & signee & x & d & s1 & _ & _ & Ha & Hd & _ & _ & _ & _ & _ & Hp & Hq).
  apply (same_accounts_wf s1); [apply Hq |]. apply (put_account_wf _ _ _ Hp); [| exact Hs].
  pose proof (Hs _ _ Ha) as Hw. apply account_wf_info; [exact Hw | exact (proj2 Hw d Hd)].
Qed.

(** ** Writes through the interface *)
Section Follow.
Context (K : S -> S -> Prop) (HK : PreOrder K)
  (K_insert : forall k key v s, K s (db_insert k key v s))
  (K_erase : forall k key s, K s (db_erase k key s)) (K_index : forall w s, K s (db_index w s)).

Lemma store_follows k key v : along K (entry_store k key v).
Proof. now apply entry_store_along. Qed.
Lemma get_follows : along K (Prelude.get (S := S)).
Proof. apply along_gets, _. Qed.
Lemma assert_follows b : along K (fc_assert (S := S) b).
Proof. destruct b; [apply along_ret | apply along_throw]; apply _. Qed.
Lemma valid_or_follows {A} (o : option A) e : along K (valid_or (S := S) o e).
Proof. destruct o; [apply along_ret | apply along_throw]; apply _. Qed.
#[local] Hint Resolve store_follows get_follows assert_follows valid_or_follows : keeping.
#[local] Hint Extern 2 (along K (store_account_entry _)) => apply (store_follows KAccount) : keeping.
#[local] Hint Extern 2 (along K (store_asset_entry _)) => apply (store_follows KAsset) : keeping.
#[local] Hint Extern 2 (along K (store_slot_entry _)) => apply (store_follows KSlot) : keeping.
#[local] Hint Extern 2 (along K (store_transaction _ _)) => apply (store_follows KTransaction) : keeping.
#[local] Hint Extern 2 (along K (store_property_entry _ _)) => apply (store_follows KProperty) : keeping.
#[local] Hint Extern 2 (along K (set_required_confirmations _)) => apply (store_follows KProperty) : keeping.
#[local] Hint Extern 2 (along K (set_active_delegates _)) => apply (store_follows KProperty) : keeping.
#[local] Hint Extern 2 (along K (delegate_of _)) => unfold delegate_of : keeping.

Lemma missed_slots_follows self active until n : forall slot r,
  along K (missed_slots n self active slot until r).
Proof.
  induction n as [| n IH]; intros slot r; cbn [missed_slots]; auto with keeping.
  apply along_if; auto 20 with keeping.
Qed.
#[local] Hint Resolve missed_slots_follows : keeping.

Lemma production_follows self h id key : along K (update_delegate_production_info self h id key).
Proof. unfold update_delegate_production_info. cbv zeta. auto 30 with keeping. Qed.
Lemma pay_follows self key : along K (pay_delegate self key).
Proof. unfold pay_delegate. cbv zeta. auto 30 with keeping. Qed.
Lemma active_list_follows self num : along K (update_active_delegate_list self num).
Proof. unfold update_active_delegate_list. cbv zeta. auto 30 with keeping. Qed.
Lemma random_seed_follows secret : along K (update_random_seed secret).
Proof. unfold update_random_seed. auto 30 with keeping. Qed.
Lemma set_locations_follows num n trx : along K (set_locations num n trx).
Proof.
  unfold set_locations, set_location, origin_of. auto 30 with keeping.
Qed.

Lemma execute_follows generating vm num trxs : forall n (s : S) u s',
  execute_transactions generating vm num n trxs s = (Ok u, s') -> K s s'.
Proof.
  induction trxs as [| trx trxs IH]; intros n s u s' R; cbn [execute_transactions] in R.
  - now apply ret_Ok in R as [_ <-].
  - apply bind_Ok in R as ([] & s1 & R1 & R). transitivity s1; [| eapply IH, R].
    unfold execute_transaction in R1. apply bind_Ok in R1 as (u1 & s2 & [_ <-]%fc_assert_Ok & R1).
    apply bind_Ok in R1 as (b & s2 & Rb & R1).
    assert (s2 = s) as -> by (destruct generating; run_inv Rb; reflexivity).
    cbv zeta in R1. apply bind_Ok in R1 as (r & s3 & R2 & R1).
    apply run_evaluation_Ok in R2 as (a & c & R2 & -> & _).
    transitivity (current_state c).
    + exact (evaluate_below K HK K_insert K_erase K_index trx true _ _ _ R2).
    + eapply set_locations_follows, R1.
Qed.
End Follow.
End Effects.

(** ** Views

    What a state over another shows, and what applying it leaves there. *)
Section Views.
Context `{ChainParams} `{Clock} {P : Type} `{HIP : ChainInterface P} `{HLP : !ChainInterfaceLaws P}
  `{LWP : !LedgerLaws P}.

Lemma pending_overlay_wf (p : PendingChainState P) : accounts_wf p -> overlay_wf p.
Proof.
  intros Hw k key v E. destruct k; try exact I. apply (Hw key). unfold get_account_entry, entry_lookup.
  cbn [db_lookup pending_chain_interface]. rewrite pcs_lookup_generic by reflexivity.
  unfold overlay_lookup. now rewrite E.
Qed.
Lemma tables_view_wf (t : P) : accounts_wf t -> view_wf t.
Proof. intros Hw k key v _ E. destruct k; try exact I. exact (Hw key v E). Qed.

Lemma over_lookup (t : P) k key : overlay_kind k = true ->
  db_lookup k (new_pending (Some t)) key = db_lookup k t key.
Proof.
  intros Hk. cbn [db_lookup pending_chain_interface]. rewrite pcs_lookup_generic by exact Hk.
  unfold overlay_lookup. cbn. now rewrite lookup_empty, bool_decide_false by set_solver.
Qed.

(** The ledger of one state is that of another. *)
Record same_view {S1 S2} `{ChainInterface S1} `{ChainInterface S2} (s1 : S1) (s2 : S2) : Prop := {
  view_balances : forall id, get_balance_entry s1 id = get_balance_entry s2 id;
  view_accounts : forall id, get_account_entry s1 id = get_account_entry s2 id;
  view_assets : forall id, get_asset_entry s1 id = get_asset_entry s2 id;
  view_properties : forall id, get_property_entry s1 id = get_property_entry s2 id
}.
Lemma view_sound {S1 S2} `{HI1 : ChainInterface S1} `{HI2 : ChainInterface S2} (s1 : S1) (s2 : S2) n :
  same_view s1 s2 -> sound_state n s2 -> sound_state n s1.
Proof.
  intros [Eb Ea Es Ep] [[O1 O2 O3 O4] Q2 Q3 (last & L1 & L2 & L3 & L4)].
  split; [split | | exact Q3 |]; cbn [current_state evaluation_of] in *; intros;
    rewrite ?Eb, ?Ea, ?Es in *; eauto.
  exists last. unfold last_account_id_of, property_or in *. rewrite Ep. repeat split; auto.
  intros id. rewrite Ea. apply L4.
Qed.
Lemma view_surplus {S1 S2} `{HI1 : ChainInterface S1} `{HI2 : ChainInterface S2}
    `{!LedgerSupport S1} `{!LedgerSupport S2} (s1 : S1) (s2 : S2) a :
  same_view s1 s2 -> surplus s1 a = surplus s2 a.
Proof. intros [Eb Ea Es _]. apply surplus_views; [exact Eb | intros id; now rewrite Ea | apply Es]. Qed.

Lemma over_view (t : P) : same_view (new_pending (Some t)) t.
Proof.
  split; intros id;
    [apply (over_lookup t KBalance) | apply (over_lookup t KAccount) | apply (over_lookup t KAsset)
    | apply (over_lookup t KProperty)]; reflexivity.
Qed.

(** What apply_changes leaves is what the pending state showed. *)
Lemma applied_view (p : PendingChainState P) t t' : prev_state p = Some t -> apply_changes p = (Ok tt, Some t') ->
  same_view t' p.
Proof.
  intros Hp R. unfold apply_changes in R. rewrite Hp in R.
  destruct (forM apply_order (apply_entrys p) t) as [r t1] eqn:E. injection R as -> ->.
  split; intros id; unfold get_balance_entry, get_account_entry, get_asset_entry, get_property_entry,
    entry_lookup; rewrite (apply_kinds_spec p _ apply_order_nodup _ _ E) by (try apply ledger_lawful; reflexivity);
    rewrite decide_True by apply apply_order_all;
    [apply (overlaid_lookup p t KBalance) | apply (overlaid_lookup p t KAccount)
    | apply (overlaid_lookup p t KAsset) | apply (overlaid_lookup p t KProperty)]; exact Hp.
Qed.
End Views.

(** ** A whole block *)
Section Block.
Context `{ChainParams} `{BlockParams} `{Clock} `{NodeParams} `{GluaVM Pend}.

Definition same_below (p p' : Pend) : Prop := prev_state p' = prev_state p.
#[export] Instance same_below_preorder : PreOrder same_below.
Proof. unfold same_below. split; [easy | congruence]. Qed.

(** The slots between the head and the block are times of 32 bits. *)
Definition timely (h : SignedBlockHeader) : Prop :=
  0 <= timestamp h /\ timestamp h + interval < 2 ^ 32.
Lemma first_missed_range t h : timely h -> 0 <= first_missed t h.
Proof.
  intros [Hh _]. unfold first_missed. destruct (0 <? t_head_block_num t); [| exact Hh].
  apply Z.mod_pos_bound. reflexivity.
Qed.

Lemma apply_block_below t b key (p p' : Pend) u :
  apply_block t b key p = (Ok u, p') -> prev_state p' = prev_state p.
Proof.
  intros R. unfold apply_block in R.
  assert (forall k key v (s : Pend), same_below s (db_insert k key v s)) as Ki
    by (intros; apply prev_state_insert).
  assert (forall k key (s : Pend), same_below s (db_erase k key s)) as Ke
    by (intros; apply prev_state_erase).
  assert (forall w (s : Pend), same_below s (db_index w s)) as Kx by (intros; apply overlay_index).
  apply bind_Ok in R as ([] & p1 & R1 & R). apply bind_Ok in R as ([] & p2 & R2 & R).
  apply bind_Ok in R as ([] & p3 & R3 & R). apply bind_Ok in R as ([] & p4 & R4 & R5).
  rewrite apply_transactions_execute in R2.
  apply (production_follows same_below _ Ki Kx) in R1.
  apply (execute_follows same_below _ Ki Ke Kx) in R2.
  apply (pay_follows same_below _ Ki Kx) in R3.
  apply (active_list_follows same_below _ Ki Kx) in R4.
  apply (random_seed_follows same_below _ Ki Kx) in R5.
  unfold same_below in *. congruence.
Qed.

Lemma apply_block_forms t b key (p p' : Pend) u :
  apply_block t b key p = (Ok u, p') -> accounts_wf p -> accounts_wf p'.
Proof.
  intros R Hw. unfold apply_block in R.
  apply bind_Ok in R as ([] & p1 & R1 & R). apply bind_Ok in R as ([] & p2 & R2 & R).
  apply bind_Ok in R as ([] & p3 & R3 & R). apply bind_Ok in R as ([] & p4 & R4 & R5).
  rewrite apply_transactions_execute in R2.
  apply (same_wf _ _ (random_seed_same _ _ _ _ R5)), (same_wf _ _ (active_list_same _ _ _ _ _ R4)).
  apply (pay_forms _ _ _ _ _ R3), (execute_forms _ _ _ _ _ _ _ _ R2).
  exact (production_forms _ _ _ _ _ _ _ R1 Hw).
Qed.

Lemma apply_block_effect t b key n (p p' : Pend) u a :
  Forall settles (user_transactions b) -> sound_state (registered (user_transactions b) + n) p ->
  timely (header b) -> apply_block t b key p = (Ok u, p') ->
  sound_state n p' /\ exists k, surplus p' a = surplus p a + k * 2 ^ 64.
Proof.
  intros Hb Hs Ht R. unfold apply_block in R.
  apply bind_Ok in R as ([] & p1 & R1 & R). apply bind_Ok in R as ([] & p2 & R2 & R).
  apply bind_Ok in R as ([] & p3 & R3 & R). apply bind_Ok in R as ([] & p4 & R4 & R5).
  rewrite apply_transactions_execute in R2.
  apply (production_effect _ _ _ _ _ _ _ _ a Hs (first_missed_range _ _ Ht) (proj2 Ht)) in R1 as [S1 E1].
  apply (execute_transactions_effect _ _ _ _ a Hb _ _ _ _ _ S1) in R2 as (S2 & k2 & E2).
  apply (pay_effect _ _ _ _ _ _ a S2) in R3 as (S3 & k3 & E3).
  apply active_list_same in R4. apply random_seed_same in R5.
  destruct (same_effect _ _ _ a R4 S3) as [S4 E4]. destruct (same_effect _ _ _ a R5 S4) as [S5 E5].
  split; [exact S5 |]. exists (k2 + k3). lia.
Qed.
End Block.
