(* ===== verification/PendingLaws.v ===== *)
(** * What a producer puts into a block

    The transactions of a generated block are those of the queue, in its
    order, within the limits of the configuration, and each was evaluated in
    the state the ones before it left. *)

From Stdlib Require Import ZArith Lia Bool String.
From stdpp Require Import base gmap strings list fin_sets sorting.
From S2P Require Import Prelude Asset Entries Names ChainInterface ChainState AssetEntry.
From S2P Require Import EvalState ContractOperations Evaluate Ledger QuietOperations.
From S2P Require Import Transactions AccountForms Conservation.
From S2P Require Import Blocks ForkDatabase PendingChainState Undo ChainTables Delegates ChainDatabase.
From S2P Require Import Pending LedgerTables BlockEffects.

Local Open Scope Z_scope.

Section Producing.
Context `{HP : ChainParams} `{HB : BlockParams} `{HC : Clock} `{HN : NodeParams} `{HK : PackParams}
  `{HV : GluaVM Pend} `{HW : GluaVM (PendingChainState Pend)}.
Abbreviation Nested := (PendingChainState Pend).

(** ** Evaluations over a pending state *)

Definition same_base {P} `{ChainInterface P} (p p' : PendingChainState P) : Prop :=
  prev_state p' = prev_state p.
#[export] Instance same_base_preorder {P} `{ChainInterface P} : PreOrder (same_base (P := P)).
Proof. unfold same_base. split; [easy | congruence]. Qed.

Lemma evaluate_over_Ok e trx ign (p : Pend) u e' q :
  evaluate_over e trx ign p = (Ok u, e', q) ->
  prev_state q = Some p /\ (accounts_wf p -> accounts_wf q).
Proof.
  unfold evaluate_over.
  destruct (evaluate_transaction trx ign _) as [r c] eqn:R. intros [= -> _ <-]. split.
  - apply (evaluate_below same_base _) in R; [exact R | | |].
    + intros k key v s. apply prev_state_insert.
    + intros k key s. apply prev_state_erase.
    + intros w s. apply (proj2 (overlay_index w s)).
  - intros Hw. apply (evaluate_forms trx ign _ _ _ R). cbn [current_state].
    intros id a. rewrite (view_accounts _ _ (over_view p)). apply Hw.
Qed.

Lemma apply_same_base (q : Nested) p r p' : prev_state q = Some p -> apply_changes q = (r, Some p') ->
  same_base p p'.
Proof.
  intros Hq R. unfold apply_changes in R. rewrite Hq in R.
  destruct (forM apply_order (apply_entrys q) p) as [r0 p0] eqn:E. injection R as <- <-.
  assert (along same_base (forM apply_order (apply_entrys (S := Pend) q))) as Ha; [| exact (Ha _ _ _ E)].
  apply (along_forM same_base _). intros k. unfold apply_entrys.
  apply (along_bind same_base _); [| intros _]; apply (along_forM same_base _); intros x.
  - apply (entry_remove_along same_base _); intros;
      first [apply prev_state_erase | apply (proj2 (overlay_index _ _))].
  - apply (entry_store_along same_base _); intros;
      first [apply prev_state_insert | apply prev_state_erase | apply (proj2 (overlay_index _ _))].
Qed.

Lemma pending_account_lawful : lawful_kind (S := Pend) KAccount = true.
Proof. reflexivity. Qed.

(** What an evaluation left can be applied. *)
Lemma apply_nested_run (q : Nested) p : prev_state q = Some p -> accounts_wf q -> accounts_wf p ->
  exists p', apply_changes q = (Ok tt, Some p') /\ prev_state p' = prev_state p /\ accounts_wf p' /\
    same_view p' q.
Proof.
  intros Hq Hw Hp.
  destruct (apply_changes_run pending_account_lawful q p Hq (pending_overlay_wf q Hw) (tables_view_wf p Hp))
    as (p' & R & _ & _).
  pose proof (applied_view q p p' Hq R) as Hv. exists p'. split; [exact R |].
  split; [exact (apply_same_base _ _ _ _ Hq R) | split; [| exact Hv]].
  intros id a. rewrite (view_accounts _ _ Hv). apply Hw.
Qed.

(** ** The transactions of a block *)

Section Config.
Variable config : DelegateConfig.

Definition origin_evaluation : TransactionEvaluationState :=
  evaluation_with true (transaction_canonical_signatures_required config) false false.
Definition result_evaluation : TransactionEvaluationState :=
  evaluation_with true (transaction_canonical_signatures_required config) true false.
(** Its message [len] is short and its fees are those asked for. *)
Definition pays_for_block (e e_paid : TransactionEvaluationState) : Prop :=
  imessage_length e <= transaction_imessage_max_soft_length config /\
  block_fee config (imessage_length e) <= fees_of e_paid.

(** [trx] of the queue is put into a block of [size] bytes as [trx'] and
    leads from one pending state to the next. *)
Inductive put_into (db : ChainTables) (size : Z) (p : Pend) (trx : SignedTransaction)
    : SignedTransaction -> Pend -> Prop :=
  | put_plain e q p' : admissible config db size trx = true ->
      evaluate_over origin_evaluation trx true p = (Ok tt, e, q) -> has_result e = false ->
      pays_for_block e e -> apply_changes q = (Ok tt, Some p') -> put_into db size p trx trx p'
  | put_result e q e_res q_res p' : admissible config db size trx = true ->
      evaluate_over origin_evaluation trx true p = (Ok tt, e, q) -> has_result e = true ->
      evaluate_over result_evaluation (p_result_trx e) true p = (Ok tt, e_res, q_res) ->
      pays_for_block e e_res -> apply_changes q_res = (Ok tt, Some p') ->
      put_into db size p trx (block_result config (p_result_trx e)) p'.

Inductive packed (db : ChainTables) : Z -> Pend -> list SignedTransaction ->
    list SignedTransaction -> Pend -> Prop :=
  | packed_none size p : packed db size p [] [] p
  | packed_next size p trx trx' p1 origins trxs p' : put_into db size p trx trx' p1 ->
      packed db (size + trx_data_size trx') p1 origins trxs p' ->
      packed db size p (trx :: origins) (trx' :: trxs) p'.

Lemma evaluate_for_block_Ok p trx trx' q : evaluate_for_block config p trx = Ok (Some (trx', q)) ->
  exists e q0, evaluate_over origin_evaluation trx true p = (Ok tt, e, q0) /\
    ((has_result e = false /\ trx' = trx /\ q = q0 /\ pays_for_block e e) \/
     (has_result e = true /\ trx' = block_result config (p_result_trx e) /\
      exists e_res, evaluate_over result_evaluation (p_result_trx e) true p = (Ok tt, e_res, q) /\
        pays_for_block e e_res)).
Proof.
  unfold evaluate_for_block, pays_for_block. fold origin_evaluation result_evaluation.
  destruct (evaluate_over origin_evaluation trx true p) as [[r e] q0].
  destruct r as [[] | x]; [| discriminate]. cbn [result_bind].
  destruct (has_result e) eqn:Hr.
  - destruct (evaluate_over result_evaluation (p_result_trx e) true p) as [[r e_res] q1] eqn:E2.
    destruct r as [[] | x]; [| discriminate]. cbn [result_bind].
    destruct (_ && _) eqn:Epay; [| discriminate]. intros [= <- <-]. to_prop.
    exists e, q0. split; [reflexivity |]. right. split; [exact Hr | split; [reflexivity |]].
    exists e_res. split; [exact E2 | split; assumption].
  - destruct (_ && _) eqn:Epay; [| discriminate]. intros [= <- <-]. to_prop.
    exists e, q0. split; [reflexivity |]. left. do 3 (split; [assumption || reflexivity |]). split; assumption.
Qed.

(** One round of the loop: nothing happens, or a transaction is put in. *)
Lemma consider_run db size trx p r p' : accounts_wf p -> consider config db size trx p = (r, p') ->
  match r with
  | Ok None | Err _ => p' = p
  | Ok (Some trx') => put_into db size p trx trx' p' /\ accounts_wf p' /\ prev_state p' = prev_state p
  end.
Proof.
  intros Hw. unfold consider. destruct (admissible config db size trx) eqn:Ha; cbn [negb];
    [| now intros [= <- <-]].
  unfold bind, get, lift_result. destruct (evaluate_for_block config p trx) as [[[trx' q] |] | x] eqn:E;
    [| now intros [= <- <-] ..].
  assert ((block_max_size config <? size + trx_data_size trx) = false) as ->
    by (unfold admissible in Ha; to_prop; apply Z.ltb_ge; lia).
  apply evaluate_for_block_Ok in E as (e & q0 & R & Hcase).
  assert (prev_state q = Some p /\ accounts_wf q) as [Hq Hwq].
  { destruct Hcase as [(_ & _ & -> & _) | (_ & _ & e_res & R2 & _)];
      [destruct (evaluate_over_Ok _ _ _ _ _ _ _ R) | destruct (evaluate_over_Ok _ _ _ _ _ _ _ R2)]; auto. }
  destruct (apply_nested_run q p Hq Hwq Hw) as (p1 & R1 & Hb & Hw1 & _). rewrite R1. cbn.
  intros [= <- <-]. split; [| auto].
  destruct Hcase as [(Hr & -> & -> & Hpay) | (Hr & -> & e_res & R2 & Hpay)].
  - eapply put_plain; eassumption.
  - eapply put_result; eassumption.
Qed.

Lemma fill_block_run db elapsed items : forall place size ut p r p', accounts_wf p ->
  Z.of_nat (List.length ut) < block_max_transaction_count config ->
  fill_block config elapsed db place items size ut p = (r, p') ->
  match r with
  | Err x => fc_exception x = false
  | Ok trxs => exists origins new, trxs = ut ++ new /\ packed db size p origins new p' /\
      sublist origins (map es_trx items) /\
      Z.of_nat (List.length trxs) <= block_max_transaction_count config
  end.
Proof.
  assert (forall size ut (p : Pend) items, Z.of_nat (List.length ut) < block_max_transaction_count config ->
    exists origins new, ut = ut ++ new /\ packed db size p origins new p /\
      sublist origins (map es_trx items) /\
      Z.of_nat (List.length ut) <= block_max_transaction_count config) as Hstop.
  { intros size ut p l Hl. exists [], []. split; [now rewrite app_nil_r |].
    split; [constructor | split; [apply sublist_nil_l | lia]]. }
  induction items as [| item items IH]; intros place size ut p r p' Hw Hl; cbn [fill_block].
  { intros [= <- <-]. now apply Hstop. }
  destruct (_ <=? elapsed place); [intros [= <- <-]; now apply Hstop |].
  assert (forall size1 p1 r1, fill_block config elapsed db (Datatypes.S place) items size1 ut p1 = (r1, p') ->
    p1 = p -> size1 = size -> match r1 with
    | Err x => fc_exception x = false
    | Ok trxs => exists origins new, trxs = ut ++ new /\ packed db size p origins new p' /\
        sublist origins (es_trx item :: map es_trx items) /\
        Z.of_nat (List.length trxs) <= block_max_transaction_count config
    end) as Hskip.
  { intros size1 p1 r1 R -> ->. specialize (IH _ _ _ _ _ _ Hw Hl R). destruct r1 as [trxs | x]; [| exact IH].
    destruct IH as (origins & new & E & Hp & Hs & Hn). exists origins, new. auto using sublist_cons. }
  destruct (consider config db size (es_trx item) p) as [rc p1] eqn:Ec.
  apply consider_run in Ec; [| exact Hw]. destruct rc as [[trx' |] | x].
  2: { intros R. exact (Hskip _ _ _ R Ec eq_refl). }
  2: { destruct (fc_exception x) eqn:Ex; [| now intros [= <- _]]. intros R. exact (Hskip _ _ _ R Ec eq_refl). }
  destruct Ec as (Hput & Hw1 & _).
  destruct (Z.leb_spec (block_max_transaction_count config) (Z.of_nat (List.length (ut ++ [trx'])))) as [Hfull | Hmore].
  - intros [= <- <-]. exists [es_trx item], [trx']. split; [reflexivity |].
    split; [eapply packed_next; [exact Hput | constructor] |].
    split; [apply sublist_skip, sublist_nil_l |]. rewrite length_app in *. cbn [List.length] in *. lia.
  - intros R. specialize (IH _ _ _ _ _ _ Hw1 Hmore R). destruct r as [trxs | x]; [| exact IH].
    destruct IH as (origins & new & -> & Hp & Hs & Hn).
    exists (es_trx item :: origins), (trx' :: new). split; [now rewrite <- app_assoc |].
    split; [eapply packed_next; eassumption | split; [now apply sublist_skip | exact Hn]].
Qed.

(** C18: Producing a block leaves the database alone and fails only when the
    process ends.  The block follows the head, its digest is that of its
    transactions, it has no more transactions than the configuration allows,
    and its transactions are a selection from the queue in its order: each
    admissible as it was queued, and evaluated without error in the state the
    ones before it left, with the fees asked for.  A transaction that called a
    contract stands in the block as its result, so the size of the block is
    not bounded: the limit was checked with the size of the queued
    transaction. *)
Theorem generate_block_spec elapsed block_timestamp d : accounts_wf (db_tables d) ->
  exists r, generate_block config elapsed block_timestamp d = (r, d) /\
  match r with
  | Err x => fc_exception x = false
  | Ok b =>
      let head := head_block_header d in
      previous (header b) = (if 0 <? block_num head then header_id head else 0) /\
      block_num (header b) = wrap_u32 (block_num head + 1) /\
      timestamp (header b) = block_timestamp /\ validate_digest (digest_block b) = true /\
      Z.of_nat (List.length (user_transactions b)) <= Z.max 0 (block_max_transaction_count config) /\
      exists origins p',
        packed (db_tables d) (block_data_size empty_block) (new_pending (Some (db_tables d)))
          origins (user_transactions b) p' /\
        sublist origins (map es_trx (get_pending_transactions d))
  end.
Proof.
  intros Hw.
  assert (accounts_wf (new_pending (Some (db_tables d)))) as Hw0
    by (intros id a; rewrite (view_accounts _ _ (over_view (db_tables d))); apply Hw).
  unfold generate_block, bind, get.
  destruct ((0 <? block_max_transaction_count config) && _) eqn:Eroom.
  - unfold lift_result.
    destruct (fill_block _ _ _ _ _ _ _ _) as [[trxs | x] p'] eqn:E;
      apply fill_block_run in E; try (to_prop; cbn; lia); try exact Hw0; cbn [fst].
    + eexists. split; [reflexivity |]. cbn [header user_transactions previous block_num timestamp].
      do 3 (split; [reflexivity |]). split; [apply Z.eqb_refl |].
      destruct E as (origins & new & -> & Hp & Hs & Hn). split; [cbn [app] in *; lia |]. eauto.
    + eexists. split; [reflexivity |]. exact E.
  - eexists. split; [reflexivity |]. cbn [header user_transactions previous block_num timestamp ret].
    do 3 (split; [reflexivity |]). split; [apply Z.eqb_refl |]. split; [cbn; lia |].
    exists [], (new_pending (Some (db_tables d))). split; [constructor | apply sublist_nil_l].
Qed.
End Config.
End Producing.
