(* ===== verification/ChainExtension.v ===== *)
(** * Extending the chain and taking blocks back

    A block that is accepted follows the head and is signed by the delegate of
    its slot; what its transactions did in the pending state is then in the
    tables.  A block that is rejected leaves the chain as it was and is marked
    invalid with all blocks after it.  Taking the head back restores the
    chain before it. *)

From Stdlib Require Import ZArith Lia Bool String.
From stdpp Require Import base gmap strings list fin_sets.
From S2P Require Import Prelude Asset Entries Names ChainInterface ChainState AssetEntry.
From S2P Require Import EvalState ContractOperations Ledger AccountForms Conservation.
From S2P Require Import Blocks ForkDatabase ForkTree ForkStore ForkMarks.
From S2P Require Import PendingChainState Undo ChainTables Delegates DelegateLists.
From S2P Require Import ChainDatabase LedgerTables BlockLaws BlockEffects.

Local Open Scope Z_scope.

Section Extension.
Context `{HP : ChainParams} `{HB : BlockParams} `{HH : !BlockHashes} `{HC : Clock} `{HN : NodeParams}
  `{HV : GluaVM Pend}.

(** ** Checking a block *)

(** The block [b], signed with [key], comes next. *)
Record next_block (d : ChainDatabase) (b : FullBlock) (key : PublicKeyType) : Prop := {
  next_previous : previous (header b) = head_block_id d;
  next_number : 1 < block_num (header b) ->
    block_num (header b) = wrap_u32 (block_num (head_block_header d) + 1) /\
    timestamp (head_block_header d) < timestamp (header b);
  next_slot_time : timestamp (header b) mod interval = 0;
  next_time : timestamp (header b) <= wrap_u32 (time_now + interval * 2);
  next_digest : ids_digest (map trx_id (user_transactions b)) = transaction_digest (header b);
  next_unique : NoDup (map trx_id (user_transactions b));
  next_delegate : exists active a, get_active_delegates (db_tables d) = Ok active /\
    get_slot_signee (db_tables d) (timestamp (header b)) active = Ok a /\ signing_key a = Ok key;
  next_signature : last_checkpoint_block_num < block_num (header b) -> header_signee (header b) = Ok key
}.

Lemma read_tables_Ok {A} (f : ChainTables -> result A) d a d' :
  read_tables f d = (Ok a, d') <-> f (db_tables d) = Ok a /\ d' = d.
Proof.
  unfold read_tables, bind, get, lift_result. split; [intros [= <- <-]; auto | intros [-> ->]; auto].
Qed.

Lemma verify_header_Ok b key d u d' :
  (last_checkpoint_block_num < block_num (header b) -> header_signee (header b) = Ok key) ->
  verify_header (digest_block b) key d = (Ok u, d') -> d' = d /\ next_block d b key.
Proof.
  intros Hsig R. unfold verify_header in R. run_inv R.
  repeat match goal with H : read_tables _ _ = _ |- _ => apply read_tables_Ok in H as [? ->] end.
  cbn [digest_block digest_header] in *. to_prop. split; [reflexivity |].
  match goal with H : validate_unique _ = true |- _ => apply validate_unique_spec in H end.
  split; try assumption.
  - intros Hn. apply Z.ltb_lt in Hn. rewrite Hn in *. cbn [andb] in *. to_prop. auto.
  - match goal with H : validate_digest _ = true |- _ => apply Z.eqb_eq in H; exact H end.
  - do 2 eexists. split; [eassumption | split; [eassumption |]]. subst. assumption.
Qed.

Lemma block_signee_key_Ok b d key d' : block_signee_key b d = (Ok key, d') ->
  d' = d /\ (last_checkpoint_block_num < block_num (header b) -> header_signee (header b) = Ok key).
Proof.
  unfold block_signee_key. destruct (Z.ltb_spec last_checkpoint_block_num (block_num (header b))).
  - intros [? <-]%lift_result_Ok. auto.
  - intros R. run_inv R.
    repeat match goal with
    | H : read_tables _ _ = _ |- _ => apply read_tables_Ok in H as [? ->]
    | H : (match ?x with _ => _ end) _ = _ |- _ => destruct x; run_inv H
    end; (split; [reflexivity | lia]).
Qed.

Lemma prepare_block_same b d r d' : prepare_block b d = (r, d') -> d' = d.
Proof.
  assert (forall A (f : ChainTables -> result A), along eq (read_tables f)) as Hread
    by (intros A f s x s' [= _ ->]; reflexivity).
  assert (forall c e, along eq (throw_if (S := ChainDatabase) c e)) as Hthrow
    by (intros [] e s x s' [= _ ->]; reflexivity).
  assert (forall c, along eq (fc_assert (S := ChainDatabase) c)) as Hassert
    by (intros [] s x s' [= _ ->]; reflexivity).
  assert (forall m, along eq (on_pending (A := unit) m)) as Hpend.
  { intros m s x s'. unfold on_pending. destruct (m _) as [[] p]; now intros [= _ ->]. }
  assert (along eq (get (S := ChainDatabase))) as Hget by (intros s x s' [= _ ->]; reflexivity).
  intros R. symmetry. revert d r d' R. change (along eq (prepare_block b)).
  unfold prepare_block, block_signee_key, verify_header. cbv zeta. auto 40 with keeping typeclass_instances.
Qed.

Lemma prepare_block_Ok b d p d' : prepare_block b d = (Ok p, d') ->
  d' = d /\ exists key, next_block d b key /\
    apply_block (db_tables d) b key (new_pending (Some (db_tables d))) = (Ok tt, p).
Proof.
  intros R. unfold prepare_block in R. apply bind_Ok in R as (key & d1 & R1 & R).
  apply block_signee_key_Ok in R1 as [-> Hsig]. apply bind_Ok in R as (u & d1 & R2 & R).
  apply (verify_header_Ok _ _ _ _ _ Hsig) in R2 as [-> Hnext].
  apply bind_Ok in R as (d1 & d2 & [<- <-]%get_Ok & R). unfold on_pending in R.
  destruct (apply_block _ _ _ _) as [[[] | e] p'] eqn:E; [| discriminate].
  injection R as <- <-. split; [reflexivity |]. exists key. auto.
Qed.

(** ** Committing a block *)

(** The state the pending state [p] is applied over is left in the tables of
    the new head; the old ones can be computed from the undo state. *)
Record committed (b : FullBlock) (p : Pend) (d d' : ChainDatabase) : Prop := {
  com_tables : t_head_block_num (db_tables d') = block_num (header b) /\
    t_head_block_timestamp (db_tables d') = timestamp (header b);
  com_lookup : forall k key, stored_kind k = true -> db_lookup k (db_tables d') key = db_lookup k p key;
  com_forks : mark_included (block_id b) true (db_forks d) = (Ok tt, db_forks d');
  com_head : head_block_id d' = block_id b /\ head_block_header d' = header b;
  com_numbers : block_num_to_id d' = <[block_num (header b) := block_id b]> (block_num_to_id d);
  com_undo : min_undo_block d <= block_num (header b) -> exists undo,
    undo_of p (db_tables d) undo /\
    block_id_to_undo_state d' !! block_id b = Some (set_prev_state None undo);
  com_older : forall i v, i <> block_id b -> block_id_to_undo_state d !! i = Some v ->
    (ALP_BLOCKCHAIN_MAX_UNDO_HISTORY < block_num (header b) ->
     block_num_to_id d !! (block_num (header b) - ALP_BLOCKCHAIN_MAX_UNDO_HISTORY) <> Some i) ->
    block_id_to_undo_state d' !! i = Some v;
  com_stored : forall i v, block_id_to_undo_state d' !! i = Some v ->
    block_id_to_undo_state d !! i = Some v \/
    i = block_id b /\ exists undo, undo_of p (db_tables d) undo /\ v = set_prev_state None undo;
  com_status : block_extend_status d' = Some (block_id b, 2);
  com_pending : forall trx id, trx ∈ user_transactions b -> id ∈ included_ids trx ->
    pending_transaction_db d' !! id = None;
  com_same : min_undo_block d' = min_undo_block d /\ future_blocks d' = future_blocks d
}.

Lemma tables_account_lawful : lawful_kind (S := ChainTables) KAccount = true.
Proof. reflexivity. Qed.

(** Storing the undo state fails before anything is stored, or stores it. *)
Lemma save_undo_state_run num id p d : prev_state p = Some (db_tables d) ->
  accounts_wf p -> accounts_wf (db_tables d) ->
  (exists e, save_undo_state num id p d = (Err e, d)) \/
  exists undos, save_undo_state num id p d = (Ok tt, set_undo_states undos d) /\
    (min_undo_block d <= num -> exists undo, undo_of p (db_tables d) undo /\
       undos !! id = Some (set_prev_state None undo)) /\
    (forall i v, undos !! i = Some v -> block_id_to_undo_state d !! i = Some v \/
       i = id /\ exists undo, undo_of p (db_tables d) undo /\ v = set_prev_state None undo) /\
    forall i v, i <> id -> block_id_to_undo_state d !! i = Some v ->
      (ALP_BLOCKCHAIN_MAX_UNDO_HISTORY < num ->
       block_num_to_id d !! (num - ALP_BLOCKCHAIN_MAX_UNDO_HISTORY) <> Some i) -> undos !! i = Some v.
Proof.
  intros Hp Hw Ht. unfold save_undo_state. rewrite (bind_run_Ok get _ d d d eq_refl).
  destruct (Z.ltb_spec num (min_undo_block d)) as [Hmin | Hmin].
  { right. exists (block_id_to_undo_state d). split; [now destruct d | split; [lia | auto]]. }
  destruct (undo_state_run tables_account_lawful p (db_tables d) Hp (pending_overlay_wf _ Hw) (tables_view_wf _ Ht))
    as (undo & -> & Hun).
  destruct (Z.ltb_spec ALP_BLOCKCHAIN_MAX_UNDO_HISTORY num) as [Hold | Hold]; cbn [when].
  - unfold get_block_id, bind, get, valid_or, modify.
    destruct (block_num_to_id d !! (num - ALP_BLOCKCHAIN_MAX_UNDO_HISTORY)) as [old |] eqn:Eo;
      [right | left; eauto].
    eexists. split; [reflexivity |]. split.
    + intros _. exists undo. split; [exact Hun | apply lookup_insert_eq].
    + split; [intros i v; cbn; rewrite lookup_insert_Some, lookup_delete_Some; naive_solver |].
      intros i v Hi Ev Ho. rewrite lookup_insert_ne by congruence. cbn.
      rewrite lookup_delete_ne; [exact Ev |]. intros ->. now apply Ho.
  - right. eexists. split; [reflexivity |]. split.
    + intros _. exists undo. split; [exact Hun | apply lookup_insert_eq].
    + split; [intros i v; rewrite lookup_insert_Some; naive_solver |].
      intros i v Hi Ev _. now rewrite lookup_insert_ne by congruence.
Qed.

Lemma deleted_all (ids : list Z) : forall (m : gmap Z SignedTransaction) id,
  id ∈ ids \/ m !! id = None -> foldl (fun m id => delete id m) m ids !! id = None.
Proof.
  induction ids as [| i ids IH]; intros m id Hid; cbn [foldl].
  - destruct Hid as [Hid | E]; [set_solver | exact E].
  - apply IH. destruct (decide (id = i)) as [-> | Hne]; [right; apply lookup_delete_eq |].
    destruct Hid as [Hid | E]; [left; set_solver | right; now rewrite lookup_delete_ne by congruence].
Qed.

Lemma at_head_lookup num time t k key :
  db_lookup (S := ChainTables) k (at_head num time t) key = db_lookup k t key.
Proof. cbn [db_lookup chain_tables_interface]. now rewrite !cdb_lookup_table. Qed.

Lemma commit_block_run b p d : prev_state p = Some (db_tables d) ->
  accounts_wf p -> accounts_wf (db_tables d) -> is_Some (fork_db (db_forks d) !! block_id b) ->
  (exists e, commit_block b p d = (Err e, d)) \/
  exists d', commit_block b p d = (Ok tt, d') /\ committed b p d d'.
Proof.
  intros Hp Hw Ht Hf.
  destruct (save_undo_state_run (block_num (header b)) (block_id b) p d Hp Hw Ht)
    as [[e E] | (undos & E & Hu & Hs & Ho)].
  { left. exists e. unfold commit_block. cbv zeta. apply (bind_run_Err _ _ _ _ _ E). }
  right. destruct (apply_changes_run tables_account_lawful p _ Hp (pending_overlay_wf _ Hw) (tables_view_wf _ Ht))
    as (t & Ea & Hwf & Hl).
  destruct (mark_included_run (block_id b) true (db_forks d) Hf) as (forks & Em & _).
  unfold commit_block. cbv zeta. rewrite (bind_run_Ok _ _ _ _ _ E).
  unfold bind, modify, apply_pending, on_forks, clear_pending, update_relay_fee.
  rewrite Ea. cbn. rewrite Em. cbn.
  match goal with |- exists d', ?run = _ /\ _ => destruct run as [r d'] eqn:R end.
  match type of R with context [if ?c then _ else _] => destruct c end;
    (destruct client_fee as [fee |]; injection R as <- <-);
    (eexists; split; [reflexivity |]; split; cbn; auto;
     [ intros k key Hk; rewrite at_head_lookup; now apply Hl
     | intros trx id Htrx Hid; apply deleted_all; left; apply list_elem_of_In, in_flat_map;
       exists trx; now split; apply list_elem_of_In ]).
Qed.

(** ** Extending the chain *)

(** The block tree keeps its invariant, accounts have the keys they need. *)
Record chain_ok (d : ChainDatabase) : Prop := {
  ok_tree : tree (db_forks d);
  ok_accounts : accounts_wf (db_tables d)
}.

Lemma view_accounts_wf {S1 S2} `{ChainInterface S1} `{ChainInterface S2} (s1 : S1) (s2 : S2) :
  (forall id, get_account_entry s1 id = get_account_entry s2 id) -> accounts_wf s2 -> accounts_wf s1.
Proof. intros E Hs id x. rewrite E. apply Hs. Qed.

Lemma prepared_pending b d p d' : accounts_wf (db_tables d) -> prepare_block b d = (Ok p, d') ->
  prev_state p = Some (db_tables d) /\ accounts_wf p.
Proof.
  intros Hw R. apply prepare_block_Ok in R as (_ & key & _ & R).
  split; [exact (apply_block_below _ _ _ _ _ _ R) |].
  apply (apply_block_forms _ _ _ _ _ _ R).
  apply (view_accounts_wf _ (db_tables d)); [apply over_view | exact Hw].
Qed.

(** What the chain is after the block [b], whose pending state was [p]. *)
Definition accepted (b : FullBlock) (p : Pend) (d d' : ChainDatabase) : Prop :=
  (exists key, next_block d b key /\
     apply_block (db_tables d) b key (new_pending (Some (db_tables d))) = (Ok tt, p)) /\
  committed b p d d' /\ chain_ok d'.

(** The block and all that come after it are invalid, nothing else changed;
    or the process has ended. *)
Definition rejected (b : FullBlock) (e : exn) (d d' : ChainDatabase) : Prop :=
  if fc_exception e then
    exists forks, d' = set_extend_status (Some (block_id b, 2)) (set_forks forks d) /\ tree forks /\
      same_shape (db_forks d) forks /\
      (forall x, is_included (look forks x) = is_included (look (db_forks d) x)) /\
      (forall x, reaches (children (db_forks d)) {[ block_id b ]} x -> invalid (look forks x) = true) /\
      (forall x, look forks x = look (db_forks d) x \/ reaches (children (db_forks d)) {[ block_id b ]} x)
  else d' = d.

(** The block is stored and every block before it is. *)
Definition arrived (d : ChainDatabase) (b : FullBlock) : Prop :=
  full_blocks (db_forks d) !! block_id b = Some b /\ can_link (look (db_forks d) (block_id b)) = true.

Lemma purge_run d : exists x, purge_unique d = (Ok tt, set_tables (set_unique x (db_tables d)) d).
Proof. eexists. reflexivity. Qed.
Lemma set_unique_lookup x t k key :
  db_lookup (S := ChainTables) k (set_unique x t) key = db_lookup k t key.
Proof. cbn [db_lookup chain_tables_interface]. now rewrite !cdb_lookup_table. Qed.
Lemma committed_purge b p d d' x : committed b p d d' ->
  committed b p d (set_tables (set_unique x (db_tables d')) d').
Proof.
  intros C. destruct C as [? C2]. split; cbn; auto.
  intros k key Hk. rewrite set_unique_lookup. now apply C2.
Qed.

Lemma committed_ok b p d d' : chain_ok d -> arrived d b -> accounts_wf p -> committed b p d d' ->
  chain_ok d'.
Proof.
  intros [T _] [Hb Hl] Hw C. split.
  - destruct (tree_stored _ (block_id b) T ltac:(eauto)) as [Hf _].
    destruct (mark_included_tree (block_id b) true _ T Hf) as (forks & R & T' & _).
    { intros _. unfold can_link in Hl. now apply andb_true_iff in Hl as [_ ->%negb_true_iff]. }
    pose proof (com_forks _ _ _ _ C) as E. rewrite R in E. injection E as <-. exact T'.
  - apply (view_accounts_wf _ p); [| exact Hw]. intros id. apply (com_lookup _ _ _ _ C KAccount). reflexivity.
Qed.

Lemma extend_body_run b d : chain_ok d -> arrived d b ->
  (exists e, extend_body b d = (Err e, d)) \/
  exists p d', extend_body b d = (Ok tt, d') /\ accepted b p d d'.
Proof.
  intros Hok Ha. unfold extend_body.
  destruct (prepare_block b d) as [[p | e] d1] eqn:E;
    pose proof (prepare_block_same _ _ _ _ E) as ->; [| left; exists e; now apply bind_run_Err].
  destruct (prepared_pending _ _ _ _ (ok_accounts _ Hok) E) as [Hp Hw].
  rewrite (bind_run_Ok _ _ _ _ _ E).
  destruct (tree_stored _ (block_id b) (ok_tree _ Hok)) as [Hf _]; [destruct Ha; eauto |].
  destruct (commit_block_run b p d Hp Hw (ok_accounts _ Hok) Hf) as [[e Ee] | (d' & Ed & C)]; [eauto | right].
  exists p, d'. split; [exact Ed |]. apply prepare_block_Ok in E as [_ Hk].
  split; [exact Hk | split; [exact C | eapply committed_ok; eassumption]].
Qed.

Lemma catch_invalid_Ok id m d u d' : m d = (Ok u, d') -> catch_invalid id m d = (Ok u, d').
Proof. unfold catch_invalid. now intros ->. Qed.

Lemma extend_chain_run b d : chain_ok d -> arrived d b ->
  (exists e d', extend_chain b d = (Err e, d') /\ rejected b e d d') \/
  exists p d', extend_chain b d = (Ok tt, d') /\ accepted b p d d'.
Proof.
  intros Hok Ha. unfold extend_chain.
  destruct (extend_body_run b d Hok Ha) as [[e E] | (p & d' & E & Hk & C & Hok')].
  - left. exists e. unfold bind, catch_invalid, rejected. rewrite E.
    destruct (fc_exception e); [| eauto].
    destruct (andb_prop _ _ (proj2 Ha)) as [Hl _].
    destruct (mark_invalid_run (block_id b) e (db_forks d) (ok_tree _ Hok)) as (forks & R & T & Hsh & Hinc & F);
      [destruct Ha; eauto | exact Hl |].
    unfold bind, on_forks. rewrite R. cbn. eauto 10.
  - right. exists p. rewrite (bind_run_Ok _ _ _ _ _ (catch_invalid_Ok _ _ _ _ _ E)).
    destruct (purge_run d') as [x ->]. eexists. split; [reflexivity |].
    split; [exact Hk | split; [now apply committed_purge |]].
    destruct Hok' as [T' W']. split; [exact T' |].
    apply (view_accounts_wf _ (db_tables d')); [| exact W']. intros id. apply (set_unique_lookup x _ KAccount).
Qed.

(** C14: Extending the chain by a block whose ancestors are stored either
    accepts it -- it follows the head, is signed by the delegate of its slot,
    and the tables answer as the pending state in which it was applied -- or
    rejects it: the chain, its tables and its undo states are unchanged, and
    the block and all after it are marked invalid, and nothing else. *)
Theorem extend_chain_spec b d : chain_ok d -> arrived d b ->
  (exists e d', extend_chain b d = (Err e, d') /\ rejected b e d d') \/
  exists p d', extend_chain b d = (Ok tt, d') /\ accepted b p d d'.
Proof. apply extend_chain_run. Qed.

(** C15: A block that is accepted keeps the ledger sound and conserves, for
    every asset, the shares held less the shares issued up to multiples of
    2^64, when its transactions settle: their fees are due and no transaction
    is nested behind the first operation of a result.  Its time is of 32 bits,
    and the ledger is sound with room for the accounts it registers. *)
Theorem block_conserves b d d' n a : chain_ok d -> arrived d b -> timely (header b) ->
  Forall settles (user_transactions b) ->
  sound_state (registered (user_transactions b) + n) (db_tables d) ->
  extend_chain b d = (Ok tt, d') ->
  sound_state n (db_tables d') /\
  exists k, surplus (db_tables d') a = surplus (db_tables d) a + k * 2 ^ 64.
Proof.
  intros Hok Ha Ht Hb Hs R.
  destruct (extend_chain_run b d Hok Ha) as [(e & x & E & _) | (p & x & E & (key & _ & Hp) & C & _)];
    rewrite E in R; [discriminate | injection R as ->].
  pose proof (view_sound _ _ _ (over_view (db_tables d)) Hs) as Hs0.
  destruct (apply_block_effect _ _ _ _ _ _ _ a Hb Hs0 Ht Hp) as (Hs1 & k & Ek).
  assert (same_view (db_tables d') p) as Hv
    by (split; intros id; [apply (com_lookup _ _ _ _ C KBalance) | apply (com_lookup _ _ _ _ C KAccount)
        | apply (com_lookup _ _ _ _ C KAsset) | apply (com_lookup _ _ _ _ C KProperty)]; reflexivity).
  split; [exact (view_sound _ _ _ Hv Hs1) |]. exists k.
  rewrite (view_surplus _ _ a Hv), Ek, (view_surplus _ _ a (over_view (db_tables d))). reflexivity.
Qed.

(** ** Taking the head back *)

(** The head is a block of the tree, or there is none. *)
Definition head_stored (d : ChainDatabase) : Prop :=
  head_block_id d = 0 /\ head_block_header d = empty_header \/
  head_block_id d <> 0 /\ exists b, full_blocks (db_forks d) !! head_block_id d = Some b /\
    header b = head_block_header d.

(** The undo state of the head brings [t] back. *)
Definition undoes_to (t : ChainTables) (d : ChainDatabase) : Prop :=
  exists p undo, undo_of p t undo /\
    block_id_to_undo_state d !! head_block_id d = Some (set_prev_state None undo) /\
    forall k key, stored_kind k = true -> overlay_kind k = true ->
      db_lookup k (db_tables d) key = db_lookup k p key.

(** Primary maps, without contract storages. *)
Definition same_maps (t t' : ChainTables) : Prop :=
  forall k key, stored_kind k = true -> overlay_kind k = true -> db_lookup k t' key = db_lookup k t key.
#[export] Instance same_maps_equivalence : Equivalence same_maps.
Proof.
  unfold same_maps. split; [easy | intros x y Hxy k key ? ?; now rewrite Hxy |].
  intros x y z Hxy Hyz k key ? ?. now rewrite Hyz, Hxy.
Qed.

(** The chain with the head of [d] taken back, the tables [t] below it. *)
Record popped (t : ChainTables) (d d' : ChainDatabase) : Prop := {
  pop_tables : same_maps t (db_tables d');
  pop_head : head_block_id d' = previous (head_block_header d);
  pop_stored : head_stored d';
  pop_number : t_head_block_num (db_tables d') = block_num (head_block_header d') /\
    t_head_block_timestamp (db_tables d') = timestamp (head_block_header d');
  pop_forks : mark_included (head_block_id d) false (db_forks d) = (Ok tt, db_forks d');
  pop_numbers : block_num_to_id d' = delete (block_num (head_block_header d)) (block_num_to_id d);
  pop_undo : block_id_to_undo_state d' = block_id_to_undo_state d;
  pop_min : min_undo_block d' = min_undo_block d
}.

(** With an undo state of well formed entries the head can be taken back. *)
Lemma pop_block_any u d : chain_ok d -> block_num (head_block_header d) <> 0 ->
  is_Some (fork_db (db_forks d) !! head_block_id d) ->
  (previous (head_block_header d) <> 0 -> is_Some (full_blocks (db_forks d) !! previous (head_block_header d))) ->
  block_id_to_undo_state d !! head_block_id d = Some u -> overlay_wf u ->
  exists t' d', apply_changes (set_prev_state (Some (db_tables d)) u) = (Ok tt, Some t') /\
    accounts_wf t' /\ pop_block d = (Ok tt, d') /\ popped t' d d'.
Proof.
  intros Hok Hn Hf Hprev Hu Hw.
  destruct (mark_included_run (head_block_id d) false (db_forks d) Hf) as (forks & Em & Hsh & _).
  destruct (apply_changes_run tables_account_lawful (set_prev_state (Some (db_tables d)) u) (db_tables d))
    as (t' & Ea & Hv & _); [reflexivity | exact Hw | apply tables_view_wf, Hok |].
  exists t'. pose proof Ea as Ea'. unfold pop_block. rewrite (bind_run_Ok get _ d d d eq_refl).
  destruct (Z.eqb_spec (block_num (head_block_header d)) 0) as [E0 | _]; [contradiction |].
  unfold undo_block, bind, on_forks. rewrite Em. unfold modify, get, valid_or. cbn. rewrite Hu. cbn.
  unfold apply_pending. rewrite Ea'. clear Ea'.
  assert (accounts_wf t') as Haw by (intros id x; apply (Hv KAccount); reflexivity).
  destruct (Z.eqb_spec (previous (head_block_header d)) 0) as [E0 | E0].
  - eexists. split; [exact Ea | split; [exact Haw | split; [reflexivity |]]]. split; cbn; auto.
    + intros k key ? ?. now rewrite at_head_lookup.
    + left. now split.
  - destruct (Hprev E0) as [b Hb]. unfold get_block_header, get_block, bind, get, valid_or. cbn.
    rewrite (shape_blocks _ _ Hsh), Hb. cbn.
    eexists. split; [exact Ea | split; [exact Haw | split; [reflexivity |]]]. split; cbn; auto.
    + intros k key ? ?. now rewrite !at_head_lookup.
    + right. split; [exact E0 |]. exists b. cbn. now rewrite (shape_blocks _ _ Hsh).
Qed.

(** The undo state of the head brings the tables before it back. *)
Lemma pop_block_run t d : chain_ok d -> block_num (head_block_header d) <> 0 ->
  is_Some (fork_db (db_forks d) !! head_block_id d) ->
  (previous (head_block_header d) <> 0 -> is_Some (full_blocks (db_forks d) !! previous (head_block_header d))) ->
  undoes_to t d -> exists d', pop_block d = (Ok tt, d') /\ popped t d d'.
Proof.
  intros Hok Hn Hf Hprev (p & undo & Hun & Hu & Hl).
  destruct (undo_applies tables_account_lawful p t undo (db_tables d) Hun)
    as (t1 & E1 & _ & Hl'); [apply tables_view_wf, Hok | intros k key _ ? ?; now apply Hl |].
  destruct (pop_block_any _ d Hok Hn Hf Hprev Hu) as (t' & d' & Ea & _ & R & P);
    [exact (view_overlay_wf undo (undo_wf _ _ _ Hun)) |].
  change (set_prev_state (Some (db_tables d)) (set_prev_state (Q := ChainTables) None undo))
    with (set_prev_state (Some (db_tables d)) undo) in Ea.
  rewrite E1 in Ea. injection Ea as ->. exists d'. split; [exact R |]. destruct P. split; auto.
  transitivity t'; [intros k key ? ?; now apply Hl' | assumption].
Qed.

Lemma popped_ok t d d' : chain_ok d -> is_Some (fork_db (db_forks d) !! head_block_id d) ->
  accounts_wf t -> popped t d d' -> chain_ok d'.
Proof.
  intros [T _] Hf Hw Hpop. split.
  - destruct (mark_included_tree (head_block_id d) false (db_forks d) T Hf ltac:(discriminate))
      as (forks & R & T' & _).
    rewrite (pop_forks _ _ _ Hpop) in R. injection R as ->. exact T'.
  - apply (view_accounts_wf _ t); [| exact Hw]. intros id.
    apply (pop_tables _ _ _ Hpop KAccount); reflexivity.
Qed.

(** C16: A block that was accepted can be taken back: the tables, but for the
    contract storages, are those before the block, the head is the head
    before it, and the block is no longer included. *)
Theorem extend_pop b d d1 : chain_ok d -> head_stored d -> arrived d b -> block_num (header b) <> 0 ->
  min_undo_block d <= block_num (header b) -> extend_chain b d = (Ok tt, d1) ->
  exists d2, pop_block d1 = (Ok tt, d2) /\ chain_ok d2 /\
    same_maps (db_tables d) (db_tables d2) /\
    head_block_id d2 = head_block_id d /\ head_block_header d2 = head_block_header d /\
    is_included (look (db_forks d2) (block_id b)) = false /\
    block_num_to_id d2 = delete (block_num (header b)) (block_num_to_id d).
Proof.
  intros Hok Hh Ha Hn Hmin R.
  destruct (extend_chain_run b d Hok Ha) as [(e & x & E & _) | (p & x & E & (key & Hnext & Hp) & C & Hok1)];
    rewrite E in R; [discriminate | injection R as ->].
  pose proof (next_previous _ _ _ Hnext) as Hprev. destruct (com_head _ _ _ _ C) as [Hid Hhd].
  destruct (mark_included_run (block_id b) true (db_forks d)) as (forks & Em & Hsh & _).
  { apply (tree_stored _ _ (ok_tree _ Hok)). destruct Ha; eauto. }
  rewrite (com_forks _ _ _ _ C) in Em. injection Em as <-.
  assert (full_blocks (db_forks d1) = full_blocks (db_forks d)) as Hblocks by apply Hsh.
  assert (is_Some (fork_db (db_forks d1) !! head_block_id d1)) as Hf1.
  { apply (tree_stored _ _ (ok_tree _ Hok1)). rewrite Hblocks, Hid. destruct Ha; eauto. }
  destruct (pop_block_run (db_tables d) d1 Hok1) as (d2 & R2 & Hpop).
  - now rewrite Hhd.
  - exact Hf1.
  - rewrite Hhd, Hblocks, Hprev. intros H0. destruct Hh as [[E0 _] | (_ & hb & Hhb & _)]; [contradiction | eauto].
  - destruct (com_undo _ _ _ _ C Hmin) as (undo & Hun & Hu). exists p, undo.
    rewrite Hid. split; [exact Hun | split; [exact Hu |]].
    intros k key' Hk _. now apply (com_lookup _ _ _ _ C).
  - exists d2. split; [exact R2 |].
    assert (head_block_id d2 = head_block_id d) as Hid2 by (rewrite (pop_head _ _ _ Hpop), Hhd; exact Hprev).
    destruct (mark_included_run (head_block_id d1) false (db_forks d1) Hf1)
      as (forks & Em & Hsh2 & _ & Hinc & _).
    rewrite (pop_forks _ _ _ Hpop) in Em. injection Em as <-.
    split; [exact (popped_ok _ _ _ Hok1 Hf1 (ok_accounts _ Hok) Hpop) |].
    split; [apply Hpop |]. split; [exact Hid2 |]. split; [| split].
    + destruct (pop_stored _ _ _ Hpop) as [[E1 ->] | (N1 & b1 & Hb1 & <-)];
        destruct Hh as [[E2 ->] | (N2 & b2 & Hb2 & <-)]; try congruence.
      rewrite Hid2, (shape_blocks _ _ Hsh2), Hblocks in Hb1. congruence.
    + rewrite Hid in Hinc. exact Hinc.
    + rewrite (pop_numbers _ _ _ Hpop), (com_numbers _ _ _ _ C), Hhd. apply delete_insert_eq.
Qed.
End Extension.
