(* ===== verification/ForkSwitch.v ===== *)
(** * Switching to another fork

    The invariant of the chain and its block tree, and switch_to_fork: the
    blocks of the old fork are taken back, those of the new one are applied,
    until one is rejected. *)

From Stdlib Require Import ZArith Lia Bool String.
From stdpp Require Import base gmap strings list fin_sets relations.
From S2P Require Import Prelude Asset Entries Names ChainInterface ChainState AssetEntry.
From S2P Require Import EvalState ContractOperations Ledger AccountForms Conservation.
From S2P Require Import Blocks ForkDatabase ForkTree ForkStore ForkMarks.
From S2P Require Import PendingChainState Undo ChainTables Delegates DelegateLists.
From S2P Require Import ChainDatabase LedgerTables BlockLaws BlockEffects ChainExtension.

Local Open Scope Z_scope.

(** The blocks from [id] back to the first. *)
Inductive branch (db : ForkDb) : BlockIdType -> list BlockIdType -> Prop :=
  | branch_genesis : branch db 0 []
  | branch_block id b l : full_blocks db !! id = Some b -> id <> 0 ->
      branch db (previous (header b)) l -> branch db id (id :: l).

Lemma branch_ext db db' id l : full_blocks db' = full_blocks db -> branch db id l -> branch db' id l.
Proof.
  intros E. induction 1 as [| id b l Hb Hid _ IH]; [constructor |].
  eapply branch_block; [rewrite E; exact Hb | exact Hid | exact IH].
Qed.

Lemma branch_unique db id l l' : branch db id l -> branch db id l' -> l = l'.
Proof.
  intros Hl. revert l'. induction Hl as [| id b l Hb Hid _ IH]; intros l' Hl';
    inversion Hl' as [| ? b' m Hb' Hid' Hm]; subst; try congruence.
  f_equal. apply IH. congruence.
Qed.

Lemma branch_head db id id' l : branch db id l -> branch db id' l -> id = id'.
Proof. inversion 1; subst; inversion 1; congruence. Qed.

Lemma branch_stored db id l x : branch db id l -> x ∈ l -> x <> 0 /\ is_Some (full_blocks db !! x).
Proof.
  induction 1 as [| id b l Hb Hid _ IH]; [intros Hx; set_solver |].
  intros [-> | Hx]%elem_of_cons; [eauto | auto].
Qed.

(** The branch of a block of a branch is its rest. *)
Lemma branch_split db id l t : branch db id l -> t = 0 \/ t ∈ l ->
  exists l1 l2, l = l1 ++ l2 /\ branch db t l2.
Proof.
  induction 1 as [| id b l Hb Hid Hl IH]; intros Ht.
  - exists [], []. destruct Ht as [-> | Ht]; [split; [reflexivity | constructor] | set_solver].
  - destruct (decide (t = id)) as [-> | Hne].
    + exists [], (id :: l). split; [reflexivity |]. eapply branch_block; eassumption.
    + destruct IH as (l1 & l2 & -> & H2); [set_solver |]. exists (id :: l1), l2. auto.
Qed.

Section BranchRank.
Context `{HB : BlockParams} `{HH : !BlockHashes}.

Lemma branch_rank db id l x : tree db -> branch db id l -> x ∈ l -> (id_rank x <= id_rank id)%nat.
Proof.
  intros T. induction 1 as [| id b l Hb Hid _ IH]; [intros Hx; set_solver |].
  intros [-> | Hx]%elem_of_cons; [lia |]. specialize (IH Hx).
  destruct (tree_block _ T _ _ Hb) as [<- _]. pose proof (header_rank (header b)). unfold block_id in *. lia.
Qed.

Lemma branch_nodup db id l : tree db -> branch db id l -> NoDup l.
Proof.
  intros T. induction 1 as [| id b l Hb Hid Hl IH]; constructor; [| exact IH].
  intros Hx. apply (branch_rank _ _ _ _ T Hl) in Hx. destruct (tree_block _ T _ _ Hb) as [<- _].
  pose proof (header_rank (header b)). unfold block_id in *. lia.
Qed.

Lemma branch_length db id l : tree db -> branch db id l -> (List.length l <= size (fork_db db))%nat.
Proof.
  intros T Hl. pose proof (branch_nodup _ _ _ T Hl) as Hn.
  pose proof (size_list_to_set (C := gset Z) l Hn) as <-. rewrite <- size_dom.
  apply subseteq_size. intros x. rewrite elem_of_list_to_set, elem_of_dom.
  intros Hx. apply (tree_stored db x T). eapply branch_stored; eassumption.
Qed.
End BranchRank.

Section Switching.
Context `{HP : ChainParams} `{HB : BlockParams} `{HH : !BlockHashes} `{HC : Clock} `{HN : NodeParams}
  `{HV : GluaVM Pend}.

(** The included blocks are those of the head's branch, and undo states hold
    well formed entries. *)
Record chain_inv (d : ChainDatabase) : Prop := {
  inv_ok : chain_ok d;
  inv_head : head_stored d;
  inv_branch : exists l, branch (db_forks d) (head_block_id d) l /\
    forall x, is_included (look (db_forks d) x) = true <-> x = 0 \/ x ∈ l;
  inv_undo : forall i u, block_id_to_undo_state d !! i = Some u -> overlay_wf u
}.

(** No block has the number of the genesis block, which is not taken back. *)
Definition numbered (db : ForkDb) : Prop :=
  forall id b, full_blocks db !! id = Some b -> block_num (header b) <> 0.

(** What neither taking blocks back nor applying them changes. *)
Record same_blocks (d d' : ChainDatabase) : Prop := {
  same_full : full_blocks (db_forks d') = full_blocks (db_forks d);
  same_size : dom (fork_db (db_forks d')) = dom (fork_db (db_forks d));
  same_links x : can_link (look (db_forks d') x) = can_link (look (db_forks d) x)
}.
#[export] Instance same_blocks_preorder : PreOrder same_blocks.
Proof.
  split; [split; auto |]. intros d1 d2 d3 [A1 A2 A3] [B1 B2 B3]. split; [congruence | congruence |].
  intros x. now rewrite B3, A3.
Qed.

(** The numbers of blocks grow along the branches. *)
Definition orderly (db : ForkDb) : Prop :=
  forall id b, full_blocks db !! id = Some b ->
    0 < block_num (header b) /\
    forall c bc, full_blocks db !! c = Some bc -> previous (header bc) = id ->
      block_num (header b) < block_num (header bc).
Lemma orderly_numbered db : orderly db -> numbered db.
Proof. intros Ho id b Hb. destruct (Ho id b Hb). lia. Qed.

(** Undo states are kept for a number of blocks below the head: those above
    [floor] are there as long as no block above [floor] and this number is
    applied. *)
Definition within (floor : Z) (db : ForkDb) : Prop :=
  forall id b, full_blocks db !! id = Some b -> can_link (look db id) = true ->
    block_num (header b) <= floor + ALP_BLOCKCHAIN_MAX_UNDO_HISTORY.

(** The included blocks with numbers above [floor] have their undo states,
    and the index of numbers names blocks with these numbers. *)
Record undo_above (floor : Z) (d : ChainDatabase) : Prop := {
  undo_from : min_undo_block d <= floor + 1;
  undo_there x b : full_blocks (db_forks d) !! x = Some b -> floor < block_num (header b) ->
    is_included (look (db_forks d) x) = true -> is_Some (block_id_to_undo_state d !! x);
  undo_index n i : block_num_to_id d !! n = Some i ->
    exists b, full_blocks (db_forks d) !! i = Some b /\ block_num (header b) = n
}.
Lemma undo_above_raise floor floor' d : floor <= floor' -> undo_above floor d -> undo_above floor' d.
Proof.
  intros Hf [H1 H2 H3]. split; [lia | | exact H3]. intros x b Hb Hn. apply (H2 x b Hb). lia.
Qed.
Definition keeps_undo (d d' : ChainDatabase) : Prop :=
  forall floor, within floor (db_forks d) -> undo_above floor d -> undo_above floor d'.

(** The steps that change the tables: the head is taken back, or a block is
    put on it. *)
Inductive move (d d' : ChainDatabase) : Prop :=
  | move_pop l u t : chain_inv d -> branch (db_forks d) (head_block_id d) (head_block_id d :: l) ->
      block_id_to_undo_state d !! head_block_id d = Some u ->
      apply_changes (set_prev_state (Some (db_tables d)) u) = (Ok tt, Some t) -> popped t d d' -> move d d'
  | move_accept b p : chain_inv d -> block_id b <> 0 -> arrived d b -> accepted b p d d' -> move d d'
  | move_other : db_tables d' = db_tables d -> head_block_id d' = head_block_id d ->
      full_blocks (db_forks d') = full_blocks (db_forks d) ->
      block_id_to_undo_state d' = block_id_to_undo_state d -> block_num_to_id d' = block_num_to_id d -> move d d'.

(** A step keeps the stored blocks, and the undo states when no block is too
    far above the floor; the block [c] stays in the chain. *)
Record steps_to (c : BlockIdType) (d d' : ChainDatabase) : Prop := {
  step_move : move d d';
  step_full : full_blocks (db_forks d') = full_blocks (db_forks d);
  step_links x : can_link (look (db_forks d') x) = true -> can_link (look (db_forks d) x) = true;
  step_undo : keeps_undo d d';
  step_keeps : is_included (look (db_forks d) c) = true -> is_included (look (db_forks d') c) = true
}.

(** No blocks are added, none becomes valid again, no undo state is lost, and
    [c] stays. *)
Record evolves (c : BlockIdType) (d d' : ChainDatabase) : Prop := {
  ev_moves : rtc (steps_to c) d d';
  ev_full : full_blocks (db_forks d') = full_blocks (db_forks d);
  ev_links x : can_link (look (db_forks d') x) = true -> can_link (look (db_forks d) x) = true;
  ev_undo : keeps_undo d d';
  ev_keeps : is_included (look (db_forks d) c) = true -> is_included (look (db_forks d') c) = true
}.
#[export] Instance evolves_preorder c : PreOrder (evolves c).
Proof.
  split; [split; [apply rtc_refl | reflexivity | easy | now intros ? _ | easy] |].
  intros d1 d2 d3 [A0 A1 A2 A3 A4] [B0 B1 B2 B3 B4].
  split; [etransitivity; eassumption | congruence | auto | | auto].
  intros floor Hw Hu. apply B3; [| now apply A3]. intros id b. rewrite A1. intros Hb Hc. exact (Hw id b Hb (A2 _ Hc)).
Qed.

Lemma evolves_once c d d' : move d d' -> full_blocks (db_forks d') = full_blocks (db_forks d) ->
  (forall x, can_link (look (db_forks d') x) = true -> can_link (look (db_forks d) x) = true) ->
  keeps_undo d d' ->
  (is_included (look (db_forks d) c) = true -> is_included (look (db_forks d') c) = true) -> evolves c d d'.
Proof. intros Hm Hf Hl Hu Hk. split; [apply rtc_once; now split | exact Hf | exact Hl | exact Hu | exact Hk]. Qed.

Lemma mark_included_dom id included db u db' : mark_included id included db = (Ok u, db') ->
  dom (fork_db db') = dom (fork_db db).
Proof.
  unfold mark_included, fork_fetch, fork_store. intros R. run_inv R. cbn.
  rewrite dom_insert_L. match goal with H : _ !! id = Some _ |- _ =>
    apply elem_of_dom_2 in H; apply set_eq; intros x; set_solver end.
Qed.

Lemma mark_included_same id included db db' u : is_Some (fork_db db !! id) ->
  (included = true -> invalid (look db id) = false) -> mark_included id included db = (Ok u, db') ->
  full_blocks db' = full_blocks db /\
  (forall x, can_link (look db' x) = can_link (look db x)) /\
  forall x, is_included (look db' x) = if decide (x = id) then included else is_included (look db x).
Proof.
  intros Hid Hinv R.
  destruct (mark_included_run id included db Hid) as (db1 & R1 & Hs & Hx & Hi & Hv & _).
  rewrite R in R1. injection R1 as _ <-. split; [apply Hs |]. split.
  - intros x. unfold can_link. rewrite (shape_linked _ _ Hs). f_equal. f_equal.
    destruct (decide (x = id)) as [-> | Hne]; [| now rewrite Hx].
    unfold invalid at 1. rewrite Hv. destruct included; [now rewrite Hinv | reflexivity].
  - intros x. case_decide as Hd; [now rewrite Hd | now rewrite Hx].
Qed.

(** ** Taking the head back *)

Lemma pop_step c d l u : c <> head_block_id d -> chain_inv d -> numbered (db_forks d) ->
  branch (db_forks d) (head_block_id d) (head_block_id d :: l) ->
  block_id_to_undo_state d !! head_block_id d = Some u ->
  exists d', pop_block d = (Ok tt, d') /\ chain_inv d' /\ same_blocks d d' /\ evolves c d d' /\
    branch (db_forks d') (head_block_id d') l /\
    block_id_to_undo_state d' = block_id_to_undo_state d.
Proof.
  intros Hne Hinv Hn Hbr Hu. pose proof Hinv as [Hok Hh (l0 & Hl0 & Hinc) Hw].
  inversion Hbr as [| id b l' Hb Hid Hl]; subst.
  rewrite (branch_unique _ _ _ _ Hl0 Hbr) in Hinc.
  assert (header b = head_block_header d) as Ehd.
  { destruct Hh as [[E0 _] | (_ & b' & Hb' & <-)]; [congruence |]. congruence. }
  assert (is_Some (fork_db (db_forks d) !! head_block_id d)) as Hf
    by (apply (tree_stored _ _ (ok_tree _ Hok)); eauto).
  destruct (pop_block_any u d Hok) as (t' & d' & Ea & Haw & R & P).
  - rewrite <- Ehd. eapply Hn, Hb.
  - exact Hf.
  - rewrite <- Ehd. intros H0. inversion Hl; subst; [congruence | eauto].
  - exact Hu.
  - eapply Hw, Hu.
  - exists d'. split; [exact R |].
    destruct (mark_included_same _ _ _ _ _ Hf (fun E => False_ind _ (diff_false_true E)) (pop_forks _ _ _ P)) as (Efull & Elink & Einc).
    assert (branch (db_forks d') (head_block_id d') l) as Hl'.
    { rewrite (pop_head _ _ _ P), <- Ehd. exact (branch_ext _ _ _ _ Efull Hl). }
    split; [split |].
    + exact (popped_ok _ _ _ Hok Hf Haw P).
    + apply P.
    + exists l. split; [exact Hl' |]. intros x. rewrite Einc. case_decide as Hx.
      * subst x. split; [discriminate |]. intros [E0 | Hin]; [congruence |].
        pose proof (branch_nodup _ _ _ (ok_tree _ Hok) Hbr) as Hnd. now apply NoDup_cons in Hnd as [? _].
      * rewrite Hinc. set_solver.
    + intros i v. rewrite (pop_undo _ _ _ P). apply Hw.
    + split; [split; [exact Efull | exact (mark_included_dom _ _ _ _ _ (pop_forks _ _ _ P)) | exact Elink] |].
      split; [apply evolves_once |];
        [| exact Efull | intros x; now rewrite Elink | | rewrite Einc; now case_decide | split; [exact Hl' | apply P]].
      { exact (move_pop d d' l u t' Hinv Hbr Hu Ea P). }
      intros floor _ [Hmin Hall Hix]. split; [rewrite (pop_min _ _ _ P); exact Hmin | |].
      * intros x b'. rewrite (pop_undo _ _ _ P), Einc, Efull. case_decide; [discriminate | apply Hall].
      * intros n i. rewrite (pop_numbers _ _ _ P), Efull, lookup_delete_Some. intros [_ Hni]. exact (Hix n i Hni).
Qed.

Lemma pop_until_run c t l2 l1 : c = 0 \/ c ∈ l2 -> forall fuel d, chain_inv d -> numbered (db_forks d) ->
  branch (db_forks d) (head_block_id d) (l1 ++ l2) -> branch (db_forks d) t l2 ->
  (List.length l1 <= fuel)%nat -> (forall x, x ∈ l1 -> is_Some (block_id_to_undo_state d !! x)) ->
  exists d', pop_until fuel t d = (Ok tt, d') /\ chain_inv d' /\ same_blocks d d' /\
    evolves c d d' /\ head_block_id d' = t.
Proof.
  intros Hc.
  induction l1 as [| x l1 IH]; intros fuel d Hi Hn Hbr Ht Hf Hu.
  - pose proof (branch_head _ _ _ _ Hbr Ht) as E.
    exists d. split; [| split; [exact Hi | split; [reflexivity | split; [reflexivity | exact E]]]].
    destruct fuel; cbn [pop_until]; rewrite (bind_run_Ok get _ d d d eq_refl), E, Z.eqb_refl; reflexivity.
  - destruct fuel as [| fuel]; [cbn in Hf; lia |].
    assert (x = head_block_id d) as -> by (inversion Hbr; congruence).
    destruct (Hu (head_block_id d)) as [u Hu']; [set_solver |].
    destruct (pop_step c d (l1 ++ l2) u) as (d1 & R & Hi1 & Hs & Hev & Hbr1 & Eu); try assumption.
    { intros E. pose proof (branch_nodup _ _ _ (ok_tree _ (inv_ok _ Hi)) Hbr) as Hnd.
      apply NoDup_cons in Hnd as [Hnd _]. destruct (branch_stored _ _ _ _ Hbr (list_elem_of_here _ _)).
      destruct Hc as [-> | Hc]; [congruence | apply Hnd; set_solver]. }
    assert (head_block_id d <> t) as Hne.
    { intros E. rewrite <- E in Ht. pose proof (branch_unique _ _ _ _ Hbr Ht) as El.
      apply (f_equal List.length) in El. cbn in El. rewrite List.length_app in El. lia. }
    destruct (IH fuel d1 Hi1) as (d2 & R2 & Hi2 & Hs2 & Hev2 & E2).
    + intros id b. rewrite (same_full _ _ Hs). apply Hn.
    + exact Hbr1.
    + exact (branch_ext _ _ _ _ (same_full _ _ Hs) Ht).
    + cbn in Hf. lia.
    + intros y Hy. rewrite Eu. apply Hu. set_solver.
    + exists d2. split; [| split; [exact Hi2 | split; [etransitivity; eassumption |
        split; [etransitivity; eassumption | exact E2]]]].
      cbn [pop_until]. rewrite (bind_run_Ok get _ d d d eq_refl).
      destruct (Z.eqb_spec (head_block_id d) t); [contradiction |].
      rewrite (bind_run_Ok _ _ _ _ _ R). exact R2.
Qed.

(** ** Applying the new fork *)

(** Blocks on top of [t], in order. *)
Fixpoint links (db : ForkDb) (t : BlockIdType) (ids : list BlockIdType) : Prop :=
  match ids with
  | [] => True
  | i :: ids' => i <> 0 /\ (exists b, full_blocks db !! i = Some b /\ previous (header b) = t) /\
                 can_link (look db i) = true /\ links db i ids'
  end.

Lemma links_ext d d' ids : same_blocks d d' -> forall t,
  links (db_forks d) t ids -> links (db_forks d') t ids.
Proof.
  intros Hs. induction ids as [| i ids IH]; intros t; cbn [links]; [easy |].
  rewrite (same_full _ _ Hs), (same_links _ _ Hs). intros (Hi & Hb & Hl & Hr). auto.
Qed.

Lemma last_next {A} (i : A) ids d : List.last (i :: ids) d = List.last ids i.
Proof.
  revert i d. induction ids as [| j ids IH]; intros i d; [reflexivity |].
  change (List.last (j :: ids) d = List.last (j :: ids) i). now rewrite !IH.
Qed.

Lemma links_snoc db ids i : forall t, links db t ids -> links db (List.last ids t) [i] ->
  links db t (ids ++ [i]).
Proof.
  induction ids as [| j ids IH]; intros t Hl Hi; [exact Hi |].
  cbn [links app] in *. destruct Hl as (Hj & Hb & Hc & Hl). repeat (split; [assumption |]).
  apply IH; [exact Hl |]. now rewrite last_next in Hi.
Qed.

(** The last of the blocks comes after all of them. *)
Lemma links_reach db ids : tree db -> forall t (from : gset BlockIdType), reaches (children db) from t ->
  links db t ids -> reaches (children db) from (List.last ids t).
Proof.
  intros T. induction ids as [| i ids IH]; intros t from Ht Hl; [exact Ht |].
  cbn [links] in Hl. destruct Hl as (_ & Hb & _ & Hl).
  assert (reaches (children db) from i) as Hi
    by (eapply reaches_next; [exact Ht | apply (tree_children _ T); exact Hb]).
  rewrite last_next. exact (IH i from Hi Hl).
Qed.

Lemma accepted_inv c b p d d' : block_id b <> 0 -> chain_inv d -> arrived d b -> accepted b p d d' ->
  chain_inv d' /\ same_blocks d d' /\ evolves c d d' /\ head_block_id d' = block_id b.
Proof.
  intros H0 Hinv Ha Hacc. assert (move d d') as Hmove by (eapply move_accept; eassumption).
  destruct Hinv as [Hok Hh (l & Hl & Hinc) Hw], Ha as [Hb Hc], Hacc as [(key & Hnext & _) [C Hok']].
  destruct (com_head _ _ _ _ C) as [Hid Hhd]. pose proof (com_forks _ _ _ _ C) as Em.
  assert (is_Some (fork_db (db_forks d) !! block_id b)) as Hf
    by (apply (tree_stored _ _ (ok_tree _ Hok)); eauto).
  destruct (mark_included_same _ _ _ _ _ Hf
              (fun _ => proj1 (negb_true_iff _) (proj2 (andb_prop _ _ Hc))) Em) as (Efull & Elink & Einc).
  assert (same_blocks d d') as Hs
    by (split; [exact Efull | exact (mark_included_dom _ _ _ _ _ Em) | exact Elink]).
  split; [split |]; [exact Hok' | | | | split; [exact Hs | split; [apply evolves_once | exact Hid]]].
  - right. rewrite Hid, Efull, Hhd. eauto.
  - exists (block_id b :: l). split.
    + rewrite Hid. eapply branch_block; [rewrite Efull; exact Hb | exact H0 |].
      rewrite (next_previous _ _ _ Hnext). exact (branch_ext _ _ _ _ Efull Hl).
    + intros x. rewrite Einc. case_decide as Hx; rewrite elem_of_cons; [tauto | rewrite Hinc; tauto].
  - intros i u Hu. destruct (com_stored _ _ _ _ C i u Hu) as [Hold | (_ & undo & Hun & ->)];
      [eapply Hw, Hold |].
    exact (view_overlay_wf undo (undo_wf _ _ _ Hun)).
  - exact Hmove.
  - exact Efull.
  - intros x. now rewrite Elink.
  - intros floor Hwin [Hmin Hall Hix]. destruct (com_same _ _ _ _ C) as [Emin _].
    pose proof (Hwin _ _ Hb Hc) as Hnum.
    split; [rewrite Emin; exact Hmin | |].
    + intros x b' Hb' Hn. rewrite Einc. rewrite Efull in Hb'. case_decide as Hx.
      * subst x. intros _. rewrite Hb in Hb'. injection Hb' as <-.
        destruct (com_undo _ _ _ _ C) as (undo & _ & Hu); [lia |]. rewrite Hu. eauto.
      * intros Hxi. destruct (Hall x b' Hb' Hn Hxi) as [v Hv]. exists v.
        apply (com_older _ _ _ _ C x v Hx Hv). intros _ Eold.
        destruct (Hix _ _ Eold) as (b2 & Hb2 & En2). rewrite Hb' in Hb2. injection Hb2 as <-. lia.
    + intros n i. rewrite (com_numbers _ _ _ _ C), Efull, lookup_insert_Some.
      intros [[<- <-] | [_ Hni]]; [eauto | exact (Hix n i Hni)].
  - rewrite Einc. now case_decide.
Qed.

Lemma rejected_inv c b e d d' : chain_inv d -> rejected b e d d' -> chain_inv d' /\ evolves c d d'.
Proof.
  intros Hinv. unfold rejected. destruct (fc_exception e); [| intros ->; now split; [| reflexivity]].
  destruct Hinv as [Hok Hh (l & Hl & Hinc) Hw]. intros (forks & -> & T & Hsh & Hi & Hbad & Hor). pose proof (shape_blocks _ _ Hsh) as Efull.
  split; [| apply evolves_once; [apply move_other; auto | exact Efull | |
    intros floor _ [Hmin Hall Hix]; split; [exact Hmin | intros x b'; cbn; rewrite Efull, Hi; apply Hall |
      intros n i; cbn; rewrite Efull; apply Hix] | cbn; now rewrite Hi]].
  2: { intros x. cbn. destruct (Hor x) as [-> | Hx]; [easy |]. unfold can_link at 1.
       now rewrite (Hbad x Hx), andb_false_r. }
  split; cbn.
  - split; [exact T | apply Hok].
  - destruct Hh as [Hh | (H0 & b' & Hb' & E)]; [left; exact Hh |]. right. cbn. rewrite Efull. eauto.
  - exists l. split; [exact (branch_ext _ _ _ _ Efull Hl) |]. intros x. now rewrite Hi.
  - exact Hw.
Qed.

(** Whatever the outcome, the invariant holds; an error is that of a block of
    the fork, and makes the end of the fork invalid. *)
Definition extended_to (id : BlockIdType) (r : result unit) (d' : ChainDatabase) : Prop :=
  match r with
  | Ok _ => head_block_id d' = id
  | Err e => (exists b d1, extend_chain b d1 = (Err e, d')) /\
             (fc_exception e = true -> invalid (look (db_forks d') id) = true)
  end.

Lemma extend_all_run c ids : forall d, chain_inv d -> links (db_forks d) (head_block_id d) ids ->
  exists r d', forM ids (fun i => b <- on_forks (get_block i) ;; extend_chain b) d = (r, d') /\
    chain_inv d' /\ evolves c d d' /\ extended_to (List.last ids (head_block_id d)) r d'.
Proof.
  induction ids as [| i ids IH]; intros d Hi Hl; cbn [for_each].
  { exists (Ok tt), d. split; [reflexivity |]. split; [exact Hi |]. now split. }
  cbn [links] in Hl. destruct Hl as (H0 & (b & Hb & Hprev) & Hc & Hl).
  assert (block_id b = i) as Eid by apply (tree_block _ (ok_tree _ (inv_ok _ Hi)) _ _ Hb). subst i.
  assert (set_forks (db_forks d) d = d) as Ed by now destruct d.
  assert ((b <- on_forks (get_block (block_id b)) ;; extend_chain b) d = extend_chain b d) as Ebody.
  { unfold bind at 1, on_forks, get_block, bind, get, valid_or. rewrite Hb. cbn. now rewrite Ed. }
  destruct (extend_chain_run b d (inv_ok _ Hi) (conj Hb Hc)) as [(e & d1 & R & Hrej) | (p & d1 & R & Hacc)].
  - destruct (rejected_inv c _ _ _ _ Hi Hrej) as [Hi1 Hev].
    exists (Err e), d1. split; [| split; [exact Hi1 | split; [exact Hev | split; [eauto |]]]].
    { apply bind_run_Err. now rewrite Ebody. }
    intros He. unfold rejected in Hrej. rewrite He in Hrej. destruct Hrej as (forks & -> & _ & _ & _ & Hinv & _).
    apply Hinv. pose proof (ok_tree _ (inv_ok _ Hi)) as T.
    assert (reaches (children (db_forks d)) {[ block_id b ]} (List.last ids (block_id b))) as Hr
      by (apply (links_reach _ _ T); [apply reaches_here; set_solver | exact Hl]).
    now rewrite last_next.
  - destruct (accepted_inv c b p d d1 H0 Hi (conj Hb Hc) Hacc) as (Hi1 & Hs & Hev & Eh).
    destruct (IH d1 Hi1) as (r & d2 & R2 & Hi2 & Hev2 & He).
    { rewrite Eh. exact (links_ext _ _ _ Hs _ Hl). }
    exists r, d2. split; [| split; [exact Hi2 | split; [etransitivity; eassumption |]]].
    + rewrite <- R2. rewrite R in Ebody. exact (bind_run_Ok _ _ _ _ _ Ebody).
    + rewrite Eh in He. now rewrite last_next.
Qed.

(** ** Both *)

(** The fork history of a block that can be linked: where it leaves the
    chain, and the blocks from there on. *)
Lemma history_links db id l : tree db -> back_to db id l -> id <> 0 -> can_link (look db id) = true ->
  exists l', l = l' ++ [List.last l 0] /\ links db (List.last l 0) (rev (id :: l')) /\
    (List.last l 0 = 0 \/ is_included (look db (List.last l 0)) = true).
Proof.
  intros T. induction 1 as [id b Hb Hstop | id b l Hb H0 Hinc Hl IH]; intros Hid Hc.
  - exists []. cbn. split; [reflexivity |]. split; [| exact Hstop]. eauto 10.
  - assert (id ∈ children db (previous (header b))) as Hch by (apply (tree_children _ T); eauto).
    apply andb_true_iff in Hc as Hc'. destruct Hc' as [Hlink Hinv%negb_true_iff].
    pose proof (tree_linked _ T _ _ Hch Hlink) as Hplink.
    assert (can_link (look db (previous (header b))) = true) as Hpc.
    { unfold can_link. rewrite Hplink. destruct (invalid (look db (previous (header b)))) eqn:E; [| reflexivity].
      now rewrite (tree_invalid _ T _ _ Hch Hplink E) in Hinv. }
    destruct (IH H0 Hpc) as (l' & El & Hlinks & Hstop).
    assert (List.last (previous (header b) :: l) 0 = List.last l 0) as Elast.
    { rewrite last_next. rewrite El at 1 2. now rewrite !List.last_last. }
    exists (previous (header b) :: l'). rewrite Elast. split; [cbn; now rewrite <- El |].
    split; [| exact Hstop]. change (rev (id :: previous (header b) :: l'))
      with (rev (previous (header b) :: l') ++ [id]). apply links_snoc; [exact Hlinks |].
    cbn [rev]. rewrite List.last_last. cbn. eauto 10.
Qed.

(** The blocks of the chain above [t] have their undo states. *)
Definition undo_back_to (d : ChainDatabase) (t : BlockIdType) : Prop :=
  forall l1 l2, branch (db_forks d) (head_block_id d) (l1 ++ l2) -> branch (db_forks d) t l2 ->
    forall x, x ∈ l1 -> is_Some (block_id_to_undo_state d !! x).

(** Where a fork leaves the chain is not below an included block of it. *)
Lemma back_to_included db id l lid c : back_to db id l -> branch db id lid -> c ∈ lid -> c <> id ->
  is_included (look db c) = true -> exists l2, branch db (List.last l 0) l2 /\ c ∈ l2.
Proof.
  intros Hb. revert lid. induction Hb as [id b Hb Hstop | id b l Hb H0 Hinc Hl IH]; intros lid Hlid Hc Hne Hi.
  - inversion Hlid as [| i b' l2 Hb' Hid Hl2]; subst; [set_solver |].
    assert (b' = b) as -> by congruence. exists l2. split; [exact Hl2 | set_solver].
  - inversion Hlid as [| i b' l2 Hb' Hid Hl2]; subst; [set_solver |].
    assert (b' = b) as -> by congruence. rewrite last_next.
    destruct (IH l2 Hl2) as (m & Hm & Hcm); [set_solver | congruence | exact Hi |].
    exists m. split; [| exact Hcm]. destruct l; [inversion Hl |]. rewrite last_next in *. exact Hm.
Qed.

Lemma switch_run c id d : chain_inv d -> numbered (db_forks d) ->
  is_Some (full_blocks (db_forks d) !! id) -> can_link (look (db_forks d) id) = true ->
  (forall l, back_to (db_forks d) id l -> undo_back_to d (List.last l 0) /\
     (c = 0 \/ exists l2, branch (db_forks d) (List.last l 0) l2 /\ c ∈ l2)) ->
  exists r d', switch_to_fork id d = (r, d') /\ chain_inv d' /\ evolves c d d' /\ extended_to id r d'.
Proof.
  intros Hi Hn Hid Hc Hu. pose proof (ok_tree _ (inv_ok _ Hi)) as T.
  unfold switch_to_fork. rewrite (bind_run_Ok get _ d d d eq_refl).
  destruct (get_fork_history_run id _ T Hid) as (l & Rh & Hback); [now apply andb_true_iff in Hc |].
  assert (id <> 0) as H0 by (intros ->; destruct (tree_genesis _ T) as [E _], Hid; congruence).
  destruct (history_links _ _ _ T Hback H0 Hc) as (l' & El & Hlinks & Hstop).
  destruct (Z.eqb_spec id (head_block_id d)) as [Eh | Hne].
  { exists (Ok tt), d. split; [reflexivity | split; [exact Hi | split; [reflexivity | now symmetry]]]. }
  destruct (Hu l Hback) as [Hundo Hkeep].
  set (t := List.last l 0) in *.
  destruct (inv_branch _ Hi) as (lb & Hlb & Hinc).
  assert (t = 0 \/ t ∈ lb) as Ht by (destruct Hstop as [E | E]; [now left | now apply Hinc]).
  destruct (branch_split _ _ _ _ Hlb Ht) as (l1 & l2 & -> & Hl2).
  assert (on_forks (get_fork_history id) d = (Ok (id :: l), d)) as Rf
    by (unfold on_forks; rewrite Rh; now destruct d).
  rewrite (bind_run_Ok _ _ _ _ _ Rf), last_next.
  assert (List.last l id = t) as Et by (unfold t; rewrite El; now rewrite !List.last_last).
  assert (List.last (id :: l) 0 = t) as Et' by now rewrite last_next.
  rewrite Et.
  destruct (pop_until_run c t l2 l1) with (fuel := generations (db_forks d)) (d := d)
    as (d1 & R1 & Hi1 & Hs & Hev & E1); try assumption.
  { destruct Hkeep as [-> | (m & Hm & Hcm)]; [now left | right]. now rewrite (branch_unique _ _ _ _ Hl2 Hm). }
  { pose proof (branch_length _ _ _ T Hlb) as Hlen. rewrite List.length_app in Hlen.
    unfold generations. lia. }
  { exact (Hundo l1 l2 Hlb Hl2). }
  rewrite (bind_run_Ok _ _ _ _ _ R1).
  assert (tail (rev (id :: l)) = rev (id :: l')) as Erev.
  { rewrite El. cbn [rev]. rewrite rev_app_distr. reflexivity. }
  rewrite Erev.
  destruct (extend_all_run c (rev (id :: l')) d1 Hi1) as (r & d2 & R2 & Hi2 & Hev2 & He).
  { rewrite E1. exact (links_ext _ _ _ Hs _ Hlinks). }
  exists r, d2. split; [exact R2 | split; [exact Hi2 | split; [etransitivity; eassumption |]]].
  cbn [rev] in He. now rewrite List.last_last in He.
Qed.

(** C13: Switching to a block whose ancestors are stored, when the undo states
    back to where its fork leaves the chain are there and no block is numbered
    zero, always ends: either the
    block is the head, or a block of its fork was rejected and the fork is
    marked invalid up to the block.  In both cases the included blocks are
    again those of the head's branch. *)
Theorem switch_to_fork_spec id d : chain_inv d -> numbered (db_forks d) ->
  is_Some (full_blocks (db_forks d) !! id) -> can_link (look (db_forks d) id) = true ->
  (forall l, back_to (db_forks d) id l -> undo_back_to d (List.last l 0)) ->
  exists r d', switch_to_fork id d = (r, d') /\ chain_inv d' /\ extended_to id r d'.
Proof.
  intros Hi Hn Hid Hc Hu. destruct (switch_run 0 id d Hi Hn Hid Hc) as (r & d' & R & Hi' & _ & He); [now split; [apply Hu | left] | eauto].
Qed.
End Switching.
