(* ===== verification/Anchor.v ===== *)
(** * Forks above an anchor

    Undo states are kept for the last hour of blocks only.  When every fork
    leaves the chain at or after one of its blocks, the anchor, and no block is
    more than an hour above it, switching between forks never lacks an undo
    state, and the anchor stays in the chain. *)

From Stdlib Require Import ZArith Lia Bool String.
From stdpp Require Import base gmap strings list fin_sets relations.
From S2P Require Import Prelude Asset Entries Names ChainInterface ChainState AssetEntry.
From S2P Require Import EvalState ContractOperations Ledger AccountForms Conservation.
From S2P Require Import Blocks ForkDatabase ForkTree ForkStore ForkMarks.
From S2P Require Import PendingChainState Undo ChainTables Delegates DelegateLists.
From S2P Require Import ChainDatabase LedgerTables BlockLaws BlockEffects ChainExtension ForkSwitch.

Local Open Scope Z_scope.

(** ** Numbers along branches *)

Definition number_at (db : ForkDb) (id : BlockIdType) : Z :=
  match full_blocks db !! id with Some b => block_num (header b) | None => 0 end.

Lemma number_at_ext db db' id : full_blocks db' = full_blocks db -> number_at db' id = number_at db id.
Proof. unfold number_at. now intros ->. Qed.

Section Numbers.
Context `{HB : BlockParams} `{HH : !BlockHashes}.

(** The blocks of a branch above one of its blocks have higher numbers. *)
Lemma branch_above db t l2 l1 : orderly db -> branch db t l2 -> forall id, branch db id (l1 ++ l2) ->
  forall x, x ∈ l1 -> exists bx, full_blocks db !! x = Some bx /\ number_at db t < block_num (header bx).
Proof.
  intros Ho Ht. induction l1 as [| y l1 IH]; intros id Hid x Hx; [set_solver |].
  cbn [app] in Hid. inversion Hid as [| i b l Hb Hi Hl]; subst y l i.
  destruct (Ho _ _ Hb) as [Hpos _].
  assert (number_at db t < block_num (header b)) as Hn.
  { destruct l1 as [| z l1].
    - rewrite <- (branch_head _ _ _ _ Hl Ht). unfold number_at.
      destruct (full_blocks db !! previous (header b)) as [bp |] eqn:Ep; [| exact Hpos].
      now apply (proj2 (Ho _ _ Ep) id b).
    - destruct (IH _ Hl z ltac:(set_solver)) as (bz & Hz & Hlt). cbn [app] in Hl.
      inversion Hl as [| i b' l Hb' Hi' Hl' Ei]; subst.
      assert (b' = bz) as -> by congruence.
      pose proof (proj2 (Ho _ _ Hb') id b Hb eq_refl). lia. }
  apply elem_of_cons in Hx as [-> | Hx]; [eauto | exact (IH _ Hl x Hx)].
Qed.

Lemma branch_number db t l2 c : orderly db -> branch db t l2 -> c ∈ l2 -> number_at db c <= number_at db t.
Proof.
  intros Ho Ht Hc. destruct (branch_split _ _ _ c Ht (or_intror Hc)) as (l1 & l3 & -> & H3).
  destruct l1 as [| x l1].
  - cbn [app] in Ht. rewrite (branch_head _ _ _ _ Ht H3). lia.
  - destruct (branch_above _ _ _ (x :: l1) Ho H3 t Ht x) as (bx & Hbx & Hlt); [set_solver |].
    inversion Ht; subst. unfold number_at at 2. rewrite Hbx. lia.
Qed.

(** Before a linked block stands a branch back to genesis. *)
Lemma linked_branch db : tree db -> forall n x, (id_rank x < n)%nat -> is_Some (full_blocks db !! x) ->
  is_linked (look db x) = true -> exists l, branch db x l.
Proof.
  intros T. induction n as [| n IH]; intros x Hn [b Hb] Hl; [lia |].
  assert (x <> 0) as Hx by (intros ->; destruct (tree_genesis _ T); congruence).
  assert (x ∈ children db (previous (header b))) as Hch by (apply (tree_children _ T); eauto).
  pose proof (tree_linked _ T _ _ Hch Hl) as Hp.
  destruct (decide (previous (header b) = 0)) as [E0 | E0].
  - exists [x]. eapply branch_block; [exact Hb | exact Hx |]. rewrite E0. constructor.
  - destruct (IH (previous (header b))) as [l Hl'].
    + pose proof (tree_child_rank _ _ _ T Hch). lia.
    + destruct (full_blocks db !! previous (header b)) eqn:E; [eauto |].
      destruct (tree_placeholder _ T _ E); congruence.
    + exact Hp.
    + exists (x :: l). eapply branch_block; eassumption.
Qed.
Lemma can_link_branch db x : tree db -> is_Some (full_blocks db !! x) ->
  can_link (look db x) = true -> exists l, branch db x l.
Proof.
  intros T Hx Hc. apply (linked_branch db T (Datatypes.S (id_rank x))); [lia | exact Hx |].
  now apply andb_true_iff in Hc.
Qed.
End Numbers.

Section Anchored.
Context `{HP : ChainParams} `{HB : BlockParams} `{HH : !BlockHashes} `{HC : Clock} `{HN : NodeParams}
  `{HV : GluaVM Pend}.
Variable floor : Z.
Variable c : BlockIdType.

(** The anchor [c] has the number [floor], is in the chain, and the blocks
    above it that can be linked come after it. *)
Record anchored (d : ChainDatabase) : Prop := {
  anchor_on : is_included (look (db_forks d) c) = true;
  anchor_number : number_at (db_forks d) c = floor;
  anchor_before x bx l : full_blocks (db_forks d) !! x = Some bx -> can_link (look (db_forks d) x) = true ->
    floor < block_num (header bx) -> branch (db_forks d) x l -> c = 0 \/ c ∈ l
}.

Record secure (d : ChainDatabase) : Prop := {
  sec_inv : chain_inv d;
  sec_orderly : orderly (db_forks d);
  sec_within : within floor (db_forks d);
  sec_undo : undo_above floor d;
  sec_anchor : anchored d
}.

Lemma secure_evolves d d' : secure d -> evolves c d d' -> chain_inv d' -> secure d'.
Proof.
  intros [Hi Ho Hw Hu [A1 A2 A3]] He Hi'. pose proof (ev_keeps _ _ _ He A1) as Hc. pose proof (ev_full _ _ _ He) as E.
  split; [exact Hi' | | | exact (ev_undo _ _ _ He floor Hw Hu) | split; [exact Hc | |]].
  - intros id b. rewrite E. apply Ho.
  - intros id b. rewrite E. intros Hb Hl. exact (Hw id b Hb (ev_links _ _ _ He _ Hl)).
  - rewrite <- A2. now apply number_at_ext.
  - intros x bx l. rewrite E. intros Hx Hl Hn Hbr.
    exact (A3 x bx l Hx (ev_links _ _ _ He _ Hl) Hn (branch_ext _ _ _ _ (eq_sym E) Hbr)).
Qed.

(** A fork above the anchor leaves the chain at the anchor or after it. *)
Lemma leaves_above id bi l d : secure d -> full_blocks (db_forks d) !! id = Some bi ->
  can_link (look (db_forks d) id) = true -> floor < block_num (header bi) -> back_to (db_forks d) id l ->
  floor <= number_at (db_forks d) (List.last l 0) /\
  (c = 0 \/ exists l2, branch (db_forks d) (List.last l 0) l2 /\ c ∈ l2).
Proof.
  intros [Hi Ho _ _ [A1 A2 A3]] Hb Hl Hn Hback. pose proof (ok_tree _ (inv_ok _ Hi)) as T.
  destruct (can_link_branch _ id T ltac:(eauto) Hl) as [lid Hlid].
  destruct (A3 id bi lid Hb Hl Hn Hlid) as [E0 | Hc].
  - split; [| now left]. unfold number_at in A2 |- *.
    rewrite E0, (proj1 (tree_genesis _ T)) in A2.
    destruct (full_blocks (db_forks d) !! List.last l 0) as [b |] eqn:E; [| lia]. destruct (Ho _ _ E). lia.
  - destruct (back_to_included _ _ _ _ _ Hback Hlid Hc) as (l2 & Hl2 & Hc2); [| exact A1 |].
    + intros ->. unfold number_at in A2. rewrite Hb in A2. lia.
    + split; [rewrite <- A2; now apply (branch_number _ _ l2) | eauto].
Qed.

Lemma undo_to d t : secure d -> floor <= number_at (db_forks d) t -> undo_back_to d t.
Proof.
  intros [Hi Ho _ Hu _] Ht l1 l2 Hbr Hl2 x Hx.
  destruct (inv_branch _ Hi) as (lb & Hlb & Hinc). pose proof (branch_unique _ _ _ _ Hlb Hbr) as ->.
  destruct (branch_above _ _ _ _ Ho Hl2 _ Hbr x Hx) as (bx & Hbx & Hlt).
  apply (undo_there _ _ Hu x bx Hbx); [lia |]. apply Hinc. set_solver.
Qed.

(** Switching to a fork above the anchor. *)
Lemma switch_secure id bi d : secure d -> full_blocks (db_forks d) !! id = Some bi ->
  can_link (look (db_forks d) id) = true -> floor < block_num (header bi) ->
  exists r d', switch_to_fork id d = (r, d') /\ secure d' /\ evolves c d d' /\ extended_to id r d'.
Proof.
  intros Hs Hb Hl Hn. pose proof Hs as [Hi Ho _ _ _].
  destruct (switch_run c id d Hi (orderly_numbered _ Ho)) as (r & d' & R & Hi' & He & Hr); [eauto | exact Hl | |].
  { intros l Hback. destruct (leaves_above id bi l d Hs Hb Hl Hn Hback) as [Ht Hc].
    split; [exact (undo_to d _ Hs Ht) | exact Hc]. }
  exists r, d'. split; [exact R | split; [| now split]]. exact (secure_evolves d d' Hs He Hi').
Qed.
End Anchored.
