(* ===== verification/PushBlock.v ===== *)
(** * Pushing a block

    A block that is pushed joins the tree; the forks it makes higher than the
    chain are tried from the highest down, until one is switched to. *)

From Stdlib Require Import ZArith Lia Bool String.
From stdpp Require Import base gmap strings list fin_sets relations.
From S2P Require Import Prelude Asset Entries Names ChainInterface ChainState AssetEntry.
From S2P Require Import EvalState ContractOperations Ledger AccountForms Conservation.
From S2P Require Import Blocks ForkDatabase ForkTree ForkStore ForkMarks.
From S2P Require Import PendingChainState Undo ChainTables Delegates DelegateLists.
From S2P Require Import ChainDatabase LedgerTables BlockLaws BlockEffects ChainExtension ForkSwitch.
From S2P Require Import Anchor.

Local Open Scope Z_scope.

(** ** What storing a block links *)
Section Linked.
Context `{HB : BlockParams} `{HH : !BlockHashes}.

(** Before a block that can be linked stands another one. *)
Lemma linkable_parent db x c : tree db -> c ∈ children db x -> can_link (look db c) = true ->
  can_link (look db x) = true.
Proof.
  intros T Hch Hc. apply andb_true_iff in Hc as [Hl Hi%negb_true_iff].
  pose proof (tree_linked _ T _ _ Hch Hl) as Hx. unfold can_link. rewrite Hx.
  destruct (invalid (look db x)) eqn:E; [| reflexivity].
  now rewrite (tree_invalid _ T _ _ Hch Hx E) in Hi.
Qed.

(** A block that can be linked now could before, or it is the new one or
    comes after it. *)
Lemma newly_linked b r db db' : tree db -> full_blocks db !! block_id b = None -> stored b r db db' ->
  forall n x, (id_rank x < n)%nat -> is_Some (full_blocks db' !! x) -> can_link (look db' x) = true ->
  can_link (look db x) = true \/ x = block_id b \/
  reaches (children db) (children db (block_id b)) x.
Proof.
  intros T Hnew St. pose proof (stored_tree _ _ _ _ St) as T'. pose proof (stored_blocks _ _ _ _ St) as Eb.
  induction n as [| n IH]; intros x Hn [bx Hbx] Hc; [lia |].
  destruct (decide (x = block_id b)) as [-> | Hx]; [auto |].
  assert (full_blocks db !! x = Some bx) as Hbx0 by (rewrite Eb, lookup_insert_ne in Hbx by congruence; exact Hbx).
  set (p := previous (header bx)).
  assert (x ∈ children db' p) as Hch' by (apply (tree_children _ T'); eauto).
  assert (x ∈ children db p) as Hch by (apply (tree_children _ T); eauto).
  apply andb_true_iff in Hc as Hc'. destruct Hc' as [_ Hix%negb_true_iff].
  pose proof (linkable_parent _ _ _ T' Hch' Hc) as Hcp.
  assert (can_link (look db p) = true -> can_link (look db x) = true) as Hold.
  { intros Hp. unfold can_link. rewrite (tree_viable _ T _ _ Hch Hp).
    destruct (invalid (look db x)) eqn:E; [| reflexivity].
    now rewrite (stored_worse _ _ _ _ St x Hx E) in Hix. }
  pose proof (tree_child_rank _ _ _ T' Hch') as Hrank.
  destruct (decide (p = 0)) as [E0 | E0]; [left; apply Hold; rewrite E0; apply T |].
  destruct (IH p) as [Hp | [Hp | Hp]]; [lia | | exact Hcp | left; auto | | ].
  - destruct (full_blocks db' !! p) eqn:E; [eauto |].
    apply andb_true_iff in Hcp as [Hlp _]. destruct (tree_placeholder _ T' _ E); congruence.
  - right. right. apply reaches_here. now rewrite <- Hp.
  - right. right. eapply reaches_next; eassumption.
Qed.

(** Below a block that cannot be linked nothing is newly linked. *)
Lemma orphan_links b r db db' x : tree db -> full_blocks db !! block_id b = None -> stored b r db db' ->
  can_link (look db (previous (header b))) = false -> is_Some (full_blocks db' !! x) ->
  can_link (look db' x) = true -> can_link (look db x) = true.
Proof.
  intros T Hnew St Hp Hx Hc. pose proof (stored_tree _ _ _ _ St) as T'.
  pose proof (stored_blocks _ _ _ _ St) as Eb.
  assert (forall c bc, full_blocks db' !! c = Some bc -> c ∈ children db' (previous (header bc))) as Hchild
    by (intros c bc Hbc; apply (tree_children _ T'); eauto).
  assert (can_link (look db' (block_id b)) = false) as Hb.
  { destruct (can_link (look db' (block_id b))) eqn:E; [| reflexivity]. exfalso.
    assert (can_link (look db' (previous (header b))) = true) as Hl
      by (apply (linkable_parent _ _ _ T' (Hchild (block_id b) b ltac:(rewrite Eb; apply lookup_insert_eq)) E)).
    unfold can_link in E. rewrite (stored_linked _ _ _ _ St) in E. apply andb_true_iff in E as [E _].
    unfold can_link in Hp. rewrite E in Hp. cbn in Hp. apply negb_false_iff in Hp.
    apply (stored_worse _ _ _ _ St) in Hp.
    - unfold can_link in Hl. rewrite Hp, andb_false_r in Hl. discriminate.
    - intros Eid. pose proof (header_rank (header b)) as Hr. rewrite Eid in Hr. unfold block_id in Hr. lia. }
  destruct (newly_linked b r db db' T Hnew St _ _ (Nat.lt_succ_diag_r _) Hx Hc) as [H | [-> | H]];
    [exact H | congruence | exfalso].
  assert (forall y c, c ∈ children db y -> c ∈ children db' y) as Hmono.
  { intros y c (bc & Hbc & <-)%(tree_children _ T). apply Hchild. rewrite Eb, lookup_insert_ne; congruence. }
  clear Hx. induction H as [x Hin | y x _ IH Hin]; pose proof (linkable_parent _ _ _ T' (Hmono _ _ Hin) Hc).
  - congruence.
  - now apply IH.
Qed.

Lemma branch_grows db db' id l :
  (forall x b, full_blocks db !! x = Some b -> full_blocks db' !! x = Some b) ->
  branch db id l -> branch db' id l.
Proof.
  intros E. induction 1 as [| id b l Hb Hid _ IH]; [constructor |].
  eapply branch_block; [apply E, Hb | exact Hid | exact IH].
Qed.
End Linked.

Section Pushing.
Context `{HP : ChainParams} `{HB : BlockParams} `{HH : !BlockHashes} `{HC : Clock} `{HN : NodeParams}
  `{HV : GluaVM Pend}.

(** No stored block that could follow genesis is higher than the head. *)
Definition head_highest (d : ChainDatabase) : Prop :=
  forall x bx, full_blocks (db_forks d) !! x = Some bx -> can_link (look (db_forks d) x) = true ->
    block_num (header bx) <= block_num (head_block_header d).

Definition cannot_link (d : ChainDatabase) (x : BlockIdType) : Prop :=
  can_link (look (db_forks d) x) = false.
Lemma evolves_cannot c d d' x : evolves c d d' -> cannot_link d x -> cannot_link d' x.
Proof.
  intros He Hx. unfold cannot_link in *. destruct (can_link (look (db_forks d') x)) eqn:E; [| reflexivity].
  now rewrite (ev_links _ _ _ He x E) in Hx.
Qed.
Lemma future_blocks_inv c x d : chain_inv d -> chain_inv (set_future_blocks x d) /\
  evolves c d (set_future_blocks x d).
Proof.
  intros [Hok Hh Hb Hu]. split; [split; auto; split; apply Hok |].
  apply evolves_once; auto; [now apply move_other |]. intros floor _ [Hm Ha Hx]. now split.
Qed.

(** The numbers above [floor], from [highest] down *)
Fixpoint try_above (floor : Z) (id : BlockIdType) (highest : nat) : M ChainDatabase bool :=
  match highest with
  | O => ret false
  | Datatypes.S n =>
      if Z.of_nat highest <=? floor then ret false
      else
        d <- get ;;
        done <- try_forks id (fetch_blocks_at_number (db_forks d) (Z.of_nat highest)) ;;
        if done then ret true else try_above floor id n
  end.
Lemma try_above_numbers floor id n : forall d r d', try_above floor id n d = (r, d') ->
  r <> Ok false \/ floor <= 0 -> try_numbers id n d = (r, d').
Proof.
  induction n as [| n IH]; intros d r d' R Hr; [exact R |]. cbn [try_above try_numbers] in *.
  destruct (Z.leb_spec (Z.of_nat (Datatypes.S n)) floor).
  { injection R as <- <-. destruct Hr; [congruence | lia]. }
  unfold bind, get in R |- *. destruct (try_forks _ _ d) as [[[|] | e] d1]; auto.
Qed.

Section Tries.
Variable floor : Z.
Variable c : BlockIdType.

(** The blocks of one number above the floor are tried in turn. *)
Lemma try_forks_run id ids : forall d, secure floor c d ->
  (forall i, i ∈ ids -> exists b, full_blocks (db_forks d) !! i = Some b /\ floor < block_num (header b)) ->
  exists r d', try_forks id ids d = (r, d') /\ secure floor c d' /\ evolves c d d' /\
  match r with
  | Ok true => head_block_id d' ∈ ids
  | Ok false => forall i, i ∈ ids -> cannot_link d' i
  | Err e => fc_exception e = false
  end.
Proof.
  induction ids as [| i ids IH]; intros d Hi Hs; cbn [try_forks].
  { exists (Ok false), d. split; [reflexivity | split; [exact Hi | split; [reflexivity |]]]. set_solver. }
  pose proof (ok_tree _ (inv_ok _ (sec_inv _ _ _ Hi))) as T.
  destruct (Hs i) as (bi & Hbi & Hni); [set_solver |].
  destruct (tree_stored _ i T ltac:(eauto)) as [[fd Hfd] _].
  assert (on_forks (fork_fetch i) d = (Ok fd, d)) as Rf
    by (unfold on_forks, fork_fetch, bind, get, valid_or; rewrite Hfd; now destruct d).
  rewrite (bind_run_Ok _ _ _ _ _ Rf).
  assert (look (db_forks d) i = fd) as El by (unfold look; now rewrite Hfd).
  (* the rest, from a state where [i] cannot be linked *)
  assert (forall d1, secure floor c d1 -> evolves c d d1 -> cannot_link d1 i ->
    exists r d', try_forks id ids d1 = (r, d') /\ secure floor c d' /\ evolves c d d' /\
    match r with
    | Ok true => head_block_id d' ∈ i :: ids
    | Ok false => forall j, j ∈ i :: ids -> cannot_link d' j
    | Err e => fc_exception e = false
    end) as Hrest.
  { intros d1 Hi1 He1 Hc1.
    destruct (IH d1 Hi1) as (r & d2 & R2 & Hi2 & He2 & Hr).
    { intros j Hj. rewrite (ev_full _ _ _ He1). apply Hs. set_solver. }
    exists r, d2. split; [exact R2 | split; [exact Hi2 | split; [etransitivity; eassumption |]]].
    destruct r as [[|] | e]; [set_solver | | exact Hr].
    intros j [-> | Hj]%elem_of_cons; [exact (evolves_cannot _ _ _ _ He2 Hc1) | auto]. }
  destruct (can_link fd) eqn:Hc; [| apply Hrest; [exact Hi | reflexivity | unfold cannot_link; now rewrite El]].
  destruct (switch_secure floor c i bi d Hi Hbi) as (r & d1 & R & Hi1 & He1 & Hr); [now rewrite El | exact Hni |].
  rewrite R. destruct r as [u | e]; cbn [extended_to] in Hr.
  { exists (Ok true), d1. split; [reflexivity | split; [exact Hi1 | split; [exact He1 |]]]. set_solver. }
  destruct Hr as [_ Hinv].
  assert (fc_exception e = true -> cannot_link d1 i) as Hcl.
  { intros Hf. unfold cannot_link, can_link. now rewrite (Hinv Hf), andb_false_r. }
  case_bool_decide as Et.
  - destruct (future_blocks_inv c ({[ id ]} ∪ future_blocks d1) d1 (sec_inv _ _ _ Hi1)) as [Hi1' He1'].
    apply Hrest; [| etransitivity; eassumption |].
    + apply (secure_evolves floor c d1); [exact Hi1 | exact He1' | exact Hi1'].
    + apply (evolves_cannot _ _ _ _ He1'), Hcl. now rewrite Et.
  - destruct (fc_exception e) eqn:Hf; [apply Hrest; auto |].
    exists (Err e), d1. auto.
Qed.

Lemma try_above_run id n : forall d, secure floor c d ->
  exists r d', try_above floor id n d = (r, d') /\ secure floor c d' /\ evolves c d d' /\
  match r with
  | Ok true => forall x bx, full_blocks (db_forks d') !! x = Some bx ->
      block_num (head_block_header d') < block_num (header bx) <= Z.of_nat n -> cannot_link d' x
  | Ok false => forall x bx, full_blocks (db_forks d') !! x = Some bx ->
      Z.max 0 floor < block_num (header bx) <= Z.of_nat n -> cannot_link d' x
  | Err e => fc_exception e = false
  end.
Proof.
  induction n as [| n IH]; intros d Hi; cbn [try_above].
  { exists (Ok false), d. split; [reflexivity | split; [exact Hi | split; [reflexivity |]]]. intros; lia. }
  destruct (Z.leb_spec (Z.of_nat (Datatypes.S n)) floor) as [Hle | Hgt].
  { exists (Ok false), d. split; [reflexivity | split; [exact Hi | split; [reflexivity |]]]. intros; lia. }
  rewrite (bind_run_Ok get _ d d d eq_refl).
  pose proof (ok_tree _ (inv_ok _ (sec_inv _ _ _ Hi))) as T.
  destruct (try_forks_run id (fetch_blocks_at_number (db_forks d) (Z.of_nat (Datatypes.S n))) d Hi)
    as (r & d1 & R & Hi1 & He1 & Hr).
  { intros i (b & Hb & En)%(tree_numbers _ T). exists b. split; [exact Hb | lia]. }
  assert (forall x bx, full_blocks (db_forks d1) !! x = Some bx -> block_num (header bx) = Z.of_nat (Datatypes.S n) ->
    x ∈ fetch_blocks_at_number (db_forks d) (Z.of_nat (Datatypes.S n))) as Hat.
  { intros x bx Hx En. apply (tree_numbers _ T). rewrite (ev_full _ _ _ He1) in Hx. eauto. }
  destruct r as [[|] | e]; [| | exists (Err e), d1; rewrite (bind_run_Err _ _ _ _ _ R); auto];
    rewrite (bind_run_Ok _ _ _ _ _ R).
  - exists (Ok true), d1. split; [reflexivity | split; [exact Hi1 | split; [exact He1 |]]].
    pose proof (sec_inv _ _ _ Hi1) as Hc1.
    apply (tree_numbers _ T) in Hr as (b & Hb & En). intros x bx _ Hnum. exfalso.
    rewrite <- (ev_full _ _ _ He1) in Hb.
    destruct (inv_head _ Hc1) as [[E0 _] | (_ & b' & Hb' & Eb')]; [| rewrite Hb in Hb'; injection Hb' as <-; rewrite <- Eb' in Hnum; lia].
    rewrite E0 in Hb. destruct (tree_genesis _ (ok_tree _ (inv_ok _ Hc1))) as [E _]. congruence.
  - destruct (IH d1 Hi1) as (r & d2 & R2 & Hi2 & He2 & Hr2).
    exists r, d2. split; [exact R2 | split; [exact Hi2 | split; [etransitivity; eassumption |]]].
    assert (forall x bx, full_blocks (db_forks d2) !! x = Some bx -> block_num (header bx) = Z.of_nat (Datatypes.S n) ->
      cannot_link d2 x) as Htop.
    { intros x bx Hx En. apply (evolves_cannot _ _ _ _ He2), Hr, (Hat x bx); [| exact En].
      rewrite <- (ev_full _ _ _ He2). exact Hx. }
    destruct r as [[|] | e]; [| | exact Hr2]; intros x bx Hx Hnum;
      (destruct (decide (block_num (header bx) = Z.of_nat (Datatypes.S n))) as [En | En];
       [eapply Htop; eassumption | apply (Hr2 x bx Hx); lia]).
Qed.
End Tries.

(** ** The push *)

(** The block was not seen, and no entry stands for it unless a block waits
    for it. *)
Definition new_block (d : ChainDatabase) (b : FullBlock) : Prop :=
  full_blocks (db_forks d) !! block_id b = None /\ is_known (look (db_forks d) (block_id b)) = false /\
  (fork_db (db_forks d) !! block_id b = None \/ children (db_forks d) (block_id b) <> ∅).
Definition with_block (b : FullBlock) (db : ForkDb) : ForkDb :=
  mkForkDb (fork_db db) (<[block_id b := b]> (full_blocks db)) (fork_numbers db).

Lemma stored_inv b r db d : chain_inv d -> full_blocks (db_forks d) !! block_id b = None ->
  stored b r (db_forks d) db -> chain_inv (set_forks db d) /\
  forall floor, undo_above floor d -> undo_above floor (set_forks db d).
Proof.
  intros [Hok Hh (l & Hl & Hinc) Hu] Hnew St.
  assert (forall x bx, full_blocks (db_forks d) !! x = Some bx -> full_blocks db !! x = Some bx) as Hsub.
  { intros x bx Hx. rewrite (stored_blocks _ _ _ _ St), lookup_insert_ne; [exact Hx | congruence]. }
  split; [split; cbn |].
  - split; [exact (stored_tree _ _ _ _ St) | apply Hok].
  - destruct Hh as [Hh | (H0 & b' & Hb' & E)]; [left; exact Hh | right; cbn; eauto].
  - exists l. split; [exact (branch_grows _ _ _ _ Hsub Hl) |].
    intros x. now rewrite (stored_included _ _ _ _ St).
  - exact Hu.
  - intros floor [Hm Ha Hx]. split; [exact Hm | |]; cbn.
    + intros x bx Hbx Hn. rewrite (stored_included _ _ _ _ St). intros Hi.
      destruct (proj1 (Hinc x) Hi) as [-> | Hin].
      * destruct (tree_genesis _ (stored_tree _ _ _ _ St)). congruence.
      * destruct (branch_stored _ _ _ _ Hl Hin) as [_ [bx' Hbx']].
        rewrite (Hsub _ _ Hbx') in Hbx. injection Hbx as <-. exact (Ha x bx' Hbx' Hn Hi).
    + intros n i Hni. destruct (Hx n i Hni) as (bi & Hbi & En). eauto.
Qed.

(** What storing returns is the highest of what it links. *)
Lemma stored_longest b r db d : chain_inv d -> new_block d b -> orderly (with_block b (db_forks d)) ->
  can_link (look (db_forks d) (previous (header b))) = true -> stored b r (db_forks d) db ->
  can_link (snd r) = true /\ exists br, full_blocks db !! fst r = Some br /\
    forall x bx, full_blocks db !! x = Some bx -> can_link (look db x) = true ->
      can_link (look (db_forks d) x) = true \/ block_num (header bx) <= block_num (header br).
Proof.
  intros Hi (Hnew & _ & Hwait) Ho Hc St. pose proof (ok_tree _ (inv_ok _ Hi)) as T.
  pose proof (stored_blocks _ _ _ _ St) as Eb.
  assert (full_blocks db !! block_id b = Some b) as Hbb by (rewrite Eb; apply lookup_insert_eq).
  assert (forall x bx, full_blocks db !! x = Some bx -> can_link (look db x) = true ->
    can_link (look (db_forks d) x) = true \/ x = block_id b \/
    reaches (children (db_forks d)) (children (db_forks d) (block_id b)) x) as Hnl
    by (intros x bx Hx Hl; eapply (newly_linked b r _ db T Hnew St); eauto).
  destruct (fork_db (db_forks d) !! block_id b) as [fd |] eqn:Ef.
  - destruct Hwait as [Hw | Hw]; [discriminate |].
    apply set_choose_L in Hw as [c Hch].
    destruct (proj1 (tree_children _ T _ _) Hch) as (bc & Hbc & Hpc).
    assert (full_blocks db !! c = Some bc) as Hbc' by (rewrite Eb, lookup_insert_ne; [exact Hbc | congruence]).
    assert (forall x bx, full_blocks db !! x = Some bx -> 0 < block_num (header bx)) as Hpos
      by (intros x bx Hx; rewrite Eb in Hx; destruct (Ho x bx Hx); lia).
    destruct (stored_tip _ _ _ _ St c bc Hc (reaches_here _ _ _ Hch) Hbc' (Hpos _ _ Hbc')) as [(_ & br & Hbr & Hmax) Hsnd].
    split; [exact Hsnd |]. exists br. split; [exact Hbr |].
    assert (forall x, reaches (children (db_forks d)) (children (db_forks d) (block_id b)) x ->
              reaches (children db) (children (db_forks d) (block_id b)) x) as Hmono.
    { intros x Hx. induction Hx as [x Hx | y x Hy IH Hx]; [now apply reaches_here |].
      eapply reaches_next; [exact IH |]. apply (tree_children _ (stored_tree _ _ _ _ St)).
      apply (tree_children _ T) in Hx as (bx & Hbx & Hpx). exists bx. split; [| exact Hpx].
      rewrite Eb, lookup_insert_ne; [exact Hbx | congruence]. }
    intros x bx Hx Hl. destruct (Hnl x bx Hx Hl) as [H1 | [-> | H1]]; [auto | right | right].
    + assert (bx = b) as -> by congruence.
      specialize (Hmax c bc (reaches_here _ _ _ Hch) Hbc').
      destruct (Ho (block_id b) b) as [_ Hgrow]; [cbn; apply lookup_insert_eq |].
      specialize (Hgrow c bc). cbn in Hgrow. rewrite <- Eb in Hgrow. specialize (Hgrow Hbc' Hpc). lia.
    + apply (Hmax x bx (Hmono x H1) Hx).
  - destruct (stored_alone _ _ _ _ St (or_intror Ef)) as [Efst Esnd]. rewrite Efst, Esnd.
    split; [exact Hc |]. exists b. split; [exact Hbb |].
    intros x bx Hx Hl. destruct (Hnl x bx Hx Hl) as [H1 | [-> | H1]]; [auto | right |].
    + assert (bx = b) as -> by congruence. lia.
    + exfalso. exact (reaches_placeholder b _ x T Hnew Ef H1).
Qed.

(** The tries from the highest fork down leave a highest block at the head. *)
Lemma tried_highest floor c id br d : secure floor c d ->
  (forall x bx, full_blocks (db_forks d) !! x = Some bx -> can_link (look (db_forks d) x) = true ->
     block_num (header bx) <= block_num (header br)) ->
  fst (try_above floor id (Z.to_nat (block_num (header br))) d) <> Ok false \/ floor <= 0 ->
  exists r d', try_numbers id (Z.to_nat (block_num (header br))) d = (r, d') /\ secure floor c d' /\
    evolves c d d' /\ match r with Ok _ => head_highest d' | Err e => fc_exception e = false end.
Proof.
  intros Hs Hmax Hf. pose proof (sec_orderly _ _ _ Hs) as Ho.
  destruct (try_above_run floor c id (Z.to_nat (block_num (header br))) d Hs) as (r & d' & R & Hs' & He & Hr).
  rewrite R in Hf. cbn [fst] in Hf.
  exists r, d'. split; [exact (try_above_numbers _ _ _ _ _ _ R Hf) | split; [exact Hs' | split; [exact He |]]].
  destruct r as [done | e]; [| exact Hr]. intros x bx Hx Hl.
  pose proof (Hmax x bx ltac:(rewrite <- (ev_full _ _ _ He); exact Hx) (ev_links _ _ _ He x Hl)).
  destruct (Ho x bx) as [? _]; [rewrite <- (ev_full _ _ _ He); exact Hx |].
  destruct (Z.le_gt_cases (block_num (header bx)) (block_num (head_block_header d'))) as [| Hgt]; [assumption |].
  exfalso. destruct done; specialize (Hr x bx Hx); unfold cannot_link in Hr; rewrite Hl in Hr;
    discriminate Hr; destruct Hf as [Hf | Hf]; [lia | lia | congruence | lia].
Qed.

Lemma with_block_orderly b db : full_blocks db !! block_id b = None ->
  orderly (with_block b db) -> orderly db.
Proof.
  intros Hnew Ho id x Hx.
  assert (forall y by_, full_blocks db !! y = Some by_ ->
    <[block_id b := b]> (full_blocks db) !! y = Some by_) as Hsub
    by (intros y by_ Hy; rewrite lookup_insert_ne; [exact Hy | congruence]).
  destruct (Ho id x (Hsub _ _ Hx)) as [H1 H2]. split; [exact H1 |].
  intros c bc Hbc. apply (H2 c bc), Hsub, Hbc.
Qed.

(** No block that can be linked is higher than the head and the longest fork. *)
Lemma stored_bound b r db d br : chain_inv d -> head_highest d ->
  full_blocks (db_forks d) !! block_id b = None -> stored b r (db_forks d) db ->
  (forall x bx, full_blocks db !! x = Some bx -> can_link (look db x) = true ->
     can_link (look (db_forks d) x) = true \/ block_num (header bx) <= block_num (header br)) ->
  forall x bx, full_blocks db !! x = Some bx -> can_link (look db x) = true ->
    block_num (header bx) <= Z.max (block_num (head_block_header d)) (block_num (header br)).
Proof.
  intros Hi Hhigh Hnew St Hmax x bx Hx Hl. destruct (Hmax x bx Hx Hl) as [Hold | ?]; [| lia].
  destruct (decide (x = block_id b)) as [-> | Hne].
  - destruct (missing_clean _ _ (ok_tree _ (inv_ok _ Hi)) Hnew (header_not_genesis _)) as [E _].
    unfold can_link in Hold. now rewrite E in Hold.
  - rewrite (stored_blocks _ _ _ _ St), lookup_insert_ne in Hx by congruence.
    specialize (Hhigh x bx Hx Hold). lia.
Qed.

(** The longest fork is followed when it is higher than the head. *)
Lemma follow_run floor c id br d : secure floor c d ->
  (forall x bx, full_blocks (db_forks d) !! x = Some bx -> can_link (look (db_forks d) x) = true ->
     block_num (header bx) <= Z.max (block_num (head_block_header d)) (block_num (header br))) ->
  (block_num (head_block_header d) < block_num (header br) ->
   fst (try_above floor id (Z.to_nat (block_num (header br))) d) <> Ok false) \/ floor <= 0 ->
  exists r d', when (block_num (head_block_header d) <? block_num (header br))
      (try_numbers id (Z.to_nat (block_num (header br))) ;;; ret tt) d = (r, d') /\
    secure floor c d' /\ evolves c d d' /\
    match r with Ok _ => head_highest d' | Err e => fc_exception e = false end.
Proof.
  intros Hs Hmax Hf. unfold when.
  destruct (Z.ltb_spec (block_num (head_block_header d)) (block_num (header br))) as [Hlt | Hle].
  - destruct (tried_highest floor c id br d Hs) as (r & d' & R & Hs' & He & Hr).
    { intros x bx Hx Hl. specialize (Hmax x bx Hx Hl). lia. }
    { destruct Hf as [Hf | Hf]; auto. }
    unfold bind. rewrite R. destruct r as [v | e];
      [exists (Ok tt), d' | exists (Err e), d']; auto.
  - exists (Ok tt), d. split; [reflexivity | split; [exact Hs | split; [reflexivity |]]].
    intros x bx Hx Hl. specialize (Hmax x bx Hx Hl). lia.
Qed.

(** The block is not older than the undo history. *)
Definition recent (d : ChainDatabase) (b : FullBlock) : Prop :=
  block_num (head_block_header d) < block_num (header b) + ALP_BLOCKCHAIN_MAX_UNDO_HISTORY.

(** What is left of a push once the block is stored. *)
Lemma push_begins b d r db : recent d b -> is_known (look (db_forks d) (block_id b)) = false ->
  store_and_index (block_id b) b (db_forks d) = (Ok r, db) ->
  push_block b d =
    ((if can_link (snd r) then
        longest <- on_forks (get_block (fst r)) ;;
        when (block_num (head_block_header d) <? block_num (header longest))
          (try_numbers (block_id b) (Z.to_nat (block_num (header longest))) ;;; ret tt)
      else clear_invalidation_of_future_blocks) ;;;
     fork_data_of (block_id b)) (set_forks db d).
Proof.
  intros Hrec Hknown Rs.
  unfold push_block. rewrite (bind_run_Ok get _ d d d eq_refl).
  assert ((block_num (header b) <=? block_num (head_block_header d) - ALP_BLOCKCHAIN_MAX_UNDO_HISTORY) = false) as ->
    by (apply Z.leb_gt; unfold recent in Hrec; lia).
  rewrite andb_false_r. cbn [throw_if]. rewrite (bind_run_Ok (ret tt) _ d tt d eq_refl).
  assert (match fork_db (db_forks d) !! block_id b with Some fork_data => is_known fork_data | None => false end
            = false) as ->
    by (unfold look in Hknown; now destruct (fork_db (db_forks d) !! block_id b)).
  assert (on_forks (store_and_index (block_id b) b) d = (Ok r, set_forks db d)) as Ron
    by (unfold on_forks; now rewrite Rs).
  now rewrite (bind_run_Ok _ _ _ _ _ Ron).
Qed.
Lemma push_stored b d r db br : recent d b -> is_known (look (db_forks d) (block_id b)) = false ->
  store_and_index (block_id b) b (db_forks d) = (Ok r, db) -> can_link (snd r) = true ->
  full_blocks db !! fst r = Some br ->
  push_block b d =
    (when (block_num (head_block_header d) <? block_num (header br))
       (try_numbers (block_id b) (Z.to_nat (block_num (header br))) ;;; ret tt) ;;;
     fork_data_of (block_id b)) (set_forks db d).
Proof.
  intros Hrec Hknown Rs Hsnd Hbr. rewrite (push_begins b d r db Hrec Hknown Rs), Hsnd.
  assert (on_forks (get_block (fst r)) (set_forks db d) = (Ok br, set_forks db d)) as Rg
    by (unfold on_forks, get_block, bind, get, valid_or; cbn [db_forks set_forks]; now rewrite Hbr).
  unfold bind at 1. rewrite (bind_run_Ok _ _ _ _ _ Rg). reflexivity.
Qed.

(** A block whose parent cannot be linked is stored and left. *)
Lemma push_orphan b d r db : recent d b -> future_blocks d = ∅ ->
  is_known (look (db_forks d) (block_id b)) = false ->
  store_and_index (block_id b) b (db_forks d) = (Ok r, db) -> can_link (snd r) = false ->
  push_block b d = fork_data_of (block_id b) (set_forks db d).
Proof.
  intros Hrec Hf Hknown Rs Hsnd. rewrite (push_begins b d r db Hrec Hknown Rs), Hsnd.
  assert (clear_invalidation_of_future_blocks (set_forks db d) = (Ok tt, set_forks db d)) as Rc.
  { unfold clear_invalidation_of_future_blocks, bind, get. cbn [future_blocks set_forks].
    rewrite Hf, elements_empty. cbn. now rewrite Hf, elements_empty. }
  now rewrite (bind_run_Ok _ _ _ _ _ Rc).
Qed.

(** When the push tries forks, those above [floor] do not all fail. *)
Definition follows (floor : Z) (d : ChainDatabase) (b : FullBlock) : bool :=
  match store_and_index (block_id b) b (db_forks d) with
  | (Ok r, db) =>
      match full_blocks db !! fst r with
      | Some longest =>
          if can_link (snd r) && (block_num (head_block_header d) <? block_num (header longest)) then
            match fst (try_above floor (block_id b) (Z.to_nat (block_num (header longest))) (set_forks db d)) with
            | Ok false => false
            | _ => true
            end
          else true
      | None => true
      end
  | _ => true
  end.

(** A block that may come: it is new and not too old, numbers grow along the
    branches, it joins the blocks linked to genesis unless no block waits to
    be rechecked; and the anchor [c], whose number is [floor], is a block of the
    chain that all forks above it come from, none of them an hour above it. *)
Record pushable (floor : Z) (c : BlockIdType) (d : ChainDatabase) (b : FullBlock) : Prop := {
  push_new : new_block d b;
  push_recent : recent d b;
  push_orderly : orderly (with_block b (db_forks d));
  push_linked : can_link (look (db_forks d) (previous (header b))) = true \/ future_blocks d = ∅;
  push_anchor : is_included (look (db_forks d) c) = true /\ number_at (db_forks d) c = floor;
  push_above x bx l : full_blocks (with_block b (db_forks d)) !! x = Some bx ->
    invalid (look (db_forks d) x) = false -> branch (with_block b (db_forks d)) x l ->
    floor < block_num (header bx) ->
    block_num (header bx) <= floor + ALP_BLOCKCHAIN_MAX_UNDO_HISTORY /\ (c = 0 \/ c ∈ l);
  push_follows : floor <= 0 \/ follows floor d b = true
}.

Lemma stored_secure floor c b r db d : chain_inv d -> undo_above floor d -> pushable floor c d b ->
  stored b r (db_forks d) db -> secure floor c (set_forks db d).
Proof.
  intros Hi Hu P St. destruct P as [(Hnew & _) _ Ho _ [Hc Hn] Habove _].
  destruct (stored_inv b r db d Hi Hnew St) as [Hi1 Hu1]. pose proof (stored_blocks _ _ _ _ St) as Ef.
  pose proof (stored_tree _ _ _ _ St) as T'.
  assert (forall x bx, full_blocks db !! x = Some bx -> can_link (look db x) = true ->
            invalid (look (db_forks d) x) = false) as Hvalid.
  { intros x bx Hx Hl. destruct (invalid (look (db_forks d) x)) eqn:E; [| reflexivity].
    apply andb_true_iff in Hl as [_ Hl%negb_true_iff].
    destruct (decide (x = block_id b)) as [-> | Hne].
    - destruct (missing_clean _ _ (ok_tree _ (inv_ok _ Hi)) Hnew (header_not_genesis _)) as [_ E']. congruence.
    - now rewrite (stored_worse _ _ _ _ St x Hne E) in Hl. }
  assert (full_blocks (with_block b (db_forks d)) = full_blocks db) as Ew by (cbn; now rewrite Ef).
  split; [exact Hi1 | | | exact (Hu1 floor Hu) | split].
  - intros x bx. cbn. rewrite Ef. apply Ho.
  - intros x bx Hx Hl. cbn in Hx, Hl.
    destruct (Z.le_gt_cases (block_num (header bx)) floor) as [| Hgt].
    { assert (0 <= ALP_BLOCKCHAIN_MAX_UNDO_HISTORY) by (cbv; discriminate). lia. }
    destruct (can_link_branch db x T' ltac:(eauto) Hl) as [l Hbr].
    apply (Habove x bx l); [now rewrite Ew | eauto | exact (branch_ext _ _ _ _ Ew Hbr) | lia].
  - cbn. now rewrite (stored_included _ _ _ _ St).
  - rewrite <- Hn. unfold number_at. cbn. rewrite Ef. destruct (decide (c = block_id b)) as [E | Hne].
    + exfalso. destruct (inv_branch _ Hi) as (lb & Hlb & Hinc).
      destruct (proj1 (Hinc c) Hc) as [E0 | Hin].
      * apply (header_not_genesis (header b)). unfold block_id in E. congruence.
      * destruct (branch_stored _ _ _ _ Hlb Hin) as [_ [bx Hbx]]. congruence.
    + now rewrite lookup_insert_ne by congruence.
  - cbn. intros x bx l Hx Hl Hgt Hbr.
    apply (Habove x bx l); [now rewrite Ew | eauto | exact (branch_ext _ _ _ _ Ew Hbr) | exact Hgt].
Qed.

(** Storing a block and following the longest fork it is part of. *)
Lemma push_run floor c b d : chain_inv d -> undo_above floor d -> head_highest d -> pushable floor c d b ->
  exists r d' db, push_block b d = (r, d') /\ full_blocks db = <[block_id b := b]> (full_blocks (db_forks d)) /\
    secure floor c (set_forks db d) /\ evolves c (set_forks db d) d' /\ secure floor c d' /\
    match r with Ok _ => head_highest d' | Err e => fc_exception e = false end.
Proof.
  intros Hi Hu Hhigh P. pose proof P as [Hb Hrec Ho Hcan _ _ Hfol]. pose proof Hb as (Hnew & Hknown & _).
  destruct (store_and_index_stored b (db_forks d) (ok_tree _ (inv_ok _ Hi)) Hnew) as (r0 & db & Rs & St).
  pose proof (stored_secure floor c b r0 db d Hi Hu P St) as Hs1. pose proof (stored_blocks _ _ _ _ St) as Ef.
  assert (exists (r : result unit) d', push_block b d =
      (match r with Ok _ => fork_data_of (block_id b) d' | Err e => (Err e, d') end) /\
      evolves c (set_forks db d) d' /\ secure floor c d' /\
      match r with Ok _ => head_highest d' | Err e => fc_exception e = false end) as (r & d' & R & He & Hs' & Hr).
  { destruct (can_link (look (db_forks d) (previous (header b)))) eqn:Hc.
    - destruct (stored_longest b r0 db d Hi Hb Ho Hc St) as (Hsnd & br & Hbr & Hmax).
      pose proof (stored_bound b r0 db d br Hi Hhigh Hnew St Hmax) as Hbound.
      rewrite (push_stored b d r0 db br Hrec Hknown Rs Hsnd Hbr).
      destruct (follow_run floor c (block_id b) br (set_forks db d) Hs1 Hbound) as (r & d' & R & Hs' & He & Hr).
      { destruct Hfol as [? | Hfol]; [now right | left]. intros Hlt. unfold follows in Hfol.
        rewrite Rs, Hbr, Hsnd in Hfol. cbn [head_block_header set_forks] in Hlt.
        apply Z.ltb_lt in Hlt. rewrite Hlt in Hfol. cbn [andb] in Hfol.
        destruct (fst (try_above _ _ _ _)) as [[|] |]; congruence. }
      exists r, d'. split; [| auto].
      destruct r; [now rewrite (bind_run_Ok _ _ _ _ _ R) | now rewrite (bind_run_Err _ _ _ _ _ R)].
    - destruct Hcan as [? | Hf]; [discriminate |].
      assert (can_link (snd r0) = false) as Hsnd
        by (rewrite <- Hc; apply (proj2 (stored_alone _ _ _ _ St (or_introl Hc)))).
      exists (Ok tt), (set_forks db d).
      split; [exact (push_orphan b d r0 db Hrec Hf Hknown Rs Hsnd) |].
      split; [reflexivity | split; [exact Hs1 |]].
      intros x bx Hx Hl. pose proof (ok_tree _ (inv_ok _ Hi)) as T.
      cbn in Hx, Hl. pose proof (orphan_links b r0 _ db x T Hnew St Hc ltac:(eauto) Hl) as Hold.
      destruct (decide (x = block_id b)) as [-> | Hne].
      + destruct (missing_clean _ _ T Hnew (header_not_genesis _)) as [E _].
        unfold can_link in Hold. now rewrite E in Hold.
      + rewrite Ef, lookup_insert_ne in Hx by congruence. exact (Hhigh x bx Hx Hold). }
  destruct r as [u | e]; [| exists (Err e), d', db; auto 10].
  destruct (tree_stored _ (block_id b) (ok_tree _ (inv_ok _ (sec_inv _ _ _ Hs')))) as [[fd Hfd] _].
  { rewrite (ev_full _ _ _ He). cbn. rewrite Ef, lookup_insert_eq. eauto. }
  exists (Ok fd), d', db. split; [| auto 10].
  rewrite R. unfold fork_data_of, bind, get, valid_or. now rewrite Hfd.
Qed.

(** C12: Following the longest fork.  Pushing a block that may come
    ([pushable]) on a database in order, whose head is a highest block,
    returns or the process ends, keeps the invariant of chain and tree, the
    undo states above the anchor and the anchor itself, and leaves at the head
    a block with the highest number of all stored blocks that are linked to
    genesis and not known to be invalid.  The block may not be an orphan while
    blocks of the future wait: pushing one forgets that they are invalid
    without trying them, and the head stays behind
    ([orphan_leaves_head_behind] in BlockSamples). *)
Theorem push_block_highest floor c b d : chain_inv d -> undo_above floor d -> head_highest d ->
  pushable floor c d b ->
  exists r d', push_block b d = (r, d') /\ chain_inv d' /\ undo_above floor d' /\
    is_included (look (db_forks d') c) = true /\
    match r with Ok _ => head_highest d' | Err e => fc_exception e = false end.
Proof.
  intros Hi Hu Hhigh P.
  destruct (push_run floor c b d Hi Hu Hhigh P) as (r & d' & db & R & _ & _ & _ & [Hi' _ _ Hu' [Hc _ _]] & Hr).
  exists r, d'. auto.
Qed.
End Pushing.
