(* ===== verification/ChainLedger.v ===== *)
(** * The ledger of a chain that follows forks

    Every block of the head's branch above the anchor has an undo state that
    brings the tables before it back, and in all of them the shares held are
    the shares issued: switching between forks, popping blocks and applying
    others, keeps this. *)

From Stdlib Require Import ZArith Lia Bool String.
From stdpp Require Import base gmap strings list fin_sets relations.
From S2P Require Import Prelude Asset Entries Names ChainInterface ChainState AssetEntry.
From S2P Require Import EvalState ContractOperations Ledger AccountForms Conservation.
From S2P Require Import Blocks ForkDatabase ForkTree ForkStore ForkMarks.
From S2P Require Import PendingChainState Undo ChainTables Delegates DelegateLists.
From S2P Require Import ChainDatabase LedgerTables BlockLaws BlockEffects ChainExtension ForkSwitch.
From S2P Require Import Anchor.

Local Open Scope Z_scope.

Section ChainLedger.
Context `{HP : ChainParams} `{HB : BlockParams} `{HH : !BlockHashes} `{HC : Clock} `{HN : NodeParams}
  `{HV : GluaVM Pend}.

(** Sound, with room for [n] accounts, and no shares out of nothing. *)
Record ledger_ok (n : nat) (t : ChainTables) : Prop := {
  ledger_sound : sound_state n t;
  ledger_balanced a : exists k, surplus t a = k * 2 ^ 64
}.

Lemma same_maps_view t t' : same_maps t t' -> same_view t' t.
Proof.
  intros E. split; intros id;
    [apply (E KBalance) | apply (E KAccount) | apply (E KAsset) | apply (E KProperty)]; reflexivity.
Qed.
Lemma ledger_ok_same n t t' : same_maps t t' -> ledger_ok n t -> ledger_ok n t'.
Proof.
  intros E%same_maps_view [Hs Hb]. split; [exact (view_sound _ _ _ E Hs) |].
  intros a. destruct (Hb a) as [k Hk]. exists k. now rewrite (view_surplus _ _ a E).
Qed.

(** [t0] is what the undo state [u] shows over [t]. *)
Definition shows (u : Pend) (t t0 : ChainTables) : Prop :=
  forall k key, stored_kind k = true -> overlay_kind k = true ->
    db_lookup k t0 key = db_lookup k (set_prev_state (Some t) u) key.
Lemma shows_same u t t' t0 : same_maps t t' -> shows u t t0 -> shows u t' t0.
Proof.
  intros E Hs k key Hst Hk. rewrite (Hs k key Hst Hk). cbn [db_lookup pending_chain_interface].
  rewrite !pcs_lookup_generic by exact Hk. unfold overlay_lookup, entry_lookup. cbn.
  destruct (to_entry (overlay u k) !! key); [reflexivity |].
  destruct (bool_decide _); [reflexivity |]. symmetry. now apply E.
Qed.

(** The accounts the blocks of a branch register. *)
Definition branch_registers (db : ForkDb) (l : list BlockIdType) : nat :=
  list_sum (map (fun id => match full_blocks db !! id with
                           | Some b => registered (user_transactions b)
                           | None => 0%nat
                           end) l).

Variable room : nat.
Variable floor : Z.

(** The tables [t] after the branch [l], and before each of its blocks above
    the floor, are in order. *)
Inductive backed (db : ForkDb) (undos : gmap BlockIdType Pend) : ChainTables -> list BlockIdType -> Prop :=
  | backed_low t l : (forall x, x ∈ l -> number_at db x <= floor) ->
      ledger_ok (room - branch_registers db l) t -> backed db undos t l
  | backed_block t id l u t0 : ledger_ok (room - branch_registers db (id :: l)) t ->
      undos !! id = Some u -> shows u t t0 -> backed db undos t0 l -> backed db undos t (id :: l).

Lemma backed_ok db undos t l : backed db undos t l -> ledger_ok (room - branch_registers db l) t.
Proof. now destruct 1. Qed.
Lemma backed_same db undos t t' l : same_maps t t' -> backed db undos t l -> backed db undos t' l.
Proof.
  intros E Hb. revert E. destruct Hb as [t l Hlow Ht | t id l u t0 Ht Hu Hs Hb]; intros E.
  - apply backed_low; [exact Hlow | exact (ledger_ok_same _ _ _ E Ht)].
  - eapply backed_block; [exact (ledger_ok_same _ _ _ E Ht) | exact Hu | exact (shows_same _ _ _ _ E Hs) | exact Hb].
Qed.
Lemma branch_registers_same db db' l : (forall x, x ∈ l -> full_blocks db' !! x = full_blocks db !! x) ->
  branch_registers db' l = branch_registers db l.
Proof.
  intros E. unfold branch_registers. f_equal. apply map_ext_in. intros x Hx. rewrite E; [reflexivity |].
  now apply list_elem_of_In.
Qed.
(** What holds of a branch holds when other blocks come, and when undo states
    come or those below the floor go. *)
Lemma backed_grows `{!BlockParams} db db' undos undos' t l :
  (forall x, x ∈ l -> full_blocks db' !! x = full_blocks db !! x) ->
  (forall x u, x ∈ l -> floor < number_at db x -> undos !! x = Some u -> undos' !! x = Some u) ->
  orderly db -> forall id, branch db id l -> backed db undos t l -> backed db' undos' t l.
Proof.
  intros Ef Eu Ho id Hbr Hb. revert id Hbr.
  induction Hb as [t l Hlow Ht | t x l u t0 Ht Hu Hs Hb IH]; intros id Hbr.
  - apply backed_low; [| now rewrite (branch_registers_same db db')].
    intros x Hx. unfold number_at. rewrite Ef by exact Hx. exact (Hlow x Hx).
  - destruct (Z.le_gt_cases (number_at db x) floor) as [Hle | Hgt].
    + apply backed_low; [| now rewrite (branch_registers_same db db')].
      intros y Hy. unfold number_at. rewrite Ef by exact Hy. fold (number_at db y).
      assert (id = x) as -> by (inversion Hbr; congruence).
      pose proof (branch_number _ _ _ y Ho Hbr Hy). lia.
    + eapply backed_block; [| apply Eu; [set_solver | lia | exact Hu] | exact Hs |].
      * now rewrite (branch_registers_same db db').
      * inversion Hbr; subst. eapply IH; [| | eassumption].
        -- intros y Hy. apply Ef. set_solver.
        -- intros y v Hy. apply Eu. set_solver.
Qed.

Definition ledger_inv (d : ChainDatabase) : Prop :=
  exists l, branch (db_forks d) (head_block_id d) l /\
    backed (db_forks d) (block_id_to_undo_state d) (db_tables d) l.

(** Every stored block has transactions that settle and a time of 32 bits,
    and no branch registers more accounts than there is room for. *)
Record payable (db : ForkDb) : Prop := {
  payable_blocks id b : full_blocks db !! id = Some b ->
    Forall settles (user_transactions b) /\ timely (header b);
  payable_room id l : branch db id l -> (branch_registers db l <= room)%nat
}.

(** What a step relies on, and keeps. *)
Record grounded (c : BlockIdType) (d : ChainDatabase) : Prop := {
  gr_orderly : orderly (db_forks d);
  gr_within : within floor (db_forks d);
  gr_undo : undo_above floor d;
  gr_payable : payable (db_forks d);
  gr_on : is_included (look (db_forks d) c) = true;
  gr_number : number_at (db_forks d) c = floor
}.

(** What is put on a chain that contains the anchor is above the floor. *)
Lemma above_anchor c d id b l : chain_inv d -> grounded c d ->
  branch (db_forks d) id (id :: l) -> full_blocks (db_forks d) !! id = Some b ->
  c = 0 \/ c ∈ l -> floor < block_num (header b).
Proof.
  intros Hi [Ho _ _ _ _ Hn] Hbr Hb Hc. destruct (Ho _ _ Hb) as [Hpos _].
  destruct Hc as [-> | Hc].
  - unfold number_at in Hn. rewrite (proj1 (tree_genesis _ (ok_tree _ (inv_ok _ Hi)))) in Hn. lia.
  - inversion Hbr as [| i b' l' Hb' Hid Hl]; subst i l'.
    destruct (branch_split _ _ _ c Hl (or_intror Hc)) as (m1 & m2 & -> & Hm2).
    destruct (branch_above _ _ _ (id :: m1) Ho Hm2 id Hbr id) as (bx & Hbx & Hlt); [set_solver |].
    rewrite Hb in Hbx. injection Hbx as <-. lia.
Qed.

Lemma popped_ledger c d d' l u t : chain_inv d -> grounded c d ->
  is_included (look (db_forks d') c) = true ->
  branch (db_forks d) (head_block_id d) (head_block_id d :: l) ->
  block_id_to_undo_state d !! head_block_id d = Some u ->
  apply_changes (set_prev_state (Some (db_tables d)) u) = (Ok tt, Some t) -> popped t d d' ->
  ledger_inv d -> ledger_inv d'.
Proof.
  intros Hi Hg Hc Hbr Hu Ha P (l1 & Hl1 & Hb). rewrite (branch_unique _ _ _ _ Hl1 Hbr) in Hb.
  assert (is_Some (fork_db (db_forks d) !! head_block_id d)) as Hf.
  { apply (tree_stored _ _ (ok_tree _ (inv_ok _ Hi))). eapply branch_stored; [exact Hbr | set_solver]. }
  destruct (mark_included_same _ _ _ _ _ Hf (fun E => False_ind _ (diff_false_true E)) (pop_forks _ _ _ P))
    as (Ef & _ & Einc).
  inversion Hbr as [| id bh l' Hbb Hid Hl]; subst id l'.
  assert (floor < block_num (header bh)) as Habove.
  { apply (above_anchor c d (head_block_id d) bh l Hi Hg Hbr Hbb).
    rewrite Einc in Hc. case_decide as Hne; [discriminate |].
    destruct (inv_branch _ Hi) as (lb & Hlb & Hinc). rewrite (branch_unique _ _ _ _ Hlb Hbr) in Hinc.
    apply Hinc in Hc as [? | Hc]; [now left | right]. set_solver. }
  inversion Hb as [t1 l2 Hlow _ E1 E2 | t1 id l2 u' t0 Ht Hu' Hs Hb0]; subst.
  { exfalso. specialize (Hlow (head_block_id d) ltac:(set_solver)). unfold number_at in Hlow. rewrite Hbb in Hlow. lia. }
  assert (u' = u) as -> by congruence. exists l. split.
  - assert (header bh = head_block_header d) as Ehd.
    { destruct (inv_head _ Hi) as [[E0 _] | (_ & b' & Hb' & <-)]; congruence. }
    rewrite (pop_head _ _ _ P), <- Ehd. exact (branch_ext _ _ _ _ Ef Hl).
  - rewrite (pop_undo _ _ _ P). apply (backed_same _ _ t0).
    + transitivity t; [| apply P]. intros k key Hst Hk. rewrite (Hs k key Hst Hk).
      unfold apply_changes in Ha. cbn [prev_state set_prev_state] in Ha.
      destruct (forM _ _ _) as [r t'] eqn:E. injection Ha as -> ->.
      rewrite (apply_kinds_spec _ _ apply_order_nodup _ _ E) by (exact Hst || now destruct k).
      rewrite decide_True by apply apply_order_all. now apply overlaid_lookup.
    + refine (backed_grows (db_forks d) _ (block_id_to_undo_state d) _ _ _ _ _ (gr_orderly _ _ Hg) _ Hl Hb0);
        [now intros; rewrite Ef | auto].
Qed.

(** The views of the tables a block leaves are those of its pending state. *)
Lemma committed_view b p d d' : committed b p d d' -> same_view (db_tables d') p.
Proof.
  intros C. split; intros id; [apply (com_lookup _ _ _ _ C KBalance) | apply (com_lookup _ _ _ _ C KAccount)
    | apply (com_lookup _ _ _ _ C KAsset) | apply (com_lookup _ _ _ _ C KProperty)]; reflexivity.
Qed.

(** The ledger after a block on the branch [l]. *)
Lemma applied_ledger b p d d' l key : full_blocks (db_forks d) !! block_id b = Some b ->
  (branch_registers (db_forks d) (block_id b :: l) <= room)%nat ->
  Forall settles (user_transactions b) -> timely (header b) ->
  apply_block (db_tables d) b key (new_pending (Some (db_tables d))) = (Ok tt, p) -> committed b p d d' ->
  ledger_ok (room - branch_registers (db_forks d) l) (db_tables d) ->
  ledger_ok (room - branch_registers (db_forks d) (block_id b :: l)) (db_tables d').
Proof.
  intros Hbb Hroom Hset Ht Hrun C [Hsound Hbal].
  assert (branch_registers (db_forks d) (block_id b :: l) =
          (registered (user_transactions b) + branch_registers (db_forks d) l)%nat) as Ereg
    by (unfold branch_registers; cbn [map list_sum]; now rewrite Hbb).
  pose proof (committed_view _ _ _ _ C) as Hv.
  assert (forall a, sound_state (room - branch_registers (db_forks d) (block_id b :: l)) p /\
            exists k, surplus p a = surplus (db_tables d) a + k * 2 ^ 64) as Heff.
  { intros a. rewrite <- (view_surplus _ _ a (over_view (db_tables d))).
    refine (apply_block_effect _ b key _ _ p tt a Hset _ Ht Hrun).
    apply (view_sound _ _ _ (over_view (db_tables d))). revert Hsound.
    replace (room - branch_registers (db_forks d) l)%nat with
      (registered (user_transactions b) + (room - branch_registers (db_forks d) (block_id b :: l)))%nat by lia.
    auto. }
  split; [exact (view_sound _ _ _ Hv (proj1 (Heff 0))) |].
  intros a. destruct (Heff a) as [_ [k Hk]], (Hbal a) as [k' Hk'].
  exists (k + k'). rewrite (view_surplus _ _ a Hv), Hk, Hk'. lia.
Qed.

Lemma accepted_ledger c b p d d' : chain_inv d -> grounded c d -> block_id b <> 0 -> arrived d b ->
  accepted b p d d' -> ledger_inv d -> ledger_inv d'.
Proof.
  intros Hi Hg H0 Ha Hacc (l & Hl & Hb). pose proof Hg as [Ho Hw Hu Hp Hon Hn].
  destruct (accepted_inv c b p d d' H0 Hi Ha Hacc) as (_ & Hs & _ & Eh).
  destruct Hacc as ((key & Hnext & Hrun) & C & _). destruct Ha as [Hbb Hlink].
  assert (branch (db_forks d) (block_id b) (block_id b :: l)) as Hbr.
  { eapply branch_block; [exact Hbb | exact H0 |]. now rewrite (next_previous _ _ _ Hnext). }
  assert (floor < block_num (header b)) as Habove.
  { apply (above_anchor c d (block_id b) b l Hi Hg Hbr Hbb).
    destruct (inv_branch _ Hi) as (lb & Hlb & Hinc). rewrite (branch_unique _ _ _ _ Hlb Hl) in Hinc.
    now apply Hinc. }
  exists (block_id b :: l). rewrite Eh. split; [exact (branch_ext _ _ _ _ (same_full _ _ Hs) Hbr) |].
  pose proof (undo_from _ _ Hu) as Hmin. pose proof (Hw _ _ Hbb Hlink) as Hnum.
  destruct (com_undo _ _ _ _ C) as (undo & Hun & Hput); [lia |].
  eapply backed_block with (t0 := db_tables d); [| exact Hput | |].
  - rewrite (branch_registers_same (db_forks d)) by (intros; now rewrite (same_full _ _ Hs)).
    destruct (payable_blocks _ Hp _ _ Hbb) as [Hset Ht].
    exact (applied_ledger b p d d' l key Hbb (payable_room _ Hp _ _ Hbr) Hset Ht Hrun C (backed_ok _ _ _ _ Hb)).
  - intros k key' Hst Hk. rewrite <- (undo_lookup _ _ _ Hun k key' Hk Hst). symmetry.
    apply (rebased_lookup undo p (db_tables d')); [apply Hun | now apply (com_lookup _ _ _ _ C) | exact Hk].
  - refine (backed_grows (db_forks d) _ (block_id_to_undo_state d) _ _ _ _ _ Ho _ Hl Hb);
      [now intros; rewrite (same_full _ _ Hs) |].
    intros x v Hx Hlow Hv. apply (com_older _ _ _ _ C x v); [| exact Hv |].
    + intros ->. pose proof (branch_nodup _ _ _ (ok_tree _ (inv_ok _ Hi)) Hbr) as Hnd. now apply NoDup_cons in Hnd as [? _].
    + intros _ Eold. destruct (undo_index _ _ Hu _ _ Eold) as (bx & Hbx & En).
      unfold number_at in Hlow. rewrite Hbx in Hlow. lia.
Qed.

Lemma move_ledger c d d' : grounded c d -> is_included (look (db_forks d') c) = true ->
  move d d' -> ledger_inv d -> ledger_inv d'.
Proof.
  intros Hg Hc [l u t Hi Hbr Hun Ha P | b p Hi H0 Ha Hacc | Et Eh Ef Eu _] Hl.
  - exact (popped_ledger c d d' l u t Hi Hg Hc Hbr Hun Ha P Hl).
  - exact (accepted_ledger c b p d d' Hi Hg H0 Ha Hacc Hl).
  - destruct Hl as (l & Hbr & Hb). exists l. rewrite Eh, Eu, Et.
    split; [exact (branch_ext _ _ _ _ Ef Hbr) |].
    refine (backed_grows (db_forks d) _ (block_id_to_undo_state d) _ _ _ _ _ (gr_orderly _ _ Hg) _ Hbr Hb);
      [now intros; rewrite Ef | auto].
Qed.

Lemma payable_ext db db' : full_blocks db' = full_blocks db -> payable db -> payable db'.
Proof.
  intros E [H1 H2]. split; [intros id b; rewrite E; apply H1 |].
  intros id l Hl. rewrite (branch_registers_same db) by (intros; now rewrite E).
  apply (H2 id). exact (branch_ext _ _ _ _ (eq_sym E) Hl).
Qed.

Lemma step_grounded c d d' : steps_to c d d' -> grounded c d -> grounded c d'.
Proof.
  intros [Hm Hf Hl Hu Hk] [G1 G2 G3 G4 G5 G6]. split.
  - intros id b. rewrite Hf. apply G1.
  - intros id b. rewrite Hf. intros Hb Hc. exact (G2 id b Hb (Hl _ Hc)).
  - exact (Hu floor G2 G3).
  - exact (payable_ext _ _ Hf G4).
  - auto.
  - now rewrite (number_at_ext _ _ c Hf).
Qed.

Lemma evolves_ledger c d d' : grounded c d -> evolves c d d' -> ledger_inv d -> ledger_inv d'.
Proof.
  intros Hg He. pose proof (ev_moves _ _ _ He) as Hm. clear He.
  induction Hm as [d | d d1 d' Hs _ IH]; [easy |]. intros Hl. apply IH; [exact (step_grounded _ _ _ Hs Hg) |].
  apply (move_ledger c d); [exact Hg | | apply Hs | exact Hl].
  apply (step_keeps _ _ _ Hs), Hg.
Qed.
End ChainLedger.

(** A higher floor asks for less. *)
Lemma backed_raise `{ChainParams} `{BlockParams} `{Clock} `{GluaVM Pend} room floor floor' db undos t l :
  floor <= floor' -> backed room floor db undos t l -> backed room floor' db undos t l.
Proof.
  intros Hf. induction 1 as [t l Hlow Ht | t id l u t0 Ht Hu Hs Hb IH].
  - apply backed_low; [intros x Hx; specialize (Hlow x Hx); lia | exact Ht].
  - eapply backed_block; eassumption.
Qed.
