(* ===== verification/ChainIndex.v ===== *)
(** * The index of block numbers

    The blocks of the chain are numbered from one, each later than the one
    before it, and _block_num_to_id_db lists exactly them. *)

From Stdlib Require Import ZArith Lia Bool String.
From stdpp Require Import base gmap strings list fin_sets relations.
From S2P Require Import Prelude Asset Entries Names ChainInterface ChainState AssetEntry.
From S2P Require Import EvalState ContractOperations Ledger AccountForms Conservation.
From S2P Require Import Blocks ForkDatabase ForkTree ForkStore ForkMarks.
From S2P Require Import PendingChainState Undo ChainTables Delegates DelegateLists.
From S2P Require Import ChainDatabase LedgerTables BlockLaws BlockEffects ChainExtension ForkSwitch.
From S2P Require Import Anchor.

Local Open Scope Z_scope.

(** The index of a branch, its last block first. *)
Fixpoint index_of (l : list BlockIdType) : gmap Z BlockIdType :=
  match l with
  | [] => ∅
  | i :: l' => <[Z.of_nat (List.length l) := i]> (index_of l')
  end.

Lemma index_of_lookup l n : index_of l !! n = if 1 <=? n then reverse l !! Z.to_nat (n - 1) else None.
Proof.
  induction l as [| i l IH]; cbn [index_of].
  { rewrite lookup_empty. now destruct (1 <=? n). }
  rewrite reverse_cons. cbn [List.length].
  destruct (decide (n = Z.of_nat (Datatypes.S (List.length l)))) as [-> | Hn].
  - rewrite lookup_insert_eq.
    destruct (Z.leb_spec 1 (Z.of_nat (Datatypes.S (List.length l)))); [| lia].
    rewrite lookup_app_r; rewrite length_reverse; [| lia].
    now replace (Z.to_nat (Z.of_nat (Datatypes.S (List.length l)) - 1) - List.length l)%nat with 0%nat by lia.
  - rewrite lookup_insert_ne, IH by congruence. destruct (Z.leb_spec 1 n); [| reflexivity].
    destruct (decide (n <= Z.of_nat (List.length l))).
    + rewrite lookup_app_l; [reflexivity | rewrite length_reverse; lia].
    + rewrite !lookup_ge_None_2; [reflexivity | rewrite length_app, length_reverse; cbn; lia |
        rewrite length_reverse; lia].
Qed.

Definition time_at (db : ForkDb) (id : BlockIdType) : time_point_sec :=
  match full_blocks db !! id with Some b => timestamp (header b) | None => 0 end.

(** The last block of [l] has the number [length l], and so on. *)
Fixpoint counted (db : ForkDb) (l : list BlockIdType) : Prop :=
  match l with
  | [] => True
  | i :: l' => number_at db i = Z.of_nat (List.length l) /\
      (forall p, head l' = Some p -> time_at db p < time_at db i) /\ counted db l'
  end.
Lemma counted_same db db' l : (forall x, x ∈ l -> full_blocks db' !! x = full_blocks db !! x) ->
  counted db l -> counted db' l.
Proof.
  induction l as [| i l IH]; intros E; cbn [counted]; [easy |]. intros (Hn & Ht & Hl). unfold number_at, time_at in *.
  rewrite (E i) by set_solver. split; [exact Hn | split; [| apply IH; [intros; apply E; set_solver | exact Hl]]].
  intros p Hp. rewrite E; [now apply Ht |]. destruct l; [discriminate |]. injection Hp as ->. set_solver.
Qed.

(** The [n]th block of the chain *)
Lemma counted_at db l n i : counted db l -> index_of l !! n = Some i -> number_at db i = n.
Proof.
  revert n. induction l as [| j l IH]; intros n Hc Hi; cbn [index_of] in Hi; [now rewrite lookup_empty in Hi |].
  destruct Hc as (Hn & _ & Hl). apply lookup_insert_Some in Hi as [[<- <-] | [_ Hi]]; auto.
Qed.

Section Index.
Context `{HP : ChainParams} `{HB : BlockParams} `{HH : !BlockHashes} `{HC : Clock} `{HN : NodeParams}
  `{HV : GluaVM Pend}.

Definition index_inv (d : ChainDatabase) : Prop :=
  exists l, branch (db_forks d) (head_block_id d) l /\ counted (db_forks d) l /\ block_num_to_id d = index_of l.

(** The head has the number of blocks of the chain. *)
Lemma head_count d l : head_stored d -> tree (db_forks d) -> branch (db_forks d) (head_block_id d) l ->
  counted (db_forks d) l -> block_num (head_block_header d) = Z.of_nat (List.length l).
Proof.
  intros Hh T Hl Hc. destruct Hh as [[E0 ->] | (H0 & b & Hb & <-)].
  - rewrite E0 in Hl. inversion Hl; subst; [reflexivity | congruence].
  - inversion Hl as [| i b' l' Hb' _ _]; subst; [congruence |]. destruct Hc as [Hn _].
    unfold number_at in Hn. now rewrite Hb in Hn.
Qed.

Lemma popped_index t d d' l : chain_inv d -> branch (db_forks d) (head_block_id d) (head_block_id d :: l) ->
  popped t d d' -> index_inv d -> index_inv d'.
Proof.
  intros Hi Hbr P (l1 & Hl1 & Hc & Ei). rewrite (branch_unique _ _ _ _ Hl1 Hbr) in *.
  pose proof (ok_tree _ (inv_ok _ Hi)) as T.
  assert (is_Some (fork_db (db_forks d) !! head_block_id d)) as Hf.
  { apply (tree_stored _ _ T). eapply branch_stored; [exact Hbr | set_solver]. }
  destruct (mark_included_same _ _ _ _ _ Hf (fun E => False_ind _ (diff_false_true E)) (pop_forks _ _ _ P)) as (Ef & _).
  inversion Hbr as [| id bh l' Hbb Hid Hl]; subst id l'.
  assert (header bh = head_block_header d) as Ehd.
  { destruct (inv_head _ Hi) as [[E0 _] | (_ & b' & Hb' & <-)]; congruence. }
  pose proof (head_count d _ (inv_head _ Hi) T Hbr Hc) as Hn.
  exists l. split; [rewrite (pop_head _ _ _ P), <- Ehd; exact (branch_ext _ _ _ _ Ef Hl) |]. split.
  - apply (counted_same (db_forks d)); [now intros; rewrite Ef | apply Hc].
  - rewrite (pop_numbers _ _ _ P), Ei, Hn. cbn [index_of List.length]. apply delete_insert_id.
    rewrite index_of_lookup. destruct (1 <=? _); [| reflexivity].
    apply lookup_ge_None_2. rewrite length_reverse. lia.
Qed.

Lemma accepted_index b p d d' : chain_inv d -> orderly (db_forks d) -> block_id b <> 0 -> arrived d b ->
  accepted b p d d' -> index_inv d -> index_inv d'.
Proof.
  intros Hi Ho H0 Ha Hacc (l & Hl & Hc & Ei).
  destruct (accepted_inv 0 b p d d' H0 Hi Ha Hacc) as (_ & Hs & _ & Eh).
  destruct Hacc as ((key & Hnext & _) & C & _). destruct Ha as [Hbb _].
  pose proof (ok_tree _ (inv_ok _ Hi)) as T. pose proof (head_count d l (inv_head _ Hi) T Hl Hc) as Hn.
  destruct (Ho _ _ Hbb) as [Hpos _].
  assert (forall hb, full_blocks (db_forks d) !! head_block_id d = Some hb -> block_num (header hb) < block_num (header b)) as Hgrow.
  { intros hb Hhb. apply (proj2 (Ho _ _ Hhb) (block_id b) b Hbb). apply (next_previous _ _ _ Hnext). }
  assert (block_num (header b) = Z.of_nat (List.length l) + 1 /\
          (l <> [] -> timestamp (head_block_header d) < timestamp (header b))) as [Hnum Htime].
  { destruct (Z.le_gt_cases (block_num (header b)) 1) as [Hle | Hgt].
    - destruct (inv_head _ Hi) as [[E0 _] | (_ & hb & Hhb & Ehb)].
      + rewrite E0 in Hl. inversion Hl; subst; [cbn; split; [lia | congruence] | congruence].
      + specialize (Hgrow hb Hhb). destruct (Ho _ _ Hhb). lia.
    - destruct (next_number _ _ _ Hnext Hgt) as [Ew Ht]. split; [| auto]. rewrite Hn in Ew.
      assert (0 <= Z.of_nat (List.length l) < block_num (header b)) as Hlt.
      { split; [lia |]. destruct (inv_head _ Hi) as [[E0 _] | (_ & hb & Hhb & Ehb)].
        - rewrite E0 in Hl. inversion Hl; subst; [cbn; lia | congruence].
        - specialize (Hgrow hb Hhb). rewrite <- Ehb in Hn. lia. }
      rewrite Ew in Hlt |- *. unfold wrap_u32 in *.
      pose proof (Z.mod_le (Z.of_nat (List.length l) + 1) (2 ^ 32)). lia. }
  exists (block_id b :: l). rewrite Eh. split; [| split].
  - eapply branch_block; [rewrite (same_full _ _ Hs); exact Hbb | exact H0 |].
    rewrite (next_previous _ _ _ Hnext). exact (branch_ext _ _ _ _ (same_full _ _ Hs) Hl).
  - cbn [counted]. unfold number_at, time_at. rewrite (same_full _ _ Hs), Hbb.
    split; [cbn [List.length]; lia | split].
    + intros q Hq. assert (q = head_block_id d) as ->.
      { inversion Hl; subst; cbn in Hq; congruence. }
      destruct (inv_head _ Hi) as [[E0 _] | (Hne & hb & Hhb & Ehb)].
      * rewrite E0 in Hl. inversion Hl; subst; [discriminate | congruence].
      * rewrite Hhb, Ehb. apply Htime. intros ->. discriminate.
    + apply (counted_same (db_forks d)); [now intros; rewrite (same_full _ _ Hs) | exact Hc].
  - rewrite (com_numbers _ _ _ _ C), Ei, Hnum. cbn [index_of List.length]. f_equal. lia.
Qed.

Lemma move_index d d' : orderly (db_forks d) -> move d d' -> index_inv d -> index_inv d'.
Proof.
  intros Ho [l u t Hi Hbr Hun Ha P | b p Hi H0 Ha Hacc | Et Eh Ef Eu En] Hx.
  - exact (popped_index t d d' l Hi Hbr P Hx).
  - exact (accepted_index b p d d' Hi Ho H0 Ha Hacc Hx).
  - destruct Hx as (l & Hl & Hc & Ei). exists l. rewrite Eh, En.
    split; [exact (branch_ext _ _ _ _ Ef Hl) | split; [| exact Ei]].
    apply (counted_same (db_forks d)); [now intros; rewrite Ef | exact Hc].
Qed.

Lemma evolves_index c d d' : orderly (db_forks d) -> evolves c d d' -> index_inv d -> index_inv d'.
Proof.
  intros Ho He. pose proof (ev_moves _ _ _ He) as Hm. clear He.
  induction Hm as [d | d d1 d' Hs _ IH]; [easy |]. intros Hx. apply IH.
  - intros id b. rewrite (step_full _ _ _ Hs). apply Ho.
  - exact (move_index _ _ Ho (step_move _ _ _ Hs) Hx).
Qed.
End Index.
