(* ===== verification/Genesis.v ===== *)
(** * The genesis state (blockchain/ChainDatabase.cpp, initialize_genesis)

    What a node puts into an empty database: the delegates, the balances, the
    base asset and the market assets of the genesis file, and the first entry
    of the fork database.  The invariants of the other files hold there. *)

From Stdlib Require Import ZArith Lia Bool String.
From stdpp Require Import base gmap strings list fin_sets.
From S2P Require Import Prelude Asset Entries Names Addresses ChainInterface ChainState AssetEntry.
From S2P Require Import EvalState BalanceOperations ContractOperations Ledger QuietOperations.
From S2P Require Import Refinement Transactions AccountForms Conservation.
From S2P Require Import Blocks ForkDatabase ForkTree ForkStore PendingChainState Undo ChainTables.
From S2P Require Import Delegates ChainDatabase LedgerTables BlockEffects ChainExtension.
From S2P Require Import ForkSwitch PushBlock.

Local Open Scope Z_scope.

(** ** The genesis file *)

Record GenesisAsset := mkGenesisAsset {
  gen_symbol : string;
  gen_name : string;
  gen_description : string;
  gen_precision : Z
}.
Record GenesisDelegate := mkGenesisDelegate {
  gen_delegate_name : string;
  gen_delegate_owner : PublicKeyType
}.
Record GenesisBalance := mkGenesisBalance {
  raw_address : string;
  gen_balance : ShareType
}.
Record GenesisReserveBalances := mkGenesisReserveBalances {
  start_time : time_point_sec;
  duration_days : Z;
  reserve_balances : list GenesisBalance
}.
Record GenesisState := mkGenesisState {
  gen_timestamp : time_point_sec;
  market_assets : list GenesisAsset;
  gen_delegates : list GenesisDelegate;
  initial_balances : list GenesisBalance;
  sharedrop_balances : GenesisReserveBalances
}.

Definition ALP_BLOCKCHAIN_SYMBOL : string := "ACT".
Definition ALP_BLOCKCHAIN_NAME : string := "ACT".
Definition ALP_BLOCKCHAIN_DESCRIPTION : string := "The Future of Banking".

(** A database before genesis. *)
Definition empty_forks : ForkDb := mkForkDb ∅ ∅ ∅.
Definition empty_database (fee : ShareType) : ChainDatabase :=
  mkChainDatabase empty_tables empty_forks 0 empty_header ∅ ∅ 0 ∅ None ∅ ∅ None false fee.

Section Genesis.
Context `{ChainParams} `{HashParams} `{Clock}.
Abbreviation T := (M ChainTables).

(** ** Storing the genesis state *)

Definition genesis_account (timestamp : time_point_sec) (id : AccountIdType) (d : GenesisDelegate)
    : result AccountEntry :=
  let rec := mkAccountEntry id (gen_delegate_name d) VNull (gen_delegate_owner d) ∅ 0 0 None None in
  let! rec := set_active_key timestamp (gen_delegate_owner d) rec in
  let rec := mkAccountEntry (account_id rec) (account_name rec) (account_public_data rec)
    (owner_key rec) (active_key_history rec) timestamp timestamp
    (Some (mkDelegateStats 0 100 ∅ 0 None 0 0 0 0 0)) (meta_data rec) in
  set_signing_key 0 (gen_delegate_owner d) rec.

(** The loop over the delegates; returns the last account id. *)
Fixpoint store_delegates (timestamp : time_point_sec) (account_id : AccountIdType)
    (ds : list GenesisDelegate) : T AccountIdType :=
  match ds with
  | [] => ret account_id
  | d :: ds' =>
      let account_id := wrap_i32 (account_id + 1) in
      rec <- lift_result (genesis_account timestamp account_id d) ;;
      store_account_entry rec ;;;
      store_delegates timestamp account_id ds'
  end.

Definition convert_raw_address (raw : string) : result Address :=
  match address_of_string raw alp_address with
  | Ok a => Ok a
  | Err _ => Err invalid_pts_address
  end.

(** BalanceEntry( owner, balance, slate ) *)
Definition owned_balance (owner : Address) (a : Asset) (slate : SlateIdType) : BalanceEntry :=
  mkBalanceEntry (mkWithdrawCondition (asset_id a) slate withdraw_signature_type
                    (WithdrawWithSignature owner None)) (amount a) None None 0 0 VNull.

(** The loop over the balances; returns the total supply. *)
Fixpoint store_balances (timestamp : time_point_sec) (total : ShareType)
    (bs : list GenesisBalance) : T ShareType :=
  match bs with
  | [] => ret total
  | b :: bs' =>
      addr <- lift_result (convert_raw_address (raw_address b)) ;;
      let initial := owned_balance addr (mkAsset (gen_balance b) 0) 0 in
      s <- get ;;
      let initial := match get_balance_entry s (balance_id initial) with
                     | Some cur => set_balance (wrap_i64 (balance initial + balance cur)) initial
                     | None => initial
                     end in
      store_balance_entry
        (mkBalanceEntry (condition initial) (balance initial) (restricted_owner initial)
           (Some (mkSnapshotEntry (raw_address b) (gen_balance b))) (deposit_date initial)
           timestamp (balance_meta_data initial)) ;;;
      store_balances timestamp (wrap_i64 (total + gen_balance b)) bs'
  end.

Definition genesis_base_asset (timestamp : time_point_sec) (supply : ShareType) : AssetEntry :=
  mkAssetEntry 0 ALP_BLOCKCHAIN_SYMBOL ALP_BLOCKCHAIN_NAME ALP_BLOCKCHAIN_DESCRIPTION (VString "")
    0 ALP_BLOCKCHAIN_PRECISION timestamp timestamp ALP_BLOCKCHAIN_MAX_SHARES supply 0 0 0 0 0
    (mkMultisigMetaInfo 0 ∅).
Definition market_asset (timestamp : time_point_sec) (id : AssetIdType) (a : GenesisAsset)
    : AssetEntry :=
  mkAssetEntry id (gen_symbol a) (gen_name a) (gen_description a) (VString "") market_issuer_id
    (gen_precision a) timestamp timestamp ALP_BLOCKCHAIN_MAX_SHARES 0 0 0 UINT32_MAX 0 0
    (mkMultisigMetaInfo 0 ∅).
Fixpoint store_market_assets (timestamp : time_point_sec) (asset_id : AssetIdType)
    (assets : list GenesisAsset) : T AssetIdType :=
  match assets with
  | [] => ret asset_id
  | a :: assets' =>
      let asset_id := wrap_i32 (asset_id + 1) in
      store_asset_entry (market_asset timestamp asset_id a) ;;;
      store_market_assets timestamp asset_id assets'
  end.

Definition on_tables {A} (m : T A) : M ChainDatabase A :=
  fun d => let (r, t) := m (db_tables d) in (r, set_tables t d).

(** initialize_genesis of the state of a file whose hash is [id] *)
Definition initialize_genesis (config : GenesisState) (id : DigestType) (statistics : bool)
    : M ChainDatabase DigestType :=
  on_tables (set_chain_id id) ;;;
  fc_assert (ALP_BLOCKCHAIN_NUM_DELEGATES <=? Z.of_nat (List.length (gen_delegates config))) ;;;
  let timestamp := gen_timestamp config in
  last_account <- on_tables (store_delegates timestamp 0 (gen_delegates config)) ;;
  supply <- on_tables (store_balances timestamp 0 (initial_balances config)) ;;
  on_tables (store_asset_entry (genesis_base_asset timestamp supply)) ;;;
  last_asset <- on_tables (store_market_assets timestamp 0 (market_assets config)) ;;
  on_forks (fork_store 0 genesis_fork) ;;;
  on_tables (store_property_entry last_asset_id (VInt64 last_asset)) ;;;
  on_tables (store_property_entry last_account_id (VInt64 last_account)) ;;;
  on_tables (t <- get ;; set_active_delegates (next_round_active_delegates t)) ;;;
  on_tables (set_statistics_enabled statistics) ;;;
  on_tables (set_node_vm_enabled false) ;;;
  ret id.
End Genesis.

(** ** What is stored *)

Section Loading.
Context `{HP : ChainParams} `{HS : HashParams} `{HC : Clock}.

Definition shares_held (a : AssetIdType) (t : ChainTables) : Z :=
  sum_over (fun id => shares_of a (get_balance_entry t id)) (balance_ids t).

(** Accounts 1 to [last] without pay, and base asset balances of [total] in all. *)
Record loaded (total last : Z) (t : ChainTables) : Prop := {
  load_ids : own_ids t;
  load_wf : accounts_wf t;
  load_accounts id : get_account_entry t id <> None -> id <= last;
  load_pay id x : get_account_entry t id = Some x -> pay_of x = 0;
  load_balances id b : get_balance_entry t id = Some b ->
    0 <= balance b /\ cond_asset_id (condition b) = 0;
  load_total a : shares_held a t = if a =? 0 then total else 0
}.
Definition no_assets (t : ChainTables) : Prop := forall id, get_asset_entry t id = None.
Record supplied (total : Z) (t : ChainTables) : Prop := {
  base_supplied : exists x, get_asset_entry t 0 = Some x /\ collected_fees x = 0 /\
    current_share_supply x = total;
  others_supplied id x : id <> 0 -> get_asset_entry t id = Some x ->
    collected_fees x = 0 /\ current_share_supply x = 0
}.

Lemma empty_loaded : loaded 0 0 empty_tables /\ no_assets empty_tables.
Proof.
  assert (forall k id, tables empty_tables k !! id = None) as E by (intros k id; apply lookup_empty).
  assert (forall id, get_account_entry empty_tables id = None) as Ea by apply (E KAccount).
  assert (forall id, get_balance_entry empty_tables id = None) as Eb by apply (E KBalance).
  assert (forall id, get_asset_entry empty_tables id = None) as Es by apply (E KAsset).
  split; [| exact Es]. split.
  - split; intros id x; rewrite ?Ea, ?Eb, ?Es; easy.
  - intros id x. now rewrite Ea.
  - intros id. now rewrite Ea.
  - intros id x. now rewrite Ea.
  - intros id x. now rewrite Eb.
  - intros a. unfold shares_held.
    rewrite (sum_over_support _ _ ∅) by (intros k; now rewrite Eb).
    rewrite sum_over_empty. now destruct (a =? 0).
Qed.

Lemma loaded_same total last t t' :
  (forall id, get_balance_entry t' id = get_balance_entry t id) ->
  (forall id, get_account_entry t' id = get_account_entry t id) ->
  own_ids t' -> loaded total last t -> loaded total last t'.
Proof.
  intros Eb Ea Ho [H1 H2 H3 H4 H5 H6]. split; auto.
  - intros id x. rewrite Ea. apply H2.
  - intros id. rewrite Ea. apply H3.
  - intros id x. rewrite Ea. apply H4.
  - intros id x. rewrite Eb. apply H5.
  - intros a. unfold shares_held. rewrite (balances_same a t t' Eb). apply H6.
Qed.
Lemma no_assets_same t t' : (forall id, get_asset_entry t' id = get_asset_entry t id) ->
  no_assets t -> no_assets t'.
Proof. intros E Hn id. now rewrite E. Qed.
Lemma supplied_same total t t' : (forall id, get_asset_entry t' id = get_asset_entry t id) ->
  supplied total t -> supplied total t'.
Proof.
  intros E [(x & Hx & H1) H2]. split; [exists x; now rewrite E |].
  intros id y Hid. rewrite E. exact (H2 id y Hid).
Qed.

(** *** Each store succeeds *)

Lemma store_account_run a t : account_wf a -> accounts_wf t ->
  exists t', store_account_entry a t = (Ok tt, t') /\ put_account a t t'.
Proof.
  intros Ha Ht. destruct (entry_store_total KAccount (account_id a) a t Ha) as [t' R].
  { intros prev E. exact (Ht _ _ E). }
  exists t'. split; [exact R | exact (store_account_Ok _ _ _ _ R)].
Qed.
Lemma store_balance_run b t : exists t', store_balance_entry b t = (Ok tt, t') /\ put_balance b t t'.
Proof.
  destruct (entry_store_total KBalance (balance_id b) b t I) as [t' R]; [now intros |].
  exists t'. split; [exact R | exact (store_balance_Ok _ _ _ _ R)].
Qed.
Lemma store_asset_run x t : exists t', store_asset_entry x t = (Ok tt, t') /\ put_asset x t t'.
Proof.
  destruct (entry_store_total KAsset (ast_id x) x t I) as [t' R]; [now intros |].
  exists t'. split; [exact R | exact (store_asset_Ok _ _ _ _ R)].
Qed.

(** Another property is stored. *)
Record put_property (id : PropertyIdType) (v : variant) (t t' : ChainTables) : Prop := {
  put_property_balances i : get_balance_entry t' i = get_balance_entry t i;
  put_property_accounts i : get_account_entry t' i = get_account_entry t i;
  put_property_assets i : get_asset_entry t' i = get_asset_entry t i;
  put_property_it : get_property_entry t' id = Some (mkPropertyEntry id v);
  put_property_others i : i <> id -> get_property_entry t' i = get_property_entry t i
}.
Lemma store_property_run id v t :
  exists t', store_property_entry id v t = (Ok tt, t') /\ put_property id v t t'.
Proof.
  destruct (entry_store_total KProperty id (mkPropertyEntry id v) t I) as [t' R]; [now intros |].
  exists t'. split; [exact R |].
  apply (entry_store_writing KProperty) in R as [Hs Hk Hw]; [| reflexivity].
  split; intros.
  - now apply (Hw KBalance).
  - now apply (Hw KAccount).
  - now apply (Hw KAsset).
  - now apply Hs.
  - now apply Hk.
Qed.
Lemma own_ids_property id v t t' : put_property id v t t' -> own_ids t -> own_ids t'.
Proof.
  intros [Eb Ea Es _ _] [O1 O2 O3 O4]. split; intros i x; rewrite ?Eb, ?Ea, ?Es; eauto.
Qed.
Lemma loaded_property total last id v t t' : put_property id v t t' ->
  loaded total last t -> loaded total last t'.
Proof.
  intros P L. apply (loaded_same total last t); [apply P | apply P | | exact L].
  exact (own_ids_property _ _ _ _ P (load_ids _ _ _ L)).
Qed.

(** *** The loops *)

Lemma genesis_account_run timestamp id d : timestamp <> 0 ->
  exists rec, genesis_account timestamp id d = Ok rec /\ account_wf rec /\ account_id rec = id /\
    pay_of rec = 0.
Proof.
  intros Ht. unfold genesis_account, set_active_key. apply Z.eqb_neq in Ht. rewrite Ht.
  eexists. split; [reflexivity |]. split; [| split; reflexivity].
  split; cbn; [apply insert_non_empty |]. intros d' [= <-]. apply insert_non_empty.
Qed.

Lemma wrap_next n : 0 <= n -> n + 1 < 2 ^ 31 -> wrap_i32 (n + 1) = n + 1.
Proof. intros. unfold wrap_i32. rewrite Z.mod_small; lia. Qed.

Lemma store_delegates_run timestamp ds : forall total last t, timestamp <> 0 -> 0 <= last ->
  last + Z.of_nat (List.length ds) < 2 ^ 31 -> loaded total last t -> no_assets t ->
  exists t', store_delegates timestamp last ds t = (Ok (last + Z.of_nat (List.length ds)), t') /\
    loaded total (last + Z.of_nat (List.length ds)) t' /\ no_assets t'.
Proof.
  induction ds as [| d ds IH]; intros total last t Ht Hlast Hroom L Hn; cbn [List.length store_delegates].
  { exists t. rewrite Z.add_0_r. auto. }
  rewrite wrap_next by (cbn [List.length] in Hroom; lia).
  destruct (genesis_account_run timestamp (last + 1) d Ht) as (rec & E & Hw & Hid & Hpay).
  rewrite E. unfold lift_result at 1, bind at 1.
  destruct (store_account_run rec t Hw (load_wf _ _ _ L)) as (t1 & R1 & P).
  rewrite (bind_run_Ok _ _ _ _ _ R1).
  destruct (IH total (last + 1) t1 Ht) as (t' & R2 & L2 & Hn2); [lia | cbn [List.length] in Hroom; lia | | |].
  - destruct L as [H1 H2 H3 H4 H5 H6]. split.
    + exact (own_ids_account _ _ _ P H1).
    + exact (put_account_wf _ _ _ P Hw H2).
    + intros id. rewrite (put_account_accounts _ _ _ P), Hid.
      destruct (Z.eqb_spec id (last + 1)); [lia |]. intros Hi. specialize (H3 _ Hi). lia.
    + intros id x. rewrite (put_account_accounts _ _ _ P).
      destruct (id =? account_id rec); [intros [= <-]; exact Hpay | apply H4].
    + intros id x. rewrite (put_account_balances _ _ _ P). apply H5.
    + intros a. unfold shares_held. rewrite (balances_same a t t1) by apply P. apply H6.
  - exact (no_assets_same _ _ (put_account_assets _ _ _ P) Hn).
  - exists t'. rewrite R2. replace (last + Z.of_nat (S (List.length ds))) with
      (last + 1 + Z.of_nat (List.length ds)) by lia. auto.
Qed.

Lemma sum_over_nonneg f (X : gset Z) : (forall k, 0 <= f k) -> 0 <= sum_over f X.
Proof.
  intros Hf. induction X as [| k X Hk IH] using set_ind_L; [now rewrite sum_over_empty |].
  rewrite sum_over_insert by exact Hk. specialize (Hf k). lia.
Qed.

(** No balance has more than there is. *)
Lemma loaded_at_most total last t id b : loaded total last t -> get_balance_entry t id = Some b ->
  balance b <= total.
Proof.
  intros L E. pose proof (load_total _ _ _ L 0) as Ht. unfold shares_held in Ht.
  change (0 =? 0) with true in Ht. cbv iota in Ht.
  assert (forall k, 0 <= shares_of 0 (get_balance_entry t k)) as Hnn.
  { intros k. unfold shares_of. destruct (get_balance_entry t k) as [c |] eqn:Ec; [| lia].
    destruct (load_balances _ _ _ L _ _ Ec) as [Hc ->]. exact Hc. }
  rewrite (sum_over_split _ id) in Ht by (apply balance_ids_spec; congruence).
  pose proof (sum_over_nonneg _ (balance_ids t ∖ {[id]}) Hnn).
  rewrite E in Ht. unfold shares_of at 1 in Ht.
  rewrite (proj2 (load_balances _ _ _ L _ _ E)) in Ht. change (0 =? 0) with true in Ht. cbv iota in Ht. lia.
Qed.

Definition sum_of (bs : list GenesisBalance) : Z := zsum (map gen_balance bs).
Definition readable (b : GenesisBalance) : Prop :=
  exists addr, address_of_string (raw_address b) alp_address = Ok addr.

(** A balance that takes the place of the one under its id. *)
Lemma loaded_balance total last t t1 b amount : put_balance b t t1 -> loaded total last t ->
  0 <= amount -> depositable (condition b) = true -> cond_asset_id (condition b) = 0 ->
  balance b = amount + shares_of 0 (get_balance_entry t (balance_id b)) ->
  loaded (total + amount) last t1.
Proof.
  intros P L Hn Hd Ha Hb.
  pose proof P as [Eb Ea Es _]. destruct L as [H1 H2 H3 H4 H5 H6].
  assert (forall a, shares_of a (get_balance_entry t (balance_id b)) =
            if a =? 0 then shares_of 0 (get_balance_entry t (balance_id b)) else 0) as Hcur.
  { intros a. unfold shares_of. destruct (get_balance_entry t (balance_id b)) as [c |] eqn:E;
      [| now destruct (a =? 0)].
    rewrite (proj2 (H5 _ _ E)), (Z.eqb_sym 0 a). destruct (Z.eqb_spec a 0) as [-> |]; reflexivity. }
  split.
  - exact (own_ids_balance _ _ _ P Hd H1).
  - intros id x. rewrite Ea. apply H2.
  - intros id. rewrite Ea. apply H3.
  - intros id x. rewrite Ea. apply H4.
  - intros id x. rewrite Eb. destruct (id =? balance_id b); [| apply H5].
    intros [= <-]. split; [| exact Ha]. rewrite Hb. unfold shares_of.
    destruct (get_balance_entry t (balance_id b)) as [c |] eqn:E; [| lia].
    destruct (H5 _ _ E) as [Hc ->]. cbn. lia.
  - intros a. unfold shares_held. rewrite (balances_put a t t1 (balance_id b) (Some b) Eb), Hcur.
    fold (shares_held a t). rewrite H6. unfold shares_of at 1. rewrite Ha, Hb, (Z.eqb_sym 0 a).
    destruct (a =? 0); lia.
Qed.

Lemma store_balances_run timestamp last bs : forall total t, 0 <= total ->
  Forall (fun b => 0 <= gen_balance b) bs -> Forall readable bs -> total + sum_of bs <= INT64_MAX ->
  loaded total last t -> no_assets t ->
  exists t', store_balances timestamp total bs t = (Ok (total + sum_of bs), t') /\
    loaded (total + sum_of bs) last t' /\ no_assets t'.
Proof.
  unfold sum_of. induction bs as [| b bs IH]; intros total t Htot Hnn Hread Hmax L Hn.
  { exists t. cbn. rewrite Z.add_0_r. auto. }
  cbn [store_balances map zsum foldr] in *.
  apply Forall_cons in Hnn as [Hb Hnn], Hread as [[addr Haddr] Hread].
  assert (0 <= zsum (map gen_balance bs)) as Hrest.
  { clear -Hnn. induction Hnn; unfold zsum in *; cbn [map foldr] in *; lia. }
  fold (zsum (map gen_balance bs)) in *.
  unfold convert_raw_address. rewrite Haddr. unfold lift_result at 1, bind at 1, bind at 1, get.
  set (initial := owned_balance addr _ 0).
  set (held := match get_balance_entry t (balance_id initial) with Some _ => _ | None => _ end).
  set (b' := mkBalanceEntry (condition held) _ _ _ _ _ _).
  assert (condition held = condition initial) as Hc by (unfold held; now destruct (get_balance_entry _ _)).
  assert (balance b' = gen_balance b + shares_of 0 (get_balance_entry t (balance_id b'))) as Hbal.
  { change (balance_id b') with (condition_address (condition held)). rewrite Hc.
    change (condition_address (condition initial)) with (balance_id initial). cbn [balance b']. unfold held.
    destruct (get_balance_entry t (balance_id initial)) as [c |] eqn:E; [| cbn; lia].
    pose proof (loaded_at_most _ _ _ _ _ L E). destruct (load_balances _ _ _ L _ _ E) as [Hc0 Hc1].
    unfold shares_of. rewrite Hc1. change (0 =? 0) with true. cbv iota.
    apply wrap_i64_small. unfold in_i64, INT64_MIN. cbn [balance initial owned_balance amount]. lia. }
  destruct (store_balance_run b' t) as (t1 & R1 & P). rewrite (bind_run_Ok _ _ _ _ _ R1).
  rewrite wrap_i64_small by (unfold in_i64, INT64_MIN; lia).
  destruct (IH (total + gen_balance b) t1) as (t' & R2 & L2 & Hn2); try assumption; try lia.
  - apply (loaded_balance total last t t1 b' _ P L Hb); [| | exact Hbal]; cbn [condition b']; now rewrite Hc.
  - exact (no_assets_same _ _ (put_balance_assets _ _ _ P) Hn).
  - exists t'. rewrite R2, !Z.add_assoc in *. auto.
Qed.

Lemma loaded_asset total last x t t' : put_asset x t t' -> loaded total last t -> loaded total last t'.
Proof.
  intros P L. apply (loaded_same total last t); [apply P | apply P | | exact L].
  exact (own_ids_asset _ _ _ P (load_ids _ _ _ L)).
Qed.

Lemma store_market_assets_run timestamp total last assets : forall n t, 0 <= n ->
  n + Z.of_nat (List.length assets) < 2 ^ 31 -> loaded total last t -> supplied total t ->
  exists t', store_market_assets timestamp n assets t =
      (Ok (n + Z.of_nat (List.length assets)), t') /\ loaded total last t' /\ supplied total t'.
Proof.
  induction assets as [| x assets IH]; intros n t Hn Hroom L Hs; cbn [List.length store_market_assets] in *.
  { exists t. rewrite Z.add_0_r. auto. }
  rewrite wrap_next by lia.
  destruct (store_asset_run (market_asset timestamp (n + 1) x) t) as (t1 & R1 & P).
  rewrite (bind_run_Ok _ _ _ _ _ R1).
  destruct (IH (n + 1) t1) as (t' & R2 & L2 & S2); [lia | lia | exact (loaded_asset _ _ _ _ _ P L) | |].
  - destruct Hs as [(b & Hb & Hb') Ho]. pose proof (put_asset_assets _ _ _ P) as Es. cbn [ast_id market_asset] in Es.
    split.
    + exists b. rewrite Es. destruct (Z.eqb_spec 0 (n + 1)); [lia | auto].
    + intros id y Hid. rewrite Es. destruct (id =? n + 1); [intros [= <-]; split; reflexivity | eauto].
  - exists t'. rewrite R2. replace (n + Z.of_nat (S (List.length assets))) with
      (n + 1 + Z.of_nat (List.length assets)) by lia. auto.
Qed.
End Loading.

(** ** The genesis state *)

Section GenesisState.
Context `{HP : ChainParams} `{HS : HashParams} `{HB : BlockParams} `{HH : !BlockHashes} `{HC : Clock}
  `{HN : NodeParams} `{HV : GluaVM Pend}.

(** A file the chain can start from, with room for [n] more accounts. *)
Record good_genesis (n : nat) (config : GenesisState) : Prop := {
  good_time : gen_timestamp config <> 0;
  good_delegates : ALP_BLOCKCHAIN_NUM_DELEGATES <= Z.of_nat (List.length (gen_delegates config));
  good_room : Z.of_nat (List.length (gen_delegates config)) + Z.of_nat n < 2 ^ 31;
  good_assets : Z.of_nat (List.length (market_assets config)) < 2 ^ 31;
  good_balances : Forall (fun b => 0 <= gen_balance b) (initial_balances config);
  good_addresses : Forall readable (initial_balances config);
  good_supply : sum_of (initial_balances config) <= INT64_MAX
}.

Lemma on_tables_run {A B} (m : M ChainTables A) (k : A -> M ChainDatabase B) d a t :
  m (db_tables d) = (Ok a, t) -> bind (on_tables m) k d = k a (set_tables t d).
Proof. intros R. unfold bind, on_tables. now rewrite R. Qed.

(** The tables of genesis: the entries and what the counters say. *)
Record genesis_tables (config : GenesisState) (t : ChainTables) : Prop := {
  gt_loaded : loaded (sum_of (initial_balances config))
    (Z.of_nat (List.length (gen_delegates config))) t;
  gt_supplied : supplied (sum_of (initial_balances config)) t;
  gt_last : last_account_id_of t = Ok (Z.of_nat (List.length (gen_delegates config)))
}.
Lemma genesis_tables_property config id v t t' : put_property id v t t' -> id <> last_account_id ->
  genesis_tables config t -> genesis_tables config t'.
Proof.
  intros P Hid [L S E]. split.
  - exact (loaded_property _ _ _ _ _ _ P L).
  - exact (supplied_same _ _ _ (put_property_assets _ _ _ _ P) S).
  - unfold last_account_id_of, property_or in *.
    now rewrite (put_property_others _ _ _ _ P) by congruence.
Qed.

(** What the loops leave is recorded in the properties. *)
Lemma genesis_properties config t statistics asset :
  loaded (sum_of (initial_balances config)) (Z.of_nat (List.length (gen_delegates config))) t ->
  supplied (sum_of (initial_balances config)) t ->
  exists t1 t2 t3 t4 t5,
    store_property_entry last_asset_id (VInt64 asset) t = (Ok tt, t1) /\
    store_property_entry last_account_id
      (VInt64 (Z.of_nat (List.length (gen_delegates config)))) t1 = (Ok tt, t2) /\
    set_active_delegates (next_round_active_delegates t2) t2 = (Ok tt, t3) /\
    set_statistics_enabled statistics t3 = (Ok tt, t4) /\
    set_node_vm_enabled false t4 = (Ok tt, t5) /\ genesis_tables config t5.
Proof.
  intros L S.
  destruct (store_property_run last_asset_id (VInt64 asset) t) as (t1 & R1 & P1).
  destruct (store_property_run last_account_id
    (VInt64 (Z.of_nat (List.length (gen_delegates config)))) t1) as (t2 & R2 & P2).
  destruct (store_property_run active_delegate_list_id (VIds (next_round_active_delegates t2)) t2)
    as (t3 & R3 & P3).
  destruct (store_property_run statistics_enabled (VBool statistics) t3) as (t4 & R4 & P4).
  destruct (store_property_run node_vm_enabled (VBool false) t4) as (t5 & R5 & P5).
  exists t1, t2, t3, t4, t5. do 5 (split; [assumption |]).
  apply (genesis_tables_property config _ _ _ _ P5); [discriminate |].
  apply (genesis_tables_property config _ _ _ _ P4); [discriminate |].
  apply (genesis_tables_property config _ _ _ _ P3); [discriminate |]. split.
  - exact (loaded_property _ _ _ _ _ _ P2 (loaded_property _ _ _ _ _ _ P1 L)).
  - apply (supplied_same _ t1); [apply P2 |]. apply (supplied_same _ t); [apply P1 | exact S].
  - unfold last_account_id_of, property_or. now rewrite (put_property_it _ _ _ _ P2).
Qed.

Lemma initialize_genesis_run n config id statistics fee : good_genesis n config ->
  exists t, genesis_tables config t /\
    initialize_genesis config id statistics (empty_database fee) =
      (Ok id, set_forks genesis_forks (set_tables t (empty_database fee))).
Proof.
  intros G. destruct empty_loaded as [L0 N0].
  destruct (store_property_run chain_id (VHash id) empty_tables) as (t1 & R1 & P1).
  destruct (store_delegates_run (gen_timestamp config) (gen_delegates config) 0 0 t1)
    as (t2 & R2 & L2 & N2); [apply G | lia | destruct G; lia | | |].
  { exact (loaded_property _ _ _ _ _ _ P1 L0). }
  { exact (no_assets_same _ _ (put_property_assets _ _ _ _ P1) N0). }
  destruct (store_balances_run (gen_timestamp config) (0 + Z.of_nat (List.length (gen_delegates config)))
    (initial_balances config) 0 t2) as (t3 & R3 & L3 & N3); try assumption; try apply G; [lia |].
  destruct (store_asset_run (genesis_base_asset (gen_timestamp config) (0 + sum_of (initial_balances config))) t3)
    as (t4 & R4 & P4).
  assert (supplied (0 + sum_of (initial_balances config)) t4) as S4.
  { pose proof (put_asset_assets _ _ _ P4) as Es. cbn [ast_id genesis_base_asset] in Es. split.
    - eexists. rewrite Es. split; [reflexivity | split; reflexivity].
    - intros i x Hi. rewrite Es. apply Z.eqb_neq in Hi. rewrite Hi, N3. discriminate. }
  pose proof (loaded_asset _ _ _ _ _ P4 L3) as L4.
  destruct (store_market_assets_run (gen_timestamp config) _ _ (market_assets config) 0 t4
    (Z.le_refl 0) ltac:(destruct G; lia) L4 S4) as (t5 & R5 & L5 & S5).
  rewrite !Z.add_0_l in *.
  destruct (genesis_properties config t5 statistics (Z.of_nat (List.length (market_assets config))) L5 S5)
    as (t6 & t7 & t8 & t9 & t10 & R6 & R7 & R8 & R9 & R10 & Hg).
  exists t10. split; [exact Hg |]. unfold initialize_genesis.
  rewrite (on_tables_run (set_chain_id id) _ (empty_database fee) tt t1) by exact R1.
  rewrite (bind_run_Ok (fc_assert _) _ _ tt (set_tables t1 (empty_database fee)))
    by (unfold fc_assert; now rewrite (proj2 (Z.leb_le _ _) (good_delegates n config G))).
  cbv zeta.
  rewrite (on_tables_run _ _ (set_tables t1 (empty_database fee)) _ _ R2).
  rewrite (on_tables_run _ _ (set_tables t2 (empty_database fee)) _ _ R3).
  rewrite (on_tables_run _ _ (set_tables t3 (empty_database fee)) _ _ R4).
  rewrite (on_tables_run _ _ (set_tables t4 (empty_database fee)) _ _ R5).
  set (d t := set_forks genesis_forks (set_tables t (empty_database fee))).
  rewrite (bind_run_Ok (on_forks _) _ _ tt (d t5)) by reflexivity.
  rewrite (on_tables_run _ _ (d t5) _ _ R6). change (set_tables t6 (d t5)) with (d t6).
  rewrite (on_tables_run _ _ (d t6) _ _ R7). change (set_tables t7 (d t6)) with (d t7).
  rewrite (on_tables_run _ _ (d t7) tt t8) by exact R8. change (set_tables t8 (d t7)) with (d t8).
  rewrite (on_tables_run _ _ (d t8) _ _ R9). change (set_tables t9 (d t8)) with (d t9).
  rewrite (on_tables_run _ _ (d t9) _ _ R10). reflexivity.
Qed.

Lemma genesis_sound n config t : good_genesis n config -> genesis_tables config t -> sound_state n t.
Proof.
  intros G [L S E]. split; cbn [current_state evaluation_of ev].
  - exact (load_ids _ _ _ L).
  - intros id x Hx. destruct (decide (id = 0)) as [-> | Hid].
    + destruct (base_supplied _ _ S) as (y & Hy & _ & Hc). assert (y = x) as <- by congruence.
      rewrite Hc. destruct G as [_ _ _ _ Hnn _ Hm]. clear -Hnn Hm.
      assert (0 <= sum_of (initial_balances config)).
      { unfold sum_of. clear Hm. induction Hnn; unfold zsum in *; cbn [map foldr] in *; lia. }
      unfold in_i64, INT64_MIN. lia.
    + destruct (others_supplied _ _ S _ _ Hid Hx) as [_ ->]. apply zero_in_i64.
  - intros i. apply zero_in_i64.
  - eexists. split; [exact E |]. destruct G. split; [lia | split; [lia |]]. apply L.
Qed.

Lemma genesis_surplus config t a : genesis_tables config t -> surplus t a = 0.
Proof.
  intros [L S _]. unfold surplus. fold (shares_held a t). rewrite (load_total _ _ _ L).
  rewrite (sum_over_support _ (account_ids t) ∅), sum_over_empty.
  - destruct (Z.eqb_spec a 0) as [-> | Ha].
    + destruct (base_supplied _ _ S) as (x & -> & Hf & Hs). cbn. lia.
    + destruct (get_asset_entry t a) as [x |] eqn:Ex; [| reflexivity].
      destruct (others_supplied _ _ S _ _ Ha Ex). cbn. lia.
  - intros k Hk. exfalso. apply Hk. unfold pay_in. destruct (get_account_entry t k) as [x |] eqn:Ex; [| reflexivity].
    rewrite (load_pay _ _ _ L _ _ Ex). now destruct (a =? 0).
Qed.

Lemma genesis_chain_inv t fee : accounts_wf t ->
  chain_inv (set_forks genesis_forks (set_tables t (empty_database fee))).
Proof.
  intros Hw. split.
  - split; [exact genesis_tree | exact Hw].
  - left. now split.
  - exists []. split; [constructor |]. intros x. unfold look. cbn.
    destruct (decide (x = 0)) as [-> | Hx].
    + rewrite lookup_singleton_eq. cbn. tauto.
    + rewrite lookup_singleton_ne by congruence. cbn. set_solver.
  - intros i u Hu. cbn in Hu. now rewrite lookup_empty in Hu.
Qed.

Lemma genesis_loads n config id statistics fee : good_genesis n config ->
  exists d, initialize_genesis config id statistics (empty_database fee) = (Ok id, d) /\
    (chain_inv d /\ undo_above 0 d /\ head_highest d /\ sound_state n (db_tables d) /\
     (forall a, surplus (db_tables d) a = 0) /\
     shares_held 0 (db_tables d) = sum_of (initial_balances config)) /\
    head_block_id d = 0 /\ future_blocks d = ∅ /\ block_num_to_id d = ∅.
Proof.
  intros G. destruct (initialize_genesis_run n config id statistics fee G) as (t & Hg & R).
  eexists. split; [exact R |]. split; [| now split]. split; [exact (genesis_chain_inv t fee (load_wf _ _ _ (gt_loaded _ _ Hg))) |].
  split; [split; cbn; [lia | intros x b E; now rewrite lookup_empty in E | intros i j E; now rewrite lookup_empty in E] |].
  split; [intros x bx Hb; cbn in Hb; now rewrite lookup_empty in Hb |].
  split; [exact (genesis_sound n config t G Hg) |].
  split; [intros a; exact (genesis_surplus config t a Hg) |].
  exact (load_total _ _ _ (gt_loaded _ _ Hg) 0).
Qed.

(** C17: A chain starts.  A good genesis file is loaded without error; the
    database then satisfies the invariants of chain and block tree, its ledger
    is sound, the shares held of every asset are the shares issued, and those
    of the base asset are the sum of the balances of the file. *)
Theorem genesis_establishes n config id statistics fee : good_genesis n config ->
  exists d, initialize_genesis config id statistics (empty_database fee) = (Ok id, d) /\
    chain_inv d /\ undo_above 0 d /\ head_highest d /\
    sound_state n (db_tables d) /\ (forall a, surplus (db_tables d) a = 0) /\
    shares_held 0 (db_tables d) = sum_of (initial_balances config).
Proof.
  intros G. destruct (genesis_loads n config id statistics fee G) as (d & R & Hd & _). exists d. now split.
Qed.
End GenesisState.
