(* ===== verification/Reached.v ===== *)
(** * The databases a node reaches

    From the genesis state, block after block, each acceptable when it comes
    ([pushable] and [payable]): chain and tree agree, the head is a highest
    block, and the shares held are the shares issued. *)

From Stdlib Require Import ZArith Lia Bool String.
From stdpp Require Import base gmap strings list fin_sets relations.
From S2P Require Import Prelude Asset Entries Names Addresses ChainInterface ChainState AssetEntry.
From S2P Require Import EvalState ContractOperations Ledger AccountForms Conservation.
From S2P Require Import Blocks ForkDatabase ForkTree ForkStore ForkMarks.
From S2P Require Import PendingChainState Undo ChainTables Delegates DelegateLists.
From S2P Require Import ChainDatabase LedgerTables BlockLaws BlockEffects ChainExtension ForkSwitch.
From S2P Require Import PushBlock ChainLedger ChainIndex Genesis.

Local Open Scope Z_scope.

Section Reached.
Context `{HP : ChainParams} `{HS : HashParams} `{HB : BlockParams} `{HH : !BlockHashes} `{HC : Clock}
  `{HN : NodeParams} `{HV : GluaVM Pend}.
Variable room : nat.

(** A block that may come, and whose payments settle. *)
Definition acceptable (floor : Z) (c : BlockIdType) (d : ChainDatabase) (b : FullBlock) : Prop :=
  pushable floor c d b /\ payable room (with_block b (db_forks d)).

(** The databases of a process that has not ended.  The anchor moves up the
    chain, as the blocks whose undo states are dropped do. *)
Inductive reached (config : GenesisState) : Z -> ChainDatabase -> Prop :=
  | reached_genesis id statistics fee d :
      initialize_genesis config id statistics (empty_database fee) = (Ok id, d) -> reached config 0 d
  | reached_push floor floor' c d b fd d' : reached config floor d -> floor <= floor' ->
      acceptable floor' c d b -> push_block b d = (Ok fd, d') -> reached config floor' d'.

(** What holds of all of them. *)
Record agrees (floor : Z) (d : ChainDatabase) : Prop := {
  agrees_chain : chain_inv d;
  agrees_undo : undo_above floor d;
  agrees_highest : head_highest d;
  agrees_ledger : ledger_inv room floor d;
  agrees_index : index_inv d
}.

Lemma agrees_raise floor floor' d : floor <= floor' -> agrees floor d -> agrees floor' d.
Proof.
  intros Hf [Hi Hu Hh (l & Hl & Hb) Hx]. split; auto; [exact (undo_above_raise _ _ _ Hf Hu) |].
  exists l. split; [exact Hl | exact (backed_raise _ _ _ _ _ _ _ Hf Hb)].
Qed.

Lemma ledger_stored floor b db d : full_blocks (db_forks d) !! block_id b = None ->
  full_blocks db = <[block_id b := b]> (full_blocks (db_forks d)) -> orderly (db_forks d) ->
  ledger_inv room floor d -> ledger_inv room floor (set_forks db d).
Proof.
  intros Hnew E Ho (l & Hl & Hb).
  assert (forall x bx, full_blocks (db_forks d) !! x = Some bx -> full_blocks db !! x = Some bx) as Hsub
    by (intros x bx Hx; rewrite E, lookup_insert_ne; [exact Hx | congruence]).
  exists l. split; [exact (branch_grows _ _ _ _ Hsub Hl) |].
  refine (backed_grows room floor (db_forks d) _ (block_id_to_undo_state d) _ _ _ _ _ Ho _ Hl Hb); [| auto].
  intros x Hx. destruct (branch_stored _ _ _ _ Hl Hx) as [_ [bx Hbx]]. rewrite Hbx. auto.
Qed.

Lemma index_stored b db d : full_blocks (db_forks d) !! block_id b = None ->
  full_blocks db = <[block_id b := b]> (full_blocks (db_forks d)) -> index_inv d -> index_inv (set_forks db d).
Proof.
  intros Hnew E (l & Hl & Hc & Ei).
  assert (forall x bx, full_blocks (db_forks d) !! x = Some bx -> full_blocks db !! x = Some bx) as Hsub
    by (intros x bx Hx; rewrite E, lookup_insert_ne; [exact Hx | congruence]).
  exists l. split; [exact (branch_grows _ _ _ _ Hsub Hl) |]. split; [| exact Ei].
  apply (counted_same (db_forks d)); [| exact Hc]. intros x Hx.
  destruct (branch_stored _ _ _ _ Hl Hx) as [_ [bx Hbx]]. rewrite Hbx. exact (Hsub _ _ Hbx).
Qed.

(** A push keeps it. *)
Lemma push_agrees floor c d b fd d' : agrees floor d -> acceptable floor c d b ->
  push_block b d = (Ok fd, d') -> agrees floor d'.
Proof.
  intros [Hi Hu Hh Hl Hx] [P Hpay] R.
  destruct (push_run floor c b d Hi Hu Hh P) as (r & d1 & db & R1 & Ef & S1 & He & S' & Hr).
  rewrite R in R1. injection R1 as <- <-.
  split; [apply S' | apply S' | exact Hr | |].
  2: { apply (evolves_index c (set_forks db d)); [apply S1 | exact He |].
       exact (index_stored b db d (proj1 (push_new _ _ _ _ P)) Ef Hx). }
  apply (evolves_ledger room floor c (set_forks db d)); [| exact He |].
  - destruct S1 as [_ O1 W1 U1 [A1 A2 _]].
    split; auto. exact (payable_ext room (with_block b (db_forks d)) _ Ef Hpay).
  - apply (ledger_stored floor b); [apply (push_new _ _ _ _ P) | exact Ef | | exact Hl].
    exact (with_block_orderly _ _ (proj1 (push_new _ _ _ _ P)) (push_orderly _ _ _ _ P)).
Qed.

Lemma genesis_agrees config id statistics fee d : good_genesis room config ->
  initialize_genesis config id statistics (empty_database fee) = (Ok id, d) -> agrees 0 d.
Proof.
  intros G R. destruct (genesis_loads room config id statistics fee G) as (d1 & R1 & Hd & E0 & _ & Hidx).
  rewrite R in R1. injection R1 as <-. destruct Hd as (Hi & Hu & Hh & Hs & Hz & _).
  split; auto; exists []; rewrite E0; (split; [constructor |]); [| split; [exact I | exact Hidx]]. apply backed_low; [intros x Hx; set_solver |].
  unfold branch_registers. cbn [map list_sum foldr]. rewrite Nat.sub_0_r.
  split; [exact Hs |]. intros a. exists 0. now rewrite Hz.
Qed.

Lemma reached_agrees config floor d : good_genesis room config -> reached config floor d -> agrees floor d.
Proof.
  intros G Hd. induction Hd as [id statistics fee d R | floor floor' c d b fd d' _ IH Hf Hb R].
  - exact (genesis_agrees _ _ _ _ _ G R).
  - exact (push_agrees _ _ _ _ _ _ (agrees_raise _ _ _ Hf IH) Hb R).
Qed.

(** C1: Every database reached from a good genesis file by acceptable blocks:
    each may be pushed when it comes ([pushable]: new, recent, linked or no
    block of the future waiting, on a fork that leaves the chain at the anchor
    or above), and all stored blocks settle, with room for the accounts they
    register ([payable]).  Then the chain is a branch of the tree, its blocks
    above the anchor can be taken back, the head is a highest block that is
    linked to genesis and not invalid, and of every asset the shares held, in
    balances, pay and collected fees, are the shares issued, in the arithmetic
    of 64 bits. *)
Theorem reached_conserves config floor d : good_genesis room config -> reached config floor d ->
  agrees floor d /\ forall a, exists k, surplus (db_tables d) a = k * 2 ^ 64.
Proof.
  intros G Hd. pose proof (reached_agrees config floor d G Hd) as Ha.
  split; [exact Ha |]. destruct (agrees_ledger _ _ Ha) as (l & _ & Hb).
  exact (ledger_balanced _ _ (backed_ok _ _ _ _ _ _ Hb)).
Qed.
End Reached.
