(* ===== verification/Queries.v ===== *)
(** * Questions to the chain database (blockchain/ChainDatabase.cpp)

    The const members of ChainDatabase: blocks by number and by id, scans of
    the tables, lists from a key on, the supply of an asset counted from the
    entries, and the files made from them.  None of them changes the database. *)

From Stdlib Require Import ZArith Lia Bool String.
From stdpp Require Import base gmap strings list fin_sets sorting.
From S2P Require Import Prelude Asset Entries Names Addresses ChainInterface ChainState AssetEntry.
From S2P Require Import EvalState ContractOperations.
From S2P Require Import Blocks ForkDatabase PendingChainState ChainTables Delegates ChainDatabase Genesis.

Local Open Scope Z_scope.

(** ** Tables in the order of their keys *)

Section Ordered.
Context {K V : Type} `{Countable K} (le : K -> K -> Prop) `{!RelDecision le}.

Definition item_before (a b : K * V) : Prop := le (fst a) (fst b).
#[export] Instance item_before_decision : RelDecision item_before.
Proof. intros a b. unfold item_before. apply _. Defined.
(** ordered_lower_bound( first ), and what follows *)
Definition items_from (first : K) (m : gmap K V) : list (K * V) :=
  filter (fun item => le first (fst item)) (merge_sort item_before (map_to_list m)).
End Ordered.

Definition string_le (a b : string) : Prop := String.leb a b = true.
#[export] Instance string_le_decision : RelDecision string_le.
Proof. intros a b. unfold string_le. apply _. Defined.

(** friend bool operator < ( const SlotIndex& , const SlotIndex& ): the later
    slot comes first. *)
Definition slot_before (a b : SlotIndex) : Prop :=
  slot_delegate_id b < slot_delegate_id a \/
  slot_delegate_id a = slot_delegate_id b /\ slot_timestamp b <= slot_timestamp a.
#[export] Instance slot_before_decision : RelDecision slot_before.
Proof. intros a b. unfold slot_before. apply _. Defined.

(** push_back what is found, until there are [limit] of them; the limit is
    looked at after an entry. *)
Fixpoint collect {A B} (find : A -> option B) (limit : Z) (found : list B) (l : list A) : list B :=
  match l with
  | [] => found
  | x :: l' =>
      let found := match find x with Some y => found ++ [y] | None => found end in
      if limit <=? Z.of_nat (List.length found) then found else collect find limit found l'
  end.

Section Queries.
Context `{ChainParams} `{HashParams} `{BlockParams} `{Clock} `{NodeParams}.

(** ** Blocks *)

Definition get_block_fork_data (self : ChainDatabase) (id : BlockIdType) : option BlockForkData :=
  fork_db (db_forks self) !! id.
Definition is_known_block (self : ChainDatabase) (id : BlockIdType) : bool :=
  match get_block_fork_data self id with Some d => is_known d | None => false end.
Definition is_included_block (self : ChainDatabase) (id : BlockIdType) : bool :=
  match get_block_fork_data self id with Some d => is_included d | None => false end.

Definition block_of (self : ChainDatabase) (id : BlockIdType) : result FullBlock :=
  fst (get_block id (db_forks self)).
Definition block_id_at (self : ChainDatabase) (num : Z) : result BlockIdType :=
  fst (get_block_id num self).
Definition get_block_num (self : ChainDatabase) (id : BlockIdType) : result Z :=
  if id =? 0 then Ok 0 else let! b := block_of self id in Ok (block_num (header b)).
Definition get_head_block_num (self : ChainDatabase) : Z := block_num (head_block_header self).
Definition block_at (self : ChainDatabase) (num : Z) : result FullBlock :=
  let! id := block_id_at self num in block_of self id.
Definition header_at (self : ChainDatabase) (num : Z) : result SignedBlockHeader :=
  let! b := block_at self num in Ok (header b).
Definition get_block_digest (self : ChainDatabase) (id : BlockIdType) : result DigestBlock :=
  let! b := block_of self id in Ok (digest_block b).

Definition get_block_signee (self : ChainDatabase) (id : BlockIdType) : result AccountEntry :=
  let! b := block_of self id in
  let! signee := header_signee (header b) in
  get_delegate_entry_for_signee (db_tables self) signee.

Fixpoint fetch_entries (t : ChainTables) (trxs : list SignedTransaction) : result (list TransactionEntry) :=
  match trxs with
  | [] => Ok []
  | trx :: trxs' =>
      match tables t KTransaction !! (trx_id trx : key_type KTransaction) with
      | Some e => let! es := fetch_entries t trxs' in Ok (e :: es)
      | None => Err key_not_found_exception
      end
  end.
Definition get_transactions_for_block (self : ChainDatabase) (id : BlockIdType)
    : result (list TransactionEntry) :=
  let! b := block_of self id in fetch_entries (db_tables self) (user_transactions b).

(** The largest number of a block in the tree, or above it *)
Fixpoint highest_num (self : ChainDatabase) (best : Z) (ids : list BlockIdType) : result Z :=
  match ids with
  | [] => Ok best
  | id :: ids' =>
      let! num := get_block_num self id in
      highest_num self (if best <? num then num else best) ids'
  end.
Definition get_fork_list_num (self : ChainDatabase) : result Z :=
  highest_num self 0 (map fst (map_to_list (fork_db (db_forks self)))).

(** A percentage, as a fraction: its numerator and its denominator, which may
    be zero *)
Definition get_average_delegate_participation (self : ChainDatabase) : result (Z * Z) :=
  let head_num := get_head_block_num self in
  if head_num <? 1 then Ok (0, 1)
  else if head_num <=? ALP_BLOCKCHAIN_NUM_DELEGATES then
    let! first := header_at self 1 in
    let expected_blocks := Z.quot (blockchain_now - timestamp first) ALP_BLOCKCHAIN_BLOCK_INTERVAL_SEC in
    Ok (100 * head_num, expected_blocks)
  else
    let! start := header_at self (head_num - ALP_BLOCKCHAIN_NUM_DELEGATES) in
    let expected_production := Z.quot (blockchain_now - timestamp start) ALP_BLOCKCHAIN_BLOCK_INTERVAL_SEC in
    Ok (100 * ALP_BLOCKCHAIN_NUM_DELEGATES, expected_production).

(** ** Transactions *)

(** The ids begin with the same four bytes of twenty. *)
Definition same_prefix (a b : TransactionIdType) : bool := Z.shiftr a 128 =? Z.shiftr b 128.
Definition get_transaction (t : ChainTables) (id : TransactionIdType) (exact : bool)
    : result (option TransactionEntry) :=
  match tables t KTransaction !! (id : key_type KTransaction) with
  | Some e => if trx_id (entry_trx e) =? id then Ok (Some e) else Err assert_exception
  | None =>
      if exact then Ok None
      else match items_from (K := Z) Z.le id (tables t KTransaction) with
           | (id', e) :: _ => if same_prefix id' id then Ok (Some e) else Ok None
           | [] => Ok None
           end
  end.
Definition get_transaction_from_result (t : ChainTables) (result_id : TransactionIdType)
    : option ResultTIdEntry := cdb_contract_lookup_resultid_by_reqestid t result_id.

(** ** Balances and accounts *)

(** A callback over the entries of a table, in the order the hash table has
    them *)
Fixpoint scan {A V} (callback : A -> V -> result A) (acc : A) (entries : list V) : result A :=
  match entries with
  | [] => Ok acc
  | e :: entries' => let! acc := callback acc e in scan callback acc entries'
  end.
Definition balance_entries (t : ChainTables) : list BalanceEntry :=
  map snd (map_to_list (tables t KBalance : gmap Z BalanceEntry)).
Definition account_entries (t : ChainTables) : list AccountEntry :=
  map snd (map_to_list (tables t KAccount : gmap Z AccountEntry)).
Definition scan_balances {A} (t : ChainTables) (callback : A -> BalanceEntry -> result A) (acc : A)
    : result A := scan callback acc (balance_entries t).
Definition scan_unordered_accounts {A} (t : ChainTables) (callback : A -> AccountEntry -> result A)
    (acc : A) : result A := scan callback acc (account_entries t).

Definition get_balances (t : ChainTables) (first : BalanceIdType) (limit : Z)
    : gmap BalanceIdType BalanceEntry :=
  list_to_map (collect Some limit [] (items_from (K := Z) Z.le first (tables t KBalance))).
Definition get_balances_for_address (t : ChainTables) (addr : Address)
    : result (gmap BalanceIdType BalanceEntry) :=
  scan_balances t (fun entries e =>
    let! owned := is_owner e addr in
    Ok (if owned then <[balance_id e := e]> entries else entries)) ∅.
Definition get_accounts (t : ChainTables) (first : string) (limit : Z) : list AccountEntry :=
  collect (fun item => get_account_entry t (snd item)) limit []
    (items_from string_le first (t_account_name_to_id t)).
Definition get_assets (t : ChainTables) (first : string) (limit : Z) : list AssetEntry :=
  collect (fun item => get_asset_entry t (snd item)) limit []
    (items_from string_le first (t_asset_symbol_to_id t)).
Definition get_account_by_address (t : ChainTables) (address_str : string)
    : result (option AccountEntry) :=
  let! addr := address_of_string address_str alp_address in
  Ok (match t_account_address_to_id t !! addr with
      | Some id => get_account_entry t id
      | None => None
      end).
Definition get_asset_id (t : ChainTables) (symbol : string) : result AssetIdType :=
  let! o := get_asset_entry_by_symbol t symbol in
  match o with Some a => Ok (ast_id a) | None => Err assert_exception end.

(** The slots of a delegate, the latest first *)
Fixpoint delegate_slots (delegate_id : AccountIdType) (limit : Z) (found : list SlotEntry)
    (l : list SlotEntry) : list SlotEntry :=
  match l with
  | [] => found
  | e :: l' =>
      if negb (slot_delegate_id (slot_index e) =? delegate_id) then found
      else let found := found ++ [e] in
           if limit <=? Z.of_nat (List.length found) then found
           else delegate_slots delegate_id limit found l'
  end.
Definition get_delegate_slot_entrys (self : ChainDatabase) (delegate_id : AccountIdType) (limit : Z)
    : result (list SlotEntry) :=
  if limit <=? 0 then Err assert_exception
  else Ok (delegate_slots delegate_id limit []
             (map snd (items_from slot_before
                         (mkSlotIndex delegate_id (timestamp (head_block_header self)))
                         (tables (db_tables self) KSlot : gmap SlotIndex SlotEntry)))).

(** ** Supply *)

Definition add_held (asset_id : AssetIdType) (total : ShareType) (b : BalanceEntry) : ShareType :=
  if cond_asset_id (condition b) =? asset_id then wrap_i64 (total + balance b) else total.
Definition add_pay (total : ShareType) (account : AccountEntry) : ShareType :=
  match delegate_info account with
  | Some info => wrap_i64 (total + pay_balance info)
  | None => total
  end.
Definition calculate_supply (t : ChainTables) (asset_id : AssetIdType) : result Asset :=
  match get_asset_entry t asset_id with
  | None => Err assert_exception
  | Some entry =>
      let total := foldl (add_held asset_id) (collected_fees entry) (balance_entries t) in
      let total := if asset_id =? 0 then foldl add_pay total (account_entries t) else total in
      Ok (mkAsset total asset_id)
  end.

Definition unclaimed_genesis (t : ChainTables) : result Asset :=
  let! genesis_date := get_genesis_timestamp t in
  scan_balances t (fun unclaimed e =>
    Ok (match snapshot_info e with
        | Some _ => if balance_last_update e <=? genesis_date
                    then mkAsset (wrap_i64 (amount unclaimed + balance e)) (asset_id unclaimed)
                    else unclaimed
        | None => unclaimed
        end)) (mkAsset 0 0).

(** ** Files *)

(** The genesis balance of an entry, when it gets one *)
Definition snapshot_balance (e : BalanceEntry) : result (list GenesisBalance) :=
  if negb (cond_asset_id (condition e) =? 0) then Ok []
  else
    let! raw := match snapshot_info e with
                | Some info => Ok (Some (original_address info))
                | None =>
                    let! owner := condition_owner (condition e) in
                    Ok (match owner with Some a => Some (address_to_string a alp_address) | None => None end)
                end in
    match raw with
    | None => Ok []
    | Some raw =>
        Ok (if cond_type (condition e) =? withdraw_signature_type
            then [mkGenesisBalance raw (balance e)] else [])
    end.
Definition snapshot_pay (e : AccountEntry) : result (list GenesisBalance) :=
  if negb (is_delegate e) then Ok []
  else
    let! gone := is_retracted e in
    if gone then Ok []
    else let! pay := delegate_pay_balance e in
         Ok [mkGenesisBalance (address_to_string (owner_address e) alp_address) pay].
(** [builtin] is what the node was built with. *)
Definition generate_snapshot (t : ChainTables) (builtin : GenesisState) : result GenesisState :=
  let! balances := scan_balances t (fun l e => let! b := snapshot_balance e in Ok (l ++ b)) [] in
  let! all := scan_unordered_accounts t (fun l e => let! b := snapshot_pay e in Ok (l ++ b)) balances in
  Ok (mkGenesisState (cdb_now t) (market_assets builtin) (gen_delegates builtin) all
        (mkGenesisReserveBalances (start_time (sharedrop_balances builtin))
           (duration_days (sharedrop_balances builtin)) [])).
End Queries.
