(* ===== verification/FindBlock.v ===== *)
(** * The block of a time (ChainDatabase::find_block_num)

    The search interpolates in double arithmetic.  On the blocks of the chain,
    whose times grow, it ends, and answers the last block that is not later. *)

From Stdlib Require Import ZArith Lia Bool String QArith Qround Lqa.
From stdpp Require Import base gmap strings list.
From S2P Require Import Prelude Doubles Asset Entries Names ChainInterface ChainState AssetEntry.
From S2P Require Import EvalState ContractOperations.
From S2P Require Import Blocks ForkDatabase ForkTree ForkStore PendingChainState ChainTables Delegates.
From S2P Require Import ChainDatabase ChainExtension ForkSwitch Anchor ChainIndex Addresses Genesis Queries.

Local Open Scope Z_scope.

(** ** Interpolation *)

(** start + (n * (double( a ) / b)), as a uint32_t *)
Definition interpolate (start n a b : Z) : Z :=
  let relative := nearest (of_int a / of_int b) in
  let part := nearest (of_int n * relative) in
  Qfloor (nearest (of_int start + part)).

(** The interpolation lands between the blocks it interpolates: the rounding
    errors stay below the second that is missing at the end. *)
Lemma interpolate_inside start n a b : 0 <= start -> 2 <= n -> 0 <= a < b -> b < 2 ^ 32 ->
  start + n < 2 ^ 32 -> (start + n) * b <= 2 ^ 53 -> start <= interpolate start n a b < start + n.
Proof.
  intros Hs Hn Ha Hb Hsn Hprod. unfold interpolate, of_int.
  assert (0 < inject_Z b)%Q as Hb0 by (unfold Qlt; cbn; lia).
  assert (0 <= inject_Z a / inject_Z b)%Q as Hx0.
  { apply Qle_shift_div_l; [exact Hb0 |]. unfold Qle. cbn. lia. }
  assert (inject_Z a / inject_Z b <= 1 - / inject_Z b)%Q as Hx1.
  { apply Qle_shift_div_r; [exact Hb0 |].
    assert ((1 - / inject_Z b) * inject_Z b == inject_Z b - 1)%Q as E
      by (field; intros E; rewrite E in Hb0; discriminate).
    rewrite E. unfold Qle, Qminus. cbn. lia. }
  assert (0 < / inject_Z b)%Q as Hib by now apply Qinv_lt_0_compat.
  assert (/ inject_Z b * inject_Z b == 1)%Q as Eib by (field; intros E; rewrite E in Hb0; discriminate).
  set (x1 := (inject_Z a / inject_Z b)%Q) in *. set (ib := (/ inject_Z b)%Q) in *.
  destruct (nearest_near x1) as [A1 _ L1 H1]; [split; [exact Hx0 |]; apply (Qle_lt_trans _ 1); [lra | reflexivity] |].
  specialize (L1 0 Hx0). specialize (H1 1 ltac:(change (inject_Z 1) with 1%Q; lra)). set (rel := nearest x1) in *.
  change (inject_Z 0) with 0%Q in L1. change (inject_Z 1) with 1%Q in H1.
  set (eps := (1 # 2 ^ 53)%Q) in *.
  assert (2 <= inject_Z n)%Q as Hn' by (unfold Qle; cbn; lia).
  assert (0 <= inject_Z start)%Q as Hs' by (unfold Qle; cbn; lia).
  assert (inject_Z start + inject_Z n < inject_Z (2 ^ 32))%Q as Hsn'.
  { rewrite <- inject_Z_plus. now rewrite <- Zlt_Qlt. }
  assert (inject_Z (2 ^ 32) < inject_Z (2 ^ 53))%Q as H53 by reflexivity.
  set (N := inject_Z n) in *. set (s := inject_Z start) in *.
  set (x2 := (N * rel)%Q).
  assert (0 <= x2 <= N)%Q as [Hx20 Hx2N] by (unfold x2; split; nra).
  destruct (nearest_near x2) as [A2 _ L2 H2]; [split; [exact Hx20 | lra] |].
  specialize (L2 0 Hx20). specialize (H2 n Hx2N). fold N in H2. fold eps in A2. change (inject_Z 0) with 0%Q in L2.
  set (part := nearest x2) in *. set (x3 := (s + part)%Q).
  destruct (nearest_near x3) as [A3 _ L3 H3]; [unfold x3; split; lra |].
  assert (s <= x3)%Q as Hl by (unfold x3; lra). specialize (L3 start Hl). fold s in L3. fold eps in A3.
  set (sum := nearest x3) in *.
  assert (sum < s + N)%Q as Hlt.
  { set (B := inject_Z b) in *.
    assert (eps * B <= 1 # 8)%Q as P2 by (unfold eps, B, Qle; cbn; change (2 ^ 32) with 4294967296 in Hb; lia).
    assert (eps * ((s + N) * B) <= 1)%Q as P1.
    { unfold s, N, B. rewrite <- inject_Z_plus, <- inject_Z_mult. unfold eps, Qle, Qmult. cbn [Qnum Qden inject_Z].
      change (2 ^ 53) with 9007199254740992 in Hprod. lia. }
    assert ((2 * eps * N + eps * (s + N)) * B < N)%Q as Hk by nra.
    assert (0 < eps)%Q as Heps by reflexivity.
    assert (2 * eps * N + eps * (s + N) < N * ib)%Q as Hgap.
    { apply Qnot_le_lt. intros Hge. apply (Qlt_not_le _ _ Hk).
      assert (N * ib * B == N)%Q as EN by (rewrite <- Qmult_assoc, Eib; ring). nra. }
    assert (x1 * eps <= eps)%Q as Q0 by nra. assert (rel <= 1 - ib + eps)%Q as Q1 by lra.
    assert (x2 <= N * (1 - ib + eps))%Q as Q2 by (unfold x2; nra).
    assert (x2 * eps <= N * eps)%Q as Q3 by nra.
    assert (x3 * eps <= (s + N) * eps)%Q as Q4 by (unfold x3; nra).
    assert (x3 <= s + x2 + x2 * eps)%Q as Q5 by (unfold x3; lra).
    assert (N * (1 - ib + eps) == N - N * ib + N * eps)%Q as E by ring. rewrite E in Q2. lra. }
  split.
  - rewrite <- (Qfloor_Z start). now apply Qfloor_resp_le.
  - rewrite Zlt_Qlt, inject_Z_plus. fold s N. apply (Qle_lt_trans _ sum); [apply Qfloor_le | exact Hlt].
Qed.

(** ** The search *)

Section FindBlock.
Context `{HP : ChainParams} `{HB : BlockParams} `{HH : !BlockHashes} `{HC : Clock} `{HN : NodeParams}
  `{HV : GluaVM Pend}.

Fixpoint find_between (fuel : nat) (self : ChainDatabase) (time start start_time end_ end_time : Z)
    : result Z :=
  if wrap_u32 (start + 1) <? end_ then
    match fuel with
    | O => Err does_not_return
    | Datatypes.S f =>
        let mid := interpolate start (wrap_u32 (end_ - start)) (wrap_u32 (time - start_time))
                     (wrap_u32 (end_time - start_time)) in
        let mid := if mid =? start then wrap_u32 (mid + 1) else mid in
        let! h := header_at self mid in
        if time <? timestamp h then find_between f self time start start_time mid (timestamp h)
        else find_between f self time mid (timestamp h) end_ end_time
    end
  else Ok start.

Definition find_block_num (self : ChainDatabase) (time : time_point_sec) : result Z :=
  let end_ := get_head_block_num self in
  let! first := header_at self 1 in
  if time <=? timestamp first then Ok 1
  else
    let! last := header_at self end_ in
    if timestamp last <=? time then Ok end_
    else find_between (Z.to_nat end_) self time 1 (timestamp first) end_ (timestamp last).

(** [T] are the times of the blocks of the chain, from 1 to [n]. *)
Record timed (self : ChainDatabase) (n : Z) (T : Z -> Z) : Prop := {
  timed_header k : 1 <= k <= n -> exists h, header_at self k = Ok h /\ timestamp h = T k;
  timed_grows j k : 1 <= j -> j < k -> k <= n -> T j < T k
}.

Lemma find_between_spec self n T time fuel start end_ : timed self n T ->
  0 <= T 1 -> T n < 2 ^ 32 -> n < 2 ^ 32 -> n * (T n - T 1) <= 2 ^ 53 ->
  1 <= start -> start < end_ -> end_ <= n -> T start <= time -> time < T end_ ->
  end_ - start <= Z.of_nat fuel + 1 ->
  exists k, find_between fuel self time start (T start) end_ (T end_) = Ok k /\
    start <= k < end_ /\ T k <= time /\ time < T (k + 1).
Proof.
  intros HT H1 Hn Hn32 Hspan. revert start end_. induction fuel as [| fuel IH]; intros start end_ Hs Hse He Hts Hte Hf;
    cbn [find_between]; rewrite (wrap_u32_small (start + 1)) by lia.
  { assert (end_ = start + 1) as -> by lia. rewrite Z.ltb_irrefl. exists start. repeat split; auto; lia. }
  destruct (Z.ltb_spec (start + 1) end_) as [Hgap | Hgap].
  2: { assert (end_ = start + 1) as -> by lia. exists start. repeat split; auto; lia. }
  assert (T 1 <= T start) as L1 by (destruct (Z.eq_dec start 1) as [-> |]; [lia | apply Z.lt_le_incl, (timed_grows _ _ _ HT); lia]).
  assert (T end_ <= T n) as Ln by (destruct (Z.eq_dec end_ n) as [-> |]; [lia | apply Z.lt_le_incl, (timed_grows _ _ _ HT); lia]).
  rewrite !wrap_u32_small by lia.
  destruct (interpolate_inside start (end_ - start) (time - T start) (T end_ - T start)) as [I1 I2]; try lia; [nia |].
  set (mid0 := interpolate _ _ _ _) in *.
  set (mid := if mid0 =? start then wrap_u32 (mid0 + 1) else mid0).
  assert (start < mid < end_) as [M1 M2].
  { unfold mid. destruct (Z.eqb_spec mid0 start); [rewrite wrap_u32_small by lia |]; lia. }
  destruct (timed_header _ _ _ HT mid) as (h & Hh & Et); [lia |]. rewrite Hh. cbn [result_bind]. rewrite Et.
  destruct (Z.ltb_spec time (T mid)) as [Hm | Hm].
  - destruct (IH start mid) as (k & R & Hk & Hk'); try lia. exists k. split; [exact R | split; [lia | exact Hk']].
  - destruct (IH mid end_) as (k & R & Hk & Hk'); try lia. exists k. split; [exact R | split; [lia | exact Hk']].
Qed.

Lemma find_timed self n T time : timed self n T -> get_head_block_num self = n -> 1 <= n ->
  0 <= T 1 -> T n < 2 ^ 32 -> n < 2 ^ 32 -> n * (T n - T 1) <= 2 ^ 53 ->
  exists k, find_block_num self time = Ok k /\ 1 <= k <= n /\
    (time <= T 1 /\ k = 1 \/ T k <= time /\ (k < n -> time < T (k + 1))).
Proof.
  intros HT En Hn H1 Hn32 Hnn Hspan. unfold find_block_num. rewrite En.
  destruct (timed_header _ _ _ HT 1) as (h1 & -> & E1); [lia |]. cbn [result_bind]. rewrite E1.
  destruct (Z.leb_spec time (T 1)) as [Hle | Hgt].
  { exists 1. repeat split; auto; try lia. }
  destruct (timed_header _ _ _ HT n) as (hn & -> & Ehn); [lia |]. cbn [result_bind]. rewrite Ehn.
  destruct (Z.leb_spec (T n) time) as [Hle | Hlt].
  { exists n. repeat split; auto; try lia. }
  assert (1 < n) as Hn1 by (destruct (Z.eq_dec n 1) as [-> |]; lia).
  destruct (find_between_spec self n T time (Z.to_nat n) 1 n) as (k & R & Hk & Hk1 & Hk2); auto; try lia.
  exists k. split; [exact R | split; [lia | right; auto]].
Qed.

(** The blocks of the index, in the order of their numbers *)
Lemma counted_times db l j k x y : counted db l -> index_of l !! j = Some x -> index_of l !! k = Some y ->
  j < k -> time_at db x < time_at db y.
Proof.
  revert k y. induction l as [| i l IH]; intros k y Hc Hj Hk Hjk; cbn [index_of] in *; [now rewrite lookup_empty in Hj |].
  destruct Hc as (_ & Hlast & Hc).
  assert (forall m z, index_of l !! m = Some z -> 1 <= m <= Z.of_nat (List.length l)) as Hrange.
  { intros m z Hm. rewrite index_of_lookup in Hm. destruct (Z.leb_spec 1 m); [| discriminate].
    apply lookup_lt_Some in Hm. rewrite length_reverse in Hm. lia. }
  cbn [List.length] in Hj, Hk.
  apply lookup_insert_Some in Hj as [[Ej _] | [Nj Hj]].
  { apply lookup_insert_Some in Hk as [[Ek _] | [_ Hk]]; [lia | specialize (Hrange _ _ Hk); lia]. }
  apply lookup_insert_Some in Hk as [[Ek <-] | [_ Hk]]; [| exact (IH k y Hc Hj Hk Hjk)].
  destruct l as [| p l]; [cbn in Hj; now rewrite lookup_empty in Hj |].
  specialize (Hlast p eq_refl). pose proof Hj as Hj0. cbn [index_of] in Hj.
  apply lookup_insert_Some in Hj as [[_ <-] | [Nj' Hj]]; [exact Hlast |].
  eapply Z.lt_trans; [| exact Hlast]. apply (IH (Z.of_nat (Datatypes.S (List.length l))) p Hc).
  - exact Hj0.
  - cbn [index_of List.length]. now rewrite lookup_insert_eq.
  - specialize (Hrange j x Hj0). cbn [List.length] in *. lia.
Qed.

Definition chain_time (self : ChainDatabase) (k : Z) : Z :=
  match header_at self k with Ok h => timestamp h | Err _ => 0 end.

Lemma index_at self l k : branch (db_forks self) (head_block_id self) l -> counted (db_forks self) l ->
  block_num_to_id self = index_of l -> 1 <= k <= Z.of_nat (List.length l) ->
  exists i b, index_of l !! k = Some i /\ full_blocks (db_forks self) !! i = Some b /\
    header_at self k = Ok (header b) /\ block_num (header b) = k.
Proof.
  intros Hl Hc Ei Hk. destruct (index_of l !! k) as [i |] eqn:Hi.
  - assert (i ∈ l) as Hil.
    { rewrite index_of_lookup in Hi. destruct (1 <=? k); [| discriminate].
      apply list_elem_of_lookup_2 in Hi. now apply elem_of_reverse. }
    destruct (branch_stored _ _ _ _ Hl Hil) as [_ [b Hb]]. exists i, b.
    split; [reflexivity | split; [exact Hb |]].
    pose proof (counted_at _ _ _ _ Hc Hi) as Hn. unfold number_at in Hn. rewrite Hb in Hn.
    split; [| exact Hn]. unfold header_at, block_at, block_id_at, block_of, get_block_id, get_block, bind, get.
    rewrite Ei, Hi. cbn. now rewrite Hb.
  - exfalso. rewrite index_of_lookup in Hi. destruct (Z.leb_spec 1 k); [| lia].
    apply lookup_ge_None in Hi. rewrite length_reverse in Hi. lia.
Qed.

Lemma index_timed self : chain_inv self -> index_inv self ->
  timed self (get_head_block_num self) (chain_time self).
Proof.
  intros Hi (l & Hl & Hc & Ei).
  assert (get_head_block_num self = Z.of_nat (List.length l)) as En
    by exact (head_count self l (inv_head _ Hi) (ok_tree _ (inv_ok _ Hi)) Hl Hc).
  rewrite En. split.
  - intros k Hk. destruct (index_at self l k Hl Hc Ei Hk) as (i & b & _ & _ & Hh & _).
    exists (header b). split; [exact Hh | unfold chain_time; now rewrite Hh].
  - intros j k Hj Hjk Hk.
    destruct (index_at self l j Hl Hc Ei) as (ij & bj & Ij & Bj & Hhj & _); [lia |].
    destruct (index_at self l k Hl Hc Ei) as (ik & bk & Ik & Bk & Hhk & _); [lia |].
    unfold chain_time. rewrite Hhj, Hhk.
    pose proof (counted_times _ _ _ _ _ _ Hc Ij Ik Hjk) as Ht. unfold time_at in Ht. now rewrite Bj, Bk in Ht.
Qed.

(** C27: find_block_num on a chain whose blocks are indexed, as those of every
    reached database are: it returns, and the block it names is the last one
    that is not later than the time, or the first of all.  The bound keeps the
    rounding of the doubles below a second: nine years of blocks satisfy it. *)
Theorem find_block_num_last self time : chain_inv self -> index_inv self ->
  let n := get_head_block_num self in let T := chain_time self in
  1 <= n -> 0 <= T 1 -> T n < 2 ^ 32 -> n < 2 ^ 32 -> n * (T n - T 1) <= 2 ^ 53 ->
  exists k, find_block_num self time = Ok k /\ 1 <= k <= n /\
    (time <= T 1 /\ k = 1 \/ T k <= time /\ (k < n -> time < T (k + 1))).
Proof.
  intros Hi Hx n T Hn H1 H2 H3 H4. exact (find_timed self n T time (index_timed self Hi Hx) eq_refl Hn H1 H2 H3 H4).
Qed.
End FindBlock.
