(* ===== verification/QueryLaws.v ===== *)
(** * What the questions answer

    The supply counted from the entries of a reached database is the supply
    its asset records; blocks are found by their numbers. *)

From Stdlib Require Import ZArith Lia Bool String.
From stdpp Require Import base gmap strings list fin_sets fin_map_dom sorting.
From S2P Require Import Prelude Asset Entries Names Addresses ChainInterface ChainState AssetEntry.
From S2P Require Import EvalState ContractOperations Ledger AccountForms Conservation.
From S2P Require Import Blocks ForkDatabase PendingChainState ChainTables Delegates ChainDatabase.
From S2P Require Import LedgerTables ForkSwitch ChainLedger ChainIndex Genesis Reached Queries.

Local Open Scope Z_scope.

(** ** Sums over a table *)

Lemma zsum_app l l' : zsum (l ++ l') = zsum l + zsum l'.
Proof. unfold zsum. induction l as [| x l IH]; cbn [app foldr]; [reflexivity | rewrite IH; lia]. Qed.

Lemma dom_items {V} (m : gmap Z V) : elements (dom m) ≡ₚ map fst (map_to_list m).
Proof.
  apply NoDup_Permutation; [apply NoDup_elements | apply NoDup_fst_map_to_list |].
  intros k. rewrite elem_of_elements, elem_of_dom, list_elem_of_fmap. split.
  - intros [v Hv]. exists (k, v). split; [reflexivity | now apply elem_of_map_to_list].
  - intros [[k' v] [-> Hv]]. apply elem_of_map_to_list in Hv. eauto.
Qed.

(** A sum over the keys of a table is a sum over its entries. *)
Lemma sum_over_table {V} (m : gmap Z V) (f : option V -> Z) :
  sum_over (fun k => f (m !! k)) (dom m) = zsum (map (fun v => f (Some v)) (map snd (map_to_list m))).
Proof.
  unfold sum_over. rewrite (zsum_perm _ _ (Permutation_map (fun k => f (m !! k)) (dom_items m))).
  rewrite !map_map. f_equal. apply map_ext_in. intros [k v] Hkv. cbn.
  apply list_elem_of_In, elem_of_map_to_list in Hkv. now rewrite Hkv.
Qed.

(** ** Additions that wrap *)

(** A step that adds [value] in 64 bits *)
Definition adds {V} (value : V -> Z) (step : Z -> V -> Z) : Prop :=
  forall total v, (exists k, step total v = total + value v + k * 2 ^ 64) /\
    (in_i64 total -> in_i64 (step total v)).
Lemma adds_all {V} (value : V -> Z) step : adds value step -> forall l total,
  (exists k, foldl step total l = total + zsum (map value l) + k * 2 ^ 64) /\
  (in_i64 total -> in_i64 (foldl step total l)).
Proof.
  intros Ha l. induction l as [| v l IH]; intros total; cbn [foldl map].
  { split; [exists 0; unfold zsum; cbn; lia | easy]. }
  destruct (Ha total v) as [[k Ek] Hr]. destruct (IH (step total v)) as [[k' Ek'] Hr']. split; [| auto].
  exists (k + k'). rewrite Ek', Ek. unfold zsum. cbn [foldr]. lia.
Qed.

(** Congruent numbers of 64 bits are equal. *)
Lemma i64_congruent x y k : in_i64 x -> in_i64 y -> x = y + k * 2 ^ 64 -> x = y.
Proof. unfold in_i64, INT64_MIN, INT64_MAX. intros Hx Hy E. assert (k = 0) as -> by lia. lia. Qed.

Section QueryLaws.
Context `{HP : ChainParams} `{HS : HashParams} `{HB : BlockParams} `{HH : !BlockHashes} `{HC : Clock}
  `{HN : NodeParams} `{HV : GluaVM Pend}.

Lemma adds_held a : adds (fun b => shares_of a (Some b)) (add_held a).
Proof.
  intros total b. unfold add_held, shares_of. destruct (_ =? a).
  - split; [destruct (wrap_i64_turns (total + balance b)) as [k E]; eauto | intros; apply wrap_i64_range].
  - split; [exists 0; lia | easy].
Qed.
Lemma adds_pay : adds (fun x => pay_in 0 (Some x)) add_pay.
Proof.
  intros total x. unfold add_pay, pay_in, pay_of. cbn [Z.eqb]. destruct (delegate_info x) as [info |].
  - split; [destruct (wrap_i64_turns (total + pay_balance info)) as [k E]; eauto | intros; apply wrap_i64_range].
  - split; [exists 0; lia | easy].
Qed.

(** What calculate_supply adds up is the surplus over the supply. *)
Lemma supply_counted t a x : get_asset_entry t a = Some x -> in_i64 (collected_fees x) ->
  exists total k, calculate_supply t a = Ok (mkAsset total a) /\ in_i64 total /\
    total = current_share_supply x + surplus t a + k * 2 ^ 64.
Proof.
  intros Hx Hf. unfold calculate_supply. rewrite Hx.
  destruct (adds_all _ _ (adds_held a) (balance_entries t) (collected_fees x)) as [[k1 E1] R1].
  set (total1 := foldl _ _ (balance_entries t)) in *.
  assert (surplus t a = zsum (map (fun b => shares_of a (Some b)) (balance_entries t)) +
    (if a =? 0 then zsum (map (fun y => pay_in 0 (Some y)) (account_entries t)) else 0) +
    (collected_fees x - current_share_supply x)) as Es.
  { unfold surplus. rewrite Hx. cbn [fees_less_supply]. f_equal. f_equal.
    - exact (sum_over_table (tables t KBalance : gmap Z BalanceEntry) (shares_of a)).
    - destruct (Z.eqb_spec a 0) as [-> | Ha].
      + exact (sum_over_table (tables t KAccount : gmap Z AccountEntry) (pay_in 0)).
      + unfold sum_over. induction (elements _) as [| id l IH]; [reflexivity |]. cbn [map].
        unfold zsum in *. cbn [foldr]. rewrite IH. unfold pay_in at 1.
        destruct (get_account_entry t id); [apply Z.eqb_neq in Ha; now rewrite Ha | reflexivity]. }
  destruct (Z.eqb_spec a 0) as [-> | Ha].
  - destruct (adds_all _ _ adds_pay (account_entries t) total1) as [[k2 E2] R2].
    exists (foldl add_pay total1 (account_entries t)), (k1 + k2). split; [reflexivity | split; [auto |]]. lia.
  - exists total1, k1. split; [reflexivity | split; [auto |]]. lia.
Qed.

Lemma supply_recorded n t a x : ledger_ok n t -> get_asset_entry t a = Some x -> in_i64 (collected_fees x) ->
  calculate_supply t a = Ok (mkAsset (current_share_supply x) a).
Proof.
  intros [Hs Hb] Hx Hf. destruct (supply_counted t a x Hx Hf) as (total & k & -> & Ht & E).
  destruct (Hb a) as [j Ej]. rewrite Ej in E. do 2 f_equal.
  apply (i64_congruent _ _ (j + k)); [exact Ht | | lia].
  exact (sound_supply _ _ Hs a x Hx).
Qed.

(** C23: The supply of an asset, counted by calculate_supply from the
    balances, the pay of the delegates and the collected fees of a database
    reached from genesis by acceptable blocks, is the supply the asset entry
    records, if its collected fees fit int64_t. *)
Theorem supply_is_issued room config floor d a x : good_genesis room config ->
  reached room config floor d -> get_asset_entry (db_tables d) a = Some x -> in_i64 (collected_fees x) ->
  calculate_supply (db_tables d) a = Ok (mkAsset (current_share_supply x) a).
Proof.
  intros G Hd Hx Hf. destruct (agrees_ledger _ _ _ (reached_agrees room config floor d G Hd)) as (l & _ & Hb).
  exact (supply_recorded _ _ a x (backed_ok _ _ _ _ _ _ Hb) Hx Hf).
Qed.
End QueryLaws.
