(* ===== verification/BlockSamples.v ===== *)
(** * A sample chain

    A chain of ninety-nine delegates on which the theorems about delegates
    and blocks are applied. *)

From Stdlib Require Import ZArith Lia Bool String.
From stdpp Require Import base gmap strings list sorting fin_sets.
From S2P Require Import Prelude Asset Entries Names ChainInterface ChainState AssetEntry.
From S2P Require Import EvalState BalanceOperations ContractOperations Evaluate Ledger Transactions Conservation.
From S2P Require Import Blocks ForkDatabase ForkSamples PendingChainState Undo ChainTables.
From S2P Require Import Delegates DelegateLists DelegateProduction ChainDatabase LedgerTables.
From S2P Require Import AccountForms BlockLaws BlockEffects ChainExtension ForkTree ForkStore ForkMarks.
From S2P Require Import ForkSwitch Anchor PushBlock.

Local Open Scope Z_scope.

#[local] Existing Instance reference_params.
#[local] Existing Instance reference_clock.
#[local] Existing Instance reference_vm.

Definition delegate_ids : list Z := seqZ 1 99.
(** The delegate [i] signs blocks with the key [300 + i] and has [votes] votes. *)
Definition sample_delegate (i : Z) : AccountEntry :=
  mkAccountEntry i "delegate" VNull (i + 100) {[ 1 := i + 200 ]} 1 1
    (Some (mkDelegateStats (i * 10) 50 {[ 0 := i + 300 ]} 0 None 0 0 0 0 0)) None.

Definition build_chain : M ChainTables unit :=
  forM delegate_ids (fun i => store_account_entry (sample_delegate i)) ;;;
  store_asset_entry (set_collected_fees 241920 (base_asset 242920)) ;;;
  store_property_entry active_delegate_list_id (VIds delegate_ids) ;;;
  store_property_entry last_account_id (VInt64 99) ;;;
  store_property_entry node_vm_enabled (VBool true) ;;;
  entry_store KBalance 1205000000 (sample_balance 1205 600) ;;;
  entry_store KBalance 1206000000 (sample_balance 1206 400).
Definition sample_chain : ChainTables := snd (build_chain empty_tables).


(** The head of the chain, forty seconds ago *)
Definition sample_head : ChainTables := at_head 7 1499999960 sample_chain.
Definition over (t : ChainTables) : Pend := new_pending (Some t).

(** *** The sample chain is sound *)

Lemma over_tables t k key : overlay_kind k = true -> db_lookup k (over t) key = tables t k !! key.
Proof.
  intros Hk. rewrite <- cdb_lookup_table. cbn [db_lookup pending_chain_interface over].
  rewrite pcs_lookup_generic by exact Hk. unfold overlay_lookup. cbn.
  now rewrite lookup_empty, bool_decide_false by set_solver.
Qed.

(** A property of all entries of a kind is computed. *)
Definition all_entries t k (p : key_type k -> val_type k -> bool) : bool :=
  forallb (fun item => p (fst item) (snd item)) (map_to_list (tables t k)).
Lemma all_entries_spec t k p : all_entries t k p = true -> overlay_kind k = true ->
  forall id v, db_lookup k (over t) id = Some v -> p id v = true.
Proof.
  intros Hb Hk id v. rewrite over_tables by exact Hk. intros E. apply elem_of_map_to_list in E.
  unfold all_entries in Hb. rewrite forallb_forall in Hb.
  apply (Hb (id, v)), list_elem_of_In, E.
Qed.

Lemma head_own_ids : own_ids (over sample_head).
Proof.
  split; unfold get_balance_entry, get_account_entry, get_asset_entry, entry_lookup; intros id v E.
  - apply Z.eqb_eq. revert id v E.
    apply (all_entries_spec sample_head KBalance (fun id b => balance_id b =? id)); vm_compute; reflexivity.
  - apply Z.eqb_eq. revert id v E.
    apply (all_entries_spec sample_head KAccount (fun id a => account_id a =? id)); vm_compute; reflexivity.
  - apply Z.eqb_eq. revert id v E.
    apply (all_entries_spec sample_head KAsset (fun id a => ast_id a =? id)); vm_compute; reflexivity.
  - revert id v E.
    apply (all_entries_spec sample_head KBalance (fun id b => depositable (condition b))); vm_compute; reflexivity.
Qed.

(** ** Delegates *)

Definition after_election := snd (update_active_delegate_list sample_head 198 (over sample_head)).
Lemma election_runs :
  update_active_delegate_list sample_head 198 (over sample_head) = (Ok tt, after_election).
Proof.
  refine (run_fst (update_active_delegate_list sample_head 198) (over sample_head) tt _).
  vm_compute. reflexivity.
Qed.

Lemma active_delegates_elected_witness : exists (top : list VoteDel) (active : list Z),
  top_votes (Z.to_nat round) (t_delegate_votes sample_head) top /\
  get_active_delegates after_election = Ok active /\ active ≡ₚ map vote_delegate_id top.
Proof.
  destruct (active_delegates_elected sample_head 198 (over sample_head) tt after_election election_runs) as [_ He].
  apply He. reflexivity.
Defined.

Lemma one_slot_each_witness : exists! k, 0 <= k < round /\
  exists a, get_slot_signee sample_head (1499999970 + interval * k) delegate_ids = Ok a /\ account_id a = 42.
Proof.
  assert (forall i, i ∈ delegate_ids -> exists a, get_account_entry sample_head i = Some a /\
            account_id a = i /\ is_delegate a = true) as Hd.
  { assert (forallb (fun i => match get_account_entry sample_head i with
                              | Some a => (account_id a =? i) && is_delegate a
                              | None => false
                              end) delegate_ids = true) as Hf by (vm_compute; reflexivity).
    intros i Hi. rewrite forallb_forall in Hf. specialize (Hf i (proj1 (list_elem_of_In _ _) Hi)).
    destruct (get_account_entry sample_head i) as [a |]; [| discriminate].
    apply andb_true_iff in Hf as [Ei Hd]. apply Z.eqb_eq in Ei. now exists a. }
  exact (one_slot_each sample_head delegate_ids 1499999970 42 eq_refl (NoDup_seqZ 1 99) Hd
           (bool_decide_unpack (42 ∈ delegate_ids) I)).
Defined.

Lemma next_producible_witness : exists r,
  get_next_producible_block_timestamp sample_head [150; 42] = Ok r /\ is_Some r.
Proof.
  destruct (next_producible sample_head [150; 42] delegate_ids eq_refl eq_refl) as (r & R & Hr & _).
  - vm_compute. discriminate.
  - vm_compute. reflexivity.
  - exists r. split; [exact R |]. apply Hr. exists 42.
    split; [right; left | exact (bool_decide_unpack (42 ∈ delegate_ids) I)].
Defined.

(** The delegate 51 signs the slot after two that were missed. *)
Definition sample_header : SignedBlockHeader :=
  mkSignedBlockHeader 0 8 1499999990 0 77 0 351.
Definition after_production :=
  snd (update_delegate_production_info sample_head sample_header 1234 351 (over sample_head)).
Lemma production_runs :
  update_delegate_production_info sample_head sample_header 1234 351 (over sample_head)
  = (Ok tt, after_production).
Proof.
  refine (run_fst (update_delegate_production_info sample_head sample_header 1234 351)
            (over sample_head) tt _).
  vm_compute. reflexivity.
Qed.

Lemma production_recorded_witness : exists signee a missed,
  get_delegate_entry_for_signee sample_head 351 = Ok signee /\
  get_account_entry (over sample_head) (account_id signee) = Some a /\
  accounts_become (production sample_header (account_id signee) missed) (over sample_head)
    after_production /\ List.length missed = 2%nat.
Proof.
  destruct (production_recorded sample_head sample_header 1234 351 (over sample_head) tt
              after_production head_own_ids) as (signee & a & active & missed & r & P1 & P2 & _ & _ & P3 & P4 & _).
  - vm_compute. discriminate.
  - vm_compute. reflexivity.
  - exact production_runs.
  - exists signee, a, missed. do 3 (split; [assumption |]).
    apply Forall2_length in P3. rewrite <- P3. vm_compute. reflexivity.
Defined.

Definition after_pay := snd (pay_delegate sample_head 351 (over sample_head)).
Lemma pay_runs : pay_delegate sample_head 351 (over sample_head) = (Ok tt, after_pay).
Proof.
  refine (run_fst (pay_delegate sample_head 351) (over sample_head) tt _). vm_compute. reflexivity.
Qed.

Lemma pay_conserves_witness :
  surplus after_pay 0 = surplus (over sample_head) 0 /\
  option_map pay_of (get_account_entry after_pay 51) = Some 250001.
Proof.
  split; [| vm_compute; reflexivity].
  destruct (pay_conserves sample_head 351 (over sample_head) tt after_pay 0 head_own_ids pay_runs)
    as (base & signee & a & d & k & Hb & Hs & Ha & Hd & E & Hk).
  assert (Some base = Some (set_collected_fees 241920 (base_asset 242920))) as Eb
    by (rewrite <- Hb; vm_compute; reflexivity).
  assert (Ok (Some signee) = Ok (Some (sample_delegate 51))) as Es
    by (rewrite <- Hs; vm_compute; reflexivity).
  injection Eb as ->. injection Es as ->.
  assert (Some a = Some (sample_delegate 51)) as Ea by (rewrite <- Ha; vm_compute; reflexivity).
  injection Ea as ->. injection Hd as <-.
  destruct Hk as [-> _]; [vm_compute; split; discriminate .. |].
  rewrite E. apply Z.add_0_r.
Defined.

(** ** Blocks *)

#[local] Instance sample_node : NodeParams := {|
  checkpoint_blocks := ∅;
  last_checkpoint_block_num := 0;
  verify_transaction_signatures := true;
  generating_block := false;
  client_fee := None
|}.

(** 1205 pays 400 to 1206, and nobody has signed for it. *)
Definition unsigned_payment : SignedTransaction :=
  sample_trx [OpWithdraw (mkWithdrawOperation 1205000000 450 []);
              OpDeposit (mkDepositOperation 400 (common_condition 1206))] [].
Definition chain_block (prev num time : Z) (key : PublicKeyType) (trxs : list SignedTransaction)
    : FullBlock :=
  mkFullBlock (mkSignedBlockHeader prev num time (ids_digest (map trx_id trxs)) 77 0 key) trxs.
(** One block on genesis with the payment, and a longer fork. *)
Definition paid_block : FullBlock := chain_block 0 1 1499999990 351 [unsigned_payment].
Definition fork_block1 : FullBlock := chain_block 0 1 1499999980 350 [].
Definition fork_block2 : FullBlock := chain_block (block_id fork_block1) 2 1500000000 352 [].

Definition genesis_chain (forks : ForkDb) : ChainDatabase :=
  mkChainDatabase sample_chain forks 0 empty_header ∅ ∅ 0 ∅ None ∅ ∅ None false 1000.
Definition forked : ChainDatabase := genesis_chain (run_store [paid_block; fork_block1; fork_block2]).
Definition on_paid : ChainDatabase := snd (extend_chain paid_block forked).

Lemma in_items {A} (m : gmap Z A) k a : m !! k = Some a -> In (k, a) (map_to_list m).
Proof. intros E. now apply list_elem_of_In, elem_of_map_to_list. Qed.

(** No stored block can be linked. *)
Lemma none_linked db :
  forallb (fun item : BlockIdType * FullBlock => negb (can_link (look db (fst item))))
    (map_to_list (full_blocks db)) = true ->
  forall x b, full_blocks db !! x = Some b -> can_link (look db x) = false.
Proof.
  intros Hb x b Hx. rewrite forallb_forall in Hb. now apply negb_true_iff, (Hb (x, b)), in_items.
Qed.

(** Accounts with keys *)
Lemma wf_accounts (t : ChainTables) :
  forallb (fun item : Z * AccountEntry =>
    negb (bool_decide (active_key_history (snd item) = ∅)) &&
    match delegate_info (snd item) with
    | Some d => negb (bool_decide (signing_key_history d = ∅))
    | None => true
    end) (map_to_list (tables t KAccount)) = true -> accounts_wf t.
Proof.
  intros Hb id a E. rewrite forallb_forall in Hb.
  specialize (Hb (id, a) (in_items (A := AccountEntry) _ _ _ E)). cbn [snd] in Hb. to_prop.
  split; [assumption |]. intros d Hd. rewrite Hd in *. to_prop. assumption.
Qed.

(** Numbers that grow are found by comparing all blocks. *)
Definition orderly_blocks (db : ForkDb) : bool :=
  forallb (fun item : BlockIdType * FullBlock =>
    (0 <? block_num (header (snd item))) &&
    forallb (fun c : BlockIdType * FullBlock => negb (previous (header (snd c)) =? fst item)
               || (block_num (header (snd item)) <? block_num (header (snd c))))
      (map_to_list (full_blocks db))) (map_to_list (full_blocks db)).
Lemma orderly_list db : orderly_blocks db = true -> orderly db.
Proof.
  intros Hb id b E. unfold orderly_blocks in Hb. rewrite forallb_forall in Hb.
  specialize (Hb _ (in_items _ _ _ E)). cbn [fst snd] in Hb. apply andb_true_iff in Hb as [Hn Hc].
  to_prop. split; [lia |]. intros c bc Hc' Hp. rewrite forallb_forall in Hc.
  specialize (Hc _ (in_items _ _ _ Hc')). cbn [fst snd] in Hc. rewrite Hp, Z.eqb_refl in Hc. cbn in Hc. to_prop. lia.
Qed.

(** No block has a number more than an hour above [floor]. *)
Definition near_blocks (floor : Z) (db : ForkDb) : bool :=
  forallb (fun item : BlockIdType * FullBlock =>
    block_num (header (snd item)) <=? floor + ALP_BLOCKCHAIN_MAX_UNDO_HISTORY) (map_to_list (full_blocks db)).
Lemma near_list floor db id b : near_blocks floor db = true -> full_blocks db !! id = Some b ->
  block_num (header b) <= floor + ALP_BLOCKCHAIN_MAX_UNDO_HISTORY.
Proof.
  intros Hb E. unfold near_blocks in Hb. rewrite forallb_forall in Hb.
  specialize (Hb _ (in_items _ _ _ E)). cbn [snd] in Hb. to_prop. assumption.
Qed.

(** The genesis block is an anchor. *)
Lemma secure_near d : chain_inv d -> undo_above 0 d -> orderly_blocks (db_forks d) = true ->
  near_blocks 0 (db_forks d) = true -> secure 0 0 d.
Proof.
  intros Hi Hu Ho Hn. split; [exact Hi | exact (orderly_list _ Ho) | | exact Hu | split; [| | now left]].
  - intros id b Hb _. exact (near_list _ _ _ _ Hn Hb).
  - destruct (inv_branch _ Hi) as (l & _ & Hinc). apply Hinc. now left.
  - unfold number_at. now rewrite (proj1 (tree_genesis _ (ok_tree _ (inv_ok _ Hi)))).
Qed.

Lemma sample_accounts_wf : accounts_wf sample_chain.
Proof. apply wf_accounts. vm_compute. reflexivity. Qed.

(** A block tree whose blocks are not included. *)
Definition none_included (db : ForkDb) : bool :=
  forallb (fun item => (fst item =? 0) || negb (is_included (snd item))) (map_to_list (fork_db db)).
Lemma genesis_inv forks : tree forks -> none_included forks = true ->
  is_included (look forks 0) = true -> chain_inv (genesis_chain forks) /\ undo_above 0 (genesis_chain forks).
Proof.
  intros T Hn H0. unfold none_included in Hn. rewrite forallb_forall in Hn.
  assert (forall x, is_included (look forks x) = true -> x = 0) as Hx.
  { intros x Hx. unfold look in Hx. destruct (fork_db forks !! x) as [d |] eqn:E; [| discriminate].
    specialize (Hn _ (in_items _ _ _ E)). cbn in Hn, Hx. rewrite Hx, orb_false_r in Hn. now apply Z.eqb_eq. }
  split; [split |].
  - split; [exact T | apply sample_accounts_wf].
  - left. now split.
  - exists []. split; [constructor |]. intros x. cbn. split; [left; auto |].
    intros [-> | Hin]; [exact H0 | set_solver].
  - intros i u E. cbn in E. now rewrite lookup_empty in E.
  - split; cbn; [lia | | intros n i E; now rewrite lookup_empty in E].
    intros x b Hb _ ->%Hx. destruct (tree_genesis _ T). congruence.
Qed.

Lemma forked_inv : chain_inv forked /\ undo_above 0 forked.
Proof.
  apply genesis_inv; [apply sample_tree; distinct | vm_compute; reflexivity ..].
Qed.
Lemma paid_arrived : arrived forked paid_block.
Proof. split; vm_compute; reflexivity. Qed.
Lemma paid_runs : extend_chain paid_block forked = (Ok tt, on_paid).
Proof. refine (run_fst (extend_chain paid_block) forked tt _). vm_compute. reflexivity. Qed.

(** Two runs of a program are the same; the states are not looked into. *)
Lemma runs_alike {S A} (m : M S A) s r1 s1 r2 s2 : m s = (r1, s1) -> m s = (r2, s2) -> r1 = r2 /\ s2 = s1.
Proof. intros ->. now intros [= -> ->]. Qed.

Lemma extend_chain_spec_witness : exists p, accepted paid_block p forked on_paid.
Proof.
  destruct (extend_chain_spec paid_block forked (inv_ok _ (proj1 forked_inv)) paid_arrived)
    as [(e & d' & E & _) | (p & d' & E & Ha)];
    destruct (runs_alike _ _ _ _ _ _ paid_runs E) as [Er Es]; [discriminate Er |].
  subst d'. exists p. exact Ha.
Defined.

Lemma entries_of t k (p : key_type k -> val_type k -> bool) : all_entries t k p = true ->
  forall id v, db_lookup k t id = Some v -> p id v = true.
Proof.
  intros Hb id v. cbn [db_lookup chain_tables_interface]. rewrite cdb_lookup_table. intros E.
  apply elem_of_map_to_list in E. unfold all_entries in Hb. rewrite forallb_forall in Hb.
  now apply (Hb (id, v)), list_elem_of_In.
Qed.

Lemma sample_sound : sound_state 5 sample_chain.
Proof.
  split; [split | | |]; cbn [current_state evaluation_of];
    unfold get_balance_entry, get_account_entry, get_asset_entry, entry_lookup.
  - intros id v E. apply Z.eqb_eq. revert id v E.
    apply (entries_of sample_chain KBalance (fun id b => balance_id b =? id)); vm_compute; reflexivity.
  - intros id v E. apply Z.eqb_eq. revert id v E.
    apply (entries_of sample_chain KAccount (fun id a => account_id a =? id)); vm_compute; reflexivity.
  - intros id v E. apply Z.eqb_eq. revert id v E.
    apply (entries_of sample_chain KAsset (fun id a => ast_id a =? id)); vm_compute; reflexivity.
  - apply (entries_of sample_chain KBalance (fun id b => depositable (condition b))); vm_compute; reflexivity.
  - intros id v E. assert ((0 <=? current_share_supply v) && (current_share_supply v <=? 10 ^ 9) = true) as Hs
      by (revert id v E; apply (entries_of sample_chain KAsset
            (fun id a => (0 <=? current_share_supply a) && (current_share_supply a <=? 10 ^ 9)));
          vm_compute; reflexivity).
    to_prop. unfold in_i64, INT64_MIN, INT64_MAX. lia.
  - intros i. apply zero_in_i64.
  - exists 99. split; [vm_compute; reflexivity |]. split; [lia |]. split; [cbn; lia |].
    assert (forall id v, db_lookup KAccount sample_chain id = Some v -> (id <=? 99) = true) as Hall
      by (apply (entries_of sample_chain KAccount (fun id a => id <=? 99)); vm_compute; reflexivity).
    intros id Hid. apply not_eq_None_Some in Hid as [v E]. now apply Z.leb_le, (Hall id v).
Qed.

(** The payment was in the block and nobody signed it. *)
Lemma block_conserves_witness :
  option_map balance (get_balance_entry (db_tables on_paid) 1205000000) = Some 150 /\
  sound_state 5 (db_tables on_paid) /\
  exists k, surplus (db_tables on_paid) 0 = surplus (db_tables forked) 0 + k * 2 ^ 64.
Proof.
  split; [vm_compute; reflexivity |].
  refine (block_conserves paid_block forked on_paid 5 0 (inv_ok _ (proj1 forked_inv)) paid_arrived _ _
            sample_sound paid_runs).
  - split; vm_compute; [discriminate | reflexivity].
  - apply Forall_singleton. split; [discriminate | reflexivity].
Defined.

Lemma extend_pop_witness : exists d2, pop_block on_paid = (Ok tt, d2) /\
  option_map balance (get_balance_entry (db_tables d2) 1205000000) = Some 600 /\
  head_block_id d2 = 0.
Proof.
  assert (block_num (header paid_block) <> 0) as Hn by (cbn; discriminate).
  assert (min_undo_block forked <= block_num (header paid_block)) as Hm by (cbn; discriminate).
  pose proof (extend_pop paid_block forked on_paid (inv_ok _ (proj1 forked_inv))
              (inv_head _ (proj1 forked_inv)) paid_arrived Hn Hm paid_runs) as Hex.
  destruct Hex as (d2 & R & _ & Hs & Hh & _).
  exists d2. split; [exact R | split; [| exact Hh]].
  unfold get_balance_entry, entry_lookup.
  rewrite (Hs KBalance 1205000000 eq_refl eq_refl). vm_compute. reflexivity.
Defined.

(** *** Switching to the longer fork *)

Lemma on_paid_inv : chain_inv on_paid /\ undo_above 0 on_paid.
Proof.
  destruct forked_inv as [Hi Hu].
  destruct (extend_chain_run paid_block forked (inv_ok _ Hi) paid_arrived)
    as [(e & d' & E & _) | (p & d' & E & Ha)];
    destruct (runs_alike _ _ _ _ _ _ paid_runs E) as [Er Es]; [discriminate Er | subst d'].
  assert (block_id paid_block <> 0) as H0 by (vm_compute; discriminate).
  destruct (accepted_inv 0 paid_block p forked on_paid H0 Hi paid_arrived Ha) as (Hi1 & _ & He & _).
  split; [exact Hi1 |]. apply (ev_undo _ _ _ He 0); [| exact Hu].
  intros id b Hb _. refine (near_list 0 _ id b _ Hb). vm_compute. reflexivity.
Qed.

Definition on_fork : ChainDatabase := snd (switch_to_fork (block_id fork_block2) on_paid).
Lemma switch_runs : switch_to_fork (block_id fork_block2) on_paid = (Ok tt, on_fork).
Proof.
  refine (run_fst (switch_to_fork (block_id fork_block2)) on_paid tt _). vm_compute. reflexivity.
Qed.

Lemma switch_to_fork_spec_witness :
  chain_inv on_fork /\ head_block_id on_fork = block_id fork_block2 /\
  option_map balance (get_balance_entry (db_tables on_fork) 1205000000) = Some 600.
Proof.
  assert (numbered (db_forks on_paid)) as Hn
    by (apply orderly_numbered, orderly_list; vm_compute; reflexivity).
  assert (is_Some (full_blocks (db_forks on_paid) !! block_id fork_block2)) as Hb
    by (exists fork_block2; vm_compute; reflexivity).
  assert (can_link (look (db_forks on_paid) (block_id fork_block2)) = true) as Hc
    by (vm_compute; reflexivity).
  assert (secure 0 0 on_paid) as Hs
    by (apply secure_near; [apply on_paid_inv | apply on_paid_inv | vm_compute; reflexivity ..]).
  destruct (switch_to_fork_spec (block_id fork_block2) on_paid (proj1 on_paid_inv) Hn Hb Hc)
    as (r & d' & R & Hi & He).
  { intros l Hl. apply (undo_to 0 0); [exact Hs |].
    apply (leaves_above 0 0 (block_id fork_block2) fork_block2 l on_paid Hs); [.. | exact Hl];
      vm_compute; reflexivity. }
  destruct (runs_alike _ _ _ _ _ _ switch_runs R) as [<- Es]. subst d'.
  split; [exact Hi | split; [exact He | vm_compute; reflexivity]].
Defined.

(** *** Pushing the missing link of the longer fork *)

Definition waiting : ChainDatabase := genesis_chain (run_store [fork_block2]).
Definition pushed : ChainDatabase := snd (push_block fork_block1 waiting).

Lemma waiting_inv : chain_inv waiting /\ undo_above 0 waiting.
Proof. apply genesis_inv; [apply sample_tree; distinct | vm_compute; reflexivity ..]. Qed.
Lemma waiting_highest : head_highest waiting.
Proof.
  intros x bx Hx Hc. rewrite (none_linked (db_forks waiting) eq_refl x bx Hx) in Hc. discriminate Hc.
Qed.

(** *** Whether a block may be pushed is computed *)

(** A block without entry, or one that others wait for *)
Definition waited_for (d : ChainDatabase) (b : FullBlock) : bool :=
  bool_decide (full_blocks (db_forks d) !! block_id b = None) &&
  negb (is_known (look (db_forks d) (block_id b))) &&
  (bool_decide (fork_db (db_forks d) !! block_id b = None)
   || negb (bool_decide (children (db_forks d) (block_id b) = ∅))).
(** The block [c] is met on the way from [id] to genesis. *)
Fixpoint comes_after (fuel : nat) (db : ForkDb) (c id : BlockIdType) : bool :=
  (id =? c) ||
  (negb (id =? 0) &&
   match fuel, full_blocks db !! id with
   | Datatypes.S n, Some b => comes_after n db c (previous (header b))
   | _, _ => false
   end).
Lemma comes_after_branch c : c <> 0 -> forall n db id l, comes_after n db c id = true -> branch db id l -> c ∈ l.
Proof.
  intros H0. induction n as [| n IH]; intros db id l Hb Hl; cbn [comes_after] in Hb;
    apply orb_true_iff in Hb as [Hb%Z.eqb_eq | Hb];
    try (subst id; inversion Hl; subst; [congruence | set_solver]);
    apply andb_true_iff in Hb as [Hne%negb_true_iff%Z.eqb_neq Hb]; [discriminate |].
  inversion Hl as [| i b l' Hb' Hi Hl']; subst; [congruence |].
  rewrite Hb' in Hb. specialize (IH db _ l' Hb Hl'). set_solver.
Qed.

(** The blocks above the floor come after the anchor. *)
Definition above_anchor_list (floor : Z) (c : BlockIdType) (d : ChainDatabase) (b : FullBlock) : bool :=
  forallb (fun item : BlockIdType * FullBlock =>
    invalid (look (db_forks d) (fst item)) || (block_num (header (snd item)) <=? floor) ||
    (c =? 0) || comes_after 10 (with_block b (db_forks d)) c (fst item))
    (map_to_list (full_blocks (with_block b (db_forks d)))).
Definition may_push (floor : Z) (c : BlockIdType) (d : ChainDatabase) (b : FullBlock) : bool :=
  waited_for d b &&
  (block_num (head_block_header d) <? block_num (header b) + ALP_BLOCKCHAIN_MAX_UNDO_HISTORY) &&
  orderly_blocks (with_block b (db_forks d)) && near_blocks floor (with_block b (db_forks d)) &&
  (can_link (look (db_forks d) (previous (header b))) || bool_decide (future_blocks d = ∅)) &&
  is_included (look (db_forks d) c) && (number_at (db_forks d) c =? floor) &&
  above_anchor_list floor c d b && ((floor <=? 0) || follows floor d b).
Lemma may_push_pushable floor c d b : may_push floor c d b = true -> pushable floor c d b.
Proof.
  unfold may_push, waited_for. intros Hb.
  repeat match goal with H : _ && _ = true |- _ => apply andb_true_iff in H; destruct H end.
  split.
  - split; [apply (bool_decide_eq_true_1 _); assumption | split; [now apply negb_true_iff |]].
    match goal with H : _ || negb _ = true |- _ => apply orb_true_iff in H as [E | E] end;
      [left; exact (bool_decide_eq_true_1 _ E) | right].
    apply negb_true_iff in E. exact (bool_decide_eq_false_1 _ E).
  - now apply Z.ltb_lt.
  - now apply orderly_list.
  - match goal with H : _ || bool_decide _ = true |- _ => apply orb_true_iff in H as [E | E] end;
      [now left | right; exact (bool_decide_eq_true_1 _ E)].
  - split; [assumption | now apply Z.eqb_eq].
  - intros x bx l Hx Hi Hl Hn. split; [eapply near_list; eassumption |].
    match goal with H : above_anchor_list _ _ _ _ = true |- _ => unfold above_anchor_list in H;
      rewrite forallb_forall in H; specialize (H _ (in_items _ _ _ Hx)) as E end.
    cbn [fst snd] in E. rewrite Hi in E. cbn [orb] in E.
    assert ((block_num (header bx) <=? floor) = false) as En by now apply Z.leb_gt.
    rewrite En in E. cbn [orb] in E.
    destruct (Z.eqb_spec c 0) as [-> | Hc]; [now left | right]. exact (comes_after_branch c Hc 10 _ _ _ E Hl).
  - match goal with H : (floor <=? 0) || _ = true |- _ => apply orb_true_iff in H as [E | E] end;
      [left; now apply Z.leb_le | now right].
Qed.

Lemma push_block_highest_witness :
  chain_inv pushed /\ head_highest pushed /\ head_block_id pushed = block_id fork_block2.
Proof.
  assert (pushable 0 0 waiting fork_block1) as P by (apply may_push_pushable; vm_compute; reflexivity).
  destruct (push_block_highest 0 0 fork_block1 waiting (proj1 waiting_inv) (proj2 waiting_inv)
              waiting_highest P) as (r & d' & R & Hi & _ & _ & Hr).
  assert (exists fd, push_block fork_block1 waiting = (Ok fd, pushed)) as [fd Rp].
  { eexists. refine (run_fst (push_block fork_block1) waiting _ _). vm_compute. reflexivity. }
  destruct (runs_alike _ _ _ _ _ _ Rp R) as [<- Es]. subst d'.
  split; [exact Hi | split; [exact Hr | vm_compute; reflexivity]].
Defined.

(** *** A block that waits for its time *)

(** A block on [fork_block1] that came before its time, and one without parent *)
Definition early_block : FullBlock := chain_block (block_id fork_block1) 2 1500000900 352 [].
Definition orphan_block : FullBlock := chain_block 999 5 1500000000 352 [].
Definition after_early : ChainDatabase :=
  snd ((push_block fork_block1 ;;; push_block early_block) (genesis_chain (run_store []))).
Definition after_orphan : ChainDatabase := snd (push_block orphan_block after_early).

(** Pushing an orphan forgets that the blocks that came early are invalid,
    without trying them: the early block can be linked and is higher than the
    head, which stays where it is.  [push_linked] excludes this. *)
Example orphan_leaves_head_behind :
  (exists fd, fst (push_block orphan_block after_early) = Ok fd) /\
  head_block_id after_orphan = block_id fork_block1 /\ ~ head_highest after_orphan.
Proof.
  split; [eexists; vm_compute; reflexivity | split; [vm_compute; reflexivity |]]. intros Hh.
  assert (block_num (header early_block) <= block_num (head_block_header after_orphan)) as Hle
    by (apply (Hh (block_id early_block) early_block); vm_compute; reflexivity).
  revert Hle. vm_compute. intros Hle. now apply Hle.
Qed.

(** The payment that nobody signed is refused on its own and applied in a block. *)
Example unsigned_payment_in_block :
  fst (evaluate_transaction unsigned_payment true (mkEvalContext new_evaluation_state (over sample_chain)))
    = Err missing_signature /\
  fst (extend_chain paid_block forked) = Ok tt /\
  option_map balance (get_balance_entry (db_tables on_paid) 1206000000) = Some 800.
Proof. split; [| split]; vm_compute; reflexivity. Qed.
