(* ===== verification/PendingSamples.v ===== *)
(** * A sample queue

    Two payments wait, and a block is made of them. *)

From Stdlib Require Import ZArith Lia Bool String.
From stdpp Require Import base gmap strings list fin_sets sorting.
From S2P Require Import Prelude Asset Entries Names ChainInterface ChainState AssetEntry.
From S2P Require Import EvalState BalanceOperations ContractOperations Evaluate AccountForms.
From S2P Require Import Blocks ForkDatabase ForkSamples PendingChainState Undo ChainTables.
From S2P Require Import ChainDatabase Pending LedgerTables TransferCheck PendingLaws BlockSamples.

Local Open Scope Z_scope.

#[local] Existing Instance reference_params.
#[local] Existing Instance reference_clock.
#[local] Existing Instance reference_vm.
#[local] Existing Instance sample_node.
#[local] Instance sample_packing : PackParams := {|
  block_data_size b := 160 + 200 * Z.of_nat (List.length (user_transactions b))
|}.

Definition rich_chain : ChainTables :=
  table_store KBalance 1205000000 (sample_balance 1205 60000) sample_chain.
Definition rich_database : ChainDatabase :=
  mkChainDatabase rich_chain genesis_forks 0 empty_header ∅ ∅ 0 ∅ None ∅ ∅ None false 1000.
(** 1205 pays 400 to 1206, with a fee of what is left; [id] is its identifier. *)
Definition offer (id withdrawn : Z) : SignedTransaction :=
  mkSignedTransaction id None "" (mkAsset 0 0)
    [OpWithdraw (mkWithdrawOperation 1205000000 withdrawn []);
     OpDeposit (mkDepositOperation 400 (common_condition 1206))] origin_transaction 0 [205].
Definition queued : ChainDatabase :=
  snd ((store_pending_transaction (offer 1500000100 2500) false false false ;;;
        store_pending_transaction (offer 1500000110 3500) false false false) rich_database).

(** The higher fee comes first. *)
Example queue_by_fee : map (fun e => (trx_id (es_trx e), fees_of e)) (get_pending_transactions queued) =
  [(1500000110, 3100); (1500000100, 2100)].
Proof. vm_compute. reflexivity. Qed.

Lemma rich_wf : accounts_wf rich_chain.
Proof. apply wf_accounts. vm_compute. reflexivity. Qed.

Lemma generate_block_spec_witness : exists b,
  generate_block default_delegate_config (fun _ => 0) 1500000010 queued = (Ok b, queued) /\
  map trx_id (user_transactions b) = [1500000110; 1500000100] /\
  block_num (header b) = 1 /\ validate_digest (digest_block b) = true.
Proof.
  assert (accounts_wf (db_tables queued)) as Hw by (apply wf_accounts; vm_compute; reflexivity).
  destruct (generate_block_spec default_delegate_config (fun _ => 0) 1500000010 queued Hw) as (r & R & Hr).
  assert (match fst (generate_block default_delegate_config (fun _ => 0) 1500000010 queued) with
          | Ok b => bool_decide (map trx_id (user_transactions b) = [1500000110; 1500000100])
          | Err _ => false
          end = true) as Hids by (vm_compute; reflexivity).
  rewrite R in Hids. destruct r as [b | x]; [| discriminate]. apply bool_decide_eq_true in Hids.
  exists b. split; [exact R | split; [exact Hids |]]. destruct Hr as (_ & Hn & _ & Hd & _).
  split; [rewrite Hn; vm_compute; reflexivity | exact Hd].
Defined.

Lemma check_asset_transfer_spec_witness :
  check_asset_transfer rich_chain (offer 1 2500) = true /\ proper_transfer rich_chain (offer 1 2500).
Proof.
  assert (check_asset_transfer rich_chain (offer 1 2500) = true) as Hc by (vm_compute; reflexivity).
  split; [exact Hc |].
  apply (proj2 (check_asset_transfer_spec rich_chain (offer 1 2500) _ _ eq_refl));
    [reflexivity | | vm_compute; discriminate | vm_compute; discriminate | reflexivity | exact Hc].
  repeat (constructor; [cbn; lia |]). constructor.
Defined.

(** A payment to two balances is passed over, and taken when it begins with
    another operation. *)
Example other_operation_passes :
  let pay := operations (offer 1 2500) ++ [OpDeposit (mkDepositOperation 400 (common_condition 1207))] in
  let trx ops := set_operations ops (offer 1 2500) in
  check_asset_transfer rich_chain (trx pay) = false /\
  check_asset_transfer rich_chain (trx (OpUpdateSigningKey (mkUpdateSigningKeyOperation 5 300) :: pay)) = true.
Proof. split; vm_compute; reflexivity. Qed.
