(* ===== verification/GenesisSamples.v ===== *)
(** * A sample genesis file

    Ninety-nine delegates and three balances, two of them of one address; then
    a block, a fork that takes its place, and one more block. *)

From Stdlib Require Import ZArith Lia Bool String.
From stdpp Require Import base gmap strings list fin_sets.
From S2P Require Import Prelude Asset Entries Names Addresses ChainInterface ChainState.
From S2P Require Import Conservation Blocks ForkDatabase ForkTree ForkSamples PendingChainState ChainTables.
From S2P Require Import ChainDatabase LedgerTables BlockEffects ChainExtension ForkSwitch Anchor PushBlock.
From S2P Require Import EvalState Evaluate Transactions AccountForms Delegates DelegateLists ChainLedger Genesis Reached BlockSamples.
From S2P Require Import ChainIndex Queries FindBlock QueryLaws.

Local Open Scope Z_scope.

#[local] Existing Instance reference_params.
#[local] Existing Instance reference_clock.
#[local] Existing Instance reference_vm.
#[local] Existing Instance sample_codec.
#[local] Existing Instance sample_codec_laws.
#[local] Existing Instance sample_node.

Definition sample_genesis : GenesisState :=
  mkGenesisState 1499999900 [mkGenesisAsset "CNY" "Yuan" "" 100000]
    (map (fun i => mkGenesisDelegate "delegate" (i + 300)) delegate_ids)
    [mkGenesisBalance (address_to_string 1205 alp_address) 600;
     mkGenesisBalance (address_to_string 1206 alp_address) 300;
     mkGenesisBalance (address_to_string 1205 alp_address) 100]
    (mkGenesisReserveBalances 0 0 []).

Lemma sample_genesis_good : good_genesis 1000 sample_genesis.
Proof.
  split; [discriminate | vm_compute; discriminate | vm_compute; reflexivity | reflexivity | | | discriminate].
  - cbn [initial_balances sample_genesis]. repeat (constructor; [cbn; lia |]). constructor.
  - cbn [initial_balances sample_genesis].
    repeat (constructor; [eexists; vm_compute; reflexivity |]). constructor.
Qed.

Lemma genesis_establishes_witness : exists d,
  initialize_genesis sample_genesis 77 true (empty_database 1000) = (Ok 77, d) /\
  chain_inv d /\ shares_held 0 (db_tables d) = 1000.
Proof.
  destruct (genesis_establishes 1000 sample_genesis 77 true 1000 sample_genesis_good)
    as (d & R & Hi & _ & _ & _ & _ & Hs).
  exists d. split; [exact R | split; [exact Hi |]]. rewrite Hs. reflexivity.
Defined.

(** ** Four blocks on the genesis state *)

(** No stored block registers an account, and what they pay settles. *)
Definition plainly_settles (trx : SignedTransaction) : bool :=
  negb (is_result trx) && negb (ignores_required_fee trx).
Definition payable_blocks_list (db : ForkDb) : bool :=
  forallb (fun item : BlockIdType * FullBlock =>
    forallb plainly_settles (user_transactions (snd item)) &&
    Nat.eqb (registered (user_transactions (snd item))) 0 &&
    (0 <=? timestamp (header (snd item))) && (timestamp (header (snd item)) + interval <? 2 ^ 32))
    (map_to_list (full_blocks db)).
Lemma payable_list room db : payable_blocks_list db = true -> payable room db.
Proof.
  intros Hb. assert (forall id b, full_blocks db !! id = Some b ->
    Forall settles (user_transactions b) /\ timely (header b) /\ registered (user_transactions b) = 0%nat) as Hall.
  { intros id b E. unfold payable_blocks_list in Hb. rewrite forallb_forall in Hb.
    specialize (Hb _ (in_items _ _ _ E)). cbn [snd] in Hb.
    apply andb_true_iff in Hb as [Hb H4], Hb as [Hb H3], Hb as [H1 H2].
    split; [| split; [split; to_prop; lia | now apply Nat.eqb_eq]].
    apply Forall_forall. intros t Ht%list_elem_of_In. rewrite forallb_forall in H1.
    specialize (H1 t Ht). apply andb_true_iff in H1 as [Hr%negb_true_iff Hf%negb_true_iff].
    split; [congruence | exact Hf]. }
  split; [intros id b E; destruct (Hall id b E) as (H1 & H2 & _); auto |].
  intros id l _. enough (branch_registers db l = 0%nat) as -> by lia.
  induction l as [| x l IH]; [reflexivity |].
  change (branch_registers db (x :: l)) with
    ((match full_blocks db !! x with Some b => registered (user_transactions b) | None => 0 end
      + branch_registers db l)%nat).
  rewrite IH. destruct (full_blocks db !! x) eqn:E; [now rewrite (proj2 (proj2 (Hall _ _ E))) | reflexivity].
Qed.

Definition began : ChainDatabase := snd (initialize_genesis sample_genesis 77 true (empty_database 1000)).
Definition paid : ChainDatabase := snd (push_block paid_block began).
Definition torn : ChainDatabase := snd (push_block fork_block2 paid).
Definition joined : ChainDatabase := snd (push_block fork_block1 torn).

(** The block that comes after the switch; no fork goes back below the first
    block of the new chain then. *)
Definition next_one : FullBlock := chain_block (block_id fork_block2) 3 1500000010 353 [].
Definition grown : ChainDatabase := snd (push_block next_one joined).

Lemma may_push_acceptable room floor c d b : may_push floor c d b = true ->
  payable_blocks_list (with_block b (db_forks d)) = true -> acceptable room floor c d b.
Proof. intros Hm Hp. split; [now apply may_push_pushable | now apply payable_list]. Qed.
Lemma pushes d b : match fst (push_block b d) with Ok _ => true | Err _ => false end = true ->
  exists fd, push_block b d = (Ok fd, snd (push_block b d)).
Proof. destruct (push_block b d) as [[fd |] d']; [cbn; eauto | discriminate]. Qed.

Lemma grown_reached : reached 1000 sample_genesis 1 grown.
Proof.
  destruct (pushes began paid_block) as [fd1 R1]; [vm_compute; reflexivity |].
  destruct (pushes paid fork_block2) as [fd2 R2]; [vm_compute; reflexivity |].
  destruct (pushes torn fork_block1) as [fd3 R3]; [vm_compute; reflexivity |].
  destruct (pushes joined next_one) as [fd4 R4]; [vm_compute; reflexivity |].
  assert (reached 1000 sample_genesis 0 began) as H0.
  { apply (reached_genesis _ _ 77 true 1000).
    refine (run_fst (initialize_genesis sample_genesis 77 true) (empty_database 1000) 77 _).
    vm_compute. reflexivity. }
  refine (reached_push _ _ 0 1 (block_id fork_block1) joined next_one fd4 _
           (reached_push _ _ 0 0 0 torn fork_block1 fd3 _
             (reached_push _ _ 0 0 0 paid fork_block2 fd2 _
               (reached_push _ _ 0 0 0 began paid_block fd1 _ H0 _ _ R1) _ _ R2) _ _ R3) _ _ R4);
    try lia; apply may_push_acceptable; vm_compute; reflexivity.
Qed.

(** The payment of the first block is taken back with it. *)
Lemma reached_conserves_witness : chain_inv grown /\ head_block_id grown = block_id next_one /\
  option_map balance (get_balance_entry (db_tables paid) 1205000000) = Some 250 /\
  option_map balance (get_balance_entry (db_tables grown) 1205000000) = Some 700 /\
  exists k, surplus (db_tables grown) 0 = k * 2 ^ 64.
Proof.
  destruct (reached_conserves 1000 sample_genesis 1 grown sample_genesis_good grown_reached) as [[Hi _ _ _ _] Hs].
  split; [exact Hi |]. split; [vm_compute; reflexivity |]. split; [vm_compute; reflexivity |].
  split; [vm_compute; reflexivity | apply Hs].
Defined.

(** ** Questions to the sample chain *)

Lemma supply_is_issued_witness : exists x, get_asset_entry (db_tables grown) 0 = Some x /\
  calculate_supply (db_tables grown) 0 = Ok (mkAsset (current_share_supply x) 0).
Proof.
  assert (match get_asset_entry (db_tables grown) 0 with
          | Some x => (INT64_MIN <=? collected_fees x) && (collected_fees x <=? INT64_MAX)
          | None => false
          end = true) as Hx by (vm_compute; reflexivity).
  destruct (get_asset_entry (db_tables grown) 0) as [x |] eqn:E; [| discriminate].
  exists x. split; [reflexivity |].
  apply (supply_is_issued 1000 sample_genesis 1 grown 0 x sample_genesis_good grown_reached E).
  apply andb_true_iff in Hx as [H1 H2]. unfold in_i64. to_prop. lia.
Defined.

Lemma find_block_num_last_witness : exists k, find_block_num grown 1500000008 = Ok k /\ k = 2.
Proof.
  pose proof (reached_agrees 1000 sample_genesis 1 grown sample_genesis_good grown_reached) as Ha.
  assert (get_head_block_num grown = 3 /\ chain_time grown 1 = 1499999980 /\ chain_time grown 2 = 1500000000 /\
          chain_time grown 3 = 1500000010) as (En & T1 & T2 & T3) by (vm_compute; repeat split).
  destruct (find_block_num_last grown 1500000008 (agrees_chain _ _ _ Ha) (agrees_index _ _ _ Ha)) as (k & R & Hk & Hcase);
    rewrite ?En, ?T1, ?T3; try lia.
  exists k. split; [exact R |]. rewrite En in *.
  destruct Hcase as [[Hle _] | [Hle Hnext]]; [rewrite T1 in Hle; lia |].
  assert (k = 1 \/ k = 2 \/ k = 3) as [-> | [-> | ->]] by lia; [| reflexivity |].
  - specialize (Hnext ltac:(lia)). change (1 + 1) with 2 in Hnext. rewrite T2 in Hnext. lia.
  - rewrite T3 in Hle. lia.
Defined.
