(* ===== verification/SyncClient.v ===== *)
(** * What a client tells the network of its chain (client/Client.cpp)

    get_blockchain_synopsis sums up the chain by the ids of a few blocks, ever
    closer to each other towards the head; get_item_ids answers such a sum
    with the ids of the blocks that follow it.  The asserts of the C library
    are left out, as in a release build. *)

From Stdlib Require Import ZArith Lia Bool String.
From stdpp Require Import base gmap strings list fin_sets.
From S2P Require Import Prelude Asset Entries Names Addresses ChainInterface ChainState AssetEntry.
From S2P Require Import EvalState ContractOperations.
From S2P Require Import Blocks ForkDatabase PendingChainState ChainTables Delegates ChainDatabase Genesis Queries.

Local Open Scope Z_scope.

Definition trx_message_type : Z := 1000.
Definition block_message_type : Z := 1001.

Definition ALP_BLOCKCHAIN_BLOCKS_PER_YEAR : Z := ALP_BLOCKCHAIN_BLOCKS_PER_DAY * 365.
(** (unsigned)( log2( .. ) ) *)
Definition _blockchain_synopsis_size_limit : Z := Z.log2 (ALP_BLOCKCHAIN_BLOCKS_PER_YEAR * 20).

(** The loop of a synopsis: [push] what belongs at a number, then half of the
    way to [true_high], while the number is at most [high].  Both loops that
    make synopses have this form.  A step at least halves what is left, so
    the bits of a uint32_t are enough fuel. *)
Fixpoint summarize (push : Z -> result (list BlockIdType)) (fuel : nat) (true_high high low : Z)
    : result (list BlockIdType) :=
  match fuel with
  | O => Err does_not_return
  | Datatypes.S f =>
      let! here := push low in
      let low := wrap_u32 (low + wrap_u32 (true_high - low + 2) / 2) in
      if low <=? high then let! rest := summarize push f true_high high low in Ok (here ++ rest)
      else Ok here
  end.
Definition summary_fuel : nat := 33.

(** An element of a vector; what is outside is not defined. *)
Definition vector_at (l : list BlockIdType) (i : Z) : result BlockIdType :=
  if i <? 0 then Err out_of_range
  else match nth_error l (Z.to_nat i) with Some x => Ok x | None => Err out_of_range end.

Section SyncClient.
Context `{ChainParams} `{BlockParams} `{Clock} `{NodeParams} `{GluaVM Pend}.

(** ** Handling a block *)

Definition has_item (self : ChainDatabase) (item_type : Z) (id : Z) : result bool :=
  if item_type =? block_message_type then Ok (is_known_block self id)
  else if item_type =? trx_message_type then
    let! entry := get_transaction (db_tables self) id true in Ok (is_some entry)
  else Ok false.
Definition get_block_time (self : ChainDatabase) (id : BlockIdType) : result time_point_sec :=
  if id =? 0 then get_genesis_timestamp (db_tables self)
  else match block_of self id with
       | Ok b => Ok (timestamp (header b))
       | Err e => if fc_exception e then Ok 0 else Err e
       end.

(** The block comes with the id its sender gives it. *)
Definition on_new_block (b : FullBlock) (id : BlockIdType) (sync_mode : bool) : M ChainDatabase BlockForkData :=
  d <- get ;;
  match get_block_fork_data d id with
  | Some fork_data =>
      if is_known fork_data then
        throw_if (sync_mode && negb (is_linked fork_data)) unlinkable_block ;;; ret fork_data
      else
        result <- push_block b ;;
        throw_if (sync_mode && negb (is_linked result)) unlinkable_block ;;; ret result
  | None =>
      result <- push_block b ;;
      throw_if (sync_mode && negb (is_linked result)) unlinkable_block ;;; ret result
  end.

(** ** Synopses *)

(** The number of the reference point, that of the last block of it on the
    chain, and the ids from there to the reference; nothing for an empty
    synopsis. *)
Definition synopsis_range (self : ChainDatabase) (reference_point : BlockIdType)
    : result (option (Z * Z * list BlockIdType)) :=
  if reference_point =? 0 then
    let high_block_num := get_head_block_num self in
    if high_block_num =? 0 then Ok None else Ok (Some (high_block_num, high_block_num, []))
  else if is_included_block self reference_point then
    match get_block_num self reference_point with
    | Ok num => Ok (Some (num, num, []))
    | Err key_not_found_exception => Ok None
    | Err e => Err e
    end
  else
    match fst (get_fork_history reference_point (db_forks self)) with
    | Ok history =>
        let last_non_fork_block := List.last history 0 in
        let fork_history := rev (removelast history) in
        let! non_fork_high_block_num :=
          if last_non_fork_block =? 0 then Ok 0
          else match get_block_num self last_non_fork_block with
               | Err key_not_found_exception => Ok 0
               | r => r
               end in
        Ok (Some (wrap_u32 (non_fork_high_block_num + Z.of_nat (List.length fork_history)),
                  non_fork_high_block_num, fork_history))
    | Err key_not_found_exception => Ok None
    | Err e => Err e
    end.

Definition get_blockchain_synopsis (self : ChainDatabase) (reference_point : BlockIdType)
    (number_of_blocks_after_reference_point : Z) : result (list BlockIdType) :=
  let! range := synopsis_range self reference_point in
  match range with
  | None => Ok []
  | Some (high_block_num, non_fork_high_block_num, fork_history) =>
      let push low_block_num :=
        if low_block_num <=? non_fork_high_block_num then
          let! b := block_at self low_block_num in Ok [block_id b]
        else let! id := vector_at fork_history (low_block_num - non_fork_high_block_num - 1) in Ok [id] in
      summarize push summary_fuel (wrap_u32 (high_block_num + number_of_blocks_after_reference_point))
        high_block_num 1
  end.

(** ** Answers *)

(** The first block of the reversed synopsis that is on the chain *)
Fixpoint last_seen (self : ChainDatabase) (synopsis : list BlockIdType) : result Z :=
  match synopsis with
  | [] => Ok 1
  | item_hash :: synopsis' =>
      match get_block_num self item_hash with
      | Ok block_num =>
          if is_included_block self item_hash then Ok block_num else last_seen self synopsis'
      | Err key_not_found_exception => last_seen self synopsis'
      | Err e => Err e
      end
  end.

(** The ids of [n] blocks from a number on; nothing when one is missing. *)
Fixpoint ids_from (self : ChainDatabase) (n : nat) (num : Z) : result (option (list BlockIdType)) :=
  match n with
  | O => Ok (Some [])
  | Datatypes.S n =>
      match block_id_at self num with
      | Ok id =>
          let! rest := ids_from self n (wrap_u32 (num + 1)) in
          Ok (match rest with Some ids => Some (id :: ids) | None => None end)
      | Err key_not_found_exception => Ok None
      | Err e => Err e
      end
  end.

Definition get_item_ids_limit : Z := 2000.
Definition get_item_ids (self : ChainDatabase) (item_type : Z) (blockchain_synopsis : list BlockIdType)
    (limit : Z) : result (list BlockIdType * Z) :=
  if negb (item_type =? block_message_type) then Err assert_exception
  else if _blockchain_synopsis_size_limit <? Z.of_nat (List.length blockchain_synopsis)
  then Err unspecified_exception
  else
    let! last_seen_block_num := last_seen self (rev blockchain_synopsis) in
    let head_block_num := get_head_block_num self in
    if head_block_num =? 0 then Ok ([], 0)
    else
      let last_seen_block_num := if head_block_num <? last_seen_block_num then head_block_num
                                 else last_seen_block_num in
      let remaining_item_count := wrap_u32 (head_block_num - last_seen_block_num + 1) in
      let items_to_get := Z.min limit remaining_item_count in
      let! ids := ids_from self (Z.to_nat items_to_get) last_seen_block_num in
      match ids with
      | Some hashes => Ok (hashes, remaining_item_count - items_to_get)
      | None => Ok ([], 0)
      end.
End SyncClient.
