(* ===== verification/SyncNode.v ===== *)
(** * Synchronisation of a node with its peers (net/Node.cpp)

    What a node knows of each peer's chain, which blocks it asked of whom, and
    the messages by which it fetches the blocks it does not have.  A handler
    is a step: where the code may yield inside one, for the client or the
    socket, the model does not.  Clocks of requests, the peer database, the
    message cache and the reports to the user are left out. *)

From Stdlib Require Import ZArith Lia Bool String.
From stdpp Require Import base gmap strings list fin_sets.
From S2P Require Import Prelude Asset Entries Names Addresses ChainInterface ChainState AssetEntry.
From S2P Require Import EvalState ContractOperations.
From S2P Require Import Blocks ForkDatabase PendingChainState ChainTables Delegates ChainDatabase Genesis Queries.
From S2P Require Import Pending SyncClient.

Local Open Scope Z_scope.

Definition ALP_NET_FUTURE_SYNC_BLOCKS_GRACE_PERIOD_SEC : Z := 60 * 60.
Definition ALP_NET_MAX_BLOCKS_PER_PEER_DURING_SYNCING : Z := 100.
Definition ALP_NET_MIN_BLOCK_IDS_TO_PREFETCH : Z := 10000.
Definition ALP_NET_DEFAULT_MAX_CONNECTIONS : nat := 200.
Definition MAXIMUM_NUMBER_OF_BLOCKS_TO_HANDLE_AT_ONE_TIME : nat := 200.
Definition MAXIMUM_NUMBER_OF_BLOCKS_TO_PREFETCH : nat := 2000.

(** The serialized size of a block *)
Class NetParams : Type := { block_size : FullBlock -> Z }.

(** A block, and the id its sender gives it *)
Record BlockMessage := mkBlockMessage { msg_block : FullBlock; msg_block_id : BlockIdType }.

Inductive NetMessage :=
  | FetchBlockchainItemIdsMessage (item_type : Z) (blockchain_synopsis : list BlockIdType)
  | BlockchainItemIdsInventoryMessage (total_remaining_item_count item_type : Z)
      (item_hashes_available : list BlockIdType)
  | FetchItemsMessage (item_type : Z) (items_to_fetch : list BlockIdType)
  | CurrentTimeRequestMessage
  | ClosingConnectionMessage.

Abbreviation ItemId := (Z * Z)%type.

Record PeerConnection := mkPeerConnection {
  ids_of_items_to_get : list BlockIdType;
  ids_of_items_being_processed : gset BlockIdType;
  number_of_unfetched_item_ids : Z;
  peer_needs_sync_items_from_us : bool;
  we_need_sync_items_from_peer : bool;
  item_ids_requested_from_peer : option BlockIdType;
  sync_items_requested_from_peer : gset BlockIdType;
  last_block_number_delegate_has_seen : Z;
  last_block_delegate_has_seen : BlockIdType;
  last_block_time_delegate_has_seen : time_point_sec;
  inhibit_fetching_sync_blocks : bool;
  items_requested_from_peer : gset ItemId;
  inventory_peer_advertised_to_us : gset ItemId;
  last_known_fork_block_number : Z
}.

(** Assignments to the members *)
Definition set_ids (ids : list BlockIdType) (p : PeerConnection) : PeerConnection :=
  mkPeerConnection ids (ids_of_items_being_processed p) (number_of_unfetched_item_ids p)
    (peer_needs_sync_items_from_us p) (we_need_sync_items_from_peer p) (item_ids_requested_from_peer p)
    (sync_items_requested_from_peer p) (last_block_number_delegate_has_seen p)
    (last_block_delegate_has_seen p) (last_block_time_delegate_has_seen p)
    (inhibit_fetching_sync_blocks p) (items_requested_from_peer p) (inventory_peer_advertised_to_us p)
    (last_known_fork_block_number p).
Definition set_processed (ids : gset BlockIdType) (p : PeerConnection) : PeerConnection :=
  mkPeerConnection (ids_of_items_to_get p) ids (number_of_unfetched_item_ids p)
    (peer_needs_sync_items_from_us p) (we_need_sync_items_from_peer p) (item_ids_requested_from_peer p)
    (sync_items_requested_from_peer p) (last_block_number_delegate_has_seen p)
    (last_block_delegate_has_seen p) (last_block_time_delegate_has_seen p)
    (inhibit_fetching_sync_blocks p) (items_requested_from_peer p) (inventory_peer_advertised_to_us p)
    (last_known_fork_block_number p).
Definition set_unfetched (n : Z) (p : PeerConnection) : PeerConnection :=
  mkPeerConnection (ids_of_items_to_get p) (ids_of_items_being_processed p) n
    (peer_needs_sync_items_from_us p) (we_need_sync_items_from_peer p) (item_ids_requested_from_peer p)
    (sync_items_requested_from_peer p) (last_block_number_delegate_has_seen p)
    (last_block_delegate_has_seen p) (last_block_time_delegate_has_seen p)
    (inhibit_fetching_sync_blocks p) (items_requested_from_peer p) (inventory_peer_advertised_to_us p)
    (last_known_fork_block_number p).
Definition set_needs (theirs ours : bool) (p : PeerConnection) : PeerConnection :=
  mkPeerConnection (ids_of_items_to_get p) (ids_of_items_being_processed p) (number_of_unfetched_item_ids p)
    theirs ours (item_ids_requested_from_peer p) (sync_items_requested_from_peer p)
    (last_block_number_delegate_has_seen p) (last_block_delegate_has_seen p)
    (last_block_time_delegate_has_seen p) (inhibit_fetching_sync_blocks p) (items_requested_from_peer p)
    (inventory_peer_advertised_to_us p) (last_known_fork_block_number p).
Definition set_ids_request (r : option BlockIdType) (p : PeerConnection) : PeerConnection :=
  mkPeerConnection (ids_of_items_to_get p) (ids_of_items_being_processed p) (number_of_unfetched_item_ids p)
    (peer_needs_sync_items_from_us p) (we_need_sync_items_from_peer p) r (sync_items_requested_from_peer p)
    (last_block_number_delegate_has_seen p) (last_block_delegate_has_seen p)
    (last_block_time_delegate_has_seen p) (inhibit_fetching_sync_blocks p) (items_requested_from_peer p)
    (inventory_peer_advertised_to_us p) (last_known_fork_block_number p).
Definition set_sync_requests (ids : gset BlockIdType) (p : PeerConnection) : PeerConnection :=
  mkPeerConnection (ids_of_items_to_get p) (ids_of_items_being_processed p) (number_of_unfetched_item_ids p)
    (peer_needs_sync_items_from_us p) (we_need_sync_items_from_peer p) (item_ids_requested_from_peer p) ids
    (last_block_number_delegate_has_seen p) (last_block_delegate_has_seen p)
    (last_block_time_delegate_has_seen p) (inhibit_fetching_sync_blocks p) (items_requested_from_peer p)
    (inventory_peer_advertised_to_us p) (last_known_fork_block_number p).
Definition set_seen (num : Z) (id : BlockIdType) (time : time_point_sec) (p : PeerConnection) : PeerConnection :=
  mkPeerConnection (ids_of_items_to_get p) (ids_of_items_being_processed p) (number_of_unfetched_item_ids p)
    (peer_needs_sync_items_from_us p) (we_need_sync_items_from_peer p) (item_ids_requested_from_peer p)
    (sync_items_requested_from_peer p) num id time (inhibit_fetching_sync_blocks p)
    (items_requested_from_peer p) (inventory_peer_advertised_to_us p) (last_known_fork_block_number p).
Definition set_inhibit (x : bool) (p : PeerConnection) : PeerConnection :=
  mkPeerConnection (ids_of_items_to_get p) (ids_of_items_being_processed p) (number_of_unfetched_item_ids p)
    (peer_needs_sync_items_from_us p) (we_need_sync_items_from_peer p) (item_ids_requested_from_peer p)
    (sync_items_requested_from_peer p) (last_block_number_delegate_has_seen p)
    (last_block_delegate_has_seen p) (last_block_time_delegate_has_seen p) x (items_requested_from_peer p)
    (inventory_peer_advertised_to_us p) (last_known_fork_block_number p).
Definition set_items (requested advertised : gset ItemId) (p : PeerConnection) : PeerConnection :=
  mkPeerConnection (ids_of_items_to_get p) (ids_of_items_being_processed p) (number_of_unfetched_item_ids p)
    (peer_needs_sync_items_from_us p) (we_need_sync_items_from_peer p) (item_ids_requested_from_peer p)
    (sync_items_requested_from_peer p) (last_block_number_delegate_has_seen p)
    (last_block_delegate_has_seen p) (last_block_time_delegate_has_seen p)
    (inhibit_fetching_sync_blocks p) requested advertised (last_known_fork_block_number p).

(** PeerConnection::busy *)
Definition busy (p : PeerConnection) : bool :=
  negb (bool_decide (items_requested_from_peer p = ∅)) ||
  negb (bool_decide (sync_items_requested_from_peer p = ∅)) || is_some (item_ids_requested_from_peer p).
Definition idle (p : PeerConnection) : bool := negb (busy p).

(** The connections, by an identifier; the lists of them are sets of those. *)
Record NodeImpl := mkNodeImpl {
  delegate : ChainDatabase;
  connections : gmap Z PeerConnection;
  _active_connections : gset Z;
  _handshaking_connections : gset Z;
  _active_sync_requests : gset BlockIdType;
  _received_sync_items : list BlockMessage;
  _new_received_sync_items : list BlockMessage;
  _handle_message_calls_in_progress : list BlockMessage;
  _most_recent_blocks_accepted : list BlockIdType;
  _total_number_of_unfetched_items : Z;
  _suspend_fetching_sync_blocks : bool;
  _sync_items_to_fetch_updated : bool;
  _items_to_fetch : gset ItemId;
  _new_inventory : gset ItemId;
  _hard_fork_block_numbers : list Z;
  outbox : list (Z * NetMessage)
}.

(** Assignments to the members *)
Definition set_delegate (d : ChainDatabase) (n : NodeImpl) : NodeImpl :=
  mkNodeImpl d (connections n) (_active_connections n) (_handshaking_connections n)
    (_active_sync_requests n) (_received_sync_items n) (_new_received_sync_items n)
    (_handle_message_calls_in_progress n) (_most_recent_blocks_accepted n)
    (_total_number_of_unfetched_items n) (_suspend_fetching_sync_blocks n) (_sync_items_to_fetch_updated n)
    (_items_to_fetch n) (_new_inventory n) (_hard_fork_block_numbers n) (outbox n).
Definition set_connections (c : gmap Z PeerConnection) (n : NodeImpl) : NodeImpl :=
  mkNodeImpl (delegate n) c (_active_connections n) (_handshaking_connections n) (_active_sync_requests n)
    (_received_sync_items n) (_new_received_sync_items n) (_handle_message_calls_in_progress n)
    (_most_recent_blocks_accepted n) (_total_number_of_unfetched_items n) (_suspend_fetching_sync_blocks n)
    (_sync_items_to_fetch_updated n) (_items_to_fetch n) (_new_inventory n) (_hard_fork_block_numbers n)
    (outbox n).
Definition set_lists (active handshaking : gset Z) (n : NodeImpl) : NodeImpl :=
  mkNodeImpl (delegate n) (connections n) active handshaking (_active_sync_requests n)
    (_received_sync_items n) (_new_received_sync_items n) (_handle_message_calls_in_progress n)
    (_most_recent_blocks_accepted n) (_total_number_of_unfetched_items n) (_suspend_fetching_sync_blocks n)
    (_sync_items_to_fetch_updated n) (_items_to_fetch n) (_new_inventory n) (_hard_fork_block_numbers n)
    (outbox n).
Definition set_active_requests (ids : gset BlockIdType) (n : NodeImpl) : NodeImpl :=
  mkNodeImpl (delegate n) (connections n) (_active_connections n) (_handshaking_connections n) ids
    (_received_sync_items n) (_new_received_sync_items n) (_handle_message_calls_in_progress n)
    (_most_recent_blocks_accepted n) (_total_number_of_unfetched_items n) (_suspend_fetching_sync_blocks n)
    (_sync_items_to_fetch_updated n) (_items_to_fetch n) (_new_inventory n) (_hard_fork_block_numbers n)
    (outbox n).
Definition set_received (received new : list BlockMessage) (n : NodeImpl) : NodeImpl :=
  mkNodeImpl (delegate n) (connections n) (_active_connections n) (_handshaking_connections n)
    (_active_sync_requests n) received new (_handle_message_calls_in_progress n)
    (_most_recent_blocks_accepted n) (_total_number_of_unfetched_items n) (_suspend_fetching_sync_blocks n)
    (_sync_items_to_fetch_updated n) (_items_to_fetch n) (_new_inventory n) (_hard_fork_block_numbers n)
    (outbox n).
Definition set_calls (calls : list BlockMessage) (n : NodeImpl) : NodeImpl :=
  mkNodeImpl (delegate n) (connections n) (_active_connections n) (_handshaking_connections n)
    (_active_sync_requests n) (_received_sync_items n) (_new_received_sync_items n) calls
    (_most_recent_blocks_accepted n) (_total_number_of_unfetched_items n) (_suspend_fetching_sync_blocks n)
    (_sync_items_to_fetch_updated n) (_items_to_fetch n) (_new_inventory n) (_hard_fork_block_numbers n)
    (outbox n).
Definition set_accepted (ids : list BlockIdType) (n : NodeImpl) : NodeImpl :=
  mkNodeImpl (delegate n) (connections n) (_active_connections n) (_handshaking_connections n)
    (_active_sync_requests n) (_received_sync_items n) (_new_received_sync_items n)
    (_handle_message_calls_in_progress n) ids (_total_number_of_unfetched_items n)
    (_suspend_fetching_sync_blocks n) (_sync_items_to_fetch_updated n) (_items_to_fetch n)
    (_new_inventory n) (_hard_fork_block_numbers n) (outbox n).
Definition set_total (total : Z) (n : NodeImpl) : NodeImpl :=
  mkNodeImpl (delegate n) (connections n) (_active_connections n) (_handshaking_connections n)
    (_active_sync_requests n) (_received_sync_items n) (_new_received_sync_items n)
    (_handle_message_calls_in_progress n) (_most_recent_blocks_accepted n) total
    (_suspend_fetching_sync_blocks n) (_sync_items_to_fetch_updated n) (_items_to_fetch n)
    (_new_inventory n) (_hard_fork_block_numbers n) (outbox n).
Definition set_suspend (x : bool) (n : NodeImpl) : NodeImpl :=
  mkNodeImpl (delegate n) (connections n) (_active_connections n) (_handshaking_connections n)
    (_active_sync_requests n) (_received_sync_items n) (_new_received_sync_items n)
    (_handle_message_calls_in_progress n) (_most_recent_blocks_accepted n)
    (_total_number_of_unfetched_items n) x (_sync_items_to_fetch_updated n) (_items_to_fetch n)
    (_new_inventory n) (_hard_fork_block_numbers n) (outbox n).
Definition set_updated (x : bool) (n : NodeImpl) : NodeImpl :=
  mkNodeImpl (delegate n) (connections n) (_active_connections n) (_handshaking_connections n)
    (_active_sync_requests n) (_received_sync_items n) (_new_received_sync_items n)
    (_handle_message_calls_in_progress n) (_most_recent_blocks_accepted n)
    (_total_number_of_unfetched_items n) (_suspend_fetching_sync_blocks n) x (_items_to_fetch n)
    (_new_inventory n) (_hard_fork_block_numbers n) (outbox n).
Definition set_to_fetch (items : gset ItemId) (n : NodeImpl) : NodeImpl :=
  mkNodeImpl (delegate n) (connections n) (_active_connections n) (_handshaking_connections n)
    (_active_sync_requests n) (_received_sync_items n) (_new_received_sync_items n)
    (_handle_message_calls_in_progress n) (_most_recent_blocks_accepted n)
    (_total_number_of_unfetched_items n) (_suspend_fetching_sync_blocks n) (_sync_items_to_fetch_updated n)
    items (_new_inventory n) (_hard_fork_block_numbers n) (outbox n).
Definition set_inventory (items : gset ItemId) (n : NodeImpl) : NodeImpl :=
  mkNodeImpl (delegate n) (connections n) (_active_connections n) (_handshaking_connections n)
    (_active_sync_requests n) (_received_sync_items n) (_new_received_sync_items n)
    (_handle_message_calls_in_progress n) (_most_recent_blocks_accepted n)
    (_total_number_of_unfetched_items n) (_suspend_fetching_sync_blocks n) (_sync_items_to_fetch_updated n)
    (_items_to_fetch n) items (_hard_fork_block_numbers n) (outbox n).
Definition set_outbox (messages : list (Z * NetMessage)) (n : NodeImpl) : NodeImpl :=
  mkNodeImpl (delegate n) (connections n) (_active_connections n) (_handshaking_connections n)
    (_active_sync_requests n) (_received_sync_items n) (_new_received_sync_items n)
    (_handle_message_calls_in_progress n) (_most_recent_blocks_accepted n)
    (_total_number_of_unfetched_items n) (_suspend_fetching_sync_blocks n) (_sync_items_to_fetch_updated n)
    (_items_to_fetch n) (_new_inventory n) (_hard_fork_block_numbers n) messages.

(** The connections that are active *)
Definition active_peers (n : NodeImpl) : list (Z * PeerConnection) :=
  filter (fun item => fst item ∈ _active_connections n) (map_to_list (connections n)).

Section SyncNode.
Context `{ChainParams} `{BlockParams} `{Clock} `{NodeParams} `{GluaVM Pend} `{NetParams}.
Abbreviation N := (M NodeImpl).

Definition get_peer (p : Z) : N PeerConnection :=
  n <- get ;; valid_or (connections n !! p) assert_exception.
Definition update_peer (p : Z) (f : PeerConnection -> PeerConnection) : N unit :=
  modify (fun n => set_connections (alter f p (connections n)) n).
Definition update_active (f : PeerConnection -> PeerConnection) : N unit :=
  modify (fun n => set_connections
    (map_imap (fun p c => Some (if decide (p ∈ _active_connections n) then f c else c)) (connections n)) n).
Definition send_message (p : Z) (m : NetMessage) : N unit :=
  modify (fun n => set_outbox (outbox n ++ [(p, m)]) n).
Definition ask_delegate {A} (f : ChainDatabase -> result A) : N A :=
  n <- get ;; lift_result (f (delegate n)).
Definition trigger_fetch_sync_items_loop : N unit := modify (set_updated true).

(** The connection leaves the lists of those that are active or shaking hands. *)
Definition move_peer_to_closing_list (p : Z) : N unit :=
  modify (fun n => set_lists (_active_connections n ∖ {[ p ]}) (_handshaking_connections n ∖ {[ p ]}) n).
Definition move_peer_to_active_list (p : Z) : N unit :=
  modify (fun n => set_lists ({[ p ]} ∪ _active_connections n) (_handshaking_connections n ∖ {[ p ]}) n).
Definition disconnect_from_peer (p : Z) : N unit :=
  move_peer_to_closing_list p ;;; send_message p ClosingConnectionMessage.

(** ** Asking a peer for the ids of its blocks *)

Definition create_blockchain_synopsis_for_peer (d : ChainDatabase) (peer : PeerConnection)
    : result (list BlockIdType) :=
  let reference_point := last_block_delegate_has_seen peer in
  let reference_point_block_num := last_block_number_delegate_has_seen peer in
  let original := ids_of_items_to_get peer in
  let number_of_blocks_after_reference_point := wrap_u32 (Z.of_nat (List.length original)) in
  let! synopsis := get_blockchain_synopsis d reference_point number_of_blocks_after_reference_point in
  if number_of_blocks_after_reference_point =? 0 then Ok synopsis
  else
    let true_high_block_num := wrap_u32 (reference_point_block_num + number_of_blocks_after_reference_point) in
    let push low_block_num :=
      if reference_point_block_num <? low_block_num then
        let! id := vector_at original (low_block_num - reference_point_block_num - 1) in Ok [id]
      else Ok [] in
    let! rest := summarize push summary_fuel true_high_block_num true_high_block_num 1 in
    Ok (synopsis ++ rest).

Definition reset_tracking (p : Z) : N unit :=
  time <- ask_delegate (fun d => get_block_time d 0) ;; update_peer p (set_seen 0 0 time).
Definition fetch_next_batch_of_item_ids_from_peer (p : Z) (reset : bool) : N unit :=
  when reset (reset_tracking p) ;;;
  peer <- get_peer p ;;
  blockchain_synopsis <- ask_delegate (fun d => create_blockchain_synopsis_for_peer d peer) ;;
  update_peer p (set_ids_request (Some (List.last blockchain_synopsis 0))) ;;;
  send_message p (FetchBlockchainItemIdsMessage block_message_type blockchain_synopsis).

Definition start_synchronizing_with_peer (p : Z) : N unit :=
  update_peer p (fun c => set_needs (peer_needs_sync_items_from_us c) true (set_unfetched 0 (set_ids [] c))) ;;;
  reset_tracking p ;;;
  update_peer p (set_inhibit false) ;;;
  fetch_next_batch_of_item_ids_from_peer p false.
Definition new_peer_just_added (p : Z) : N unit :=
  send_message p CurrentTimeRequestMessage ;;; start_synchronizing_with_peer p.

(** ** Answering a peer *)

(** [blocked]: the endpoint of the peer is on the list of those blocked.
    [inbound]: the peer opened the connection. *)
Definition on_fetch_blockchain_item_ids_message (p : Z) (inbound blocked : bool) (item_type : Z)
    (blockchain_synopsis : list BlockIdType) : N unit :=
  reply <- ask_delegate (fun d => get_item_ids d item_type blockchain_synopsis get_item_ids_limit) ;;
  peer <- get_peer p ;;
  let hashes := fst reply in
  let in_sync := match hashes, blockchain_synopsis with
                 | [], _ => true
                 | [item], _ :: _ => bool_decide (item ∈ blockchain_synopsis)
                 | _, _ => false
                 end in
  let disconnect_from_inhibited_peer :=
    match hashes with [] => false | _ => in_sync && inhibit_fetching_sync_blocks peer end in
  update_peer p (fun c => set_needs (negb in_sync) (we_need_sync_items_from_peer c) c) ;;;
  seen <- (if negb (we_need_sync_items_from_peer peer) && negb (bool_decide (blockchain_synopsis = []))
           then ask_delegate (fun d => has_item d item_type (List.last blockchain_synopsis 0))
           else ret true) ;;
  when (negb seen) (start_synchronizing_with_peer p) ;;;
  send_message p (BlockchainItemIdsInventoryMessage (snd reply) item_type hashes) ;;;
  if disconnect_from_inhibited_peer then disconnect_from_peer p
  else
    n <- get ;;
    when (inbound && bool_decide (p ∈ _handshaking_connections n) && negb blocked)
      (move_peer_to_active_list p ;;; new_peer_just_added p).

(** ** The ids a peer sends *)

Definition calculate_unsynced_block_count_from_all_peers (n : NodeImpl) : Z :=
  foldr (fun item m => Z.max (wrap_u32 (Z.of_nat (List.length (ids_of_items_to_get (snd item))) +
                                        number_of_unfetched_item_ids (snd item))) m) 0 (active_peers n).

(** The items of the front that the client has are seen. *)
Fixpoint pop_seen (d : ChainDatabase) (item_type : Z) (items : list BlockIdType) (peer : PeerConnection)
    : result (list BlockIdType * PeerConnection) :=
  match items with
  | [] => Ok ([], peer)
  | item :: items' =>
      let! seen := has_item d item_type item in
      if seen then
        let! time := get_block_time d item in
        pop_seen d item_type items'
          (set_seen (wrap_u32 (last_block_number_delegate_has_seen peer + 1)) item time peer)
      else Ok (items, peer)
  end.
(** pop_back until the last one is [item] *)
Fixpoint pop_until_item (item : BlockIdType) (backwards : list BlockIdType) : list BlockIdType :=
  match backwards with
  | [] => []
  | i :: backwards' => if item =? i then backwards else pop_until_item item backwards'
  end.

Definition first_for_other_peer (p : Z) (item : BlockIdType) (n : NodeImpl) : bool :=
  existsb (fun other => negb (fst other =? p) &&
                        match ids_of_items_to_get (snd other) with i :: _ => i =? item | [] => false end)
    (active_peers n).

(** The new list after the old one; the peer's own list and what is appended. *)
Definition merge_items (n : NodeImpl) (p item_type : Z) (items : list BlockIdType) (peer : PeerConnection)
    : result (list BlockIdType * PeerConnection) :=
  match items, ids_of_items_to_get peer with
  | [], _ => Ok ([], peer)
  | item :: _, [] =>
      if first_for_other_peer p item n then Ok (items, peer)
      else pop_seen (delegate n) item_type items peer
  | item :: items', _ :: _ =>
      match pop_until_item item (rev (ids_of_items_to_get peer)) with
      | [] =>
          let! num := get_block_num (delegate n) item in
          let! time := get_block_time (delegate n) item in
          Ok (items', set_seen num item time (set_ids [] peer))
      | _ :: before => Ok (items, set_ids (rev before) peer)
      end
  end.

(** The items are appended to the peer's list. *)
Definition take_items (p remaining item_type : Z) (items : list BlockIdType) : N unit :=
  update_peer p (set_unfetched remaining) ;;;
  peer <- get_peer p ;;
  n <- get ;;
  merged <- lift_result (merge_items n p item_type items peer) ;;
  update_peer p (fun _ => set_ids (ids_of_items_to_get (snd merged) ++ fst merged) (snd merged)).

Definition implausible (peer : PeerConnection) : bool :=
  let minimum_time_of_last_offered_block :=
    wrap_u32 (last_block_time_delegate_has_seen peer +
              wrap_u32 (number_of_unfetched_item_ids peer * ALP_BLOCKCHAIN_BLOCK_INTERVAL_SEC)) in
  wrap_u32 (blockchain_now + ALP_NET_FUTURE_SYNC_BLOCKS_GRACE_PERIOD_SEC) <? minimum_time_of_last_offered_block.

Definition up_to_date (d : ChainDatabase) (peer : PeerConnection) (remaining item_type : Z)
    (items : list BlockIdType) : result bool :=
  if negb (remaining =? 0) then Ok false
  else
    let! nothing_new := match items with
                        | [] => Ok true
                        | [item] => has_item d item_type item
                        | _ => Ok false
                        end in
    Ok (nothing_new && bool_decide (ids_of_items_to_get peer = []) && (number_of_unfetched_item_ids peer =? 0)).

Definition on_blockchain_item_ids_inventory_message (p remaining item_type : Z) (items : list BlockIdType)
    : N unit :=
  peer <- get_peer p ;;
  if negb (is_some (item_ids_requested_from_peer peer)) then ret tt
  else
    update_peer p (set_ids_request None) ;;;
    done <- ask_delegate (fun d => up_to_date d peer remaining item_type items) ;;
    if done then
      update_peer p (fun c => set_needs (peer_needs_sync_items_from_us c) false c) ;;;
      modify (fun n => set_total (calculate_unsynced_block_count_from_all_peers n) n)
    else
      take_items p remaining item_type items ;;;
      peer <- get_peer p ;;
      if implausible peer then disconnect_from_peer p
      else
        modify (fun n => set_total (calculate_unsynced_block_count_from_all_peers n) n) ;;;
        if negb (remaining =? 0) then
          if ALP_NET_MIN_BLOCK_IDS_TO_PREFETCH <? Z.of_nat (List.length (ids_of_items_to_get peer))
          then trigger_fetch_sync_items_loop
          else fetch_next_batch_of_item_ids_from_peer p false
        else if bool_decide (ids_of_items_to_get peer = [])
        then fetch_next_batch_of_item_ids_from_peer p false
        else trigger_fetch_sync_items_loop.

(** ** Asking peers for blocks *)

Definition received_item (n : NodeImpl) (id : BlockIdType) : bool :=
  existsb (fun m => msg_block_id m =? id) (_received_sync_items n) ||
  existsb (fun m => msg_block_id m =? id) (_new_received_sync_items n).

(** The items of a peer to request, no more than the maximum *)
Fixpoint choose_items (n : NodeImpl) (room : nat) (scheduled : gset BlockIdType) (ids : list BlockIdType)
    : list BlockIdType :=
  match room, ids with
  | O, _ | _, [] => []
  | Datatypes.S room', id :: ids' =>
      if received_item n id || bool_decide (id ∈ scheduled) || bool_decide (id ∈ _active_sync_requests n)
      then choose_items n room scheduled ids'
      else id :: choose_items n room' ({[ id ]} ∪ scheduled) ids'
  end.
(** The requests to send, for each idle peer we are syncing with *)
Fixpoint schedule_requests (n : NodeImpl) (scheduled : gset BlockIdType) (peers : list (Z * PeerConnection))
    : list (Z * list BlockIdType) :=
  match peers with
  | [] => []
  | (p, c) :: peers' =>
      let items := if we_need_sync_items_from_peer c && idle c && negb (inhibit_fetching_sync_blocks c)
                   then choose_items n (Z.to_nat ALP_NET_MAX_BLOCKS_PER_PEER_DURING_SYNCING) scheduled
                          (ids_of_items_to_get c)
                   else [] in
      (if bool_decide (items = []) then [] else [(p, items)]) ++
      schedule_requests n (list_to_set items ∪ scheduled) peers'
  end.
Definition request_sync_items_from_peer (p : Z) (items : list BlockIdType) : N unit :=
  modify (fun n => set_active_requests (list_to_set items ∪ _active_sync_requests n) n) ;;;
  update_peer p (fun c => set_sync_requests (list_to_set items ∪ sync_items_requested_from_peer c) c) ;;;
  send_message p (FetchItemsMessage block_message_type items).
(** One round of fetch_sync_items_loop *)
Definition fetch_sync_items : N unit :=
  modify (set_updated false) ;;;
  n <- get ;;
  when (negb (_suspend_fetching_sync_blocks n))
    (forM (schedule_requests n ∅ (active_peers n)) (fun r => request_sync_items_from_peer (fst r) (snd r))).

Definition is_item_in_any_peers_inventory (n : NodeImpl) (item : ItemId) : bool :=
  existsb (fun c => bool_decide (item ∈ inventory_peer_advertised_to_us (snd c))) (active_peers n).

Definition on_item_not_available_message (p : Z) (item : ItemId) : N unit :=
  peer <- get_peer p ;;
  if bool_decide (item ∈ items_requested_from_peer peer) then
    update_peer p (fun c => set_items (items_requested_from_peer c ∖ {[ item ]})
                              (inventory_peer_advertised_to_us c ∖ {[ item ]}) c) ;;;
    n <- get ;;
    when (is_item_in_any_peers_inventory n item)
      (modify (fun n => set_to_fetch ({[ item ]} ∪ _items_to_fetch n) n))
  else if (fst item =? block_message_type) && bool_decide (snd item ∈ sync_items_requested_from_peer peer) then
    update_peer p (fun c => set_sync_requests (sync_items_requested_from_peer c ∖ {[ snd item ]}) c) ;;;
    (if peer_needs_sync_items_from_us peer then update_peer p (set_inhibit true)
     else disconnect_from_peer p) ;;;
    trigger_fetch_sync_items_loop
  else ret tt.

(** The connection is gone; what was asked of it is asked of others. *)
Definition on_connection_closed (p : Z) : N unit :=
  move_peer_to_closing_list p ;;;
  peer <- get_peer p ;;
  (if bool_decide (sync_items_requested_from_peer peer = ∅) then ret tt
   else modify (fun n => set_active_requests (_active_sync_requests n ∖ sync_items_requested_from_peer peer) n) ;;;
        trigger_fetch_sync_items_loop) ;;;
  modify (fun n => set_to_fetch
    (filter (fun item => is_item_in_any_peers_inventory n item = true) (items_requested_from_peer peer)
     ∪ _items_to_fetch n) n) ;;;
  modify (fun n => set_connections (delete p (connections n)) n).

(** ** Blocks that arrive *)

(** _most_recent_blocks_accepted is a ring buffer. *)
Definition accept_block (id : BlockIdType) : N unit :=
  modify (fun n => let ids := _most_recent_blocks_accepted n ++ [id] in
    set_accepted (drop (List.length ids - ALP_NET_DEFAULT_MAX_CONNECTIONS) ids) n).
Definition was_accepted (n : NodeImpl) (id : BlockIdType) : bool :=
  existsb (Z.eqb id) (_most_recent_blocks_accepted n).

(** NodeDelegate::handle_message, of a block *)
Definition handle_block (m : BlockMessage) (sync_mode : bool) : N (result unit) :=
  n <- get ;;
  if ALP_BLOCKCHAIN_MAX_BLOCK_SIZE <? block_size (msg_block m) then ret (Ok tt)
  else
    match on_new_block (msg_block m) (msg_block_id m) sync_mode (delegate n) with
    | (Ok _, d) => modify (set_delegate d) ;;; ret (Ok tt)
    | (Err e, d) => modify (set_delegate d) ;;; if fc_exception e then ret (Err e) else throw e
    end.

Definition is_hard_fork_block (n : NodeImpl) (num : Z) : bool :=
  existsb (Z.eqb num) (_hard_fork_block_numbers n).
Fixpoint first_above (num : Z) (l : list Z) : Z :=
  match l with [] => 0 | x :: l' => if num <? x then x else first_above num l' end.
Definition get_next_known_hard_fork_block_number (n : NodeImpl) (num : Z) : Z :=
  first_above num (_hard_fork_block_numbers n).
(** The peer runs a client that cannot follow the block [num]. *)
Definition too_old (n : NodeImpl) (num : Z) (c : PeerConnection) : bool :=
  is_hard_fork_block n num && negb (last_known_fork_block_number c =? 0) &&
  let next := get_next_known_hard_fork_block_number n (last_known_fork_block_number c) in
  negb (next =? 0) && (next <=? num).

(** What an accepted block changes in a peer that is not disconnected for it *)
Definition note_accepted (m : BlockMessage) (c : PeerConnection) : PeerConnection :=
  if bool_decide (msg_block_id m ∈ ids_of_items_being_processed c) then
    set_processed (ids_of_items_being_processed c ∖ {[ msg_block_id m ]})
      (set_seen (block_num (header (msg_block m))) (msg_block_id m) (timestamp (header (msg_block m))) c)
  else c.
Definition empty_handed (c : PeerConnection) : bool :=
  bool_decide (ids_of_items_to_get c = []) && bool_decide (ids_of_items_being_processed c = ∅).
(** The peer's list of items has just become empty. *)
Definition newly_empty (m : BlockMessage) (c : PeerConnection) : bool :=
  bool_decide (msg_block_id m ∈ ids_of_items_being_processed c) &&
  (number_of_unfetched_item_ids c =? 0) && empty_handed (note_accepted m c).
(** The peer does not know that the block is there. *)
Definition out_of_sync (c : PeerConnection) : bool :=
  empty_handed c && negb (peer_needs_sync_items_from_us c) && negb (we_need_sync_items_from_peer c).

Definition keys_where (f : PeerConnection -> bool) (n : NodeImpl) : list Z :=
  map fst (List.filter (fun item => f (snd item)) (active_peers n)).

Definition send_sync_block_to_node_delegate (m : BlockMessage) : N unit :=
  answer <- handle_block m true ;;
  n <- get ;;
  match answer with
  | Ok _ =>
      accept_block (msg_block_id m) ;;;
      modify (fun n => set_total (wrap_u32 (_total_number_of_unfetched_items n - 1)) n) ;;;
      let old := too_old n (block_num (header (msg_block m))) in
      update_active (fun c => if old c then c else note_accepted m c) ;;;
      forM (keys_where old n) disconnect_from_peer ;;;
      forM (keys_where (fun c => negb (old c) && newly_empty m c) n)
        (fun p => fetch_next_batch_of_item_ids_from_peer p false) ;;;
      forM (keys_where (fun c => negb (old c) && out_of_sync c) n) start_synchronizing_with_peer
  | Err e =>
      let offered c := bool_decide (msg_block_id m ∈ ids_of_items_being_processed c) in
      if bool_decide (e = block_older_than_undo_history) then
        update_active (fun c => if offered c then set_inhibit true c else c)
      else forM (keys_where offered n) disconnect_from_peer
  end.

(** The first received block that some peer offers next *)
Fixpoint next_block_to_process (n : NodeImpl) (before items : list BlockMessage)
    : option (BlockMessage * list BlockMessage) :=
  match items with
  | [] => None
  | m :: items' =>
      if existsb (fun c => match ids_of_items_to_get (snd c) with
                           | i :: _ => i =? msg_block_id m
                           | [] => false
                           end) (active_peers n)
      then Some (m, rev before ++ items')
      else next_block_to_process n (m :: before) items'
  end.
Definition start_processing (id : BlockIdType) (c : PeerConnection) : PeerConnection :=
  match ids_of_items_to_get c with
  | i :: ids => if i =? id then set_processed ({[ id ]} ∪ ids_of_items_being_processed c) (set_ids ids c) else c
  | [] => c
  end.

(** Blocks are handed to the client, each by a task of its own. *)
Fixpoint process_backlog (fuel : nat) : N unit :=
  match fuel with
  | O => throw does_not_return
  | Datatypes.S f =>
      modify (fun n => set_received (rev (_new_received_sync_items n) ++ _received_sync_items n) [] n) ;;;
      n <- get ;;
      again <- match next_block_to_process n [] (_received_sync_items n) with
               | None => ret false
               | Some (m, rest) =>
                   update_active (start_processing (msg_block_id m)) ;;;
                   if was_accepted n (msg_block_id m) then ret false
                   else
                     modify (fun n => set_received rest [] n) ;;;
                     modify (fun n => set_calls (_handle_message_calls_in_progress n ++ [m]) n) ;;;
                     ret true
               end ;;
      n <- get ;;
      if (MAXIMUM_NUMBER_OF_BLOCKS_TO_HANDLE_AT_ONE_TIME <=? List.length (_handle_message_calls_in_progress n))%nat
      then when (MAXIMUM_NUMBER_OF_BLOCKS_TO_PREFETCH <=? List.length (_received_sync_items n))%nat
             (modify (set_suspend true))
      else if again then process_backlog f else ret tt
  end.
Definition process_backlog_of_sync_blocks : N unit :=
  n <- get ;;
  if (MAXIMUM_NUMBER_OF_BLOCKS_TO_HANDLE_AT_ONE_TIME <=? List.length (_handle_message_calls_in_progress n))%nat
  then ret tt
  else
    modify (set_suspend false) ;;;
    process_backlog (Datatypes.S (List.length (_received_sync_items n) + List.length (_new_received_sync_items n))) ;;;
    n <- get ;;
    when (negb (_suspend_fetching_sync_blocks n)) trigger_fetch_sync_items_loop.

(** A task that hands over a block ends, and the backlog is looked at again. *)
Definition finish_call (i : nat) : N unit :=
  n <- get ;;
  match nth_error (_handle_message_calls_in_progress n) i with
  | None => ret tt
  | Some m =>
      modify (fun n => set_calls (take i (_handle_message_calls_in_progress n) ++
                                  drop (Datatypes.S i) (_handle_message_calls_in_progress n)) n) ;;;
      send_sync_block_to_node_delegate m
  end.

Definition broadcast_block (m : BlockMessage) (item : ItemId) : N unit :=
  accept_block (msg_block_id m) ;;;
  modify (fun n => set_inventory ({[ item ]} ∪ _new_inventory n) n).

(** [message_hash] is the id the block has as a message. *)
Definition process_block_during_normal_operation (m : BlockMessage) (message_hash : Z) : N unit :=
  n <- get ;;
  answer <- (if was_accepted n (msg_block_id m) then ret (Ok tt)
             else answer <- handle_block m false ;;
                  match answer with Ok _ => accept_block (msg_block_id m) | Err _ => ret tt end ;;;
                  ret answer) ;;
  let item := (block_message_type, message_hash) in
  match answer with
  | Ok _ =>
      update_active (fun c => if bool_decide (item ∈ inventory_peer_advertised_to_us c)
        then set_seen (block_num (header (msg_block m))) (msg_block_id m) (timestamp (header (msg_block m))) c
        else c) ;;;
      broadcast_block m item ;;;
      n <- get ;;
      forM (keys_where (too_old n (block_num (header (msg_block m)))) n) disconnect_from_peer
  | Err _ =>
      n <- get ;;
      forM (keys_where (fun c => match ids_of_items_to_get c with
                                 | i :: _ => i =? msg_block_id m
                                 | [] => false
                                 end) n) disconnect_from_peer
  end.

Definition process_block_message (p : Z) (m : BlockMessage) (message_hash : Z) : N unit :=
  if ALP_BLOCKCHAIN_MAX_BLOCK_SIZE <? block_size (msg_block m) then ret tt
  else
    peer <- get_peer p ;;
    let item := (block_message_type, message_hash) in
    if bool_decide (item ∈ items_requested_from_peer peer) then
      update_peer p (fun c => set_items (items_requested_from_peer c ∖ {[ item ]})
                                (inventory_peer_advertised_to_us c) c) ;;;
      process_block_during_normal_operation m message_hash
    else if bool_decide (msg_block_id m ∈ sync_items_requested_from_peer peer) then
      update_peer p (fun c => set_sync_requests (sync_items_requested_from_peer c ∖ {[ msg_block_id m ]}) c) ;;;
      modify (fun n => set_active_requests (_active_sync_requests n ∖ {[ msg_block_id m ]}) n) ;;;
      modify (fun n => set_received (_received_sync_items n) (m :: _new_received_sync_items n) n) ;;;
      peer <- get_peer p ;;
      when (idle peer)
        (if (0 <? number_of_unfetched_item_ids peer) &&
            (Z.of_nat (List.length (ids_of_items_to_get peer)) <? ALP_NET_MIN_BLOCK_IDS_TO_PREFETCH)
         then fetch_next_batch_of_item_ids_from_peer p false
         else trigger_fetch_sync_items_loop)
    else disconnect_from_peer p.
End SyncNode.
