(* ===== verification/SyncRequests.v ===== *)
(** * Blocks are asked of one peer at a time

    Whatever messages come, and in whatever order the tasks of a node run, the
    blocks asked of a peer are among those the node knows to be asked for, and
    no block is asked of two peers at once. *)

From Stdlib Require Import ZArith Lia Bool String.
From stdpp Require Import base gmap strings list fin_sets relations.
From S2P Require Import Prelude Asset Entries Names Addresses ChainInterface ChainState AssetEntry.
From S2P Require Import EvalState ContractOperations.
From S2P Require Import Blocks ForkDatabase PendingChainState ChainTables Delegates ChainDatabase Genesis Queries.
From S2P Require Import Pending SyncClient SyncNode.

Local Open Scope Z_scope.

(** What is asked of a connection *)
Definition asked (n : NodeImpl) (p : Z) : gset BlockIdType :=
  match connections n !! p with Some c => sync_items_requested_from_peer c | None => ∅ end.

Record tracked (n : NodeImpl) : Prop := {
  tracked_known p : asked n p ⊆ _active_sync_requests n;
  tracked_once p q : p <> q -> asked n p ## asked n q
}.

(** ** Steps that ask for no block *)

Record same_requests (n n' : NodeImpl) : Prop := {
  same_active : _active_sync_requests n' = _active_sync_requests n;
  same_asked p : asked n' p = asked n p;
  same_connections : dom (connections n') = dom (connections n)
}.
#[export] Instance same_requests_preorder : PreOrder same_requests.
Proof. split; [easy |]. intros a b c [] []. split; intros; congruence. Qed.
Lemma same_tracked n n' : same_requests n n' -> tracked n -> tracked n'.
Proof. intros [Ea Ep _] [Hk Ho]. split; intros; rewrite ?Ea, ?Ep; auto. Qed.

Definition quiet {A} (m : M NodeImpl A) : Prop := forall n, same_requests n (snd (m n)).

Lemma quiet_ret {A} (a : A) : quiet (ret a).
Proof. intros n. cbn. reflexivity. Qed.
Lemma quiet_throw {A} e : quiet (throw (A := A) e).
Proof. intros n. cbn. reflexivity. Qed.
Lemma quiet_get : quiet get.
Proof. intros n. cbn. reflexivity. Qed.
Lemma quiet_lift {A} (r : result A) : quiet (lift_result r).
Proof. intros n. cbn. reflexivity. Qed.
Lemma quiet_bind {A B} (m : M NodeImpl A) (k : A -> M NodeImpl B) :
  quiet m -> (forall a, quiet (k a)) -> quiet (bind m k).
Proof.
  intros Hm Hk n. specialize (Hm n). unfold bind. destruct (m n) as [[a | e] n']; cbn in *; [| exact Hm].
  transitivity n'; [exact Hm | apply Hk].
Qed.
Lemma quiet_valid {A} (o : option A) e : quiet (valid_or o e).
Proof. destruct o; intros n; reflexivity. Qed.
Lemma quiet_when (b : bool) m : quiet m -> quiet (when b m).
Proof. destruct b; [easy | intros _; apply quiet_ret]. Qed.
Lemma quiet_if {A} (b : bool) (m1 m2 : M NodeImpl A) : quiet m1 -> quiet m2 -> quiet (if b then m1 else m2).
Proof. now destruct b. Qed.
Lemma quiet_forM {A} (l : list A) (f : A -> M NodeImpl unit) : (forall a, quiet (f a)) -> quiet (forM l f).
Proof. intros Hf. induction l as [| a l IH]; [apply quiet_ret |]. cbn. now apply quiet_bind. Qed.
Lemma quiet_modify (f : NodeImpl -> NodeImpl) :
  (forall n, connections (f n) = connections n /\ _active_sync_requests (f n) = _active_sync_requests n) ->
  quiet (modify f).
Proof. intros Hf n. destruct (Hf n) as [Ec Ea]. split; cbn; [exact Ea | intros p | ]; unfold asked; now rewrite Ec. Qed.
Lemma quiet_update p f : (forall c, sync_items_requested_from_peer (f c) = sync_items_requested_from_peer c) ->
  quiet (update_peer p f).
Proof.
  intros Hf n. split; [reflexivity | intros q; unfold asked; cbn | cbn; apply dom_alter_L].
  destruct (decide (p = q)) as [<- |]; [rewrite lookup_alter_eq | now rewrite lookup_alter_ne].
  destruct (connections n !! p); cbn; [apply Hf | reflexivity].
Qed.
Lemma quiet_active f : (forall c, sync_items_requested_from_peer (f c) = sync_items_requested_from_peer c) ->
  quiet (update_active f).
Proof.
  intros Hf n. split; [reflexivity | intros q; unfold asked; cbn | cbn; apply dom_imap_L].
  - rewrite map_lookup_imap. destruct (connections n !! q); cbn; [| reflexivity]. now destruct (decide _).
  - intros i. rewrite elem_of_dom. split; [intros [c Hc]; eauto | intros (c & Hc & _); eauto].
Qed.

Section SyncRequests.
Context `{HP : ChainParams} `{HB : BlockParams} `{HC : Clock} `{HN : NodeParams} `{HV : GluaVM Pend}
  `{HNet : NetParams}.

Ltac quiet_step :=
  match goal with
  | |- quiet (bind _ _) => apply quiet_bind; [| intro]
  | |- quiet (ret _) => apply quiet_ret
  | |- quiet (throw _) => apply quiet_throw
  | |- quiet get => apply quiet_get
  | |- quiet (lift_result _) => apply quiet_lift
  | |- quiet (valid_or _ _) => apply quiet_valid
  | |- quiet (when _ _) => apply quiet_when
  | |- quiet (forM _ _) => apply quiet_forM; intro
  | |- quiet (modify _) => apply quiet_modify; now intros
  | |- quiet (update_peer _ _) => apply quiet_update; now intros
  | |- quiet (update_active _) => apply quiet_active; intros
  | |- quiet (if _ then _ else _) => apply quiet_if
  | |- quiet (match ?x with _ => _ end) => destruct x
  | |- quiet (ask_delegate _) => unfold ask_delegate
  | |- quiet (get_peer _) => unfold get_peer
  | |- quiet (send_message _ _) => unfold send_message
  | |- quiet trigger_fetch_sync_items_loop => unfold trigger_fetch_sync_items_loop
  | |- quiet (disconnect_from_peer _) => unfold disconnect_from_peer, move_peer_to_closing_list
  | |- quiet (accept_block _) => unfold accept_block
  | |- quiet (reset_tracking _) => unfold reset_tracking
  | |- quiet (fetch_next_batch_of_item_ids_from_peer _ _) => unfold fetch_next_batch_of_item_ids_from_peer
  | |- quiet (start_synchronizing_with_peer _) => unfold start_synchronizing_with_peer
  | |- quiet (new_peer_just_added _) => unfold new_peer_just_added
  end.
Ltac quiets := repeat quiet_step.

Lemma quiet_fetch_ids p inbound blocked ty synopsis :
  quiet (on_fetch_blockchain_item_ids_message p inbound blocked ty synopsis).
Proof. unfold on_fetch_blockchain_item_ids_message, move_peer_to_active_list. quiets. Qed.

Lemma pop_seen_requests d ty items peer l peer' : pop_seen d ty items peer = Ok (l, peer') ->
  sync_items_requested_from_peer peer' = sync_items_requested_from_peer peer.
Proof.
  revert peer. induction items as [| i items IH]; intros peer; cbn [pop_seen]; [now intros [= <- <-] |].
  destruct (has_item d ty i) as [[|] |]; cbn [result_bind]; [| now intros [= <- <-] | discriminate].
  destruct (get_block_time d i); cbn [result_bind]; [| discriminate]. now intros ->%IH.
Qed.
Lemma merge_requests n p ty items peer l peer' : merge_items n p ty items peer = Ok (l, peer') ->
  sync_items_requested_from_peer peer' = sync_items_requested_from_peer peer.
Proof.
  unfold merge_items. destruct items as [| item items]; [now intros [= <- <-] |].
  destruct (ids_of_items_to_get peer).
  - destruct (first_for_other_peer p item n); [now intros [= <- <-] | apply pop_seen_requests].
  - destruct (pop_until_item _ _); [| now intros [= <- <-]].
    destruct (get_block_num _ item); cbn [result_bind]; [| discriminate].
    destruct (get_block_time _ item); cbn [result_bind]; [| discriminate]. now intros [= <- <-].
Qed.

(** A connection replaced by one of which the same is asked *)
Lemma put_requests p c c' n : connections n !! p = Some c ->
  sync_items_requested_from_peer c' = sync_items_requested_from_peer c ->
  same_requests n (snd (update_peer p (fun _ => c') n)).
Proof.
  intros Hc Hs. split; [reflexivity | intros q; unfold asked; cbn | cbn; apply dom_alter_L].
  destruct (decide (p = q)) as [<- |]; [rewrite lookup_alter_eq, Hc; exact Hs | now rewrite lookup_alter_ne].
Qed.
Lemma quiet_take p remaining ty items : quiet (take_items p remaining ty items).
Proof.
  apply quiet_bind; [quiet_step |]. intros _ n. unfold get_peer, bind, get, lift_result.
  unfold valid_or. destruct (connections n !! p) as [c |] eqn:Hc; [cbn | reflexivity].
  destruct (merge_items n p ty items c) as [[l c'] | e] eqn:Hm; [| reflexivity].
  apply (put_requests p c); [exact Hc |]. exact (merge_requests _ _ _ _ _ _ _ Hm).
Qed.

Lemma quiet_inventory p remaining ty items :
  quiet (on_blockchain_item_ids_inventory_message p remaining ty items).
Proof. unfold on_blockchain_item_ids_inventory_message. repeat (quiet_step || apply quiet_take). Qed.

Lemma quiet_handle m sync_mode : quiet (handle_block m sync_mode).
Proof.
  intros n. unfold handle_block, bind, get. destruct (_ <? _); [reflexivity |].
  destruct (on_new_block _ _ _ _) as [[fd | e] d]; cbn; [now split |]. now destruct (fc_exception e).
Qed.
Lemma note_requests m c : sync_items_requested_from_peer (note_accepted m c) = sync_items_requested_from_peer c.
Proof. unfold note_accepted. now case_bool_decide. Qed.
Lemma start_requests id c : sync_items_requested_from_peer (start_processing id c) = sync_items_requested_from_peer c.
Proof. unfold start_processing. destruct (ids_of_items_to_get c) as [| i ids]; [reflexivity |]. now destruct (i =? id). Qed.
Lemma quiet_send m : quiet (send_sync_block_to_node_delegate m).
Proof.
  unfold send_sync_block_to_node_delegate. apply quiet_bind; [apply quiet_handle | intros answer]. quiets.
  - destruct (too_old _ _ _); [reflexivity | apply note_requests].
  - case_bool_decide; reflexivity.
Qed.
Lemma quiet_call i : quiet (finish_call i).
Proof. unfold finish_call. repeat (quiet_step || apply quiet_send). Qed.
Lemma quiet_backlog fuel : quiet (process_backlog fuel).
Proof.
  induction fuel as [| fuel IH]; cbn [process_backlog]; [quiets |].
  repeat (exact IH || quiet_step). apply start_requests.
Qed.
Lemma quiet_process : quiet process_backlog_of_sync_blocks.
Proof. unfold process_backlog_of_sync_blocks. repeat (apply quiet_backlog || quiet_step). Qed.
Lemma quiet_normal m hash : quiet (process_block_during_normal_operation m hash).
Proof.
  unfold process_block_during_normal_operation, broadcast_block.
  repeat (apply quiet_handle || quiet_step). case_bool_decide; reflexivity.
Qed.

(** ** Steps that ask, or take back what they asked *)

Definition keeps {A} (m : M NodeImpl A) : Prop := forall n, tracked n -> tracked (snd (m n)).
Lemma keeps_quiet {A} (m : M NodeImpl A) : quiet m -> keeps m.
Proof. intros Hq n. exact (same_tracked _ _ (Hq n)). Qed.
Lemma keeps_bind {A B} (m : M NodeImpl A) (k : A -> M NodeImpl B) :
  keeps m -> (forall a, keeps (k a)) -> keeps (bind m k).
Proof.
  intros Hm Hk n Hn. specialize (Hm n Hn). unfold bind. destruct (m n) as [[a | e] n']; cbn in *; [now apply Hk | exact Hm].
Qed.

Lemma asked_update n p f q : asked (set_connections (alter f p (connections n)) n) q =
  match connections n !! q with
  | Some c => sync_items_requested_from_peer (if decide (p = q) then f c else c)
  | None => ∅
  end.
Proof.
  unfold asked. cbn. destruct (decide (p = q)) as [<- |].
  - rewrite lookup_alter_eq. now destruct (connections n !! p).
  - rewrite lookup_alter_ne by easy. now destruct (connections n !! q).
Qed.

Lemma keeps_request p items n : tracked n -> list_to_set items ## _active_sync_requests n ->
  tracked (snd (request_sync_items_from_peer p items n)).
Proof.
  intros [Hk Ho] Hd. unfold request_sync_items_from_peer, bind, modify, update_peer, send_message. cbn.
  set (n1 := set_active_requests _ n).
  assert (forall q, asked n q ⊆ _active_sync_requests n) as Hk' by exact Hk.
  assert (forall q, asked (set_connections (alter (fun c => set_sync_requests
     (list_to_set items ∪ sync_items_requested_from_peer c) c) p (connections n)) n) q ⊆
     (if decide (p = q) then list_to_set items else ∅) ∪ asked n q) as Hq.
  { intros q. rewrite asked_update. unfold asked. destruct (connections n !! q); [| set_solver].
    destruct (decide (p = q)); cbn; set_solver. }
  split.
  - intros q. specialize (Hk' q). specialize (Hq q). unfold asked in *. cbn in *. destruct (decide (p = q)); set_solver.
  - intros q r Hqr. pose proof (Hk' q). pose proof (Hk' r). pose proof (Ho q r Hqr).
    pose proof (Hq q) as Hq1. pose proof (Hq r) as Hq2. unfold asked in *. cbn in *.
    destruct (decide (p = q)), (decide (p = r)); [congruence | set_solver | set_solver | set_solver].
Qed.

(** Requests of items nobody is asked for, each list apart from the others *)
Fixpoint fresh (known : gset BlockIdType) (requests : list (Z * list BlockIdType)) : Prop :=
  match requests with
  | [] => True
  | (_, items) :: requests' => list_to_set items ## known /\ fresh (list_to_set items ∪ known) requests'
  end.
Lemma fresh_mono known known' requests : known' ⊆ known -> fresh known requests -> fresh known' requests.
Proof.
  revert known known'. induction requests as [| [p items] requests IH]; intros known known' Hs; cbn; [easy |].
  intros [Hd Hf]. split; [set_solver | apply (IH (list_to_set items ∪ known)); [set_solver | exact Hf]].
Qed.

Lemma choose_fresh n room scheduled ids i : i ∈ choose_items n room scheduled ids ->
  i ∈ ids /\ i ∉ scheduled /\ i ∉ _active_sync_requests n /\ received_item n i = false.
Proof.
  revert room scheduled. induction ids as [| id ids IH]; intros [| room] scheduled; cbn [choose_items];
    try (intros Hi; set_solver).
  destruct (received_item n id) eqn:Hr; cbn [orb].
  { intros Hi%IH. set_solver. }
  case_bool_decide; cbn [orb]; [intros Hi%IH; set_solver |].
  case_bool_decide; cbn [orb]; [intros Hi%IH; set_solver |].
  intros [-> | Hi]%elem_of_cons; [set_solver |]. apply IH in Hi. set_solver.
Qed.
Lemma schedule_fresh n scheduled peers : fresh (scheduled ∪ _active_sync_requests n) (schedule_requests n scheduled peers).
Proof.
  revert scheduled. induction peers as [| [p c] peers IH]; intros scheduled; cbn [schedule_requests]; [exact I |].
  set (items := if we_need_sync_items_from_peer c && _ && _ then _ else _).
  assert (list_to_set items ## scheduled ∪ _active_sync_requests n) as Hd.
  { intros i Hi Hn. rewrite elem_of_list_to_set in Hi. unfold items in Hi.
    destruct (_ && _); [| set_solver]. apply choose_fresh in Hi. set_solver. }
  specialize (IH (list_to_set items ∪ scheduled)).
  case_bool_decide; cbn [app fresh].
  - eapply fresh_mono; [| exact IH]. set_solver.
  - split; [exact Hd |]. eapply fresh_mono; [| exact IH]. set_solver.
Qed.

Lemma keeps_requests requests n : tracked n -> fresh (_active_sync_requests n) requests ->
  tracked (snd (forM requests (fun r => request_sync_items_from_peer (fst r) (snd r)) n)).
Proof.
  revert n. induction requests as [| [p items] requests IH]; intros n Hn; cbn [fresh forM]; [easy |].
  intros [Hd Hf]. pose proof (keeps_request p items n Hn Hd) as H1.
  unfold bind. cbn [fst snd]. unfold request_sync_items_from_peer in *. cbn in H1 |- *.
  apply IH; [exact H1 | exact Hf].
Qed.
Lemma keeps_fetch : keeps fetch_sync_items.
Proof.
  apply keeps_bind; [apply keeps_quiet; quiets | intros _ n Hn]. unfold bind, get, when. cbn.
  destruct (negb _); [| exact Hn]. apply keeps_requests; [exact Hn |].
  eapply fresh_mono; [| apply schedule_fresh]. set_solver.
Qed.

(** Less is asked of a connection. *)
Lemma keeps_fewer p f : (forall c, sync_items_requested_from_peer (f c) ⊆ sync_items_requested_from_peer c) ->
  keeps (update_peer p f).
Proof.
  intros Hf n [Hk Ho]. unfold update_peer, modify. cbn.
  assert (forall q, asked (set_connections (alter f p (connections n)) n) q ⊆ asked n q) as Hq.
  { intros q. rewrite asked_update. unfold asked. destruct (connections n !! q); [| set_solver].
    destruct (decide (p = q)); [apply Hf | set_solver]. }
  split; [intros q; cbn; specialize (Hk q); specialize (Hq q); set_solver |].
  intros q r Hqr. specialize (Ho q r Hqr). pose proof (Hq q). pose proof (Hq r). set_solver.
Qed.
Lemma keeps_not_available p item : keeps (on_item_not_available_message p item).
Proof.
  unfold on_item_not_available_message. apply keeps_bind; [apply keeps_quiet; quiets | intros peer].
  case_bool_decide; [apply keeps_quiet; quiets |].
  destruct (_ && _); [| apply keeps_quiet; quiets].
  apply keeps_bind; [apply keeps_fewer; intros c; cbn; set_solver | intros _; apply keeps_quiet; quiets].
Qed.

(** What is no longer asked of [p] is no longer asked. *)
Lemma tracked_drop n n' p ids : tracked n -> ids ⊆ asked n p ->
  _active_sync_requests n' = _active_sync_requests n ∖ ids ->
  (forall q, asked n' q ⊆ asked n q) -> asked n' p ## ids -> tracked n'.
Proof.
  intros [Hk Ho] Hi Ea Hq Hp. split.
  - intros q i Hiq. rewrite Ea. pose proof (Hq q i Hiq) as Hin. apply elem_of_difference. split; [exact (Hk q i Hin) |].
    intros Hid. destruct (decide (p = q)) as [<- | Hne]; [exact (Hp i Hiq Hid) |].
    exact (Ho p q Hne i (Hi i Hid) Hin).
  - intros q r Hqr. specialize (Ho q r Hqr). pose proof (Hq q). pose proof (Hq r). set_solver.
Qed.

Lemma keeps_block p m hash : keeps (process_block_message p m hash).
Proof.
  unfold process_block_message. destruct (_ <? _); [apply keeps_quiet; quiets |].
  intros n Hn. unfold get_peer, bind at 1, bind at 1, get, valid_or.
  destruct (connections n !! p) as [c |] eqn:Hc; [| exact Hn]. cbn [ret].
  case_bool_decide.
  { apply (keeps_quiet (update_peer p _ ;;; process_block_during_normal_operation m hash)); [| exact Hn].
    repeat (apply quiet_normal || quiet_step). }
  case_bool_decide as Hid; [| apply (keeps_quiet (disconnect_from_peer p)); [quiets | exact Hn]].
  set (n1 := set_active_requests (_active_sync_requests n ∖ {[msg_block_id m]})
               (set_connections (alter (fun c => set_sync_requests
                  (sync_items_requested_from_peer c ∖ {[msg_block_id m]}) c) p (connections n)) n)).
  assert (tracked n1) as H1.
  { apply (tracked_drop n n1 p {[msg_block_id m]}); [exact Hn | | reflexivity | |].
    - unfold asked. rewrite Hc. set_solver.
    - intros q. change (asked n1 q) with (asked (set_connections (connections n1) n) q). unfold n1.
      cbn [connections set_active_requests set_connections]. rewrite asked_update. unfold asked.
      destruct (connections n !! q); [destruct (decide (p = q)); cbn; set_solver | set_solver].
    - change (asked n1 p) with (asked (set_connections (connections n1) n) p). unfold n1.
      cbn [connections set_active_requests set_connections]. rewrite asked_update, Hc.
      destruct (decide (p = p)); [cbn; set_solver | easy]. }
  refine (keeps_quiet (modify (fun n => set_received (_received_sync_items n) (m :: _new_received_sync_items n) n) ;;;
      peer <- get_peer p ;; _) _ n1 H1). quiets.
Qed.

Lemma keeps_closed p : keeps (on_connection_closed p).
Proof.
  intros n Hn. unfold on_connection_closed, move_peer_to_closing_list, get_peer, trigger_fetch_sync_items_loop.
  unfold bind at 1, modify at 1. cbn [fst snd].
  set (n0 := set_lists _ _ n). assert (tracked n0) as H0 by (apply (same_tracked n); [now split | exact Hn]).
  unfold bind at 1, bind at 1, get, valid_or. change (connections n0) with (connections n).
  destruct (connections n !! p) as [c |] eqn:Hc; [| exact H0]. cbn [ret].
  assert (forall x known, known = _active_sync_requests n ∖ sync_items_requested_from_peer c ->
    connections x = delete p (connections n) -> _active_sync_requests x = known -> tracked x) as Hend.
  { intros x known -> Ex Ea. apply (tracked_drop n x p (sync_items_requested_from_peer c)); [exact Hn | | exact Ea | |].
    - unfold asked. now rewrite Hc.
    - intros q. unfold asked. rewrite Ex. destruct (decide (p = q)) as [<- | Hne].
      + rewrite lookup_delete_eq. set_solver.
      + now rewrite lookup_delete_ne.
    - unfold asked. rewrite Ex, lookup_delete_eq. set_solver. }
  case_bool_decide as He.
  - unfold bind, modify, ret. cbn [fst snd]. apply (Hend _ _ eq_refl); [reflexivity |]. cbn. rewrite He. set_solver.
  - unfold bind, modify. cbn [fst snd]. now apply (Hend _ _ eq_refl).
Qed.

(** A new connection, of which nothing is asked *)
Definition connect (p : Z) (c : PeerConnection) (active handshaking : gset Z) (n : NodeImpl) : NodeImpl :=
  set_lists active handshaking (set_connections (<[p := c]> (connections n)) n).

(** What can happen to a node *)
Inductive sync_step : NodeImpl -> NodeImpl -> Prop :=
  | step_connect p c active handshaking n : connections n !! p = None ->
      sync_items_requested_from_peer c = ∅ -> sync_step n (connect p c active handshaking n)
  | step_start p n : sync_step n (snd (start_synchronizing_with_peer p n))
  | step_fetch_ids p inbound blocked ty synopsis n :
      sync_step n (snd (on_fetch_blockchain_item_ids_message p inbound blocked ty synopsis n))
  | step_ids p remaining ty items n :
      sync_step n (snd (on_blockchain_item_ids_inventory_message p remaining ty items n))
  | step_fetch_items n : sync_step n (snd (fetch_sync_items n))
  | step_not_available p item n : sync_step n (snd (on_item_not_available_message p item n))
  | step_block p m hash n : sync_step n (snd (process_block_message p m hash n))
  | step_backlog n : sync_step n (snd (process_backlog_of_sync_blocks n))
  | step_call i n : sync_step n (snd (finish_call i n))
  | step_disconnect p n : sync_step n (snd (disconnect_from_peer p n))
  | step_closed p n : sync_step n (snd (on_connection_closed p n))
  | step_client d n : sync_step n (set_delegate d n).

(** A node that has started, with no connections *)
Definition started (d : ChainDatabase) (hard_forks : list Z) : NodeImpl :=
  mkNodeImpl d ∅ ∅ ∅ ∅ [] [] [] [] 0 false false ∅ ∅ hard_forks [].

Lemma step_tracked n n' : sync_step n n' -> tracked n -> tracked n'.
Proof.
  destruct 1; intros Hn.
  - destruct Hn as [Hk Ho].
    assert (forall q, asked (connect p c active handshaking n) q = if decide (p = q) then ∅ else asked n q) as Hq.
    { intros q. unfold asked, connect. cbn. destruct (decide (p = q)) as [<- |].
      - now rewrite lookup_insert_eq.
      - now rewrite lookup_insert_ne. }
    split; [intros q; rewrite Hq; cbn | intros q r Hqr; rewrite !Hq; specialize (Ho q r Hqr)];
      repeat destruct (decide _); set_solver.
  - apply (keeps_quiet (start_synchronizing_with_peer p)); [quiets | exact Hn].
  - exact (keeps_quiet _ (quiet_fetch_ids _ _ _ _ _) n Hn).
  - exact (keeps_quiet _ (quiet_inventory _ _ _ _) n Hn).
  - exact (keeps_fetch n Hn).
  - exact (keeps_not_available _ _ n Hn).
  - exact (keeps_block _ _ _ n Hn).
  - exact (keeps_quiet _ quiet_process n Hn).
  - exact (keeps_quiet _ (quiet_call i) n Hn).
  - apply (keeps_quiet (disconnect_from_peer p)); [quiets | exact Hn].
  - exact (keeps_closed _ n Hn).
  - now apply (same_tracked n).
Qed.

Lemma reachable_tracked n n' : rtc sync_step n n' -> tracked n -> tracked n'.
Proof. induction 1 as [| x y z Hs _ IH]; [easy | intros Hx; apply IH, (step_tracked _ _ Hs), Hx]. Qed.

(** C24: Synchronisation.  However messages, tasks and connections interleave,
    a block is asked of at most one peer at a time: what is asked of two
    connections is disjoint, and the node knows of all of it. *)
Theorem blocks_asked_once d hard_forks n p q : rtc sync_step (started d hard_forks) n -> p <> q ->
  asked n p ## asked n q /\ asked n p ⊆ _active_sync_requests n.
Proof.
  intros Hs Hpq. assert (tracked n) as [Hk Ho].
  { apply (reachable_tracked _ _ Hs). split; intros; unfold asked, started; cbn; set_solver. }
  split; [now apply Ho | apply Hk].
Qed.
End SyncRequests.
