(* ===== verification/SyncLaws.v ===== *)
(** * Synopses and the lists of blocks that answer them

    A synopsis reaches from the first block to the last in steps that halve
    what is left; the answer to it starts at the highest block both chains
    have; and a node that asks on takes in the whole chain of its peer. *)

From Stdlib Require Import ZArith Lia Bool String Sorted.
From stdpp Require Import base gmap strings list fin_sets.
From S2P Require Import Prelude Asset Entries Names Addresses ChainInterface ChainState AssetEntry.
From S2P Require Import EvalState ContractOperations.
From S2P Require Import Blocks ForkDatabase ForkTree ForkStore PendingChainState ChainTables Delegates ChainDatabase.
From S2P Require Import ChainExtension ForkSwitch Anchor ChainIndex Genesis Queries FindBlock Pending SyncClient SyncNode.

Local Open Scope Z_scope.

(** ** The numbers of a synopsis *)

(** From [low] to [top], each step half of the way *)
Fixpoint heights (fuel : nat) (top low : Z) : list Z :=
  match fuel with
  | O => []
  | Datatypes.S f =>
      let next := low + (top - low + 2) / 2 in
      low :: if next <=? top then heights f top next else []
  end.

(** The next number leaves half of the numbers. *)
Lemma next_halves top low : low <= top ->
  let next := low + (top - low + 2) / 2 in low < next /\ top - next + 1 = (top - low + 1) / 2.
Proof.
  intros Hl next. unfold next.
  replace (top - low + 2) with (top - low + 1 + 1) by lia. set (m := top - low + 1).
  assert (top - (low + (m + 1) / 2) + 1 = m - (m + 1) / 2) as -> by lia.
  pose proof (Z.div_mod m 2). pose proof (Z.div_mod (m + 1) 2).
  pose proof (Z.mod_pos_bound m 2). pose proof (Z.mod_pos_bound (m + 1) 2). lia.
Qed.

Lemma heights_spec fuel top low : low <= top -> top - low + 1 < 2 ^ Z.of_nat fuel ->
  hd_error (heights fuel top low) = Some low /\ List.last (heights fuel top low) 0 = top /\
  StronglySorted Z.lt (heights fuel top low) /\ (forall h, h ∈ heights fuel top low -> low <= h <= top) /\
  Z.of_nat (List.length (heights fuel top low)) = Z.log2 (top - low + 1) + 1.
Proof.
  revert low. induction fuel as [| fuel IH]; intros low Hl Hf; [change (2 ^ Z.of_nat 0) with 1 in Hf; lia |].
  cbn [heights]. destruct (next_halves top low Hl) as [Hn1 Hn2]. set (next := low + _) in *.
  split; [reflexivity |].
  destruct (Z.leb_spec next top) as [Hle | Hgt].
  - rewrite Nat2Z.inj_succ, Z.pow_succ_r in Hf by lia.
    destruct (IH next Hle) as (Hh & Hlast & Hs & Hr & Hlen).
    { rewrite Hn2. apply Z.div_lt_upper_bound; lia. }
    split; [| split; [| split]].
    + destruct (heights fuel top next) eqn:E; [discriminate |]. exact Hlast.
    + constructor; [exact Hs |]. apply Forall_forall. intros h Hh'. specialize (Hr h Hh'). lia.
    + intros h [-> | Hh']%elem_of_cons; [lia |]. specialize (Hr h Hh'). lia.
    + cbn [List.length]. rewrite Nat2Z.inj_succ, Hlen, Hn2.
      assert (2 <= top - low + 1) as Hm by (apply Znot_gt_le; intros Hm; rewrite Z.div_small in Hn2; lia).
      pose proof (Z.log2_shiftr (top - low + 1) 1 ltac:(lia)) as E. rewrite Z.shiftr_div_pow2 in E by lia.
      change (2 ^ 1) with 2 in E. rewrite E. pose proof (Z.log2_le_mono 2 (top - low + 1) Hm) as H2.
      change (Z.log2 2) with 1 in H2. lia.
  - assert (top - low + 1 = 1) as E1.
    { pose proof (Z.div_mod (top - low + 1) 2). pose proof (Z.mod_pos_bound (top - low + 1) 2). lia. }
    rewrite E1. split; [cbn; lia | split; [repeat constructor | split; [| reflexivity]]].
    intros h Hh%list_elem_of_singleton. lia.
Qed.

Lemma heights_halve fuel top low i a b : low <= top -> heights fuel top low !! i = Some a ->
  heights fuel top low !! Datatypes.S i = Some b -> top - b + 1 = (top - a + 1) / 2.
Proof.
  revert low i. induction fuel as [| fuel IH]; intros low i Hl Ha Hb; [discriminate |].
  cbn [heights] in Ha, Hb. destruct (next_halves top low Hl) as [_ Hn]. set (next := low + _) in *.
  destruct (Z.leb_spec next top) as [Hle | _]; [| now destruct i].
  destruct i as [| i]; cbn in Ha, Hb; [| exact (IH next i Hle Ha Hb)].
  injection Ha as <-. destruct fuel; [discriminate |]. cbn in Hb. now injection Hb as <-.
Qed.

Lemma filter_below (l : list Z) high : (forall h, h ∈ l -> h <= high) -> filter (fun h => h <= high) l = l.
Proof.
  intros Hl. induction l as [| h l IH]; [reflexivity |]. rewrite filter_cons_True by (apply Hl; set_solver).
  f_equal. apply IH. intros. apply Hl. set_solver.
Qed.
Lemma filter_above (l : list Z) high : (forall h, h ∈ l -> high < h) -> filter (fun h => h <= high) l = [].
Proof.
  intros Hl. induction l as [| h l IH]; [reflexivity |]. rewrite filter_cons_False.
  - apply IH. intros. apply Hl. set_solver.
  - specialize (Hl h). set_solver by lia.
Qed.

(** What the loop pushes, when nothing fails *)
Lemma summarize_heights push g fuel top high low : 1 <= low -> low <= high -> high <= top -> top < 2 ^ 32 - 2 ->
  top - low + 1 < 2 ^ Z.of_nat fuel -> (forall h, low <= h <= high -> push h = Ok (g h)) ->
  summarize push fuel top high low = Ok (flat_map g (filter (fun h => h <= high) (heights fuel top low))).
Proof.
  revert low. induction fuel as [| fuel IH]; intros low H1 Hlh Hht Ht Hf Hp; [change (2 ^ Z.of_nat 0) with 1 in Hf; lia |].
  cbn [summarize heights]. rewrite (Hp low) by lia. cbn [result_bind].
  destruct (next_halves top low) as [Hn1 Hn2]; [lia |].
  assert (wrap_u32 (low + wrap_u32 (top - low + 2) / 2) = low + (top - low + 2) / 2) as ->.
  { rewrite (wrap_u32_small (top - low + 2)) by lia. apply wrap_u32_small.
    pose proof (Z.div_mod (top - low + 1) 2). pose proof (Z.mod_pos_bound (top - low + 1) 2). lia. }
  set (next := low + _) in *. rewrite filter_cons_True by lia. cbn [flat_map].
  destruct (Z.leb_spec next high) as [Hle | Hgt].
  - destruct (Z.leb_spec next top); [| lia]. rewrite (IH next); try lia.
    + reflexivity.
    + rewrite Nat2Z.inj_succ, Z.pow_succ_r in Hf by lia. rewrite Hn2. apply Z.div_lt_upper_bound; lia.
    + intros h Hh. apply Hp. lia.
  - f_equal. rewrite (filter_above _ high), app_nil_r; [reflexivity |].
    destruct (Z.leb_spec next top) as [Hnt |]; [| set_solver]. intros h Hh.
    destruct (heights_spec fuel top next Hnt) as (_ & _ & _ & Hr & _); [| specialize (Hr h Hh); lia].
    rewrite Nat2Z.inj_succ, Z.pow_succ_r in Hf by lia. rewrite Hn2. apply Z.div_lt_upper_bound; lia.
Qed.

Lemma Ok_same {A} (a b : A) : Ok a = Ok b -> a = b.
Proof. congruence. Qed.

(** The fuel is enough for numbers of 32 bits. *)
Lemma summary_enough top low : 1 <= low -> top < 2 ^ 32 - 2 -> top - low + 1 < 2 ^ Z.of_nat summary_fuel.
Proof.
  intros Hl Ht. change (2 ^ Z.of_nat summary_fuel) with 8589934592. change (2 ^ 32) with 4294967296 in Ht. lia.
Qed.
Lemma summary_heights top : 1 <= top -> top < 2 ^ 32 - 2 -> let hs := heights summary_fuel top 1 in
  hd_error hs = Some 1 /\ List.last hs 0 = top /\ StronglySorted Z.lt hs /\ (forall h, h ∈ hs -> 1 <= h <= top) /\
  Z.of_nat (List.length hs) = Z.log2 top + 1.
Proof.
  intros H1 Ht. pose proof (heights_spec summary_fuel top 1 H1 (summary_enough top 1 ltac:(lia) Ht)) as Hs.
  now replace (top - 1 + 1) with top in Hs by lia.
Qed.

Section SyncLaws.
Context `{HP : ChainParams} `{HB : BlockParams} `{HH : !BlockHashes} `{HC : Clock} `{HN : NodeParams}
  `{HV : GluaVM Pend} `{HNet : NetParams}.

(** ** The chain a client shows *)

(** [ids] are the blocks of the chain, the first block first. *)
Record shows_chain (d : ChainDatabase) (ids : list BlockIdType) : Prop := {
  sc_head : get_head_block_num d = Z.of_nat (List.length ids);
  sc_small : Z.of_nat (List.length ids) < 2 ^ 32 - 2;
  sc_at k id : ids !! k = Some id -> block_id_at d (Z.of_nat k + 1) = Ok id /\
    (exists b, block_at d (Z.of_nat k + 1) = Ok b /\ block_id b = id) /\
    get_block_num d id = Ok (Z.of_nat k + 1);
  sc_nonzero : 0 ∉ ids;
  sc_included x : is_included_block d x = true <-> x = 0 \/ x ∈ ids;
  sc_nodup : NoDup ids
}.

Lemma look_included d x : is_included_block d x = is_included (look (db_forks d) x).
Proof.
  unfold is_included_block, get_block_fork_data, look. now destruct (fork_db (db_forks d) !! x).
Qed.

(** Every database with an index shows its chain. *)
Lemma index_shows d : chain_inv d -> index_inv d -> get_head_block_num d < 2 ^ 32 - 2 -> exists ids, shows_chain d ids.
Proof.
  intros Hi (l & Hl & Hc & Ei) Hsmall.
  pose proof (head_count d l (inv_head _ Hi) (ok_tree _ (inv_ok _ Hi)) Hl Hc) as Hn.
  change (get_head_block_num d = Z.of_nat (List.length l)) in Hn.
  assert (forall k id, reverse l !! k = Some id -> index_of l !! (Z.of_nat k + 1) = Some id) as Hidx.
  { intros k id Hk. rewrite index_of_lookup. destruct (Z.leb_spec 1 (Z.of_nat k + 1)); [| lia].
    now replace (Z.to_nat (Z.of_nat k + 1 - 1)) with k by lia. }
  assert (forall k id, reverse l !! k = Some id -> exists b, full_blocks (db_forks d) !! id = Some b /\
    block_num (header b) = Z.of_nat k + 1) as Hfull.
  { intros k id Hk. pose proof (Hidx k id Hk) as Hx. apply lookup_lt_Some in Hk as Hlt. rewrite length_reverse in Hlt.
    destruct (index_at d l (Z.of_nat k + 1) Hl Hc Ei) as (i & b & Hib & Hb & _ & Hnum); [lia |].
    assert (i = id) as -> by congruence. eauto. }
  assert (forall x, x ∈ reverse l <-> x ∈ l) as Hel by (intros x; apply elem_of_reverse).
  exists (reverse l). split.
  - now rewrite length_reverse.
  - rewrite length_reverse. lia.
  - intros k id Hk. destruct (Hfull k id Hk) as (b & Hb & Hnum).
    assert (block_id_at d (Z.of_nat k + 1) = Ok id) as E1.
    { unfold block_id_at, get_block_id, bind, get. now rewrite Ei, (Hidx k id Hk). }
    assert (block_of d id = Ok b) as E2 by (unfold block_of, get_block, bind, get; now rewrite Hb).
    split; [exact E1 | split].
    + exists b. unfold block_at. rewrite E1. cbn [result_bind]. split; [exact E2 |].
      exact (proj1 (tree_block _ (ok_tree _ (inv_ok _ Hi)) _ _ Hb)).
    + unfold get_block_num. apply list_elem_of_lookup_2, Hel in Hk.
      destruct (Z.eqb_spec id 0) as [-> |]; [exfalso; now apply (proj1 (branch_stored _ _ _ _ Hl Hk)) |].
      rewrite E2. cbn [result_bind]. now rewrite Hnum.
  - intros H0%Hel. now apply (proj1 (branch_stored _ _ _ _ Hl H0)).
  - intros x. rewrite look_included, Hel. destruct (inv_branch _ Hi) as (l' & Hl' & Hinc).
    now rewrite Hinc, (branch_unique _ _ _ _ Hl' Hl).
  - rewrite reverse_Permutation. apply NoDup_alt. intros i j x Hi' Hj.
    assert (forall m, l !! m = Some x -> reverse l !! (List.length l - 1 - m)%nat = Some x) as Hrev.
    { intros m Hm. rewrite reverse_lookup by (apply lookup_lt_Some in Hm; lia).
      rewrite <- Hm. f_equal. apply lookup_lt_Some in Hm. lia. }
    destruct (Hfull _ _ (Hrev i Hi')) as (b1 & Hb1 & Hn1). destruct (Hfull _ _ (Hrev j Hj)) as (b2 & Hb2 & Hn2).
    apply lookup_lt_Some in Hi'. apply lookup_lt_Some in Hj. assert (b1 = b2) as -> by congruence. lia.
Qed.

(** ** Answers *)

Lemma block_num_error d x e : get_block_num d x = Err e -> e = key_not_found_exception.
Proof.
  unfold get_block_num, block_of, get_block, bind, get. destruct (x =? 0); [discriminate |].
  destruct (full_blocks (db_forks d) !! x); cbn; [discriminate | congruence].
Qed.

(** The highest block of a synopsis on the chain: its number, or 1 *)
Definition common_number (ids synopsis : list BlockIdType) (num : Z) : Prop :=
  match List.find (fun x => bool_decide (x ∈ ids)) (rev synopsis) with
  | Some x => exists k, ids !! k = Some x /\ num = Z.of_nat k + 1
  | None => num = 1
  end.
Lemma last_seen_common d ids synopsis : shows_chain d ids -> 0 ∉ synopsis ->
  exists num, last_seen d (rev synopsis) = Ok num /\ common_number ids synopsis num.
Proof.
  intros Hd H0. unfold common_number. assert (0 ∉ rev synopsis) as H0' by (now intros Hin%list_elem_of_In%in_rev%list_elem_of_In).
  clear H0. induction (rev synopsis) as [| x l IH]; cbn [last_seen List.find]; [eauto |].
  specialize (IH ltac:(set_solver)).
  case_bool_decide as Hx.
  - apply list_elem_of_lookup in Hx as [k Hk]. destruct (sc_at _ _ Hd k x Hk) as (_ & _ & ->).
    assert (is_included_block d x = true) as -> by (apply (sc_included _ _ Hd); right; eapply list_elem_of_lookup_2; eauto).
    eauto.
  - destruct (get_block_num d x) as [num | e] eqn:E.
    + destruct (is_included_block d x) eqn:Hinc; [| exact IH].
      apply (sc_included _ _ Hd) in Hinc as [-> | Hinc]; [set_solver | easy].
    + apply block_num_error in E as ->. exact IH.
Qed.

Lemma ids_from_chain d ids n k : shows_chain d ids -> (k + n <= List.length ids)%nat ->
  ids_from d n (Z.of_nat k + 1) = Ok (Some (take n (drop k ids))).
Proof.
  intros Hd. revert k. induction n as [| n IH]; intros k Hk; cbn [ids_from]; [reflexivity |].
  destruct (lookup_lt_is_Some_2 ids k ltac:(lia)) as [id Hid]. destruct (sc_at _ _ Hd k id Hid) as (-> & _ & _).
  pose proof (sc_small _ _ Hd). rewrite wrap_u32_small by lia.
  replace (Z.of_nat k + 1 + 1) with (Z.of_nat (Datatypes.S k) + 1) by lia. rewrite IH by lia. cbn [result_bind].
  rewrite (drop_S ids id k Hid). reflexivity.
Qed.

Lemma common_range ids synopsis num : common_number ids synopsis num -> ids <> [] ->
  1 <= num <= Z.of_nat (List.length ids).
Proof.
  unfold common_number. intros Hc Hne. destruct (List.find _ _).
  - destruct Hc as (k & Hk & ->). apply lookup_lt_Some in Hk. lia.
  - subst num. destruct ids; [easy |]. cbn [List.length]. lia.
Qed.

Lemma item_ids_run d ids synopsis limit num : shows_chain d ids ->
  Z.of_nat (List.length synopsis) <= _blockchain_synopsis_size_limit -> 0 <= limit ->
  last_seen d (rev synopsis) = Ok num -> 1 <= num <= Z.of_nat (List.length ids) ->
  get_item_ids d block_message_type synopsis limit =
    let rest := drop (Z.to_nat (num - 1)) ids in
    Ok (take (Z.to_nat limit) rest, Z.max 0 (Z.of_nat (List.length rest) - limit)).
Proof.
  intros Hd Hlen Hlimit Hseen Hnum. unfold get_item_ids. rewrite Z.eqb_refl. cbn [negb].
  destruct (Z.ltb_spec _blockchain_synopsis_size_limit (Z.of_nat (List.length synopsis))); [lia |].
  rewrite Hseen. cbn [result_bind].
  rewrite (sc_head _ _ Hd). set (n := List.length ids) in *. pose proof (sc_small _ _ Hd) as Hs. fold n in Hs.
  destruct (Z.eqb_spec (Z.of_nat n) 0); [lia |].
  destruct (Z.ltb_spec (Z.of_nat n) num); [lia |]. rewrite wrap_u32_small by lia.
  set (rest := drop (Z.to_nat (num - 1)) ids).
  assert (Z.of_nat (List.length rest) = Z.of_nat n - num + 1) as Hrest
    by (unfold rest; rewrite length_drop; fold n; lia).
  set (m := Z.to_nat (Z.min limit (Z.of_nat n - num + 1))).
  pose proof (ids_from_chain d ids m (Z.to_nat (num - 1)) Hd) as E.
  replace (Z.of_nat (Z.to_nat (num - 1)) + 1) with num in E by lia. rewrite E by (fold n; unfold m; lia).
  cbn [result_bind]. f_equal. f_equal; [| lia].
  fold rest. destruct (Z.le_ge_cases limit (Z.of_nat n - num + 1)).
  - unfold m. now rewrite Z.min_l by lia.
  - rewrite !take_ge; [reflexivity | lia | unfold m; lia].
Qed.

(** What get_item_ids answers to a synopsis of no more than 25 ids: the
    ids of the chain from the highest block of the synopsis that is on it, or
    from the first block, at most [limit] of them; and how many follow. *)
Lemma item_ids_follow d ids synopsis limit : shows_chain d ids -> ids <> [] -> 0 ∉ synopsis ->
  Z.of_nat (List.length synopsis) <= _blockchain_synopsis_size_limit -> 0 <= limit ->
  exists num, common_number ids synopsis num /\ 1 <= num <= Z.of_nat (List.length ids) /\
    get_item_ids d block_message_type synopsis limit =
      let rest := drop (Z.to_nat (num - 1)) ids in
      Ok (take (Z.to_nat limit) rest, Z.max 0 (Z.of_nat (List.length rest) - limit)).
Proof.
  intros Hd Hne H0 Hlen Hlimit. destruct (last_seen_common d ids synopsis Hd H0) as (num & Hseen & Hcom).
  pose proof (common_range _ _ _ Hcom Hne) as Hnum. exists num. split; [exact Hcom | split; [exact Hnum |]].
  exact (item_ids_run d ids synopsis limit num Hd Hlen Hlimit Hseen Hnum).
Qed.

(** ** Synopses *)

Definition id_at (ids : list BlockIdType) (num : Z) : BlockIdType := default 0 (ids !! Z.to_nat (num - 1)).

(** The blocks summed up: the chain to its head, or to a block of it *)
Definition summed_up (ids : list BlockIdType) (reference_point : BlockIdType) (num : Z) : Prop :=
  (reference_point = 0 /\ num = Z.of_nat (List.length ids) \/ reference_point <> 0 /\ id_at ids num = reference_point) /\
  1 <= num <= Z.of_nat (List.length ids).

Lemma id_at_lookup ids num : 1 <= num <= Z.of_nat (List.length ids) -> ids !! Z.to_nat (num - 1) = Some (id_at ids num).
Proof.
  intros Hn. unfold id_at. destruct (ids !! Z.to_nat (num - 1)) eqn:E; [reflexivity |].
  apply lookup_ge_None in E. lia.
Qed.
Lemma flat_map_single {A B} (f : A -> B) l : flat_map (fun a => [f a]) l = map f l.
Proof. induction l as [| a l IH]; [reflexivity | cbn; now rewrite IH]. Qed.

Lemma synopsis_run d ids reference_point num after : shows_chain d ids -> summed_up ids reference_point num ->
  0 <= after -> num + after < 2 ^ 32 - 2 ->
  get_blockchain_synopsis d reference_point after =
    Ok (map (id_at ids) (filter (fun h => h <= num) (heights summary_fuel (num + after) 1))).
Proof.
  intros Hd [Href Hnum] Ha Hs. unfold get_blockchain_synopsis.
  assert (synopsis_range d reference_point = Ok (Some (num, num, []))) as ->.
  { unfold synopsis_range. destruct Href as [[-> ->] | [Hne <-]].
    - cbn [Z.eqb]. rewrite (sc_head _ _ Hd). destruct (Z.eqb_spec (Z.of_nat (List.length ids)) 0); [lia | reflexivity].
    - destruct (Z.eqb_spec (id_at ids num) 0); [easy |].
      pose proof (id_at_lookup ids num Hnum) as E. destruct (sc_at _ _ Hd _ _ E) as (_ & _ & En).
      rewrite (proj2 (sc_included _ _ Hd (id_at ids num))) by (right; exact (list_elem_of_lookup_2 _ _ _ E)).
      rewrite En. replace (Z.of_nat (Z.to_nat (num - 1)) + 1) with num by lia. reflexivity. }
  cbn [result_bind]. rewrite wrap_u32_small by lia.
  rewrite (summarize_heights _ (fun h => [id_at ids h])); try lia.
  - now rewrite flat_map_single.
  - apply summary_enough; lia.
  - intros h Hh. destruct (Z.leb_spec h num); [| lia].
    destruct (sc_at _ _ Hd _ _ (id_at_lookup ids h ltac:(lia))) as (_ & (b & Hb & Hid) & _).
    replace (Z.of_nat (Z.to_nat (h - 1)) + 1) with h in Hb by lia. rewrite Hb. cbn [result_bind]. now rewrite Hid.
Qed.

(** The synopsis of a chain, or of its part up to a block: it starts with
    the first block and ends with the last, every step leaves half of the
    blocks that were left, and it has one id for every bit of their number. *)
Theorem synopsis_sums_up d ids reference_point num : shows_chain d ids -> summed_up ids reference_point num ->
  exists nums, get_blockchain_synopsis d reference_point 0 = Ok (map (id_at ids) nums) /\
    hd_error nums = Some 1 /\ List.last nums 0 = num /\ StronglySorted Z.lt nums /\
    (forall i a b, nums !! i = Some a -> nums !! Datatypes.S i = Some b -> num - b + 1 = (num - a + 1) / 2) /\
    Z.of_nat (List.length nums) = Z.log2 num + 1.
Proof.
  intros Hd Href. pose proof Href as [_ Hnum]. pose proof (sc_small _ _ Hd) as Hs.
  exists (heights summary_fuel num 1).
  destruct (summary_heights num) as (Hh & Hl & Hsort & Hr & Hlen); [lia | lia |].
  split; [| split; [exact Hh | split; [exact Hl | split; [exact Hsort | split]]]].
  - rewrite (synopsis_run d ids reference_point num 0 Hd Href) by lia. rewrite Z.add_0_r, filter_below; [reflexivity |].
    intros h Hin. specialize (Hr h Hin). lia.
  - intros i a b. apply heights_halve. lia.
  - exact Hlen.
Qed.

(** ** Exchanges *)

(** The items to get are a run of the peer's chain, and the rest is known to
    be there. *)
Definition follows (ids : list BlockIdType) (c : PeerConnection) : Prop :=
  exists j len, ids_of_items_to_get c = take len (drop j ids) /\ (j + len <= List.length ids)%nat /\
    number_of_unfetched_item_ids c = Z.of_nat (List.length ids - (j + len)).

Lemma last_flat_map {A} (g : A -> list BlockIdType) (l : list A) a x y :
  List.last l a = x -> l <> [] -> g x = [y] -> exists front, flat_map g l = front ++ [y].
Proof.
  intros Hl Hne Hg. destruct (exists_last Hne) as (l' & z & ->). rewrite List.last_last in Hl. subst z.
  exists (flat_map g l'). rewrite flat_map_app. cbn. now rewrite Hg.
Qed.

Lemma vector_at_lookup l i x : 0 <= i -> l !! Z.to_nat i = Some x -> vector_at l i = Ok x.
Proof.
  intros Hi Hl. unfold vector_at. destruct (Z.ltb_spec i 0); [lia |].
  revert Hl. generalize (Z.to_nat i). clear. intros k. revert l. induction k as [| k IH]; intros [| y l]; try discriminate.
  - now intros [= ->].
  - exact (IH l).
Qed.

(** The last id of a synopsis for a peer is the last one the peer sent,
    whatever number the node believes it has. *)
Lemma created_ends d c synopsis : create_blockchain_synopsis_for_peer d c = Ok synopsis ->
  ids_of_items_to_get c <> [] -> 0 <= last_block_number_delegate_has_seen c ->
  last_block_number_delegate_has_seen c + Z.of_nat (List.length (ids_of_items_to_get c)) < 2 ^ 32 - 2 ->
  exists front, synopsis = front ++ [List.last (ids_of_items_to_get c) 0].
Proof.
  set (ids := ids_of_items_to_get c). set (num := last_block_number_delegate_has_seen c).
  intros E Hne Hnum Hsmall. unfold create_blockchain_synopsis_for_peer in E. fold ids num in E.
  assert (0 < List.length ids)%nat as Hlen by (destruct ids; [easy | cbn; lia]).
  rewrite (wrap_u32_small (Z.of_nat _)) in E by lia.
  destruct (get_blockchain_synopsis _ _ _) as [own |]; [| discriminate]. cbn [result_bind] in E.
  destruct (Z.eqb_spec (Z.of_nat (List.length ids)) 0); [lia |].
  rewrite wrap_u32_small in E by lia. set (top := num + Z.of_nat (List.length ids)) in *.
  set (g := fun low => if num <? low then [default 0 (ids !! Z.to_nat (low - num - 1))] else []).
  rewrite (summarize_heights _ g) in E; try (unfold top; lia); try (apply summary_enough; unfold top; lia).
  2: { intros h Hh. unfold g. destruct (Z.ltb_spec num h) as [Hlt |]; [| reflexivity].
       destruct (lookup_lt_is_Some_2 ids (Z.to_nat (h - num - 1))) as [x Hx]; [unfold top in Hh; lia |].
       rewrite (vector_at_lookup _ _ x) by (lia || exact Hx). cbn [result_bind]. now rewrite Hx. }
  cbn [result_bind] in E. apply Ok_same in E as <-.
  assert (1 <= top /\ top < 2 ^ 32 - 2) as [Htop1 Htop2] by (unfold top; lia).
  destruct (summary_heights top Htop1 Htop2) as (_ & Hl & _ & Hr & _).
  rewrite filter_below by (intros h Hh; specialize (Hr h Hh); lia).
  destruct (last_flat_map g (heights summary_fuel top 1) 0 top (List.last ids 0) Hl) as [front Ef].
  - discriminate.
  - unfold g. destruct (Z.ltb_spec num top); [| unfold top in *; lia]. f_equal.
    replace (Z.to_nat (top - num - 1)) with (List.length ids - 1)%nat by (unfold top; lia).
    destruct (exists_last Hne) as (l' & x & El). fold ids in El. rewrite El, List.last_last, List.length_app.
    cbn [List.length]. rewrite lookup_app_r by lia. now replace (_ - _)%nat with 0%nat by lia.
  - exists (own ++ front). rewrite Ef. now rewrite app_assoc.
Qed.

(** A run of a list, and the run that continues it *)
Lemma run_app (ids : list BlockIdType) j k m : (j <= k)%nat -> (k <= List.length ids)%nat ->
  take (k - j) (drop j ids) ++ take m (drop k ids) = take (k - j + m) (drop j ids).
Proof.
  intros Hjk Hk. replace (drop k ids) with (drop (k - j) (drop j ids)) by (rewrite drop_drop; f_equal; lia).
  now rewrite take_take_drop.
Qed.

Definition run_to (ids items : list BlockIdType) (k : nat) : Prop :=
  exists j len, items = take len (drop j ids) /\ (j + len)%nat = k.

(** Popping from the back stops at the item, or empties the list. *)
Lemma pop_until_spec item l : NoDup l -> match pop_until_item item (rev l) with
  | [] => item ∉ l
  | i :: before => i = item /\ exists rest, l = rev before ++ item :: rest
  end.
Proof.
  intros Hnd. induction l as [| x l IH] using rev_ind; [cbn; set_solver |].
  rewrite rev_app_distr. cbn [rev app pop_until_item].
  destruct (Z.eqb_spec item x) as [-> | Hne].
  - split; [reflexivity |]. exists []. now rewrite rev_involutive.
  - apply NoDup_app in Hnd as (Hnd & _ & _). specialize (IH Hnd).
    destruct (pop_until_item item (rev l)) as [| i before]; [set_solver |].
    destruct IH as (-> & rest & ->). split; [reflexivity |]. exists (rest ++ [x]). now rewrite <- app_assoc.
Qed.

Lemma pop_seen_run d ty items c l c' : pop_seen d ty items c = Ok (l, c') ->
  ids_of_items_to_get c' = ids_of_items_to_get c /\
  number_of_unfetched_item_ids c' = number_of_unfetched_item_ids c /\ exists seen, items = seen ++ l.
Proof.
  revert c. induction items as [| i items IH]; intros c; cbn [pop_seen].
  { intros [= <- <-]. split; [reflexivity | split; [reflexivity | now exists []]]. }
  destruct (has_item d ty i) as [[|] |]; cbn [result_bind]; [| | discriminate].
  - destruct (get_block_time d i); cbn [result_bind]; [| discriminate].
    intros (E1 & E2 & seen & ->)%IH. split; [exact E1 | split; [exact E2 | now exists (i :: seen)]].
  - intros [= <- <-]. split; [reflexivity | split; [reflexivity | now exists []]].
Qed.

(** A list that comes from the peer is joined to the one that is there. *)
Lemma merge_run n p ty ids c s m l c' : NoDup ids -> (s < List.length ids)%nat -> (1 <= m)%nat ->
  (exists k, run_to ids (ids_of_items_to_get c) k) ->
  merge_items n p ty (take m (drop s ids)) c = Ok (l, c') ->
  number_of_unfetched_item_ids c' = number_of_unfetched_item_ids c /\
  run_to ids (ids_of_items_to_get c' ++ l) (s + m).
Proof.
  intros Hnd Hs Hm (k & j & len & Hrun & <-). destruct (lookup_lt_is_Some_2 ids s Hs) as [x Hx].
  rewrite (drop_S ids x s Hx). destruct m as [| m]; [lia |]. cbn [take]. unfold merge_items.
  assert (run_to ids (x :: take m (drop (Datatypes.S s) ids)) (s + Datatypes.S m)) as Hitems.
  { exists s, (Datatypes.S m). split; [now rewrite (drop_S ids x s Hx) | reflexivity]. }
  destruct (ids_of_items_to_get c) as [| i own] eqn:Ei.
  - destruct (first_for_other_peer p x n).
    + intros [= <- <-]. rewrite Ei. split; [reflexivity | exact Hitems].
    + intros (E1 & E2 & seen & E)%pop_seen_run. rewrite E1, Ei. split; [exact E2 |]. cbn [app].
      destruct Hitems as (j' & len' & Ej & Hk). rewrite Ej in E.
      exists (j' + List.length seen)%nat, (len' - List.length seen)%nat.
      assert (l = drop (List.length seen) (take len' (drop j' ids))) as El by (rewrite E, drop_app_length; reflexivity).
      rewrite El, skipn_firstn_comm, drop_drop. split; [f_equal; f_equal; lia |].
      assert (List.length seen <= len')%nat; [| lia].
      apply (f_equal List.length) in E. rewrite length_take, length_app in E. lia.
  - rewrite Hrun. assert (NoDup (take len (drop j ids))) as Hnd' 
      by (apply (sublist_NoDup _ ids Hnd); etransitivity; [apply sublist_take | apply sublist_drop]).
    pose proof (pop_until_spec x (take len (drop j ids)) Hnd') as Hpop.
    destruct (pop_until_item x _) as [| y before].
    + destruct (get_block_num _ x); cbn [result_bind]; [| discriminate].
      destruct (get_block_time _ x); cbn [result_bind]; [| discriminate]. intros [= <- <-].
      split; [reflexivity |]. exists (Datatypes.S s), m. cbn. split; [reflexivity | lia].
    + destruct Hpop as (-> & rest & E). intros [= <- <-]. cbn. split; [reflexivity |].
      set (b := rev before) in *.
      assert (drop j ids !! List.length b = Some x) as Hb.
      { rewrite <- (lookup_take_lt (drop j ids) len).
        - rewrite E, lookup_app_r by lia. now rewrite Nat.sub_diag.
        - apply (f_equal List.length) in E. rewrite length_take, length_app in E. cbn [List.length] in E. lia. }
      rewrite lookup_drop in Hb. pose proof (NoDup_lookup _ _ _ _ Hnd Hb Hx) as Es.
      assert (b = take (s - j) (drop j ids)) as ->.
      { replace (s - j)%nat with (List.length b) by lia.
        transitivity (take (List.length b) (take len (drop j ids))); [rewrite E, take_app_length; reflexivity |].
        rewrite take_take. f_equal. apply (f_equal List.length) in E.
        rewrite length_take, length_app in E. cbn [List.length] in E. lia. }
      exists j, (s - j + Datatypes.S m)%nat. split; [| lia].
      rewrite <- (run_app ids j s (Datatypes.S m)) by lia. now rewrite (drop_S ids x s Hx).
Qed.

(** ** The handler *)

(** The list of a connection, and how many items are missing from it *)
Definition items_of (n : NodeImpl) (p : Z) : option (list BlockIdType * Z) :=
  option_map (fun c => (ids_of_items_to_get c, number_of_unfetched_item_ids c)) (connections n !! p).
Definition leaves {A} (p : Z) (m : M NodeImpl A) : Prop := forall n, items_of (snd (m n)) p = items_of n p.

Lemma leaves_bind {A B} p (m : M NodeImpl A) (k : A -> M NodeImpl B) :
  leaves p m -> (forall a, leaves p (k a)) -> leaves p (bind m k).
Proof.
  intros Hm Hk n. specialize (Hm n). unfold bind. destruct (m n) as [[a | e] n']; cbn in *; [| exact Hm].
  now rewrite (Hk a n').
Qed.
Lemma leaves_same {A} p (m : M NodeImpl A) : (forall n, connections (snd (m n)) = connections n) -> leaves p m.
Proof. intros Hm n. unfold items_of. now rewrite Hm. Qed.
Lemma leaves_update p q f : (forall c, ids_of_items_to_get (f c) = ids_of_items_to_get c /\
  number_of_unfetched_item_ids (f c) = number_of_unfetched_item_ids c) -> leaves p (update_peer q f).
Proof.
  intros Hf n. unfold items_of, update_peer, modify. cbn. destruct (decide (q = p)) as [-> |].
  - rewrite lookup_alter_eq. destruct (connections n !! p) as [c |]; [| reflexivity]. cbn.
    now destruct (Hf c) as [-> ->].
  - now rewrite lookup_alter_ne.
Qed.
Lemma leaves_valid {A} p (o : option A) e : leaves p (valid_or o e).
Proof. apply leaves_same. now destruct o. Qed.

Lemma leaves_fetch p q : leaves p (fetch_next_batch_of_item_ids_from_peer q false).
Proof.
  unfold fetch_next_batch_of_item_ids_from_peer. apply leaves_bind; [now apply leaves_same | intros _].
  apply leaves_bind; [apply leaves_bind; [now apply leaves_same | intros n0; apply leaves_valid] | intros c].
  apply leaves_bind; [now apply leaves_same | intros synopsis].
  apply leaves_bind; [now apply leaves_update | intros _; now apply leaves_same].
Qed.

(** What the handler does after the list is joined *)
Definition after_items (p remaining : Z) : M NodeImpl unit :=
  peer <- get_peer p ;;
  if implausible peer then disconnect_from_peer p
  else
    modify (fun n => set_total (calculate_unsynced_block_count_from_all_peers n) n) ;;;
    if negb (remaining =? 0) then
      if ALP_NET_MIN_BLOCK_IDS_TO_PREFETCH <? Z.of_nat (List.length (ids_of_items_to_get peer))
      then trigger_fetch_sync_items_loop
      else fetch_next_batch_of_item_ids_from_peer p false
    else if bool_decide (ids_of_items_to_get peer = [])
    then fetch_next_batch_of_item_ids_from_peer p false
    else trigger_fetch_sync_items_loop.
Lemma leaves_after p remaining : leaves p (after_items p remaining).
Proof.
  unfold after_items. apply leaves_bind; [apply leaves_bind; [now apply leaves_same | intros; apply leaves_valid] |].
  intros c. destruct (implausible c).
  { apply leaves_bind; [now apply leaves_same | intros; now apply leaves_same]. }
  apply leaves_bind; [now apply leaves_same | intros _].
  destruct (negb _); [destruct (_ <? _) | case_bool_decide]; try apply leaves_fetch; now apply leaves_same.
Qed.

Lemma get_peer_run p n c : connections n !! p = Some c -> get_peer p n = (Ok c, n).
Proof. intros Hc. unfold get_peer, bind, get. now rewrite Hc. Qed.

(** The list after the items are taken in *)
Lemma take_items_run p remaining ty items n c : connections n !! p = Some c ->
  let n1 := set_connections (alter (set_unfetched remaining) p (connections n)) n in
  match merge_items n1 p ty items (set_unfetched remaining c) with
  | Ok (l, c') => take_items p remaining ty items n =
      (Ok tt, set_connections (alter (fun _ => set_ids (ids_of_items_to_get c' ++ l) c') p (connections n1)) n1)
  | Err e => take_items p remaining ty items n = (Err e, n1)
  end.
Proof.
  intros Hc n1. unfold take_items. rewrite (bind_run_Ok (update_peer p (set_unfetched remaining)) _ n tt n1 eq_refl).
  rewrite (bind_run_Ok (get_peer p) _ n1 (set_unfetched remaining c) n1).
  - unfold bind, get, lift_result. destruct (merge_items _ _ _ _ _) as [[l c'] | e]; reflexivity.
  - apply get_peer_run. unfold n1. cbn. now rewrite lookup_alter_eq, Hc.
Qed.

Lemma inventory_run p remaining ty items n c : connections n !! p = Some c ->
  is_some (item_ids_requested_from_peer c) = true ->
  let n0 := set_connections (alter (set_ids_request None) p (connections n)) n in
  on_blockchain_item_ids_inventory_message p remaining ty items n =
  match up_to_date (delegate n) (set_ids_request None c) remaining ty items with
  | Ok true => (update_peer p (fun c => set_needs (peer_needs_sync_items_from_us c) false c) ;;;
                modify (fun n => set_total (calculate_unsynced_block_count_from_all_peers n) n)) n0
  | Ok false => (take_items p remaining ty items ;;; after_items p remaining) n0
  | Err e => (Err e, n0)
  end.
Proof.
  intros Hc Hr n0. unfold on_blockchain_item_ids_inventory_message.
  rewrite (bind_run_Ok (get_peer p) _ n c n (get_peer_run _ _ _ Hc)), Hr. cbn [negb].
  rewrite (bind_run_Ok (update_peer p (set_ids_request None)) _ n tt n0 eq_refl).
  assert (ask_delegate (fun d => up_to_date d c remaining ty items) n0 =
          (up_to_date (delegate n) (set_ids_request None c) remaining ty items, n0)) as E by reflexivity.
  destruct (up_to_date (delegate n) _ remaining ty items) as [[|] |].
  - now rewrite (bind_run_Ok _ _ _ _ _ E).
  - now rewrite (bind_run_Ok _ _ _ _ _ E).
  - now rewrite (bind_run_Err _ _ _ _ _ E).
Qed.

Lemma up_to_date_block d c remaining items :
  up_to_date d c remaining block_message_type items =
    Ok ((remaining =? 0) && match items with
                            | [] => true
                            | [item] => is_known_block d item
                            | _ => false
                            end && bool_decide (ids_of_items_to_get c = []) && (number_of_unfetched_item_ids c =? 0)).
Proof.
  unfold up_to_date, has_item. destruct (remaining =? 0); [| reflexivity]. cbn [negb andb].
  destruct items as [| i [|]]; cbn [result_bind]; rewrite ?Z.eqb_refl; reflexivity.
Qed.

(** The number of items after a run *)
Definition missing (ids : list BlockIdType) (k : nat) : Z := Z.of_nat (List.length ids - k).
Lemma follows_runs ids c : follows ids c <->
  exists k, run_to ids (ids_of_items_to_get c) k /\ (k <= List.length ids)%nat /\ number_of_unfetched_item_ids c = missing ids k.
Proof.
  split.
  - intros (j & len & E & Hle & Hu). exists (j + len)%nat. split; [now exists j, len | now split].
  - intros (k & (j & len & E & <-) & Hle & Hu). now exists j, len.
Qed.

(** A reply of the peer, whatever synopsis it answers, keeps the list a run
    of its chain. *)
Lemma inventory_keeps ids n p c s m n' : NoDup ids -> (s < List.length ids)%nat -> (1 <= m)%nat ->
  (s + m <= List.length ids)%nat -> connections n !! p = Some c ->
  is_some (item_ids_requested_from_peer c) = true -> follows ids c ->
  on_blockchain_item_ids_inventory_message p (missing ids (s + m)) block_message_type (take m (drop s ids)) n = (Ok tt, n') ->
  exists c', connections n' !! p = Some c' /\ follows ids c'.
Proof.
  intros Hnd Hs Hm Hsm Hc Hr Hf R. rewrite (inventory_run _ _ _ _ _ _ Hc Hr), up_to_date_block in R.
  set (n0 := set_connections _ n) in R.
  assert (connections n0 !! p = Some (set_ids_request None c)) as Hc0 by (unfold n0; cbn; now rewrite lookup_alter_eq, Hc).
  destruct (_ && (number_of_unfetched_item_ids _ =? 0)).
  - assert (n' = snd ((update_peer p (fun c => set_needs (peer_needs_sync_items_from_us c) false c) ;;;
       modify (fun n => set_total (calculate_unsynced_block_count_from_all_peers n) n)) n0)) as -> by now rewrite R.
    exists (set_needs (peer_needs_sync_items_from_us c) false (set_ids_request None c)). split; [| exact Hf].
    change (connections _) with (alter (fun c => set_needs (peer_needs_sync_items_from_us c) false c) p (connections n0)).
    now rewrite lookup_alter_eq, Hc0.
  - pose proof (take_items_run p (missing ids (s + m)) block_message_type (take m (drop s ids)) n0 _ Hc0) as T.
    cbn zeta in T. set (n1 := set_connections _ n0) in T.
    destruct (merge_items n1 _ _ _ _) as [[l c1] | e] eqn:Em; [| rewrite (bind_run_Err _ _ _ _ _ T) in R; discriminate].
    apply (merge_run n1 p block_message_type ids _ s m l c1 Hnd Hs Hm) in Em as [Eu Hrun].
    2: { apply follows_runs in Hf as (k & Hk & _). exists k. exact Hk. }
    rewrite (bind_run_Ok _ _ _ _ _ T) in R.
    set (n2 := set_connections _ n1) in R.
    assert (items_of n' p = items_of n2 p) as E by (rewrite <- (leaves_after p (missing ids (s + m)) n2), R; reflexivity).
    assert (connections n2 !! p = Some (set_ids (ids_of_items_to_get c1 ++ l) c1)) as Hc2.
    { unfold n2. cbn [connections set_connections]. rewrite lookup_alter_eq. unfold n1.
      cbn [connections set_connections]. now rewrite lookup_alter_eq, Hc0. }
    unfold items_of in E. rewrite Hc2 in E. destruct (connections n' !! p) as [c' |]; [| discriminate].
    exists c'. split; [reflexivity |]. cbn in E. injection E as E1 E2.
    apply follows_runs. exists (s + m)%nat. rewrite E1, E2, Eu. now split.
Qed.

(** C26: Synchronisation.  Whatever synopsis a peer answers, a node that takes
    in the answer holds a run of the blocks of the peer's chain to fetch, and
    the number of those that follow it. *)
Theorem inventory_follows dS idsS synopsis items remaining n p c n' : shows_chain dS idsS -> idsS <> [] ->
  0 ∉ synopsis -> get_item_ids dS block_message_type synopsis get_item_ids_limit = Ok (items, remaining) ->
  connections n !! p = Some c -> is_some (item_ids_requested_from_peer c) = true -> follows idsS c ->
  on_blockchain_item_ids_inventory_message p remaining block_message_type items n = (Ok tt, n') ->
  exists c', connections n' !! p = Some c' /\ follows idsS c'.
Proof.
  intros Hd Hne H0 Hget Hc Hr Hf R.
  assert (Z.of_nat (List.length synopsis) <= _blockchain_synopsis_size_limit) as Hlen.
  { unfold get_item_ids in Hget. rewrite Z.eqb_refl in Hget. cbn [negb] in Hget.
    destruct (Z.ltb_spec _blockchain_synopsis_size_limit (Z.of_nat (List.length synopsis))); [discriminate | lia]. }
  destruct (last_seen_common dS idsS synopsis Hd H0) as (num & Hseen & Hcom).
  pose proof (common_range _ _ _ Hcom Hne) as Hnum.
  rewrite (item_ids_run dS idsS synopsis get_item_ids_limit num Hd Hlen ltac:(discriminate) Hseen Hnum) in Hget.
  cbn zeta in Hget. set (s := Z.to_nat (num - 1)) in *. set (m := Nat.min 2000 (List.length idsS - s)).
  assert (Ok (take m (drop s idsS), missing idsS (s + m)) = Ok (items, remaining)) as E.
  { rewrite <- Hget. f_equal. f_equal.
    - change (Z.to_nat get_item_ids_limit) with 2000%nat. unfold m. destruct (Nat.min_spec 2000 (List.length idsS - s)) as [[_ ->] | [Hle ->]];
        [reflexivity |]. rewrite !take_ge; [reflexivity | rewrite length_drop; lia | rewrite length_drop; lia].
    - unfold missing. rewrite length_drop. unfold m, get_item_ids_limit. lia. }
  injection E as <- <-. apply (inventory_keeps idsS n p c s m n'); auto; try (unfold m, s; lia). exact (sc_nodup _ _ Hd).
Qed.

(** What is last in the list is first in the reply. *)
Lemma merge_last n p ty c own x items : ids_of_items_to_get c = own ++ [x] ->
  merge_items n p ty (x :: items) c = Ok (x :: items, set_ids own c).
Proof.
  intros E. unfold merge_items. rewrite E, rev_app_distr. cbn [rev app pop_until_item].
  rewrite Z.eqb_refl, rev_involutive. destruct own; reflexivity.
Qed.

Lemma run_last ids items k : run_to ids items k -> items <> [] -> (k <= List.length ids)%nat ->
  (0 < k)%nat /\ exists own x, items = own ++ [x] /\ ids !! (k - 1)%nat = Some x.
Proof.
  intros (j & len & -> & <-) Hne Hk. destruct (exists_last Hne) as (own & x & E).
  pose proof (f_equal List.length E) as El. rewrite length_take, length_drop, length_app in El. cbn [List.length] in El.
  split; [lia |]. exists own, x. split; [exact E |].
  assert (take len (drop j ids) !! List.length own = Some x) as Hx
    by (rewrite E, lookup_app_r, Nat.sub_diag by lia; reflexivity).
  rewrite lookup_take_lt in Hx by lia. rewrite lookup_drop in Hx. rewrite <- Hx. f_equal. lia.
Qed.

(** C25: An exchange makes progress.  The synopsis a node makes for a peer that
    offered it items ends with the last of them; the peer answers with what
    follows, and the list grows by 1999 items, or by all that were missing.
    The synopsis has at most the 25 ids a peer accepts, and numbers fit 32 bits. *)
Theorem exchange_extends dS idsS n p c synopsis : shows_chain dS idsS -> connections n !! p = Some c ->
  is_some (item_ids_requested_from_peer c) = true -> follows idsS c -> ids_of_items_to_get c <> [] ->
  0 <= last_block_number_delegate_has_seen c ->
  last_block_number_delegate_has_seen c + Z.of_nat (List.length (ids_of_items_to_get c)) < 2 ^ 32 - 2 ->
  create_blockchain_synopsis_for_peer (delegate n) c = Ok synopsis ->
  Z.of_nat (List.length synopsis) <= _blockchain_synopsis_size_limit ->
  exists items remaining, get_item_ids dS block_message_type synopsis get_item_ids_limit = Ok (items, remaining) /\
    exists c' more, connections (snd (on_blockchain_item_ids_inventory_message p remaining block_message_type items n)) !! p
        = Some c' /\
      follows idsS c' /\ ids_of_items_to_get c' = ids_of_items_to_get c ++ more /\
      Z.of_nat (List.length more) = Z.min 1999 (number_of_unfetched_item_ids c) /\
      number_of_unfetched_item_ids c' = number_of_unfetched_item_ids c - Z.of_nat (List.length more).
Proof.
  intros Hd Hc Hr Hf Hne Hnum Hsmall Hsyn Hlen.
  apply follows_runs in Hf as (k & Hrun & Hk & Hu).
  destruct (run_last _ _ _ Hrun Hne Hk) as (Hk0 & own & x & Eids & Hx).
  destruct (created_ends _ _ _ Hsyn Hne Hnum Hsmall) as [front ->]. rewrite Eids, List.last_last in *.
  destruct (sc_at _ _ Hd _ _ Hx) as (_ & _ & Hxnum). replace (Z.of_nat (k - 1) + 1) with (Z.of_nat k) in Hxnum by lia.
  assert (last_seen dS (rev (front ++ [x])) = Ok (Z.of_nat k)) as Hseen.
  { rewrite rev_app_distr. cbn [rev app last_seen]. rewrite Hxnum.
    now rewrite (proj2 (sc_included _ _ Hd x)) by (right; exact (list_elem_of_lookup_2 _ _ _ Hx)). }
  rewrite (item_ids_run dS idsS _ get_item_ids_limit _ Hd Hlen ltac:(discriminate) Hseen ltac:(lia)). cbn zeta.
  replace (Z.to_nat (Z.of_nat k - 1)) with (k - 1)%nat by lia. rewrite (drop_S _ _ _ Hx), length_cons, length_drop.
  change (Z.to_nat get_item_ids_limit) with (Datatypes.S 1999). cbn [take].
  replace (Datatypes.S (k - 1)) with k by lia. set (more := take 1999 (drop k idsS)).
  set (remaining := Z.max 0 _). eexists _, _. split; [reflexivity |].
  assert (Z.of_nat (List.length more) = Z.min 1999 (missing idsS k)) as Hmore
    by (unfold more, missing; rewrite length_take, length_drop; lia).
  assert (remaining = missing idsS k - Z.of_nat (List.length more)) as Hrem
    by (unfold remaining, get_item_ids_limit, missing in *; lia).
  clearbody remaining. rewrite (inventory_run _ _ _ _ _ _ Hc Hr), up_to_date_block.
  set (n0 := set_connections _ n).
  assert (connections n0 !! p = Some (set_ids_request None c)) as Hc0 by (unfold n0; cbn; now rewrite lookup_alter_eq, Hc).
  assert (bool_decide (ids_of_items_to_get (set_ids_request None c) = []) = false) as Hnil
    by (apply bool_decide_eq_false; change (ids_of_items_to_get c <> []); now rewrite Eids).
  rewrite Hnil, andb_false_r. cbn [andb].
  pose proof (take_items_run p remaining block_message_type (x :: more) n0 _ Hc0) as T. cbn zeta in T.
  set (n1 := set_connections _ n0) in T.
  rewrite (merge_last n1 p _ _ own x more) in T by exact Eids. set (n2 := set_connections _ n1) in T.
  rewrite (bind_run_Ok _ _ _ _ _ T).
  assert (connections n2 !! p = Some (set_ids (own ++ x :: more) (set_ids own (set_unfetched remaining (set_ids_request None c))))) as Hc2.
  { unfold n2. cbn [connections set_connections]. rewrite lookup_alter_eq. unfold n1.
    cbn [connections set_connections]. now rewrite lookup_alter_eq, Hc0. }
  pose proof (leaves_after p remaining n2) as E. unfold items_of in E. rewrite Hc2 in E.
  destruct (connections (snd _) !! p) as [c' |]; [| discriminate]. cbn in E. injection E as E1 E2.
  assert (ids_of_items_to_get c' = ids_of_items_to_get c ++ more) as Ec by (rewrite E1, Eids, <- app_assoc; reflexivity).
  exists c', more. split; [reflexivity |]. rewrite <- Eids.
  split; [| split; [exact Ec | split; [now rewrite Hu | now rewrite E2, Hrem, Hu]]].
  apply follows_runs. exists (k + List.length more)%nat. rewrite Ec, E2.
  destruct Hrun as (j & len & Er & <-). split; [| unfold missing in *; lia].
  exists j, (len + List.length more)%nat. split; [| lia]. rewrite Eids, Er.
  assert (take (List.length more) (drop (j + len) idsS) = more) as Em.
  { unfold more. rewrite <- (take_drop 1999 (drop (j + len) idsS)) at 2. apply take_app_length. }
  rewrite <- (take_take_drop (drop j idsS)), drop_drop, Em. reflexivity.
Qed.
End SyncLaws.
