(* ===== verification/SyncSamples.v ===== *)
(** * Sample exchanges between nodes

    A node that has only the genesis state fetches the three blocks of the
    sample chain; and what the handlers do with answers they do not expect. *)

From Stdlib Require Import ZArith Lia Bool String Sorted.
From stdpp Require Import base gmap strings list fin_sets relations.
From S2P Require Import Prelude Asset Entries Names Addresses ChainInterface ChainState AssetEntry.
From S2P Require Import EvalState ContractOperations Evaluate Transactions.
From S2P Require Import Blocks ForkDatabase ForkTree ForkStore ForkSamples PendingChainState ChainTables Delegates ChainDatabase.
From S2P Require Import LedgerTables ForkSwitch ChainIndex Genesis Reached BlockSamples GenesisSamples Queries Pending.
From S2P Require Import SyncClient SyncNode SyncRequests SyncLaws.

Local Open Scope Z_scope.

#[local] Existing Instance reference_params.
#[local] Existing Instance reference_clock.
#[local] Existing Instance reference_vm.
#[local] Existing Instance sample_codec.
#[local] Existing Instance sample_codec_laws.
#[local] Existing Instance sample_node.
#[local] Instance sample_net : NetParams := {| block_size := fun _ => 500 |}.

Definition sample_chain : list BlockIdType := [block_id fork_block1; block_id fork_block2; block_id next_one].

Lemma grown_shows : shows_chain grown sample_chain.
Proof.
  pose proof (reached_agrees 1000 sample_genesis 1 grown sample_genesis_good grown_reached) as Ha.
  destruct (index_shows grown (agrees_chain _ _ _ Ha) (agrees_index _ _ _ Ha)) as [ids Hd]; [vm_compute; reflexivity |].
  assert (ids = sample_chain) as <-; [| exact Hd].
  pose proof (sc_head _ _ Hd) as Hn.
  assert (get_head_block_num grown = 3) as En by (vm_compute; reflexivity). rewrite En in Hn.
  assert (forall k id id', block_id_at grown (Z.of_nat k + 1) = Ok id -> ids !! k = Some id' -> id' = id) as Hat.
  { intros k id id' E Hk. destruct (sc_at _ _ Hd k id' Hk) as [E' _]. congruence. }
  destruct ids as [| a [| b [| c [|]]]]; cbn in Hn; try lia.
  unfold sample_chain. f_equal; [| f_equal; [| f_equal]].
  - apply (Hat 0%nat); [vm_compute; reflexivity | reflexivity].
  - apply (Hat 1%nat); [vm_compute; reflexivity | reflexivity].
  - apply (Hat 2%nat); [vm_compute; reflexivity | reflexivity].
Qed.

Lemma synopsis_sums_up_witness : exists nums, get_blockchain_synopsis grown 0 0 = Ok (map (id_at sample_chain) nums) /\
  hd_error nums = Some 1 /\ List.last nums 0 = 3 /\ List.length nums = 2%nat.
Proof.
  destruct (synopsis_sums_up grown sample_chain 0 3 grown_shows) as (nums & E & Hh & Hl & _ & _ & Hlen).
  - split; [left; split; reflexivity | cbn; lia].
  - exists nums. split; [exact E | split; [exact Hh | split; [exact Hl |]]]. change (Z.log2 3 + 1) with 2 in Hlen. lia.
Defined.

Lemma item_ids_follow_witness : exists num, common_number sample_chain [block_id fork_block1; 5] num /\
  1 <= num <= 3 /\ get_item_ids grown block_message_type [block_id fork_block1; 5] 2 =
    Ok ([block_id fork_block1; block_id fork_block2], 1).
Proof.
  destruct (item_ids_follow grown sample_chain [block_id fork_block1; 5] 2 grown_shows) as (num & Hc & Hn & E).
  - discriminate.
  - apply (bool_decide_eq_true_1 (0 ∉ [block_id fork_block1; 5])). vm_compute. reflexivity.
  - cbn. vm_compute. discriminate.
  - lia.
  - exists num. split; [exact Hc | split; [exact Hn |]]. rewrite E. clear E.
    unfold common_number in Hc. cbn [rev app List.find] in Hc.
    destruct (bool_decide_reflect (5 ∈ sample_chain)) as [H5 |].
    { exfalso. revert H5. apply (bool_decide_eq_true_1 (5 ∉ sample_chain)). vm_compute. reflexivity. }
    rewrite bool_decide_true in Hc by (unfold sample_chain; set_solver).
    destruct Hc as (k & Hk & ->).
    assert (k = 0%nat) as -> by (apply (NoDup_lookup sample_chain k 0 (block_id fork_block1));
      [exact (sc_nodup _ _ grown_shows) | exact Hk | reflexivity]).
    vm_compute. reflexivity.
Defined.

(** A peer that has told of the first block, and of two more to come *)
Definition told : PeerConnection :=
  mkPeerConnection [block_id fork_block1] ∅ 2 false true (Some 0) ∅ 0 0 1499999900 false ∅ ∅ 0.
Definition asking : NodeImpl := connect 7 told {[ 7 ]} ∅ (started began []).

Lemma told_follows : follows sample_chain told.
Proof. exists 0%nat, 1%nat. cbn. repeat split; lia. Qed.

Lemma exchange_extends_witness : exists items remaining,
  get_item_ids grown block_message_type [block_id fork_block1] get_item_ids_limit = Ok (items, remaining) /\
  exists c' more, connections (snd (on_blockchain_item_ids_inventory_message 7 remaining block_message_type items asking)) !! 7
    = Some c' /\ follows sample_chain c' /\ ids_of_items_to_get c' = block_id fork_block1 :: more /\
    List.length more = 2%nat /\ number_of_unfetched_item_ids c' = 0.
Proof.
  assert (connections asking !! 7 = Some told) as Htold by reflexivity.
  assert (create_blockchain_synopsis_for_peer (delegate asking) told = Ok [block_id fork_block1]) as Hsyn
    by (vm_compute; reflexivity).
  destruct (exchange_extends grown sample_chain asking 7 told [block_id fork_block1] grown_shows Htold eq_refl
              told_follows ltac:(discriminate) ltac:(cbn; lia) ltac:(cbn; lia) Hsyn ltac:(vm_compute; discriminate))
    as (items & remaining & E & c' & more & Hc & Hf & Hids & Hmore & Hu).
  exists items, remaining. split; [exact E |]. exists c', more.
  split; [exact Hc | split; [exact Hf | split; [exact Hids |]]]. change (number_of_unfetched_item_ids told) with 2 in *. lia.
Defined.

Lemma inventory_follows_witness : exists n' c',
  on_blockchain_item_ids_inventory_message 7 0 block_message_type sample_chain asking = (Ok tt, n') /\
  connections n' !! 7 = Some c' /\ follows sample_chain c' /\ ids_of_items_to_get c' = sample_chain.
Proof.
  assert (connections asking !! 7 = Some told) as Htold by reflexivity.
  assert (get_item_ids grown block_message_type [block_id fork_block1] get_item_ids_limit = Ok (sample_chain, 0)) as E
    by (vm_compute; reflexivity).
  set (r := on_blockchain_item_ids_inventory_message 7 0 block_message_type sample_chain asking).
  assert (match fst r with Ok _ => true | Err _ => false end = true) as Hr by (vm_compute; reflexivity).
  assert (option_map ids_of_items_to_get (connections (snd r) !! 7) = Some sample_chain) as Hids by (vm_compute; reflexivity).
  destruct r as [[[] | e] n'] eqn:R; [| discriminate].
  assert (0 ∉ [block_id fork_block1]) as H0
    by (apply (bool_decide_eq_true_1 (0 ∉ [block_id fork_block1])); vm_compute; reflexivity).
  destruct (inventory_follows grown sample_chain [block_id fork_block1] sample_chain 0 asking 7 told n' grown_shows
              ltac:(discriminate) H0 E Htold eq_refl told_follows R) as (c' & Hc & Hf).
  exists n', c'. split; [reflexivity | split; [exact Hc | split; [exact Hf |]]].
  cbn [snd] in Hids. rewrite Hc in Hids. apply Some_inj in Hids. exact Hids.
Defined.

(** Two peers that offer the same block *)
Definition both_tell : NodeImpl :=
  connect 8 (set_ids_request None told) {[ 7; 8 ]} ∅ (connect 7 (set_ids_request None told) {[ 7 ]} ∅ (started began [])).
Lemma blocks_asked_once_witness : exists n, rtc sync_step (started began []) n /\
  asked n 7 ## asked n 8 /\ asked n 7 ∪ asked n 8 = {[ block_id fork_block1 ]} /\
  asked n 7 ⊆ _active_sync_requests n.
Proof.
  assert (rtc sync_step (started began []) (snd (fetch_sync_items both_tell))) as Hs.
  { eapply rtc_l; [apply (step_connect 7 (set_ids_request None told) {[ 7 ]} ∅); reflexivity |].
    eapply rtc_l; [apply (step_connect 8 (set_ids_request None told) {[ 7; 8 ]} ∅); reflexivity |].
    apply rtc_once, step_fetch_items. }
  exists (snd (fetch_sync_items both_tell)). split; [exact Hs |].
  destruct (blocks_asked_once began [] _ 7 8 Hs) as [Hd Hk]; [discriminate |].
  split; [exact Hd | split; [vm_compute; reflexivity | exact Hk]].
Defined.

(** ** What goes wrong *)

Section Faults.
Context `{HP : ChainParams} `{HB : BlockParams} `{HC : Clock} `{HN : NodeParams} `{HV : GluaVM Pend}
  `{HNet : NetParams}.

(** The synopsis of a chain of 2^25 blocks is longer than any peer takes. *)
Lemma long_synopsis_refused d ids dS limit : shows_chain d ids -> 2 ^ 25 <= Z.of_nat (List.length ids) ->
  exists synopsis, get_blockchain_synopsis d 0 0 = Ok synopsis /\
    get_item_ids dS block_message_type synopsis limit = Err unspecified_exception.
Proof.
  intros Hd Hn. set (n := Z.of_nat (List.length ids)) in *.
  assert (summed_up ids 0 n) as Hs by (split; [now left | unfold n in *; change (2 ^ 25) with 33554432 in Hn; lia]).
  pose proof (sc_small _ _ Hd) as Hsmall. fold n in Hsmall.
  rewrite (synopsis_run d ids 0 n 0 Hd Hs) by lia. rewrite Z.add_0_r.
  destruct (summary_heights n) as (_ & _ & _ & Hr & Hlen); [unfold n in *; change (2 ^ 25) with 33554432 in Hn; lia | exact Hsmall |].
  rewrite filter_below by (intros h Hh; specialize (Hr h Hh); lia).
  eexists. split; [reflexivity |]. unfold get_item_ids. rewrite Z.eqb_refl. cbn [negb].
  assert (_blockchain_synopsis_size_limit < Z.of_nat (List.length (map (id_at ids) (heights summary_fuel n 1)))) as Hlong.
  { rewrite length_map, Hlen. pose proof (Z.log2_le_mono _ _ Hn) as Hlog. change (Z.log2 (2 ^ 25)) with 25 in Hlog.
    assert (_blockchain_synopsis_size_limit = 25) as -> by reflexivity. lia. }
  apply Z.ltb_lt in Hlong. now rewrite Hlong.
Qed.

(** A synopsis of the zero id is answered as by a damaged database. *)
Lemma zero_synopsis d ids limit : shows_chain d ids -> ids <> [] -> 0 < limit -> block_num_to_id d !! 0 = None ->
  get_item_ids d block_message_type [0] limit = Ok ([], 0).
Proof.
  intros Hd Hne Hl H0. unfold get_item_ids. rewrite Z.eqb_refl. cbn [negb rev app last_seen].
  assert (is_included_block d 0 = true) as Hinc by (apply (sc_included _ _ Hd); now left).
  unfold get_block_num at 1. cbn [Z.eqb]. rewrite Hinc. cbn [List.length result_bind].
  change (_blockchain_synopsis_size_limit <? Z.of_nat 1) with false. rewrite (sc_head _ _ Hd).
  pose proof (sc_small _ _ Hd) as Hs. destruct ids as [| i ids]; [easy |]. cbn [List.length] in *.
  destruct (Z.eqb_spec (Z.of_nat (Datatypes.S (List.length ids))) 0); [lia |].
  destruct (Z.ltb_spec (Z.of_nat (Datatypes.S (List.length ids))) 0); [lia |].
  rewrite wrap_u32_small by lia. set (items := Z.min limit _).
  destruct (Z.to_nat items) as [| m] eqn:Em; [unfold items in *; lia |]. cbn [ids_from].
  unfold block_id_at, get_block_id, bind, get. now rewrite H0.
Qed.

(** A block a peer does not have stays marked as asked for, though it is asked
    of nobody; so it is never asked for again. *)
Lemma unavailable_item_stuck n p c id : tracked n -> connections n !! p = Some c -> id ∈ sync_items_requested_from_peer c ->
  (block_message_type, id) ∉ items_requested_from_peer c ->
  let n' := snd (on_item_not_available_message p (block_message_type, id) n) in
  id ∈ _active_sync_requests n' /\ (forall q, id ∉ asked n' q) /\
  forall room scheduled ids, id ∉ choose_items n' room scheduled ids.
Proof.
  intros Hn Hc Hid Hno n'.
  assert (id ∈ _active_sync_requests n) as Hact.
  { apply (tracked_known n Hn p). unfold asked. now rewrite Hc. }
  set (n1 := set_connections (alter (fun c => set_sync_requests (sync_items_requested_from_peer c ∖ {[ id ]}) c) p (connections n)) n).
  assert (n' = snd (((if peer_needs_sync_items_from_us c then update_peer p (set_inhibit true) else disconnect_from_peer p) ;;;
                     trigger_fetch_sync_items_loop) n1)) as En.
  { unfold n', on_item_not_available_message. rewrite (bind_run_Ok (get_peer p) _ n c n (get_peer_run _ _ _ Hc)).
    rewrite bool_decide_false by exact Hno. cbn [fst snd]. rewrite Z.eqb_refl, bool_decide_true by exact Hid. reflexivity. }
  assert (same_requests n1 n') as [Ea Eq _].
  { rewrite En. destruct (peer_needs_sync_items_from_us c).
    - apply (quiet_bind (update_peer p (set_inhibit true))); [now apply quiet_update | intros _; now apply quiet_modify].
    - apply (quiet_bind (disconnect_from_peer p)); [| intros _; now apply quiet_modify].
      apply quiet_bind; [now apply quiet_modify | intros _; now apply quiet_modify]. }
  assert (forall q, id ∉ asked n' q) as Hnone.
  { intros q. rewrite Eq. unfold n1. rewrite asked_update.
    destruct (decide (p = q)) as [<- | Hne]; [rewrite Hc; cbn; set_solver |].
    pose proof (tracked_once n Hn p q Hne) as Hd. unfold asked in Hd. rewrite Hc in Hd.
    destruct (connections n !! q); set_solver. }
  assert (id ∈ _active_sync_requests n') as Hact' by (rewrite Ea; exact Hact).
  split; [exact Hact' | split; [exact Hnone |]]. intros room scheduled ids Hin%choose_fresh. tauto.
Qed.

(** The id that comes with a block is taken on trust: a block that claims the
    id of one that is known is accepted and not looked at. *)
Lemma claimed_id_accepted b id fd d : get_block_fork_data d id = Some fd -> is_known fd = true -> is_linked fd = true ->
  on_new_block b id true d = (Ok fd, d).
Proof. intros Hf Hk Hl. unfold on_new_block, bind, get. now rewrite Hf, Hk, Hl. Qed.

(** A count of items that is too large wraps, and is found plausible. *)
Example implausible_count_passes c : last_block_time_delegate_has_seen c = 0 ->
  number_of_unfetched_item_ids c = 429496730 -> 0 <= blockchain_now < 2 ^ 31 -> implausible c = false.
Proof.
  intros Ht Hn Hnow. unfold implausible. rewrite Ht, Hn. change (wrap_u32 (0 + wrap_u32 (429496730 * _))) with 4.
  unfold ALP_NET_FUTURE_SYNC_BLOCKS_GRACE_PERIOD_SEC. apply Z.ltb_ge. change (2 ^ 31) with 2147483648 in Hnow.
  rewrite wrap_u32_small by (change (2 ^ 32) with 4294967296; lia). lia.
Qed.
End Faults.

(** A block that came by another way is never taken off the peer's list of
    those being processed, nor off the received ones. *)
Definition waiting (x : BlockIdType) : PeerConnection :=
  mkPeerConnection [x] ∅ 0 false true None ∅ 0 0 0 false ∅ ∅ 0.
Example accepted_block_kept d b :
  let n := set_received [mkBlockMessage b 5] [] (set_accepted [5] (connect 7 (waiting 5) {[ 7 ]} ∅ (started d []))) in
  let n' := snd (process_backlog_of_sync_blocks n) in
  _received_sync_items n' = [mkBlockMessage b 5] /\ _handle_message_calls_in_progress n' = [] /\
  option_map (fun c => (ids_of_items_to_get c, ids_of_items_being_processed c)) (connections n' !! 7) = Some ([], {[ 5 ]}).
Proof. vm_compute. repeat split. Qed.

(** The number of the last block seen is counted from zero, whatever the number
    of the first block sent. *)
Example counted_from_zero : exists c', pop_seen grown block_message_type [block_id next_one] (set_ids [] told) = Ok ([], c') /\
  last_block_delegate_has_seen c' = block_id next_one /\ last_block_number_delegate_has_seen c' = 1 /\
  get_block_num grown (block_id next_one) = Ok 3.
Proof.
  eexists. split; [vm_compute; reflexivity |]. vm_compute. repeat split.
Qed.
