(* ===== verification/WalletDb.v ===== *)
(** * The wallet database

    wallet/WalletDb.cpp and the entries of wallet/WalletEntrys.cpp: accounts,
    keys, properties and transactions, kept in a LevelMap under the indexes
    they were given and cached in maps to look them up by address, name and id. *)

From Stdlib Require Import ZArith Lia Bool String Sorting.
From stdpp Require Import base gmap strings list sorting.
From S2P Require Import Prelude Asset Entries Names ChainInterface ChainState.

Local Open Scope Z_scope.

Abbreviation PrivateKeyType := Z (only parsing).
Abbreviation ExtendedPrivateKey := Z (only parsing).
Abbreviation Password := Z (only parsing).

(** Elliptic curves, hashing of keys and the AES cipher; a key is packed before
    it is encrypted. *)
Class WalletCrypto : Type := {
  get_public_key : PrivateKeyType -> PublicKeyType;
  sign_compact : PrivateKeyType -> DigestType -> SignatureType;
  sha512_hash : Password -> Z;
  aes_encrypt : Password -> Z -> list Z;
  aes_decrypt : Password -> list Z -> result Z;
  extended_private_key : PrivateKeyType -> ExtendedPrivateKey;
  child_of_index : ExtendedPrivateKey -> Z -> PrivateKeyType;
  child_of_sequence : ExtendedPrivateKey -> Z -> PrivateKeyType;
  public_key_string : PublicKeyType -> string;
  (** The owner key of an account that was never set *)
  unset_owner_key : PublicKeyType
}.

(** ** Entries *)

Record MasterKey := mkMasterKey { encrypted_key : list Z; checksum : Z }.

Record AccountData := mkAccountData {
  account_entry : AccountEntry;
  is_my_account : bool;
  approved : Z;
  is_favorite : bool;
  block_production_enabled : bool;
  last_used_gen_sequence : Z;
  private_data : variant
}.
Record WalletAccountEntry := mkWalletAccountEntry {
  account_index : Z;
  account_data : AccountData
}.

Record KeyData := mkKeyData {
  account_address : Address;
  public_key : PublicKeyType;
  encrypted_private_key : list Z;
  valid_from_signature : bool;
  key_memo : option string;
  gen_seq_number : Z
}.
Record WalletKeyEntry := mkWalletKeyEntry {
  key_index : Z;
  key_data : KeyData
}.

Inductive PropertyEnum :=
  | version | next_entry_number | next_child_key_index | automatic_backups
  | transaction_scanning | last_unlocked_scanned_block_number
  | default_transaction_priority_fee | transaction_expiration_sec
  | transaction_min_imessage_soft_length | transaction_min_imessage_fee_coe
  | last_scanned_block_number_for_thinkyoung.
#[export] Instance property_enum_eq_dec : EqDecision PropertyEnum.
Proof. solve_decision. Defined.
Definition property_enum_all : list PropertyEnum :=
  [version; next_entry_number; next_child_key_index; automatic_backups; transaction_scanning;
   last_unlocked_scanned_block_number; default_transaction_priority_fee; transaction_expiration_sec;
   transaction_min_imessage_soft_length; transaction_min_imessage_fee_coe;
   last_scanned_block_number_for_thinkyoung].
#[export] Program Instance property_enum_finite : finite.Finite PropertyEnum :=
  {| finite.enum := property_enum_all |}.
Next Obligation. apply (bool_decide_unpack _). vm_compute. exact I. Qed.
Next Obligation. intros []; apply (bool_decide_unpack _); vm_compute; exact I. Qed.

Record WalletPropertyEntry := mkWalletPropertyEntry {
  wallet_property_index : Z;
  wallet_property : PropertyEnum;
  wallet_property_value : variant
}.

Record LedgerEntry := mkLedgerEntry {
  from_account : option PublicKeyType;
  to_account : option PublicKeyType;
  from_contract_balance : option BalanceIdType;
  to_contract_balance : option BalanceIdType;
  ledger_amount : Asset;
  ledger_memo : string;
  memo_from_account : option PublicKeyType
}.
Record TransactionData := mkTransactionData {
  entry_id : TransactionIdType;
  entry_block_num : Z;
  is_virtual : bool;
  is_confirmed : bool;
  is_market : bool;
  entry_transaction : SignedTransaction;
  ledger_entries : list LedgerEntry;
  entry_fee : Asset;
  created_time : time_point_sec;
  received_time : time_point_sec;
  extra_addresses : list Address
}.
Record WalletTransactionEntry := mkWalletTransactionEntry {
  transaction_index : Z;
  transaction_data : TransactionData
}.

(** The entry types this file stores; [old_number_entry] is the property
    "next_record_number" of an older version, which no longer loads. *)
Inductive GenericWalletEntry :=
  | account_entry_type (e : WalletAccountEntry)
  | key_entry_type (e : WalletKeyEntry)
  | property_entry_type (e : WalletPropertyEntry)
  | transaction_entry_type (e : WalletTransactionEntry)
  | master_key_entry_type (index : Z) (m : MasterKey)
  | old_number_entry (index next : Z).
Definition get_wallet_entry_index (e : GenericWalletEntry) : Z :=
  match e with
  | account_entry_type e => account_index e
  | key_entry_type e => key_index e
  | property_entry_type e => wallet_property_index e
  | transaction_entry_type e => transaction_index e
  | master_key_entry_type index _ => index
  | old_number_entry index _ => index
  end.

(** WalletAccountEntry(), WalletKeyEntry() and LedgerEntry() *)
Definition empty_account : AccountEntry := mkAccountEntry 0 "" VNull 0 ∅ 0 0 None None.
Definition new_account_data (a : AccountEntry) : AccountData :=
  mkAccountData a false 0 false false 0 VNull.
Definition new_key_data (account_address : Address) (public_key : PublicKeyType) : KeyData :=
  mkKeyData account_address public_key [] false None 0.

Definition set_account_entry x d := mkAccountData x (is_my_account d) (approved d) (is_favorite d)
  (block_production_enabled d) (last_used_gen_sequence d) (private_data d).
Definition set_is_my_account x d := mkAccountData (account_entry d) x (approved d) (is_favorite d)
  (block_production_enabled d) (last_used_gen_sequence d) (private_data d).
Definition set_approved x d := mkAccountData (account_entry d) (is_my_account d) x (is_favorite d)
  (block_production_enabled d) (last_used_gen_sequence d) (private_data d).
Definition set_last_used_gen_sequence x d := mkAccountData (account_entry d) (is_my_account d)
  (approved d) (is_favorite d) (block_production_enabled d) x (private_data d).
Definition set_account_address x k := mkKeyData x (public_key k) (encrypted_private_key k)
  (valid_from_signature k) (key_memo k) (gen_seq_number k).

Definition has_private_key (k : KeyData) : bool := negb (length (encrypted_private_key k) =? 0)%nat.

Section Keys.
Context `{WalletCrypto}.

Definition decrypt_private_key (password : Password) (k : KeyData) : result PrivateKeyType :=
  let! _ := result_assert (negb (password =? 0)) in aes_decrypt password (encrypted_private_key k).

Definition encrypt_private_key (password : Password) (key_to_encrypt : PrivateKeyType) (k : KeyData)
    : result KeyData :=
  let! _ := result_assert (negb (password =? 0)) in
  let k := mkKeyData (account_address k) (get_public_key key_to_encrypt)
             (aes_encrypt password key_to_encrypt) (valid_from_signature k) (key_memo k) (gen_seq_number k) in
  let! decrypted := decrypt_private_key password k in
  let! _ := result_assert (key_to_encrypt =? decrypted) in Ok k.

(** MasterKey::decrypt_key *)
Definition decrypt_key (password : Password) (m : MasterKey) : result ExtendedPrivateKey :=
  let! _ := result_assert (negb (password =? 0)) in
  let! _ := result_assert (negb (length (encrypted_key m) =? 0)%nat) in
  aes_decrypt password (encrypted_key m).

Definition validate_password (password : Password) (m : MasterKey) : bool := checksum m =? sha512_hash password.
(** MasterKey::encrypt_key *)
Definition encrypt_key (password : Password) (k : ExtendedPrivateKey) : result MasterKey :=
  let! _ := result_assert (negb (password =? 0)) in
  let m := mkMasterKey (aes_encrypt password k) (sha512_hash password) in
  let! k_dec := decrypt_key password m in
  let! _ := result_assert (k_dec =? k) in Ok m.
End Keys.

(** ** The database *)

Record WalletDb := mkWalletDb {
  entrys_open : bool;
  entrys : gmap Z GenericWalletEntry;
  wallet_master_key : option MasterKey;
  properties : gmap PropertyEnum WalletPropertyEntry;
  accounts : gmap Z WalletAccountEntry;
  address_to_account_wallet_entry_index : gmap Address Z;
  name_to_account_wallet_entry_index : gmap string Z;
  account_id_to_wallet_entry_index : gmap AccountIdType Z;
  keys : gmap Address WalletKeyEntry;
  btc_to_alp_address : gmap Address Address;
  transactions : gmap TransactionIdType WalletTransactionEntry;
  id_to_transaction_entry_index : gmap TransactionIdType TransactionIdType
}.
Definition set_entrys x db := mkWalletDb (entrys_open db) x (wallet_master_key db) (properties db)
  (accounts db) (address_to_account_wallet_entry_index db) (name_to_account_wallet_entry_index db)
  (account_id_to_wallet_entry_index db) (keys db) (btc_to_alp_address db) (transactions db)
  (id_to_transaction_entry_index db).
Definition set_wallet_master_key x db := mkWalletDb (entrys_open db) (entrys db) x (properties db)
  (accounts db) (address_to_account_wallet_entry_index db) (name_to_account_wallet_entry_index db)
  (account_id_to_wallet_entry_index db) (keys db) (btc_to_alp_address db) (transactions db)
  (id_to_transaction_entry_index db).
Definition set_properties x db := mkWalletDb (entrys_open db) (entrys db) (wallet_master_key db) x
  (accounts db) (address_to_account_wallet_entry_index db) (name_to_account_wallet_entry_index db)
  (account_id_to_wallet_entry_index db) (keys db) (btc_to_alp_address db) (transactions db)
  (id_to_transaction_entry_index db).
Definition set_accounts x by_address by_name by_id db := mkWalletDb (entrys_open db) (entrys db)
  (wallet_master_key db) (properties db) x by_address by_name by_id (keys db) (btc_to_alp_address db)
  (transactions db) (id_to_transaction_entry_index db).
Definition set_keys x by_btc db := mkWalletDb (entrys_open db) (entrys db) (wallet_master_key db)
  (properties db) (accounts db) (address_to_account_wallet_entry_index db)
  (name_to_account_wallet_entry_index db) (account_id_to_wallet_entry_index db) x by_btc
  (transactions db) (id_to_transaction_entry_index db).
Definition set_transactions x by_id db := mkWalletDb (entrys_open db) (entrys db)
  (wallet_master_key db) (properties db) (accounts db) (address_to_account_wallet_entry_index db)
  (name_to_account_wallet_entry_index db) (account_id_to_wallet_entry_index db) (keys db)
  (btc_to_alp_address db) x by_id.

Definition is_open (db : WalletDb) : bool := entrys_open db && is_some (wallet_master_key db).

(** The keys of a history that are not null *)
Definition valid_keys (history : gmap Z PublicKeyType) : list PublicKeyType :=
  filter (fun k => k <> 0) (map snd (map_items history)).
(** The owner key, the active keys and a delegate's signing keys *)
Definition account_public_keys (a : AccountEntry) : list PublicKeyType :=
  owner_key a :: valid_keys (active_key_history a)
  ++ match delegate_info a with Some d => valid_keys (signing_key_history d) | None => [] end.

Section Database.
Context `{ChainParams} `{WalletCrypto}.

Definition load_account_entry (e : WalletAccountEntry) (db : WalletDb) : WalletDb :=
  let index := account_index e in let a := account_entry (account_data e) in
  set_accounts (<[index := e]> (accounts db))
    (fold_left (fun m k => <[address_of_key k := index]> m) (account_public_keys a)
       (address_to_account_wallet_entry_index db))
    (<[account_name a := index]> (name_to_account_wallet_entry_index db))
    (if account_id a =? 0 then account_id_to_wallet_entry_index db
     else <[account_id a := index]> (account_id_to_wallet_entry_index db)) db.

Definition load_key_entry (e : WalletKeyEntry) (db : WalletDb) : WalletDb :=
  let k := public_key (key_data e) in let key_address := address_of_key k in
  set_keys (<[key_address := e]> (keys db))
    (fold_left (fun m a => <[a := key_address]> m)
       [key_address; pts_address_of_key k false 0; pts_address_of_key k true 0;
        pts_address_of_key k false 56; pts_address_of_key k true 56] (btc_to_alp_address db)) db.

Definition empty_transaction : SignedTransaction := mkSignedTransaction 0 None "" (mkAsset 0 0) [] 0 0 [].
Definition load_transaction_entry (e : WalletTransactionEntry) (db : WalletDb) : WalletDb :=
  let id := entry_id (transaction_data e) in
  let transaction_id := trx_id (entry_transaction (transaction_data e)) in
  let ids := <[id := id]> (id_to_transaction_entry_index db) in
  set_transactions (<[id := e]> (transactions db))
    (if transaction_id =? trx_id empty_transaction then ids else <[transaction_id := id]> ids) db.

Definition load_property_entry (e : WalletPropertyEntry) (db : WalletDb) : WalletDb :=
  set_properties (<[wallet_property e := e]> (properties db)) db.

Definition load_generic_entry (e : GenericWalletEntry) : WalletDb -> WalletDb :=
  match e with
  | account_entry_type e => load_account_entry e
  | key_entry_type e => load_key_entry e
  | property_entry_type e => load_property_entry e
  | transaction_entry_type e => load_transaction_entry e
  | master_key_entry_type _ m => set_wallet_master_key (Some m)
  | old_number_entry _ _ => fun db => db
  end.

Abbreviation D := (M WalletDb).

Definition store_and_reload_generic_entry (e : GenericWalletEntry) : D unit :=
  db <- get ;;
  fc_assert (entrys_open db) ;;;
  fc_assert (negb (get_wallet_entry_index e =? 0)) ;;;
  modify (fun db => load_generic_entry e (set_entrys (<[get_wallet_entry_index e := e]> (entrys db)) db)).

(** ** Properties and indexes *)

Definition get_property (id : PropertyEnum) (db : WalletDb) : variant :=
  match properties db !! id with Some p => wallet_property_value p | None => VNull end.

(** store_and_reload_entry gives an entry an index when it has none. *)
Definition given_index (new_index : D Z) (index : Z) : D Z :=
  if index =? 0 then new_index else ret index.

(** set_property, which needs a new index only for a property other than the
    next number *)
Definition store_property (new_index : D Z) (id : PropertyEnum) (v : variant) : D unit :=
  db <- get ;;
  index <- match properties db !! id with
           | Some p => ret (wallet_property_index p)
           | None => if decide (id = next_entry_number) then ret 1 else new_index
           end ;;
  index <- given_index new_index index ;;
  store_and_reload_generic_entry (property_entry_type (mkWalletPropertyEntry index id v)).

(** The number an older version left, and the transactions it leaves behind *)
Definition old_number (db : WalletDb) : option Z :=
  head (omap (fun e => match snd e with old_number_entry _ next => Some next | _ => None end) (map_items (entrys db))).
Definition is_transaction_entry (e : GenericWalletEntry) : bool :=
  match e with transaction_entry_type _ => true | _ => false end.
Definition forget_transactions (db : WalletDb) : WalletDb :=
  set_transactions ∅ ∅ (set_entrys (filter (fun e => is_transaction_entry (snd e) = false) (entrys db)) db).

Definition new_wallet_entry_index : D Z :=
  db <- get ;;
  next_rec_number <-
    (if is_null (get_property next_entry_number db) then
       match old_number db with
       | Some next => modify forget_transactions ;;; ret next
       | None => ret 2
       end
     else n <- lift_result (as_int64 (get_property next_entry_number db)) ;; ret (wrap_i32 n)) ;;
  store_property (throw does_not_return) next_entry_number (VInt64 (wrap_i32 (next_rec_number + 1))) ;;;
  ret next_rec_number.
Definition set_property : PropertyEnum -> variant -> D unit := store_property new_wallet_entry_index.

Definition store_and_reload_account (e : WalletAccountEntry) : D WalletAccountEntry :=
  index <- given_index new_wallet_entry_index (account_index e) ;;
  let e := mkWalletAccountEntry index (account_data e) in
  store_and_reload_generic_entry (account_entry_type e) ;;; ret e.
Definition store_and_reload_key (e : WalletKeyEntry) : D WalletKeyEntry :=
  index <- given_index new_wallet_entry_index (key_index e) ;;
  let e := mkWalletKeyEntry index (key_data e) in
  store_and_reload_generic_entry (key_entry_type e) ;;; ret e.
Definition store_and_reload_transaction (e : WalletTransactionEntry) : D WalletTransactionEntry :=
  index <- given_index new_wallet_entry_index (transaction_index e) ;;
  let e := mkWalletTransactionEntry index (transaction_data e) in
  store_and_reload_generic_entry (transaction_entry_type e) ;;; ret e.

(** ** Looking up *)

Definition find_account (db : WalletDb) (index : option Z) : result (option WalletAccountEntry) :=
  if is_open db then Ok (index ≫= fun i => accounts db !! i) else Err assert_exception.
Definition lookup_account (db : WalletDb) (account_address : Address) : result (option WalletAccountEntry) :=
  find_account db (address_to_account_wallet_entry_index db !! account_address).
Definition lookup_account_by_name (db : WalletDb) (account_name : string) : result (option WalletAccountEntry) :=
  find_account db (name_to_account_wallet_entry_index db !! account_name).
Definition lookup_account_by_id (db : WalletDb) (account_id : AccountIdType) : result (option WalletAccountEntry) :=
  find_account db (account_id_to_wallet_entry_index db !! account_id).
Definition lookup_key (db : WalletDb) (derived_address : Address) : result (option WalletKeyEntry) :=
  if is_open db then Ok (btc_to_alp_address db !! derived_address ≫= fun a => keys db !! a)
  else Err assert_exception.
Definition lookup_transaction (db : WalletDb) (id : TransactionIdType) : result (option WalletTransactionEntry) :=
  if is_open db then Ok (id_to_transaction_entry_index db !! id ≫= fun i => transactions db !! i)
  else Err assert_exception.
(** WalletDb::has_private_key *)
Definition db_has_private_key (db : WalletDb) (addr : Address) : bool :=
  match keys db !! addr with Some k => has_private_key (key_data k) | None => false end.
Definition get_account_name (db : WalletDb) (account_address : Address) : result string :=
  let! opt := lookup_account db account_address in
  Ok (match opt with Some a => account_name (account_entry (account_data a)) | None => "?" end).

Definition view_db {A} (f : WalletDb -> result A) : D A := db <- get ;; lift_result (f db).

Definition store_wallet_transaction (transaction : TransactionData) : D unit :=
  db <- get ;;
  fc_assert (is_open db) ;;;
  fc_assert (negb (entry_id transaction =? 0)) ;;;
  fc_assert (is_virtual transaction
             || negb (trx_id (entry_transaction transaction) =? trx_id empty_transaction)) ;;;
  found <- view_db (fun db => lookup_transaction db (entry_id transaction)) ;;
  let index := match found with Some e => transaction_index e | None => 0 end in
  store_and_reload_transaction (mkWalletTransactionEntry index transaction) ;;; ret tt.

(** ** Accounts and keys *)

(** std::set< PublicKeyType >, in iteration order *)
Definition key_set (l : list PublicKeyType) : list PublicKeyType :=
  merge_sort Z.le (elements (list_to_set l : gset Z)).

Section WithStoreKey.
Variable store_key : KeyData -> D unit.

(** The first loop of store_account: every key has an entry, and those with
    private keys make the account the user's own and become its. *)
Fixpoint claim_keys (ks : list PublicKeyType) (e : WalletAccountEntry) : D WalletAccountEntry :=
  match ks with
  | [] => ret e
  | k :: ks' =>
      found <- view_db (fun db => lookup_key db (address_of_key k)) ;;
      e <- match found with
           | None => store_key (new_key_data (address_of_key k) k) ;;; ret e
           | Some key =>
               if has_private_key (key_data key) then
                 e <- (if is_my_account (account_data e) then ret e
                       else store_and_reload_account
                              (mkWalletAccountEntry (account_index e) (set_is_my_account true (account_data e)))) ;;
                 let owner := owner_address (account_entry (account_data e)) in
                 when (negb (account_address (key_data key) =? owner))
                   (store_key (set_account_address owner (key_data key))) ;;;
                 ret e
               else ret e
           end ;;
      claim_keys ks' e
  end.

(** WalletDb::get_account_child_key *)
Definition get_account_child_key (active_private_key : PrivateKeyType) (seq_num : Z) (db : WalletDb)
    : result PrivateKeyType :=
  if is_open db then Ok (child_of_sequence (extended_private_key active_private_key) seq_num)
  else Err assert_exception.

Definition lacks_private_key (key : option WalletKeyEntry) : bool :=
  match key with Some key => negb (has_private_key (key_data key)) | None => true end.

(** The second loop: the first child key of the owner key, when it is missing
    and the password is at hand; [before] is the account before it was stored. *)
Definition restore_key (before : option WalletAccountEntry) (password : Password) (k : PublicKeyType) : D unit :=
  found <- view_db (fun db => lookup_key db (address_of_key k)) ;;
  when (lacks_private_key found && negb (password =? 0))
    (let owner := address_of_key match before with
                                 | Some b => owner_key (account_entry (account_data b))
                                 | None => unset_owner_key
                                 end in
     found <- view_db (fun db => lookup_key db owner) ;;
     match found with
     | Some owner_key_entry =>
         when (has_private_key (key_data owner_key_entry))
           (owner_key <- lift_result (decrypt_private_key password (key_data owner_key_entry)) ;;
            active_private_key <- view_db (get_account_child_key owner_key 0) ;;
            let active_public_key := get_public_key active_private_key in
            when (active_public_key =? k)
              (active_key <- lift_result (encrypt_private_key password active_private_key
                               (new_key_data (address_of_key active_public_key) active_public_key)) ;;
               store_key active_key))
     | None => ret tt
     end).

(** store_account( const AccountData&, password ) *)
Definition store_account_with (account : AccountData) (password : Password) : D unit :=
  let a := account_entry account in
  db <- get ;;
  fc_assert (is_open db) ;;;
  fc_assert (negb (String.eqb (account_name a) "")) ;;;
  fc_assert (negb (owner_key a =? 0)) ;;;
  before <- view_db (fun db => lookup_account db (owner_address a)) ;;
  let index := match before with Some b => account_index b | None => 0 end in
  e <- store_and_reload_account (mkWalletAccountEntry index account) ;;
  claim_keys (key_set (account_public_keys a)) e ;;;
  forM (key_set (account_public_keys a)) (restore_key before password).
End WithStoreKey.

(** store_key, given store_account *)
Definition store_key_with (store_account : AccountData -> D unit) (key : KeyData) : D unit :=
  db <- get ;;
  fc_assert (is_open db) ;;;
  fc_assert (negb (public_key key =? 0)) ;;;
  found <- view_db (fun db => lookup_key db (address_of_key (public_key key))) ;;
  let index := match found with Some k => key_index k | None => 0 end in
  key_entry <- store_and_reload_key (mkWalletKeyEntry index key) ;;
  when (has_private_key key)
    (account <- view_db (fun db => lookup_account db (address_of_key (public_key key))) ;;
     account <- match account with
                | Some a => ret (Some a)
                | None => view_db (fun db => lookup_account db (account_address key))
                end ;;
     match account with
     | Some a =>
         let owner := owner_address (account_entry (account_data a)) in
         when (negb (account_address key =? owner))
           (store_and_reload_key (mkWalletKeyEntry (key_index key_entry) (set_account_address owner key)) ;;; ret tt) ;;;
         when (negb (is_my_account (account_data a)))
           (store_account (set_is_my_account true (account_data a)))
     | None => ret tt
     end).

(** The two call one another; [calls] bounds how deep. *)
Fixpoint store_key_calls (calls : nat) (key : KeyData) : D unit :=
  match calls with
  | O => throw does_not_return
  | Datatypes.S n => store_key_with (fun account => store_account_with (store_key_calls n) account 0) key
  end.
Definition store_key : KeyData -> D unit := store_key_calls 2.
Definition store_account : AccountData -> Password -> D unit := store_account_with store_key.

(** store_account( const AccountEntry&, password ) *)
Definition store_blockchain_account (a : AccountEntry) (password : Password) : D unit :=
  db <- get ;;
  fc_assert (is_open db) ;;;
  found <- view_db (fun db => lookup_account db (owner_address a)) ;;
  let data := match found with Some e => account_data e | None => new_account_data empty_account end in
  store_account (set_account_entry a data) password.

Definition import_key (password : Password) (name : string) (private_key : PrivateKeyType)
    (move_existing : bool) : D unit :=
  db <- get ;;
  fc_assert (is_open db) ;;;
  found <- view_db (fun db => lookup_account_by_name db name) ;;
  account <- valid_or found assert_exception ;;
  let owner := owner_address (account_entry (account_data account)) in
  let k := get_public_key private_key in
  found <- view_db (fun db => lookup_key db (address_of_key k)) ;;
  key <- match found with
         | None => ret (new_key_data 0 0)
         | Some key => fc_assert (move_existing || (account_address (key_data key) =? owner)) ;;; ret (key_data key)
         end ;;
  key <- lift_result (encrypt_private_key password private_key (set_account_address owner key)) ;;
  store_key key.

(** rename_account; operator [] of the map of names puts 0 under a name it does not know. *)
Definition rename_account (old_account_key : PublicKeyType) (new_account_name : string) : D unit :=
  db <- get ;;
  fc_assert (is_open db) ;;;
  found <- view_db (fun db => lookup_account db (address_of_key old_account_key)) ;;
  acct <- valid_or found assert_exception ;;
  let index := account_index acct in let a := account_entry (account_data acct) in
  let renamed := mkAccountEntry (account_id a) new_account_name (account_public_data a) (owner_key a)
    (active_key_history a) (account_registration_date a) (account_last_update a) (delegate_info a) (meta_data a) in
  let acct := mkWalletAccountEntry index (set_account_entry renamed (account_data acct)) in
  let names := <[new_account_name := index]> (name_to_account_wallet_entry_index db) in
  let names := if default 0 (names !! account_name a) =? index then delete (account_name a) names
               else <[account_name a := default 0 (names !! account_name a)]> names in
  let addresses := fold_left (fun m k => <[address_of_key k := index]> m)
    (owner_key a :: map snd (map_items (active_key_history a))) (address_to_account_wallet_entry_index db) in
  modify (set_accounts (<[index := acct]> (accounts db)) addresses names (account_id_to_wallet_entry_index db)) ;;;
  store_and_reload_account acct ;;; ret tt.

(** ** Passwords *)

Definition set_master_key (extended_key : ExtendedPrivateKey) (new_password : Password) : D unit :=
  key <- lift_result (encrypt_key new_password extended_key) ;;
  store_and_reload_generic_entry (master_key_entry_type (-1) key).

Definition change_password (old_password new_password : Password) : D unit :=
  db <- get ;;
  fc_assert (is_open db) ;;;
  m <- valid_or (wallet_master_key db) assert_exception ;;
  master_private_key <- lift_result (decrypt_key old_password m) ;;
  set_master_key master_private_key new_password ;;;
  forM (map_to_list (keys db)) (fun key =>
    when (has_private_key (key_data (snd key)))
      (priv_key <- lift_result (decrypt_private_key old_password (key_data (snd key))) ;;
       changed <- lift_result (encrypt_private_key new_password priv_key (key_data (snd key))) ;;
       store_and_reload_key (mkWalletKeyEntry (key_index (snd key)) changed) ;;; ret tt)).

(** ** New keys *)

Definition key_taken (db : WalletDb) (a : Address) : result bool :=
  let! key := lookup_key db a in Ok (negb (lacks_private_key key)).
Definition account_taken (db : WalletDb) (a : Address) : result bool :=
  let! account := lookup_account db a in Ok (is_some account).

Section Search.
Variables (db : WalletDb) (password : Password).

(** The loop of generate_new_account_child_key: the next sequence number whose
    child key is new *)
Fixpoint next_child_key (fuel : nat) (active_private_key : PrivateKeyType) (seq_num : Z)
    : result (Z * PrivateKeyType) :=
  match fuel with
  | O => Err does_not_return
  | Datatypes.S fuel =>
      let seq_num := wrap_u32 (seq_num + 1) in
      let! _ := result_assert (negb (seq_num =? 0)) in
      let! child := get_account_child_key active_private_key seq_num db in
      let! taken := key_taken db (address_of_key (get_public_key child)) in
      if taken then next_child_key fuel active_private_key seq_num else Ok (seq_num, child)
  end.

(** WalletDb::get_wallet_child_key *)
Definition get_wallet_child_key (key_index : Z) : result PrivateKeyType :=
  let! _ := result_assert (is_open db) in
  match wallet_master_key db with
  | Some m => let! master_private_key := decrypt_key password m in Ok (child_of_index master_private_key key_index)
  | None => Err assert_exception
  end.

(** The loop of generate_new_account: the next index whose child key and its
    first child are new *)
Fixpoint next_wallet_key (fuel : nat) (key_index : Z) : result (Z * PrivateKeyType * PrivateKeyType) :=
  match fuel with
  | O => Err does_not_return
  | Datatypes.S fuel =>
      let key_index := wrap_u32 (key_index + 1) in
      let! _ := result_assert (negb (key_index =? 0)) in
      let! owner := get_wallet_child_key key_index in
      let owner_address := address_of_key (get_public_key owner) in
      let! known := account_taken db owner_address in
      if known then next_wallet_key fuel key_index else
      let! taken := key_taken db owner_address in
      if taken then next_wallet_key fuel key_index else
      let! active := get_account_child_key owner 0 db in
      let active_address := address_of_key (get_public_key active) in
      let! known := account_taken db active_address in
      if known then next_wallet_key fuel key_index else
      let! taken := key_taken db active_address in
      if taken then next_wallet_key fuel key_index else Ok (key_index, owner, active)
  end.
End Search.

Definition set_gen_seq_number (n : Z) (k : KeyData) : KeyData := mkKeyData (account_address k) (public_key k)
  (encrypted_private_key k) (valid_from_signature k) (key_memo k) n.

Definition generate_new_account_child_key (fuel : nat) (password : Password) (name : string) : D PrivateKeyType :=
  db <- get ;;
  fc_assert (is_open db) ;;;
  found <- view_db (fun db => lookup_account_by_name db name) ;;
  account <- valid_or found assert_exception ;;
  let a := account_entry (account_data account) in
  retracted <- lift_result (is_retracted a) ;;
  fc_assert (negb retracted) ;;;
  fc_assert (is_my_account (account_data account)) ;;;
  active <- lift_result (active_key a) ;;
  found <- view_db (fun db => lookup_key db (address_of_key active)) ;;
  key_entry <- valid_or found assert_exception ;;
  fc_assert (has_private_key (key_data key_entry)) ;;;
  active_private_key <- lift_result (decrypt_private_key password (key_data key_entry)) ;;
  child <- view_db (fun db => next_child_key db fuel active_private_key
                                (last_used_gen_sequence (account_data account))) ;;
  let (seq_num, account_child_private_key) := child : Z * PrivateKeyType in
  key <- lift_result (encrypt_private_key password account_child_private_key
                        (new_key_data (owner_address a) (get_public_key account_child_private_key))) ;;
  store_account (set_last_used_gen_sequence seq_num (account_data account)) 0 ;;;
  store_key (set_gen_seq_number seq_num key) ;;;
  ret account_child_private_key.

Definition get_last_wallet_child_key_index (db : WalletDb) : result Z :=
  if is_open db then
    Ok (match as_int64 (get_property next_child_key_index db) with Ok n => wrap_u32 n | Err _ => 0 end)
  else Err assert_exception.

(** [now] is blockchain::now(). *)
Definition generate_new_account (fuel : nat) (now : time_point_sec) (password : Password) (name : string)
    (data : variant) : D PublicKeyType :=
  db <- get ;;
  fc_assert (is_open db) ;;;
  found <- view_db (fun db => lookup_account_by_name db name) ;;
  fc_assert (negb (is_some found)) ;;;
  index <- view_db get_last_wallet_child_key_index ;;
  new <- view_db (fun db => next_wallet_key db password fuel index) ;;
  let '(index, owner_private_key, active_private_key) := new : Z * PrivateKeyType * PrivateKeyType in
  let owner_public_key := get_public_key owner_private_key in
  let owner_address := address_of_key owner_public_key in
  active_key <- lift_result (encrypt_private_key password active_private_key
                               (new_key_data owner_address (get_public_key active_private_key))) ;;
  owner_key <- lift_result (encrypt_private_key password owner_private_key
                              (new_key_data owner_address owner_public_key)) ;;
  let a := mkAccountEntry 0 name VNull owner_public_key ∅ 0 0 None None in
  a <- lift_result (set_active_key now (get_public_key active_private_key) a) ;;
  let a := mkAccountEntry 0 name VNull owner_public_key (active_key_history a) 0 now None None in
  store_key active_key ;;;
  set_property next_child_key_index (VInt64 index) ;;;
  store_key (set_gen_seq_number index owner_key) ;;;
  store_account (mkAccountData a true 0 false false 0 data) 0 ;;;
  ret owner_public_key.
End Database.
