(* ===== verification/WalletDbLaws.v ===== *)
(** * What is stored in the wallet database

    Storing accounts and keys ends, and keeps the caches and the entries on
    disk in agreement. *)

From Stdlib Require Import ZArith Lia Bool String.
From stdpp Require Import base gmap strings list sorting.
From S2P Require Import Prelude Asset Entries Names ChainInterface ChainState WalletDb.

Local Open Scope Z_scope.

(** Hashing does not collide: addresses tell keys apart, and are apart from the
    addresses of older chains. *)
Class AddressLaws `{ChainParams} : Prop := {
  address_of_key_inj k k' : address_of_key k = address_of_key k' -> k = k';
  pts_address_apart k k' compressed version : pts_address_of_key k compressed version <> address_of_key k'
}.

Section Laws.
Context `{ChainParams} `{WalletCrypto}.
Abbreviation D := (M WalletDb).

(** ** Reading *)

Lemma view_db_run {A} (f : WalletDb -> result A) db a : f db = Ok a -> view_db f db = (Ok a, db).
Proof. unfold view_db, bind, get, lift_result. now intros ->. Qed.
Lemma view_db_Ok {A} (f : WalletDb -> result A) db a db' : view_db f db = (Ok a, db') <-> f db = Ok a /\ db' = db.
Proof.
  unfold view_db, bind, get, lift_result. split; [intros [=]; subst; auto | intros [-> ->]; reflexivity].
Qed.
Lemma view_db_state {A} (f : WalletDb -> result A) db r db' : view_db f db = (r, db') -> db' = db.
Proof. unfold view_db, bind, get, lift_result. now intros [= _ <-]. Qed.

(** ** What the operations leave alone *)

(** Two databases that agree in a part of them *)
Definition same_in {A} (f : WalletDb -> A) (db db' : WalletDb) : Prop := f db' = f db.
#[export] Instance same_in_preorder {A} (f : WalletDb -> A) : PreOrder (same_in f).
Proof. split; [easy |]. intros a b c E1 E2. unfold same_in in *. congruence. Qed.

Definition account_part (db : WalletDb) := (is_open db, accounts db, address_to_account_wallet_entry_index db,
  name_to_account_wallet_entry_index db, account_id_to_wallet_entry_index db).
Definition key_part (db : WalletDb) := (is_open db, keys db, btc_to_alp_address db).

Lemma store_generic_same {A} (f : WalletDb -> A) e :
  (forall db, f (load_generic_entry e (set_entrys (<[get_wallet_entry_index e := e]> (entrys db)) db)) = f db) ->
  along (same_in f) (store_and_reload_generic_entry e).
Proof.
  intros Hf. unfold store_and_reload_generic_entry. apply along_bind; [apply _ | intros s r s' [= _ <-]; reflexivity |].
  intros db. repeat (apply along_bind; [apply _ | | intros []]).
  1,2: unfold fc_assert; destruct (_ : bool); [apply along_ret | apply along_throw]; apply _.
  apply along_modify. intros s. apply Hf.
Qed.

(** Giving out indexes touches neither accounts nor keys. *)
Definition both_parts (db : WalletDb) := (account_part db, key_part db).
Lemma store_property_same m id v : along (same_in both_parts) m ->
  along (same_in both_parts) (store_property m id v).
Proof.
  intros Hm. unfold store_property. apply along_bind; [apply _ | intros s r s' [= _ <-]; reflexivity |].
  intros db. apply along_bind; [apply _ | |].
  { destruct (properties db !! id); [apply along_ret, _ |]. destruct (decide _); [apply along_ret, _ | exact Hm]. }
  intros i. apply along_bind; [apply _ | |].
  { unfold given_index. destruct (i =? 0); [exact Hm | apply along_ret, _]. }
  intros j. apply store_generic_same. reflexivity.
Qed.
Lemma new_index_same : along (same_in both_parts) new_wallet_entry_index.
Proof.
  unfold new_wallet_entry_index. apply along_bind; [apply _ | intros s r s' [= _ <-]; reflexivity |].
  intros db. apply along_bind; [apply _ | |].
  { destruct (is_null _).
    - destruct (old_number db); [| apply along_ret, _]. apply along_bind; [apply _ | | intros; apply along_ret, _].
      apply along_modify. reflexivity.
    - apply along_bind; [apply _ | apply along_lift, _ | intros; apply along_ret, _]. }
  intros n. apply along_bind; [apply _ | | intros; apply along_ret, _].
  apply store_property_same, along_throw, _.
Qed.
Lemma given_index_same i : along (same_in both_parts) (given_index new_wallet_entry_index i).
Proof. unfold given_index. destruct (i =? 0); [apply new_index_same | apply along_ret, _]. Qed.
Lemma both_account {A} (m : D A) : along (same_in both_parts) m -> along (same_in account_part) m.
Proof. intros Hm s r s' E. apply Hm in E. unfold same_in, both_parts in *. congruence. Qed.
Lemma both_key {A} (m : D A) : along (same_in both_parts) m -> along (same_in key_part) m.
Proof. intros Hm s r s' E. apply Hm in E. unfold same_in, both_parts in *. congruence. Qed.
Lemma store_reload_key_same e : along (same_in account_part) (store_and_reload_key e).
Proof.
  unfold store_and_reload_key. apply along_bind; [apply _ | apply both_account, given_index_same |].
  intros i. apply along_bind; [apply _ | | intros; apply along_ret, _]. apply store_generic_same. reflexivity.
Qed.
Lemma store_reload_account_same e : along (same_in key_part) (store_and_reload_account e).
Proof.
  unfold store_and_reload_account. apply along_bind; [apply _ | apply both_key, given_index_same |].
  intros i. apply along_bind; [apply _ | | intros; apply along_ret, _]. apply store_generic_same. reflexivity.
Qed.

(** ** Keys under their addresses *)

Record keys_wf (db : WalletDb) : Prop := {
  key_named a e : keys db !! a = Some e -> address_of_key (public_key (key_data e)) = a;
  key_found a e : keys db !! a = Some e -> btc_to_alp_address db !! a = Some a;
  alias_known a b : btc_to_alp_address db !! a = Some b -> is_Some (keys db !! b);
  alias_form a b : btc_to_alp_address db !! a = Some b ->
    a = b \/ exists k compressed version, a = pts_address_of_key k compressed version
}.
Definition keeping_keys (db db' : WalletDb) : Prop := keys_wf db -> keys_wf db'.
#[export] Instance keeping_keys_preorder : PreOrder keeping_keys.
Proof. split; unfold keeping_keys; [easy | intros a b c; auto]. Qed.

Lemma key_part_wf db db' : same_in key_part db db' -> keeping_keys db db'.
Proof. intros [= _ E1 E2] []. split; rewrite ?E1, ?E2; eauto. Qed.
Lemma along_key_part {A} (m : D A) : along (same_in key_part) m -> along keeping_keys m.
Proof. intros Hm s r s' E. eapply key_part_wf, Hm, E. Qed.
Lemma along_view {A} (R : WalletDb -> WalletDb -> Prop) `{!PreOrder R} (f : WalletDb -> result A) :
  along R (view_db f).
Proof. intros s r s' E. apply view_db_state in E as ->. reflexivity. Qed.
Lemma along_get (R : WalletDb -> WalletDb -> Prop) `{!PreOrder R} : along R Prelude.get.
Proof. intros s r s' [= _ <-]. reflexivity. Qed.
Lemma along_assert (R : WalletDb -> WalletDb -> Prop) `{!PreOrder R} b : along R (fc_assert b).
Proof. destruct b; [apply along_ret | apply along_throw]; exact _. Qed.
Lemma along_valid_or {A} (R : WalletDb -> WalletDb -> Prop) `{!PreOrder R} (o : option A) e : along R (valid_or o e).
Proof. destruct o; [apply along_ret | apply along_throw]; exact _. Qed.

Context `{!AddressLaws}.

(** A key by its own address is the key stored under it. *)
Lemma lookup_key_own db k found : keys_wf db -> lookup_key db (address_of_key k) = Ok found ->
  found = keys db !! address_of_key k.
Proof.
  intros Hwf. unfold lookup_key. destruct (is_open db); [intros [= <-] | discriminate].
  destruct (btc_to_alp_address db !! address_of_key k) as [b |] eqn:Eb; cbn.
  - destruct (alias_form db Hwf _ _ Eb) as [-> | (k' & c & v & E)]; [reflexivity |].
    symmetry in E. now apply pts_address_apart in E.
  - destruct (keys db !! address_of_key k) as [e |] eqn:Ek; [| reflexivity].
    apply key_found in Ek; [congruence | exact Hwf].
Qed.
Lemma lookup_key_public db k e : keys_wf db -> lookup_key db (address_of_key k) = Ok (Some e) ->
  public_key (key_data e) = k.
Proof.
  intros Hwf E. apply lookup_key_own in E; [| exact Hwf]. symmetry in E.
  now apply address_of_key_inj, (key_named db Hwf).
Qed.

Lemma alias_insert (l : list Address) b (m : gmap Address Address) a :
  fold_left (fun m a => <[a := b]> m) l m !! a = Some b /\ a ∈ l
  \/ fold_left (fun m a => <[a := b]> m) l m !! a = m !! a /\ a ∉ l.
Proof.
  revert m. induction l as [| x l IH]; intros m; cbn [fold_left]; [right; split; [reflexivity | apply not_elem_of_nil] |].
  destruct (IH (<[x := b]> m)) as [[E Hin] | [E Hin]]; [left; split; [exact E | apply elem_of_cons; now right] |].
  rewrite E. destruct (decide (x = a)) as [-> | Hne].
  - left. rewrite lookup_insert_eq. split; [reflexivity | apply elem_of_cons; now left].
  - right. rewrite lookup_insert_ne by exact Hne. split; [reflexivity |].
    intros [-> | Ha]%elem_of_cons; [now apply Hne | now apply Hin].
Qed.

Lemma load_key_wf e db : keys_wf db -> keys_wf (load_key_entry e db).
Proof.
  intros [N F K A]. set (k := public_key (key_data e)).
  set (l := [address_of_key k; pts_address_of_key k false 0; pts_address_of_key k true 0;
             pts_address_of_key k false 56; pts_address_of_key k true 56]).
  assert (forall a, a ∈ l -> a = address_of_key k \/ exists k c v, a = pts_address_of_key k c v) as Hl.
  { intros a Ha. unfold l in Ha. rewrite !elem_of_cons in Ha. destruct Ha as [-> | [-> | [-> | [-> | [-> | Ha]]]]]; eauto.
    now apply not_elem_of_nil in Ha. }
  split; cbn -[fold_left]; fold k l.
  - intros a e'. destruct (decide (a = address_of_key k)) as [-> | Hne].
    + rewrite lookup_insert_eq. now intros [= <-].
    + rewrite lookup_insert_ne by congruence. apply N.
  - intros a e'. destruct (alias_insert l (address_of_key k) (btc_to_alp_address db) a) as [[E Hin] | [E Hin]]; rewrite E.
    + destruct (decide (a = address_of_key k)) as [-> | Hne]; [reflexivity |].
      rewrite lookup_insert_ne by congruence. intros Ha. destruct (Hl a Hin) as [? | (k' & c & v & ->)]; [congruence |].
      apply N in Ha. symmetry in Ha. now apply pts_address_apart in Ha.
    + destruct (decide (a = address_of_key k)) as [-> | Hne]; [exfalso; apply Hin, elem_of_cons; now left |].
      rewrite lookup_insert_ne by congruence. apply F.
  - intros a b. destruct (alias_insert l (address_of_key k) (btc_to_alp_address db) a) as [[E Hin] | [E Hin]]; rewrite E.
    + intros [= <-]. rewrite lookup_insert_eq. now eexists.
    + intros Hb. destruct (decide (b = address_of_key k)) as [-> | Hne]; [rewrite lookup_insert_eq; now eexists |].
      rewrite lookup_insert_ne by congruence. eapply K, Hb.
  - intros a b. destruct (alias_insert l (address_of_key k) (btc_to_alp_address db) a) as [[E Hin] | [E Hin]]; rewrite E.
    + intros [= <-]. apply Hl, Hin.
    + apply A.
Qed.

Lemma store_reload_key_wf e : along keeping_keys (store_and_reload_key e).
Proof.
  unfold store_and_reload_key. apply along_bind; [apply _ | apply along_key_part, both_key, given_index_same |].
  intros i. apply along_bind; [apply _ | | intros; apply along_ret, _]. unfold store_and_reload_generic_entry.
  apply along_bind; [apply _ | apply along_get, _ |]. intros db0.
  do 2 (apply along_bind; [apply _ | apply along_assert, _ | intros _]).
  apply along_modify. intros db Hwf. apply load_key_wf. destruct Hwf. split; eauto.
Qed.

(** ** How deep storing a key and storing an account call one another *)

(** The account of a key is the user's already. *)
Definition settled (k : KeyData) (db : WalletDb) : Prop :=
  exists a, lookup_account db (address_of_key (public_key k)) = Ok (Some a)
            /\ is_my_account (account_data a) = true.

Lemma find_account_same db db' i : same_in account_part db db' -> find_account db' i = find_account db i.
Proof. intros [= Eo Ea _ _ _]. unfold find_account. now rewrite Eo, Ea. Qed.
Lemma lookup_account_same db db' a : same_in account_part db db' -> lookup_account db' a = lookup_account db a.
Proof.
  intros E. unfold lookup_account. rewrite (find_account_same db db' _ E).
  injection E as _ _ Ea _ _. now rewrite Ea.
Qed.

Lemma bind_same {S A B} (m m' : M S A) (k k' : A -> M S B) s : m s = m' s ->
  (forall a s', m s = (Ok a, s') -> k a s' = k' a s') -> bind m k s = bind m' k' s.
Proof. intros E Hk. unfold bind. rewrite <- E. destruct (m s) as [[a | e] s'] eqn:Em; [now apply Hk | reflexivity]. Qed.

Lemma when_same {S} b (m m' : M S unit) s : m s = m' s -> when b m s = when b m' s.
Proof. now destruct b. Qed.

Lemma store_key_settled f g k db : has_private_key k = false \/ settled k db ->
  store_key_with f k db = store_key_with g k db.
Proof.
  intros Hs. unfold store_key_with. apply bind_same; [reflexivity |]. intros ? db1 [= -> <-].
  do 2 (apply bind_same; [reflexivity |]; intros [] ? [_ ->]%fc_assert_Ok).
  apply bind_same; [reflexivity |]. intros found ? [_ ->]%view_db_Ok.
  apply bind_same; [reflexivity |]. intros e db2 E2. apply store_reload_key_same in E2.
  destruct Hs as [-> | (a & Ea & Hmine)]; [reflexivity |]. unfold when. destruct (has_private_key k); [| reflexivity].
  apply bind_same; [reflexivity |]. intros o ? [Eo ->]%view_db_Ok.
  rewrite (lookup_account_same _ _ _ E2), Ea in Eo. injection Eo as <-.
  apply bind_same; [reflexivity |]. intros o ? [<- ->]%ret_Ok. rewrite Hmine. reflexivity.
Qed.

(** An account that is stored and found by all its keys *)
Record stored (e : WalletAccountEntry) (db : WalletDb) : Prop := {
  stored_open : is_open db = true;
  stored_there : accounts db !! account_index e = Some e;
  stored_index : account_index e <> 0;
  stored_found k : k ∈ account_public_keys (account_entry (account_data e)) ->
    address_to_account_wallet_entry_index db !! address_of_key k = Some (account_index e);
  stored_named : name_to_account_wallet_entry_index db !! account_name (account_entry (account_data e)) = Some (account_index e)
}.
Lemma stored_lookup e db k : stored e db -> k ∈ account_public_keys (account_entry (account_data e)) ->
  lookup_account db (address_of_key k) = Ok (Some e).
Proof.
  intros [Ho Ht _ Hf _] Hk. unfold lookup_account, find_account. rewrite Ho, (Hf k Hk). cbn. now rewrite Ht.
Qed.
Lemma stored_same e db db' : same_in account_part db db' -> stored e db -> stored e db'.
Proof. intros [= E1 E2 E3 E4 _] []. split; rewrite ?E1, ?E2, ?E3, ?E4; auto. Qed.

Lemma index_insert (l : list PublicKeyType) (i : Z) (m : gmap Address Z) k : k ∈ l ->
  fold_left (fun m k => <[address_of_key k := i]> m) l m !! address_of_key k = Some i.
Proof.
  revert m. induction l as [| x l IH]; intros m Hk; [now apply not_elem_of_nil in Hk |]. cbn [fold_left].
  destruct (decide (k ∈ l)) as [Hl | Hl]; [now apply IH |].
  apply elem_of_cons in Hk as [<- | ?]; [| contradiction]. clear IH.
  assert (<[address_of_key k := i]> m !! address_of_key k = Some i) as E by apply lookup_insert_eq.
  revert E. generalize (<[address_of_key k := i]> m). clear m Hl.
  induction l as [| y l IH]; intros m E; cbn [fold_left]; [exact E |]. apply IH.
  destruct (decide (address_of_key y = address_of_key k)) as [-> | Hne]; [apply lookup_insert_eq |].
  now rewrite lookup_insert_ne.
Qed.

Lemma store_reload_account_Ok e db e' db' : is_open db = true -> store_and_reload_account e db = (Ok e', db') ->
  e' = mkWalletAccountEntry (account_index e') (account_data e) /\ stored e' db' /\
  (account_index e <> 0 -> account_index e' = account_index e) /\ same_in key_part db db'.
Proof.
  intros Ho E. pose proof (store_reload_account_same e db (Ok e') db' E) as Hk.
  unfold store_and_reload_account in E. run_inv E.
  assert (account_index e <> 0 -> a = account_index e) as Hi.
  { unfold given_index in R. destruct (Z.eqb_spec (account_index e) 0); [easy |]. now apply ret_Ok in R as [-> _]. }
  apply given_index_same in R. injection R as Hopen _ _ _ _ _ _.
  unfold store_and_reload_generic_entry in R1. run_inv R1. to_prop. cbn in *.
  split; [reflexivity |]. split; [| split; [exact Hi | exact Hk]].
  split; cbn; [| apply lookup_insert_eq | assumption | intros k Hin; exact (index_insert _ _ _ k Hin) | apply lookup_insert_eq].
  rewrite <- Ho, <- Hopen. reflexivity.
Qed.

Definition only_keys (db db' : WalletDb) : Prop := same_in account_part db db' /\ keeping_keys db db'.
#[export] Instance only_keys_preorder : PreOrder only_keys.
Proof. split; [now split |]. intros a b c [] []. split; etransitivity; eauto. Qed.
Lemma along_both {A} (R R' : WalletDb -> WalletDb -> Prop) (m : D A) : along R m -> along R' m ->
  along (fun s s' => R s s' /\ R' s s') m.
Proof. intros Hm Hm' s r s' E. split; [eapply Hm, E | eapply Hm', E]. Qed.
Lemma store_reload_key_only e : along only_keys (store_and_reload_key e).
Proof. exact (along_both _ _ _ (store_reload_key_same e) (store_reload_key_wf e)). Qed.
Lemma store_key_only (f : AccountData -> D unit) k : (forall a, along only_keys (f a)) -> along only_keys (store_key_with f k).
Proof.
  intros Hf. unfold store_key_with. pose proof only_keys_preorder as HR.
  apply along_bind; [exact HR | exact (along_get _) |]. intros db.
  do 2 (apply along_bind; [exact HR | exact (along_assert _ _) |]; intros _).
  apply along_bind; [exact HR | exact (along_view _ _) |]. intros found.
  apply along_bind; [exact HR | apply store_reload_key_only |]. intros e. apply along_when; [exact HR |].
  apply along_bind; [exact HR | exact (along_view _ _) |]. intros o.
  apply along_bind; [exact HR | destruct o; [now apply along_ret | exact (along_view _ _)] |]. intros [a |]; [| now apply along_ret].
  apply along_bind; [exact HR | | intros _; now apply along_when].
  apply along_when; [exact HR |]. apply along_bind; [exact HR | apply store_reload_key_only | intros; now apply along_ret].
Qed.
Lemma store_key_settled_only f k db r db' : has_private_key k = false \/ settled k db ->
  store_key_with f k db = (r, db') -> only_keys db db'.
Proof.
  intros Hs. rewrite (store_key_settled f (fun _ => ret tt) k db Hs). apply store_key_only.
  intros a. apply along_ret, only_keys_preorder.
Qed.

Lemma claim_stored e db e' db1 : stored e db -> keys_wf db ->
  (if is_my_account (account_data e) then ret e
   else store_and_reload_account (mkWalletAccountEntry (account_index e) (set_is_my_account true (account_data e)))) db
  = (Ok e', db1) ->
  stored e' db1 /\ keys_wf db1 /\ is_my_account (account_data e') = true
  /\ account_entry (account_data e') = account_entry (account_data e).
Proof.
  intros He Hwf E1. destruct (is_my_account (account_data e)) eqn:Em; [now apply ret_Ok in E1 as [-> ->] |].
  apply store_reload_account_Ok in E1 as (-> & Hst & _ & Hk1); [| apply He]. split; [exact Hst |].
  split; [now apply (key_part_wf db) | now split].
Qed.

(** Once the account is stored, claiming its keys needs one call of store_key. *)
Lemma claim_keys_settled f g ks : forall e db, stored e db -> keys_wf db ->
  (forall k, k ∈ ks -> k ∈ account_public_keys (account_entry (account_data e))) ->
  claim_keys (store_key_with f) ks e db = claim_keys (store_key_with g) ks e db.
Proof.
  induction ks as [| k ks IH]; intros e db He Hwf Hks; cbn [claim_keys]; [reflexivity |].
  assert (k ∈ account_public_keys (account_entry (account_data e))) as Hk by (apply Hks, elem_of_cons; now left).
  apply bind_same; [reflexivity |]. intros found ? [Ef ->]%view_db_Ok.
  assert (forall e' db', stored e' db' -> keys_wf db' -> account_entry (account_data e') = account_entry (account_data e) ->
    claim_keys (store_key_with f) ks e' db' = claim_keys (store_key_with g) ks e' db') as Hnext.
  { intros e' db' He' Hwf' Ee. apply IH; [assumption.. |]. rewrite Ee. intros k' Hk'. apply Hks, elem_of_cons. now right. }
  clear IH Hks. destruct found as [key |].
  - apply lookup_key_public in Ef; [| exact Hwf]. destruct (has_private_key (key_data key)) eqn:Ep.
    2: { apply bind_same; [reflexivity |]. intros ? ? [<- ->]%ret_Ok. now apply Hnext. }
    pose proof (fun e' db1 => claim_stored e db e' db1 He Hwf) as Hclaim.
    assert (forall e' db1, (if is_my_account (account_data e) then ret e
               else store_and_reload_account (mkWalletAccountEntry (account_index e) (set_is_my_account true (account_data e)))) db
              = (Ok e', db1) -> settled (set_account_address (owner_address (account_entry (account_data e'))) (key_data key)) db1) as Hs.
    { intros e' db1 E1. apply Hclaim in E1 as (He1 & _ & Hmine & Ee). exists e'. split; [| exact Hmine].
      cbn. rewrite Ef. apply stored_lookup; [exact He1 | now rewrite Ee]. }
    apply bind_same.
    + apply bind_same; [reflexivity |]. intros e' db1 E1. apply bind_same; [| reflexivity].
      unfold when. destruct (negb _); [| reflexivity]. apply store_key_settled. right. eauto.
    + intros e'' db2 E2. run_inv E2. pose proof (Hs _ _ R) as Hset. apply Hclaim in R as (He1 & Hwf1 & _ & Ee).
      assert (only_keys s db2) as [Ha Hk'].
      { unfold when in R1. destruct (negb _); [| now apply ret_Ok in R1 as [_ ->]]. eapply store_key_settled_only; [| exact R1]. now right. }
      apply Hnext; [eapply stored_same; eassumption | auto | exact Ee].
  - apply bind_same.
    + apply bind_same; [| reflexivity]. now apply store_key_settled; left.
    + intros e' db1 E1. run_inv E1. apply store_key_settled_only in R; [| now left]. apply Hnext; [| | reflexivity].
      * eapply stored_same; [apply R | exact He].
      * now apply R.
Qed.

Lemma key_set_elem k l : k ∈ key_set l <-> k ∈ l.
Proof.
  unfold key_set. rewrite (merge_sort_Permutation Z.le), elem_of_elements, elem_of_list_to_set. reflexivity.
Qed.

(** Storing an account without a password needs one call of store_key. *)
Lemma store_account_settled f g account db : keys_wf db ->
  store_account_with (store_key_with f) account 0 db = store_account_with (store_key_with g) account 0 db.
Proof.
  intros Hwf. unfold store_account_with. apply bind_same; [reflexivity |]. intros ? ? [= <- <-].
  apply bind_same; [reflexivity |]. intros [] ? [Ho ->]%fc_assert_Ok.
  do 2 (apply bind_same; [reflexivity |]; intros [] ? [_ ->]%fc_assert_Ok).
  apply bind_same; [reflexivity |]. intros before ? [_ ->]%view_db_Ok.
  apply bind_same; [reflexivity |]. intros e db1 E1. apply store_reload_account_Ok in E1 as (Ee & Hst & _ & Hk1); [| exact Ho].
  apply bind_same.
  - apply claim_keys_settled; [exact Hst | eapply key_part_wf; eassumption |]. intros k Hk. rewrite Ee. now apply key_set_elem.
  - intros e' db2 _. clear. revert db2. induction (key_set _) as [| k ks IH]; intros db2; [reflexivity |].
    cbn [for_each]. apply bind_same; [| intros []; exact (fun _ _ => IH _)].
    unfold restore_key. apply bind_same; [reflexivity |]. intros found ? _. now rewrite andb_false_r.
Qed.

Lemma store_key_with_same f g key db : keys_wf db -> (forall a db', keys_wf db' -> f a db' = g a db') ->
  store_key_with f key db = store_key_with g key db.
Proof.
  intros Hwf Hfg. unfold store_key_with. apply bind_same; [reflexivity |]. intros ? ? [= <- <-].
  do 2 (apply bind_same; [reflexivity |]; intros [] ? [_ ->]%fc_assert_Ok).
  apply bind_same; [reflexivity |]. intros found ? [_ ->]%view_db_Ok.
  apply bind_same; [reflexivity |]. intros e db1 E1. apply store_reload_key_wf in E1. specialize (E1 Hwf).
  apply when_same. apply bind_same; [reflexivity |]. intros o ? [_ ->]%view_db_Ok.
  apply bind_same; [reflexivity |]. intros o' db2 E2. assert (db2 = db1) as ->.
  { destruct o; [apply ret_Ok in E2 as [_ E2]; symmetry; exact E2 | exact (view_db_state _ _ _ _ E2)]. }
  destruct o' as [a |]; [| reflexivity]. apply bind_same; [reflexivity |]. intros [] db3 E3.
  apply when_same, Hfg. eapply (along_when keeping_keys keeping_keys_preorder) in E3; [exact (E3 E1) |].
  apply along_bind; [exact keeping_keys_preorder | apply store_reload_key_wf |].
  intros. apply along_ret, keeping_keys_preorder.
Qed.

(** C40: Storing a key and storing an account, which call one another, do so at most twice deep: with more calls allowed the outcome is the same. *)
Theorem store_key_two_calls n key db : keys_wf db -> store_key_calls (2 + n) key db = store_key key db.
Proof.
  intros Hwf. apply store_key_with_same; [exact Hwf |]. intros a db' Hwf'. cbv beta. now apply store_account_settled.
Qed.

(** ** What storing an account makes of it *)

Lemma claim_keys_stored f ks : forall e db e' db', stored e db -> keys_wf db ->
  (forall k, k ∈ ks -> k ∈ account_public_keys (account_entry (account_data e))) ->
  claim_keys (store_key_with f) ks e db = (Ok e', db') ->
  stored e' db' /\ account_entry (account_data e') = account_entry (account_data e)
  /\ (is_my_account (account_data e) = true -> is_my_account (account_data e') = true).
Proof.
  induction ks as [| k ks IH]; intros e db e' db' He Hwf Hks; cbn [claim_keys].
  { intros [-> ->]%ret_Ok. auto. }
  assert (k ∈ account_public_keys (account_entry (account_data e))) as Hk by (apply Hks, elem_of_cons; now left).
  intros E. apply bind_Ok in E as (found & db0 & [Ef ->]%view_db_Ok & E). apply bind_Ok in E as (e1 & db1 & E1 & E2).
  assert (stored e1 db1 /\ keys_wf db1 /\ account_entry (account_data e1) = account_entry (account_data e)
          /\ (is_my_account (account_data e) = true -> is_my_account (account_data e1) = true)) as (He1 & Hwf1 & Ee & Hm).
  { destruct found as [key |].
    - apply lookup_key_public in Ef; [| exact Hwf]. destruct (has_private_key _); [| now apply ret_Ok in E1 as [<- <-]].
      apply bind_Ok in E1 as (e2 & s & R & E1). pose proof (claim_stored e db e2 s He Hwf R) as (He2 & Hwf2 & Hmine & Ee).
      apply bind_Ok in E1 as (u & s1 & R1 & [<- <-]%ret_Ok).
      assert (settled (set_account_address (owner_address (account_entry (account_data e2))) (key_data key)) s) as Hset.
      { exists e2. split; [| exact Hmine]. cbn. rewrite Ef. apply stored_lookup; [exact He2 | now rewrite Ee]. }
      assert (only_keys s s1) as [Ha Hk'].
      { destruct (negb _); [| apply ret_Ok in R1 as [_ <-]; reflexivity]. eapply store_key_settled_only; [| exact R1]. now right. }
      split; [eapply stored_same; eassumption | auto].
    - apply bind_Ok in E1 as (u & s & R & [<- <-]%ret_Ok). apply store_key_settled_only in R as [Ha Hk']; [| now left].
      split; [eapply stored_same; eassumption | auto]. }
  destruct (IH e1 db1 e' db' He1 Hwf1) as (? & ? & ?); [| exact E2 |].
  - intros k' Hk'. rewrite Ee. apply Hks, elem_of_cons. now right.
  - split; [assumption |]. split; [congruence | auto].
Qed.

Lemma restore_nothing sk before ks : along (same_in (fun db => db)) (forM ks (restore_key sk before 0)).
Proof.
  apply along_forM; [exact _ |]. intros k. unfold restore_key. apply along_bind; [exact _ | exact (along_view _ _) |].
  intros found. rewrite andb_false_r. cbn [when]. apply along_ret, _.
Qed.

(** An account stored without a password is found by its name and its keys. *)
Lemma store_account_result account db db' : keys_wf db -> store_account account 0 db = (Ok tt, db') ->
  exists e, stored e db' /\ account_entry (account_data e) = account_entry account
            /\ (is_my_account account = true -> is_my_account (account_data e) = true).
Proof.
  intros Hwf E. unfold store_account, store_key, store_account_with in E. cbn [store_key_calls] in E.
  apply bind_Ok in E as (? & ? & [-> <-]%get_Ok & E). apply bind_Ok in E as (? & ? & [Ho <-]%fc_assert_Ok & E).
  do 2 (apply bind_Ok in E as (? & ? & [_ <-]%fc_assert_Ok & E)).
  apply bind_Ok in E as (before & ? & [_ ->]%view_db_Ok & E). apply bind_Ok in E as (e & db1 & E1 & E).
  apply store_reload_account_Ok in E1 as (Ee & Hst & _ & Hk1); [| exact Ho].
  apply bind_Ok in E as (e' & db2 & E2 & E).
  apply claim_keys_stored in E2 as (Hst' & Ee' & Hm); [| exact Hst | eapply key_part_wf; eassumption |].
  - assert (db' = db2) as ->.
    { apply restore_nothing in E. exact E. }
    exists e'. split; [exact Hst' |]. rewrite Ee', Ee. cbn. split; [reflexivity |]. rewrite Ee in Hm. exact Hm.
  - intros k Hk. rewrite Ee. exact (proj1 (key_set_elem _ _) Hk).
Qed.
End Laws.
