(* ===== verification/WalletDbStore.v ===== *)
(** * Memory and disk of the wallet database agree

    Whatever accounts, keys and properties are stored, each is on disk under an
    index of its own, and nothing else is, until the indexes run out. *)

From Stdlib Require Import ZArith Lia Bool String.
From stdpp Require Import base gmap strings list sorting.
From S2P Require Import Prelude Asset Entries Names ChainInterface ChainState WalletDb WalletDbLaws.

Local Open Scope Z_scope.

Definition INT32_MAX : Z := 2 ^ 31 - 1.

Section Store.
Context `{ChainParams} `{WalletCrypto} `{!AddressLaws}.
Abbreviation D := (M WalletDb).

(** An entry of the disk is the one in memory. *)
Definition cached (db : WalletDb) (e : GenericWalletEntry) : Prop :=
  match e with
  | account_entry_type a => accounts db !! account_index a = Some a
  | key_entry_type k => keys db !! address_of_key (public_key (key_data k)) = Some k
  | property_entry_type p => properties db !! wallet_property p = Some p
  | transaction_entry_type _ => True
  | master_key_entry_type _ m => wallet_master_key db = Some m
  | old_number_entry _ _ => False
  end.

(** The master key has index -1, the next number 1, and the others their own. *)
Definition own_index (e : GenericWalletEntry) (i : Z) : Prop :=
  get_wallet_entry_index e = i /\
  match e with
  | master_key_entry_type _ _ => i = -1
  | property_entry_type p => if decide (wallet_property p = next_entry_number) then i = 1 else 2 <= i
  | _ => 2 <= i
  end.

Definition next_index (db : WalletDb) : Z :=
  match properties db !! next_entry_number with
  | Some p => match wallet_property_value p with VInt64 n => n | _ => 0 end
  | None => 2
  end.

Record durable (db : WalletDb) : Prop := {
  disk_entry i e : entrys db !! i = Some e -> own_index e i /\ i < next_index db /\ cached db e;
  account_saved i a : accounts db !! i = Some a ->
    account_index a = i /\ entrys db !! i = Some (account_entry_type a);
  key_saved a k : keys db !! a = Some k -> entrys db !! key_index k = Some (key_entry_type k);
  property_saved id p : properties db !! id = Some p ->
    wallet_property p = id /\ entrys db !! wallet_property_index p = Some (property_entry_type p);
  number_saved p : properties db !! next_entry_number = Some p -> wallet_property_value p = VInt64 (next_index db);
  next_range : 2 <= next_index db <= INT32_MAX;
  keys_named : keys_wf db
}.

(** What storing an entry makes of the database *)
Definition put (e : GenericWalletEntry) (db : WalletDb) : WalletDb :=
  load_generic_entry e (set_entrys (<[get_wallet_entry_index e := e]> (entrys db)) db).
Lemma put_entrys e db : entrys (put e db) = <[get_wallet_entry_index e := e]> (entrys db).
Proof. now destruct e. Qed.
Lemma store_generic_run e db r db' : store_and_reload_generic_entry e db = (r, db') ->
  r = Ok tt /\ entrys_open db = true /\ get_wallet_entry_index e <> 0 /\ db' = put e db
  \/ (exists x, r = Err x) /\ db' = db /\ (entrys_open db = false \/ get_wallet_entry_index e = 0).
Proof.
  unfold store_and_reload_generic_entry, bind, get, fc_assert, ret, throw, modify, put.
  destruct (entrys_open db) eqn:Eo; [| intros [= <- <-]; right; split; [now eexists | auto]].
  destruct (Z.eqb_spec (get_wallet_entry_index e) 0); intros [= <- <-].
  - right. split; [now eexists | auto].
  - left. auto.
Qed.

Lemma free_slot db i : durable db -> next_index db <= i -> entrys db !! i = None.
Proof. intros Hd Hi. destruct (entrys db !! i) eqn:E; [| reflexivity]. apply (disk_entry db Hd) in E. lia. Qed.

(** A slot for an entry: it is free and below the next index, or holds the
    entry that is replaced. *)
Definition free (db : WalletDb) (i : Z) : Prop := entrys db !! i = None /\ 2 <= i < next_index db.

Lemma put_key_durable k db : durable db ->
  match keys db !! address_of_key (public_key (key_data k)) with
  | Some k0 => key_index k = key_index k0
  | None => free db (key_index k)
  end -> durable (put (key_entry_type k) db).
Proof.
  intros Hd Hs. set (a := address_of_key (public_key (key_data k))) in *. set (i := key_index k) in *.
  assert (forall e, entrys db !! i = Some e -> exists k0, e = key_entry_type k0 /\ keys db !! a = Some k0) as Hi.
  { intros e He. destruct (keys db !! a) as [k0 |] eqn:Ek; [| destruct Hs; congruence].
    exists k0. split; [| reflexivity]. apply (key_saved db Hd) in Ek. congruence. }
  assert (2 <= i < next_index db) as Hr.
  { destruct (keys db !! a) as [k0 |] eqn:Ek; [| apply Hs]. apply (key_saved db Hd) in Ek. rewrite <- Hs in Ek.
    apply (disk_entry db Hd) in Ek as ([_ ?] & ? & _). lia. }
  pose proof (load_key_wf k (set_entrys (<[i := key_entry_type k]> (entrys db)) db)) as Hwf.
  split; unfold put; cbn [load_generic_entry get_wallet_entry_index]; fold i.
  - intros j e. cbn. destruct (decide (i = j)) as [<- | Hne].
    + rewrite lookup_insert_eq. intros [= <-]. repeat split; [lia | exact (proj2 Hr) |]. cbn. apply lookup_insert_eq.
    + rewrite lookup_insert_ne by exact Hne. intros He. destruct (disk_entry db Hd j e He) as (Hown & Hj & Hc).
      split; [exact Hown |]. split; [exact Hj |]. destruct e; try exact Hc. cbn in *. fold a.
      destruct (decide (a = address_of_key (public_key (key_data e)))) as [Ea | Hna]; [| now rewrite lookup_insert_ne].
      exfalso. rewrite <- Ea in Hc. rewrite Hc in Hs. apply Hne. rewrite Hs. apply Hown.
  - intros j x Hx. cbn in *. destruct (account_saved db Hd j x Hx) as [Ej He]. split; [exact Ej |].
    rewrite lookup_insert_ne; [exact He |]. intros <-. destruct (Hi _ He) as (? & ? & _). discriminate.
  - intros b x. cbn. fold a. destruct (decide (a = b)) as [<- | Hne].
    + rewrite lookup_insert_eq. intros [= <-]. apply lookup_insert_eq.
    + rewrite lookup_insert_ne by exact Hne. intros Hx. pose proof (key_saved db Hd b x Hx) as He.
      rewrite lookup_insert_ne; [exact He |]. intros Eix. rewrite <- Eix in He.
      destruct (Hi _ He) as (k0 & [= <-] & Hk0). apply Hne.
      apply (key_named db (keys_named db Hd)) in Hx, Hk0. congruence.
  - intros id p Hp. cbn in *. destruct (property_saved db Hd id p Hp) as [Ep He]. split; [exact Ep |].
    rewrite lookup_insert_ne; [exact He |]. intros Eix. rewrite <- Eix in He. destruct (Hi _ He) as (? & ? & _). discriminate.
  - exact (number_saved db Hd).
  - exact (next_range db Hd).
  - apply Hwf. destruct (keys_named db Hd). split; eauto.
Qed.

Lemma put_account_durable x db : durable db ->
  (free db (account_index x) \/ is_Some (accounts db !! account_index x)) -> durable (put (account_entry_type x) db).
Proof.
  intros Hd Hs. set (i := account_index x) in *.
  assert (forall e, entrys db !! i = Some e -> exists y, e = account_entry_type y) as Hi.
  { intros e He. destruct Hs as [[Hn _] | [y Hy]]; [congruence |]. apply (account_saved db Hd) in Hy as [_ Hy]. exists y. congruence. }
  assert (2 <= i < next_index db) as Hr.
  { destruct Hs as [[_ ?] | [y Hy]]; [assumption |]. apply (account_saved db Hd) in Hy as [_ Hy].
    apply (disk_entry db Hd) in Hy as ([_ ?] & ? & _). lia. }
  split; unfold put; cbn [load_generic_entry get_wallet_entry_index]; fold i.
  - intros j e. cbn. fold i. destruct (decide (i = j)) as [<- | Hne].
    + rewrite lookup_insert_eq. intros [= <-]. repeat split; [lia | exact (proj2 Hr) |]. cbn. apply lookup_insert_eq.
    + rewrite lookup_insert_ne by exact Hne. intros He. destruct (disk_entry db Hd j e He) as (Hown & Hj & Hc).
      split; [exact Hown |]. split; [exact Hj |]. destruct e; try exact Hc. cbn in *. destruct Hown as [Hown _]. cbn in Hown.
      fold i. rewrite lookup_insert_ne; [exact Hc | congruence].
  - intros j y. cbn. fold i. destruct (decide (i = j)) as [<- | Hne].
    + rewrite !lookup_insert_eq. intros [= <-]. now split.
    + rewrite !lookup_insert_ne by exact Hne. apply (account_saved db Hd).
  - intros b y Hy. cbn in *. pose proof (key_saved db Hd b y Hy) as He.
    rewrite lookup_insert_ne; [exact He |]. intros Eix. rewrite <- Eix in He. destruct (Hi _ He). discriminate.
  - intros id p Hp. cbn in *. destruct (property_saved db Hd id p Hp) as [Ep He]. split; [exact Ep |].
    rewrite lookup_insert_ne; [exact He |]. intros Eix. rewrite <- Eix in He. destruct (Hi _ He). discriminate.
  - exact (number_saved db Hd).
  - exact (next_range db Hd).
  - destruct (keys_named db Hd). split; eauto.
Qed.

(** A property in its slot; the next number may only grow. *)
Lemma put_property_durable p db next : durable db ->
  match properties db !! wallet_property p with
  | Some p0 => wallet_property_index p = wallet_property_index p0
  | None => if decide (wallet_property p = next_entry_number) then wallet_property_index p = 1
            else free db (wallet_property_index p)
  end ->
  next_index db <= next <= INT32_MAX ->
  (wallet_property p = next_entry_number -> wallet_property_value p = VInt64 next) ->
  (wallet_property p <> next_entry_number -> next = next_index db) ->
  durable (put (property_entry_type p) db) /\ next_index (put (property_entry_type p) db) = next.
Proof.
  intros Hd Hs Hn Hv Hsame. set (i := wallet_property_index p) in *. set (id := wallet_property p) in *.
  assert (Hnext : next_index (put (property_entry_type p) db) = next).
  { unfold next_index at 1. cbn. fold id. destruct (decide (id = next_entry_number)) as [E | Hne].
    - rewrite E, lookup_insert_eq. now rewrite (Hv E).
    - rewrite lookup_insert_ne by exact Hne. symmetry. exact (Hsame Hne). }
  assert (forall e, entrys db !! i = Some e -> exists p0, e = property_entry_type p0 /\ properties db !! id = Some p0) as Hi.
  { intros e He. destruct (properties db !! id) as [p0 |] eqn:Ep.
    - apply (property_saved db Hd) in Ep as [_ Ep]. exists p0. split; [congruence | reflexivity].
    - exfalso. destruct (decide (id = next_entry_number)) as [E | Hne]; [| destruct Hs; congruence].
      destruct (disk_entry db Hd i e He) as ([_ Ho] & _ & Hc). rewrite Hs in Ho. destruct e; cbn in Ho; try lia.
      cbn in Hc. destruct (decide _) as [E' |]; [| lia]. congruence. }
  assert (own_index (property_entry_type p) i) as Hown.
  { split; [reflexivity |]. fold id. destruct (properties db !! id) as [p0 |] eqn:Ep.
    - destruct (property_saved db Hd id p0 Ep) as [E0 Hp0]. destruct (disk_entry db Hd _ _ Hp0) as ([_ Ho] & _).
      rewrite E0, <- Hs in Ho. exact Ho.
    - destruct (decide _); [exact Hs | apply Hs]. }
  assert (i < next) as Hlt.
  { destruct (entrys db !! i) as [e |] eqn:Ee; [apply (disk_entry db Hd) in Ee; lia |].
    destruct (properties db !! id) as [p0 |] eqn:Ep; [apply (property_saved db Hd) in Ep as [_ Ep]; congruence |].
    destruct (decide (id = next_entry_number)); [pose proof (next_range db Hd); lia | destruct Hs; lia]. }
  split; [| exact Hnext]. split; rewrite ?Hnext.
  - intros j e. cbn. fold i id. destruct (decide (i = j)) as [<- | Hne].
    + rewrite lookup_insert_eq. intros [= <-]. split; [exact Hown |]. split; [exact Hlt |]. cbn. apply lookup_insert_eq.
    + rewrite lookup_insert_ne by exact Hne. intros He. destruct (disk_entry db Hd j e He) as (Hoj & Hj & Hc).
      split; [exact Hoj |]. split; [lia |]. destruct e; try exact Hc. cbn in *. fold id.
      destruct (decide (id = wallet_property e)) as [Ea | Hna]; [| now rewrite lookup_insert_ne].
      exfalso. rewrite <- Ea in Hc. rewrite Hc in Hs. apply Hne. rewrite Hs. apply Hoj.
  - intros j x Hx. cbn in *. destruct (account_saved db Hd j x Hx) as [Ej He]. split; [exact Ej |].
    rewrite lookup_insert_ne; [exact He |]. intros Eix. rewrite <- Eix in He. destruct (Hi _ He) as (? & ? & _). discriminate.
  - intros b x Hx. cbn in *. pose proof (key_saved db Hd b x Hx) as He.
    rewrite lookup_insert_ne; [exact He |]. intros Eix. rewrite <- Eix in He. destruct (Hi _ He) as (? & ? & _). discriminate.
  - intros id' p'. cbn. fold i id. destruct (decide (id = id')) as [<- | Hne].
    + rewrite lookup_insert_eq. intros [= <-]. split; [reflexivity | apply lookup_insert_eq].
    + rewrite lookup_insert_ne by exact Hne. intros Hp. destruct (property_saved db Hd id' p' Hp) as [Ep He].
      split; [exact Ep |]. rewrite lookup_insert_ne; [exact He |]. intros Eix. rewrite <- Eix in He.
      destruct (Hi _ He) as (p0 & [= <-] & Hp0). apply (property_saved db Hd) in Hp0 as [Hp0 _]. congruence.
  - intros p'. cbn. fold id. destruct (decide (id = next_entry_number)) as [E | Hne].
    + rewrite E, lookup_insert_eq. intros [= <-]. exact (Hv E).
    + rewrite lookup_insert_ne by exact Hne. rewrite (Hsame Hne). apply (number_saved db Hd).
  - pose proof (next_range db Hd). lia.
  - destruct (keys_named db Hd). split; eauto.
Qed.

Definition numbered (db : WalletDb) : WalletDb :=
  put (property_entry_type (mkWalletPropertyEntry 1 next_entry_number (VInt64 (wrap_i32 (next_index db + 1))))) db.

Lemma wrap_i32_small z : - 2 ^ 31 <= z < 2 ^ 31 -> wrap_i32 z = z.
Proof. intros Hz. unfold wrap_i32. rewrite Z.mod_small; lia. Qed.

Lemma number_index db p : durable db -> properties db !! next_entry_number = Some p -> wallet_property_index p = 1.
Proof.
  intros Hd Hp. destruct (property_saved db Hd _ p Hp) as [Ep He]. apply (disk_entry db Hd) in He as ([E Ho] & _).
  rewrite Ep in Ho. destruct (decide _); [exact Ho | contradiction].
Qed.

Lemma no_old_number db : durable db -> old_number db = None.
Proof.
  intros Hd. unfold old_number. assert (forall l : list (Z * GenericWalletEntry),
    (forall i e, (i, e) ∈ l -> entrys db !! i = Some e) ->
    omap (fun e => match snd e with old_number_entry _ next => Some next | _ => None end) l = []) as Hl.
  { induction l as [| [i e] l IH]; intros Hin; [reflexivity |]. cbn.
    assert (entrys db !! i = Some e) as He by (apply Hin, elem_of_cons; now left).
    apply (disk_entry db Hd) in He as (_ & _ & Hc).
    assert (omap (fun e => match snd e with old_number_entry _ next => Some next | _ => None end) l = []) as Eo.
    { apply IH. intros j x Hx. apply Hin, elem_of_cons. now right. }
    destruct e; try exact Eo. destruct Hc. }
  now rewrite Hl by (intros i e; apply elem_of_map_items).
Qed.

Lemma store_number_run m v db : durable db -> store_property m next_entry_number v db
  = store_and_reload_generic_entry (property_entry_type (mkWalletPropertyEntry 1 next_entry_number v)) db.
Proof.
  intros Hd. unfold store_property. rewrite (bind_run_Ok _ _ db db db) by reflexivity. rewrite (bind_run_Ok _ _ db 1 db).
  - now rewrite (bind_run_Ok _ _ db 1 db).
  - destruct (properties db !! next_entry_number) as [p |] eqn:Ep; [now rewrite (number_index db p Hd Ep) | reflexivity].
Qed.

Lemma new_index_run db r db' : durable db -> new_wallet_entry_index db = (r, db') ->
  r = Ok (next_index db) /\ entrys_open db = true /\ db' = numbered db \/ (exists x, r = Err x) /\ db' = db.
Proof.
  intros Hd. unfold new_wallet_entry_index. rewrite (bind_run_Ok _ _ db db db) by reflexivity.
  rewrite (bind_run_Ok _ _ db (next_index db) db).
  2: { unfold get_property, next_index. destruct (properties db !! next_entry_number) as [p |] eqn:Ep.
       - pose proof (number_saved db Hd p Ep) as Ev. rewrite Ev. cbn.
         rewrite wrap_i32_small; [reflexivity |]. pose proof (next_range db Hd) as Hr. unfold INT32_MAX in Hr. lia.
       - cbn. now rewrite (no_old_number db Hd). }
  unfold bind. rewrite (store_number_run _ _ _ Hd).
  destruct (store_and_reload_generic_entry _ db) as [r1 db1] eqn:E1. apply store_generic_run in E1.
  destruct E1 as [(-> & Ho & _ & ->) | ([x ->] & -> & _)]; intros [= <- <-]; [left; auto | right; eauto].
Qed.

(** All indexes are given out. *)
Definition worn (db : WalletDb) : Prop :=
  is_Some (entrys db !! INT32_MAX)
  /\ exists p n, properties db !! next_entry_number = Some p /\ wallet_property_value p = VInt64 n.
Definition good (db : WalletDb) : Prop := durable db \/ worn db.

Lemma numbered_durable db : durable db -> next_index db < INT32_MAX ->
  durable (numbered db) /\ next_index (numbered db) = next_index db + 1.
Proof.
  intros Hd Hlt. pose proof (next_range db Hd) as Hr. unfold numbered, INT32_MAX in *.
  rewrite wrap_i32_small by lia. apply put_property_durable; [exact Hd | | unfold INT32_MAX; lia | intros _; reflexivity | intros Hc; now contradiction Hc].
  cbn [wallet_property wallet_property_index].
  destruct (properties db !! next_entry_number) as [p |] eqn:Ep; [symmetry; now apply (number_index db) | reflexivity].
Qed.

(** An entry that asks for an index gets the next one, and either the database
    stays in order or its indexes are used up. *)
Lemma store_new (mk : Z -> GenericWalletEntry) db r db' : durable db ->
  (forall i, get_wallet_entry_index (mk i) = i) ->
  (forall db1, durable db1 -> both_parts db1 = both_parts db ->
     (forall id, id <> next_entry_number -> properties db1 !! id = properties db !! id) ->
     free db1 (next_index db) -> durable (put (mk (next_index db)) db1)) ->
  (forall i p, mk i = property_entry_type p -> wallet_property p <> next_entry_number) ->
  (i <- new_wallet_entry_index ;; store_and_reload_generic_entry (mk i)) db = (r, db') ->
  good db' /\ (forall u, r = Ok u -> db' = put (mk (next_index db)) (numbered db)).
Proof.
  intros Hd Hi Hput Hprop. unfold bind. destruct (new_wallet_entry_index db) as [r1 db1] eqn:E1.
  destruct (new_index_run db r1 db1 Hd E1) as [(-> & Ho & ->) | [[x ->] ->]].
  2: { intros [= <- <-]. split; [left; exact Hd | discriminate]. }
  pose proof (next_range db Hd) as Hr. intros E2. apply store_generic_run in E2 as [(-> & _ & _ & ->) | (_ & _ & Hfail)].
  - split; [| reflexivity]. destruct (Z.eq_dec (next_index db) INT32_MAX) as [Emax | Hne].
    + right. split.
      * rewrite put_entrys, Hi, Emax, lookup_insert_eq. now eexists.
      * exists (mkWalletPropertyEntry 1 next_entry_number (VInt64 (wrap_i32 (next_index db + 1)))), (wrap_i32 (next_index db + 1)).
        split; [| reflexivity]. destruct (mk (next_index db)) as [| | p | | |] eqn:Em; cbn; try apply lookup_insert_eq.
        rewrite lookup_insert_ne by (eapply Hprop, Em). apply lookup_insert_eq.
    + destruct (numbered_durable db Hd ltac:(lia)) as [Hdn En]. left. apply Hput; [exact Hdn | reflexivity | |].
      * intros id Hid. cbn. now rewrite lookup_insert_ne.
      * split; [| lia]. unfold numbered, put. cbn. rewrite lookup_insert_ne by lia. apply free_slot; [exact Hd | lia].
  - exfalso. rewrite Hi in Hfail. destruct Hfail as [Hfail | Hfail]; [cbn in Hfail; congruence | lia].
Qed.

(** Used up stays used up. *)
Definition wears (db db' : WalletDb) : Prop := worn db -> worn db'.
#[export] Instance wears_preorder : PreOrder wears.
Proof. split; unfold wears; [easy | intros a b c; auto]. Qed.

Definition not_next (e : GenericWalletEntry) : Prop :=
  match e with property_entry_type p => wallet_property p <> next_entry_number | _ => True end.
Lemma put_worn e db : worn db ->
  not_next e \/ (exists i n, e = property_entry_type (mkWalletPropertyEntry i next_entry_number (VInt64 n))) -> worn (put e db).
Proof.
  intros [Ht (p & n & Hp & Hv)] He. split.
  - rewrite put_entrys. destruct (decide (get_wallet_entry_index e = INT32_MAX)) as [-> | Hne].
    + rewrite lookup_insert_eq. now eexists.
    + now rewrite lookup_insert_ne.
  - destruct He as [He | (i & m & ->)].
    + exists p, n. split; [| exact Hv]. destruct e; try exact Hp. cbn in *. now rewrite lookup_insert_ne.
    + eexists _, m. split; [apply lookup_insert_eq | reflexivity].
Qed.
Lemma store_generic_wears e :
  not_next e \/ (exists i n, e = property_entry_type (mkWalletPropertyEntry i next_entry_number (VInt64 n))) ->
  along wears (store_and_reload_generic_entry e).
Proof.
  intros He db r db' E Hw. apply store_generic_run in E as [(_ & _ & _ & ->) | (_ & -> & _)]; [now apply put_worn | exact Hw].
Qed.
Lemma store_property_wears m id v : along wears m -> (id = next_entry_number -> exists n, v = VInt64 n) ->
  along wears (store_property m id v).
Proof.
  intros Hm Hv. unfold store_property. apply along_bind; [exact wears_preorder | exact (along_get _) |]. intros db.
  apply along_bind; [exact wears_preorder | |].
  { destruct (properties db !! id); [now apply along_ret, wears_preorder |].
    destruct (decide _); [now apply along_ret, wears_preorder | exact Hm]. }
  intros i. apply along_bind; [exact wears_preorder | |].
  { unfold given_index. destruct (i =? 0); [exact Hm | now apply along_ret, wears_preorder]. }
  intros j. apply store_generic_wears. destruct (decide (id = next_entry_number)) as [-> | Hne]; [| now left].
  destruct (Hv eq_refl) as [n ->]. right. eauto.
Qed.
Lemma new_index_wears : along wears new_wallet_entry_index.
Proof.
  intros db r db' E Hw. pose proof Hw as [_ (p & n & Hp & Hv)]. unfold new_wallet_entry_index in E.
  rewrite (bind_run_Ok _ _ db db db) in E by reflexivity. unfold get_property in E. rewrite Hp, Hv in E.
  rewrite (bind_run_Ok _ _ db (wrap_i32 n) db) in E by reflexivity.
  refine (along_bind wears wears_preorder _ _ _ _ _ _ _ E Hw); [| intros; now apply along_ret, wears_preorder].
  apply store_property_wears; [now apply along_throw, wears_preorder | eauto].
Qed.
Lemma given_index_wears i : along wears (given_index new_wallet_entry_index i).
Proof. unfold given_index. destruct (i =? 0); [apply new_index_wears | now apply along_ret, wears_preorder]. Qed.
Lemma given_store_wears {A} (mk : Z -> GenericWalletEntry) (f : Z -> A) i : (forall i, not_next (mk i)) ->
  along wears (j <- given_index new_wallet_entry_index i ;; store_and_reload_generic_entry (mk j) ;;; ret (f j)).
Proof.
  intros Hmk. apply along_bind; [exact wears_preorder | apply given_index_wears |]. intros j.
  apply along_bind; [exact wears_preorder | | intros; now apply along_ret, wears_preorder].
  apply store_generic_wears. now left.
Qed.

(** An entry stored in its slot, or under a new index, keeps the database good. *)
Lemma given_store_good {A} (mk : Z -> GenericWalletEntry) (f : Z -> A) i db r db' : good db ->
  (forall i, get_wallet_entry_index (mk i) = i) -> (forall i, not_next (mk i)) ->
  (durable db -> i <> 0 -> durable (put (mk i) db)) ->
  (durable db -> i = 0 -> forall db1, durable db1 -> both_parts db1 = both_parts db ->
     (forall id, id <> next_entry_number -> properties db1 !! id = properties db !! id) ->
     free db1 (next_index db) -> durable (put (mk (next_index db)) db1)) ->
  (j <- given_index new_wallet_entry_index i ;; store_and_reload_generic_entry (mk j) ;;; ret (f j)) db = (r, db') ->
  good db'.
Proof.
  intros [Hd | Hw] Hi Hnot Hold Hnew E; [| right; eapply given_store_wears; eassumption].
  unfold given_index in E. destruct (Z.eqb_spec i 0) as [Ei | Hne].
  - destruct ((j <- new_wallet_entry_index ;; store_and_reload_generic_entry (mk j)) db) as [r1 db1] eqn:E1.
    assert (db' = db1) as ->.
    { unfold bind in *. destruct (new_wallet_entry_index db) as [[a | e] s]; [| congruence].
      destruct (store_and_reload_generic_entry (mk a) s) as [[u | e] s']; unfold ret in E; congruence. }
    apply store_new in E1; [apply E1 | exact Hd | exact Hi | now apply Hnew |].
    intros k p Hk. specialize (Hnot k). now rewrite Hk in Hnot.
  - rewrite (bind_run_Ok _ _ db i db) in E by reflexivity.
    destruct (store_and_reload_generic_entry (mk i) db) as [r1 db1] eqn:E1.
    assert (db' = db1) as -> by (unfold bind in E; rewrite E1 in E; destruct r1; unfold ret in E; congruence).
    left. apply store_generic_run in E1 as [(_ & _ & _ & ->) | (_ & -> & _)]; [now apply Hold | exact Hd].
Qed.

Definition key_slot (e : WalletKeyEntry) (db : WalletDb) : Prop :=
  key_index e = match keys db !! address_of_key (public_key (key_data e)) with Some e0 => key_index e0 | None => 0 end.
Lemma key_index_positive db a e : durable db -> keys db !! a = Some e -> 2 <= key_index e.
Proof. intros Hd He. apply (key_saved db Hd), (disk_entry db Hd) in He as ([_ ?] & _). assumption. Qed.

Lemma store_key_entry_good e db r db' : good db -> (durable db -> key_slot e db) ->
  store_and_reload_key e db = (r, db') -> good db'.
Proof.
  intros Hg Hs. unfold store_and_reload_key.
  apply (given_store_good (fun i => key_entry_type (mkWalletKeyEntry i (key_data e)))
           (fun i => mkWalletKeyEntry i (key_data e))); [exact Hg | reflexivity | exact (fun _ => I) | |].
  - intros Hd Hne. apply put_key_durable; [exact Hd |]. cbn. specialize (Hs Hd). unfold key_slot in Hs.
    destruct (keys db !! _) as [e0 |]; [exact Hs | contradiction].
  - intros Hd Hz db1 Hd1 Eb _ Hf. apply put_key_durable; [exact Hd1 |]. cbn. specialize (Hs Hd). unfold key_slot in Hs.
    assert (keys db1 = keys db) as -> by (unfold both_parts, key_part in Eb; congruence).
    destruct (keys db !! _) as [e0 |] eqn:Ek; [| exact Hf]. apply key_index_positive in Ek; [lia | exact Hd].
Qed.

Definition account_slot (e : WalletAccountEntry) (db : WalletDb) : Prop :=
  account_index e = 0 \/ is_Some (accounts db !! account_index e).
Lemma store_account_entry_good e db r db' : good db -> (durable db -> account_slot e db) ->
  store_and_reload_account e db = (r, db') -> good db'.
Proof.
  intros Hg Hs. unfold store_and_reload_account.
  apply (given_store_good (fun i => account_entry_type (mkWalletAccountEntry i (account_data e)))
           (fun i => mkWalletAccountEntry i (account_data e))); [exact Hg | reflexivity | exact (fun _ => I) | |].
  - intros Hd Hne. apply put_account_durable; [exact Hd |]. destruct (Hs Hd); [contradiction | now right].
  - intros Hd Hz db1 Hd1 _ _ Hf. apply put_account_durable; [exact Hd1 |]. now left.
Qed.

(** ** Accounts and keys *)

(** The database stays good, and no account is lost. *)
Definition advances (db db' : WalletDb) : Prop :=
  (good db -> good db') /\ (forall i, is_Some (accounts db !! i) -> is_Some (accounts db' !! i)).
#[export] Instance advances_preorder : PreOrder advances.
Proof. split; [now split |]. intros a b c [] []. split; auto. Qed.

Lemma both_accounts db db' : same_in both_parts db db' -> accounts db' = accounts db.
Proof. intros E. unfold same_in, both_parts, account_part in E. congruence. Qed.

Lemma store_key_entry_advances e db r db' : (durable db -> key_slot e db) ->
  store_and_reload_key e db = (r, db') -> advances db db'.
Proof.
  intros Hs E. split; [intros Hg; eapply store_key_entry_good; eassumption |]. intros i.
  apply store_reload_key_same in E. assert (accounts db' = accounts db) as -> by (unfold same_in, account_part in E; congruence).
  easy.
Qed.
Lemma store_key_entry_Ok e db e' db' : store_and_reload_key e db = (Ok e', db') ->
  key_data e' = key_data e /\ keys db' !! address_of_key (public_key (key_data e)) = Some e'.
Proof.
  unfold store_and_reload_key. intros E. run_inv E. apply store_generic_run in R1 as [(_ & _ & _ & ->) | ([? ?] & _)]; [| discriminate].
  split; [reflexivity |]. apply lookup_insert_eq.
Qed.

Lemma store_account_entry_advances e db r db' : (durable db -> account_slot e db) ->
  store_and_reload_account e db = (r, db') -> advances db db'.
Proof.
  intros Hs E. split; [intros Hg; eapply store_account_entry_good; eassumption |]. intros i Hi.
  unfold store_and_reload_account, bind at 1 in E.
  destruct (given_index new_wallet_entry_index (account_index e) db) as [[j | x] db1] eqn:E1;
    apply given_index_same, both_accounts in E1; [| injection E as _ <-; now rewrite E1].
  unfold bind in E. destruct (store_and_reload_generic_entry _ db1) as [r2 db2] eqn:E2.
  assert (db' = db2) as -> by (destruct r2; unfold ret in E; congruence).
  apply store_generic_run in E2 as [(_ & _ & _ & ->) | (_ & -> & _)]; [| now rewrite E1]. cbn. rewrite E1.
  destruct (decide (j = i)) as [-> | Hne]; [rewrite lookup_insert_eq; now eexists | now rewrite lookup_insert_ne].
Qed.

(** A program that leads from [s] to an [R]-related state; what has run before
    tells about the states in between. *)
Definition runs {A} (R : WalletDb -> WalletDb -> Prop) (db : WalletDb) (m : D A) : Prop :=
  forall r db', m db = (r, db') -> R db db'.
Lemma runs_bind {A B} R `{!PreOrder R} db (m : D A) (k : A -> D B) : runs R db m ->
  (forall a db1, m db = (Ok a, db1) -> runs R db1 (k a)) -> runs R db (bind m k).
Proof.
  intros Hm Hk r db' E. unfold bind in E. destruct (m db) as [[a | x] db1] eqn:E1.
  - transitivity db1; [exact (Hm _ _ E1) | exact (Hk _ _ eq_refl _ _ E)].
  - injection E as _ <-. exact (Hm _ _ E1).
Qed.
Lemma runs_along {A} R db (m : D A) : along R m -> runs R db m.
Proof. intros Hm r db'. apply Hm. Qed.
Lemma runs_ret {A} R `{!PreOrder R} db (a : A) : runs R db (ret a).
Proof. apply runs_along, along_ret, _. Qed.
Lemma runs_when R `{!PreOrder R} db b m : runs R db m -> runs R db (when b m).
Proof. destruct b; [easy | intros _; now apply runs_ret]. Qed.
Lemma runs_assert {A} R `{!PreOrder R} db b (k : D A) : (b = true -> runs R db k) -> runs R db (fc_assert b ;;; k).
Proof.
  intros Hk. apply runs_bind; [exact _ | apply runs_along, along_assert, _ |]. intros [] db1 [Hb <-]%fc_assert_Ok. auto.
Qed.
Lemma runs_view {A B} R `{!PreOrder R} db (f : WalletDb -> result A) (k : A -> D B) :
  (forall a, f db = Ok a -> runs R db (k a)) -> runs R db (bind (view_db f) k).
Proof.
  intros Hk. apply runs_bind; [exact _ | apply runs_along, along_view, _ |]. intros a db1 [Ea ->]%view_db_Ok. auto.
Qed.
Lemma runs_lift {A B} R `{!PreOrder R} db (x : result A) (k : A -> D B) :
  (forall a, x = Ok a -> runs R db (k a)) -> runs R db (bind (lift_result x) k).
Proof.
  intros Hk. apply runs_bind; [exact _ | apply runs_along, along_lift, _ |]. intros a db1 [Ea <-]%lift_result_Ok. auto.
Qed.
Lemma runs_valid {A B} R `{!PreOrder R} db (o : option A) e (k : A -> D B) :
  (forall a, o = Some a -> runs R db (k a)) -> runs R db (bind (valid_or o e) k).
Proof.
  intros Hk. apply runs_bind; [exact _ | apply runs_along, along_valid_or, _ |]. intros a db1 [Ea <-]%valid_or_Ok. auto.
Qed.
Lemma runs_get {A} R `{!PreOrder R} db (k : WalletDb -> D A) : runs R db (k db) -> runs R db (bind Prelude.get k).
Proof. intros Hk. apply runs_bind; [exact _ | apply runs_along, along_get, _ |]. intros a db1 [-> <-]%get_Ok. exact Hk. Qed.

Lemma store_key_advances f k : (forall a, along advances (f a)) -> along advances (store_key_with f k).
Proof.
  intros Hf db. change (runs advances db (store_key_with f k)). pose proof advances_preorder as HP.
  unfold store_key_with. apply runs_get; [exact HP |]. do 2 (apply runs_assert; [exact HP |]; intros _).
  apply runs_view; [exact HP |]. intros found Ef. apply runs_bind; [exact HP | |].
  { intros r db'. apply store_key_entry_advances. intros Hd. unfold key_slot. cbn.
    apply lookup_key_own in Ef; [| apply (keys_named db Hd)]. now rewrite <- Ef. }
  intros e db1 [_ Ek]%store_key_entry_Ok. cbn in Ek. apply runs_when; [exact HP |].
  apply runs_view; [exact HP |]. intros o _. apply runs_bind; [exact HP | |].
  { destruct o; [now apply runs_ret | apply runs_along, along_view, HP]. }
  intros o' db2 E2. assert (db2 = db1) as ->.
  { destruct o; [apply ret_Ok in E2 as [_ E2]; symmetry; exact E2 | exact (view_db_state _ _ _ _ E2)]. }
  destruct o' as [a |]; [| now apply runs_ret]. apply runs_bind; [exact HP | |].
  - apply runs_when; [exact HP |]. apply runs_bind; [exact HP | | intros; now apply runs_ret].
    intros r db'. apply store_key_entry_advances. intros _. unfold key_slot. cbn. now rewrite Ek.
  - intros _ db3 _. apply runs_when; [exact HP |]. apply runs_along, Hf.
Qed.

Lemma claim_keys_advances sk ks : (forall k, along advances (sk k)) -> forall e db,
  is_Some (accounts db !! account_index e) -> runs advances db (claim_keys sk ks e).
Proof.
  intros Hsk. pose proof advances_preorder as HP. induction ks as [| k ks IH]; intros e db Hin; cbn [claim_keys].
  { now apply runs_ret. }
  apply runs_view; [exact HP |]. intros found Ef. assert (is_open db = true) as Ho.
  { unfold lookup_key in Ef. destruct (is_open db); [reflexivity | discriminate]. }
  apply runs_bind; [exact HP | |].
  - destruct found as [key |].
    2: { apply runs_bind; [exact HP | apply runs_along, Hsk | intros; now apply runs_ret]. }
    destruct (has_private_key _); [| now apply runs_ret]. apply runs_bind; [exact HP | |].
    + destruct (is_my_account _); [now apply runs_ret |]. intros r db'. apply store_account_entry_advances. now right.
    + intros e' db1 _. apply runs_bind; [exact HP | | intros; now apply runs_ret].
      apply runs_when; [exact HP |]. apply runs_along, Hsk.
  - intros e' db1 E. apply IH. destruct found as [key |].
    + destruct (has_private_key _); [| now apply ret_Ok in E as [<- <-]]. run_inv E.
      assert (advances s db1) as [_ Hgrow].
      { refine (runs_when advances s _ _ _ _ _ R1). apply runs_along, Hsk. }
      apply Hgrow. destruct (is_my_account _); [now apply ret_Ok in R as [<- <-] |].
      apply store_reload_account_Ok in R as (_ & Hst & _); [| exact Ho]. rewrite (stored_there _ _ Hst). now eexists.
    + run_inv E. now apply Hsk in R as [_ Hgrow]; apply Hgrow.
Qed.

Lemma restore_key_advances sk before password k : (forall k, along advances (sk k)) ->
  along advances (restore_key sk before password k).
Proof.
  intros Hsk db. change (runs advances db (restore_key sk before password k)). pose proof advances_preorder as HP.
  unfold restore_key. apply runs_view; [exact HP |]. intros found _. apply runs_when; [exact HP |].
  apply runs_view; [exact HP |]. intros [o |] _; [| now apply runs_ret]. apply runs_when; [exact HP |].
  apply runs_lift; [exact HP |]. intros owner _. apply runs_view; [exact HP |]. intros active _.
  apply runs_when; [exact HP |]. apply runs_lift; [exact HP |]. intros key _. apply runs_along, Hsk.
Qed.

Lemma lookup_account_there db a x : durable db -> lookup_account db a = Ok (Some x) ->
  is_Some (accounts db !! account_index x).
Proof.
  intros Hd. unfold lookup_account, find_account. destruct (is_open db); [| discriminate]. intros [= Ex].
  apply bind_Some in Ex as (i & _ & Ex). destruct (account_saved db Hd i x Ex) as [-> _]. exists x. exact Ex.
Qed.

Lemma store_account_advances sk account password : (forall k, along advances (sk k)) ->
  along advances (store_account_with sk account password).
Proof.
  intros Hsk db. change (runs advances db (store_account_with sk account password)). pose proof advances_preorder as HP.
  unfold store_account_with. apply runs_get; [exact HP |]. apply runs_assert; [exact HP |]. intros Ho.
  do 2 (apply runs_assert; [exact HP |]; intros _).
  apply runs_view; [exact HP |]. intros before Eb. apply runs_bind; [exact HP | |].
  - intros r db'. apply store_account_entry_advances. intros Hd. destruct before as [b |]; [right | now left].
    cbn. eapply lookup_account_there; eassumption.
  - intros e db1 E1. apply store_reload_account_Ok in E1 as (_ & Hst & _); [| exact Ho]. apply runs_bind; [exact HP | |].
    + apply claim_keys_advances; [exact Hsk |]. rewrite (stored_there _ _ Hst). now eexists.
    + intros e' db2 _. apply runs_along, along_forM; [exact HP |]. intros k. now apply restore_key_advances.
Qed.

Lemma store_key_calls_advances n : forall k, along advances (store_key_calls n k).
Proof.
  induction n as [| n IH]; intros k; cbn [store_key_calls]; [apply along_throw, advances_preorder |].
  apply store_key_advances. intros a. now apply store_account_advances.
Qed.
Lemma store_advances account password : along advances (store_account account password).
Proof. apply store_account_advances, store_key_calls_advances. Qed.

Lemma set_property_wears id v : id <> next_entry_number -> along wears (set_property id v).
Proof. intros Hid. apply store_property_wears; [apply new_index_wears | contradiction]. Qed.

Lemma set_property_durable id v db r db' : id <> next_entry_number -> durable db ->
  set_property id v db = (r, db') -> good db'.
Proof.
  intros Hid Hd. unfold set_property, store_property. rewrite (bind_run_Ok _ _ db db db) by reflexivity.
  destruct (properties db !! id) as [p |] eqn:Ep.
  - rewrite (bind_run_Ok _ _ db (wallet_property_index p) db) by reflexivity.
    destruct (property_saved db Hd id p Ep) as [Ei Hp]. destruct (disk_entry db Hd _ _ Hp) as ([_ Ho] & _). rewrite Ei in Ho.
    destruct (decide _) in Ho; [contradiction |]. unfold given_index. destruct (Z.eqb_spec (wallet_property_index p) 0); [lia |].
    rewrite (bind_run_Ok _ _ db (wallet_property_index p) db) by reflexivity. intros E.
    apply store_generic_run in E as [(_ & _ & _ & ->) | (_ & -> & _)]; [left | now left].
    apply put_property_durable with (next := next_index db); cbn; [exact Hd | now rewrite Ep | | contradiction | reflexivity].
    pose proof (next_range db Hd). lia.
  - destruct (decide _) in |- *; [contradiction |]. intros E.
    destruct ((i <- new_wallet_entry_index ;; store_and_reload_generic_entry
                 (property_entry_type (mkWalletPropertyEntry i id v))) db) as [r1 db1] eqn:E1.
    assert (db' = db1) as ->.
    { unfold bind in E, E1. destruct (new_wallet_entry_index db) as [r2 db2] eqn:E2.
      destruct (new_index_run db r2 db2 Hd E2) as [(-> & _ & _) | [[x ->] _]]; [| congruence].
      unfold given_index in E. pose proof (next_range db Hd). destruct (Z.eqb_spec (next_index db) 0); [lia |].
      cbn [ret] in E. congruence. }
    apply store_new in E1; [apply E1 | exact Hd | reflexivity | |].
    + intros db2 Hd2 _ Hsame Hf. apply put_property_durable with (next := next_index db2); cbn; [exact Hd2 | | | contradiction | reflexivity].
      * rewrite (Hsame id Hid), Ep. destruct (decide _); [contradiction | exact Hf].
      * pose proof (next_range db2 Hd2). lia.
    + intros i p [= <-]. exact Hid.
Qed.
Lemma set_property_advances id v : id <> next_entry_number -> along advances (set_property id v).
Proof.
  intros Hid db r db' E. split.
  - intros [Hd | Hw]; [eapply set_property_durable; eassumption | right; eapply set_property_wears; eassumption].
  - apply store_property_same in E; [| apply new_index_same]. now rewrite (both_accounts _ _ E).
Qed.

Lemma import_key_advances password name k move : along advances (import_key password name k move).
Proof.
  intros db. change (runs advances db (import_key password name k move)). pose proof advances_preorder as HP.
  unfold import_key. apply runs_get; [exact HP |]. apply runs_assert; [exact HP |]. intros _.
  apply runs_view; [exact HP |]. intros found _. apply runs_valid; [exact HP |]. intros x _.
  apply runs_view; [exact HP |]. intros key _. apply runs_bind; [exact HP | |].
  - destruct key; [| now apply runs_ret]. apply runs_assert; [exact HP |]. intros _. now apply runs_ret.
  - intros y db1 _. apply runs_lift; [exact HP |]. intros z _. apply runs_along, store_key_calls_advances.
Qed.
Lemma generate_child_advances fuel password name : along advances (generate_new_account_child_key fuel password name).
Proof.
  intros db. change (runs advances db (generate_new_account_child_key fuel password name)). pose proof advances_preorder as HP.
  unfold generate_new_account_child_key. apply runs_get; [exact HP |]. apply runs_assert; [exact HP |]. intros _.
  apply runs_view; [exact HP |]. intros found _. apply runs_valid; [exact HP |]. intros x _.
  apply runs_lift; [exact HP |]. intros gone _. do 2 (apply runs_assert; [exact HP |]; intros _).
  apply runs_lift; [exact HP |]. intros active _. apply runs_view; [exact HP |]. intros key _.
  apply runs_valid; [exact HP |]. intros entry _. apply runs_assert; [exact HP |]. intros _.
  apply runs_lift; [exact HP |]. intros priv _. apply runs_view; [exact HP |]. intros [n child] _.
  apply runs_lift; [exact HP |]. intros new _. apply runs_bind; [exact HP | apply runs_along, store_advances |]. intros _ db1 _.
  apply runs_bind; [exact HP | apply runs_along, store_key_calls_advances | intros; now apply runs_ret].
Qed.
Lemma generate_account_advances fuel t password name data :
  along advances (generate_new_account fuel t password name data).
Proof.
  intros db. change (runs advances db (generate_new_account fuel t password name data)). pose proof advances_preorder as HP.
  unfold generate_new_account. apply runs_get; [exact HP |]. apply runs_assert; [exact HP |]. intros _.
  apply runs_view; [exact HP |]. intros found _. apply runs_assert; [exact HP |]. intros _.
  apply runs_view; [exact HP |]. intros n _. apply runs_view; [exact HP |]. intros [[i owner] active] _.
  do 3 (apply runs_lift; [exact HP |]; intros ? _).
  apply runs_bind; [exact HP | apply runs_along, store_key_calls_advances |]. intros _ db1 _.
  apply runs_bind; [exact HP | now apply runs_along, set_property_advances |]. intros _ db2 _.
  apply runs_bind; [exact HP | apply runs_along, store_key_calls_advances |]. intros _ db3 _.
  apply runs_bind; [exact HP | apply runs_along, store_advances | intros; now apply runs_ret].
Qed.

(** ** The invariant *)

(** What the rest of the wallet does to its database, thrown or not *)
Inductive stores (db db' : WalletDb) : Prop :=
  | stores_account account password r : store_account account password db = (r, db') -> stores db db'
  | stores_chain_account a password r : store_blockchain_account a password db = (r, db') -> stores db db'
  | stores_key key r : store_key key db = (r, db') -> stores db db'
  | stores_property id v r : id <> next_entry_number -> set_property id v db = (r, db') -> stores db db'
  | stores_import password name k move r : import_key password name k move db = (r, db') -> stores db db'
  | stores_new_account fuel t password name data r :
      generate_new_account fuel t password name data db = (r, db') -> stores db db'
  | stores_new_key fuel password name r : generate_new_account_child_key fuel password name db = (r, db') -> stores db db'.

Lemma store_chain_account_advances a password : along advances (store_blockchain_account a password).
Proof.
  intros db. change (runs advances db (store_blockchain_account a password)). pose proof advances_preorder as HP.
  unfold store_blockchain_account. apply runs_get; [exact HP |]. apply runs_assert; [exact HP |]. intros _.
  apply runs_view; [exact HP |]. intros found _. apply runs_along, store_advances.
Qed.
Lemma stores_advance db db' : stores db db' -> advances db db'.
Proof.
  intros []; first [eapply store_advances; eassumption | eapply store_chain_account_advances; eassumption
    | eapply store_key_calls_advances; eassumption | eapply set_property_advances; eassumption
    | eapply import_key_advances; eassumption | eapply generate_account_advances; eassumption
    | eapply generate_child_advances; eassumption].
Qed.
Lemma stores_good db db' : rtc stores db db' -> good db -> good db'.
Proof. induction 1 as [| a b c Hab _ IH]; [easy |]. intros Hg. apply IH. now apply (stores_advance a b Hab). Qed.

(** C34: Whatever accounts, keys and properties are stored, imported or generated, failing or not, memory and disk keep agreeing: every account, key and property is on disk under an index of its own, the entries on disk are those in memory, and every key is found under its address, until all 2^31 indexes are used up. *)
Theorem wallet_db_durable db db' : durable db -> rtc stores db db' -> durable db' \/ worn db'.
Proof. intros Hd Hs. now apply (stores_good db db' Hs); left. Qed.

(** ** Reopening *)

(** WalletDb::open, with the entries in the order the LevelMap has them *)
Definition open_wallet (es : list (Z * GenericWalletEntry)) : WalletDb :=
  fold_left (fun db e => load_generic_entry (snd e) db) es
    (mkWalletDb true (list_to_map es) None ∅ ∅ ∅ ∅ ∅ ∅ ∅ ∅ ∅).

(** The entries loaded so far are those of the database. *)
Record loaded (db : WalletDb) (es : list (Z * GenericWalletEntry)) (opened : WalletDb) : Prop := {
  loaded_account i x : accounts opened !! i = Some x <-> (i, account_entry_type x) ∈ es;
  loaded_key a k : keys opened !! a = Some k <->
    (key_index k, key_entry_type k) ∈ es /\ address_of_key (public_key (key_data k)) = a;
  loaded_property id p : properties opened !! id = Some p <->
    (wallet_property_index p, property_entry_type p) ∈ es /\ wallet_property p = id
}.

Lemma open_loaded db es : durable db -> (forall i e, (i, e) ∈ es -> entrys db !! i = Some e) ->
  loaded db es (open_wallet es).
Proof.
  intros Hd. unfold open_wallet. generalize (list_to_map es : gmap Z GenericWalletEntry) as disk. intros disk.
  induction es as [| [i e] es IH] using rev_ind; intros Hes.
  { split; cbn; intros; split; intros Hx; try (rewrite lookup_empty in Hx; discriminate);
      [apply not_elem_of_nil in Hx | destruct Hx as [Hx _]; apply not_elem_of_nil in Hx | destruct Hx as [Hx _]; apply not_elem_of_nil in Hx];
      contradiction. }
  assert (entrys db !! i = Some e) as He by (apply Hes, elem_of_app; right; apply list_elem_of_singleton; reflexivity).
  assert (forall j x, (j, x) ∈ es -> entrys db !! j = Some x) as Hes' by (intros; apply Hes, elem_of_app; now left).
  destruct (IH Hes') as [A K P]. clear IH. rewrite fold_left_app. cbn [fold_left snd].
  set (opened := fold_left _ es _) in *. clearbody opened.
  destruct (disk_entry db Hd i e He) as ([Ei Ho] & _ & Hc).
  split.
  - intros j x. rewrite elem_of_app, list_elem_of_singleton. destruct e; cbn in *.
    + rewrite Ei. destruct (decide (i = j)) as [<- | Hne].
      * rewrite lookup_insert_eq. split; [intros [= ->]; now right | intros [Hx | [= ->]]; [| reflexivity]].
        apply Hes' in Hx. congruence.
      * rewrite lookup_insert_ne by exact Hne. rewrite A. split; [now left | intros [Hx | [= -> _]]; [exact Hx | contradiction]].
    + rewrite A. split; [now left | intros [Hx | [=]]; exact Hx].
    + rewrite A. split; [now left | intros [Hx | [=]]; exact Hx].
    + rewrite A. split; [now left | intros [Hx | [=]]; exact Hx].
    + rewrite A. split; [now left | intros [Hx | [=]]; exact Hx].
    + destruct Hc.
  - intros a k. rewrite elem_of_app, list_elem_of_singleton. destruct e as [x | k' | p | t | n m | n o]; cbn in *.
    2: { destruct (decide (address_of_key (public_key (key_data k')) = a)) as [<- | Hne].
         - rewrite lookup_insert_eq. split; [intros [= ->]; split; [right; congruence | reflexivity] |].
           intros [[Hx | [= _ ->]] Ea]; [| reflexivity]. apply Hes' in Hx. apply (disk_entry db Hd) in Hx as (_ & _ & Hx).
           cbn in Hx. rewrite Ea in Hx. congruence.
         - rewrite lookup_insert_ne by exact Hne. rewrite K. split; [intros [Hx Ea]; split; [now left | exact Ea] |].
           intros [[Hx | [= _ ->]] Ea]; [now split | contradiction]. }
    all: try (exfalso; exact Hc).
    all: rewrite K; split; intros [Hx Ea]; (split; [| exact Ea]); [now left | destruct Hx as [Hx | [=]]; exact Hx].
  - intros id p. rewrite elem_of_app, list_elem_of_singleton. destruct e as [x | k' | p' | t | n m | n o]; cbn in *.
    3: { destruct (decide (wallet_property p' = id)) as [<- | Hne].
         - rewrite lookup_insert_eq. split; [intros [= ->]; split; [right; congruence | reflexivity] |].
           intros [[Hx | [= _ ->]] Ea]; [| reflexivity]. apply Hes' in Hx. apply (disk_entry db Hd) in Hx as (_ & _ & Hx).
           cbn in Hx. rewrite Ea in Hx. congruence.
         - rewrite lookup_insert_ne by exact Hne. rewrite P. split; [intros [Hx Ea]; split; [now left | exact Ea] |].
           intros [[Hx | [= _ ->]] Ea]; [now split | contradiction]. }
    all: try (exfalso; exact Hc).
    all: rewrite P; split; intros [Hx Ea]; (split; [| exact Ea]); [now left | destruct Hx as [Hx | [=]]; exact Hx].
Qed.

(** C37: Closing a wallet and opening it again gives back every account, key and property, in whatever order the entries are read. *)
Theorem wallet_reopens db es : durable db -> es ≡ₚ map_to_list (entrys db) ->
  accounts (open_wallet es) = accounts db /\ keys (open_wallet es) = keys db
  /\ properties (open_wallet es) = properties db.
Proof.
  intros Hd Hp. assert (forall i e, (i, e) ∈ es <-> entrys db !! i = Some e) as Hes.
  { intros i e. rewrite Hp. apply elem_of_map_to_list. }
  destruct (open_loaded db es Hd (fun i e => proj1 (Hes i e))) as [A K P].
  split; [| split]; apply map_eq; intros j; apply option_eq; intros x.
  - rewrite A, Hes. split; [intros Hx; apply (disk_entry db Hd) in Hx as ([Ei _] & _ & Hx); cbn in *; congruence |].
    intros Hx. now apply (account_saved db Hd) in Hx.
  - rewrite K, Hes. split; [intros [Hx <-]; now apply (disk_entry db Hd) in Hx |].
    intros Hx. split; [now apply (key_saved db Hd) in Hx | now apply (key_named db (keys_named db Hd)) in Hx].
  - rewrite P, Hes. split; [intros [Hx <-]; now apply (disk_entry db Hd) in Hx |].
    intros Hx. apply (property_saved db Hd) in Hx. tauto.
Qed.

(** A wallet that holds only its master key is in order. *)
Definition new_wallet (m : MasterKey) : WalletDb := put (master_key_entry_type (-1) m) (open_wallet []).
Lemma new_wallet_durable m : durable (new_wallet m).
Proof.
  assert (forall i e, (<[-1 := master_key_entry_type (-1) m]> ∅ : gmap Z GenericWalletEntry) !! i = Some e ->
    i = -1 /\ e = master_key_entry_type (-1) m) as Hone.
  { intros i e He. destruct (decide (-1 = i)) as [<- | Hne]; [rewrite lookup_insert_eq in He; now injection He as <- |].
    rewrite lookup_insert_ne, lookup_empty in He by exact Hne. discriminate. }
  split; unfold new_wallet, put, open_wallet, next_index; cbn.
  - intros i e He. apply Hone in He as [-> ->]. repeat split; cbn; reflexivity.
  - intros i a. now rewrite lookup_empty.
  - intros a k. now rewrite lookup_empty.
  - intros id p. now rewrite lookup_empty.
  - intros p. now rewrite lookup_empty.
  - rewrite ?lookup_empty; unfold INT32_MAX; lia.
  - split; cbn; intros *; now rewrite lookup_empty.
Qed.
End Store.
