(* ===== verification/WalletKeys.v ===== *)
(** * Private keys in the wallet database

    No private key is lost by what the wallet stores, keys that are generated
    are new, and a change of the password keeps them all. *)

From Stdlib Require Import ZArith Lia Bool String.
From stdpp Require Import base gmap strings list sorting.
From S2P Require Import Prelude Asset Entries Names ChainInterface ChainState WalletDb WalletDbLaws WalletDbStore.

Local Open Scope Z_scope.

(** Decryption undoes encryption, and there is a text to decrypt. *)
Class CipherLaws `{WalletCrypto} : Prop := {
  aes_roundtrip password z : aes_decrypt password (aes_encrypt password z) = Ok z;
  aes_nonempty password z : aes_encrypt password z <> []
}.

Section Keys.
Context `{ChainParams} `{WalletCrypto} `{!AddressLaws}.
Abbreviation D := (M WalletDb).

(** ** No private key is lost *)

(** The key of address [a] is there, encrypted as [secret]. *)
Definition held (a : Address) (secret : list Z) (db : WalletDb) : Prop :=
  exists e, keys db !! a = Some e /\ encrypted_private_key (key_data e) = secret.

Section Held.
Variables (a : Address) (secret : list Z).
Definition holds (db : WalletDb) : Prop := keys_wf db /\ held a secret db.
Definition keeps_holding (db db' : WalletDb) : Prop := holds db -> holds db'.
#[local] Instance keeps_holding_preorder : PreOrder keeps_holding.
Proof. split; unfold keeps_holding; [easy | intros x y z; auto]. Qed.

Lemma runs_holding {A} db (m : D A) : (holds db -> runs keeps_holding db m) -> runs keeps_holding db m.
Proof. intros Hm r db' E Hh. exact (Hm Hh r db' E Hh). Qed.
Lemma key_part_holds db db' : same_in key_part db db' -> keeps_holding db db'.
Proof.
  intros E [Hwf Hh]. split; [eapply key_part_wf; eassumption |]. unfold same_in, key_part in E.
  destruct Hh as (e & He & Hs). exists e. split; [congruence | exact Hs].
Qed.

(** A key that may be stored: another key, or this one *)
Definition spares (k : KeyData) : Prop :=
  address_of_key (public_key k) = a -> encrypted_private_key k = secret.

Lemma store_key_entry_holds e : spares (key_data e) -> along keeps_holding (store_and_reload_key e).
Proof.
  intros Hs db r db' E Hh. split; [eapply store_reload_key_wf; [exact E | apply Hh] |].
  unfold store_and_reload_key, bind at 1 in E.
  destruct (given_index new_wallet_entry_index (key_index e) db) as [[i | x] db1] eqn:E1;
    apply given_index_same in E1; assert (keys db1 = keys db) as Ek by (unfold same_in, both_parts, key_part in E1; congruence);
    destruct Hh as [_ (e0 & He0 & Hsec)].
  2: { injection E as _ <-. exists e0. now rewrite Ek. }
  unfold bind in E. destruct (store_and_reload_generic_entry _ db1) as [r2 db2] eqn:E2.
  assert (db' = db2) as -> by (destruct r2; unfold ret in E; congruence).
  apply store_generic_run in E2 as [(_ & _ & _ & ->) | (_ & -> & _)]; [| exists e0; now rewrite Ek].
  unfold held, put. cbn [load_generic_entry load_key_entry set_keys keys set_entrys key_data]. rewrite Ek.
  destruct (decide (address_of_key (public_key (key_data e)) = a)) as [Ea | Hne].
  - rewrite Ea, lookup_insert_eq. eexists. split; [reflexivity | now apply Hs].
  - rewrite lookup_insert_ne by exact Hne. eauto.
Qed.

Lemma store_key_holds f k : (forall x, along keeps_holding (f x)) -> spares k ->
  along keeps_holding (store_key_with f k).
Proof.
  intros Hf Hk db. change (runs keeps_holding db (store_key_with f k)). pose proof keeps_holding_preorder as HP.
  unfold store_key_with. apply runs_get; [exact HP |]. do 2 (apply runs_assert; [exact HP |]; intros _).
  apply runs_view; [exact HP |]. intros found _. apply runs_bind; [exact HP | |].
  { now apply runs_along, store_key_entry_holds. }
  intros e db1 _. apply runs_when; [exact HP |]. apply runs_view; [exact HP |]. intros o _.
  apply runs_bind; [exact HP | destruct o; [now apply runs_ret | apply runs_along, along_view, HP] |].
  intros [x |] db2 _; [| now apply runs_ret]. apply runs_bind; [exact HP | |].
  - apply runs_when; [exact HP |]. apply runs_bind; [exact HP | | intros; now apply runs_ret].
    now apply runs_along, store_key_entry_holds.
  - intros _ db3 _. apply runs_when; [exact HP |]. apply runs_along, Hf.
Qed.

(** A key entry found by its public key may be stored with its secret. *)
Lemma found_spares db k e k' : holds db -> lookup_key db (address_of_key k) = Ok (Some e) ->
  public_key k' = k -> encrypted_private_key k' = encrypted_private_key (key_data e) -> spares k'.
Proof.
  intros [Hwf (e0 & He0 & Hs)] El Ek Ee Ea. apply lookup_key_own in El; [| exact Hwf]. rewrite Ek in Ea. rewrite Ea in El. congruence.
Qed.
(** A key without a private key is not the one that is held. *)
Lemma lacking_spares db k o k' : holds db -> secret <> [] -> lookup_key db (address_of_key k) = Ok o ->
  lacks_private_key o = true -> public_key k' = k -> spares k'.
Proof.
  intros [Hwf (e0 & He0 & Hs)] Hne El Hl Ek Ea. exfalso. apply lookup_key_own in El; [| exact Hwf].
  rewrite Ek in Ea. rewrite Ea, He0 in El. subst o. unfold lacks_private_key, has_private_key in Hl.
  rewrite Hs in Hl. now destruct secret.
Qed.

Context (Hsecret : secret <> []).

Lemma store_account_entry_holds e : along keeps_holding (store_and_reload_account e).
Proof. intros db r db' E. eapply key_part_holds, store_reload_account_same, E. Qed.

Lemma claim_keys_holds sk ks : (forall k, spares k -> along keeps_holding (sk k)) -> forall e db,
  runs keeps_holding db (claim_keys sk ks e).
Proof.
  intros Hsk. pose proof keeps_holding_preorder as HP. induction ks as [| k ks IH]; intros e db; cbn [claim_keys].
  { now apply runs_ret. }
  apply runs_holding. intros Hh. apply runs_view; [exact HP |]. intros found Ef. apply runs_bind; [exact HP | | intros; apply IH].
  destruct found as [key |].
  - destruct (has_private_key _); [| now apply runs_ret]. apply runs_bind; [exact HP | |].
    + destruct (is_my_account _); [now apply runs_ret | apply runs_along, store_account_entry_holds].
    + intros e' db1 _. apply runs_bind; [exact HP | | intros; now apply runs_ret]. apply runs_when; [exact HP |].
      apply runs_along, Hsk. eapply found_spares; [exact Hh | exact Ef | | reflexivity].
      cbn. eapply lookup_key_public; [apply Hh | exact Ef].
  - apply runs_bind; [exact HP | | intros; now apply runs_ret]. apply runs_along, Hsk.
    eapply lacking_spares; [exact Hh | exact Hsecret | exact Ef | reflexivity | reflexivity].
Qed.

Lemma encrypted_public password p k k' : encrypt_private_key password p k = Ok k' -> public_key k' = get_public_key p.
Proof.
  unfold encrypt_private_key. intros E. apply result_bind_Ok in E as (? & _ & E). cbv zeta in E.
  apply result_bind_Ok in E as (? & _ & E). apply result_bind_Ok in E as (? & _ & [= <-]). reflexivity.
Qed.

Lemma restore_key_holds sk before password k : (forall k, spares k -> along keeps_holding (sk k)) ->
  along keeps_holding (restore_key sk before password k).
Proof.
  intros Hsk db. change (runs keeps_holding db (restore_key sk before password k)). pose proof keeps_holding_preorder as HP.
  apply runs_holding. intros Hh.
  unfold restore_key. apply runs_view; [exact HP |]. intros found Ef. destruct (lacks_private_key found) eqn:El; [| now apply runs_ret].
  apply runs_when; [exact HP |].
  apply runs_view; [exact HP |]. intros [o |] _; [| now apply runs_ret]. apply runs_when; [exact HP |].
  apply runs_lift; [exact HP |]. intros owner _. apply runs_view; [exact HP |]. intros active _.
  destruct (Z.eqb_spec (get_public_key active) k) as [Ek |]; [| now apply runs_ret].
  cbn [when]. apply runs_lift; [exact HP |]. intros key Ekey. apply runs_along, Hsk.
  eapply lacking_spares; [exact Hh | exact Hsecret | exact Ef | exact El |]. rewrite (encrypted_public _ _ _ _ Ekey). exact Ek.
Qed.

Lemma store_account_with_holds sk account password : (forall k, spares k -> along keeps_holding (sk k)) ->
  along keeps_holding (store_account_with sk account password).
Proof.
  intros Hsk db. change (runs keeps_holding db (store_account_with sk account password)). pose proof keeps_holding_preorder as HP.
  unfold store_account_with. apply runs_get; [exact HP |]. do 3 (apply runs_assert; [exact HP |]; intros _).
  apply runs_view; [exact HP |]. intros before _. apply runs_bind; [exact HP | apply runs_along, store_account_entry_holds |].
  intros e db1 _. apply runs_bind; [exact HP | now apply claim_keys_holds |]. intros e' db2 _.
  apply runs_along, along_forM; [exact HP |]. intros k. now apply restore_key_holds.
Qed.
Lemma store_key_calls_holds n : forall k, spares k -> along keeps_holding (store_key_calls n k).
Proof.
  induction n as [| n IH]; intros k Hk; cbn [store_key_calls]; [apply along_throw, keeps_holding_preorder |].
  apply store_key_holds; [| exact Hk]. intros x. now apply store_account_with_holds.
Qed.
Lemma store_account_holds account password : along keeps_holding (store_account account password).
Proof. apply store_account_with_holds, store_key_calls_holds. Qed.
Lemma store_chain_account_holds x password : along keeps_holding (store_blockchain_account x password).
Proof.
  intros db. change (runs keeps_holding db (store_blockchain_account x password)). pose proof keeps_holding_preorder as HP.
  unfold store_blockchain_account. apply runs_get; [exact HP |]. apply runs_assert; [exact HP |]. intros _.
  apply runs_view; [exact HP |]. intros found _. apply runs_along, store_account_holds.
Qed.
Lemma set_property_holds id v : along keeps_holding (set_property id v).
Proof.
  intros db r db' E. apply store_property_same in E; [| apply new_index_same]. apply key_part_holds.
  unfold same_in, both_parts in *. congruence.
Qed.

(** A key that is not taken is another one. *)
Lemma not_taken_spares db k k' : holds db -> key_taken db (address_of_key k) = Ok false -> public_key k' = k -> spares k'.
Proof.
  intros Hh Ht Ek. unfold key_taken in Ht. apply result_bind_Ok in Ht as (o & Eo & [= Hl]).
  apply negb_false_iff in Hl. eapply lacking_spares; eassumption.
Qed.
End Held.

(** ** Keys that are generated are new *)

Lemma next_child_key_Ok db fuel p : forall n i child, next_child_key db fuel p n = Ok (i, child) ->
  child = child_of_sequence (extended_private_key p) i
  /\ key_taken db (address_of_key (get_public_key child)) = Ok false.
Proof.
  induction fuel as [| fuel IH]; intros n i child; cbn [next_child_key]; [discriminate |]. cbv zeta.
  intros E. apply result_bind_Ok in E as (? & _ & E). apply result_bind_Ok in E as (c & Ec & E).
  apply result_bind_Ok in E as ([|] & Et & E); [now apply IH in E |]. injection E as <- <-.
  unfold get_account_child_key in Ec. destruct (is_open db); [injection Ec as <- | discriminate]. split; [reflexivity | exact Et].
Qed.
Lemma next_wallet_key_Ok db password fuel : forall n i owner active,
  next_wallet_key db password fuel n = Ok (i, owner, active) ->
  key_taken db (address_of_key (get_public_key owner)) = Ok false
  /\ key_taken db (address_of_key (get_public_key active)) = Ok false
  /\ account_taken db (address_of_key (get_public_key owner)) = Ok false
  /\ account_taken db (address_of_key (get_public_key active)) = Ok false.
Proof.
  induction fuel as [| fuel IH]; intros n i owner active; cbn [next_wallet_key]; [discriminate |]. cbv zeta.
  intros E. apply result_bind_Ok in E as (? & _ & E). apply result_bind_Ok in E as (c & _ & E).
  apply result_bind_Ok in E as ([|] & E1 & E); [now apply IH in E |].
  apply result_bind_Ok in E as ([|] & E2 & E); [now apply IH in E |].
  apply result_bind_Ok in E as (c' & _ & E).
  apply result_bind_Ok in E as ([|] & E3 & E); [now apply IH in E |].
  apply result_bind_Ok in E as ([|] & E4 & E); [now apply IH in E |].
  injection E as <- <- <-. auto.
Qed.

Lemma generate_child_holds a secret fuel password name : secret <> [] ->
  along (keeps_holding a secret) (generate_new_account_child_key fuel password name).
Proof.
  intros Hs db. change (runs (keeps_holding a secret) db (generate_new_account_child_key fuel password name)).
  pose proof (keeps_holding_preorder a secret) as HP. apply runs_holding. intros Hh.
  unfold generate_new_account_child_key. apply runs_get; [exact HP |]. apply runs_assert; [exact HP |]. intros _.
  apply runs_view; [exact HP |]. intros found _. apply runs_valid; [exact HP |]. intros x _.
  apply runs_lift; [exact HP |]. intros gone _. do 2 (apply runs_assert; [exact HP |]; intros _).
  apply runs_lift; [exact HP |]. intros active _. apply runs_view; [exact HP |]. intros key _.
  apply runs_valid; [exact HP |]. intros entry _. apply runs_assert; [exact HP |]. intros _.
  apply runs_lift; [exact HP |]. intros priv _. apply runs_view; [exact HP |]. intros [n child] Ec.
  apply next_child_key_Ok in Ec as [_ Ht].
  apply runs_lift; [exact HP |]. intros new En. apply encrypted_public in En.
  apply runs_bind; [exact HP | now apply runs_along, store_account_holds |]. intros _ db1 _.
  apply runs_bind; [exact HP | | intros; now apply runs_ret]. apply runs_along, store_key_calls_holds; [exact Hs |].
  eapply not_taken_spares; [exact Hs | exact Hh | exact Ht | exact En].
Qed.
Lemma generate_account_holds a secret fuel t password name data : secret <> [] ->
  along (keeps_holding a secret) (generate_new_account fuel t password name data).
Proof.
  intros Hs db. change (runs (keeps_holding a secret) db (generate_new_account fuel t password name data)).
  pose proof (keeps_holding_preorder a secret) as HP. apply runs_holding. intros Hh.
  unfold generate_new_account. apply runs_get; [exact HP |]. apply runs_assert; [exact HP |]. intros _.
  apply runs_view; [exact HP |]. intros found _. apply runs_assert; [exact HP |]. intros _.
  apply runs_view; [exact HP |]. intros n _. apply runs_view; [exact HP |]. intros [[i owner] active] En.
  apply next_wallet_key_Ok in En as (Hto & Hta & _).
  apply runs_lift; [exact HP |]. intros ka Ea. apply runs_lift; [exact HP |]. intros ko Eo.
  apply encrypted_public in Ea, Eo. apply runs_lift; [exact HP |]. intros acc _.
  assert (spares a secret ka) as Sa by (exact (not_taken_spares a secret Hs _ _ _ Hh Hta Ea)).
  assert (spares a secret (set_gen_seq_number i ko)) as So by (exact (not_taken_spares a secret Hs _ _ (set_gen_seq_number i ko) Hh Hto Eo)).
  apply runs_bind; [exact HP | now apply runs_along, store_key_calls_holds |]. intros _ db1 _.
  apply runs_bind; [exact HP | now apply runs_along, set_property_holds |]. intros _ db2 _.
  apply runs_bind; [exact HP | now apply runs_along, store_key_calls_holds |]. intros _ db3 _.
  apply runs_bind; [exact HP | now apply runs_along, store_account_holds | intros; now apply runs_ret].
Qed.

(** What the wallet does to its keys by itself *)
Inductive generates (db db' : WalletDb) : Prop :=
  | generates_account account password r : store_account account password db = (r, db') -> generates db db'
  | generates_chain_account x password r : store_blockchain_account x password db = (r, db') -> generates db db'
  | generates_property id v r : set_property id v db = (r, db') -> generates db db'
  | generates_new_account fuel t password name data r :
      generate_new_account fuel t password name data db = (r, db') -> generates db db'
  | generates_new_key fuel password name r : generate_new_account_child_key fuel password name db = (r, db') -> generates db db'.
Lemma generates_hold a secret db db' : secret <> [] -> generates db db' -> keeps_holding a secret db db'.
Proof.
  intros Hs []; first [eapply store_account_holds; eassumption | eapply store_chain_account_holds; eassumption
    | eapply set_property_holds; eassumption | eapply generate_account_holds; eassumption
    | eapply generate_child_holds; eassumption].
Qed.

(** C33: Storing accounts of the chain, with or without the password, and generating accounts and keys never loses a private key: each stays under its address, encrypted as it was. *)
Theorem private_keys_kept db db' a e : keys_wf db -> rtc generates db db' ->
  keys db !! a = Some e -> has_private_key (key_data e) = true ->
  exists e', keys db' !! a = Some e' /\ encrypted_private_key (key_data e') = encrypted_private_key (key_data e).
Proof.
  intros Hwf Hs He Hp. assert (encrypted_private_key (key_data e) <> []) as Hne.
  { intros E. unfold has_private_key in Hp. now rewrite E in Hp. }
  assert (holds a (encrypted_private_key (key_data e)) db) as Hh by (split; [exact Hwf | now exists e]).
  refine (proj2 (_ : holds a (encrypted_private_key (key_data e)) db')). revert Hh. clear Hwf He. induction Hs as [| x y z Hxy _ IH]; [easy |].
  intros Hh. apply IH. now apply (generates_hold _ _ _ _ Hne Hxy).
Qed.

(** ** Keys stay under their addresses *)

#[local] Hint Resolve keeping_keys_preorder along_get along_assert along_view along_valid_or store_reload_key_wf : keeping.
Ltac follow :=
  cbv zeta; repeat first
    [ solve [auto with keeping]
    | match goal with |- along _ (bind _ _) => apply along_bind; [exact _ | | intros ?] end | apply along_when; [exact _ |] | apply along_forM; [exact _ | intros ?]
    | match goal with |- along _ (match ?x with _ => _ end) => destruct x end ];
  eauto with keeping.
Lemma store_account_entry_wf e : along keeping_keys (store_and_reload_account e).
Proof. apply along_key_part, store_reload_account_same. Qed.
#[local] Hint Resolve store_account_entry_wf : keeping.
Lemma claim_keys_wf sk ks : (forall k, along keeping_keys (sk k)) -> forall e, along keeping_keys (claim_keys sk ks e).
Proof. intros Hsk. induction ks; intros e; cbn [claim_keys]; follow. Qed.
Lemma restore_key_wf sk before password k : (forall k, along keeping_keys (sk k)) ->
  along keeping_keys (restore_key sk before password k).
Proof. intros Hsk. unfold restore_key. follow. Qed.
#[local] Hint Resolve claim_keys_wf restore_key_wf : keeping.
Lemma store_account_with_wf sk account password : (forall k, along keeping_keys (sk k)) ->
  along keeping_keys (store_account_with sk account password).
Proof. intros Hsk. unfold store_account_with. follow. Qed.
#[local] Hint Resolve store_account_with_wf : keeping.
Lemma store_key_calls_wf n : forall k, along keeping_keys (store_key_calls n k).
Proof. induction n; intros k; cbn [store_key_calls]; [| unfold store_key_with]; follow. Qed.
Lemma set_property_wf id v : along keeping_keys (set_property id v).
Proof. apply along_key_part, both_key, store_property_same, new_index_same. Qed.

(** ** What is generated can be used *)

Lemma encrypted_decrypts password p k k' : encrypt_private_key password p k = Ok k' -> decrypt_private_key password k' = Ok p.
Proof.
  unfold encrypt_private_key. intros E. apply result_bind_Ok in E as (? & _ & E). cbv zeta in E.
  apply result_bind_Ok in E as (d & Ed & E). apply result_bind_Ok in E as (? & Eq & [= <-]).
  rewrite Ed. f_equal. unfold result_assert in Eq. destruct (Z.eqb_spec p d); [now symmetry | discriminate].
Qed.
Lemma has_key_secret k : has_private_key k = true <-> encrypted_private_key k <> [].
Proof. unfold has_private_key. destruct (encrypted_private_key k); cbn; split; congruence. Qed.

(** The key that is stored is held from then on. *)
Lemma store_key_held n k db u db' : keys_wf db -> encrypted_private_key k <> [] ->
  store_key_calls n k db = (Ok u, db') ->
  holds (address_of_key (public_key k)) (encrypted_private_key k) db'.
Proof.
  intros Hwf Hs E. destruct n as [| n]; [discriminate |]. cbn [store_key_calls] in E. unfold store_key_with in E.
  set (a := address_of_key (public_key k)) in *. set (secret := encrypted_private_key k) in *.
  assert (forall acct, along (keeps_holding a secret) (store_account_with (store_key_calls n) acct 0)) as Hf.
  { intros acct. apply store_account_with_holds; [exact Hs |]. now apply store_key_calls_holds. }
  assert (spares a secret k) as Hk by easy. pose proof (keeps_holding_preorder a secret) as HP.
  apply bind_Ok in E as (? & ? & [-> <-]%get_Ok & E). do 2 (apply bind_Ok in E as (? & ? & [_ <-]%fc_assert_Ok & E)).
  apply bind_Ok in E as (found & ? & [_ ->]%view_db_Ok & E). apply bind_Ok in E as (e & db1 & E1 & E).
  assert (holds a secret db1) as Hh.
  { split; [exact (store_reload_key_wf _ _ _ _ E1 Hwf) |]. apply store_key_entry_Ok in E1 as [Ed Ek]. exists e. cbn in *.
    split; [exact Ek | now rewrite Ed]. }
  refine ((_ : runs (keeps_holding a secret) db1 _) _ _ E Hh). apply runs_when; [exact HP |].
  apply runs_view; [exact HP |]. intros o _.
  apply runs_bind; [exact HP | destruct o; [now apply runs_ret | apply runs_along, along_view, HP] |].
  intros [acct |] db2 _; [| now apply runs_ret]. apply runs_bind; [exact HP | |].
  - apply runs_when; [exact HP |]. apply runs_bind; [exact HP | | intros; now apply runs_ret].
    now apply runs_along, store_key_entry_holds.
  - intros _ db3 _. apply runs_when; [exact HP |]. apply runs_along, Hf.
Qed.

(** The wallet has the private key of [p], encrypted with the password. *)
Definition owns_key (password : Password) (p : PrivateKeyType) (db : WalletDb) : Prop :=
  exists e, keys db !! address_of_key (get_public_key p) = Some e
            /\ decrypt_private_key password (key_data e) = Ok p.
Lemma holds_owns password p k k' db : encrypt_private_key password p k = Ok k' ->
  holds (address_of_key (get_public_key p)) (encrypted_private_key k') db -> owns_key password p db.
Proof.
  intros Ek [_ (e & He & Hs)]. exists e. split; [exact He |]. apply encrypted_decrypts in Ek.
  unfold decrypt_private_key in *. now rewrite Hs.
Qed.

Lemma lacks_not_taken db a e : key_taken db a = Ok false -> keys_wf db -> is_open db = true -> keys db !! a = Some e ->
  has_private_key (key_data e) = false.
Proof.
  intros Ht Hwf Ho He. unfold key_taken, lookup_key in Ht. rewrite Ho, (key_found db Hwf _ _ He) in Ht. cbn in Ht.
  rewrite He in Ht. injection Ht as Ht. now destruct (has_private_key (key_data e)).
Qed.

Context `{!CipherLaws}.
Lemma encrypted_secret password p k k' : encrypt_private_key password p k = Ok k' -> encrypted_private_key k' <> [].
Proof.
  unfold encrypt_private_key. intros E. apply result_bind_Ok in E as (? & _ & E). cbv zeta in E.
  apply result_bind_Ok in E as (? & _ & E). apply result_bind_Ok in E as (? & _ & [= <-]). apply aes_nonempty.
Qed.

Lemma generate_account_spec fuel t password name data db k db' : keys_wf db ->
  generate_new_account fuel t password name data db = (Ok k, db') ->
  exists owner active e,
    k = get_public_key owner
    /\ (forall p, p = owner \/ p = active -> key_taken db (address_of_key (get_public_key p)) = Ok false
                  /\ account_taken db (address_of_key (get_public_key p)) = Ok false)
    /\ (get_public_key owner <> get_public_key active -> owns_key password active db')
    /\ owns_key password owner db'
    /\ lookup_account_by_name db' name = Ok (Some e)
    /\ owner_key (account_entry (account_data e)) = k
    /\ active_key (account_entry (account_data e)) = Ok (get_public_key active)
    /\ is_my_account (account_data e) = true.
Proof.
  intros Hwf E. unfold generate_new_account in E.
  apply bind_Ok in E as (? & ? & [-> <-]%get_Ok & E). apply bind_Ok in E as (? & ? & [Ho <-]%fc_assert_Ok & E).
  apply bind_Ok in E as (found & ? & [_ ->]%view_db_Ok & E). apply bind_Ok in E as (? & ? & [_ <-]%fc_assert_Ok & E).
  apply bind_Ok in E as (n & ? & [_ ->]%view_db_Ok & E). apply bind_Ok in E as ([[i owner] active] & ? & [En ->]%view_db_Ok & E).
  cbv zeta in E. apply next_wallet_key_Ok in En as (Hto & Hta & Hao & Haa).
  apply bind_Ok in E as (ka & ? & [Eka <-]%lift_result_Ok & E). apply bind_Ok in E as (ko & ? & [Eko <-]%lift_result_Ok & E).
  apply bind_Ok in E as (acc & ? & [Eacc <-]%lift_result_Ok & E).
  apply bind_Ok in E as (? & db1 & E1 & E). apply bind_Ok in E as (? & db2 & E2 & E).
  apply bind_Ok in E as (? & db3 & E3 & E). apply bind_Ok in E as ([] & db4 & E4 & [<- <-]%ret_Ok).
  pose proof (encrypted_secret _ _ _ _ Eka) as Ska. pose proof (encrypted_secret _ _ _ _ Eko) as Sko.
  pose proof (encrypted_public _ _ _ _ Eka) as Pka. pose proof (encrypted_public _ _ _ _ Eko) as Pko.
  pose proof (store_key_held _ _ _ _ _ Hwf Ska E1) as Hh1. pose proof (proj1 Hh1) as Hwf1.
  pose proof (set_property_wf _ _ _ _ _ E2 Hwf1) as Hwf2.
  pose proof (store_key_held _ (set_gen_seq_number i ko) _ _ _ Hwf2 Sko E3) as Hh3. cbn in Hh3. pose proof (proj1 Hh3) as Hwf3.
  destruct (store_account_result _ _ _ Hwf3 E4) as (e & Hst & Ee & Hm). cbn in Ee, Hm.
  exists owner, active, e. split; [reflexivity |]. split; [intros p [-> | ->]; auto |]. split; [| split; [| split; [| rewrite Ee; cbn; split; [reflexivity | split; [| auto]]]]].
  - intros Hne. apply (holds_owns _ _ _ _ _ Eka). rewrite <- Pka.
    eapply store_account_holds; [exact Ska | exact E4 |]. eapply store_key_calls_holds; [exact Ska | | exact E3 |].
    + intros Ea. apply address_of_key_inj in Ea. cbn in Ea. congruence.
    + eapply set_property_holds; [exact E2 | exact Hh1].
  - apply (holds_owns _ _ _ _ _ Eko). rewrite <- Pko. eapply store_account_holds; [exact Sko | exact E4 | exact Hh3].
  - unfold lookup_account_by_name, find_account. rewrite (stored_open _ _ Hst).
    pose proof (stored_named _ _ Hst) as En. rewrite Ee in En. cbn in En. rewrite En. cbn. now rewrite (stored_there _ _ Hst).
  - unfold set_active_key in Eacc. destruct (t =? 0); [discriminate |]. injection Eacc as <-. cbn.
    unfold active_key, map_last. cbn [active_key_history]. now rewrite insert_empty, map_fold_singleton.
Qed.

(** C36: A new account is found under its name, is the user's own, and the wallet can decrypt its owner key and its active key with the password; neither key was in the wallet before, nor in any of its accounts. *)
Theorem new_account_usable fuel t password name data db k db' : keys_wf db ->
  generate_new_account fuel t password name data db = (Ok k, db') ->
  exists owner active e,
    k = get_public_key owner
    /\ (forall p, p = owner \/ p = active -> key_taken db (address_of_key (get_public_key p)) = Ok false
                  /\ account_taken db (address_of_key (get_public_key p)) = Ok false)
    /\ (get_public_key owner <> get_public_key active -> owns_key password active db')
    /\ owns_key password owner db'
    /\ lookup_account_by_name db' name = Ok (Some e)
    /\ owner_key (account_entry (account_data e)) = k
    /\ active_key (account_entry (account_data e)) = Ok (get_public_key active)
    /\ is_my_account (account_data e) = true.
Proof. apply generate_account_spec. Qed.

(** ** The search for a new key ends *)

Section Search.
Variables (db : WalletDb) (p : PrivateKeyType).
Definition child_address (i : Z) : Address := address_of_key (get_public_key (child_of_sequence (extended_private_key p) i)).

(** What is tried is taken, until a key that is not is found. *)
Lemma next_child_key_tries fuel : is_open db = true -> forall n, 0 <= n -> n + Z.of_nat fuel < 2 ^ 32 ->
  (exists i child, next_child_key db fuel p n = Ok (i, child) /\ n < i <= n + Z.of_nat fuel)
  \/ (forall i, n < i <= n + Z.of_nat fuel -> key_taken db (child_address i) = Ok true).
Proof.
  intros Ho. induction fuel as [| fuel IH]; intros n Hn Hf; [right; lia |]. cbn [next_child_key]. cbv zeta.
  assert (wrap_u32 (n + 1) = n + 1) as -> by (unfold wrap_u32; rewrite Z.mod_small; lia).
  destruct (Z.eqb_spec (n + 1) 0) as [E | _]; [lia |]. cbn [negb result_assert result_bind].
  unfold get_account_child_key at 1. rewrite Ho. cbn [result_bind]. fold (child_address (n + 1)).
  destruct (key_taken db (child_address (n + 1))) as [[|] | x] eqn:Et; cbn [result_bind].
  - destruct (IH (n + 1) ltac:(lia) ltac:(lia)) as [(i & child & E & Hi) | Hall].
    + left. exists i, child. split; [exact E | lia].
    + right. intros i Hi. destruct (Z.eq_dec i (n + 1)) as [-> | Hne]; [exact Et | apply Hall; lia].
  - left. exists (n + 1), (child_of_sequence (extended_private_key p) (n + 1)). split; [reflexivity | lia].
  - exfalso. unfold key_taken, lookup_key in Et. rewrite Ho in Et. discriminate.
Qed.

(** Distinct children cannot all be taken by fewer keys. *)
Lemma taken_in_keys a : keys_wf db -> is_open db = true -> (exists k, a = address_of_key k) -> key_taken db a = Ok true ->
  a ∈ dom (keys db).
Proof.
  intros Hwf Ho [k ->] Ht. unfold key_taken in Ht. apply result_bind_Ok in Ht as (o & Eo & [= Hl]).
  apply lookup_key_own in Eo; [| exact Hwf]. apply elem_of_dom. rewrite <- Eo. destruct o; [now eexists | discriminate].
Qed.
End Search.

(** C39: The search for a new child key ends: as many tries as the wallet has keys and one more find a key that is not taken, unless the sequence numbers run out, if different numbers give different addresses. *)
Theorem next_child_key_found db p n : keys_wf db -> is_open db = true -> 0 <= n ->
  n + Z.of_nat (size (keys db)) + 1 < 2 ^ 32 ->
  (forall i j, 0 < i < 2 ^ 32 -> 0 < j < 2 ^ 32 -> child_address p i = child_address p j -> i = j) ->
  exists i child, next_child_key db (Datatypes.S (size (keys db))) p n = Ok (i, child)
    /\ n < i <= n + Z.of_nat (size (keys db)) + 1
    /\ key_taken db (address_of_key (get_public_key child)) = Ok false.
Proof.
  intros Hwf Ho Hn Hroom Hinj. set (m := size (keys db)) in *.
  destruct (next_child_key_tries db p (Datatypes.S m) Ho n Hn ltac:(lia)) as [(i & child & E & Hi) | Hall].
  { exists i, child. split; [exact E |]. split; [lia |]. now apply next_child_key_Ok in E. }
  exfalso. set (l := map (fun j => child_address p (n + 1 + Z.of_nat j)) (seq 0 (Datatypes.S m))).
  assert (NoDup l) as Hnd.
  { apply NoDup_fmap_2_strong; [| apply NoDup_seq]. intros x y Hx Hy E. apply elem_of_seq in Hx, Hy. apply Hinj in E; lia. }
  assert (list_to_set l ⊆ dom (keys db)) as Hsub.
  { intros a Ha. apply elem_of_list_to_set, list_elem_of_fmap in Ha as (j & -> & Hj). apply elem_of_seq in Hj.
    apply taken_in_keys; [exact Hwf | exact Ho | now eexists | apply Hall; lia]. }
  apply subseteq_size in Hsub. rewrite size_dom, (size_list_to_set l Hnd) in Hsub.
  unfold l in Hsub. rewrite length_map, length_seq in Hsub. fold m in Hsub. lia.
Qed.

(** ** Changing the password *)

(** The private key of an entry, under another password *)
Definition recrypted (old new : Password) (k k' : WalletKeyEntry) : Prop :=
  if has_private_key (key_data k) then
    key_index k' = key_index k /\ public_key (key_data k') = public_key (key_data k)
    /\ exists p, decrypt_private_key old (key_data k) = Ok p /\ decrypt_private_key new (key_data k') = Ok p
  else k' = k.
(** An entry under its address, whose private key, if any, is that of its
    public key and is encrypted with the password *)
Definition sealed (password : Password) (a : Address) (k : WalletKeyEntry) : Prop :=
  key_index k <> 0 /\ address_of_key (public_key (key_data k)) = a
  /\ (has_private_key (key_data k) = true ->
      exists p, decrypt_private_key password (key_data k) = Ok p /\ get_public_key p = public_key (key_data k)).

Lemma encrypt_private_key_run password p k : password <> 0 -> exists k', encrypt_private_key password p k = Ok k'
  /\ public_key k' = get_public_key p /\ decrypt_private_key password k' = Ok p.
Proof.
  intros Hp. unfold encrypt_private_key, decrypt_private_key. destruct (Z.eqb_spec password 0); [contradiction |].
  cbn. rewrite aes_roundtrip. cbn. rewrite Z.eqb_refl. cbn. eexists. split; [reflexivity |]. cbn. split; [reflexivity | apply aes_roundtrip].
Qed.

Lemma store_key_entry_run e db : entrys_open db = true -> key_index e <> 0 ->
  store_and_reload_key e db = (Ok e, put (key_entry_type e) db).
Proof.
  intros Ho Hi. unfold store_and_reload_key, given_index. destruct (Z.eqb_spec (key_index e) 0); [contradiction |].
  rewrite (bind_run_Ok _ _ db (key_index e) db) by reflexivity. destruct e as [i d]. cbn in *.
  unfold store_and_reload_generic_entry, bind, get, fc_assert, ret, modify, put. rewrite Ho. cbn.
  destruct (Z.eqb_spec i 0); [contradiction | reflexivity].
Qed.

Definition recrypt (old new : Password) (key : Address * WalletKeyEntry) : D unit :=
  when (has_private_key (key_data (snd key)))
    (priv_key <- lift_result (decrypt_private_key old (key_data (snd key))) ;;
     changed <- lift_result (encrypt_private_key new priv_key (key_data (snd key))) ;;
     store_and_reload_key (mkWalletKeyEntry (key_index (snd key)) changed) ;;; ret tt).

Lemma recrypt_one old new a k db : new <> 0 -> entrys_open db = true -> sealed old a k -> keys db !! a = Some k ->
  exists db' k', recrypt old new (a, k) db = (Ok tt, db') /\ entrys_open db' = true
    /\ wallet_master_key db' = wallet_master_key db /\ keys db' = <[a := k']> (keys db) /\ recrypted old new k k'.
Proof.
  intros Hn Ho (Hi & Ha & Hp) Hk. unfold recrypt, recrypted, when. cbn [snd].
  destruct (has_private_key (key_data k)) eqn:Eh.
  2: { exists db, k. rewrite fin_maps.insert_id by exact Hk. auto. }
  destruct (Hp eq_refl) as (p & Ep & Epub). destruct (encrypt_private_key_run new p (key_data k) Hn) as (k' & Ek & Ek' & Ed).
  exists (put (key_entry_type (mkWalletKeyEntry (key_index k) k')) db), (mkWalletKeyEntry (key_index k) k').
  split; [| split; [exact Ho |]; split; [reflexivity |]; split].
  - unfold bind, lift_result. rewrite Ep, Ek. fold (@bind WalletDb). now rewrite store_key_entry_run.
  - cbn. rewrite Ek', Epub, Ha. reflexivity.
  - cbn. split; [reflexivity |]. split; [congruence |]. exists p. now split.
Qed.

Lemma recrypt_all old new l : new <> 0 -> NoDup l.*1 -> forall db, entrys_open db = true ->
  (forall a k, (a, k) ∈ l -> sealed old a k /\ keys db !! a = Some k) ->
  exists db', forM l (recrypt old new) db = (Ok tt, db') /\ wallet_master_key db' = wallet_master_key db
    /\ (forall a k, (a, k) ∈ l -> exists k', keys db' !! a = Some k' /\ recrypted old new k k')
    /\ (forall a, a ∉ l.*1 -> keys db' !! a = keys db !! a).
Proof.
  intros Hn. induction l as [| [a k] l IH]; intros Hnd db Ho Hl; cbn [for_each].
  { exists db. split; [reflexivity |]. split; [reflexivity |]. split; [| reflexivity]. intros a k Hx. now apply not_elem_of_nil in Hx. }
  rewrite fmap_cons in *. cbn in Hnd. apply NoDup_cons in Hnd as [Hna Hnd].
  destruct (Hl a k) as [Hsealed Hk]; [apply elem_of_cons; now left |].
  destruct (recrypt_one old new a k db Hn Ho Hsealed Hk) as (db1 & k' & E & Ho1 & Em & Ek & Hr).
  assert (forall b, b ≠ a -> keys db1 !! b = keys db !! b) as Hother by (intros b Hb; now rewrite Ek, lookup_insert_ne).
  destruct (IH Hnd db1 Ho1) as (db' & E' & Em' & Hin & Hout).
  { intros b x Hx. destruct (Hl b x) as [Hs Hbx]; [apply elem_of_cons; now right |]. split; [exact Hs |].
    rewrite Hother; [exact Hbx |]. intros ->. apply Hna. apply list_elem_of_fmap. now exists (a, x). }
  exists db'. split; [unfold bind; now rewrite E |]. split; [congruence |]. split.
  - intros b x [[= -> ->] | Hx]%elem_of_cons; [| now apply Hin]. exists k'. split; [| exact Hr].
    rewrite (Hout a Hna), Ek. apply lookup_insert_eq.
  - intros b Hb. cbn in Hb. apply not_elem_of_cons in Hb as [Hne Hb]. rewrite (Hout b Hb). now apply Hother.
Qed.

(** C35: Changing the password keeps every private key: if the old password opens the wallet and its keys, the change succeeds, the new password is valid and opens the master key, and every private key decrypts with the new one to what it was; the other keys are as they were. *)
Theorem change_password_keeps_keys old new db m master : new <> 0 -> is_open db = true ->
  wallet_master_key db = Some m -> decrypt_key old m = Ok master ->
  (forall a k, keys db !! a = Some k -> sealed old a k) ->
  exists db' m', change_password old new db = (Ok tt, db')
    /\ wallet_master_key db' = Some m' /\ decrypt_key new m' = Ok master /\ validate_password new m' = true
    /\ forall a, match keys db !! a with
                 | Some k => exists k', keys db' !! a = Some k' /\ recrypted old new k k'
                 | None => keys db' !! a = None
                 end.
Proof.
  intros Hn Ho Em Ed Hk. assert (entrys_open db = true) as Ho' by (unfold is_open in Ho; now apply andb_prop in Ho).
  set (m' := mkMasterKey (aes_encrypt new master) (sha512_hash new)).
  assert (decrypt_key new m' = Ok master) as Ed'.
  { unfold decrypt_key. destruct (Z.eqb_spec new 0); [contradiction |]. cbn.
    destruct (Nat.eqb_spec (length (aes_encrypt new master)) 0) as [E | _]; [| apply aes_roundtrip].
    apply length_zero_iff_nil in E. now apply aes_nonempty in E. }
  set (db1 := put (master_key_entry_type (-1) m') db).
  destruct (recrypt_all old new (map_to_list (keys db)) Hn (NoDup_fst_map_to_list _) db1 Ho') as (db' & E & Em' & Hin & Hout).
  { intros a k Hx. apply elem_of_map_to_list in Hx. split; [now apply Hk | exact Hx]. }
  exists db', m'. split; [| split; [now rewrite Em' |]; split; [exact Ed' |]; split; [apply Z.eqb_refl |]].
  - unfold change_password. rewrite (bind_run_Ok _ _ db db db) by reflexivity. rewrite Ho.
    rewrite (bind_run_Ok _ _ db tt db) by reflexivity. rewrite Em, (bind_run_Ok _ _ db m db) by reflexivity.
    rewrite (bind_run_Ok _ _ db master db) by (unfold lift_result; now rewrite Ed).
    rewrite (bind_run_Ok _ _ db tt db1); [exact E |].
    unfold set_master_key. rewrite (bind_run_Ok _ _ db m' db).
    + unfold store_and_reload_generic_entry, bind, get, fc_assert, ret, modify. now rewrite Ho'.
    + unfold lift_result, encrypt_key. fold m'. rewrite Ed'. destruct (Z.eqb_spec new 0); [contradiction |]. cbn.
      now rewrite Z.eqb_refl.
  - intros a. destruct (keys db !! a) as [k |] eqn:Ea; [apply Hin, elem_of_map_to_list, Ea |].
    rewrite (Hout a); [exact Ea |]. intros Hx. apply list_elem_of_fmap in Hx as ([b k] & -> & Hx).
    apply elem_of_map_to_list in Hx. cbn in Ea. congruence.
Qed.
End Keys.
