(* ===== verification/WalletDbSamples.v ===== *)
(** * A sample wallet

    A wallet is created, an account and a key are generated in it, the account
    is registered on the chain, and the password is changed. *)

From Stdlib Require Import ZArith Lia Bool String.
From stdpp Require Import base gmap strings list relations.
From S2P Require Import Prelude Asset Entries Names ChainInterface ChainState.
From S2P Require Import WalletDb WalletDbLaws WalletDbStore WalletKeys.

Local Open Scope Z_scope.

#[local] Instance wallet_params : ChainParams := {|
  address_of_key := fun k => 2 * k;
  pts_address_of_key := fun k compressed version => 1 + 2 * (4 * k + (if compressed then 1 else 0) + (if version =? 0 then 2 else 0));
  recover_key := fun sig digest canonical => Ok sig;
  condition_address := fun c => cond_asset_id c + 1000 * cond_slate_id c
                                + match cond_data c with
                                  | WithdrawWithSignature o _ => 1000000 * o
                                  | _ => 0
                                  end;
  slate_hash := fun s => set_fold Z.add 17 s;
  trx_digest := fun trx c => expiration trx + c;
  trx_id := fun trx => expiration trx;
  trx_data_size := fun trx => 100 * Z.of_nat (List.length (operations trx));
  operation_hash := op_type;
  register_contract_hash := fun o => rc_register_time o;
  code_sha1 := fun bytes => ""%string;
  uint128_div_zero := fun _ => Err overflow_exception;
  get_chain_id := 42;
  get_statistics_enabled := true
|}.
#[local] Instance wallet_crypto : WalletCrypto := {|
  get_public_key := fun p => p + 5;
  sign_compact := fun p digest => p + 5;
  sha512_hash := fun password => 3 * password;
  aes_encrypt := fun password z => [password; z];
  aes_decrypt := fun password text =>
    match text with
    | [p; z] => if p =? password then Ok z else Err aes_exception
    | _ => Err aes_exception
    end;
  extended_private_key := fun p => p;
  child_of_index := fun e i => 1000 * e + i;
  child_of_sequence := fun e i => 100000 * e + i;
  public_key_string := fun _ => "key"%string;
  unset_owner_key := 0
|}.
#[local] Instance wallet_addresses : AddressLaws.
Proof. split; cbn; intros; lia. Qed.
#[local] Instance wallet_cipher : CipherLaws.
Proof. split; cbn; intros; [now rewrite Z.eqb_refl | discriminate]. Qed.

Definition created : WalletDb := new_wallet (mkMasterKey [9; 3] 27).
Lemma created_durable : durable created.
Proof. apply new_wallet_durable. Qed.

Definition with_alice : WalletDb := snd (generate_new_account 3 100 9 "alice" VNull created).
Definition with_key : WalletDb := snd (generate_new_account_child_key 3 9 "alice" with_alice).

Example alice_generated : fst (generate_new_account 3 100 9 "alice" VNull created) = Ok 3006.
Proof. vm_compute. reflexivity. Qed.
Example key_generated : fst (generate_new_account_child_key 3 9 "alice" with_alice) = Ok 30010000000001.
Proof. vm_compute. reflexivity. Qed.

Lemma run_pair {A B} (x : A * B) : x = (fst x, snd x).
Proof. apply surjective_pairing. Qed.
Lemma stores_alice : stores created with_alice.
Proof. eapply stores_new_account, run_pair. Qed.
Lemma stores_alice_key : stores with_alice with_key.
Proof. eapply stores_new_key, run_pair. Qed.
Lemma alice_durable : durable with_alice.
Proof.
  destruct (stores_good created with_alice (rtc_once _ _ stores_alice) (or_introl created_durable)) as [Hd | [[x Hx] _]];
    [exact Hd | vm_compute in Hx; discriminate].
Qed.
Lemma key_durable : durable with_key.
Proof.
  destruct (stores_good with_alice with_key (rtc_once _ _ stores_alice_key) (or_introl alice_durable)) as [Hd | [[x Hx] _]];
    [exact Hd | vm_compute in Hx; discriminate].
Qed.

Lemma wallet_db_durable_witness : durable created /\ rtc stores created with_key /\ (durable with_key \/ worn with_key).
Proof.
  assert (rtc stores created with_key) as Hs by exact (rtc_l _ _ _ _ stores_alice (rtc_once _ _ stores_alice_key)).
  split; [exact created_durable |]. split; [exact Hs |]. exact (wallet_db_durable created with_key created_durable Hs).
Defined.

Lemma wallet_reopens_witness : keys (open_wallet (rev (map_to_list (entrys with_key)))) = keys with_key.
Proof.
  refine (proj1 (proj2 (wallet_reopens with_key (rev (map_to_list (entrys with_key))) key_durable _))).
  symmetry. apply Permutation_rev.
Defined.

(** The owner key of alice *)
Definition alice_key : WalletKeyEntry := default (mkWalletKeyEntry 0 (new_key_data 0 0)) (keys with_alice !! 6012).
Lemma private_keys_kept_witness : exists e', keys with_key !! 6012 = Some e'
  /\ encrypted_private_key (key_data e') = encrypted_private_key (key_data alice_key).
Proof.
  apply (private_keys_kept with_alice with_key 6012 alice_key).
  - exact (keys_named _ alice_durable).
  - apply rtc_once. eapply generates_new_key, run_pair.
  - vm_compute. reflexivity.
  - vm_compute. reflexivity.
Defined.

Lemma new_account_usable_witness : exists owner active e,
  3006 = get_public_key owner
  /\ (forall p, p = owner \/ p = active -> key_taken created (address_of_key (get_public_key p)) = Ok false
                /\ account_taken created (address_of_key (get_public_key p)) = Ok false)
  /\ (get_public_key owner <> get_public_key active -> owns_key 9 active with_alice)
  /\ owns_key 9 owner with_alice
  /\ lookup_account_by_name with_alice "alice" = Ok (Some e)
  /\ owner_key (account_entry (account_data e)) = 3006
  /\ active_key (account_entry (account_data e)) = Ok (get_public_key active)
  /\ is_my_account (account_data e) = true.
Proof.
  apply (new_account_usable 3 100 9 "alice" VNull created 3006 with_alice (keys_named _ created_durable)).
  rewrite (run_pair (generate_new_account 3 100 9 "alice" VNull created)). fold with_alice. now rewrite alice_generated.
Defined.

Lemma next_child_key_found_witness : exists i child,
  next_child_key with_key (Datatypes.S (size (keys with_key))) 300100000 0 = Ok (i, child)
  /\ 0 < i <= 0 + Z.of_nat (size (keys with_key)) + 1
  /\ key_taken with_key (address_of_key (get_public_key child)) = Ok false.
Proof.
  apply (next_child_key_found with_key 300100000 0 (keys_named _ key_durable)).
  - vm_compute. reflexivity.
  - lia.
  - vm_compute. reflexivity.
  - unfold child_address. cbn. intros. lia.
Defined.

Definition sealed_check (password : Password) (x : Address * WalletKeyEntry) : bool :=
  let k := key_data (snd x) in
  negb (key_index (snd x) =? 0) && (address_of_key (public_key k) =? fst x)
  && (negb (has_private_key k)
      || match decrypt_private_key password k with Ok p => get_public_key p =? public_key k | Err _ => false end).
Lemma sealed_checked password (m : gmap Address WalletKeyEntry) a k :
  forallb (sealed_check password) (map_to_list m) = true -> m !! a = Some k -> sealed password a k.
Proof.
  intros Hc Hk. apply elem_of_map_to_list, list_elem_of_In in Hk. rewrite forallb_forall in Hc. apply Hc in Hk.
  unfold sealed_check in Hk. cbn [fst snd] in Hk. apply andb_prop in Hk as [[Hi Ha]%andb_prop Hp]. to_prop.
  split; [exact Hi |]. split; [exact Ha |]. intros Hpk. rewrite Hpk in Hp. cbn in Hp.
  destruct (decrypt_private_key password (key_data k)) as [p |]; [| discriminate]. exists p. split; [reflexivity | now apply Z.eqb_eq].
Qed.

Lemma change_password_keeps_keys_witness : exists db' m', change_password 9 11 with_key = (Ok tt, db')
  /\ wallet_master_key db' = Some m' /\ decrypt_key 11 m' = Ok 3 /\ validate_password 11 m' = true
  /\ forall a, match keys with_key !! a with
               | Some k => exists k', keys db' !! a = Some k' /\ recrypted 9 11 k k'
               | None => keys db' !! a = None
               end.
Proof.
  apply (change_password_keeps_keys 9 11 with_key (mkMasterKey [9; 3] 27) 3).
  - lia.
  - vm_compute. reflexivity.
  - vm_compute. reflexivity.
  - reflexivity.
  - intros a k. apply sealed_checked. vm_compute. reflexivity.
Defined.

(** The active key of alice, under another account *)
Lemma store_key_two_calls_witness :
  store_key_calls (2 + 5) (mkKeyData 6012 301000005 [9; 301000000] false None 0) with_alice
  = store_key (mkKeyData 6012 301000005 [9; 301000000] false None 0) with_alice.
Proof. exact (store_key_two_calls 5 _ with_alice (keys_named _ alice_durable)). Defined.
