(* ===== verification/Total.v ===== *)
(** * Runs that succeed

    A small logic of total correctness for the monad [M]: [succeeds m s Q] says
    that [m], run on [s], returns, with a value and a state that satisfy [Q]. *)

From Stdlib Require Import ZArith Lia Bool.
From stdpp Require Import base gmap list.
From S2P Require Import Prelude ChainInterface.

Local Open Scope Z_scope.

Definition succeeds {S A} (m : M S A) (s : S) (Q : A -> S -> Prop) : Prop :=
  exists a s', m s = (Ok a, s') /\ Q a s'.

Section Succeeds.
Context {S : Type}.
Implicit Type s : S.

Lemma succeeds_run {A} (m : M S A) s Q a s' : m s = (Ok a, s') -> Q a s' -> succeeds m s Q.
Proof. intros E HQ. exists a, s'. now split. Qed.
Lemma succeeds_bind {A B} (m : M S A) (k : A -> M S B) s Q :
  succeeds m s (fun a s' => succeeds (k a) s' Q) -> succeeds (bind m k) s Q.
Proof.
  intros (a & s1 & E1 & b & s2 & E2 & HQ). exists b, s2. split; [| exact HQ].
  now rewrite (bind_run_Ok _ _ _ _ _ E1).
Qed.
Lemma succeeds_mono {A} (m : M S A) s (Q Q' : A -> S -> Prop) :
  succeeds m s Q -> (forall a s', Q a s' -> Q' a s') -> succeeds m s Q'.
Proof. intros (a & s' & E & HQ) HQQ. exists a, s'. auto. Qed.
Lemma succeeds_ret {A} (a : A) s (Q : A -> S -> Prop) : Q a s -> succeeds (ret a) s Q.
Proof. now apply succeeds_run. Qed.
Lemma succeeds_get s (Q : S -> S -> Prop) : Q s s -> succeeds Prelude.get s Q.
Proof. now apply succeeds_run. Qed.
Lemma succeeds_gets {A} (f : S -> A) s (Q : A -> S -> Prop) : Q (f s) s -> succeeds (gets f) s Q.
Proof. now apply succeeds_run. Qed.
Lemma succeeds_modify (f : S -> S) s (Q : unit -> S -> Prop) : Q tt (f s) -> succeeds (modify f) s Q.
Proof. now apply succeeds_run. Qed.
Lemma succeeds_lift {A} (r : result A) a s (Q : A -> S -> Prop) : r = Ok a -> Q a s -> succeeds (lift_result r) s Q.
Proof. intros ->. now apply succeeds_run. Qed.
Lemma succeeds_valid {A} (o : option A) e a s (Q : A -> S -> Prop) : o = Some a -> Q a s -> succeeds (valid_or o e) s Q.
Proof. intros ->. now apply succeeds_run. Qed.
Lemma succeeds_assert b s (Q : unit -> S -> Prop) : b = true -> Q tt s -> succeeds (fc_assert b) s Q.
Proof. intros ->. now apply succeeds_run. Qed.
Lemma succeeds_unless b e s (Q : unit -> S -> Prop) : b = false -> Q tt s -> succeeds (throw_if b e) s Q.
Proof. intros ->. now apply succeeds_run. Qed.
Lemma succeeds_when b (m : M S unit) s (Q : unit -> S -> Prop) :
  (b = true -> succeeds m s Q) -> (b = false -> Q tt s) -> succeeds (when b m) s Q.
Proof. destruct b; [auto |]. intros _ HQ. apply succeeds_ret. auto. Qed.

(** A loop, by an invariant of what is left to do *)
Lemma succeeds_each {A} (l : list A) (body : A -> M S unit) (I : list A -> S -> Prop) :
  (forall x l' s, I (x :: l') s -> succeeds (body x) s (fun _ => I l')) ->
  forall s (Q : unit -> S -> Prop), I l s -> (forall s', I [] s' -> Q tt s') -> succeeds (forM l body) s Q.
Proof.
  intros Hstep. induction l as [| x l IH]; intros s Q HI HQ.
  - apply succeeds_ret, HQ, HI.
  - cbn. apply succeeds_bind. apply (succeeds_mono _ _ _ _ (Hstep x l s HI)). intros _ s' HI'. now apply IH.
Qed.
Lemma succeeds_app {A} (l l' : list A) (body : A -> M S unit) : forall s (Q : unit -> S -> Prop),
  succeeds (forM l body) s (fun _ s' => succeeds (forM l' body) s' Q) -> succeeds (forM (l ++ l') body) s Q.
Proof.
  induction l as [| x l IH]; intros s Q HQ.
  - destruct HQ as (a & s' & [= _ <-] & HQ). exact HQ.
  - cbn in HQ |- *. destruct HQ as (a & s' & E & HQ). apply bind_Ok in E as (b & s1 & E1 & E2).
    apply succeeds_bind. apply (succeeds_run _ _ _ _ _ E1). apply IH. now apply (succeeds_run _ _ _ _ _ E2).
Qed.
End Succeeds.

(** One step of a program, forward; what is to be shown of the step is left. *)
Ltac go1 :=
  lazymatch goal with
  | |- succeeds (bind _ _) _ _ => apply succeeds_bind
  | |- succeeds (ret _) _ _ => apply succeeds_ret
  | |- succeeds Prelude.get _ _ => apply succeeds_get
  | |- succeeds (gets _) _ _ => apply succeeds_gets
  | |- succeeds (modify _) _ _ => apply succeeds_modify
  | |- succeeds (lift_result _) _ _ => eapply succeeds_lift
  | |- succeeds (valid_or _ _) _ _ => eapply succeeds_valid
  | |- succeeds (fc_assert _) _ _ => apply succeeds_assert
  | |- succeeds (throw_if _ _) _ _ => apply succeeds_unless
  end.
(** Steps that leave nothing to be shown *)
Ltac go := repeat (cbv beta; lazymatch goal with
  | |- succeeds (bind _ _) _ _ => apply succeeds_bind
  | |- succeeds (ret _) _ _ => apply succeeds_ret
  | |- succeeds Prelude.get _ _ => apply succeeds_get
  | |- succeeds (gets _) _ _ => apply succeeds_gets
  | |- succeeds (modify _) _ _ => apply succeeds_modify
  end); cbv beta.
