(* ===== verification/Wallet.v ===== *)
(** * The wallet

    wallet/Wallet.cpp: what a wallet knows of its accounts, keys and
    properties, over its database and the chain it belongs to. *)

From Stdlib Require Import ZArith Lia Bool String.
From stdpp Require Import base gmap strings list.
From S2P Require Import Prelude Asset Entries Names ChainInterface ChainState.
From S2P Require Import PendingChainState WalletDb.

Local Open Scope Z_scope.

(** What the wallet needs of fc and of the standard library: conversions of
    variants, the order in which hashed containers are gone through, shuffling. *)
Class WalletParams : Type := {
  variant_of_asset : Asset -> variant;
  asset_of_variant : variant -> result Asset;
  null_to_integer : result Z;
  (** The field of an object, and a value that is_uint64 *)
  object_field : variant -> string -> option variant;
  uint64_value : variant -> option Z;
  hash_order : forall {A : Type}, gmap Z A -> list (Z * A);
  random_shuffle : list Z -> list Z
}.
Class WalletParamsLaws `{WalletParams} : Prop := {
  asset_variant a : asset_of_variant (variant_of_asset a) = Ok a;
  hash_order_all {A} (m : gmap Z A) : hash_order m ≡ₚ map_to_list m;
  random_shuffle_all l : random_shuffle l ≡ₚ l
}.

Definition ALP_WALLET_MIN_PASSWORD_LENGTH : Z := 8.
Definition ALP_WALLET_DEFAULT_TRANSACTION_FEE : Z := 1000.

Record Wallet := mkWallet {
  _wallet_db : WalletDb;
  _wallet_password : Password;
  _balance_entrys : gmap BalanceIdType BalanceEntry;
  _dirty_balances : bool;
  _dirty_accounts : bool
}.
Definition set_wallet_db x w := mkWallet x (_wallet_password w) (_balance_entrys w) (_dirty_balances w) (_dirty_accounts w).
Definition set_wallet_password x w := mkWallet (_wallet_db w) x (_balance_entrys w) (_dirty_balances w) (_dirty_accounts w).
Definition set_balance_entrys x w := mkWallet (_wallet_db w) (_wallet_password w) x (_dirty_balances w) (_dirty_accounts w).
Definition set_dirty_balances x w := mkWallet (_wallet_db w) (_wallet_password w) (_balance_entrys w) x (_dirty_accounts w).
Definition set_dirty_accounts x w := mkWallet (_wallet_db w) (_wallet_password w) (_balance_entrys w) (_dirty_balances w) x.

(** An operation of the wallet's database; a question to the wallet *)
Definition on_db {A} (m : M WalletDb A) : M Wallet A :=
  fun w => let (r, db) := m (_wallet_db w) in (r, set_wallet_db db w).
Definition view_wallet {A} (f : Wallet -> result A) : M Wallet A := w <- get ;; lift_result (f w).

Definition wallet_is_open (w : Wallet) : bool := is_open (_wallet_db w).
Definition is_locked (w : Wallet) : result bool :=
  let! _ := result_assert (wallet_is_open w) in Ok (_wallet_password w =? 0).
Definition is_unlocked (w : Wallet) : result bool := let! locked := is_locked w in Ok (negb locked).
(** FC_ASSERT( is_open() ); FC_ASSERT( is_unlocked() ) *)
Definition assert_unlocked (w : Wallet) : result unit :=
  let! _ := result_assert (wallet_is_open w) in
  let! unlocked := is_unlocked w in result_assert unlocked.
(** if( NOT is_open() ) ... if( NOT is_unlocked() ) ... *)
Definition require_unlocked (w : Wallet) : result unit :=
  if wallet_is_open w then
    let! unlocked := is_unlocked w in if unlocked then Ok tt else Err wallet_locked
  else Err wallet_closed.

Section Wallet.
Context `{ChainParams} `{WalletCrypto} `{WalletParams} `{Clock}.
Context {S : Type} `{ChainInterface S} {P : Type} `{ChainInterface P}.
(** _blockchain and its pending state *)
Variables (blockchain : S) (pending_state : P).

(** ** Keys *)

Definition get_private_key (w : Wallet) (addr : Address) : result PrivateKeyType :=
  let! _ := assert_unlocked w in
  let! key := lookup_key (_wallet_db w) addr in
  match key with
  | Some key =>
      let! _ := result_assert (has_private_key (key_data key)) in
      decrypt_private_key (_wallet_password w) (key_data key)
  | None => Err assert_exception
  end.
(** Wallet::get_public_key *)
Definition known_public_key (w : Wallet) (addr : Address) : result PublicKeyType :=
  let! _ := result_assert (wallet_is_open w) in
  let! key := lookup_key (_wallet_db w) addr in
  match key with Some key => Ok (public_key (key_data key)) | None => Err assert_exception end.
Definition is_receive_address (w : Wallet) (addr : Address) : result bool :=
  let! key := lookup_key (_wallet_db w) addr in Ok (negb (lacks_private_key key)).

(** Any account for which this wallet owns the active private key *)
Definition is_receive_account (w : Wallet) (name : string) : result bool :=
  let! _ := result_assert (wallet_is_open w) in
  if negb (is_valid_account_name name) then Ok false else
  let! account := lookup_account_by_name (_wallet_db w) name in
  match account with
  | Some a =>
      let! active := active_address (account_entry (account_data a)) in
      let! key := lookup_key (_wallet_db w) active in
      Ok (negb (lacks_private_key key))
  | None => Ok false
  end.

(** The accounts of the wallet under a name *)
Definition accounts_named (w : Wallet) (name : string) : list WalletAccountEntry :=
  filter (fun e => account_name (account_entry (account_data e)) = name)
    (map snd (map_to_list (accounts (_wallet_db w)))).
Definition is_unique_account (w : Wallet) (name : string) : result bool :=
  match accounts_named w name with
  | [] => Ok true
  | [_] =>
      let! local := lookup_account_by_name (_wallet_db w) name in
      let! registered := get_account_entry_by_name blockchain name in
      Ok (match local, registered with
          | Some l, Some r => owner_key (account_entry (account_data l)) =? owner_key r
          | None, None => false
          | _, _ => true
          end)
  | _ => Ok false
  end.

Definition get_active_private_key (w : Wallet) (name : string) : result PrivateKeyType :=
  if negb (is_valid_account_name name) then Err invalid_name else
  let! _ := assert_unlocked w in
  let! account := lookup_account_by_name (_wallet_db w) name in
  match account with
  | Some a =>
      let! active := active_address (account_entry (account_data a)) in
      let! key := lookup_key (_wallet_db w) active in
      match key with
      | Some key =>
          let! _ := result_assert (has_private_key (key_data key)) in
          decrypt_private_key (_wallet_password w) (key_data key)
      | None => Err assert_exception
      end
  | None => Err assert_exception
  end.

(** get_active_public_key and get_owner_public_key: of the account on the
    chain, or else of the one in the wallet *)
Definition account_public_key (w : Wallet) (key_of : AccountEntry -> result PublicKeyType) (name : string)
    : result PublicKeyType :=
  if negb (is_valid_account_name name) then Err invalid_name else
  let! unique := is_unique_account w name in
  let! _ := result_assert unique in
  let! registered := get_account_entry_by_name blockchain name in
  match registered with
  | Some r =>
      let! retracted := is_retracted r in
      if retracted then Err account_retracted else key_of r
  | None =>
      let! _ := result_assert (wallet_is_open w) in
      let! account := lookup_account_by_name (_wallet_db w) name in
      match account with
      | Some a => key_of (account_entry (account_data a))
      | None => Err assert_exception
      end
  end.
Definition get_active_public_key (w : Wallet) : string -> result PublicKeyType :=
  account_public_key w active_key.
Definition get_owner_public_key (w : Wallet) : string -> result PublicKeyType :=
  account_public_key w (fun a => Ok (owner_key a)).

Definition get_account_for_address (w : Wallet) (addr : Address) : result (option WalletAccountEntry) :=
  let! _ := result_assert (wallet_is_open w) in
  let! key := lookup_key (_wallet_db w) addr in
  match key with
  | Some key => lookup_account (_wallet_db w) (account_address (key_data key))
  | None => Ok None
  end.

(** ** Accounts *)

Definition get_account (name : string) : M Wallet WalletAccountEntry :=
  w <- get ;;
  fc_assert (wallet_is_open w) ;;;
  throw_if (negb (is_valid_account_name name)) invalid_name ;;;
  local <- lift_result (lookup_account_by_name (_wallet_db w) name) ;;
  registered <- lift_result (get_account_entry_by_name blockchain name) ;;
  throw_if (negb (is_some local || is_some registered)) unknown_account ;;;
  local <- match registered with
           | Some r =>
               on_db (store_blockchain_account r 0) ;;;
               view_wallet (fun w => lookup_account_by_name (_wallet_db w) name)
           | None => ret local
           end ;;
  valid_or local assert_exception.

Definition list_my_accounts (w : Wallet) : list WalletAccountEntry :=
  filter (fun e => is_my_account (account_data e) = true) (map snd (map_to_list (accounts (_wallet_db w)))).

Definition set_last_scanned_block_number (block_num : Z) : M Wallet unit :=
  w <- get ;; fc_assert (wallet_is_open w) ;;;
  on_db (set_property last_unlocked_scanned_block_number (VInt64 block_num)).
Definition set_last_scanned_block_number_for_alp (block_num : Z) : M Wallet unit :=
  w <- get ;; fc_assert (wallet_is_open w) ;;;
  on_db (set_property last_scanned_block_number_for_thinkyoung (VInt64 block_num)).

Definition create_account (fuel : nat) (name : string) (data : variant) : M Wallet PublicKeyType :=
  throw_if (negb (is_valid_account_name name)) invalid_name ;;;
  view_wallet assert_unlocked ;;;
  num_accounts_before <- gets (fun w => length (list_my_accounts w)) ;;
  current <- view_wallet (fun w => lookup_account_by_name (_wallet_db w) name) ;;
  throw_if (is_some current) invalid_name ;;;
  registered <- lift_result (get_account_entry_by_name blockchain name) ;;
  throw_if (is_some registered) invalid_name ;;;
  password <- gets _wallet_password ;;
  key <- on_db (generate_new_account fuel blockchain_now password name data) ;;
  when (num_accounts_before =? 0)%nat
    (set_last_scanned_block_number (get_head_block_num blockchain) ;;;
     set_last_scanned_block_number_for_alp 0) ;;;
  modify (set_dirty_accounts true) ;;;
  ret key.

(** WalletDb::add_contact_account *)
Definition db_add_contact_account (a : AccountEntry) (data : variant) : M WalletDb unit :=
  db <- get ;;
  fc_assert (is_open db) ;;;
  found <- view_db (fun db => lookup_account_by_name db (account_name a)) ;;
  fc_assert (negb (is_some found)) ;;;
  key <- view_db (fun db => lookup_key db (address_of_key (owner_key a))) ;;
  fc_assert (negb (is_some key)) ;;;
  store_account (mkAccountData a false 0 false false 0 data) 0.

(** The account already in the wallet takes over what the chain says of it. *)
Definition refresh_contact (current : WalletAccountEntry) (registered : option AccountEntry) (data : variant)
    : M Wallet unit :=
  let d := account_data current in
  let d := match registered with Some r => set_account_entry r d | None => d end in
  let d := if is_null data then d
           else mkAccountData (account_entry d) (is_my_account d) (approved d) (is_favorite d)
                  (block_production_enabled d) (last_used_gen_sequence d) data in
  on_db (store_account d 0).
Definition add_contact_account (name : string) (key : PublicKeyType) (data : variant) : M Wallet unit :=
  w <- get ;;
  fc_assert (wallet_is_open w) ;;;
  throw_if (negb (is_valid_account_name name)) invalid_name ;;;
  registered <- lift_result (get_account_entry_by_name blockchain name) ;;
  match registered with
  | Some r =>
      throw_if (negb (owner_key r =? key)) invalid_name ;;;
      retracted <- lift_result (is_retracted r) ;;
      throw_if retracted account_retracted
  | None => ret tt
  end ;;;
  current <- lift_result (lookup_account_by_name (_wallet_db w) name) ;;
  match current with
  | Some c =>
      fc_assert (owner_address (account_entry (account_data c)) =? address_of_key key) ;;;
      refresh_contact c registered data
  | None =>
      current <- lift_result (lookup_account (_wallet_db w) (address_of_key key)) ;;
      match current with
      | Some c =>
          throw_if (negb (String.eqb (account_name (account_entry (account_data c))) name)) duplicate_key ;;;
          refresh_contact c registered data
      | None =>
          a <- match registered with
               | Some r => ret r
               | None =>
                   a <- lift_result (set_active_key blockchain_now key
                                       (mkAccountEntry 0 name VNull key ∅ 0 0 None None)) ;;
                   ret (mkAccountEntry 0 name VNull key (active_key_history a) 0 blockchain_now None None)
               end ;;
          on_db (db_add_contact_account a data)
      end
  end.

(** set_account_approval calls itself once the account is in the wallet. *)
Fixpoint set_account_approval_calls (calls : nat) (name : string) (approval : Z) : M Wallet unit :=
  match calls with
  | O => throw does_not_return
  | Datatypes.S calls =>
      w <- get ;;
      fc_assert (wallet_is_open w) ;;;
      fc_assert (negb (String.eqb name "")) ;;;
      registered <- lift_result (get_account_entry_by_name blockchain name) ;;
      war <- lift_result (lookup_account_by_name (_wallet_db w) name) ;;
      match war, registered with
      | Some e, _ => on_db (store_account (set_approved approval (account_data e)) 0)
      | None, Some r =>
          add_contact_account name (owner_key r) VNull ;;;
          set_account_approval_calls calls name approval
      | None, None => throw unknown_account
      end
  end.
Definition set_account_approval : string -> Z -> M Wallet unit := set_account_approval_calls 2.
Definition get_account_approval (w : Wallet) (name : string) : result Z :=
  let! _ := result_assert (wallet_is_open w) in
  let! registered := get_account_entry_by_name blockchain name in
  let! war := lookup_account_by_name (_wallet_db w) name in
  match war with
  | Some e => Ok (approved (account_data e))
  | None => if is_some registered then Ok 0 else Err unknown_account
  end.

(** ** New keys *)

Definition get_new_private_key (fuel : nat) (name : string) : M Wallet PrivateKeyType :=
  view_wallet require_unlocked ;;;
  receives <- view_wallet (fun w => is_receive_account w name) ;;
  throw_if (negb receives) unknown_receive_account ;;;
  current <- view_wallet (fun w => lookup_account_by_name (_wallet_db w) name) ;;
  fc_assert (is_some current) ;;;
  password <- gets _wallet_password ;;
  on_db (generate_new_account_child_key fuel password name).
Definition get_new_public_key (fuel : nat) (name : string) : M Wallet PublicKeyType :=
  key <- get_new_private_key fuel name ;; ret (get_public_key key).
Definition get_new_address (fuel : nat) (name : string) : M Wallet Address :=
  key <- get_new_public_key fuel name ;;
  let addr := address_of_key key in
  okey <- view_wallet (fun w => lookup_key (_wallet_db w) addr) ;;
  okey <- valid_or okey assert_exception ;;
  on_db (store_key (key_data okey)) ;;;
  ret addr.

(** ** Passwords

    fc::sha512::hash( passphrase ) and the size of the passphrase *)

Definition check_passphrase (w : Wallet) (passphrase : Password) (size : Z) : result bool :=
  let! _ := require_unlocked w in
  if size <? ALP_WALLET_MIN_PASSWORD_LENGTH then Err password_too_short else
  match wallet_master_key (_wallet_db w) with
  | Some m => Ok (validate_password passphrase m)
  | None => Err assert_exception
  end.
Definition change_passphrase (old_passphrase new_passphrase : Password) (new_size : Z) : M Wallet unit :=
  view_wallet require_unlocked ;;;
  throw_if (new_size <? ALP_WALLET_MIN_PASSWORD_LENGTH) password_too_short ;;;
  w <- get ;;
  m <- valid_or (wallet_master_key (_wallet_db w)) assert_exception ;;
  throw_if (negb (validate_password old_passphrase m)) invalid_password ;;;
  on_db (change_password (_wallet_password w) new_passphrase) ;;;
  modify (fun w => set_dirty_accounts true (set_wallet_password new_passphrase w)).

(** ** Fees and limits *)

(** What a property holds as an integer: null converts, other types do not. *)
Definition integer_property (w : Wallet) (id : PropertyEnum) : result Z :=
  match get_property id (_wallet_db w) with VNull => null_to_integer | v => as_int64 v end.
Definition or_else {A} (r : result A) (a : A) : A := match r with Ok x => x | Err _ => a end.

Definition set_transaction_fee (fee : Asset) : M Wallet unit :=
  w <- get ;;
  fc_assert (wallet_is_open w) ;;;
  throw_if ((amount fee <? ALP_DEFAULT_TRANSACTION_FEE) || negb (asset_id fee =? 0)) invalid_fee ;;;
  on_db (set_property default_transaction_priority_fee (variant_of_asset fee)).
(** Wallet::get_transaction_fee, which does not use the asset asked for *)
Definition wallet_transaction_fee (w : Wallet) : result Asset :=
  let! _ := result_assert (wallet_is_open w) in
  Ok (or_else (asset_of_variant (get_property default_transaction_priority_fee (_wallet_db w)))
        (mkAsset ALP_WALLET_DEFAULT_TRANSACTION_FEE 0)).
Definition asset_can_pay_fee (w : Wallet) (id : AssetIdType) : result bool :=
  let! fee := wallet_transaction_fee w in Ok (asset_id fee =? id).

Definition set_transaction_imessage_fee_coe (coe : Z) : M Wallet unit :=
  w <- get ;;
  fc_assert (wallet_is_open w) ;;;
  throw_if (coe <? ALP_BLOCKCHAIN_MIN_MESSAGE_FEE_COE) invalid_transaction_imessage_fee_coe ;;;
  on_db (set_property transaction_min_imessage_fee_coe (VInt64 coe)).
Definition get_transaction_imessage_fee_coe (w : Wallet) : result Z :=
  let! _ := result_assert (wallet_is_open w) in
  Ok (or_else (integer_property w transaction_min_imessage_fee_coe) 0).
Definition set_transaction_imessage_soft_max_length (length : Z) : M Wallet unit :=
  w <- get ;;
  fc_assert (wallet_is_open w) ;;;
  throw_if ((length <? 0) || (ALP_BLOCKCHAIN_MAX_MESSAGE_SIZE <? length)) invalid_transaction_imessage_soft_length ;;;
  on_db (set_property transaction_min_imessage_soft_length (VInt64 length)).
Definition get_transaction_imessage_soft_max_length (w : Wallet) : result Z :=
  let! _ := result_assert (wallet_is_open w) in
  Ok (or_else (integer_property w transaction_min_imessage_soft_length) 0).
(** size_t takes part in the comparison and in the product. *)
Definition get_transaction_imessage_fee (w : Wallet) (message : string) : result Asset :=
  let! _ := result_assert (wallet_is_open w) in
  let! max_soft_length := get_transaction_imessage_soft_max_length w in
  if wrap_u64 max_soft_length <? strlen message then Err imessage_size_bigger_than_soft_max_lenth else
  if strlen message <=? ALP_BLOCKCHAIN_MAX_FREE_MESSAGE_SIZE then Ok (mkAsset 0 0) else
  let! min_fee_coe := get_transaction_imessage_fee_coe w in
  Ok (mkAsset (wrap_i64 (min_fee_coe * (strlen message - ALP_BLOCKCHAIN_MAX_FREE_MESSAGE_SIZE))) 0).

Definition set_transaction_expiration (secs : Z) : M Wallet unit :=
  w <- get ;;
  fc_assert (wallet_is_open w) ;;;
  throw_if (ALP_BLOCKCHAIN_MAX_TRANSACTION_EXPIRATION_SEC <? secs) invalid_expiration_time ;;;
  on_db (set_property transaction_expiration_sec (VInt64 secs)).
Definition get_transaction_expiration (w : Wallet) : result Z :=
  let! _ := result_assert (wallet_is_open w) in
  let! secs := integer_property w transaction_expiration_sec in Ok (wrap_u32 secs).
(** blockchain::now() + get_transaction_expiration() *)
Definition new_expiration (w : Wallet) : result time_point_sec :=
  let! secs := get_transaction_expiration w in Ok (wrap_u32 (blockchain_now + secs)).
End Wallet.
