(* ===== verification/WalletFunds.v ===== *)
(** * What a wallet spends

    The balances of wallet/Wallet.cpp, how withdrawals are drawn from them, the
    slates it votes with, and the members of Transaction
    (blockchain/Transaction.cpp) by which it puts a transaction together. *)

From Stdlib Require Import ZArith Lia Bool String.
From stdpp Require Import base gmap strings list sorting.
From S2P Require Import Prelude DecimalText Doubles Amounts Asset Entries Names Addresses ChainInterface ChainState.
From S2P Require Import EvalState PendingChainState WalletDb Wallet.

Local Open Scope Z_scope.

(** ** Building transactions

    The members of Transaction and SignedTransaction (blockchain/Transaction.cpp)
    with which a wallet puts a transaction together, beyond those of
    ChainState.v: one operation each, the slates of the deposits, signing. *)

Section TransactionForms.
Context `{ChainParams} `{WalletCrypto}.
Abbreviation T := (M SignedTransaction).

Definition trx_withdraw_pay (account : AccountIdType) (amount : ShareType) : T unit :=
  fc_assert (0 <? amount) ;;;
  modify (push_operation (OpWithdrawPay (mkWithdrawPayOperation amount account))).

Definition trx_deposit_multisig (info : MultisigMetaInfo) (a : Asset) : T unit :=
  fc_assert (0 <? amount a) ;;;
  modify (push_operation (OpDeposit (mkDepositOperation (amount a)
            (mkWithdrawCondition (asset_id a) 0 withdraw_common_type
               (WithdrawWithMultisig (required info) (owners info) None))))).

Definition trx_register_account (name : string) (public_data : variant) (master active : PublicKeyType)
    (pay_rate : Z) (info : option AccountMetaInfo) : T unit :=
  modify (push_operation (OpRegisterAccount
            (mkRegisterAccountOperation name public_data master active pay_rate info))).

Definition trx_update_account (account_id : AccountIdType) (delegate_pay_rate : Z)
    (public_data : option variant) (active : option PublicKeyType) : T unit :=
  modify (push_operation (OpUpdateAccount
            (mkUpdateAccountOperation account_id public_data active delegate_pay_rate))).

Definition trx_create_asset (symbol name description : string) (data : variant)
    (issuer_id : AccountIdType) (max_share_supply : ShareType) (precision : Z) : T unit :=
  fc_assert (0 <? max_share_supply) ;;;
  fc_assert (max_share_supply <=? ALP_BLOCKCHAIN_MAX_SHARES) ;;;
  modify (push_operation (OpCreateAsset
            (mkCreateAssetOperation symbol name description data issuer_id max_share_supply precision))).

Definition trx_issue (amount_to_issue : Asset) : T unit :=
  modify (push_operation (OpIssueAsset (mkIssueAssetOperation amount_to_issue))).
Definition trx_update_signing_key (account_id : AccountIdType) (signing_key : PublicKeyType) : T unit :=
  modify (push_operation (OpUpdateSigningKey (mkUpdateSigningKeyOperation account_id signing_key))).
Definition AddtionImessage (message : string) : T unit :=
  modify (push_operation (OpImessageMemo (mkImessageMemoOperation message))).

(** set_slates: the deposits of asset 0 and the changes of votes *)
Definition with_slate (slate_id : SlateIdType) (op : Operation) : Operation :=
  match op with
  | OpDeposit o =>
      let c := dep_condition o in
      if cond_asset_id c =? 0 then
        OpDeposit (mkDepositOperation (dep_amount o)
          (mkWithdrawCondition (cond_asset_id c) slate_id (cond_balance_type c) (cond_data c)))
      else op
  | OpUpdateBalanceVote o =>
      OpUpdateBalanceVote (mkUpdateBalanceVoteOperation (ubv_balance_id o) (new_restricted_owner o) slate_id)
  | _ => op
  end.
Definition set_slates (slate_id : SlateIdType) : T unit :=
  modify (fun trx => set_operations (map (with_slate slate_id) (operations trx)) trx).

(** trx.alp_account = name; trx.alp_inport_asset = a *)
Definition set_alp_account (name : string) (a : Asset) (trx : SignedTransaction) : SignedTransaction :=
  mkSignedTransaction (expiration trx) (reserved trx) name a (operations trx)
    (result_trx_type trx) (result_trx_id trx) (signatures trx).

(** SignedTransaction::sign *)
Definition trx_sign (signer : PrivateKeyType) (chain : DigestType) : T unit :=
  modify (fun trx => mkSignedTransaction (expiration trx) (reserved trx) (alp_account trx)
    (alp_inport_asset trx) (operations trx) (result_trx_type trx) (result_trx_id trx)
    (signatures trx ++ [sign_compact signer (trx_digest trx chain)])).
End TransactionForms.

(** ** Drafts *)

(** A transaction in the making: SignedTransaction trx and
    unordered_set< Address > required_signatures of a command *)
Record Draft := mkDraft { draft_trx : SignedTransaction; required_signatures : gset Address }.
Definition empty_draft : Draft := mkDraft empty_transaction ∅.
Definition on_trx {A} (m : M SignedTransaction A) : M Draft A :=
  fun d => let (r, t) := m (draft_trx d) in (r, mkDraft t (required_signatures d)).
Definition require_signature (a : Address) : M Draft unit :=
  modify (fun d => mkDraft (draft_trx d) ({[ a ]} ∪ required_signatures d)).

Inductive VoteStrategy := vote_none | vote_all | vote_random | vote_recommended.

(** A command works on the wallet and on its draft. *)
Record Command := mkCommand { the_wallet : Wallet; the_draft : Draft }.
Definition on_wallet {A} (m : M Wallet A) : M Command A :=
  fun c => let (r, w) := m (the_wallet c) in (r, mkCommand w (the_draft c)).
Definition on_draft {A} (m : M Draft A) : M Command A :=
  fun c => let (r, d) := m (the_draft c) in (r, mkCommand (the_wallet c) d).
Definition of_wallet {A} (f : Wallet -> result A) : M Command A := on_wallet (view_wallet f).
Definition new_draft : M Command unit := on_draft (modify (fun _ => empty_draft)).

Section WalletFunds.
Context `{ChainParams} `{HashParams} `{WalletCrypto} `{WalletParams} `{Clock} `{Machine}.
Context {S : Type} `{ChainInterface S} {P : Type} `{ChainInterface P}.
Variables (blockchain : S) (pending_state : P).

(** ** Balances *)

(** scan_balances_experimental, given the balances of the chain in the order
    the chain goes through them *)
Definition has_own_key (db : WalletDb) (owners : list Address) : result bool :=
  fold_left (fun found owner =>
    let! found := found in
    if found : bool then Ok true else
    let! key := lookup_key db owner in Ok (negb (lacks_private_key key))) owners (Ok false).
Definition scan_balance (db : WalletDb) (entrys : gmap BalanceIdType BalanceEntry) (entry : BalanceEntry)
    : result (gmap BalanceIdType BalanceEntry) :=
  match get_balance_entry pending_state (balance_id entry) with
  | None => Ok entrys
  | Some pending =>
      let! owners := condition_owners (condition pending) in
      let! own := has_own_key db (merge_sort Z.le (elements owners)) in
      Ok (if own then <[balance_id entry := pending]> entrys else entrys)
  end.
Definition scan_balances_experimental (chain_balances : list BalanceEntry) : M Wallet unit :=
  modify (set_balance_entrys ∅) ;;;
  forM chain_balances (fun entry =>
    w <- get ;;
    entrys <- lift_result (scan_balance (_wallet_db w) (_balance_entrys w) entry) ;;
    modify (set_balance_entrys entrys)) ;;;
  modify (set_dirty_balances false).

(** The account a balance is spendable by: the account of the key, or the key
    itself when it belongs to none *)
Definition spendable_by (w : Wallet) (name : string) (entry : BalanceEntry) : result (option string) :=
  if negb (cond_type (condition entry) =? withdraw_signature_type) then Ok None else
  if amount (get_spendable_balance entry) =? 0 then Ok None else
  let! owner := condition_owner (condition entry) in
  match owner with
  | None => Ok None
  | Some owner =>
      let! key := lookup_key (_wallet_db w) owner in
      match key with
      | Some key =>
          if has_private_key (key_data key) then
            let! account := lookup_account (_wallet_db w) (account_address (key_data key)) in
            let found := match account with
                         | Some a => account_name (account_entry (account_data a))
                         | None => public_key_string (public_key (key_data key))
                         end in
            Ok (if negb (String.eqb name "") && negb (String.eqb found name) then None else Some found)
          else Ok None
      | None => Ok None
      end
  end.
Definition add_spendable (w : Wallet) (name : string) (balances : result (gmap string (list BalanceEntry)))
    (item : BalanceIdType * BalanceEntry) : result (gmap string (list BalanceEntry)) :=
  let! balances := balances in
  let! found := spendable_by w name (snd item) in
  Ok (match found with
      | Some n => <[n := default [] (balances !! n) ++ [snd item]]> balances
      | None => balances
      end).
Definition get_spendable_account_balance_entrys (w : Wallet) (name : string)
    : result (gmap string (list BalanceEntry)) :=
  fold_left (add_spendable w name) (hash_order (_balance_entrys w)) (Ok ∅).

(** The shares of every asset, by account; they wrap around. *)
Definition add_shares (total : gmap AssetIdType ShareType) (entry : BalanceEntry) : gmap AssetIdType ShareType :=
  let b := get_spendable_balance entry in
  <[asset_id b := wrap_i64 (default 0 (total !! asset_id b) + amount b)]> total.
Definition get_spendable_account_balances (w : Wallet) (name : string)
    : result (gmap string (gmap AssetIdType ShareType)) :=
  let! entrys := get_spendable_account_balance_entrys w name in
  Ok ((fun l => fold_left add_shares l ∅) <$> entrys).

(** ** Drawing from balances *)

Section Draw.
Context {D : Type}.
Variable spend : BalanceIdType -> ShareType -> Address -> M D unit.

(** The loop of withdraw_to_transaction and of get_enough_balances *)
Fixpoint draw_balances (entrys : list BalanceEntry) (amount_remaining : Asset) : M D unit :=
  match entrys with
  | [] => throw insufficient_funds
  | entry :: entrys' =>
      let b := get_spendable_balance entry in
      if (amount b <=? 0) || negb (asset_id b =? asset_id amount_remaining)
      then draw_balances entrys' amount_remaining
      else
        owner <- lift_result (condition_owner (condition entry)) ;;
        match owner with
        | None => draw_balances entrys' amount_remaining
        | Some owner =>
            if amount b <? amount amount_remaining then
              spend (balance_id entry) (amount b) owner ;;;
              remaining <- lift_result (asset_sub_assign amount_remaining b) ;;
              draw_balances entrys' remaining
            else spend (balance_id entry) (amount amount_remaining) owner
        end
  end.
Definition draw_from_account (w : Wallet) (target : Asset) (name : string) : M D unit :=
  fc_assert (negb (String.eqb name "")) ;;;
  balance_entrys <- lift_result (get_spendable_account_balance_entrys w name) ;;
  match balance_entrys !! name with
  | Some entrys => draw_balances entrys target
  | None => throw insufficient_funds
  end.
End Draw.

Definition withdraw_to_transaction (w : Wallet) : Asset -> string -> M Draft unit :=
  draw_from_account (fun id a owner => on_trx (trx_withdraw id a) ;;; require_signature owner) w.
(** get_enough_balances; a map keeps the first amount of an id. *)
Definition get_enough_balances (w : Wallet) (name : string) (target : Asset)
    : M (gmap BalanceIdType ShareType * gset Address) unit :=
  draw_from_account (fun id a owner => modify (fun bs : gmap BalanceIdType ShareType * gset Address =>
    (match fst bs !! id with Some _ => fst bs | None => <[id := a]> (fst bs) end, {[ owner ]} ∪ snd bs))) w target name.

(** ** Slates *)

(** What an approved candidate recommends: its slate, or None when it is to be
    passed over; a slate that cannot be read costs it the approval. *)
Inductive Recommendation := passed_over | disapproved (name : string) | recommends (slate : list AccountIdType).
Definition recommendation (id : AccountIdType) : result Recommendation :=
  match get_account_entry blockchain id with
  | None => Ok passed_over
  | Some c =>
      let! retracted := is_retracted c in
      if retracted : bool then Ok passed_over else
      match object_field (account_public_data c) "slate_id" with
      | None => Ok passed_over
      | Some v =>
          match uint64_value v with
          | None => Ok (disapproved (account_name c))
          | Some n =>
              match get_slate_entry blockchain n with
              | None => Ok (disapproved (account_name c))
              | Some s => Ok (recommends (merge_sort Z.le (elements (slate s))))
              end
          end
      end
  end.
Fixpoint tally (candidates : list AccountIdType) (ranks : gmap AccountIdType Z) : M Wallet (gmap AccountIdType Z) :=
  match candidates with
  | [] => ret ranks
  | id :: candidates' =>
      r <- lift_result (recommendation id) ;;
      match r with
      | passed_over => tally candidates' ranks
      | disapproved name => set_account_approval blockchain name (-1) ;;; tally candidates' ranks
      | recommends l =>
          tally candidates' (fold_left (fun m c => <[c := wrap_i32 (default 0 (m !! c) + 1)]> m) l ranks)
      end
  end.
(** The highest rank above zero, of several the first in the order of the map *)
Definition best_ranked (ranks : gmap AccountIdType Z) : AccountIdType :=
  snd (fold_left (fun best c => if fst best <? snd c then (snd c, fst c) else best) (hash_order ranks) (0, 0)).
Fixpoint add_best (room : nat) (candidates : list AccountIdType) (ranks : gmap AccountIdType Z) : list AccountIdType :=
  match room with
  | O => candidates
  | Datatypes.S room =>
      if (size ranks =? 0)%nat then candidates
      else let best := best_ranked ranks in add_best room (candidates ++ [best]) (delete best ranks)
  end.
Definition is_standing_delegate (id : AccountIdType) : result bool :=
  match get_account_entry blockchain id with
  | None => Ok false
  | Some a => if is_delegate a then let! retracted := is_retracted a in Ok (negb retracted) else Ok false
  end.
Fixpoint standing_delegates (ids : list AccountIdType) : result (list AccountIdType) :=
  match ids with
  | [] => Ok []
  | id :: ids' =>
      let! standing := is_standing_delegate id in
      let! rest := standing_delegates ids' in
      Ok (if standing : bool then id :: rest else rest)
  end.
Definition recommend (account_items : list AccountData) (for_candidates : list AccountIdType)
    : M Wallet (list AccountIdType) :=
  ranks <- tally for_candidates ∅ ;;
  let ranks := fold_left (fun m a => if negb (is_delegate (account_entry a)) || (approved a <? 0)
                                     then delete (account_id (account_entry a)) m else m) account_items ranks in
  let ranks := fold_left (fun m id => delete id m) for_candidates ranks in
  delegates <- lift_result (standing_delegates for_candidates) ;;
  let room := (Z.to_nat ALP_BLOCKCHAIN_MAX_SLATE_SIZE - length delegates)%nat in
  ret (add_best room delegates ranks).

(** slate_size is computed and not used. *)
Definition get_delegate_slate (strategy : VoteStrategy) : M Wallet SlateEntry :=
  match strategy with
  | vote_none => ret (mkSlateEntry ∅ [])
  | _ =>
      w <- get ;;
      let recommended := match strategy with vote_recommended => true | _ => false end in
      let account_items := map (fun item => account_data (snd item)) (hash_order (accounts (_wallet_db w))) in
      let candidates := filter (fun a => (is_delegate (account_entry a) || recommended) && (0 <? approved a) = true)
                          account_items in
      let for_candidates := random_shuffle (map (fun a => account_id (account_entry a)) candidates) in
      for_candidates <-
        (if recommended && (Z.of_nat (length for_candidates) <? ALP_BLOCKCHAIN_MAX_SLATE_SIZE)
         then recommend account_items for_candidates else ret for_candidates) ;;
      let slate := list_to_set for_candidates : gset AccountIdType in
      fc_assert (Z.of_nat (size slate) <=? ALP_BLOCKCHAIN_MAX_SLATE_SIZE) ;;;
      ret (mkSlateEntry slate [])
  end.
Definition set_delegate_slate (strategy : VoteStrategy) : M Command SlateIdType :=
  match strategy with
  | vote_none => ret 0
  | _ =>
      entry <- on_wallet (get_delegate_slate strategy) ;;
      let id := slate_id entry in
      if id =? 0 then ret id
      else
        when (negb (is_some (get_slate_entry blockchain id)))
          (on_draft (on_trx (trx_define_slate (slate entry)))) ;;;
        on_draft (on_trx (set_slates id)) ;;;
        ret id
  end.
End WalletFunds.
