(* ===== verification/WalletCommands.v ===== *)
(** * The commands of a wallet

    wallet/Wallet.cpp and WalletImpl::sign_transaction
    (wallet/TransactionLedger.cpp): each builds a transaction from the funds of
    an account, signs it, and returns the entry the wallet will show. *)

From Stdlib Require Import ZArith Lia Bool String QArith Qround.
From stdpp Require Import base gmap strings list sorting.
From S2P Require Import Prelude DecimalText Doubles Amounts Asset Entries Names Addresses ChainInterface ChainState.
From S2P Require Import EvalState PendingChainState WalletDb Wallet WalletFunds.

Local Open Scope Z_scope.

(** WalletTransactionEntry() and LedgerEntry() *)
Definition empty_transaction_data : TransactionData :=
  mkTransactionData 0 0 false false false empty_transaction [] (mkAsset 0 0) 0 0 [].
Definition ledger_entry (from to : option PublicKeyType) (a : Asset) (memo : string) : LedgerEntry :=
  mkLedgerEntry from to None None a memo None.
(** The entry of a command: its ledger entry, its fee, its transaction and
    the addresses it pays that need not be in the wallet *)
Definition transaction_entry_of (e : LedgerEntry) (fee : Asset) (extra : list Address) (trx : SignedTransaction)
    : WalletTransactionEntry :=
  mkWalletTransactionEntry 0 (mkTransactionData 0 0 false false false trx [e] fee 0 0 extra).

(** catch( ... ), which a loop that does not end does not reach *)
Definition catch_all {S A} (m handler : M S A) : M S A :=
  fun s => match m s with
           | (Ok a, s') => (Ok a, s')
           | (Err does_not_return, s') => (Err does_not_return, s')
           | (Err division_trap, s') => (Err division_trap, s')
           | (Err _, s') => handler s'
           end.

(** mutable_variant_object( public_data )["slate_id"] = slate_id, of an object
    or else of an empty one *)
Class SlateVariants : Type := { with_slate_id : variant -> SlateIdType -> variant }.

Section WalletCommands.
Context `{ChainParams} `{HashParams} `{WalletCrypto} `{WalletParams} `{Clock} `{Machine} `{SlateVariants}.
Context {S : Type} `{ChainInterface S}.
Variable blockchain : S.

Definition hash_set (s : gset Address) : list Address := map fst (hash_order (gset_to_gmap tt s)).

Definition sign_transaction (w : Wallet) : M Draft unit :=
  d <- get ;;
  forM (hash_set (required_signatures d)) (fun addr =>
    key <- lift_result (get_private_key w addr) ;;
    on_trx (trx_sign key get_chain_id)).

(** The wallet holds the private key; its address joins the signatures. *)
Definition accept_key (key : option WalletKeyEntry) : M Draft bool :=
  match key with
  | Some k => if has_private_key (key_data k)
              then require_signature (address_of_key (public_key (key_data k))) ;;; ret true
              else ret false
  | None => ret false
  end.
Definition accept_address (w : Wallet) (a : Address) : M Draft bool :=
  key <- lift_result (lookup_key (_wallet_db w) a) ;; accept_key key.
(** What follows the first dot of a name *)
Definition parent_name (name : string) : option string := snd (at_point name).
Fixpoint authorize_parent (fuel : nat) (w : Wallet) (account : AccountEntry) : M Draft unit :=
  match fuel with
  | O => throw does_not_return
  | Datatypes.S fuel =>
      match parent_name (account_name account) with
      | None => ret tt
      | Some name =>
          parent <- lift_result (get_account_entry_by_name blockchain name) ;;
          parent <- valid_or parent assert_exception ;;
          active <- lift_result (active_address parent) ;;
          accepted <- accept_address w active ;;
          if accepted : bool then ret tt else
          accepted <- accept_address w (owner_address parent) ;;
          if accepted : bool then ret tt else authorize_parent fuel w parent
      end
  end.
Definition authorize_update (w : Wallet) (account : AccountEntry) (need_owner_key : bool) : M Draft unit :=
  accepted <- accept_address w (owner_address account) ;;
  if accepted : bool then ret tt else
  accepted <- (if need_owner_key then ret false
               else active <- lift_result (active_address account) ;; accept_address w active) ;;
  if accepted : bool then ret tt
  else authorize_parent (Datatypes.S (String.length (account_name account))) w account.

Definition draft_transaction : M Command SignedTransaction := gets (fun c => draft_trx (the_draft c)).
Definition withdraw (a : Asset) (name : string) : M Command unit :=
  c <- get ;; on_draft (withdraw_to_transaction (the_wallet c) a name).
Definition expire : M Command unit :=
  t <- of_wallet new_expiration ;; on_draft (on_trx (modify (set_expiration t))).
Definition finish (sign : bool) : M Command SignedTransaction :=
  c <- get ;;
  when sign (on_draft (sign_transaction (the_wallet c))) ;;;
  draft_transaction.
Definition assert_receives (name : string) : M Command unit :=
  receives <- of_wallet (fun w => is_receive_account w name) ;; fc_assert receives.

(** ** Transfers *)

(** The account a transfer goes to, as far as the chain or the wallet knows it *)
Definition account_paid (w : Wallet) (to_address : Address) : option PublicKeyType :=
  match get_account_entry_by_address blockchain to_address with
  | Ok (Some a) => Some (owner_key a)
  | Ok None =>
      match get_account_for_address w to_address with
      | Ok (Some a) => Some (owner_key (account_entry (account_data a)))
      | _ => None
      end
  | Err _ => None
  end.

Definition transfer_asset_to_address (real_amount_to_transfer amount_to_transfer_symbol from_account_name : string)
    (to_address : Address) (memo_message : string) (strategy : VoteStrategy) (sign : bool) (account : string)
    : M Command WalletTransactionEntry :=
  of_wallet assert_unlocked ;;;
  valid <- lift_result (is_valid_symbol blockchain amount_to_transfer_symbol) ;;
  fc_assert valid ;;;
  assert_receives from_account_name ;;;
  asset_rec <- lift_result (get_asset_entry_by_symbol blockchain amount_to_transfer_symbol) ;;
  asset_rec <- valid_or asset_rec assert_exception ;;
  let units := if precision asset_rec =? 0 then 1 else wrap_i64 (precision asset_rec) in
  amount_to_transfer <- lift_result (shares_of_text units real_amount_to_transfer) ;;
  let asset_to_transfer := mkAsset amount_to_transfer (ast_id asset_rec) in
  sender_private_key <- of_wallet (fun w => get_active_private_key w from_account_name) ;;
  new_draft ;;;
  when (negb (String.eqb account "")) (on_draft (on_trx (modify (set_alp_account account asset_to_transfer)))) ;;;
  required_fees <- of_wallet wallet_transaction_fee ;;
  required_imessage_fee <- of_wallet (fun w => get_transaction_imessage_fee w memo_message) ;;
  (if asset_id required_fees =? asset_id asset_to_transfer then
     total <- lift_result (asset_add required_fees asset_to_transfer) ;;
     total <- lift_result (asset_add total required_imessage_fee) ;;
     withdraw total from_account_name
   else
     withdraw asset_to_transfer from_account_name ;;;
     total <- lift_result (asset_add required_fees required_imessage_fee) ;;
     withdraw total from_account_name) ;;;
  on_draft (on_trx (trx_deposit to_address asset_to_transfer)) ;;;
  expire ;;;
  set_delegate_slate blockchain strategy ;;;
  when (negb (String.eqb memo_message "")) (on_draft (on_trx (AddtionImessage memo_message))) ;;;
  let memo := if String.eqb memo_message ""
              then ("To: " +:+ substring 0 8 (address_to_string to_address alp_address) +:+ "...")
              else memo_message in
  trx <- finish sign ;;
  w <- gets the_wallet ;;
  fee <- lift_result (asset_add required_fees required_imessage_fee) ;;
  ret (transaction_entry_of
         (ledger_entry (Some (get_public_key sender_private_key)) (account_paid w to_address) asset_to_transfer memo)
         fee [to_address] trx).

(** (ShareType)( amount * precision ), of an amount that is not negative; the
    one below zero comes to no shares, which no withdrawal takes either *)
Definition shares_of_double (amount : Q) (precision : Z) : Z :=
  to_i64 (Qfloor (nearest (amount * nearest (of_int precision)))).
Definition pay_one (asset_rec : AssetEntry) (from : string) (total : Asset) (paid : Address * Q) : M Command Asset :=
  let a := mkAsset (shares_of_double (snd paid) (precision asset_rec)) (ast_id asset_rec) in
  withdraw a from ;;;
  total <- lift_result (asset_add_assign total a) ;;
  on_draft (on_trx (trx_deposit (fst paid) a)) ;;;
  ret total.
Fixpoint pay_all (asset_rec : AssetEntry) (from : string) (total : Asset) (amounts : list (Address * Q)) : M Command Asset :=
  match amounts with
  | [] => ret total
  | paid :: amounts' =>
      total <- pay_one asset_rec from total paid ;; pay_all asset_rec from total amounts'
  end.
Definition transfer_asset_to_many_address (amount_to_transfer_symbol from_account_name : string)
    (to_address_amounts : gmap Address Q) (memo_message : string) (sign : bool) : M Command WalletTransactionEntry :=
  of_wallet assert_unlocked ;;;
  valid <- lift_result (is_valid_symbol blockchain amount_to_transfer_symbol) ;;
  fc_assert valid ;;;
  assert_receives from_account_name ;;;
  fc_assert (negb (size to_address_amounts =? 0)%nat) ;;;
  asset_rec <- lift_result (get_asset_entry_by_symbol blockchain amount_to_transfer_symbol) ;;
  asset_rec <- valid_or asset_rec assert_exception ;;
  sender_private_key <- of_wallet (fun w => get_active_private_key w from_account_name) ;;
  new_draft ;;;
  expire ;;;
  required_fees <- of_wallet wallet_transaction_fee ;;
  let amounts := hash_order to_address_amounts in
  total <- pay_all asset_rec from_account_name (mkAsset 0 (ast_id asset_rec)) amounts ;;
  withdraw required_fees from_account_name ;;;
  trx <- finish sign ;;
  let memo := if String.eqb memo_message "" then "Transfer to many addresses" else memo_message in
  ret (transaction_entry_of (ledger_entry (Some (get_public_key sender_private_key)) None total memo)
         required_fees (map fst amounts) trx).

(** ** Accounts and assets *)

Definition register_account (account_to_register : string) (public_data : variant) (delegate_pay_rate : Z)
    (pay_with_account_name : string) (new_account_type : Z) (sign : bool) : M Command WalletTransactionEntry :=
  throw_if (negb (is_valid_account_name account_to_register)) invalid_name ;;;
  throw_if (delegate_pay_rate <? 100) invalid_delegate_pay_rate ;;;
  of_wallet assert_unlocked ;;;
  registered <- lift_result (get_account_entry_by_name blockchain account_to_register) ;;
  throw_if (is_some registered) duplicate_account_name ;;;
  payer_public_key <- of_wallet (fun w => get_owner_public_key blockchain w pay_with_account_name) ;;
  account_public_key <- of_wallet (fun w => get_owner_public_key blockchain w account_to_register) ;;
  new_draft ;;;
  expire ;;;
  let meta_info := Some (mkAccountMetaInfo new_account_type []) in
  let pay_rate := if delegate_pay_rate <=? 100 then delegate_pay_rate else 255 in
  catch_all
    (local_account <- on_wallet (get_account blockchain account_to_register) ;;
     let a := account_entry (account_data local_account) in
     active <- lift_result (active_key a) ;;
     on_draft (on_trx (trx_register_account account_to_register public_data (owner_key a) active pay_rate meta_info)))
    (on_draft (on_trx (trx_register_account account_to_register public_data account_public_key account_public_key
                         pay_rate meta_info))) ;;;
  required_fees <- of_wallet wallet_transaction_fee ;;
  let as_delegate := delegate_pay_rate <=? 100 in
  required_fees <-
    (if as_delegate then
       fee <- lift_result (get_delegate_registration_fee (get_head_block_num blockchain) delegate_pay_rate) ;;
       lift_result (asset_add_assign required_fees (mkAsset fee 0))
     else ret required_fees) ;;
  withdraw required_fees pay_with_account_name ;;;
  trx <- finish sign ;;
  let memo := "register " +:+ account_to_register +:+ (if as_delegate then " as a delegate" else "") in
  ret (transaction_entry_of (ledger_entry (Some payer_public_key) (Some account_public_key) (mkAsset 0 0) memo)
         required_fees [] trx).

Fixpoint issue_to (id : AssetIdType) (addresses : list (string * ShareType)) (shares_to_issue : Asset)
    : M Draft Asset :=
  match addresses with
  | [] => ret shares_to_issue
  | (text, shares) :: addresses' =>
      addr <- lift_result (address_of_string text alp_address) ;;
      let a := mkAsset shares id in
      on_trx (trx_deposit addr a) ;;;
      sum <- lift_result (asset_add_assign shares_to_issue a) ;;
      issue_to id addresses' sum
  end.
(** [addresses] is the std::map in the order of its texts. *)
Definition issue_asset_to_addresses (symbol : string) (addresses : list (string * ShareType))
    : M Command WalletTransactionEntry :=
  of_wallet assert_unlocked ;;;
  valid <- lift_result (is_valid_symbol blockchain symbol) ;;
  fc_assert valid ;;;
  new_draft ;;;
  expire ;;;
  required_fees <- of_wallet wallet_transaction_fee ;;
  asset_rec <- lift_result (get_asset_entry_by_symbol blockchain symbol) ;;
  asset_rec <- valid_or asset_rec assert_exception ;;
  issuer_account <- valid_or (get_account_entry blockchain (issuer_account_id asset_rec)) assert_exception ;;
  shares_to_issue <- on_draft (issue_to (ast_id asset_rec) addresses (mkAsset 0 (ast_id asset_rec))) ;;
  withdraw required_fees (account_name issuer_account) ;;;
  on_draft (on_trx (trx_issue shares_to_issue)) ;;;
  on_draft (forM (elements (owners (authority asset_rec))) require_signature) ;;;
  issuer <- of_wallet (fun w => lookup_account_by_id (_wallet_db w) (issuer_account_id asset_rec)) ;;
  issuer <- valid_or issuer assert_exception ;;
  let a := account_entry (account_data issuer) in
  issuer_key <- of_wallet (fun w => lookup_key (_wallet_db w) (owner_address a)) ;;
  fc_assert (negb (lacks_private_key issuer_key)) ;;;
  active <- lift_result (active_key a) ;;
  trx <- finish true ;;
  ret (transaction_entry_of (ledger_entry (Some active) None shares_to_issue "issue to many addresses")
         required_fees [] trx).

Definition publish_slate (account_to_publish_under account_to_pay_with : string) (sign : bool)
    : M Command WalletTransactionEntry :=
  of_wallet assert_unlocked ;;;
  let paying_account := if String.eqb account_to_pay_with "" then account_to_publish_under else account_to_pay_with in
  receives <- of_wallet (fun w => is_receive_account w paying_account) ;;
  throw_if (negb receives) unknown_receive_account ;;;
  current <- lift_result (get_account_entry_by_name blockchain account_to_publish_under) ;;
  current <- valid_or current unknown_account ;;
  new_draft ;;;
  expire ;;;
  payer_public_key <- of_wallet (fun w => get_owner_public_key blockchain w paying_account) ;;
  slate_id <- set_delegate_slate blockchain vote_all ;;
  throw_if (slate_id =? 0) invalid_slate ;;;
  on_draft (on_trx (trx_update_account (account_id current) (delegate_pay_rate current)
                      (Some (with_slate_id (account_public_data current) slate_id)) None)) ;;;
  w <- gets the_wallet ;;
  on_draft (authorize_update w current false) ;;;
  required_fees <- of_wallet wallet_transaction_fee ;;
  pays <- (if is_delegate current then
             pay <- lift_result (delegate_pay_balance current) ;; ret (amount required_fees <? pay)
           else ret false) ;;
  (if pays : bool then
     on_draft (on_trx (trx_withdraw_pay (account_id current) (amount required_fees))) ;;;
     active <- lift_result (active_address current) ;;
     on_draft (require_signature active)
   else withdraw required_fees paying_account) ;;;
  trx <- finish sign ;;
  let memo := "publish slate " +:+ dec slate_id in
  ret (transaction_entry_of (ledger_entry (Some payer_public_key) (Some payer_public_key) (mkAsset 0 0) memo)
         required_fees [] trx).
End WalletCommands.
