(* ===== verification/WalletDraws.v ===== *)
(** * Withdrawals cover exactly what is asked for

    withdraw_to_transaction goes through the spendable balances of an account
    and takes what it needs of them, or fails when there is not enough. *)

From Stdlib Require Import ZArith Lia Bool String.
From stdpp Require Import base gmap strings list.
From S2P Require Import Prelude Asset Entries Names ChainInterface ChainState.
From S2P Require Import Total WalletDb Wallet WalletFunds.

Local Open Scope Z_scope.

(** ** What can be drawn *)

Definition drawable (id : AssetIdType) (e : BalanceEntry) : bool :=
  (0 <? amount (get_spendable_balance e)) && (asset_id (get_spendable_balance e) =? id).
Definition funds_of (id : AssetIdType) (es : list BalanceEntry) : Z :=
  foldr (fun e n => if drawable id e then amount (get_spendable_balance e) + n else n) 0 es.
Definition owner_of (e : BalanceEntry) : Address :=
  match condition_owner (condition e) with Ok (Some a) => a | _ => 0 end.
Definition owned (e : BalanceEntry) : Prop := condition_owner (condition e) = Ok (Some (owner_of e)).

Definition total_of (l : list (BalanceEntry * ShareType)) : Z := foldr (fun x n => snd x + n) 0 l.
(** [l] takes [n] shares of asset [id] from the balances [es], each at most once. *)
Record drawn (id : AssetIdType) (es : list BalanceEntry) (n : Z) (l : list (BalanceEntry * ShareType)) : Prop := {
  drawn_from : map fst l `sublist_of` es;
  drawn_each e x : (e, x) ∈ l -> drawable id e = true /\ owned e /\ 0 < x <= amount (get_spendable_balance e);
  drawn_total : total_of l = n
}.

Lemma funds_nonneg id es : 0 <= funds_of id es.
Proof.
  induction es as [| e es IH]; [cbn; lia |]. cbn [funds_of foldr]. fold (funds_of id es).
  destruct (drawable id e) eqn:E; [| exact IH].
  apply andb_prop in E as [E _]. apply Z.ltb_lt in E. lia.
Qed.
Lemma total_app l l' : total_of (l ++ l') = total_of l + total_of l'.
Proof. induction l as [| x l IH]; [reflexivity |]. cbn. fold (total_of (l ++ l')) (total_of l). lia. Qed.
Lemma spendable_balance_amount b : cond_type (condition b) = withdraw_signature_type ->
  get_spendable_balance b = mkAsset (balance b) (cond_asset_id (condition b)).
Proof. intros E. unfold get_spendable_balance. now rewrite E. Qed.

Lemma drawn_skip id e es n l : drawn id es n l -> drawn id (e :: es) n l.
Proof. intros [F E T]. split; [now apply sublist_cons | exact E | exact T]. Qed.
Lemma drawn_take id e es n x l : drawable id e = true -> owned e -> 0 < x <= amount (get_spendable_balance e) ->
  drawn id es n l -> drawn id (e :: es) (x + n) ((e, x) :: l).
Proof.
  intros Hd Ho Hx [F E T]. split; cbn; [now apply sublist_skip | | now rewrite <- T].
  intros e' x' [[= -> ->] | H]%elem_of_cons; [auto | now apply E].
Qed.
Lemma drawn_last id e es n : drawable id e = true -> owned e -> 0 < n <= amount (get_spendable_balance e) ->
  drawn id (e :: es) n [(e, n)].
Proof.
  intros Hd Ho Hn. split; cbn; [apply sublist_skip, sublist_nil_l | | lia].
  intros e' x' [= -> ->]%list_elem_of_singleton. auto.
Qed.

(** ** The loop *)

Definition draw_operation `{ChainParams} (x : BalanceEntry * ShareType) : Operation :=
  OpWithdraw (mkWithdrawOperation (condition_address (condition (fst x))) (snd x) []).
Section Draws.
Context `{ChainParams} `{WalletCrypto} `{WalletParams}.

Definition draw_owners (l : list (BalanceEntry * ShareType)) : gset Address := list_to_set (map (fun x => owner_of (fst x)) l).
(** The draft with the withdrawals of [l] and the addresses that sign for them *)
Definition with_draws (l : list (BalanceEntry * ShareType)) (d : Draft) : Draft :=
  mkDraft (set_operations (operations (draft_trx d) ++ map draw_operation l) (draft_trx d))
    (draw_owners l ∪ required_signatures d).

Abbreviation spend := (fun id a owner => on_trx (trx_withdraw id a) ;;; require_signature owner).

Lemma set_operations_twice a b trx : set_operations a (set_operations b trx) = set_operations a trx.
Proof. reflexivity. Qed.
Lemma with_draws_cons x l d : with_draws l (with_draws [x] d) = with_draws (x :: l) d.
Proof.
  unfold with_draws. cbn. rewrite set_operations_twice, <- app_assoc. f_equal. unfold draw_owners. cbn. set_solver.
Qed.
Lemma spend_run e x d : 0 < x -> spend (balance_id e) x (owner_of e) d = (Ok tt, with_draws [(e, x)] d).
Proof.
  intros Hx. unfold on_trx, trx_withdraw, require_signature, bind, fc_assert. apply Z.ltb_lt in Hx. rewrite Hx. cbn.
  unfold modify, with_draws, draw_owners, push_operation. cbn. f_equal. f_equal. set_solver.
Qed.
Lemma sub_assign_run n b id : 0 < b -> b < n <= INT64_MAX ->
  asset_sub_assign (mkAsset n id) (mkAsset b id) = Ok (mkAsset (n - b) id).
Proof.
  intros Hb Hn. unfold asset_sub_assign. cbn [amount asset_id]. rewrite Z.eqb_refl. cbn [negb].
  destruct (Z.ltb_spec n (INT64_MIN + b)); [unfold INT64_MIN, INT64_MAX in *; lia |].
  destruct (Z.ltb_spec b 0); [lia |]. now rewrite andb_false_r.
Qed.

Lemma draw_enough id es : forall n d, 0 < n <= INT64_MAX -> Forall owned es -> n <= funds_of id es ->
  exists l, drawn id es n l /\ draw_balances spend es (mkAsset n id) d = (Ok tt, with_draws l d).
Proof.
  induction es as [| e es IH]; intros n d Hn Ho Hf; [cbn in Hf; lia |].
  apply Forall_cons in Ho as [He Ho]. cbn [draw_balances funds_of foldr] in *. fold (funds_of id es) in Hf.
  unfold drawable in Hf. destruct (get_spendable_balance e) as [b i] eqn:Eb. cbn [amount asset_id] in *.
  destruct (Z.ltb_spec 0 b), (Z.eqb_spec i id); cbn [andb negb orb] in *;
    destruct (Z.leb_spec b 0); cbn [orb]; try lia;
    try (destruct (IH n d Hn Ho Hf) as (l & Hl & E); exists l; split; [now apply drawn_skip | exact E]).
  subst i. unfold bind at 1, lift_result. unfold owned in He. rewrite He.
  assert (drawable id e = true) as Hd by (unfold drawable; rewrite Eb; cbn; rewrite Z.eqb_refl; lia).
  destruct (Z.ltb_spec b n) as [Hlt | Hge].
  - rewrite (bind_run_Ok _ _ _ _ _ (spend_run e b d ltac:(lia))), sub_assign_run by lia. unfold bind at 1, lift_result.
    destruct (IH (n - b) (with_draws [(e, b)] d) ltac:(lia) Ho ltac:(lia)) as (l & Hl & E).
    exists ((e, b) :: l). split; [| now rewrite E, with_draws_cons].
    replace n with (b + (n - b)) by lia. apply drawn_take; [exact Hd | exact He | rewrite Eb; cbn; lia | exact Hl].
  - exists [(e, n)]. split; [apply drawn_last; [exact Hd | exact He | rewrite Eb; cbn; lia] | now apply spend_run].
Qed.
Lemma draw_short id es : forall n d, 0 < n <= INT64_MAX -> Forall owned es -> funds_of id es < n ->
  exists d', draw_balances spend es (mkAsset n id) d = (Err insufficient_funds, d').
Proof.
  induction es as [| e es IH]; intros n d Hn Ho Hf; [now eexists |].
  apply Forall_cons in Ho as [He Ho]. cbn [draw_balances funds_of foldr] in *. fold (funds_of id es) in Hf.
  unfold drawable in Hf. destruct (get_spendable_balance e) as [b i] eqn:Eb. cbn [amount asset_id] in *.
  destruct (Z.ltb_spec 0 b), (Z.eqb_spec i id); cbn [andb negb orb] in *;
    destruct (Z.leb_spec b 0); cbn [orb]; try lia; try (now apply IH).
  subst i. unfold bind at 1, lift_result. unfold owned in He. rewrite He.
  pose proof (funds_nonneg id es). destruct (Z.ltb_spec b n) as [Hlt | Hge]; [| lia].
  rewrite (bind_run_Ok _ _ _ _ _ (spend_run e b d ltac:(lia))), sub_assign_run by lia. unfold bind at 1, lift_result.
  apply IH; [lia | exact Ho | lia].
Qed.
End Draws.

(** ** The balances of an account *)

Section Spendable.
Context `{ChainParams} `{WalletCrypto} `{WalletParams} `{!WalletParamsLaws}.

Definition spendable_as (w : Wallet) (name : string) (e : BalanceEntry) : bool :=
  match spendable_by w name e with Ok (Some n) => String.eqb n name | _ => false end.
(** The balances of the wallet the account can spend, in the order of the wallet *)
Definition spendable_list (w : Wallet) (name : string) : list BalanceEntry :=
  filter (fun e => spendable_as w name e = true) (map snd (hash_order (_balance_entrys w))).

(** The conditions of the balances can be read, and balances lie under their own ids. *)
Record in_order (w : Wallet) : Prop := {
  wallet_open : wallet_is_open w = true;
  balances_readable i e : _balance_entrys w !! i = Some e -> exists o, condition_owner (condition e) = Ok o;
  balances_filed i e : _balance_entrys w !! i = Some e -> balance_id e = i
}.

Lemma spendable_by_total w name e : wallet_is_open w = true -> (exists o, condition_owner (condition e) = Ok o) ->
  name <> "" ->
  spendable_by w name e = Ok None \/ spendable_by w name e = Ok (Some name).
Proof.
  intros Ho (o & Eo) Hn. unfold wallet_is_open in Ho. unfold spendable_by, lookup_key, lookup_account, find_account. rewrite Ho, Eo.
  apply String.eqb_neq in Hn. rewrite Hn. cbn [negb andb].
  destruct (negb (cond_type _ =? _)); [now left |]. destruct (amount _ =? 0); [now left |]. cbn [result_bind].
  destruct o as [owner |]; [| now left]. destruct (_ ≫= _) as [key |]; [| now left].
  destruct (has_private_key _); [| now left]. cbn.
  destruct (_ ≫= _) as [a |]; match goal with |- context [String.eqb ?x name] => destruct (String.eqb_spec x name) as [-> |]; auto end.
Qed.
Lemma spendable_owned w name e : spendable_as w name e = true -> owned e.
Proof.
  unfold spendable_as, spendable_by, owned, owner_of. destruct (negb (cond_type _ =? _)); [discriminate |].
  destruct (amount _ =? 0); [discriminate |]. destruct (condition_owner (condition e)) as [[owner |] | x]; [reflexivity | discriminate..].
Qed.
Lemma spendable_signed w name e : spendable_as w name e = true -> cond_type (condition e) = withdraw_signature_type.
Proof. unfold spendable_as, spendable_by. destruct (Z.eqb_spec (cond_type (condition e)) withdraw_signature_type); [easy | discriminate]. Qed.
Lemma spendable_key w name e : spendable_as w name e = true ->
  exists k, lookup_key (_wallet_db w) (owner_of e) = Ok (Some k) /\ has_private_key (key_data k) = true.
Proof.
  unfold spendable_as, spendable_by, owner_of. destruct (negb (cond_type _ =? _)); [discriminate |].
  destruct (amount _ =? 0); [discriminate |]. destruct (condition_owner (condition e)) as [[owner |] | x]; [| discriminate..].
  cbn. destruct (lookup_key _ owner) as [[k |] | x]; [| discriminate..]. cbn. intros Hk. exists k.
  destruct (has_private_key (key_data k)); [now split | discriminate].
Qed.

Lemma spendable_fold w name items : wallet_is_open w = true -> name <> "" ->
  (forall item, item ∈ items -> exists o, condition_owner (condition (snd item)) = Ok o) ->
  forall m, exists m', fold_left (add_spendable w name) items (Ok m) = Ok m'
    /\ m' !! name = match filter (fun e => spendable_as w name e = true) (map snd items) with
                    | [] => m !! name
                    | l => Some (default [] (m !! name) ++ l)
                    end.
Proof.
  intros Ho Hn. induction items as [| [i e] items IH]; intros Hr m; [now exists m |].
  assert (forall item, item ∈ items -> exists o, condition_owner (condition (snd item)) = Ok o) as Hr'
    by (intros; apply Hr, elem_of_cons; now right).
  cbn [fold_left map snd]. unfold add_spendable at 2. cbn [result_bind snd]. rewrite filter_cons.
  assert (spendable_as w name e = match spendable_by w name e with Ok (Some n) => String.eqb n name | _ => false end) as Ea by reflexivity.
  destruct (spendable_by_total w name e Ho (Hr (i, e) (list_elem_of_here _ _)) Hn) as [E | E]; rewrite E in *; cbn [result_bind].
  - rewrite Ea. destruct (decide (false = true)) as [[=] | _]. now apply IH.
  - rewrite String.eqb_refl in Ea. rewrite Ea. destruct (decide (true = true)) as [_ | []]; [| reflexivity].
    destruct (IH Hr' (<[name := default [] (m !! name) ++ [e]]> m)) as (m' & Em & El). exists m'. split; [exact Em |].
    rewrite El, lookup_insert_eq. destruct (filter _ _) as [| b l]; [reflexivity |].
    cbn [default from_option id]. now rewrite <- app_assoc.
Qed.
Lemma spendable_entrys w name : in_order w -> name <> "" ->
  exists m, get_spendable_account_balance_entrys w name = Ok m
    /\ m !! name = match spendable_list w name with [] => None | l => Some l end.
Proof.
  intros [Ho Hr _] Hn. unfold get_spendable_account_balance_entrys.
  destruct (spendable_fold w name (hash_order (_balance_entrys w)) Ho Hn) with (m := ∅ : gmap string (list BalanceEntry)) as (m & E & El).
  { intros [i e] Hi. rewrite hash_order_all in Hi. apply elem_of_map_to_list in Hi. now apply (Hr i). }
  exists m. split; [exact E |]. rewrite El, lookup_empty. reflexivity.
Qed.

Lemma spendable_in w name e : e ∈ spendable_list w name -> spendable_as w name e = true /\ exists i, _balance_entrys w !! i = Some e.
Proof.
  intros [Hs He]%list_elem_of_filter. split; [exact Hs |]. apply list_elem_of_fmap in He as ([i e'] & -> & Hi).
  exists i. rewrite hash_order_all in Hi. now apply elem_of_map_to_list in Hi.
Qed.
Lemma spendable_ids w name : in_order w -> NoDup (map balance_id (spendable_list w name)).
Proof.
  intros [_ _ Hf]. unfold spendable_list.
  assert (map balance_id (map snd (hash_order (_balance_entrys w))) = map fst (hash_order (_balance_entrys w))) as E.
  { rewrite map_map. apply map_ext_in. intros [i e] Hi%list_elem_of_In. rewrite hash_order_all in Hi. apply Hf. now apply elem_of_map_to_list. }
  assert (NoDup (map balance_id (map snd (hash_order (_balance_entrys w))))) as Hnd.
  { rewrite E, hash_order_all. apply NoDup_fst_map_to_list. }
  revert Hnd. generalize (map snd (hash_order (_balance_entrys w))). intros l Hl.
  eapply sublist_NoDup; [exact Hl |]. apply (fmap_sublist balance_id), sublist_filter.
Qed.
Lemma drawn_ids w name id n l : in_order w -> drawn id (spendable_list w name) n l ->
  NoDup (map (fun x => balance_id (fst x)) l).
Proof.
  intros Hw [F _ _]. eapply sublist_NoDup; [exact (spendable_ids w name Hw) |].
  rewrite <- (map_map fst balance_id). now apply (fmap_sublist balance_id).
Qed.

(** withdraw_to_transaction, by what there is to spend *)
Lemma withdraw_outcome w name a d : in_order w -> name <> "" -> 0 < amount a <= INT64_MAX ->
  if amount a <=? funds_of (asset_id a) (spendable_list w name)
  then exists l, drawn (asset_id a) (spendable_list w name) (amount a) l
         /\ withdraw_to_transaction w a name d = (Ok tt, with_draws l d)
  else exists d', withdraw_to_transaction w a name d = (Err insufficient_funds, d').
Proof.
  intros Hw Hn Ha. destruct a as [n id]. cbn [amount asset_id] in *. unfold withdraw_to_transaction, draw_from_account.
  assert (fc_assert (negb (String.eqb name "")) d = (Ok tt, d)) as E1 by (apply String.eqb_neq in Hn; now rewrite Hn).
  rewrite (bind_run_Ok _ _ _ _ _ E1). destruct (spendable_entrys w name Hw Hn) as (m & Em & El).
  rewrite (bind_run_Ok (lift_result _) _ d m d) by now rewrite Em. rewrite El.
  assert (Forall owned (spendable_list w name)) as Ho.
  { apply Forall_forall. intros e [He _]%spendable_in. exact (spendable_owned w name e He). }
  revert Ho. generalize (spendable_list w name) as es. intros es Ho. destruct (Z.leb_spec n (funds_of id es)) as [Hf | Hf].
  - destruct (draw_enough id es n d Ha Ho Hf) as (l & Hl & E). exists l. split; [exact Hl |].
    destruct es; [| exact E]. cbn in Hf. lia.
  - destruct es; [now eexists | now apply draw_short].
Qed.

(** C8: Withdrawing from an account succeeds exactly when its spendable balances of the asset cover the amount; then the transaction gains withdrawals from different balances of the account, none of more than it holds, that sum up to the amount, and the owner of each joins the required signatures. *)
Theorem withdraw_exact w name a d : in_order w -> name <> "" -> 0 < amount a <= INT64_MAX ->
  if amount a <=? funds_of (asset_id a) (spendable_list w name)
  then exists l, withdraw_to_transaction w a name d = (Ok tt, with_draws l d)
         /\ drawn (asset_id a) (spendable_list w name) (amount a) l
         /\ NoDup (map (fun x => balance_id (fst x)) l)
  else exists d', withdraw_to_transaction w a name d = (Err insufficient_funds, d').
Proof.
  intros Hw Hn Ha. pose proof (withdraw_outcome w name a d Hw Hn Ha) as Ho.
  destruct (amount a <=? _); [| exact Ho]. destruct Ho as (l & Hl & E). exists l.
  split; [exact E |]. split; [exact Hl |]. now apply (drawn_ids w name (asset_id a) (amount a)).
Qed.
End Spendable.
