(* ===== verification/TransferEvaluation.v ===== *)
(** * A transfer evaluates

    What the chain does with withdrawals from signed balances of the base asset
    and a deposit they pay for: every step of the evaluation succeeds. *)

From Stdlib Require Import ZArith Lia Bool String.
From stdpp Require Import base gmap strings list sorting.
From S2P Require Import Prelude Asset Entries Names ChainInterface ChainState AssetEntry.
From S2P Require Import EvalState BalanceOperations Ledger QuietOperations Total.
From S2P Require Import AccountOperations AssetOperations DataOperations ContractOperations Evaluate.

Local Open Scope Z_scope.

(** ** What stays as it is *)

Record same_terms (e e' : TransactionEvaluationState) : Prop := {
  same_signed_keys : signed_keys e' = signed_keys e;
  same_skip_signature : skip_signature_check e' = skip_signature_check e;
  same_required_fees : required_fees e' = required_fees e;
  same_max_fee : max_fee e' = max_fee e;
  same_alt_fees : alt_fees_paid e' = alt_fees_paid e;
  same_votes : delegate_vote_deltas e' = delegate_vote_deltas e;
  same_contract_balance : withdrawed_contract_balance e' = withdrawed_contract_balance e
}.
Lemma same_terms_refl e : same_terms e e.
Proof. now split. Qed.
Lemma same_terms_trans e1 e2 e3 : same_terms e1 e2 -> same_terms e2 e3 -> same_terms e1 e3.
Proof. intros [] []. split; congruence. Qed.

(** [W] shares of the base asset were withdrawn and [D] deposited. *)
Record tallied (W D : Z) (e : TransactionEvaluationState) : Prop := {
  tallied_balance : at0 (es_balance e) 0 = W - D;
  tallied_withdraws : at0 (withdraws e) 0 = W;
  tallied_deposits : at0 (deposits e) 0 = D;
  tallied_deltas op id : - (W + D) <= delta_at e op id <= W + D;
  tallied_only id : id <> 0 -> es_balance e !! id = None /\ withdraws e !! id = None
}.
Lemma tallied_new : tallied 0 0 new_evaluation_state.
Proof. split; cbn; try reflexivity; [| intros; split; apply lookup_empty]. intros. unfold delta_at, at0. cbn. rewrite lookup_empty. cbn. now rewrite lookup_empty. Qed.

Lemma delta_set e op id v op' id' :
  delta_at (set_delta op id v e) op' id' = if decide (op = op' /\ id = id') then v else delta_at e op' id'.
Proof.
  unfold delta_at, set_delta. cbn. destruct (decide (op = op')) as [-> | Hop].
  - rewrite lookup_insert_eq. cbn. rewrite at0_insert.
    destruct (Z.eqb_spec id' id) as [-> | Hid]; destruct (decide _) as [[_ Hb] | Hb]; try reflexivity; congruence || (exfalso; now apply Hb).
  - rewrite lookup_insert_ne by exact Hop. destruct (decide (op = op' /\ id = id')) as [[] |]; [contradiction | reflexivity].
Qed.
Lemma safe_add_run a b : in_i64 (a + b) -> safe_add a b = Ok (a + b).
Proof.
  unfold in_i64, safe_add. intros Hr. destruct (Z.ltb_spec 0 b), (Z.ltb_spec (INT64_MAX - b) a); cbn; try lia;
    destruct (Z.ltb_spec b 0), (Z.ltb_spec a (INT64_MIN - b)); cbn; try lia; reflexivity.
Qed.
Lemma safe_sub_run a b : in_i64 (a - b) -> safe_sub a b = Ok (a - b).
Proof.
  unfold in_i64, safe_sub. intros Hr. destruct (Z.ltb_spec 0 b), (Z.ltb_spec a (INT64_MIN + b)); cbn; try lia;
    destruct (Z.ltb_spec b 0), (Z.ltb_spec (INT64_MAX + b) a); cbn; try lia; reflexivity.
Qed.

(** Writing an entry does not change the time a state gives. *)
Class SteadyClock (S : Type) `{ChainInterface S} : Prop :=
  now_insert k key v (s : S) : now (db_insert k key v s) = now s.

Section Evaluation.
Context `{ChainParams} {S : Type} `{HI : ChainInterface S}.
Abbreviation E := (M (EvalContext S)).

Lemma succeeds_on_ev f (c : EvalContext S) (Q : unit -> EvalContext S -> Prop) :
  Q tt (mkEvalContext (f (ev c)) (current_state c)) -> succeeds (on_ev f) c Q.
Proof. intros HQ. eapply succeeds_run; [reflexivity | exact HQ]. Qed.
Lemma succeeds_chain {A} (m : M S A) (c : EvalContext S) a s' (Q : A -> EvalContext S -> Prop) :
  m (current_state c) = (Ok a, s') -> Q a (mkEvalContext (ev c) s') -> succeeds (chain m) c Q.
Proof. intros Em. apply succeeds_run. unfold chain. now rewrite Em. Qed.

(** ** Books *)

Lemma add_balance_run x W D (c : EvalContext S) : 0 < x -> 0 <= W -> 0 <= D -> W + D + x <= INT64_MAX -> tallied W D (ev c) ->
  succeeds (add_balance (mkAsset x 0)) c (fun _ c' => tallied (W + x) D (ev c') /\ same_terms (ev c) (ev c')
    /\ current_state c' = current_state c
    /\ deposit_count (ev c') = deposit_count (ev c) /\ deposit_address (ev c') = deposit_address (ev c)).
Proof.
  intros Hx HW HD Hmax [Tb Tw Td Tl To]. unfold add_balance. cbn [asset_id amount].
  do 3 (go1; apply succeeds_on_ev). cbn [ev current_state]. go1. apply succeeds_gets. cbn [ev].
  set (e := set_delta _ _ _ _).
  assert (at0 (es_balance e) 0 = W - D) as E1
    by (change (at0 (touch 0 (es_balance (ev c))) 0 = W - D); now rewrite at0_touch).
  assert (at0 (withdraws e) 0 = W) as E2
    by (change (at0 (touch 0 (withdraws (ev c))) 0 = W); now rewrite at0_touch).
  assert (forall op id, delta_at e op id = delta_at (ev c) op id) as E3.
  { intros op id. unfold e. rewrite delta_set. destruct (decide _) as [[<- <-] |]; reflexivity. }
  pose proof (Tl (current_op_index (ev c)) 0) as Hd.
  go1. go1; [apply safe_add_run; unfold in_i64, INT64_MIN, INT64_MAX in *; rewrite E1; lia |].
  go1. go1; [apply safe_add_run; unfold in_i64, INT64_MIN, INT64_MAX in *; rewrite E2; lia |].
  go1. go1; [apply safe_sub_run; unfold in_i64, INT64_MIN, INT64_MAX in *; rewrite E3; cbn; lia |].
  do 2 (go1; apply succeeds_on_ev). apply succeeds_on_ev. cbn [ev current_state].
  split; [| repeat split].
  split.
  - change (at0 (<[0 := at0 (es_balance e) 0 + x]> (es_balance e)) 0 = W + x - D). rewrite at0_insert, Z.eqb_refl. lia.
  - change (at0 (<[0 := at0 (withdraws e) 0 + x]> (withdraws e)) 0 = W + x). rewrite at0_insert, Z.eqb_refl. lia.
  - exact Td.
  - intros op id. rewrite delta_set. change (delta_at (set_withdraws _ _) op id) with (delta_at e op id). rewrite !E3.
    specialize (Tl op id). change (current_op_index e) with (current_op_index (ev c)).
    destruct (decide _); lia.
  - intros id Hid. destruct (To id Hid) as [T1 T2]. cbn. unfold touch. rewrite !lookup_insert_ne by congruence. now split.
Qed.
Lemma sub_balance_run x W D (c : EvalContext S) : 0 < x -> 0 <= W -> 0 <= D -> W + D + x <= INT64_MAX -> tallied W D (ev c) ->
  succeeds (sub_balance (mkAsset x 0)) c (fun _ c' => tallied W (D + x) (ev c') /\ same_terms (ev c) (ev c')
    /\ current_state c' = current_state c).
Proof.
  intros Hx HW HD Hmax [Tb Tw Td Tl To]. unfold sub_balance. cbn [asset_id amount].
  do 3 (go1; apply succeeds_on_ev). cbn [ev current_state]. go1. apply succeeds_gets. cbn [ev].
  set (e := set_delta _ _ _ _).
  assert (at0 (es_balance e) 0 = W - D) as E1
    by (change (at0 (touch 0 (es_balance (ev c))) 0 = W - D); now rewrite at0_touch).
  assert (at0 (deposits e) 0 = D) as E2
    by (change (at0 (touch 0 (deposits (ev c))) 0 = D); now rewrite at0_touch).
  assert (forall op id, delta_at e op id = delta_at (ev c) op id) as E3.
  { intros op id. unfold e. rewrite delta_set. destruct (decide _) as [[<- <-] |]; reflexivity. }
  pose proof (Tl (current_op_index (ev c)) 0) as Hd.
  go1. go1; [apply safe_sub_run; unfold in_i64, INT64_MIN, INT64_MAX in *; rewrite E1; lia |].
  go1. go1; [apply safe_add_run; unfold in_i64, INT64_MIN, INT64_MAX in *; rewrite E2; lia |].
  go1. go1; [apply safe_add_run; unfold in_i64, INT64_MIN, INT64_MAX in *; rewrite E3; cbn; lia |].
  do 2 (go1; apply succeeds_on_ev). apply succeeds_on_ev. cbn [ev current_state].
  split; [| repeat split].
  split.
  - change (at0 (<[0 := at0 (es_balance e) 0 - x]> (es_balance e)) 0 = W - (D + x)). rewrite at0_insert, Z.eqb_refl. lia.
  - exact Tw.
  - change (at0 (<[0 := at0 (deposits e) 0 + x]> (deposits e)) 0 = D + x). rewrite at0_insert, Z.eqb_refl. lia.
  - intros op id. rewrite delta_set. change (delta_at (set_deposits _ _) op id) with (delta_at e op id). rewrite !E3.
    specialize (Tl op id). change (current_op_index e) with (current_op_index (ev c)).
    destruct (decide _); lia.
  - intros id Hid. destruct (To id Hid) as [T1 T2]. cbn. unfold touch. rewrite !lookup_insert_ne by congruence. now split.
Qed.

(** ** Withdrawals *)

(** A balance of the base asset without a slate, that one signature spends *)
Record plain_balance (b : BalanceEntry) (owner : Address) : Prop := {
  plain_signed : cond_type (condition b) = withdraw_signature_type;
  plain_owner : condition_owner (condition b) = Ok (Some owner);
  plain_asset : cond_asset_id (condition b) = 0;
  plain_slate : cond_slate_id (condition b) = 0
}.
Lemma plain_spendable b owner : plain_balance b owner -> get_spendable_balance b = mkAsset (balance b) 0.
Proof. intros [T _ A _]. unfold get_spendable_balance. rewrite T, A. reflexivity. Qed.
Lemma plain_signature b owner : plain_balance b owner -> as_signature (condition b) = Ok owner.
Proof.
  intros [T O _ _]. unfold condition_owner in O. rewrite T in O. cbn in O.
  destruct (as_signature (condition b)); [now injection O as -> | discriminate].
Qed.
Lemma plain_owners b owner : plain_balance b owner -> condition_owners (condition b) = Ok {[ owner ]}.
Proof. intros Hb. unfold condition_owners. rewrite (plain_signed b owner Hb). cbn. now rewrite (plain_signature b owner Hb). Qed.
Lemma no_votes c n (s : EvalContext S) (Q : unit -> EvalContext S -> Prop) : cond_slate_id c = 0 ->
  Q tt s -> succeeds (adjust_balance_vote c n) s Q.
Proof. intros Hs HQ. unfold adjust_balance_vote. rewrite Hs, Z.eqb_refl, andb_false_r. now apply succeeds_ret. Qed.

Lemma plain_authorized e asset_rec b owner : plain_balance b owner -> is_balance_frozen asset_rec = false ->
  owner ∈ signed_keys e -> withdraw_authorized e asset_rec (condition b) = Ok tt.
Proof.
  intros Hb Hf Ho. unfold withdraw_authorized. destruct (issuer_override e asset_rec); [reflexivity |].
  rewrite Hf. cbn. unfold owners_authorized. rewrite (plain_signed b owner Hb). cbn. rewrite (plain_signature b owner Hb). cbn.
  unfold check_signature. rewrite bool_decide_eq_true_2 by exact Ho. now rewrite orb_true_r.
Qed.

Context `{HL : !ChainInterfaceLaws S} `{LW : !LedgerLaws S} `{CL : !SteadyClock S}.

Lemma store_balance_now b (s : S) : exists s', store_balance_entry b s = (Ok tt, s') /\ put_balance b s s' /\ now s' = now s.
Proof. eexists. split; [reflexivity |]. split; [eapply store_balance_Ok; reflexivity | apply now_insert]. Qed.

Lemma withdraw_run id x claim b owner base W D (c : EvalContext S) :
  get_balance_entry (current_state c) id = Some b -> plain_balance b owner -> 0 < x <= balance b -> balance b <= INT64_MAX ->
  get_asset_entry (current_state c) 0 = Some base -> is_balance_frozen base = false -> owner ∈ signed_keys (ev c) ->
  0 <= W -> 0 <= D -> W + D + x <= INT64_MAX -> tallied W D (ev c) ->
  succeeds (withdraw_evaluate (mkWithdrawOperation id x claim)) c (fun _ c' =>
    tallied (W + x) D (ev c') /\ same_terms (ev c) (ev c')
    /\ deposit_count (ev c') = deposit_count (ev c) /\ deposit_address (ev c') = deposit_address (ev c)
    /\ exists b', condition b' = condition b /\ balance b' = balance b - x /\ deposit_date b' = deposit_date b
         /\ put_balance b' (current_state c) (current_state c') /\ now (current_state c') = now (current_state c)).
Proof.
  intros Hb Hp Hx Hmax Ha Hf Ho HW HD Hbook Ht. unfold withdraw_evaluate. cbn [wd_amount wd_balance_id].
  go1. go1; [lia |]. go1. apply succeeds_gets. go1. go1; [exact Hb |].
  go1. go1; [rewrite (plain_spendable b owner Hp); cbn; lia |].
  rewrite (plain_asset b owner Hp). go1. apply succeeds_gets. go1. go1; [exact Ha |].
  go1. apply succeeds_gets. go1. go1; [now apply (plain_authorized _ _ b owner) |].
  go1. apply no_votes; [exact (plain_slate b owner Hp) |].
  go1. go1; [apply safe_sub_run; unfold in_i64, INT64_MIN; lia |]. cbn [condition set_balance]. rewrite (plain_asset b owner Hp).
  go1. eapply succeeds_mono; [exact (add_balance_run x W D c ltac:(lia) HW HD Hbook Ht) |].
  intros _ c1 (T1 & S1 & E1 & C1 & A1). cbv beta. rewrite (plain_owner b owner Hp). go1. go1; [reflexivity |].
  go1. apply (succeeds_mono _ _ (fun _ c2 => tallied (W + x) D (ev c2) /\ same_terms (ev c) (ev c2)
    /\ current_state c2 = current_state c /\ deposit_count (ev c2) = deposit_count (ev c)
    /\ deposit_address (ev c2) = deposit_address (ev c))).
  - apply succeeds_when; intros _; [apply succeeds_on_ev; cbn [ev current_state] | now repeat split; try apply S1; try apply T1].
    destruct T1, S1. split; [now split | split; [now split | repeat split]]; assumption.
  - intros _ c2 (T2 & S2 & E2 & C2 & A2). go1. apply succeeds_gets.
    destruct (store_balance_now (set_balance_last_update (now (current_state c2)) (set_balance (balance b - x) b)) (current_state c2))
      as (s' & Es & Hput & Hnow).
    eapply succeeds_chain; [exact Es |]. cbn [ev current_state]. split; [exact T2 |]. split; [exact S2 |].
    split; [exact C2 |]. split; [exact A2 |]. rewrite <- E2. eexists. split; [| split; [| split; [| split; [exact Hput | exact Hnow]]]]; reflexivity.
Qed.
(** ** The deposit *)

Lemma average_date_run b t x : 0 <= balance b -> 0 < x -> balance b + x <= INT64_MAX ->
  0 <= deposit_date b < 2 ^ 32 -> 0 <= t < 2 ^ 32 ->
  exists date, average_date b t x (balance b + x) = Ok date.
Proof.
  intros Hb Hx Hmax Hd Ht. unfold average_date, INT64_MAX in *. destruct (balance b =? 0); [now eexists |].
  rewrite (wrap_u128_small (balance b)), (wrap_u128_small x), (wrap_u128_small (balance b + x)) by lia.
  rewrite (wrap_u128_small (deposit_date b * _)), (wrap_u128_small (t * x)) by nia. rewrite wrap_u128_small by nia.
  destruct (Z.eqb_spec (balance b + x) 0); [lia |]. cbn. unfold to_integer.
  destruct (Z.leb_spec (2 ^ 32) ((deposit_date b * balance b + t * x) / (balance b + x))) as [Hl |]; [| now eexists].
  exfalso. apply Z.le_ngt in Hl. apply Hl, Z.div_lt_upper_bound; nia.
Qed.

Definition paid_to (to : Address) : WithdrawCondition :=
  mkWithdrawCondition 0 0 withdraw_common_type (WithdrawWithSignature to None).
(** The entry of that condition can grow by [x]. *)
Definition room_for (to : Address) (x : Z) (s : S) : Prop :=
  match get_balance_entry s (condition_address (paid_to to)) with
  | Some b => condition b = paid_to to /\ 0 <= balance b /\ balance b + x <= INT64_MAX /\ 0 <= deposit_date b < 2 ^ 32
  | None => x <= INT64_MAX
  end.

Lemma deposit_run to x base W D (c : EvalContext S) : deposit_count (ev c) = 0 -> deposit_address (ev c) = ∅ -> 0 < x ->
  room_for to x (current_state c) -> 0 <= now (current_state c) < 2 ^ 32 ->
  get_asset_entry (current_state c) 0 = Some base ->
  0 <= W -> 0 <= D -> W + D + x <= INT64_MAX -> tallied W D (ev c) ->
  succeeds (deposit_evaluate (mkDepositOperation x (paid_to to))) c (fun _ c' =>
    tallied W (D + x) (ev c') /\ same_terms (ev c) (ev c')
    /\ forall id, get_asset_entry (current_state c') id = get_asset_entry (current_state c) id).
Proof.
  intros Hc Ha Hx Hroom Hnow Hbase HW HD Hbook Ht. unfold deposit_evaluate. cbn [dep_amount dep_condition].
  go1. apply succeeds_gets. rewrite Hc. go1. go1; [reflexivity |]. go1. apply succeeds_on_ev. cbn [ev current_state].
  go1. go1; [lia |]. go1. go1; [reflexivity |]. go1. apply succeeds_gets. cbn [ev current_state].
  set (cur := default _ _).
  assert (condition cur = paid_to to /\ 0 <= balance cur /\ balance cur + x <= INT64_MAX /\ 0 <= deposit_date cur < 2 ^ 32) as (Ec & Hb & Hmax & Hd).
  { unfold room_for in Hroom. subst cur. destruct (get_balance_entry _ _) as [b |]; [exact Hroom |]. cbn.
    split; [reflexivity |]. lia. }
  clearbody cur. rewrite Ec. go1. go1; [reflexivity |].
  go1. rewrite elements_singleton. cbn [for_each]. go1. go1. apply succeeds_gets. cbn [ev deposit_address set_deposit_count]. rewrite Ha.
  go1. go1; [apply bool_decide_eq_false_2; set_solver |]. apply succeeds_on_ev. apply succeeds_ret. cbn [ev current_state].
  go1. apply succeeds_gets. cbn [current_state].
  destruct (average_date_run cur (now (current_state c)) x Hb Hx Hmax Hd Hnow) as (date & Ed).
  go1. go1; [exact Ed |]. go1. go1; [apply safe_add_run; unfold in_i64, INT64_MIN; lia |].
  cbn [condition set_balance set_deposit_date]. rewrite Ec. cbn [cond_asset_id paid_to]. go1.
  match goal with |- succeeds _ ?c0 _ => eapply succeeds_mono; [apply (sub_balance_run x W D c0 Hx HW HD Hbook) |] end.
  { destruct Ht. now split. }
  intros _ c1 (T1 & S1 & E1). cbn [ev current_state] in *. go1. apply no_votes; [reflexivity |].
  go1. apply succeeds_gets. rewrite E1. cbn [condition set_balance_last_update set_balance set_deposit_date]. rewrite ?Ec.
  cbn [cond_asset_id paid_to]. go1. go1; [unfold get_asset_entry in Hbase |- *; now rewrite Hbase |].
  destruct (store_balance_now (set_balance_last_update (now (current_state c))
    (set_balance (balance cur + x) (set_deposit_date date cur))) (current_state c1)) as (s' & Es & Hput & _).
  eapply succeeds_chain; [exact Es |]. cbn [ev current_state]. split; [exact T1 |].
  split; [destruct S1; now split |]. intros id. rewrite (put_balance_assets _ _ _ Hput). now rewrite E1.
Qed.
(** ** The settlement *)

Lemma map_items_none {A} : map_items (∅ : gmap Z A) = [].
Proof. unfold map_items. now rewrite map_to_list_empty. Qed.
Lemma map_items_one {A} k (v : A) : map_items {[ k := v ]} = [(k, v)].
Proof. unfold map_items. now rewrite map_to_list_singleton. Qed.

(** The base asset can take in [fee] more. *)
Definition takes_fee (fee : Z) (base : AssetEntry) : Prop :=
  ast_id base = 0 /\ in_i64 (collected_fees base + fee).

Lemma collect_run fee base (c : EvalContext S) (Q : unit -> EvalContext S -> Prop) : 0 <= fee ->
  get_asset_entry (current_state c) 0 = Some base -> takes_fee fee base ->
  (forall s', Q tt (mkEvalContext (ev c) s')) -> succeeds (collect_fee (0, fee)) c Q.
Proof.
  intros Hf Hb [Hid Hc] HQ. unfold collect_fee. cbn [fst snd]. go1. go1; [lia |].
  apply succeeds_when; intros _; [| destruct c; apply HQ].
  go1. apply succeeds_gets. go1. go1; [exact Hb |]. go1. go1; [now apply safe_add_run |].
  unfold chain, store_asset_entry, entry_store, asset_entry_store.
  unfold get_asset_entry, entry_lookup in Hb. cbn [ast_id set_collected_fees].
  destruct base; cbn in Hid. subst ast_id. eapply succeeds_run.
  - unfold bind at 1, gets. cbn in Hb |- *. rewrite Hb. unfold bind at 1. cbn. rewrite String.eqb_refl. reflexivity.
  - apply HQ.
Qed.

Lemma post_evaluate_run W D base (c : EvalContext S) : tallied W D (ev c) -> 0 <= W - D ->
  withdrawed_contract_balance (ev c) = [] ->
  get_asset_entry (current_state c) 0 = Some base -> takes_fee (W - D) base ->
  succeeds post_evaluate c (fun _ c' => es_balance (ev c') = {[ 0 := W - D ]} /\ same_terms (ev c) (ev c')).
Proof.
  intros [Tb Tw Td Tl To] Hf Hn Ha Ht. unfold post_evaluate.
  assert (touch 0 (es_balance (ev c)) = {[ 0 := W - D ]}) as E1.
  { apply map_eq. intros k. unfold touch. destruct (decide (k = 0)) as [-> | Hne].
    - now rewrite lookup_insert_eq, lookup_singleton_eq, Tb.
    - rewrite lookup_insert_ne, lookup_singleton_ne by congruence. apply (To k Hne). }
  go1. apply succeeds_gets. go1.
  eapply (succeeds_each _ _ (fun l c' => c' = c /\ forall i, i ∈ l -> fst i = 0)).
  { intros x l' c' [-> Hl]. go1. apply succeeds_gets. apply succeeds_unless; [| split; [reflexivity | intros; apply Hl, elem_of_cons; now right]].
    rewrite (Hl x (list_elem_of_here _ _)). unfold get_asset_entry in Ha |- *. now rewrite Ha. }
  { split; [reflexivity |]. intros [k v] Hk. apply elem_of_map_items in Hk. cbn. destruct (decide (k = 0)) as [| Hne]; [easy |].
    destruct (To k Hne) as [_ E]. congruence. }
  intros c' [-> _]. go1. apply succeeds_on_ev. cbn [ev current_state]. rewrite E1. go1. apply succeeds_gets. cbn [ev es_balance set_es_balance].
  rewrite map_items_one. cbn [for_each]. go1. go1. unfold check_known_fee. cbn [fst snd]. go1. go1; [lia |].
  apply succeeds_when; [discriminate | intros _]. apply succeeds_ret. go1. go1.
  apply (collect_run (W - D) base); [exact Hf | exact Ha | exact Ht |]. cbn [ev]. intros s'. apply succeeds_ret.
  go1. apply succeeds_gets. cbn [ev withdrawed_contract_balance set_es_balance]. rewrite Hn. apply succeeds_ret. cbn. now split.
Qed.

Lemma settle_run W D base (c : EvalContext S) : tallied W D (ev c) -> 0 <= W - D <= INT64_MAX ->
  withdrawed_contract_balance (ev c) = [] -> delegate_vote_deltas (ev c) = ∅ -> max_fee (ev c) = ∅ ->
  alt_fees_paid (ev c) = mkAsset 0 0 -> asset_id (required_fees (ev c)) = 0 -> amount (required_fees (ev c)) <= W - D ->
  get_asset_entry (current_state c) 0 = Some base -> takes_fee (W - D) base ->
  succeeds settle c (fun _ c' => get_fees (ev c') 0 = W - D).
Proof.
  intros Ht Hf Hn Hv Hm Hal Hi Hr Ha Hb. unfold settle. go1.
  eapply succeeds_mono; [exact (post_evaluate_run W D base c Ht (proj1 Hf) Hn Ha Hb) |]. intros _ c1 (E1 & [S1 S2 S3 S4 S5 S6 S7]).
  go1. unfold validate_required_fee. go1. apply succeeds_gets. rewrite E1, lookup_singleton_eq. unfold asset_add_assign. cbn [asset_id amount].
  go1. go1. { rewrite Z.eqb_refl. cbn [negb]. unfold INT64_MAX in *.
    destruct (Z.ltb_spec (2 ^ 63 - 1 - (W - D)) 0); [lia |]. destruct (Z.ltb_spec (W - D) 0); [lia |]. rewrite andb_false_r. reflexivity. }
  go1. rewrite S4, Hm, lookup_empty. go1. rewrite S5, Hal. go1. go1. { cbn. reflexivity. }
  go1. go1. { unfold asset_gt. rewrite S3, Hi. cbn. reflexivity. }
  go1; [cbn [amount]; lia |]. unfold update_delegate_votes. go1. apply succeeds_gets. rewrite S6, Hv, map_items_none.
  apply succeeds_ret. unfold get_fees, at0. now rewrite E1, lookup_singleton_eq.
Qed.
End Evaluation.
