(* ===== verification/TransferSettles.v ===== *)
(** * A transfer settles

    The chain accepts what the wallet makes of a transfer: the withdrawals of
    WalletDraws.v and the deposit of what is left of them after the fee. *)

From Stdlib Require Import ZArith Lia Bool String QArith.
From stdpp Require Import base gmap strings list sorting.
From S2P Require Import Prelude Asset Entries Names ChainInterface ChainState AssetEntry.
From S2P Require Import EvalState BalanceOperations Ledger QuietOperations Total.
From S2P Require Import AccountOperations AssetOperations DataOperations ContractOperations Evaluate.
From S2P Require Import WalletDb Wallet WalletFunds WalletCommands WalletDraws TransferEvaluation.

Local Open Scope Z_scope.

(** ** The operations *)

Section Operations.
Context `{ChainParams} {S : Type} `{HI : ChainInterface S} `{HL : !ChainInterfaceLaws S} `{LW : !LedgerLaws S}
  `{CL : !SteadyClock S} `{GluaVM S}.
Abbreviation E := (M (EvalContext S)).

(** A balance of the state from which shares are drawn *)
Record held (s : S) (x : BalanceEntry * ShareType) : Prop := {
  held_stored : get_balance_entry s (balance_id (fst x)) = Some (fst x);
  held_plain : plain_balance (fst x) (owner_of (fst x));
  held_amount : 0 < snd x <= balance (fst x);
  held_bound : balance (fst x) <= INT64_MAX
}.
Definition draw_ids (l : list (BalanceEntry * ShareType)) : list BalanceIdType := map (fun x => balance_id (fst x)) l.

Lemma held_elsewhere s s' b x : put_balance b s s' -> balance_id (fst x) <> balance_id b -> held s x -> held s' x.
Proof.
  intros Hp Hne [Hs Hpl Ha Hb]. split; [| exact Hpl | exact Ha | exact Hb].
  rewrite (put_balance_balances _ _ _ Hp). destruct (Z.eqb_spec (balance_id (fst x)) (balance_id b)); [contradiction | exact Hs].
Qed.
Lemma room_after to x b b' s s' : get_balance_entry s (balance_id b) = Some b ->
  condition b' = condition b -> 0 <= balance b' <= balance b -> deposit_date b' = deposit_date b ->
  put_balance b' s s' -> room_for to x s -> room_for to x s'.
Proof.
  intros Hb Ec Hle Ed Hp. unfold room_for. rewrite (put_balance_balances _ _ _ Hp). unfold balance_id in *. rewrite Ec.
  destruct (Z.eqb_spec (condition_address (paid_to to)) (condition_address (condition b))) as [-> |]; [| easy].
  rewrite Hb, Ec, Ed. intros (? & ? & ? & ?). repeat split; try assumption; lia.
Qed.

(** What the operations of a transfer leave as they found it *)
Record same_course (c c' : EvalContext S) : Prop := {
  course_terms : same_terms (ev c) (ev c');
  course_count : deposit_count (ev c') = deposit_count (ev c);
  course_address : deposit_address (ev c') = deposit_address (ev c);
  course_assets id : get_asset_entry (current_state c') id = get_asset_entry (current_state c) id;
  course_now : now (current_state c') = now (current_state c)
}.
Lemma same_course_trans c1 c2 c3 : same_course c1 c2 -> same_course c2 c3 -> same_course c1 c3.
Proof. intros [] []. split; [eapply same_terms_trans; eassumption | congruence..]. Qed.

Lemma next_op_run (c : EvalContext S) (Q : unit -> EvalContext S -> Prop) :
  (forall i, Q tt (mkEvalContext (set_current_op_index i (ev c)) (current_state c))) -> succeeds next_op c Q.
Proof. intros HQ. apply succeeds_on_ev, HQ. Qed.
Lemma tallied_op_index W D i e : tallied W D e -> tallied W D (set_current_op_index i e).
Proof. intros []. now split. Qed.
Lemma same_op_index e e' i : same_terms e e' -> same_terms e (set_current_op_index i e').
Proof. intros []. now split. Qed.

Variables (base : AssetEntry) (to : Address) (paid : Z).

Lemma draws_run l : forall W (c : EvalContext S),
  Forall (held (current_state c)) l -> NoDup (draw_ids l) ->
  get_asset_entry (current_state c) 0 = Some base -> is_balance_frozen base = false ->
  Forall (fun x => owner_of (fst x) ∈ signed_keys (ev c)) l ->
  0 <= W -> W + total_of l <= INT64_MAX -> tallied W 0 (ev c) -> room_for to paid (current_state c) ->
  succeeds (evaluate_operations evaluate_operation (map draw_operation l)) c (fun _ c' =>
    tallied (W + total_of l) 0 (ev c') /\ same_course c c' /\ room_for to paid (current_state c')).
Proof.
  induction l as [| [b x] l IH]; intros W c Hh Hnd Ha Hf Ho HW Hmax Ht Hr.
  { apply succeeds_ret. cbn. rewrite Z.add_0_r. split; [exact Ht |]. split; [| exact Hr]. split; try reflexivity. apply same_terms_refl. }
  apply Forall_cons in Hh as [[Hs Hp Hx Hb] Hh]. apply Forall_cons in Ho as [Hsig Ho].
  apply NoDup_cons in Hnd as [Hnew Hnd]. cbn [fst snd total_of foldr] in *. fold (total_of l) in *.
  assert (0 <= total_of l) as Hpos.
  { clear -Hh. induction l as [| y l IH]; [cbn; lia |]. apply Forall_cons in Hh as [[_ _ Hy _] Hh]. specialize (IH Hh). cbn. fold (total_of l). lia. }
  unfold evaluate_operations. cbn [map forM]. go1. go1. cbn [draw_operation fst snd evaluate_operation].
  eapply succeeds_mono; [exact (withdraw_run (balance_id b) x [] b (owner_of b) base W 0 c Hs Hp Hx Hb Ha Hf Hsig HW ltac:(lia) ltac:(lia) Ht) |].
  intros _ c1 (T1 & S1 & C1 & A1 & b' & Ec & Eb & Ed & Hput & Hnow). cbv beta. apply next_op_run. intros i.
  assert (same_course c c1) as HC by (split; try assumption; intros; apply (put_balance_assets _ _ _ Hput)).
  set (c2 := mkEvalContext _ _).
  assert (same_course c c2) as HC2 by (destruct HC; split; try assumption; now apply same_op_index).
  assert (balance_id b' = balance_id b) as Eid by (unfold balance_id; now rewrite Ec).
  eapply succeeds_mono; [apply (IH (W + x) c2) |].
  - apply Forall_forall. intros y Hy. rewrite Forall_forall in Hh. apply (held_elsewhere (current_state c) _ b'); [exact Hput | | now apply Hh].
    rewrite Eid. intros Eq. apply Hnew. rewrite <- Eq. unfold draw_ids. now apply (list_elem_of_fmap_2 (fun x => balance_id (fst x))).
  - exact Hnd.
  - rewrite (course_assets _ _ HC2). exact Ha.
  - exact Hf.
  - rewrite (same_signed_keys _ _ (course_terms _ _ HC2)). exact Ho.
  - lia.
  - lia.
  - now apply tallied_op_index.
  - apply (room_after to paid b b' (current_state c)); try assumption. lia.
  - intros _ c3 (T3 & S3 & R3). rewrite Z.add_assoc. split; [exact T3 |]. split; [| exact R3]. now apply (same_course_trans _ c2).
Qed.

(** The withdrawals, then the deposit *)
Lemma operations_run l (c : EvalContext S) :
  Forall (held (current_state c)) l -> NoDup (draw_ids l) ->
  get_asset_entry (current_state c) 0 = Some base -> is_balance_frozen base = false ->
  Forall (fun x => owner_of (fst x) ∈ signed_keys (ev c)) l ->
  total_of l + paid <= INT64_MAX -> 0 <= total_of l -> 0 < paid -> tallied 0 0 (ev c) -> room_for to paid (current_state c) ->
  deposit_count (ev c) = 0 -> deposit_address (ev c) = ∅ -> 0 <= now (current_state c) < 2 ^ 32 ->
  succeeds (evaluate_operations evaluate_operation
    (map draw_operation l ++ [OpDeposit (mkDepositOperation paid (paid_to to))])) c (fun _ c' =>
      tallied (total_of l) paid (ev c') /\ same_terms (ev c) (ev c')
      /\ forall id, get_asset_entry (current_state c') id = get_asset_entry (current_state c) id).
Proof.
  intros Hh Hnd Ha Hf Ho Hmax Hpos Hp Ht Hr Hc Hd Hn. unfold evaluate_operations. apply succeeds_app.
  eapply succeeds_mono; [exact (draws_run l 0 c Hh Hnd Ha Hf Ho ltac:(lia) ltac:(lia) Ht Hr) |].
  intros _ c1 (T1 & [S1 C1 A1 As1 N1] & R1). cbn [forM]. go1. go1. cbn [evaluate_operation].
  eapply succeeds_mono; [apply (deposit_run to paid base (total_of l) 0 c1); try assumption |].
  - now rewrite C1.
  - now rewrite A1.
  - now rewrite N1.
  - now rewrite As1.
  - lia.
  - lia.
  - intros _ c2 (T2 & S2 & As2). apply next_op_run. intros i. cbn [ev current_state]. apply succeeds_ret. cbn [ev current_state].
    split; [apply tallied_op_index; exact T2 |]. split; [apply same_op_index, (same_terms_trans _ _ _ S1 S2) |].
    intros id. now rewrite As2.
Qed.
End Operations.

(** ** Signatures *)

(** A signature recovers the key that made it, and what is signed does not
    depend on the signatures. *)
Definition with_signatures (sigs : list SignatureType) (trx : SignedTransaction) : SignedTransaction :=
  mkSignedTransaction (expiration trx) (reserved trx) (alp_account trx) (alp_inport_asset trx)
    (operations trx) (result_trx_type trx) (result_trx_id trx) sigs.
Class SigningLaws `{ChainParams} `{WalletCrypto} : Prop := {
  recover_signed k d canonical : recover_key (sign_compact k d) d canonical = Ok (get_public_key k);
  digest_unsigned sigs trx chain : trx_digest (with_signatures sigs trx) chain = trx_digest trx chain
}.

Section Acceptance.
Context `{ChainParams} `{WalletCrypto} `{!SigningLaws} {S : Type} `{HI : ChainInterface S} `{HL : !ChainInterfaceLaws S}
  `{LW : !LedgerLaws S} `{CL : !SteadyClock S} `{GluaVM S}.
Abbreviation E := (M (EvalContext S)).

Definition signed_by (ks : list PrivateKeyType) (d : DigestType) : list SignatureType := map (fun k => sign_compact k d) ks.
Definition owns (k : PrivateKeyType) (a : Address) : Prop := a ∈ addresses_of_key (get_public_key k).

Lemma recover_run ks d (c : EvalContext S) :
  succeeds (recover_signed_keys d (elements (list_to_set (signed_by ks d) : gset Z))) c (fun _ c' =>
    exists K, c' = mkEvalContext (set_signed_keys K (ev c)) (current_state c)
      /\ forall k a, k ∈ ks -> owns k a -> a ∈ K).
Proof.
  unfold recover_signed_keys.
  eapply (succeeds_each _ _ (fun l c' => exists K, c' = mkEvalContext (set_signed_keys K (ev c)) (current_state c)
    /\ (forall k, k ∈ ks -> sign_compact k d ∈ l \/ forall a, owns k a -> a ∈ K)
    /\ forall sig, sig ∈ l -> exists k, k ∈ ks /\ sig = sign_compact k d)).
  - intros sig l' c' (K & -> & Hall & Hfrom). destruct (Hfrom sig (list_elem_of_here _ _)) as (k0 & Hk0 & ->).
    go1. apply succeeds_gets. go1. go1; [apply recover_signed |]. apply succeeds_on_ev. cbn [ev current_state].
    eexists. split; [reflexivity |]. split; [| intros s Hs; apply Hfrom, elem_of_cons; now right].
    intros k Hk. cbn [signed_keys set_signed_keys]. destruct (Hall k Hk) as [[E | Hin]%elem_of_cons | Ho]; [right | now left | right].
    + intros a Ha. apply elem_of_union_r, elem_of_list_to_set. unfold owns in Ha.
      pose proof (recover_signed k d true) as E1. rewrite E, recover_signed in E1. now injection E1 as ->.
    + intros a Ha. apply elem_of_union_l. now apply Ho.
  - exists (signed_keys (ev c)). split; [destruct c as [[] ?]; reflexivity |]. split.
    + intros k Hk. left. apply elem_of_elements, elem_of_list_to_set. now apply (list_elem_of_fmap_2 (fun k => sign_compact k d)).
    + intros sig Hs%elem_of_elements%elem_of_list_to_set. apply list_elem_of_fmap in Hs as (k & -> & Hk). now exists k.
  - intros c' (K & -> & Hall & _). exists K. split; [reflexivity |]. intros k a Hk Ha.
    destruct (Hall k Hk) as [Hin | Ho]; [now apply elem_of_nil in Hin | now apply Ho].
Qed.

(** ** The evaluation *)

(** A transaction that draws [l], pays [paid] to [to] and is signed by [ks] *)
Record payment (l : list (BalanceEntry * ShareType)) (to : Address) (paid : Z) (ks : list PrivateKeyType)
    (trx : SignedTransaction) : Prop := {
  payment_operations : operations trx = map draw_operation l ++ [OpDeposit (mkDepositOperation paid (paid_to to))];
  payment_signatures : signatures trx = signed_by ks (trx_digest trx get_chain_id)
}.
(** What the checks before the operations ask *)
Record timely (s : S) (trx : SignedTransaction) : Prop := {
  not_expired : now s < expiration trx;
  not_too_late : expiration trx <= wrap_u32 (now s + (ALP_BLOCKCHAIN_BLOCK_INTERVAL_SEC + ALP_BLOCKCHAIN_MAX_TRANSACTION_EXPIRATION_SEC));
  not_known : is_known_transaction s trx = false;
  not_too_large : trx_data_size trx <= ALP_BLOCKCHAIN_MAX_TRX_SIZE
}.

Lemma succeeds_catch {A} trx (m : E A) c (Q : A -> EvalContext S -> Prop) : succeeds m c Q -> succeeds (catch_record trx m) c Q.
Proof. intros (a & c' & Em & HQ). exists a, c'. unfold catch_record. now rewrite Em. Qed.
Lemma draw_types l op : op ∈ map draw_operation l -> op_type op = 1.
Proof. intros (x & -> & _)%list_elem_of_fmap. reflexivity. Qed.
Lemma payment_types l to paid op : op ∈ map draw_operation l ++ [OpDeposit (mkDepositOperation paid (paid_to to))] ->
  op_type op = 1 \/ op_type op = 2.
Proof. intros [Hop | ->%list_elem_of_singleton]%elem_of_app; [left; now apply (draw_types l) | now right]. Qed.
Lemma existsb_none {A} (f : A -> bool) l : (forall x, x ∈ l -> f x = false) -> existsb f l = false.
Proof.
  intros Hf. apply not_true_is_false. intros (x & Hx & E)%existsb_exists. apply list_elem_of_In in Hx. now rewrite (Hf x Hx) in E.
Qed.

Lemma payment_legal l to paid ks trx : l <> [] -> payment l to paid ks trx -> check_operations_legality trx = true.
Proof.
  intros Hl [Ho _]. unfold check_operations_legality. rewrite existsb_none.
  - rewrite Ho. destruct l as [| x l]; [contradiction |]. cbn [map app draw_operation andb negb].
    rewrite existsb_none; [reflexivity |]. intros op Hop.
    destruct (payment_types l to paid op Hop) as [-> | ->]; reflexivity.
  - rewrite Ho. intros op Hop. destruct (payment_types l to paid op Hop) as [-> | ->]; reflexivity.
Qed.
Lemma payment_not_ignored l to paid ks trx : payment l to paid ks trx -> ignores_required_fee trx = false.
Proof.
  intros [Ho _]. apply existsb_none. rewrite Ho. intros op Hop. destruct (payment_types l to paid op Hop) as [-> | ->]; reflexivity.
Qed.

Lemma checks_run l to paid ks trx s e : l <> [] -> payment l to paid ks trx -> timely s trx ->
  Z.of_nat (length ks) <= ALP_BLOCKCHAIN_MAX_SIGNAGTURE_NUM -> skip_signature_check e = false ->
  succeeds (evaluate_checks trx) (mkEvalContext e s) (fun _ c' =>
    exists K, c' = mkEvalContext (set_signed_keys K e) s /\ forall k a, k ∈ ks -> owns k a -> a ∈ K).
Proof.
  intros Hl Hp Ht Hn Hs. unfold evaluate_checks, expiration_checks, legality_checks.
  go1. go1. apply succeeds_gets. go1. go1; [apply Z.leb_gt; cbn [current_state]; apply Ht |].
  go1; [apply Z.ltb_ge; cbn [current_state]; apply Ht |].
  go1. go1; [apply andb_false_intro2, Z.ltb_ge, Ht |].
  go1. go1. apply succeeds_gets. cbn [current_state]. go1. go1; [apply Ht |]. go1; [now rewrite (payment_legal l to paid ks) |].
  go1. go1. { rewrite (payment_signatures _ _ _ _ _ Hp). unfold signed_by. rewrite length_map. apply Z.ltb_ge, Hn. }
  go1. apply succeeds_gets. cbn [ev]. rewrite Hs. apply succeeds_when; [intros _ | discriminate].
  rewrite (payment_signatures _ _ _ _ _ Hp). apply (recover_run ks (trx_digest trx get_chain_id) (mkEvalContext e s)).
Qed.

(** The chain can take the payment: the balances drawn from are its own, their
    owners sign, there is room for what is paid and for the fee. *)
Record payable (base : AssetEntry) (l : list (BalanceEntry * ShareType)) (to : Address) (paid : Z)
    (ks : list PrivateKeyType) (s : S) : Prop := {
  payable_held : Forall (held s) l;
  payable_ids : NoDup (draw_ids l);
  payable_owners : Forall (fun x => exists k, k ∈ ks /\ owns k (owner_of (fst x))) l;
  payable_base : get_asset_entry s 0 = Some base;
  payable_not_frozen : is_balance_frozen base = false;
  payable_fee : takes_fee (total_of l - paid) base;
  payable_room : room_for to paid s;
  payable_paid : 0 < paid <= total_of l;
  payable_bound : total_of l + paid <= INT64_MAX;
  payable_signatures : Z.of_nat (length ks) <= ALP_BLOCKCHAIN_MAX_SIGNAGTURE_NUM;
  payable_signature_fee :
    (Z.of_nat (length ks) - ALP_BLOCKCHAIN_FREESIGNATURE_LIMIT) * ALP_BLOCKCHAIN_EXTRA_SIGNATURE_FEE <= total_of l - paid;
  payable_now : 0 <= now s < 2 ^ 32
}.

Lemma signature_fee_run trx (ks : list PrivateKeyType) paid l (c : EvalContext S) (Q : unit -> EvalContext S -> Prop) :
  length (signatures trx) = length ks -> Z.of_nat (length ks) <= ALP_BLOCKCHAIN_MAX_SIGNAGTURE_NUM ->
  (Z.of_nat (length ks) - ALP_BLOCKCHAIN_FREESIGNATURE_LIMIT) * ALP_BLOCKCHAIN_EXTRA_SIGNATURE_FEE <= total_of l - paid ->
  0 <= total_of l - paid -> required_fees (ev c) = mkAsset 0 0 ->
  (forall n, n <= total_of l - paid -> Q tt (mkEvalContext (set_required_fees (mkAsset n 0) (ev c)) (current_state c))) ->
  succeeds (signature_fee trx) c Q.
Proof.
  intros Hlen Hmax Hfee Hpos Hr HQ. unfold signature_fee. rewrite Hlen.
  unfold ALP_BLOCKCHAIN_MAX_SIGNAGTURE_NUM, ALP_BLOCKCHAIN_FREESIGNATURE_LIMIT, ALP_BLOCKCHAIN_EXTRA_SIGNATURE_FEE in *.
  apply succeeds_when.
  - intros Hge%Z.leb_le. apply succeeds_on_ev. rewrite Hr. cbn [amount asset_id].
    rewrite wrap_i64_small by (unfold in_i64, INT64_MIN, INT64_MAX; lia). apply HQ. lia.
  - intros _. destruct c as [e s]. cbn [ev current_state] in *.
    replace e with (set_required_fees (mkAsset 0 0) e) by (destruct e; cbn in Hr; now subst). now apply HQ.
Qed.

Lemma payment_run base l to paid ks trx s ignore_state : payment l to paid ks trx -> timely s trx -> payable base l to paid ks s ->
  succeeds (evaluate_transaction trx ignore_state) (mkEvalContext new_evaluation_state s)
    (fun _ c' => get_fees (ev c') 0 = total_of l - paid).
Proof.
  intros Hp Ht [Hh Hids Ho Hb Hfr Hfee Hroom Hpaid Hmax Hn Hsf Hnow].
  assert (l <> []) as Hl by (intros ->; cbn in Hpaid; lia).
  unfold evaluate_transaction, evaluate. rewrite (payment_not_ignored l to paid ks trx Hp). cbn [negb].
  go1. apply succeeds_on_ev. cbn [ev current_state]. go1. apply succeeds_catch.
  eapply succeeds_mono; [apply (checks_run l to paid ks); try assumption; reflexivity |]. intros _ c1 (K & -> & HK).
  assert (Forall (fun x => owner_of (fst x) ∈ K) l) as Hsig.
  { eapply Forall_impl; [exact Ho |]. intros x (k & Hk & Hown). now apply (HK k). }
  go1. apply succeeds_catch. unfold evaluate_body. go1. apply succeeds_on_ev. cbn [ev current_state].
  set (e := set_current_op_index _ _). set (c := mkEvalContext e s).
  assert (tallied 0 0 (ev c)) as T0 by (destruct tallied_new; now split).
  assert (succeeds (evaluate_operations evaluate_operation (operations trx)) c (fun _ c' =>
    tallied (total_of l) paid (ev c') /\ same_terms (ev c) (ev c')
    /\ forall id, get_asset_entry (current_state c') id = get_asset_entry (current_state c) id)) as Hops.
  { rewrite (payment_operations _ _ _ _ _ Hp). apply (operations_run base); try assumption; try reflexivity; lia. }
  assert (exists op rest, operations trx = op :: rest /\ op_type op = 1) as (op & rest & Eops & Eop).
  { rewrite (payment_operations _ _ _ _ _ Hp). destruct l as [| x l']; [contradiction |]. now eexists _, _. }
  rewrite Eops in Hops |- *. rewrite Eop. change (1 =? transaction_op_type) with false. cbv iota. apply succeeds_bind.
  eapply succeeds_mono; [exact Hops |]. intros _ c2 (T2 & S2 & A2). apply succeeds_ret. apply succeeds_catch.
  destruct S2 as [_ _ S3 S4 S5 S6 S7].
  go1. apply (signature_fee_run trx ks paid l); [| exact Hn | exact Hsf | lia | now rewrite S3 |].
  { rewrite (payment_signatures _ _ _ _ _ Hp). apply length_map. }
  intros n Hle. go1. apply succeeds_when; [intros _ | discriminate].
  eapply succeeds_mono; [apply (settle_run (total_of l) paid base); cbn [ev current_state] |].
  - destruct T2. now split.
  - lia.
  - exact S7.
  - exact S6.
  - exact S4.
  - exact S5.
  - reflexivity.
  - exact Hle.
  - now rewrite A2.
  - exact Hfee.
  - intros u c3 Hfees; cbv beta in Hfees. go1. apply succeeds_on_ev. go1. unfold store_evaluated. go1. apply succeeds_gets.
    eapply succeeds_chain; [reflexivity |]. cbn [ev current_state]. go1; [now rewrite andb_false_r | exact Hfees].
Qed.
End Acceptance.
