(* ===== verification/TransferBuilds.v ===== *)
(** * A wallet makes transfers the chain accepts

    transfer_asset_to_address builds a payment in the sense of
    TransferSettles.v: enough withdrawals, the deposit, a signature of every
    owner; so the pending state it was made for evaluates it. *)

From Stdlib Require Import ZArith Lia Bool String QArith.
From stdpp Require Import base gmap strings list sorting.
From S2P Require Import Prelude Amounts Asset Entries Names Addresses ChainInterface ChainState AssetEntry.
From S2P Require Import EvalState BalanceOperations Ledger QuietOperations PendingChainState Total.
From S2P Require Import AccountOperations AssetOperations DataOperations ContractOperations Evaluate.
From S2P Require Import WalletDb Wallet WalletFunds WalletCommands WalletDraws TransferEvaluation TransferSettles.

Local Open Scope Z_scope.

(** ** Steps of a command *)

Section Steps.
Context `{ChainParams} `{WalletCrypto} `{WalletParams}.

Lemma succeeds_of_wallet {A} (f : Wallet -> result A) a (c : Command) (Q : A -> Command -> Prop) :
  f (the_wallet c) = Ok a -> Q a c -> succeeds (of_wallet f) c Q.
Proof.
  intros E HQ. exists a, c. split; [| exact HQ]. unfold of_wallet, on_wallet, view_wallet.
  cbn. unfold bind, Prelude.get, lift_result. rewrite E. now destruct c.
Qed.
Lemma succeeds_on_draft {A} (m : M Draft A) (c : Command) (Q : A -> Command -> Prop) :
  succeeds m (the_draft c) (fun a d => Q a (mkCommand (the_wallet c) d)) -> succeeds (on_draft m) c Q.
Proof. intros (a & d & E & HQ). exists a, (mkCommand (the_wallet c) d). split; [unfold on_draft; now rewrite E | exact HQ]. Qed.
Lemma succeeds_on_trx {A} (m : M SignedTransaction A) (d : Draft) (Q : A -> Draft -> Prop) :
  succeeds m (draft_trx d) (fun a t => Q a (mkDraft t (required_signatures d))) -> succeeds (on_trx m) d Q.
Proof. intros (a & t & E & HQ). exists a, (mkDraft t (required_signatures d)). split; [unfold on_trx; now rewrite E | exact HQ]. Qed.
End Steps.

(** ** Signing *)

Section Signing.
Context `{ChainParams} `{WalletCrypto} `{!SigningLaws} `{WalletParams} `{!WalletParamsLaws}.

(** The password of the wallet opens its keys, and each lies under an address
    its signatures are good for. *)
Definition opens (w : Wallet) : Prop := forall a k, lookup_key (_wallet_db w) a = Ok (Some k) ->
  has_private_key (key_data k) = true ->
  exists sk, decrypt_private_key (_wallet_password w) (key_data k) = Ok sk /\ owns sk a.

Lemma opens_spendable w name e : assert_unlocked w = Ok tt -> opens w -> spendable_as w name e = true ->
  exists sk, get_private_key w (owner_of e) = Ok sk /\ owns sk (owner_of e).
Proof.
  intros Hu Ho Hs. destruct (spendable_key w name e Hs) as (k & El & Hk). destruct (Ho _ k El Hk) as (sk & Ed & Hown).
  exists sk. split; [| exact Hown]. unfold get_private_key. rewrite Hu. cbn. rewrite El. cbn. rewrite Hk. exact Ed.
Qed.

Lemma hash_set_perm (R : gset Address) : hash_set R ≡ₚ elements R.
Proof.
  apply NoDup_Permutation.
  - unfold hash_set. rewrite hash_order_all. apply NoDup_fst_map_to_list.
  - apply NoDup_elements.
  - intros a. unfold hash_set. rewrite elem_of_elements. rewrite (hash_order_all (gset_to_gmap tt R)).
    rewrite list_elem_of_fmap. split.
    + intros ([b []] & -> & Hb%elem_of_map_to_list). now apply lookup_gset_to_gmap_Some in Hb as [Hb _].
    + intros Ha. exists (a, tt). split; [reflexivity |]. apply elem_of_map_to_list, lookup_gset_to_gmap_Some. now split.
Qed.

Lemma sign_run w trx (R : gset Address) : signatures trx = [] ->
  (forall a, a ∈ R -> exists sk, get_private_key w a = Ok sk /\ owns sk a) ->
  succeeds (sign_transaction w) (mkDraft trx R) (fun _ d => exists ks,
    d = mkDraft (with_signatures (signed_by ks (trx_digest trx get_chain_id)) trx) R
    /\ length ks = size R /\ forall a, a ∈ R -> exists k, k ∈ ks /\ owns k a).
Proof.
  intros Hs HR. unfold sign_transaction. go1. apply succeeds_get. cbn [required_signatures].
  eapply (succeeds_each _ _ (fun l d => (forall a, a ∈ l -> a ∈ R) /\ exists ks,
    d = mkDraft (with_signatures (signed_by ks (trx_digest trx get_chain_id)) trx) R
    /\ (length ks + length l)%nat = size R /\ forall a, a ∈ R -> a ∈ l \/ exists k, k ∈ ks /\ owns k a)).
  - intros a l d (Hl & ks & -> & Hlen & Hall). destruct (HR a (Hl a (list_elem_of_here _ _))) as (sk & Ek & Hown).
    go1. go1; [exact Ek |]. apply succeeds_on_trx. unfold trx_sign. apply succeeds_modify. cbn [draft_trx required_signatures].
    split; [intros b Hb; apply Hl, elem_of_cons; now right |]. exists (ks ++ [sk]). split; [| split].
    + rewrite digest_unsigned. unfold signed_by. rewrite map_app. reflexivity.
    + rewrite length_app. cbn in Hlen |- *. lia.
    + intros b Hb. destruct (Hall b Hb) as [[-> | Hin]%elem_of_cons | (k & Hk & Hkb)]; [right | now left | right].
      * exists sk. split; [apply elem_of_app; right; now apply list_elem_of_singleton | exact Hown].
      * exists k. split; [apply elem_of_app; now left | exact Hkb].
  - split; [intros a; now rewrite hash_set_perm, elem_of_elements |]. exists []. split; [| split].
    + unfold with_signatures, signed_by. cbn. rewrite <- Hs. now destruct trx.
    + cbn. now rewrite hash_set_perm.
    + intros a Ha. left. now rewrite hash_set_perm, elem_of_elements.
  - intros d (_ & ks & -> & Hlen & Hall). exists ks. split; [reflexivity |]. cbn in Hlen. split; [lia |].
    intros a Ha. destruct (Hall a Ha) as [Hn | Hk]; [now apply elem_of_nil in Hn | exact Hk].
Qed.
End Signing.

(** ** The command *)

Section Command.
Context `{ChainParams} `{HashParams} `{WalletCrypto} `{!SigningLaws} `{WalletParams} `{!WalletParamsLaws} `{Clock} `{Machine}.
Context {B : Type} `{ChainInterface B}.
Variable blockchain : B.

(** What a transfer of the base asset asks of the wallet, and what its
    arguments come to: [x] shares, a fee, a time of expiration *)
Record ready (w : Wallet) (text symbol from : string) (asset_rec : AssetEntry) (x fee : Z) (t : time_point_sec) : Prop := {
  ready_order : in_order w;
  ready_unlocked : assert_unlocked w = Ok tt;
  ready_opens : opens w;
  ready_receives : is_receive_account w from = Ok true;
  ready_sender : exists sk, get_active_private_key w from = Ok sk;
  ready_asset : get_asset_entry_by_symbol blockchain symbol = Ok (Some asset_rec);
  ready_base : ast_id asset_rec = 0;
  ready_amount : shares_of_text (if precision asset_rec =? 0 then 1 else wrap_i64 (precision asset_rec)) text = Ok x;
  ready_fee : wallet_transaction_fee w = Ok (mkAsset fee 0);
  ready_expiration : new_expiration w = Ok t
}.
Lemma free_message w : wallet_is_open w = true -> get_transaction_imessage_fee w "" = Ok (mkAsset 0 0).
Proof.
  intros Ho. unfold get_transaction_imessage_fee, get_transaction_imessage_soft_max_length. rewrite Ho. cbn [result_bind result_assert].
  change (strlen "") with 0. pose proof (wrap_u64_range (or_else (integer_property w transaction_min_imessage_soft_length) 0)) as Hr.
  destruct (Z.ltb_spec (wrap_u64 (or_else (integer_property w transaction_min_imessage_soft_length) 0)) 0); [lia | reflexivity].
Qed.
Lemma receives_named w name : is_receive_account w name = Ok true -> name <> "".
Proof. intros Hr ->. unfold is_receive_account in Hr. cbn in Hr. destruct (wallet_is_open w); discriminate. Qed.

Definition entry_trx (e : WalletTransactionEntry) : SignedTransaction := entry_transaction (transaction_data e).

Lemma asset_add_run a b id : 0 <= a -> 0 <= b -> a + b <= INT64_MAX -> asset_add (mkAsset a id) (mkAsset b id) = Ok (mkAsset (a + b) id).
Proof.
  intros Ha Hb Hab. unfold asset_add, asset_add_assign. cbn [asset_id amount]. rewrite Z.eqb_refl. cbn.
  destruct (Z.ltb_spec (INT64_MAX - b) a); [lia |]. destruct (Z.ltb_spec b 0); [lia |]. now rewrite andb_false_r.
Qed.

(** The draft of a transfer before anything is drawn *)
Definition blank (trx : SignedTransaction) : Prop := operations trx = [] /\ signatures trx = [].
Lemma starts_blank w account a :
  succeeds (when (negb (String.eqb account "")) (on_draft (on_trx (modify (set_alp_account account a)))))
    (mkCommand w empty_draft) (fun _ c => exists trx, c = mkCommand w (mkDraft trx ∅) /\ blank trx).
Proof.
  apply succeeds_when; intros _; [| now exists empty_transaction].
  apply succeeds_on_draft, succeeds_on_trx, succeeds_modify. eexists. split; [reflexivity |]. now split.
Qed.

Lemma transfer_run w text symbol from asset_rec x fee t to account (c : Command) :
  the_wallet c = w -> ready w text symbol from asset_rec x fee t ->
  0 < x -> 0 <= fee -> x + fee <= INT64_MAX -> x + fee <= funds_of 0 (spendable_list w from) ->
  succeeds (transfer_asset_to_address blockchain text symbol from to "" vote_none true account) c (fun e c' =>
    the_wallet c' = w /\ expiration (entry_trx e) = t /\ exists l ks,
      payment l to x ks (entry_trx e) /\ drawn 0 (spendable_list w from) (x + fee) l
      /\ length ks = size (draw_owners l)
      /\ Forall (fun y => exists k, k ∈ ks /\ owns k (owner_of (fst y))) l).
Proof.
  intros Hw [Ho Hu Hop Hr [sk Hsk] Ha Hid Hx Hf Ht] Hpos Hfee Hmax Hfunds.
  pose proof (withdraw_outcome w from (mkAsset (x + fee) 0)) as Hwd. cbn [amount asset_id] in Hwd.
  assert ((x + fee <=? funds_of 0 (spendable_list w from)) = true) as Ele by (apply Z.leb_le, Hfunds). rewrite Ele in Hwd.
  unfold transfer_asset_to_address. go1. eapply succeeds_of_wallet; [rewrite Hw; exact Hu |].
  unfold is_valid_symbol. go1. go1; [rewrite Ha; reflexivity |]. go1. go1; [reflexivity |].
  go1. unfold assert_receives. go1. eapply succeeds_of_wallet; [rewrite Hw; exact Hr |]. go1; [reflexivity |].
  go1. go1; [exact Ha |]. go1. go1; [reflexivity |]. go1. go1; [exact Hx |]. rewrite Hid.
  go1. eapply succeeds_of_wallet; [rewrite Hw; exact Hsk |]. go1. apply succeeds_on_draft, succeeds_modify. rewrite Hw.
  go1. eapply succeeds_mono; [exact (starts_blank w account (mkAsset x 0)) |]. intros _ c1 (trx0 & -> & [B1 B2]).
  go1. eapply succeeds_of_wallet; [exact Hf |]. go1. eapply succeeds_of_wallet; [apply free_message, Ho |].
  change (asset_id (mkAsset fee 0) =? asset_id (mkAsset x 0)) with true. cbv iota.
  go1. go1. go1; [apply asset_add_run; lia |]. go1. go1; [apply asset_add_run; lia |].
  destruct (Hwd (mkDraft trx0 ∅) Ho (receives_named w from Hr) ltac:(lia)) as (l & Hl & El).
  unfold withdraw. go1. apply succeeds_get. cbn [the_wallet]. apply succeeds_on_draft. replace (fee + x + 0) with (x + fee) by lia.
  apply (succeeds_run _ _ _ _ _ El). cbn [the_draft the_wallet].
  go1. apply succeeds_on_draft, succeeds_on_trx. unfold trx_deposit. go1. go1; [now apply Z.ltb_lt |]. apply succeeds_modify.
  go1. unfold expire. go1. eapply succeeds_of_wallet; [exact Ht |]. apply succeeds_on_draft, succeeds_on_trx, succeeds_modify.
  go1. apply succeeds_ret. go1. apply succeeds_ret. go1. unfold finish. go1. apply succeeds_get.
  go1. apply succeeds_when; [intros _ | discriminate]. apply succeeds_on_draft. cbn [the_wallet the_draft].
  set (trx := set_expiration t _). eapply succeeds_mono; [apply (sign_run w trx) |].
  { exact B2. }
  { intros a [Ha'%elem_of_list_to_set | Hn]%elem_of_union; [| now apply elem_of_empty in Hn].
    apply list_elem_of_fmap in Ha' as (y & -> & Hy). apply (opens_spendable w from); [exact Hu | exact Hop |].
    apply (spendable_in w from). eapply elem_of_submseteq; [| apply sublist_submseteq, (drawn_from _ _ _ _ Hl)].
    now apply (list_elem_of_fmap_2 fst). }
  intros _ d (ks & -> & Hlen & Hks). cbv beta. unfold draft_transaction. apply succeeds_gets. go1. apply succeeds_gets. go1. go1; [apply asset_add_run; lia |].
  apply succeeds_ret. unfold entry_trx. cbn [the_wallet the_draft transaction_entry_of transaction_data entry_transaction draft_trx].
  split; [reflexivity |]. split; [reflexivity |]. exists l, ks. split; [| split; [exact Hl | split]].
  - split; [| now rewrite digest_unsigned]. cbn. rewrite B1. reflexivity.
  - rewrite Hlen. f_equal. set_solver.
  - apply Forall_forall. intros y Hy. apply Hks, elem_of_union_l, elem_of_list_to_set.
    now apply (list_elem_of_fmap_2 (fun y => owner_of (fst y))).
Qed.
End Command.

(** ** Acceptance *)

Section Acceptance.
Context `{ChainParams} `{HashParams} `{WalletCrypto} `{!SigningLaws} `{WalletParams} `{!WalletParamsLaws} `{Clock} `{Machine}.
Context {B : Type} `{ChainInterface B}.
Context {S : Type} `{HI : ChainInterface S} `{HL : !ChainInterfaceLaws S} `{LW : !LedgerLaws S} `{CL : !SteadyClock S} `{GluaVM S}.
Variable blockchain : B.

(** The owners of what an account can spend *)
Definition spendable_owners (w : Wallet) (from : string) : gset Address :=
  list_to_set (map owner_of (spendable_list w from)).

(** The state [s] holds the balances the wallet knows of, without slates, and
    can take what is paid and the fee. *)
Record agrees (w : Wallet) (from : string) (to : Address) (x fee : Z) (base : AssetEntry) (s : S) : Prop := {
  agrees_balances i e : _balance_entrys w !! i = Some e -> get_balance_entry s i = Some e /\ balance e <= INT64_MAX;
  agrees_slates e : e ∈ spendable_list w from -> cond_slate_id (condition e) = 0;
  agrees_base : get_asset_entry s 0 = Some base;
  agrees_not_frozen : is_balance_frozen base = false;
  agrees_fee : takes_fee fee base;
  agrees_room : room_for to x s;
  agrees_now : 0 <= now s < 2 ^ 32
}.

Lemma drawable_plain id w name e : spendable_as w name e = true -> drawable id e = true -> id = 0 ->
  cond_slate_id (condition e) = 0 -> plain_balance e (owner_of e) /\ amount (get_spendable_balance e) = balance e.
Proof.
  intros Hs Hd -> Hslate. pose proof (spendable_signed w name e Hs) as Ht. pose proof (spendable_owned w name e Hs) as Ho.
  unfold drawable in Hd. rewrite (spendable_balance_amount e Ht) in Hd |- *. cbn [amount asset_id] in *.
  apply andb_prop in Hd as [_ Ha%Z.eqb_eq]. split; [now split | reflexivity].
Qed.
Lemma drawn_held w from to x fee base s l n : in_order w -> agrees w from to x fee base s ->
  drawn 0 (spendable_list w from) n l -> Forall (held s) l.
Proof.
  intros Hw [Hb Hslate _ _ _ _ _] [Hfrom Heach _]. apply Forall_forall. intros [e y] Hin.
  destruct (Heach e y Hin) as (Hd & _ & Hy).
  assert (e ∈ spendable_list w from) as He.
  { eapply elem_of_submseteq; [| apply sublist_submseteq, Hfrom]. now apply (list_elem_of_fmap_2 fst _ (e, y)). }
  destruct (spendable_in w from e He) as [Hs (i & Hi)]. destruct (drawable_plain 0 w from e Hs Hd eq_refl (Hslate e He)) as [Hp Ea].
  destruct (Hb i e Hi) as [Hg Hmax]. rewrite <- (balances_filed _ Hw i e Hi) in Hg. rewrite Ea in Hy. now split.
Qed.
Lemma draw_owners_few w from n l : drawn 0 (spendable_list w from) n l ->
  (size (draw_owners l) <= size (spendable_owners w from))%nat.
Proof.
  intros [Hfrom _ _]. apply subseteq_size. intros a Ha%elem_of_list_to_set. apply list_elem_of_fmap in Ha as (y & -> & Hy).
  apply elem_of_list_to_set, list_elem_of_fmap_2. eapply elem_of_submseteq; [| apply sublist_submseteq, Hfrom].
  now apply (list_elem_of_fmap_2 fst).
Qed.

(** C7: Transfers succeed end to end.  A wallet that is ready ([ready]:
    unlocked, opens its keys, knows the sender, reads the amount, has a fee in
    base shares) and whose spendable balances cover the amount and the fee
    makes, of a transfer of the base asset without message or votes, a
    transaction that pays the recipient exactly the amount and draws exactly
    the amount and the fee from balances of the sender; sums do not overflow.
    Every state of the chain that agrees with the wallet ([agrees]: it holds
    the balances, without slates, the base asset is not frozen, and there is
    room for the payment and the fee) evaluates it without error and collects
    exactly the fee, if the owners of the spendable balances are at most as
    many as a transaction may have signatures, the fee covers the signatures
    beyond the free ones, and the transaction is timely there: not expired,
    too late, known or too large. *)
Theorem transfer_accepted w d text symbol from asset_rec x fee t to account :
  ready blockchain w text symbol from asset_rec x fee t ->
  0 < x -> 0 <= fee -> 2 * x + fee <= INT64_MAX -> x + fee <= funds_of 0 (spendable_list w from) ->
  exists e c' l ks, transfer_asset_to_address blockchain text symbol from to "" vote_none true account (mkCommand w d) = (Ok e, c')
    /\ expiration (entry_trx e) = t /\ payment l to x ks (entry_trx e) /\ drawn 0 (spendable_list w from) (x + fee) l
    /\ (Z.of_nat (size (spendable_owners w from)) <= ALP_BLOCKCHAIN_MAX_SIGNAGTURE_NUM ->
        (Z.of_nat (size (spendable_owners w from)) - ALP_BLOCKCHAIN_FREESIGNATURE_LIMIT)
          * ALP_BLOCKCHAIN_EXTRA_SIGNATURE_FEE <= fee ->
        forall base s ignore_state, agrees w from to x fee base s -> timely s (entry_trx e) ->
        succeeds (evaluate_transaction (entry_trx e) ignore_state) (mkEvalContext new_evaluation_state s)
          (fun _ c => get_fees (ev c) 0 = fee)).
Proof.
  intros Hr Hx Hf Hmax Hfunds.
  destruct (transfer_run blockchain w text symbol from asset_rec x fee t to account (mkCommand w d) eq_refl Hr Hx Hf ltac:(lia) Hfunds)
    as (e & c' & Erun & _ & Et & l & ks & Hp & Hd & Hlen & Ho).
  exists e, c', l, ks. split; [exact Erun |]. split; [exact Et |]. split; [exact Hp |]. split; [exact Hd |].
  intros Hn Hsf base s ignore_state Ha Htime. pose proof (draw_owners_few w from _ l Hd) as Hfew. pose proof (drawn_total _ _ _ _ Hd) as Etot.
  replace fee with (total_of l - x) in * by lia.
  apply (payment_run base l to x ks); [exact Hp | exact Htime |]. split; try apply Ha; try exact Ho.
  - exact (drawn_held w from to x _ base s l _ (ready_order _ _ _ _ _ _ _ _ _ Hr) Ha Hd).
  - exact (drawn_ids w from 0 _ l (ready_order _ _ _ _ _ _ _ _ _ Hr) Hd).
  - lia.
  - lia.
  - lia.
  - unfold ALP_BLOCKCHAIN_FREESIGNATURE_LIMIT, ALP_BLOCKCHAIN_EXTRA_SIGNATURE_FEE in *. lia.
Qed.
End Acceptance.
