(* ===== verification/TransactionBuilder.v ===== *)
(** * The transaction builder

    wallet/TransactionBuilder.cpp and include/wallet/TransactionBuilder.hpp: a
    transaction of several accounts, what each of them owes it, and how the
    books are balanced, the fee paid and the transaction signed at the end. *)

From Stdlib Require Import ZArith Lia Bool String.
From stdpp Require Import base gmap strings list sorting.
From S2P Require Import Prelude Asset Entries Names Addresses ChainInterface ChainState ChainTables Queries.
From S2P Require Import EvalState PendingChainState WalletDb Wallet WalletFunds WalletCommands.

Local Open Scope Z_scope.

(** An account address and an asset *)
Abbreviation Owing := (Address * AssetIdType)%type.
Definition owing_le {A} (a b : Owing * A) : Prop :=
  fst (fst a) < fst (fst b) \/ (fst (fst a) = fst (fst b) /\ snd (fst a) <= snd (fst b)).
#[export] Instance owing_le_dec {A} : RelDecision (@owing_le A).
Proof. intros a b. unfold owing_le. apply _. Defined.
(** A std::map of owing, in its order *)
Definition owing_items {A} (m : gmap Owing A) : list (Owing * A) := merge_sort owing_le (map_to_list m).

(** The builder and the wallet it works on; its transaction is that of the
    entry. *)
Record TransactionBuilder := mkTransactionBuilder {
  _wimpl : Wallet;
  draft_entry : TransactionData;
  builder_signatures : gset Address;
  outstanding_balances : gmap Owing ShareType;
  order_keys : gmap Address PublicKeyType
}.
Definition builder_trx (b : TransactionBuilder) : SignedTransaction := entry_transaction (draft_entry b).
Definition set_wimpl x b := mkTransactionBuilder x (draft_entry b) (builder_signatures b) (outstanding_balances b) (order_keys b).
Definition set_draft_entry x b := mkTransactionBuilder (_wimpl b) x (builder_signatures b) (outstanding_balances b) (order_keys b).
Definition set_builder_signatures x b := mkTransactionBuilder (_wimpl b) (draft_entry b) x (outstanding_balances b) (order_keys b).
Definition set_outstanding x b := mkTransactionBuilder (_wimpl b) (draft_entry b) (builder_signatures b) x (order_keys b).
Definition set_order_keys x b := mkTransactionBuilder (_wimpl b) (draft_entry b) (builder_signatures b) (outstanding_balances b) x.
Definition set_entry_transaction trx (d : TransactionData) :=
  mkTransactionData (entry_id d) (entry_block_num d) (is_virtual d) (is_confirmed d) (is_market d) trx
    (ledger_entries d) (entry_fee d) (created_time d) (received_time d) (extra_addresses d).
Definition set_entry_fee fee (d : TransactionData) :=
  mkTransactionData (entry_id d) (entry_block_num d) (is_virtual d) (is_confirmed d) (is_market d) (entry_transaction d)
    (ledger_entries d) fee (created_time d) (received_time d) (extra_addresses d).
Definition add_ledger_entry e (d : TransactionData) :=
  mkTransactionData (entry_id d) (entry_block_num d) (is_virtual d) (is_confirmed d) (is_market d) (entry_transaction d)
    (ledger_entries d ++ [e]) (entry_fee d) (created_time d) (received_time d) (extra_addresses d).
Definition set_entry_times id t (d : TransactionData) :=
  mkTransactionData id (entry_block_num d) (is_virtual d) (is_confirmed d) (is_market d) (entry_transaction d)
    (ledger_entries d) (entry_fee d) t t (extra_addresses d).
Definition new_builder (w : Wallet) : TransactionBuilder :=
  mkTransactionBuilder w empty_transaction_data ∅ ∅ ∅.

(** A command of the wallet on the transaction of the builder *)
Definition as_command {A} (m : M Command A) : M TransactionBuilder A :=
  fun b => let (r, c) := m (mkCommand (_wimpl b) (mkDraft (builder_trx b) (builder_signatures b))) in
    (r, mkTransactionBuilder (the_wallet c) (set_entry_transaction (draft_trx (the_draft c)) (draft_entry b))
          (required_signatures (the_draft c)) (outstanding_balances b) (order_keys b)).
Definition build {A} (m : M SignedTransaction A) : M TransactionBuilder A := as_command (on_draft (on_trx m)).
Definition ask {A} (f : Wallet -> result A) : M TransactionBuilder A := b <- get ;; lift_result (f (_wimpl b)).
Definition on_entry (f : TransactionData -> TransactionData) : M TransactionBuilder unit :=
  modify (fun b => set_draft_entry (f (draft_entry b)) b).
Definition sign_for (a : Address) : M TransactionBuilder unit :=
  modify (fun b => set_builder_signatures ({[ a ]} ∪ builder_signatures b) b).

Section TransactionBuilder.
Context `{ChainParams} `{HashParams} `{WalletCrypto} `{WalletParams} `{Clock}.
Context {S : Type} `{ChainInterface S}.
Variable blockchain : S.
(** variant( fc::variant_object() ) *)
Variable empty_object : variant.
Abbreviation TB := (M TransactionBuilder).

(** ** Balances of the accounts *)

(** outstanding_balances[ ... ] += x, in 64 bits *)
Definition change_balance (account : Address) (id : AssetIdType) (x : ShareType) : TB unit :=
  modify (fun b => set_outstanding
    (<[(account, id) := wrap_i64 (default 0 (outstanding_balances b !! (account, id)) + x)]> (outstanding_balances b)) b).
Definition deduct_balance (account_to_charge : Address) (a : Asset) : TB unit :=
  fc_assert (0 <=? amount a) ;;; change_balance account_to_charge (asset_id a) (- amount a).
Definition credit_balance (account_to_credit : Address) (a : Asset) : TB unit :=
  fc_assert (0 <=? amount a) ;;; change_balance account_to_credit (asset_id a) (amount a).

Definition order_key_for_account (fuel : nat) (account_address : Address) (name : string) : TB PublicKeyType :=
  b <- get ;;
  match order_keys b !! account_address with
  | Some key => ret key
  | None =>
      key <- as_command (on_wallet (get_new_public_key fuel name)) ;;
      modify (fun b => set_order_keys (<[account_address := key]> (order_keys b)) b) ;;;
      ret key
  end.

(** ** Builder functions *)

Definition entry_from_to (from to : PublicKeyType) (memo : string) : LedgerEntry :=
  ledger_entry (Some from) (Some to) (mkAsset 0 0) memo.
Definition log_entry (e : LedgerEntry) : TB unit := on_entry (add_ledger_entry e).
Definition account_of (a : WalletAccountEntry) : AccountEntry := account_entry (account_data a).

(** Without an account to pay, the code reads an optional that is not set. *)
Definition build_register_account (name : string) (public_data : option variant) (owner_key' : PublicKeyType)
    (active_key' : option PublicKeyType) (delegate_pay : option Z) (meta_info : option AccountMetaInfo)
    (paying_account : option WalletAccountEntry) : TB unit :=
  match paying_account with
  | Some p => deduct_balance (owner_address (account_of p)) (mkAsset 0 0)
  | None => ret tt
  end ;;;
  build (trx_register_account name (default empty_object public_data) owner_key' (default owner_key' active_key')
           (default 255 delegate_pay) meta_info) ;;;
  p <- valid_or paying_account assert_exception ;;
  log_entry (entry_from_to (owner_key (account_of p)) owner_key' ("Register account: " +:+ name)).

(** authorize_update on a copy of the required signatures *)
Definition authorized_signatures (account : AccountEntry) (need_owner_key : bool) : TB (gset Address) :=
  b <- get ;;
  match authorize_update blockchain (_wimpl b) account need_owner_key (mkDraft (builder_trx b) (builder_signatures b)) with
  | (Ok _, d) => ret (required_signatures d)
  | (Err e, _) => throw e
  end.
(** The fee for a new pay rate, and who else has to sign for it *)
Definition charge_pay_rate (account : AccountEntry) (payer : WalletAccountEntry) (pay_rate : Z)
    (signatures : gset Address) : TB (gset Address) :=
  let paying := account_of payer in
  throw_if (negb (is_my_account (account_data payer))) unknown_account ;;;
  fee <- lift_result (get_delegate_registration_fee (ChainInterface.get_head_block_num blockchain) pay_rate) ;;
  pays <- (if is_delegate paying then
             pay <- lift_result (delegate_pay_balance paying) ;; ret (fee <=? pay)
           else ret false) ;;
  signatures <-
    (if pays : bool then
       build (trx_withdraw_pay (account_id paying) fee) ;;;
       active <- lift_result (active_address paying) ;;
       ret ({[ active ]} ∪ signatures)
     else deduct_balance (owner_address paying) (mkAsset fee 0) ;;; ret signatures) ;;
  on_entry (set_entry_fee (mkAsset fee 0)) ;;;
  log_entry (entry_from_to (owner_key paying) (owner_key account)
    (if is_delegate account then "Fee to update " +:+ account_name account +:+ "'s delegate pay"
     else "Fee to promote " +:+ account_name account +:+ " to a delegate")) ;;;
  ret signatures.
Definition update_account_registration (account : WalletAccountEntry) (public_data : option variant)
    (active_key' : option PublicKeyType) (delegate_pay : option Z) (paying_account : option WalletAccountEntry) : TB unit :=
  let a := account_of account in
  throw_if (account_registration_date a =? 0) unknown_account ;;;
  fc_assert (is_some public_data || is_some active_key' || is_some delegate_pay) ;;;
  signatures <- authorized_signatures a (is_some active_key') ;;
  let payer := default account paying_account in
  let from := owner_key (account_of payer) in
  deduct_balance (owner_address (account_of payer)) (mkAsset 0 0) ;;;
  signatures <-
    match delegate_pay with
    | Some pay_rate =>
        fc_assert (negb (is_delegate a) || (pay_rate <=? delegate_pay_rate a)) ;;;
        if (negb (is_delegate a) && (pay_rate <=? 100)) || (is_delegate a && negb (pay_rate =? delegate_pay_rate a))
        then charge_pay_rate a payer pay_rate signatures
        else ret signatures
    | None => ret signatures
    end ;;
  match active_key' with
  | Some key =>
      registered <- lift_result (get_account_entry_by_address blockchain (address_of_key key)) ;;
      throw_if (is_some registered) key_already_registered ;;;
      known <- ask (fun w => lookup_account (_wallet_db w) (address_of_key key)) ;;
      throw_if (is_some known) key_already_registered ;;;
      log_entry (entry_from_to from (owner_key a) ("Update " +:+ account_name a +:+ "'s active key"))
  | None => ret tt
  end ;;;
  build (trx_update_account (account_id a) (default (delegate_pay_rate a) delegate_pay) public_data active_key') ;;;
  when (is_some public_data)
    (log_entry (entry_from_to from (owner_key a) ("Update " +:+ account_name a +:+ "'s public data"))) ;;;
  modify (set_builder_signatures signatures).

Definition deposit_asset_to_address (payer : WalletAccountEntry) (to_addr : Address) (a : Asset) (memo : string) : TB unit :=
  let key := owner_key (account_of payer) in
  throw_if (amount a <=? 0) invalid_asset_amount ;;;
  build (trx_deposit to_addr a) ;;;
  deduct_balance (address_of_key key) a ;;;
  log_entry (ledger_entry (Some key) None a memo).
Definition deposit_asset_to_multisig (a : Asset) (from_name : string) (m : Z) (addresses : list Address) : TB unit :=
  throw_if (amount a <=? 0) invalid_asset_amount ;;;
  payer <- ask (fun w => lookup_account_by_name (_wallet_db w) from_name) ;;
  fee <- ask wallet_transaction_fee ;;
  payer <- valid_or payer assert_exception ;;
  let key := owner_key (account_of payer) in
  build (trx_deposit_multisig (mkMultisigMetaInfo m (list_to_set addresses)) a) ;;;
  total <- lift_result (asset_add a fee) ;;
  deduct_balance (address_of_key key) total ;;;
  log_entry (ledger_entry (Some key) None a "").
Definition update_signing_key (authorizing_account_name delegate_name : string) (signing_key : PublicKeyType) : TB unit :=
  authorizing <- ask (fun w => lookup_account_by_name (_wallet_db w) authorizing_account_name) ;;
  authorizing <- valid_or authorizing unknown_account ;;
  delegate <- lift_result (get_account_entry_by_name blockchain delegate_name) ;;
  delegate <- valid_or delegate unknown_account ;;
  build (trx_update_signing_key (account_id delegate) signing_key) ;;;
  deduct_balance (owner_address (account_of authorizing)) (mkAsset 0 0) ;;;
  active <- lift_result (active_key (account_of authorizing)) ;;
  log_entry (entry_from_to active (owner_key delegate) "update block signing key") ;;;
  sign_for (address_of_key active).
Definition deposit_to_balance (to : BalanceIdType) (a : Asset) : TB unit := build (trx_deposit to a).

(** ** The fee *)

Definition all_positive_balances (balances : gmap Owing ShareType) : gmap AssetIdType ShareType :=
  fold_left (fun m item => if 0 <? snd item
                           then <[snd (fst item) := wrap_i64 (default 0 (m !! snd (fst item)) + snd item)]> m else m)
    (owing_items balances) ∅.
(** The fee of the entry, which the fee of a registration is added to *)
Definition record_fee (fee : Asset) : TB unit :=
  b <- get ;;
  registration <- lift_result (get_delegate_registration_fee (ChainInterface.get_head_block_num blockchain) 100) ;;
  if amount (entry_fee (draft_entry b)) =? registration then
    sum <- lift_result (asset_add_assign (entry_fee (draft_entry b)) fee) ;; on_entry (set_entry_fee sum)
  else on_entry (set_entry_fee fee).
(** The first asset that pays the fee, which is recorded *)
Fixpoint choose_fee (available : list (AssetIdType * ShareType)) : TB (option Asset) :=
  match available with
  | [] => ret None
  | (id, balance) :: available' =>
      can <- ask (fun w => asset_can_pay_fee w id) ;;
      fee <- ask wallet_transaction_fee ;;
      if can && (amount fee <=? balance) then record_fee fee ;;; ret (Some fee)
      else choose_fee available'
  end.
(** The loop over the balances: Some when the fee is paid *)
Fixpoint eat_balances (id : AssetIdType) (required : ShareType) (items : list (Owing * ShareType))
    (balances : gmap Owing ShareType) : option (gmap Owing ShareType) * gmap Owing ShareType :=
  match items with
  | [] => (None, balances)
  | (owing, balance) :: items' =>
      if negb (snd owing =? id) then eat_balances id required items' balances
      else if balance <? required
      then eat_balances id (wrap_i64 (required - balance)) items' (<[owing := 0]> balances)
      else let balances := <[owing := wrap_i64 (balance - required)]> balances in (Some balances, balances)
  end.
(** The balance of an account that covers its fee *)
Fixpoint fee_from (items : list (AssetIdType * ShareType)) : TB (option Asset) :=
  match items with
  | [] => ret None
  | (id, balance) :: items' =>
      fee <- ask wallet_transaction_fee ;;
      if negb (asset_id fee =? id) then fee_from items'
      else
        more <- lift_result (asset_gt fee (mkAsset balance id)) ;;
        if more : bool then fee_from items' else ret (Some fee)
  end.
Fixpoint fee_from_accounts (balances : gmap string (gmap AssetIdType ShareType)) (items : list (Owing * ShareType))
    : TB bool :=
  match items with
  | [] => ret false
  | ((bag_holder, _), _) :: items' =>
      account_rec <- ask (fun w => lookup_account (_wallet_db w) bag_holder) ;;
      match account_rec ≫= (fun a => balances !! account_name (account_of a)) with
      | None => fee_from_accounts balances items'
      | Some account_balances =>
          fee <- fee_from (map_items account_balances) ;;
          match fee with
          | Some fee => deduct_balance bag_holder fee ;;; record_fee fee ;;; ret true
          | None => fee_from_accounts balances items'
          end
      end
  end.
Definition withdraw_fee : TB bool :=
  b <- get ;;
  balances <- ask (fun w => get_spendable_account_balances w "") ;;
  fee_from_accounts balances (owing_items (outstanding_balances b)).
(** A fee of an asset numbered -1 is none. *)
Definition pay_fee : TB unit :=
  b <- get ;;
  chosen <- choose_fee (map_items (all_positive_balances (outstanding_balances b))) ;;
  match chosen with
  | Some fee =>
      if negb (asset_id fee =? -1) then
        record_fee fee ;;;
        let (paid, balances) := eat_balances (asset_id fee) (amount fee) (owing_items (outstanding_balances b)) (outstanding_balances b) in
        modify (set_outstanding balances) ;;;
        throw_if (negb (is_some paid)) unspecified_exception
      else paid <- withdraw_fee ;; throw_if (negb paid) unspecified_exception
  | None => paid <- withdraw_fee ;; throw_if (negb paid) unspecified_exception
  end.

(** ** Finishing *)

(** Balances of an account the wallet does not know: the code reads an
    optional that is not set. *)
Definition settle_balance (fuel : nat) (item : Owing * ShareType) : TB unit :=
  let (account_address, id) := fst item in
  let balance := mkAsset (snd item) id in
  account <- ask (fun w => lookup_account (_wallet_db w) account_address) ;;
  account <- valid_or account assert_exception ;;
  let name := account_name (account_of account) in
  if 0 <? amount balance then
    key <- order_key_for_account fuel account_address name ;;
    build (trx_deposit (address_of_key key) balance)
  else when (amount balance <? 0)
    (b <- get ;; as_command (on_draft (withdraw_to_transaction (_wimpl b) (asset_neg balance) name))).
Definition finalize (fuel : nat) (pays_fee : bool) (strategy : VoteStrategy) : TB unit :=
  b <- get ;;
  fc_assert (negb (Nat.eqb (length (operations (builder_trx b))) 0)) ;;;
  when pays_fee pay_fee ;;;
  b <- get ;;
  forM (owing_items (outstanding_balances b)) (settle_balance fuel) ;;;
  b <- get ;;
  when (expiration (builder_trx b) =? 0)
    (t <- ask new_expiration ;; build (modify (set_expiration t))) ;;;
  as_command (set_delegate_slate blockchain strategy) ;;;
  on_entry (fun d => set_entry_times (trx_id (entry_transaction d)) blockchain_now d).
(** sign, on a best effort basis *)
Definition sign_with (addr : Address) : TB unit :=
  catch_all (key <- ask (fun w => get_private_key w addr) ;; build (trx_sign key get_chain_id)) (ret tt).
Definition sign : TB WalletTransactionEntry :=
  b <- get ;;
  forM (hash_set (builder_signatures b)) sign_with ;;;
  b <- get ;;
  ret (mkWalletTransactionEntry 0 (draft_entry b)).
Definition is_signed (b : TransactionBuilder) : bool :=
  Nat.eqb (size (builder_signatures b)) (length (signatures (builder_trx b))).
End TransactionBuilder.

Section Balances.
Context `{ChainParams} `{WalletCrypto} `{WalletParams} `{Clock}.
Variable blockchain : ChainTables.

Definition withdraw_and_sign (balance : BalanceEntry) (from : BalanceIdType) (n : ShareType) : M TransactionBuilder unit :=
  build (trx_withdraw from n) ;;;
  owners <- lift_result (condition_owners (condition balance)) ;;
  forM (merge_sort Z.le (elements owners)) sign_for.
(** An id that no balance has is taken for the address of an owner. *)
Definition withdraw_from_balance (from : BalanceIdType) (n : ShareType) : M TransactionBuilder unit :=
  match get_balance_entry blockchain from with
  | Some balance => withdraw_and_sign balance from n
  | None =>
      balances <- lift_result (get_balances_for_address blockchain from) ;;
      fc_assert (negb (size balances =? 0)%nat) ;;;
      match hash_order balances with
      | (_, balance) :: _ => withdraw_and_sign balance (balance_id balance) n
      | [] => throw assert_exception
      end
  end.
End Balances.
