(* ===== verification/BuilderBooks.v ===== *)
(** * The books of the transaction builder

    What a finished transaction takes in, less what it pays out, is the fee,
    whatever the accounts owed to it before. *)

From Stdlib Require Import ZArith Lia Bool String.
From stdpp Require Import base gmap strings list sorting.
From S2P Require Import Prelude Asset Entries Names Addresses ChainInterface ChainState ChainTables.
From S2P Require Import EvalState PendingChainState WalletDb Wallet WalletFunds WalletCommands TransactionBuilder.

Local Open Scope Z_scope.

(** ** Congruence modulo 2^64 *)

Definition turns (x y : Z) : Prop := exists k, x = y + k * 2 ^ 64.
#[local] Infix "≈" := turns (at level 70).
#[export] Instance turns_equivalence : Equivalence turns.
Proof.
  split.
  - intros x. exists 0. lia.
  - intros x y (k & ->). exists (- k). lia.
  - intros x y z (k & ->) (k' & ->). exists (k + k'). lia.
Qed.
#[export] Instance turns_add : Proper (turns ==> turns ==> turns) Z.add.
Proof. intros x y (k & ->) x' y' (k' & ->). exists (k + k'). lia. Qed.
#[export] Instance turns_opp : Proper (turns ==> turns) Z.opp.
Proof. intros x y (k & ->). exists (- k). lia. Qed.
#[export] Instance turns_sub : Proper (turns ==> turns ==> turns) Z.sub.
Proof. intros x y (k & ->) x' y' (k' & ->). exists (k - k'). lia. Qed.
Lemma turns_wrap x : wrap_i64 x ≈ x.
Proof. apply wrap_i64_turns. Qed.
Lemma turns_eq x y : x = y -> x ≈ y.
Proof. now intros ->. Qed.

(** ** What a transaction takes in and pays out *)

Definition asset_at (w : Wallet) (id : BalanceIdType) : option AssetIdType :=
  option_map (fun e => cond_asset_id (condition e)) (_balance_entrys w !! id).
(** Withdrawals from balances the wallet knows less deposits, of one asset *)
Definition op_net (w : Wallet) (a : AssetIdType) (op : Operation) : Z :=
  match op with
  | OpWithdraw o => if bool_decide (asset_at w (wd_balance_id o) = Some a) then wd_amount o else 0
  | OpDeposit o => if cond_asset_id (dep_condition o) =? a then - dep_amount o else 0
  | _ => 0
  end.
Definition net (w : Wallet) (a : AssetIdType) (trx : SignedTransaction) : Z :=
  foldr (fun op n => op_net w a op + n) 0 (operations trx).
(** What all accounts are owed in an asset *)
Definition owed (a : AssetIdType) (items : list (Owing * ShareType)) : Z :=
  foldr (fun item n => (if snd (fst item) =? a then snd item else 0) + n) 0 items.
Definition outstanding (a : AssetIdType) (b : TransactionBuilder) : Z := owed a (map_to_list (outstanding_balances b)).
Definition of_asset (a id : AssetIdType) (n : Z) : Z := if id =? a then n else 0.

Implicit Types (a id : AssetIdType) (w : Wallet) (n : Z).

Lemma net_push w a op trx : net w a (push_operation op trx) = net w a trx + op_net w a op.
Proof.
  unfold net, push_operation. cbn. induction (operations trx) as [| x l IH]; cbn; [lia |]. rewrite IH. lia.
Qed.
Lemma owed_perm a l l' : l ≡ₚ l' -> owed a l = owed a l'.
Proof. unfold owed. induction 1; cbn [foldr] in *; lia. Qed.
Lemma owed_items a (m : gmap Owing ShareType) : owed a (owing_items m) = owed a (map_to_list m).
Proof. apply owed_perm, merge_sort_Permutation. Qed.
Lemma owed_insert_new a (m : gmap Owing ShareType) k v : m !! k = None ->
  owed a (map_to_list (<[k := v]> m)) = of_asset a (snd k) v + owed a (map_to_list m).
Proof. intros Hn. rewrite (owed_perm a _ _ (map_to_list_insert m k v Hn)). reflexivity. Qed.
Lemma owed_insert a (m : gmap Owing ShareType) k v :
  owed a (map_to_list (<[k := v]> m)) = owed a (map_to_list m) + of_asset a (snd k) (v - default 0 (m !! k)).
Proof.
  destruct (m !! k) as [v' |] eqn:E; cbn.
  - rewrite <- (insert_delete_eq m k v). rewrite <- (insert_delete_id m k v' E) at 2.
    rewrite !owed_insert_new by apply lookup_delete_eq. unfold of_asset. destruct (snd k =? a); lia.
  - rewrite owed_insert_new by exact E. unfold of_asset. destruct (snd k =? a); lia.
Qed.

(** ** Draws *)

Section Books.
Context `{ChainParams} `{HashParams} `{WalletCrypto} `{WalletParams} `{!WalletParamsLaws} `{Clock}.
Context {S : Type} `{ChainInterface S}.
Variable blockchain : S.

Definition filed (w : Wallet) : Prop := forall i e, _balance_entrys w !! i = Some e -> balance_id e = i.
(** The balance [e] of the wallet is drawn from in the asset it is of. *)
Definition known (w : Wallet) (e : BalanceEntry) : Prop :=
  asset_at w (balance_id e) = Some (asset_id (get_spendable_balance e)).

Lemma spendable_known w name m : filed w -> forall items (r : result (gmap string (list BalanceEntry))),
  (forall x, x ∈ items -> _balance_entrys w !! fst x = Some (snd x)) ->
  (forall m0 k es, r = Ok m0 -> m0 !! k = Some es -> Forall (known w) es) ->
  fold_left (add_spendable w name) items r = Ok m -> forall k es, m !! k = Some es -> Forall (known w) es.
Proof.
  intros Hf. induction items as [| [i e] items IH]; intros r Hi Hr Hm k es Hes.
  - exact (Hr m k es Hm Hes).
  - cbn [fold_left] in Hm. refine (IH _ _ _ Hm k es Hes); [intros x Hx; apply Hi, elem_of_cons; now right |].
    intros m1 k' es' E. unfold add_spendable in E. apply result_bind_Ok in E as (m0 & -> & E).
    apply result_bind_Ok in E as (found & Ef & E). injection E as <-. cbn [snd] in *.
    destruct found as [name' |]; [| apply (Hr m0); reflexivity].
    intros [[<- <-] | [_ E']]%lookup_insert_Some; [| exact (Hr m0 k' es' eq_refl E')].
    apply Forall_app. split.
    + destruct (m0 !! name') as [l |] eqn:El; [exact (Hr m0 name' l eq_refl El) | constructor].
    + apply Forall_singleton. pose proof (Hi (i, e) (list_elem_of_here _ _)) as Ei. cbn in Ei.
      unfold known, asset_at. rewrite (Hf i e Ei), Ei. cbn. unfold spendable_by in Ef.
      unfold get_spendable_balance. destruct (Z.eqb_spec (cond_type (condition e)) withdraw_signature_type) as [-> |]; [reflexivity | discriminate].
Qed.

Abbreviation spend := (fun id n owner => on_trx (trx_withdraw id n) ;;; require_signature owner).
Lemma spend_net w id n owner d d' : spend id n owner d = (Ok tt, d') -> forall a,
  net w a (draft_trx d') = net w a (draft_trx d) + (if bool_decide (asset_at w id = Some a) then n else 0).
Proof.
  intros R a. unfold on_trx, trx_withdraw, require_signature, bind, fc_assert in R.
  destruct (0 <? n); [| discriminate]. injection R as <-. cbn [draft_trx]. now rewrite net_push.
Qed.
Lemma draws_net w es : Forall (known w) es -> forall n id d d', draw_balances spend es (mkAsset n id) d = (Ok tt, d') ->
  forall a, net w a (draft_trx d') = net w a (draft_trx d) + of_asset a id n.
Proof.
  induction es as [| e es IH]; intros Hk n id d d' R a; [discriminate |].
  apply Forall_cons in Hk as [He Hk]. cbn [draw_balances] in R.
  destruct ((amount (get_spendable_balance e) <=? 0) || _) eqn:Eskip; [exact (IH Hk _ _ _ _ R a) |].
  apply orb_false_iff in Eskip as [_ Eid%negb_false_iff%Z.eqb_eq]. cbn [asset_id] in Eid. unfold known in He. rewrite Eid in He.
  apply bind_Ok in R as (o & d1 & R1 & R). apply lift_result_Ok in R1 as [_ <-].
  destruct o as [owner |]; [| exact (IH Hk _ _ _ _ R a)]. cbn [amount] in R.
  destruct (amount (get_spendable_balance e) <? n).
  - apply bind_Ok in R as ([] & d2 & R1 & R). apply bind_Ok in R as (rest & d3 & R2 & R). apply lift_result_Ok in R2 as [R2 <-].
    destruct (get_spendable_balance e) as [m i]. cbn [amount asset_id] in *. subst i.
    unfold asset_sub_assign in R2. rewrite Z.eqb_refl in R2. cbn [negb amount asset_id] in R2.
    destruct (_ || _); [discriminate |]. injection R2 as <-.
    rewrite (IH Hk _ _ _ _ R a), (spend_net w _ _ _ _ _ R1 a), He. unfold of_asset.
    destruct (Z.eqb_spec id a) as [-> | Hne]; [rewrite bool_decide_eq_true_2 by reflexivity; lia |].
    rewrite bool_decide_eq_false_2 by congruence. lia.
  - rewrite (spend_net w _ _ _ _ _ R a), He. unfold of_asset.
    destruct (Z.eqb_spec id a) as [-> | Hne]; [now rewrite bool_decide_eq_true_2 | now rewrite bool_decide_eq_false_2 by congruence].
Qed.
Lemma withdraw_net w x name d d' : filed w -> withdraw_to_transaction w x name d = (Ok tt, d') -> forall a,
  net w a (draft_trx d') = net w a (draft_trx d) + of_asset a (asset_id x) (amount x).
Proof.
  intros Hf R a. unfold withdraw_to_transaction, draw_from_account in R. run_inv R.
  destruct (a1 !! name) as [es |] eqn:Ees; [| discriminate]. destruct x as [n id]. cbn.
  refine (draws_net w es _ n id _ _ R2 a). unfold get_spendable_account_balance_entrys in R.
  eapply (spendable_known w name a1 Hf _ (Ok ∅)); [| | exact R | exact Ees].
  - intros [i e] Hx. rewrite hash_order_all in Hx. now apply elem_of_map_to_list in Hx.
  - intros m0 k es' [= <-]. now rewrite lookup_empty.
Qed.

(** ** What does not touch the balances *)

Definition same_funds (w w' : Wallet) : Prop := _balance_entrys w' = _balance_entrys w.
#[local] Instance same_funds_preorder : PreOrder same_funds.
Proof. split; unfold same_funds; congruence. Qed.
Lemma funds_on_db {A} (m : M WalletDb A) : along same_funds (on_db m).
Proof. intros w r w' E. unfold on_db in E. destruct (m (_wallet_db w)). injection E as _ <-. reflexivity. Qed.
Lemma funds_get : along same_funds Prelude.get.
Proof. intros w r w' [= _ <-]. reflexivity. Qed.
Lemma funds_view {A} (f : Wallet -> result A) : along same_funds (view_wallet f).
Proof. apply along_bind; [exact _ | apply funds_get | intros; apply along_lift; exact _]. Qed.
Lemma funds_assert b : along same_funds (fc_assert b).
Proof. destruct b; [apply along_ret | apply along_throw]; exact _. Qed.
Lemma funds_throw_if b e : along same_funds (throw_if b e).
Proof. destruct b; [apply along_throw | apply along_ret]; exact _. Qed.
Lemma funds_valid {A} (o : option A) e : along same_funds (valid_or o e).
Proof. destruct o; [apply along_ret | apply along_throw]; exact _. Qed.
#[local] Hint Resolve same_funds_preorder funds_on_db funds_get funds_view funds_assert funds_throw_if funds_valid : keeping.

Local Ltac along_steps := repeat first
  [apply along_bind; [exact _ | | intros] | progress (eauto 3 with keeping)
  | match goal with |- along _ (match ?x with _ => _ end) => destruct x end].

Lemma funds_new_key fuel name : along same_funds (get_new_public_key fuel name).
Proof. unfold get_new_public_key, get_new_private_key. along_steps. Qed.
Lemma funds_contact name key data : along same_funds (add_contact_account blockchain name key data).
Proof. unfold add_contact_account, refresh_contact. along_steps. Qed.
#[local] Hint Resolve funds_contact : keeping.
Lemma funds_approval calls : forall name approval, along same_funds (set_account_approval_calls blockchain calls name approval).
Proof. induction calls; intros; cbn [set_account_approval_calls]; along_steps. Qed.
Lemma funds_tally candidates : forall ranks, along same_funds (tally blockchain candidates ranks).
Proof.
  induction candidates as [| id candidates IH]; intros ranks; cbn [tally]; [apply along_ret; exact _ |].
  apply along_bind; [exact _ | apply along_lift; exact _ |]. intros [].
  - apply IH.
  - apply along_bind; [exact _ | apply funds_approval | intros; apply IH].
  - apply IH.
Qed.
Lemma funds_slate strategy : along same_funds (get_delegate_slate blockchain strategy).
Proof.
  unfold get_delegate_slate, recommend. pose proof funds_tally. destruct strategy; along_steps.
Qed.

(** ** Steps of the builder *)

(** The transaction takes in [f a] more of every asset [a]. *)
Record moved (f : AssetIdType -> Z) (b b' : TransactionBuilder) : Prop := {
  moved_funds : same_funds (_wimpl b) (_wimpl b');
  moved_owed : outstanding_balances b' = outstanding_balances b;
  moved_net a : net (_wimpl b) a (builder_trx b') ≈ net (_wimpl b) a (builder_trx b) + f a
}.
Definition still : AssetIdType -> Z := fun _ => 0.
Lemma net_funds w w' a trx : same_funds w w' -> net w' a trx = net w a trx.
Proof. intros E. unfold net, op_net, asset_at. now rewrite E. Qed.
Lemma moved_trans f g b1 b2 b3 : moved f b1 b2 -> moved g b2 b3 -> moved (fun a => f a + g a) b1 b3.
Proof.
  intros [F1 O1 N1] [F2 O2 N2]. split; [etransitivity; eassumption | congruence |].
  intros a. pose proof (N2 a) as N2'. rewrite !(net_funds _ _ a _ F1) in N2'. rewrite N2', (N1 a). apply turns_eq. lia.
Qed.
Lemma moved_as f g b b' : moved f b b' -> (forall a, f a ≈ g a) -> moved g b b'.
Proof. intros [F O N] E. split; [exact F | exact O |]. intros a. now rewrite (N a), (E a). Qed.
Lemma moved_still b b' : same_funds (_wimpl b) (_wimpl b') -> outstanding_balances b' = outstanding_balances b ->
  operations (builder_trx b') = operations (builder_trx b) -> moved still b b'.
Proof. intros F O E. split; [exact F | exact O |]. intros a. unfold net. rewrite E. apply turns_eq. unfold still. lia. Qed.

Lemma as_command_Ok {A} (m : M Command A) b x b' : as_command m b = (Ok x, b') ->
  exists c, m (mkCommand (_wimpl b) (mkDraft (builder_trx b) (builder_signatures b))) = (Ok x, c)
    /\ builder_trx b' = draft_trx (the_draft c) /\ _wimpl b' = the_wallet c
    /\ outstanding_balances b' = outstanding_balances b.
Proof. unfold as_command. destruct (m _) as [r c]. intros [= -> <-]. now exists c. Qed.
Lemma build_moved {A} (m : M SignedTransaction A) b x b' f : build m b = (Ok x, b') ->
  (forall t t', m t = (Ok x, t') -> forall a, net (_wimpl b) a t' = net (_wimpl b) a t + f a) -> moved f b b'.
Proof.
  intros R Hm. apply as_command_Ok in R as (c & R & Et & Ew & Eo). unfold on_draft, on_trx in R. cbn in R.
  destruct (m (builder_trx b)) as [r t] eqn:Em. injection R as -> <-. cbn in Et, Ew.
  split; [now rewrite Ew | exact Eo |]. intros a. rewrite Et. apply turns_eq. exact (Hm _ _ Em a).
Qed.
Lemma wallet_moved {A} (m : M Wallet A) b x b' : along same_funds m -> as_command (on_wallet m) b = (Ok x, b') -> moved still b b'.
Proof.
  intros Hm R. apply as_command_Ok in R as (c & R & Et & Ew & Eo). unfold on_wallet in R. cbn in R.
  destruct (m (_wimpl b)) as [r w] eqn:Em. injection R as -> <-. cbn in Et, Ew.
  apply moved_still; [rewrite Ew; exact (Hm _ _ _ Em) | exact Eo | now rewrite Et].
Qed.
Lemma deposit_moved addr n id b x b' : build (trx_deposit addr (mkAsset n id)) b = (Ok x, b') ->
  moved (fun a => - of_asset a id n) b b'.
Proof.
  intros R. eapply build_moved; [exact R |]. intros t t' E a. unfold trx_deposit, bind, fc_assert in E. cbn in E.
  destruct (0 <? n); [| discriminate]. injection E as _ <-. rewrite net_push. cbn. unfold of_asset. destruct (id =? a); lia.
Qed.
Lemma ask_Ok {A} (f : Wallet -> result A) b x b' : ask f b = (Ok x, b') <-> f (_wimpl b) = Ok x /\ b' = b.
Proof. unfold ask, bind, Prelude.get, lift_result. split; [intros [= -> <-]; auto | intros [-> ->]; reflexivity]. Qed.

Lemma get_step {T B} (k : T -> M T B) s : bind Prelude.get k s = k s s.
Proof. reflexivity. Qed.

Lemma order_key_moved fuel addr name b x b' : order_key_for_account fuel addr name b = (Ok x, b') -> moved still b b'.
Proof.
  intros R. unfold order_key_for_account in R. rewrite get_step in R.
  destruct (order_keys b !! addr) as [k |]; [apply ret_Ok in R as [_ ->]; now apply moved_still |].
  run_inv R. apply (wallet_moved _ _ _ _ (funds_new_key fuel name)) in R0.
  destruct R0 as [F O N]. now split.
Qed.
Lemma settle_moved fuel item b x b' : filed (_wimpl b) -> settle_balance fuel item b = (Ok x, b') ->
  moved (fun a => - of_asset a (snd (fst item)) (snd item)) b b'.
Proof.
  intros Hf R. destruct item as [[addr id] v]. unfold settle_balance in R. cbn [fst snd amount asset_id] in *.
  run_inv R. apply ask_Ok in R0 as [_ ->]. destruct (Z.ltb_spec 0 v).
  - run_inv R2. apply order_key_moved in R. apply deposit_moved in R0.
    eapply moved_as; [exact (moved_trans _ _ _ _ _ R R0) | intros a'; reflexivity].
  - destruct (Z.ltb_spec v 0); cbn [when] in R2.
    + run_inv R2. apply as_command_Ok in R0 as (c & R0 & Et & Ew & Eo). unfold on_draft in R0. cbn in R0.
      destruct (withdraw_to_transaction _ _ _ _) as [r d] eqn:Ed in R0. injection R0 as -> <-. cbn in Et, Ew.
      destruct x. split; [now rewrite Ew | exact Eo |]. intros a'. rewrite Et, (withdraw_net _ _ _ _ _ Hf Ed a'). cbn.
      apply turns_add; [reflexivity |]. unfold of_asset. destruct (id =? a'); [apply turns_wrap | reflexivity].
    + apply ret_Ok in R2 as [_ ->]. eapply moved_as; [now apply moved_still |]. intros a'. unfold of_asset, still.
      replace v with 0 by lia. destruct (id =? a'); reflexivity.
Qed.
Lemma filed_funds w w' : same_funds w w' -> filed w -> filed w'.
Proof. unfold filed. now intros ->. Qed.
Lemma settle_all_moved fuel items : forall b x b', filed (_wimpl b) -> forM items (settle_balance fuel) b = (Ok x, b') ->
  moved (fun a => - owed a items) b b'.
Proof.
  induction items as [| item items IH]; intros b x b' Hf R.
  - apply ret_Ok in R as [_ ->]. now apply moved_still.
  - cbn [for_each] in R. apply bind_Ok in R as (u & b1 & R1 & R). apply settle_moved in R1; [| exact Hf].
    apply IH in R; [| exact (filed_funds _ _ (moved_funds _ _ _ R1) Hf)].
    eapply moved_as; [exact (moved_trans _ _ _ _ _ R1 R) |]. intros a. apply turns_eq. cbn. unfold of_asset. fold (owed a items).
    destruct (snd (fst item) =? a); lia.
Qed.

(** ** The fee *)

(** The wallet, the transaction and the balances stay. *)
Definition keeps_books (b b' : TransactionBuilder) : Prop :=
  _wimpl b' = _wimpl b /\ builder_trx b' = builder_trx b /\ outstanding_balances b' = outstanding_balances b.
#[local] Instance keeps_books_preorder : PreOrder keeps_books.
Proof. split; [easy |]. intros b1 b2 b3 (? & ? & ?) (? & ? & ?). repeat split; congruence. Qed.
Lemma record_same fee : along keeps_books (record_fee blockchain fee).
Proof.
  intros b r b'. unfold record_fee. rewrite get_step. unfold bind, lift_result, on_entry, modify.
  repeat match goal with |- context [match ?x with _ => _ end] => destruct x end; intros [= _ <-]; now repeat split.
Qed.
(** [fee] was paid by the accounts, and nothing else was done. *)
Record fee_paid (fee : Asset) (b b' : TransactionBuilder) : Prop := {
  paid_wallet : _wimpl b' = _wimpl b;
  paid_trx : builder_trx b' = builder_trx b;
  paid_known : wallet_transaction_fee (_wimpl b) = Ok fee;
  paid_owed a : outstanding a b' ≈ outstanding a b - of_asset a (asset_id fee) (amount fee)
}.

Lemma choose_fee_Ok items : forall b chosen b', choose_fee blockchain items b = (Ok chosen, b') ->
  keeps_books b b' /\ forall fee, chosen = Some fee -> wallet_transaction_fee (_wimpl b) = Ok fee.
Proof.
  induction items as [| [id v] items IH]; intros b chosen b' R; cbn [choose_fee] in R.
  - apply ret_Ok in R as [<- <-]. now split.
  - run_inv R. apply ask_Ok in R0 as [_ ->]. apply ask_Ok in R as [Ef ->].
    destruct (_ && _); [| now apply IH]. run_inv R2. apply record_same in R. split; [exact R |]. now intros fee [= <-].
Qed.

Lemma eat_owed id items : forall required m m' m'', NoDup (map fst items) -> (forall k v, (k, v) ∈ items -> m !! k = Some v) ->
  eat_balances id required items m = (Some m', m'') ->
  m'' = m' /\ forall a, owed a (map_to_list m') ≈ owed a (map_to_list m) - of_asset a id required.
Proof.
  induction items as [| [k v] items IH]; intros required m m' m'' Hnd Hm R; [discriminate |]. cbn [eat_balances] in R.
  apply NoDup_cons in Hnd as [Hk Hnd]. cbn [fst] in Hk.
  assert (forall k' v' x, (k', v') ∈ items -> <[k := x]> m !! k' = Some v') as Hm'.
  { intros k' v' x Hin. rewrite lookup_insert_ne; [apply Hm, elem_of_cons; now right |]. intros ->.
    apply Hk. now apply (list_elem_of_fmap_2 fst _ (k', v')). }
  pose proof (Hm k v (list_elem_of_here _ _)) as Ek. destruct (Z.eqb_spec (snd k) id) as [<- | Hne]; cbn [negb] in R.
  2: { exact (IH required m m' m'' Hnd (fun k' v' Hin => Hm k' v' (proj2 (elem_of_cons _ _ _) (or_intror Hin))) R). }
  destruct (v <? required).
  - destruct (IH _ _ m' m'' Hnd (fun k' v' => Hm' k' v' 0) R) as [-> E]. split; [reflexivity |]. intros a.
    rewrite (E a), owed_insert, Ek. cbn. unfold of_asset. destruct (snd k =? a); [rewrite turns_wrap |]; apply turns_eq; lia.
  - injection R as <- <-. split; [reflexivity |]. intros a. rewrite owed_insert, Ek. cbn. unfold of_asset.
    destruct (snd k =? a); [rewrite turns_wrap |]; apply turns_eq; lia.
Qed.
Lemma owing_items_nodup (m : gmap Owing ShareType) : NoDup (map fst (owing_items m)).
Proof. unfold owing_items. rewrite (merge_sort_Permutation owing_le (map_to_list m)). apply NoDup_fst_map_to_list. Qed.
Lemma owing_items_in (m : gmap Owing ShareType) k v : (k, v) ∈ owing_items m -> m !! k = Some v.
Proof. unfold owing_items. rewrite (merge_sort_Permutation owing_le (map_to_list m)). apply elem_of_map_to_list. Qed.

Lemma fee_from_Ok items : forall b chosen b', fee_from items b = (Ok chosen, b') ->
  b' = b /\ forall fee, chosen = Some fee -> wallet_transaction_fee (_wimpl b) = Ok fee.
Proof.
  induction items as [| [id v] items IH]; intros b chosen b' R; cbn [fee_from] in R.
  - apply ret_Ok in R as [<- <-]. now split.
  - run_inv R. apply ask_Ok in R0 as [Ef ->]. destruct (negb (asset_id a =? id)); [now apply IH |].
    apply bind_Ok in R1 as (more & b1 & R1 & R). apply lift_result_Ok in R1 as [_ <-]. destruct more; [now apply IH |].
    apply ret_Ok in R as [<- <-]. split; [reflexivity |]. now intros fee [= <-].
Qed.
Lemma deduct_owed addr x b u b' : deduct_balance addr x b = (Ok u, b') ->
  _wimpl b' = _wimpl b /\ builder_trx b' = builder_trx b
  /\ forall a, outstanding a b' ≈ outstanding a b - of_asset a (asset_id x) (amount x).
Proof.
  intros R. unfold deduct_balance, change_balance in R. run_inv R. split; [reflexivity |]. split; [reflexivity |].
  intros i. unfold outstanding. cbn [outstanding_balances set_outstanding]. rewrite owed_insert. cbn [snd]. unfold of_asset.
  destruct (asset_id x =? i); [rewrite turns_wrap |]; apply turns_eq; lia.
Qed.
Lemma fee_from_accounts_Ok balances items : forall b b', fee_from_accounts blockchain balances items b = (Ok true, b') ->
  exists fee, fee_paid fee b b'.
Proof.
  induction items as [| [[addr id] v] items IH]; intros b b' R; cbn [fee_from_accounts] in R; [discriminate |].
  apply bind_Ok in R as (acct & b1 & R1 & R). apply ask_Ok in R1 as [_ ->].
  destruct (_ ≫= _) as [account_balances |]; [| now apply IH].
  apply bind_Ok in R as (chosen & b1 & R1 & R). apply fee_from_Ok in R1 as [-> Hfee].
  destruct chosen as [fee |]; [| now apply IH]. run_inv R. apply deduct_owed in R0 as (Ew & Et & Eo).
  apply record_same in R as (Ew' & Et' & Eo'). exists fee. split; [congruence | congruence | now apply Hfee |].
  intros i. unfold outstanding at 1. rewrite Eo'. apply Eo.
Qed.
Lemma withdraw_fee_Ok b b' : withdraw_fee blockchain b = (Ok true, b') -> exists fee, fee_paid fee b b'.
Proof.
  intros R. unfold withdraw_fee in R. rewrite get_step in R. apply bind_Ok in R as (l & b1 & R1 & R).
  apply ask_Ok in R1 as [_ ->]. now apply fee_from_accounts_Ok in R.
Qed.
Lemma pay_fee_Ok b b' : pay_fee blockchain b = (Ok tt, b') -> exists fee, fee_paid fee b b'.
Proof.
  intros R. unfold pay_fee in R. rewrite get_step in R. apply bind_Ok in R as (chosen & b1 & R1 & R).
  apply choose_fee_Ok in R1 as [(Ew & Et & Eo) Hfee].
  assert (forall b2, (paid <- withdraw_fee blockchain ;; throw_if (negb paid) unspecified_exception) b1 = (Ok tt, b2) ->
    exists fee, fee_paid fee b b2) as Hw.
  { intros b2 R2. run_inv R2. to_prop. subst. apply withdraw_fee_Ok in R0 as (fee & [P1 P2 P3 P4]). exists fee.
    split; [congruence | congruence | now rewrite <- Ew |]. intros a. rewrite (P4 a). unfold outstanding. now rewrite Eo. }
  destruct chosen as [fee |]; [| now apply Hw]. destruct (negb (asset_id fee =? -1)); [| now apply Hw].
  apply bind_Ok in R as (u & b2 & R1 & R). apply record_same in R1 as (Ew2 & Et2 & Eo2).
  destruct (eat_balances _ _ _ _) as [paid balances] eqn:Ee. run_inv R. to_prop. destruct paid as [m' |]; [| discriminate].
  apply eat_owed in Ee as [-> Hm]; [| apply owing_items_nodup | apply owing_items_in].
  exists fee. split; [cbn; congruence | | now apply Hfee |].
  - unfold builder_trx in *. cbn. congruence.
  - intros i. unfold outstanding. cbn [outstanding_balances set_outstanding]. apply Hm.
Qed.

(** ** Finishing *)

Lemma net_slates w a id trx : foldr (fun op n => op_net w a op + n) 0 (map (with_slate id) (operations trx)) = net w a trx.
Proof.
  unfold net. induction (operations trx) as [| op l IH]; [reflexivity |]. cbn. rewrite IH. f_equal.
  destruct op as [o | o | | | | | | | | | | o | | | | | | | | | | | | | | | | |]; try reflexivity. cbn.
  destruct (Z.eqb_spec (cond_asset_id (dep_condition o)) 0); reflexivity.
Qed.
(** A command that takes in and pays out nothing *)
Definition idles (c c' : Command) : Prop := same_funds (the_wallet c) (the_wallet c')
  /\ forall a, net (the_wallet c) a (draft_trx (the_draft c')) = net (the_wallet c) a (draft_trx (the_draft c)).
#[local] Instance idle_preorder : PreOrder idles.
Proof.
  split; [now split |]. intros c1 c2 c3 [F1 N1] [F2 N2]. split; [etransitivity; eassumption |].
  intros a. rewrite <- (N1 a). rewrite <- !(net_funds _ _ a _ F1). apply N2.
Qed.
Lemma idle_wallet {A} (m : M Wallet A) : along same_funds m -> along idles (on_wallet m).
Proof.
  intros Hm c r c' R. unfold on_wallet in R. destruct (m (the_wallet c)) as [x w] eqn:E. injection R as _ <-.
  split; [exact (Hm _ _ _ E) | reflexivity].
Qed.
Lemma idle_trx (f : SignedTransaction -> SignedTransaction) : (forall w a trx, net w a (f trx) = net w a trx) ->
  along idles (on_draft (on_trx (modify f))).
Proof. intros Hf c r c' [= _ <-]. split; [reflexivity | intros a; apply Hf]. Qed.
Lemma idle_slate strategy : along idles (set_delegate_slate blockchain strategy).
Proof.
  unfold set_delegate_slate. destruct strategy; [apply along_ret; exact _ | ..];
    (apply along_bind; [exact _ | apply idle_wallet, funds_slate |]); intros entry; (destruct (slate_id entry =? 0); [apply along_ret; exact _ |]);
    (apply along_bind; [exact _ | apply along_when; [exact _ |]; apply idle_trx; reflexivity |]); intros _;
    (apply along_bind; [exact _ | apply idle_trx; intros; apply net_slates | intros; apply along_ret; exact _]).
Qed.
Lemma slate_moved strategy b x b' : as_command (set_delegate_slate blockchain strategy) b = (Ok x, b') -> moved still b b'.
Proof.
  intros R. apply as_command_Ok in R as (c & R & Et & Ew & Eo). apply idle_slate in R as [F N]. cbn in F, N.
  split; [now rewrite Ew | exact Eo |]. intros a. rewrite Et, (N a). apply turns_eq. unfold still. lia.
Qed.

(** What the transaction takes in and pays out, and what it still owes *)
Definition trx_surplus (a : AssetIdType) (b : TransactionBuilder) : Z := net (_wimpl b) a (builder_trx b) - outstanding a b.
Definition fee_of (pays_fee : bool) (w : Wallet) (fee : Asset) : Prop :=
  if pays_fee then wallet_transaction_fee w = Ok fee else fee = mkAsset 0 0.

Lemma finalize_net fuel pays_fee strategy b b' : filed (_wimpl b) -> finalize blockchain fuel pays_fee strategy b = (Ok tt, b') ->
  exists fee, fee_of pays_fee (_wimpl b) fee
    /\ forall a, net (_wimpl b) a (builder_trx b') ≈ trx_surplus a b + of_asset a (asset_id fee) (amount fee).
Proof.
  intros Hf R. unfold finalize in R. rewrite get_step in R. apply bind_Ok in R as (u & b0 & R0 & R). apply fc_assert_Ok in R0 as [_ <-].
  apply bind_Ok in R as ([] & b1 & R1 & R). rewrite get_step in R.
  assert (exists fee, fee_of pays_fee (_wimpl b) fee /\ _wimpl b1 = _wimpl b /\ builder_trx b1 = builder_trx b
    /\ forall a, outstanding a b1 ≈ outstanding a b - of_asset a (asset_id fee) (amount fee)) as (fee & Hfee & Ew & Et & Eo).
  { destruct pays_fee; cbn [when] in R1.
    - apply pay_fee_Ok in R1 as (fee & [P1 P2 P3 P4]). now exists fee.
    - apply ret_Ok in R1 as [_ ->]. exists (mkAsset 0 0). repeat split. intros a. apply turns_eq. unfold of_asset. cbn [asset_id amount]. destruct (0 =? a); lia. }
  exists fee. split; [exact Hfee |].
  apply bind_Ok in R as (u2 & b2 & R2 & R). rewrite get_step in R. apply settle_all_moved in R2; [| now rewrite Ew].
  apply bind_Ok in R as ([] & b3 & R3 & R). apply bind_Ok in R as (sid & b4 & R4 & R). apply slate_moved in R4.
  unfold on_entry in R. apply modify_Ok in R.
  assert (moved still b2 b3) as R3'.
  { destruct (expiration (builder_trx b2) =? 0); cbn [when] in R3; [| apply ret_Ok in R3 as [_ ->]; now apply moved_still].
    apply bind_Ok in R3 as (t & b5 & R5 & R3). apply ask_Ok in R5 as [_ ->]. eapply build_moved; [exact R3 |].
    intros t1 t2 [= <-] a. unfold still. rewrite Z.add_0_r. reflexivity. }
  intros a. pose proof (moved_net _ _ _ (moved_trans _ _ _ _ _ R2 (moved_trans _ _ _ _ _ R3' R4)) a) as N.
  rewrite Ew, Et in N. subst b'. change (builder_trx (set_draft_entry _ b4)) with (builder_trx b4). rewrite N, owed_items.
  fold (outstanding a b1). rewrite (Eo a). unfold still, trx_surplus. apply turns_eq. lia.
Qed.

(** ** Transactions built from calls *)

Variable empty_object : variant.
Inductive BuilderCall :=
  | PayAddress (payer : WalletAccountEntry) (to : Address) (x : Asset) (memo : string)
  | PayMultisig (x : Asset) (from : string) (m : Z) (addresses : list Address)
  | RegisterName (name : string) (data : option variant) (owner : PublicKeyType) (active : option PublicKeyType)
      (pay : option Z) (info : option AccountMetaInfo) (paying : option WalletAccountEntry)
  | ChangeSigningKey (authorizing delegate : string) (key : PublicKeyType).
Definition run_call (call : BuilderCall) : M TransactionBuilder unit :=
  match call with
  | PayAddress payer to x memo => deposit_asset_to_address payer to x memo
  | PayMultisig x from m addresses => deposit_asset_to_multisig x from m addresses
  | RegisterName name data owner active pay info paying => build_register_account empty_object name data owner active pay info paying
  | ChangeSigningKey authorizing delegate key => update_signing_key blockchain authorizing delegate key
  end.
(** A payment to a multisig balance is charged a fee of its own. *)
Definition charge (w : Wallet) (call : BuilderCall) (a : AssetIdType) : Z :=
  match call, wallet_transaction_fee w with
  | PayMultisig _ _ _ _, Ok fee => of_asset a (asset_id fee) (amount fee)
  | _, _ => 0
  end.
Definition charges (w : Wallet) (calls : list BuilderCall) (a : AssetIdType) : Z :=
  foldr (fun call n => charge w call a + n) 0 calls.

(** The surplus grows by [f a], the wallet stays. *)
Definition leaves (f : AssetIdType -> Z) (b b' : TransactionBuilder) : Prop :=
  _wimpl b' = _wimpl b /\ forall a, trx_surplus a b' ≈ trx_surplus a b + f a.
Lemma leaves_trans f g b1 b2 b3 : leaves f b1 b2 -> leaves g b2 b3 -> leaves (fun a => f a + g a) b1 b3.
Proof. intros [W1 S1] [W2 S2]. split; [congruence |]. intros a. rewrite (S2 a), (S1 a). apply turns_eq. lia. Qed.
Lemma leaves_as f g b b' : leaves f b b' -> (forall a, f a = g a) -> leaves g b b'.
Proof. intros [W Hs] E. split; [exact W |]. intros a. now rewrite (Hs a), E. Qed.
Lemma leaves_build {A} (m : M SignedTransaction A) b x b' f : build m b = (Ok x, b') ->
  (forall t t', m t = (Ok x, t') -> forall a, net (_wimpl b) a t' = net (_wimpl b) a t + f a) -> leaves f b b'.
Proof.
  intros R Hm. pose proof (build_moved m b x b' f R Hm) as [_ O N].
  assert (_wimpl b' = _wimpl b) as W.
  { apply as_command_Ok in R as (c & R & _ & Ew & _). rewrite Ew. unfold on_draft, on_trx in R. cbn in R.
    destruct (m (builder_trx b)). injection R as _ <-. reflexivity. }
  split; [exact W |]. intros a. unfold trx_surplus, outstanding. rewrite W, O, (N a). apply turns_eq. lia.
Qed.
Lemma leaves_push op b x b' : build (modify (push_operation op)) b = (Ok x, b') -> leaves (fun a => op_net (_wimpl b) a op) b b'.
Proof. intros R. eapply leaves_build; [exact R |]. intros t t' E a. unfold modify in E. injection E as _ <-. apply net_push. Qed.
Lemma leaves_deduct addr y b u b' : deduct_balance addr y b = (Ok u, b') -> leaves (fun a => of_asset a (asset_id y) (amount y)) b b'.
Proof.
  intros R. apply deduct_owed in R as (W & T & O). split; [exact W |]. intros a. unfold trx_surplus. rewrite W, T, (O a).
  apply turns_eq. lia.
Qed.
Lemma leaves_nothing b b' : _wimpl b' = _wimpl b -> builder_trx b' = builder_trx b -> outstanding_balances b' = outstanding_balances b ->
  leaves still b b'.
Proof. intros W T O. split; [exact W |]. intros a. unfold trx_surplus, outstanding. rewrite W, T, O. apply turns_eq. unfold still. lia. Qed.
Lemma leaves_deposit c n op b x b' : op = OpDeposit (mkDepositOperation n c) ->
  build (fc_assert (0 <? n) ;;; modify (push_operation op)) b = (Ok x, b') -> leaves (fun a => - of_asset a (cond_asset_id c) n) b b'.
Proof.
  intros -> R. eapply leaves_build; [exact R |]. intros t t' E a. apply bind_Ok in E as (u & t1 & E1 & E).
  apply fc_assert_Ok in E1 as [_ <-]. unfold modify in E. injection E as _ <-. rewrite net_push. cbn. unfold of_asset.
  destruct (cond_asset_id c =? a); lia.
Qed.
Lemma asset_add_sum x y t : asset_add x y = Ok t -> asset_id t = asset_id x /\ asset_id y = asset_id x /\ amount t = amount x + amount y.
Proof.
  unfold asset_add, asset_add_assign. destruct (Z.eqb_spec (asset_id x) (asset_id y)) as [E |]; [| discriminate].
  cbn. destruct (_ || _); [discriminate |]. intros [= <-]. now repeat split.
Qed.
Lemma leaves_log e b u b' : log_entry e b = (Ok u, b') -> leaves still b b'.
Proof. intros [= _ <-]. now apply leaves_nothing. Qed.

Lemma call_leaves call b b' : run_call call b = (Ok tt, b') -> leaves (charge (_wimpl b) call) b b'.
Proof.
  intros R. destruct call as [payer to x memo | x from m addresses | name data owner active pay info paying | authorizing delegate key];
    cbn [run_call] in R.
  - unfold deposit_asset_to_address in R. apply bind_Ok in R as (u & b0 & R0 & R). apply throw_if_Ok in R0 as [_ <-].
    apply bind_Ok in R as (u1 & b1 & R1 & R). eapply leaves_deposit in R1; [| reflexivity].
    apply bind_Ok in R as (u2 & b2 & R2 & R). apply leaves_deduct in R2. apply leaves_log in R.
    eapply leaves_as; [exact (leaves_trans _ _ _ _ _ R1 (leaves_trans _ _ _ _ _ R2 R)) |]. intros i. unfold still. cbn. lia.
  - unfold deposit_asset_to_multisig in R. apply bind_Ok in R as (u & b0 & R0 & R). apply throw_if_Ok in R0 as [_ <-].
    apply bind_Ok in R as (payer & b0 & R0 & R). apply ask_Ok in R0 as [_ ->].
    apply bind_Ok in R as (fee & b0 & R0 & R). apply ask_Ok in R0 as [Ef ->].
    apply bind_Ok in R as (p & b0 & R0 & R). apply valid_or_Ok in R0 as [_ <-].
    apply bind_Ok in R as (u1 & b1 & R1 & R). eapply leaves_deposit in R1; [| reflexivity].
    apply bind_Ok in R as (total & b2 & R2 & R). apply lift_result_Ok in R2 as [Et <-].
    apply bind_Ok in R as (u2 & b2 & R2 & R). apply leaves_deduct in R2. apply leaves_log in R.
    eapply leaves_as; [exact (leaves_trans _ _ _ _ _ R1 (leaves_trans _ _ _ _ _ R2 R)) |]. intros i.
    apply asset_add_sum in Et as (Ei & Ea & Es). unfold still, charge. rewrite Ef. cbn. rewrite Ei, Ea, Es. unfold of_asset. destruct (_ =? i); lia.
  - unfold build_register_account in R. apply bind_Ok in R as (u & b1 & R1 & R).
    assert (leaves still b b1) as L1.
    { destruct paying as [p |]; [| apply ret_Ok in R1 as [_ ->]; now apply leaves_nothing].
      apply leaves_deduct in R1. eapply leaves_as; [exact R1 |]. intros i. unfold of_asset, still. cbn [asset_id amount]. now destruct (0 =? i). }
    apply bind_Ok in R as (u1 & b2 & R2 & R). apply leaves_push in R2. apply bind_Ok in R as (p & b3 & R3 & R).
    apply valid_or_Ok in R3 as [_ <-]. apply leaves_log in R.
    eapply leaves_as; [exact (leaves_trans _ _ _ _ _ L1 (leaves_trans _ _ _ _ _ R2 R)) |]. reflexivity.
  - unfold update_signing_key in R.
    apply bind_Ok in R as (w1 & b0 & R0 & R). apply ask_Ok in R0 as [_ ->].
    apply bind_Ok in R as (w2 & b0 & R0 & R). apply valid_or_Ok in R0 as [_ <-].
    apply bind_Ok in R as (d1 & b0 & R0 & R). apply lift_result_Ok in R0 as [_ <-].
    apply bind_Ok in R as (d2 & b0 & R0 & R). apply valid_or_Ok in R0 as [_ <-].
    apply bind_Ok in R as (u1 & b1 & R1 & R). apply leaves_push in R1.
    apply bind_Ok in R as (u2 & b2 & R2 & R). apply leaves_deduct in R2.
    apply bind_Ok in R as (k & b3 & R3 & R). apply lift_result_Ok in R3 as [_ <-].
    apply bind_Ok in R as (u3 & b3 & R3 & R). apply leaves_log in R3. unfold sign_for in R. apply modify_Ok in R.
    eapply leaves_as; [exact (leaves_trans _ _ _ _ _ R1 (leaves_trans _ _ _ _ _ R2 (leaves_trans _ _ _ _ _ R3
      (leaves_nothing b3 b' ltac:(now subst) ltac:(now subst) ltac:(now subst))))) |].
    intros i. unfold still, of_asset. cbn [asset_id amount charge op_net]. now destruct (0 =? i).
Qed.
Lemma calls_leave calls : forall b b', forM calls run_call b = (Ok tt, b') -> leaves (charges (_wimpl b) calls) b b'.
Proof.
  induction calls as [| call calls IH]; intros b b' R.
  - apply ret_Ok in R as [_ ->]. now apply leaves_nothing.
  - cbn [for_each] in R. apply bind_Ok in R as ([] & b1 & R1 & R). apply call_leaves in R1. apply IH in R.
    rewrite (proj1 R1) in R. exact (leaves_trans _ _ _ _ _ R1 R).
Qed.
Lemma new_surplus w a : trx_surplus a (new_builder w) = 0.
Proof. unfold trx_surplus, outstanding. cbn. now rewrite map_to_list_empty. Qed.

(** C9: The builder balances its books. A transaction that was built by payments to addresses and multisig balances, registrations and changes of signing keys, in any number and order and for any accounts, and finalized with any votes, withdraws of every asset from the balances of the wallet what it deposits, and the fee, and the fee charged for every payment to a multisig balance, modulo 2^64. *)
Theorem built_transaction_balances fuel pays_fee strategy w calls b' : filed w ->
  (forM calls run_call ;;; finalize blockchain fuel pays_fee strategy) (new_builder w) = (Ok tt, b') ->
  exists fee, fee_of pays_fee w fee
    /\ forall a, net w a (builder_trx b') ≈ charges w calls a + of_asset a (asset_id fee) (amount fee).
Proof.
  intros Hf R. apply bind_Ok in R as ([] & b & R1 & R). apply calls_leave in R1 as [Ew Es]. cbn [_wimpl new_builder] in *.
  apply finalize_net in R as (fee & Hfee & Hn); [| now rewrite Ew]. rewrite Ew in Hfee, Hn. exists fee. split; [exact Hfee |].
  intros a. rewrite (Hn a), (Es a), new_surplus. apply turns_eq. lia.
Qed.
End Books.
