(* ===== verification/WalletSamples.v ===== *)
(** * A sample transfer

    The wallet of WalletDbSamples.v holds two balances of one account; it makes
    a transfer that needs both, and a pending state evaluates it. *)

From Stdlib Require Import ZArith Lia Bool String QArith.
From stdpp Require Import base gmap strings list.
From S2P Require Import Prelude Amounts Asset Entries Names Addresses ChainInterface ChainState AssetEntry EvalState.
From S2P Require Import PendingChainState ChainTables Ledger QuietOperations LedgerTables ContractOperations Evaluate Total.
From S2P Require Import WalletDb WalletDbSamples Wallet WalletFunds WalletCommands.
From S2P Require Import WalletDraws TransferEvaluation TransferSettles TransferBuilds TransactionBuilder BuilderBooks.

Local Open Scope Z_scope.

#[local] Existing Instance wallet_params.
#[local] Existing Instance wallet_crypto.
#[local] Existing Instance reference_clock.
#[local] Existing Instance reference_vm.
#[local] Existing Instance sample_codec.
#[local] Existing Instance sample_machine.
#[local] Instance wallet_conversions : WalletParams := {|
  variant_of_asset := fun a => VIds [amount a; asset_id a];
  asset_of_variant := fun v => match v with VIds [n; id] => Ok (mkAsset n id) | _ => Err bad_cast_exception end;
  null_to_integer := Ok 0;
  object_field := fun _ _ => None;
  uint64_value := fun v => match v with VInt64 z => Some z | _ => None end;
  hash_order := fun A m => map_to_list m;
  random_shuffle := fun l => rev l
|}.
#[local] Instance wallet_conversions_laws : WalletParamsLaws.
Proof. split; intros; cbn; [now destruct a | reflexivity | symmetry; apply Permutation_rev]. Qed.
#[local] Instance wallet_signing : SigningLaws.
Proof. split; reflexivity. Qed.
#[local] Instance pending_steady : SteadyClock (PendingChainState ChainTables).
Proof. intros k key v s. destruct k; reflexivity. Qed.

(** The address of the key generated last *)
Definition second_address : Address := address_of_key (get_public_key 30010000000001).
Definition alice_funds : gmap BalanceIdType BalanceEntry :=
  <[balance_id (sample_balance 6012 3000) := sample_balance 6012 3000]>
    {[ balance_id (sample_balance second_address 2500) := sample_balance second_address 2500 ]}.
Definition alice_wallet : Wallet :=
  snd (set_transaction_expiration 3600 (mkWallet with_key 9 alice_funds false false)).
Definition alice_chain : PendingChainState ChainTables :=
  new_pending (Some (snd ((store_asset_entry (base_asset 5500) ;;;
    forM (map snd (map_to_list alice_funds)) store_balance_entry) empty_tables))).

(** ** Conditions, as checks *)

Definition in_order_check (w : Wallet) : bool :=
  wallet_is_open w && forallb (fun x => (balance_id (snd x) =? fst x)
    && match condition_owner (condition (snd x)) with Ok _ => true | Err _ => false end) (map_to_list (_balance_entrys w)).
Lemma checked_all {A} (f : Z * A -> bool) (m : gmap Z A) i x : forallb f (map_to_list m) = true -> m !! i = Some x -> f (i, x) = true.
Proof. intros Hc Hx. rewrite forallb_forall in Hc. apply Hc. now apply list_elem_of_In, elem_of_map_to_list. Qed.
Lemma in_order_checked w : in_order_check w = true -> in_order w.
Proof.
  intros [Ho Hc]%andb_prop. split; [exact Ho | |]; intros i e He; destruct (andb_prop _ _ (checked_all _ _ i e Hc He)) as [Hi Hr]; cbn in Hi, Hr.
  - destruct (condition_owner (condition e)) as [o |]; [now exists o | discriminate].
  - now apply Z.eqb_eq.
Qed.
Definition opens_check (w : Wallet) : bool :=
  forallb (fun x => match keys (_wallet_db w) !! snd x with
                    | Some k => negb (has_private_key (key_data k))
                        || match decrypt_private_key (_wallet_password w) (key_data k) with
                           | Ok sk => bool_decide (fst x ∈ addresses_of_key (get_public_key sk))
                           | Err _ => false
                           end
                    | None => true
                    end) (map_to_list (btc_to_alp_address (_wallet_db w))).
Lemma opens_checked w : opens_check w = true -> opens w.
Proof.
  intros Hc a k. unfold lookup_key. destruct (is_open _); [| discriminate]. intros [= Ek] Hp.
  destruct (btc_to_alp_address (_wallet_db w) !! a) as [b |] eqn:Eb; [cbn in Ek | discriminate].
  pose proof (checked_all _ _ a b Hc Eb) as E. cbn in E. rewrite Ek, Hp in E. cbn in E.
  destruct (decrypt_private_key _ _) as [sk |]; [| discriminate]. exists sk. split; [reflexivity | now apply bool_decide_eq_true in E].
Qed.

Lemma alice_in_order : in_order alice_wallet.
Proof. apply in_order_checked. vm_compute. reflexivity. Qed.
Lemma alice_opens : opens alice_wallet.
Proof. apply opens_checked. vm_compute. reflexivity. Qed.

(** ** Witnesses *)

Lemma withdraw_exact_witness : exists l, withdraw_to_transaction alice_wallet (mkAsset 5000 0) "alice" empty_draft = (Ok tt, with_draws l empty_draft)
  /\ drawn 0 (spendable_list alice_wallet "alice") 5000 l /\ NoDup (map (fun x => balance_id (fst x)) l).
Proof.
  assert ((5000 <=? funds_of 0 (spendable_list alice_wallet "alice")) = true) as Ef by (vm_compute; reflexivity).
  pose proof (withdraw_exact alice_wallet "alice" (mkAsset 5000 0) empty_draft alice_in_order) as Hw.
  cbn [amount asset_id] in Hw. rewrite Ef in Hw. apply Hw; [discriminate | split; [reflexivity | discriminate]].
Defined.

Lemma alice_ready : ready alice_chain alice_wallet "0.04" "ACT" "alice" (base_asset 5500) 4000 1000 1500003600.
Proof.
  split; try (vm_compute; reflexivity).
  - exact alice_in_order.
  - exact alice_opens.
  - eexists. vm_compute. reflexivity.
Qed.
Lemma alice_agrees : agrees alice_wallet "alice" 777 4000 1000 (base_asset 5500) alice_chain.
Proof.
  split.
  - intros i e He.
    assert (_balance_entrys alice_wallet = alice_funds) as Ef by (vm_compute; reflexivity). rewrite Ef in He.
    destruct (proj1 (lookup_insert_Some _ _ _ _ _) He) as [[<- <-] | [_ He']]; [vm_compute; split; [reflexivity | discriminate] |].
    destruct (proj1 (lookup_singleton_Some _ _ _ _) He') as [<- <-]. vm_compute. split; [reflexivity | discriminate].
  - intros e He.
    assert (forallb (fun e => cond_slate_id (condition e) =? 0) (spendable_list alice_wallet "alice") = true) as Hc by (vm_compute; reflexivity).
    revert He Hc. generalize (spendable_list alice_wallet "alice"). intros es He Hc.
    rewrite forallb_forall in Hc. apply Z.eqb_eq, Hc. now apply list_elem_of_In.
  - vm_compute. reflexivity.
  - vm_compute. reflexivity.
  - split; [reflexivity | vm_compute; split; discriminate].
  - vm_compute. discriminate.
  - vm_compute. split; [discriminate | reflexivity].
Qed.

Definition alice_pays : M Command WalletTransactionEntry :=
  transfer_asset_to_address alice_chain "0.04" "ACT" "alice" 777 "" vote_none true "".
Definition timely_check (trx : SignedTransaction) : bool :=
  (now alice_chain <? expiration trx)
  && (expiration trx <=? wrap_u32 (now alice_chain + (ALP_BLOCKCHAIN_BLOCK_INTERVAL_SEC + ALP_BLOCKCHAIN_MAX_TRANSACTION_EXPIRATION_SEC)))
  && negb (is_known_transaction alice_chain trx) && (trx_data_size trx <=? ALP_BLOCKCHAIN_MAX_TRX_SIZE).
Lemma timely_checked trx : timely_check trx = true -> timely alice_chain trx.
Proof.
  unfold timely_check. intros [[[H1 H2]%andb_prop H3]%andb_prop H4]%andb_prop.
  split; [now apply Z.ltb_lt | now apply Z.leb_le | now apply negb_true_iff | now apply Z.leb_le].
Qed.

Lemma transfer_accepted_witness : exists e c', alice_pays (mkCommand alice_wallet empty_draft) = (Ok e, c')
  /\ succeeds (evaluate_transaction (entry_trx e) false) (mkEvalContext new_evaluation_state alice_chain)
       (fun _ c => get_fees (ev c) 0 = 1000).
Proof.
  destruct (transfer_accepted alice_chain alice_wallet empty_draft "0.04" "ACT" "alice" (base_asset 5500) 4000 1000 1500003600
              777 "" alice_ready) as (e & c' & l & ks & E & _ & _ & _ & Hacc).
  - lia.
  - lia.
  - unfold INT64_MAX. lia.
  - vm_compute. discriminate.
  - exists e, c'. split; [exact E |].
    apply (Hacc ltac:(vm_compute; discriminate) ltac:(vm_compute; discriminate) (base_asset 5500) alice_chain false alice_agrees),
      timely_checked.
    assert (match fst (alice_pays (mkCommand alice_wallet empty_draft)) with Ok e => timely_check (entry_trx e) | Err _ => false end = true)
      as Hc by (vm_compute; reflexivity).
    unfold alice_pays in Hc. rewrite E in Hc. exact Hc.
Defined.

(** ** Payments to many addresses

    Each payment is drawn from the balances as they were before the others:
    the two below take 4000 shares and the fee 1000 from a balance of 3000,
    while another one is left, and the chain refuses the transaction. *)
Definition alice_pays_many : M Command WalletTransactionEntry :=
  transfer_asset_to_many_address alice_chain "ACT" "alice" {[ 777 := (2 # 100)%Q; 778 := (2 # 100)%Q ]} "" true.
Example many_overdrawn :
  match fst (alice_pays_many (mkCommand alice_wallet empty_draft)) with
  | Ok e => fst (evaluate_transaction (entry_trx e) false (mkEvalContext new_evaluation_state alice_chain))
  | Err x => Err x
  end = Err insufficient_funds.
Proof. vm_compute. reflexivity. Qed.

(** ** A transaction of the builder *)

Definition alice_entry : WalletAccountEntry :=
  match lookup_account_by_name (_wallet_db alice_wallet) "alice" with
  | Ok (Some e) => e
  | _ => mkWalletAccountEntry 0 (mkAccountData (sample_account 0 "") false 0 false false 0 VNull)
  end.
(** Two payments, one of them to a multisig balance, and a fee *)
Definition alice_calls : list BuilderCall :=
  [PayAddress alice_entry 777 (mkAsset 1500 0) "rent"; PayMultisig (mkAsset 1200 0) "alice" 1 [778; 779]].
Definition alice_builds : TransactionBuilder.TransactionBuilder :=
  snd ((forM alice_calls (run_call alice_chain VNull) ;;; finalize alice_chain 3 true vote_none) (new_builder alice_wallet)).
Lemma alice_filed : filed alice_wallet.
Proof. exact (balances_filed _ alice_in_order). Qed.
Lemma built_transaction_balances_witness : exists fee, wallet_transaction_fee alice_wallet = Ok fee /\ forall a,
  turns (net alice_wallet a (builder_trx alice_builds)) (charges alice_wallet alice_calls a + of_asset a (asset_id fee) (amount fee)).
Proof.
  apply (built_transaction_balances alice_chain VNull 3 true vote_none alice_wallet alice_calls alice_builds alice_filed).
  assert (fst ((forM alice_calls (run_call alice_chain VNull) ;;; finalize alice_chain 3 true vote_none) (new_builder alice_wallet)) = Ok tt)
    as E by (vm_compute; reflexivity).
  unfold alice_builds. rewrite <- E. apply run_pair.
Defined.
